(* ===== verification/_CoqProject ===== *)
-Q . S2P
Prelude.v
Bytes.v
Binary64.v
Printf.v
NormalUdp.v
World.v
CString.v
SubSocket.v
Frame.v
RawSock.v
Exanic.v
BitField.v
EfVi.v
EvqRxIter.v
Utils.v
Sockets.v
EfviClient.v
DLList.v
SLList.v
IpAddr.v
Hash.v
IpCsum.v
Fifo.v
Owords.v
DistQ.v
Atomic.v
EpLock.v
Snapshot.v
Cplane.v
CpClient.v
PktQueue.v
Rely.v
Chain.v
NonbPool.v
UdpRecvQ.v
AcceptQ.v
TcpSeq.v
Tcp.v
IpTime.v
IpTimer.v
TcpTimers.v
PktPool.v
SockAddr.v
ThrRef.v
RwLock.v
