(* ===== verification/Prelude.v ===== *)
(** * Market-data clients of the DCE level-2 feed: a verified model

    The repository holds clients that receive the multicast market data of the
    exchange and print it, one per way of reaching the network, together with
    the headers of the adapter's library that the kernel-bypass client is built
    against.  This development models the clients completely and the parts of
    the headers that carry code, and proves what makes them correct.

    ** The program and its parts

    Every client has the same shape: it sets up its source of packets, waits in
    an endless loop for a datagram or a frame, hands the payload to the packet
    handler (a closed library), which fills a 256-byte buffer with one of two
    packed records, clears prices that stand for "no quote", and prints a line.

    - [src/dce-sub-socket.c]: a UDP socket joined to the multicast group.
      [SubSocket]: [main] and its loop.
    - [src/normal_udp.h]: the packed records.  [NormalUdp]: layout, access
      through the cast pointer, clearing, printing, and the refinement of the
      byte-level code by the operation on records.  [Binary64] has the C type
      [double] as its pattern, [Printf] the conversions used, [World] the events
      a client exchanges with the outside and the handler's interface.
    - [src/RAWSOCK/dce-sub-raw-socket.c] and [src/EXANIC/dce-sub-exanic.c]: whole
      Ethernet frames from a packet socket and from an ExaNIC adapter.
      [Frame] has the code the two share (EtherType and VLAN test, address
      test, IP identification, gap warning, report), with an abstract
      description of the feed's frames; [RawSock] and [Exanic] have each [main].
    - [src/EF_VI/mc_client_efvi.cpp], [.h], [main.cpp]: the kernel-bypass client.
      [EfviClient]: the class with its free list, registered buffers,
      initialisation, refill, poll and event loop.
    - [src/EF_VI/utils.cpp], [utils.h]: its helpers.  [Utils]: the macros that
      check and abort, the filter parser, the integer exchange,
      [parse_interface]; [CString]: the string functions of C that they call;
      [Sockets]: the helpers over [getaddrinfo], [getifaddrs] and the sockets.
    - [src/EF_VI/include/etherfabric/ef_vi.h] and neighbours: the adapter's user
      interface.  [EfVi]: the event union (over [BitField]), its accessors, the
      rings and the inline functions; [EvqRxIter]: the receive iterator.
    - [src/EF_VI/include/ci] and [onload]: data structures and network code of
      the library's headers.  [DLList]: the doubly-linked lists
      ([ci/tools/dllist.h], [onload/oo_p_dllist.h]); [SLList]: the singly-linked ones
      ([ci/tools/sllist.h]); [IpAddr]: addresses and
      headers ([ci/net/ipv4.h], [ipv6.h], [ipvx.h], [ipvx_sh.h]); [Hash]: the hashes
      of the filter tables ([onload/hash.h]); [IpCsum]: the Internet checksum
      ([ci/tools/ipcsum.h]); [Fifo]: the ring buffers ([ci/tools/fifo.h]); [Owords]:
      the bit-fields of the adapter's words ([ci/tools/bitfield.h]); [DistQ]: the
      queue between two processes ([ci/tools/distq.h]).
    - The code that the processes of a network stack run on shared memory.
      [EpLock]: the lock word of a stack ([onload/eplock.h]); [Cplane]: the tables of
      addresses, interfaces and routes that the control-plane server publishes
      ([cplane/mib.h]); [CpClient]: their lock-free readers ([cplane/cplane.h],
      [hash.h], [mmap.h]); [PktQueue]: queues of packets and the accounting of
      receive buffers, [NonbPool]: the pool of packets without a lock, [UdpRecvQ]: the
      receive queue of a UDP socket (all [ci/internal/ip.h]); [AcceptQ]: the queue of
      accepted connections of a TCP listener and the lock word of a socket; [ThrRef]: the
      reference counts of a stack ([onload/tcp_helper_ref.h]); [RwLock]: the operations of the
      reader-writer lock that do not wait ([onload/ul/rwlock.h]).  Under them are three
      small theories of concurrent programs: [Atomic] (threads of atomic actions whose
      last action takes effect; linearizability), [Snapshot] (one program in an environment that keeps a
      protocol; version locks) and [Rely] (proof outlines, rely and guarantee); [Chain] has the
      lemmas on linked lists in memory that several of them use.
    - The code that runs on a stack under its lock ([ci/internal/ip.h] unless another
      file is named).  [TcpSeq]: comparison of sequence numbers; [Tcp]: windows,
      segment sizes, buffer space and the fast path of a TCP connection; [IpTime]: the
      clock, its units and the initial sequence numbers; [IpTimer]: the timer wheels
      ([ci/internal/iptimer.h]) on the offset lists of [DLList]; [TcpTimers]: the timers
      of a connection, written against the interface [Timers] that [IpTimer] implements;
      [PktPool]: packet sets and reference counts; [SockAddr]: conversion between
      socket addresses and address-port pairs.

    ** How code is modelled

    - A C function is a computation of the monad [cm]: a state passed along, and
      an [outcome] that is a value, an exit with a status, an abort, or undefined
      behaviour (an access outside an object, a null pointer given to [%s], a
      failed pointer dereference, a sum of [int]s outside their range where the code adds
      counters).  Undefined behaviour is never an ordinary
      value, so that a theorem that a run ends in [Ok] excludes it.
    - Integers are [Z] with [wrap] and [swrap] where the source's type cuts; bytes
      are [Byte.byte]; buffers are lists of bytes accessed at offsets within
      bounds; the hosts are little-endian.
    - Linked structures in memory ([DLList], the free list of [EfviClient]) live in
      finite maps from addresses, one per field, so that aliasing is real.
    - Code that is not in the repository is a parameter: the packet handler, the
      system calls' results, the ExaNIC library, the functions behind the
      pointers of [ef_vi] (class [VIOps] states what the header documents of
      them, [sim_ops] satisfies it), the resolver, the allocator (the client is followed
      when [strdup] in the filter parser succeeds; [Utils] has the other case), the functions of the
      stack's library that the timers call (class [TimerSet], with an instance).  Of the
      library functions that the packet pool calls nothing is assumed: a call is followed until it
      enters one of them.
    - Code that runs without a lock is a tree of atomic actions ([act]): a load, a
      store or a compare-and-swap each.  Threads interleave action by action under
      sequential consistency; the barriers of the source are what makes the
      hardware provide it.  [Rely] keeps an auxiliary history in the memory that the
      code never reads.
    - An endless loop is [serve] over the list of what its blocking call returns:
      any finite prefix of a run, [Ok tt] when the process is waiting for more.
      Other loops are recursive on their data, or take fuel that a theorem
      shows to be enough: the free-list loops of [EfviClient] (the ring's
      capacity), the receive iterator (the events left), list traversals
      (more than the length), the prefix loop (33 passes), the searches of
      [Cplane] (one pass for each row, 17 for the bits of a mask, 4 for a prefix), the
      packet queues (one pass for each packet and one more).  A loop that waits for
      other threads (a failed swap, a version that moved) is repeated as often as the
      run says; the version lock takes a number of passes, and without interference
      one is enough; a call of [ThrRef] comes with its number of passes and spins when they
      are used up, so that it never returns early.

    ** What the theorems show

    - The socket clients ([SubSocket], [RawSock], [Exanic]): on any input the
      loop does not leave its buffers or the process, and prints for each
      datagram or frame the line that the record the handler wrote calls for;
      every way [main] ends before the loop; bytes of an earlier datagram never
      show; the gap warnings are absent exactly for consecutive identifications.
    - [Frame]: the frame test accepts exactly the frames of the feed.
    - [EfviClient]: initialisation posts every buffer; the loop keeps every buffer
      in exactly one place; refill and poll do exactly their specification; which
      frames are reported; the composition in [main].
    - [Utils], [Sockets]: the filter parser is safe exactly on the strings that have every
      host the code reads, and inverts printing for Ethernet filters; integers survive the exchange; what
      [mk_socket] leaves behind on every path.
    - [EfVi], [EvqRxIter]: the bits that every accessor of events reads, agreement of
      the layouts the header requires to agree, ring accounting across
      wrap-around, independence of the flags; the iterator refines the walk.
    - [DLList]: sequences of calls compute on sequences of members, for both kinds
      of links; traversals end; the concurrent insertion inserts or restores.
    - [SLList]: the same for lists with one link; the loops of the header leave the list.
    - [IpAddr]: the bit tests decide what they mean on all 128-bit values; header
      fields read back; the text of an address fits, and is wrong for addresses
      that begin with a zero group.
    - [Hash]: the local-port recovery property that the header argues in comments;
      double hashing reaches every entry.
    - [IpCsum]: the routines compute the ones'-complement sum; copying is exact for lengths
      that an [int] holds.
    - [Fifo]: both ring buffers implement one interface, a bounded queue; the
      theorem about runs is proved against the interface.
    - [Owords]: populating and reading back every kind of word with any number of
      fields, on hosts of either word size; what setting a field changes, and what
      a field that crosses two members loses; no shift is out of range.
    - [DistQ]: two processes over shared indices, in every interleaving of their
      steps, refine a channel that neither loses, repeats nor reorders messages.
    - [EpLock]: for any number of threads every call returns what the lock's
      specification allows, one thread holds the lock, and no flag is lost.
    - [Cplane]: matching of prefixes, keys and rows against its definition on bits; the
      searches end inside the tables with the first match.
    - [CpClient]: what a look-up returns while the server publishes: rows of one
      published version, a route as it was at one moment; exactly the current tables
      when nothing moves.
    - [PktQueue]: the queues compute on lists of packets from any memory; the count of
      reserved buffers is the sum over the sockets, after every operation.
    - [NonbPool]: the lock-free pool is a stack for any number of threads: the counter
      in its word rules out that a stale link is installed.
    - [UdpRecvQ]: while one side puts packets and the other takes them, the reader
      gets every packet once and in order.
    - [AcceptQ]: the threads that accept take the connections in the order in which the
      stack put them, each once, in every interleaving.
    - [ThrRef]: three nested counts stay exact while threads take and drop references; an
      attempt that fails gives back what it took, a handler runs once.
    - [TcpSeq], [Tcp]: the comparisons order sequence numbers less than half the space
      apart; the bytes and packets outstanding and the space tests are those of the
      connection's history, with the inputs for which a sum of [int]s is undefined; the windows and the
      fast-path test are what their definitions say.
    - [IpTime]: conversions between units, and the order of clock readings and initial
      sequence numbers within the range where the 32-bit values can be compared.
    - [IpTimer], [TcpTimers]: setting, clearing and modifying timers on the wheels is
      setting, clearing and modifying a finite map from timers to times; the operations
      of a connection on its timers have the same effect on its own part of that map.
    - [PktPool]: every packet buffer is always free, referred to or handed to the library, and
      exactly one of these.
    - [SockAddr]: an address and port survive the conversions in both directions; what a
      short buffer gets.

    Theorems about faults state the fault: a datagram of an unexpected size is
    accepted, promiscuous mode is never set, a frame at the documented place is
    dropped by the ef_vi client, a filter string without its host passes a null pointer to the
    library, the iterator takes identifier 0 for the end, a copy of 2^31 bytes or more fails an assertion,
    [mk_socket] leaks, [::1] prints as [:1], a new transmitter of a distributed
    queue is full, the upper part of a bit-field that crosses members is lost, a
    look-up of the control plane keeps results of an abandoned pass, a prefix
    length of 1 and the hash of ports overflow, a search of a table with more than
    32767 rows turns its index negative, an interval of more than 2^32 microseconds wraps
    when it is converted, a scope of 65537 is taken for interface 1, and a copy of
    an address cut short loses its scope, the loops over singly-linked lists read
    behind the end, and an assertion of the reader-writer lock always fails.

    ** Not modelled

    - The packet handler libraries, [libciul] and the ExaNIC library: binaries.
    - [ci/efhw/mc_driver_pcol.h] and [ci/driver/efab/hardware]: generated tables of
      register and message constants without code.
    - The rest of [ci/internal] and [onload], [cplane/ioctl.h] and the like:
      declarations of functions that live in the library, structures, option tables and
      kernel interfaces.  The code among them mostly hands its arguments to such a
      function or to the kernel ([onload/ul/wqlock.h], the waiting operations of
      [onload/ul/rwlock.h], the remaining inline functions of [ci/internal/ip.h]), so that
      a model of it would say little more than its parameters do.
    - Platform headers other than the carry addition, and the documentation
      sources under [etherfabric/doxygen].
    - Timing: the polling loops are modelled by what they read. *)

From Stdlib Require Import ZArith Lia Strings.Byte.
From stdpp Require Export base list strings.
From stdpp Require Import tactics.

Declare Scope c_scope.
Delimit Scope c_scope with C.

#[global] Open Scope Z_scope.

(** * Machine integers *)

(** Value of a [w]-bit unsigned object after a store of [z]. *)
Definition wrap (w z : Z) : Z := z mod 2 ^ w.

(** Two's complement reading of the low [w] bits of [z]. *)
Definition swrap (w z : Z) : Z :=
  let u := wrap w z in if u <? 2 ^ (w - 1) then u else u - 2 ^ w.

Abbreviation u8 := (wrap 8).
Abbreviation u16 := (wrap 16).
Abbreviation u32 := (wrap 32).
Abbreviation u64 := (wrap 64).
Abbreviation i32 := (swrap 32).

(** * Outcomes and the state monad of the C functions *)

(** A C call falls through with a value, terminates the process with an exit
    status, calls [abort()], or has undefined behaviour (an access outside an
    object, a dereference of a null pointer). *)
Inductive outcome (A : Type) : Type :=
  | Ok (a : A)
  | Exit (status : Z)
  | Abort
  | Undef.
Arguments Ok {A} a.
Arguments Exit {A} status.
Arguments Abort {A}.
Arguments Undef {A}.

Definition cm (S A : Type) : Type := S -> S * outcome A.

Definition ret {S A} (a : A) : cm S A := fun s => (s, Ok a).
Definition stop {S A} (o : outcome A) : cm S A := fun s => (s, o).

Definition bind {S A B} (c : cm S A) (k : A -> cm S B) : cm S B :=
  fun s =>
    match c s with
    | (s', Ok a) => k a s'
    | (s', Exit z) => (s', Exit z)
    | (s', Abort) => (s', Abort)
    | (s', Undef) => (s', Undef)
    end.

Definition get {S} : cm S S := fun s => (s, Ok s).
Definition modify {S} (f : S -> S) : cm S unit := fun s => (f s, Ok tt).

(** A memory access: [None] is an access outside the object. *)
Definition access {S A} (o : option A) : cm S A :=
  match o with Some a => ret a | None => stop Undef end.

Notation "'let!' x ':=' c 'in' k" := (bind c (fun x => k))
  (at level 10, x name, c at level 100, k at level 200) : c_scope.
Notation "c ';;;' k" := (bind c (fun _ => k))
  (at level 199, right associativity) : c_scope.

Open Scope c_scope.

Lemma bind_ret_l {S A B} (a : A) (k : A -> cm S B) s : bind (ret a) k s = k a s.
Proof. done. Qed.

Lemma bind_assoc {S A B D} (c : cm S A) (k : A -> cm S B) (h : B -> cm S D) s :
  bind (bind c k) h s = bind c (fun a => bind (k a) h) s.
Proof. unfold bind. by destruct (c s) as [? []]. Qed.

Lemma bind_Ok {S A B} (c : cm S A) (k : A -> cm S B) s s' a :
  c s = (s', Ok a) -> bind c k s = k a s'.
Proof. unfold bind. by intros ->. Qed.

Lemma bind_get {S B} (k : S -> cm S B) s : bind get k s = k s s.
Proof. done. Qed.

Lemma bind_modify {S B} (f : S -> S) (k : unit -> cm S B) s : bind (modify f) k s = k tt (f s).
Proof. done. Qed.

(** [c] has no undefined behaviour and does not end the process with a status:
    it returns a value that satisfies [P] or aborts. *)
Definition yields {S A} (P : A -> Prop) (c : cm S A) : Prop :=
  forall s, match snd (c s) with Ok a => P a | Abort => True | Exit _ | Undef => False end.

Lemma yields_ret {S A} (P : A -> Prop) (a : A) : P a -> yields P (ret (S := S) a).
Proof. by intros H s. Qed.

Lemma yields_abort {S A} (P : A -> Prop) : yields P (stop (S := S) (@Abort A)).
Proof. by intros s. Qed.

Lemma yields_bind {S A B} (P : A -> Prop) (Q : B -> Prop) (c : cm S A) (k : A -> cm S B) :
  yields P c -> (forall a, P a -> yields Q (k a)) -> yields Q (bind c k).
Proof.
  intros Hc Hk s. specialize (Hc s). unfold bind. destruct (c s) as [s' [a|z| |]]; simpl in *; try done.
  by apply Hk.
Qed.

Lemma yields_seq {S A B} (Q : B -> Prop) (c : cm S A) (k : A -> cm S B) :
  yields (fun _ => True) c -> (forall a, yields Q (k a)) -> yields Q (bind c k).
Proof. intros Hc Hk. eapply yields_bind; [exact Hc|auto]. Qed.

Lemma yields_get {S} : yields (fun _ => True) (@get S).
Proof. done. Qed.

Lemma yields_modify {S} (f : S -> S) : yields (fun _ => True) (modify f).
Proof. done. Qed.

Lemma yields_access {S A} (o : option A) : is_Some o -> yields (fun _ => True) (access (S := S) o).
Proof. intros [a ->] s. done. Qed.

Create HintDb yields.
#[export] Hint Resolve yields_ret yields_abort yields_get yields_modify yields_access : yields.

(** How one pass of a loop body ends. *)
Inductive loopctl := LNext | LBreak.

(** A [while (1)] loop fed by a finite sequence of inputs, one per blocking
    call at the head of the body.  [Ok tt] after the last input is a process
    that waits in that call; after a [break] the code behind the loop runs. *)
Fixpoint serve {S I : Type} (body : I -> cm S loopctl) (after : cm S unit)
    (ins : list I) : cm S unit :=
  match ins with
  | [] => ret tt
  | i :: ins' =>
      let! c := body i in
      match c with
      | LNext => serve body after ins'
      | LBreak => after
      end
  end.

(** Serving a sequence in two parts is serving its concatenation, when the
    first part leaves the process in its loop and the code behind the loop ends
    the process. *)
Lemma serve_app_run {S I} (body : I -> cm S loopctl) after ins1 i ins2 s s' :
  serve body after ins1 s = (s', Ok tt) ->
  (forall st st', after st <> (st', Ok tt)) ->
  serve body after (ins1 ++ i :: ins2) s = serve body after (i :: ins2) s'.
Proof.
  intros Hr Ha. revert s Hr. induction ins1 as [|j ins1 IH]; intros s Hr.
  { simpl in Hr. unfold ret in Hr. injection Hr as ->. done. }
  cbn [serve app] in *. unfold bind in *.
  destruct (body j s) as [s1 [[]|z| |]]; try done; [by apply IH|].
  by apply Ha in Hr.
Qed.

(** An invariant of the body is an invariant of the loop. *)
Lemma serve_inv {S I} (P : S -> Prop) (body : I -> cm S loopctl) after ins s s' o :
  (forall i st st' r, P st -> body i st = (st', r) -> P st') ->
  (forall st st' r, P st -> after st = (st', r) -> P st') ->
  P s -> serve body after ins s = (s', o) -> P s'.
Proof.
  intros Hb Ha. revert s. induction ins as [|i ins IH]; simpl; intros s HP Hs.
  - unfold ret in Hs. congruence.
  - unfold bind in Hs. destruct (body i s) as [s1 [[]|z| |]] eqn:E;
      pose proof (Hb _ _ _ _ HP E); simplify_eq; eauto.
Qed.

(** * Arithmetic of [wrap] and [swrap] *)

Lemma wrap_range w z : 0 <= w -> 0 <= wrap w z < 2 ^ w.
Proof. intros. unfold wrap. apply Z.mod_pos_bound, Z.pow_pos_nonneg; lia. Qed.

Lemma wrap_small w z : 0 <= z < 2 ^ w -> wrap w z = z.
Proof. apply Z.mod_small. Qed.

Lemma wrap_wrap w z : wrap w (wrap w z) = wrap w z.
Proof. apply Zmod_mod. Qed.

Lemma wrap_add_l w a b : wrap w (wrap w a + b) = wrap w (a + b).
Proof. apply Zplus_mod_idemp_l. Qed.

Lemma wrap_add_r w a b : wrap w (a + wrap w b) = wrap w (a + b).
Proof. apply Zplus_mod_idemp_r. Qed.

Lemma wrap_sub_l w a b : wrap w (wrap w a - b) = wrap w (a - b).
Proof. apply Zminus_mod_idemp_l. Qed.

Lemma wrap_sub_r w a b : wrap w (a - wrap w b) = wrap w (a - b).
Proof. apply Zminus_mod_idemp_r. Qed.

Lemma swrap_range w z : 0 < w -> - 2 ^ (w - 1) <= swrap w z < 2 ^ (w - 1).
Proof.
  intros Hw. unfold swrap. pose proof (wrap_range w z ltac:(lia)).
  assert (2 ^ w = 2 * 2 ^ (w - 1)) by (rewrite <- Z.pow_succ_r by lia; f_equal; lia).
  destruct (Z.ltb_spec (wrap w z) (2 ^ (w - 1))); lia.
Qed.

Lemma swrap_small w z : 0 < w -> 0 <= z < 2 ^ (w - 1) -> swrap w z = z.
Proof.
  intros Hw Hz. unfold swrap.
  assert (2 ^ w = 2 * 2 ^ (w - 1)) by (rewrite <- Z.pow_succ_r by lia; f_equal; lia).
  rewrite wrap_small by lia. destruct (Z.ltb_spec z (2 ^ (w - 1))); lia.
Qed.

Lemma wrap_swrap w z : 0 < w -> wrap w (swrap w z) = wrap w z.
Proof.
  intros Hw. unfold swrap. destruct (_ <? _); [apply wrap_wrap|].
  unfold wrap. rewrite <- (Z_mod_plus_full (z mod 2 ^ w - 2 ^ w) 1).
  replace (z mod 2 ^ w - 2 ^ w + 1 * 2 ^ w) with (z mod 2 ^ w) by lia.
  apply Zmod_mod.
Qed.

Create HintDb cint.
Create Rewrite HintDb cint.
#[export] Hint Rewrite wrap_wrap wrap_add_l wrap_add_r wrap_sub_l wrap_sub_r : cint.
#[export] Hint Resolve wrap_range swrap_range : cint.

(** * Tactics *)

(** Symbolic execution of the monad: unfolds the operators and splits on the
    first scrutinee that blocks the evaluation. *)
Ltac cunfold :=
  unfold bind, ret, stop, get, modify, access in *; simpl in *.

Ltac cstep :=
  match goal with
  | H : context [match ?x with _ => _ end] |- _ => destruct x eqn:?; simplify_eq
  | |- context [match ?x with _ => _ end] => destruct x eqn:?; simplify_eq
  end.

(** Reflects the comparisons of the code into [Prop]. *)
Ltac zbool :=
  repeat match goal with
  | H : (_ <? _) = true |- _ => apply Z.ltb_lt in H
  | H : (_ <? _) = false |- _ => apply Z.ltb_ge in H
  | H : (_ <=? _) = true |- _ => apply Z.leb_le in H
  | H : (_ <=? _) = false |- _ => apply Z.leb_gt in H
  | H : (_ =? _) = true |- _ => apply Z.eqb_eq in H
  | H : (_ =? _) = false |- _ => apply Z.eqb_neq in H
  | H : (_ && _)%bool = true |- _ => apply andb_prop in H; destruct H
  | H : (_ || _)%bool = false |- _ => apply orb_false_elim in H; destruct H
  | H : negb _ = true |- _ => apply negb_true_iff in H
  | H : negb _ = false |- _ => apply negb_false_iff in H
  end.

(** * Lists *)

Lemma take_app_exact {A} (l k : list A) n : n = length l -> take n (l ++ k) = l.
Proof. intros ->. by rewrite take_app_length. Qed.

Lemma drop_app_exact {A} (l k : list A) n : n = length l -> drop n (l ++ k) = k.
Proof. intros ->. by rewrite drop_app_length. Qed.

(** The last element, starting from a value: pushing the head on the default. *)
Lemma last_cons_default {A} (x d : A) (l : list A) : List.last (x :: l) d = List.last l x.
Proof.
  revert x d. induction l as [|y l IH]; intros x d; [done|].
  change (List.last (x :: y :: l) d) with (List.last (y :: l) d). by rewrite !IH.
Qed.
