(* ===== verification/Bytes.v ===== *)
(** * Bytes: C objects as byte sequences

    A character buffer of the clients ([char message[2048]], [char
    output_data[256]], a received frame) is a list of bytes.  Loads and stores
    through a cast pointer (a 16-bit read at [p + off], [best->bid_price = 0])
    are bounds-checked accesses at a byte offset: [None] is an access outside
    the object.  The clients run on little-endian hosts, and [ntohs] and
    [ntohl] exchange the bytes. *)

From Stdlib Require Import ZArith Lia Strings.Byte.
From S2P Require Import Prelude.

(** ** Bytes and integers *)

Definition b2z (b : byte) : Z := Z.of_N (Byte.to_N b).
Definition z2b (z : Z) : byte :=
  match Byte.of_N (Z.to_N (u8 z)) with Some b => b | None => x00 end.

Lemma b2z_range b : 0 <= b2z b < 256.
Proof. unfold b2z. pose proof (Byte.to_N_bounded b). lia. Qed.

Lemma z2b_b2z b : z2b (b2z b) = b.
Proof. by destruct b. Qed.

Lemma b2z_z2b z : b2z (z2b z) = u8 z.
Proof.
  unfold z2b, b2z. pose proof (wrap_range 8 z ltac:(lia)) as Hr.
  destruct (Byte.of_N (Z.to_N (u8 z))) as [b|] eqn:E.
  - apply Byte.to_of_N in E. rewrite E. lia.
  - apply Byte.of_N_None_iff in E. lia.
Qed.

Lemma b2z_inj a b : b2z a = b2z b -> a = b.
Proof. intros H. by rewrite <- (z2b_b2z a), H, z2b_b2z. Qed.

#[export] Instance byte_EqDecision : EqDecision byte := Byte.byte_eq_dec.

#[export] Hint Resolve b2z_range : cint.

(** ** Little-endian integers of any width *)

Fixpoint le_decode (bs : list byte) : Z :=
  match bs with
  | [] => 0
  | b :: bs' => b2z b + 256 * le_decode bs'
  end.

Fixpoint le_encode (n : nat) (z : Z) : list byte :=
  match n with
  | O => []
  | S n' => z2b z :: le_encode n' (z / 256)
  end.

Lemma le_encode_length n z : length (le_encode n z) = n.
Proof. revert z. induction n; simpl; auto. Qed.

Lemma pow256_S n : 2 ^ (8 * Z.of_nat (S n)) = 256 * 2 ^ (8 * Z.of_nat n).
Proof. replace (8 * Z.of_nat (S n)) with (8 + 8 * Z.of_nat n) by lia. by rewrite Z.pow_add_r by lia. Qed.

Lemma le_decode_range bs : 0 <= le_decode bs < 2 ^ (8 * Z.of_nat (length bs)).
Proof.
  induction bs as [|b bs IH]; [done|].
  simpl le_decode. simpl length. rewrite pow256_S.
  pose proof (b2z_range b). nia.
Qed.

Lemma le_decode_encode n z : le_decode (le_encode n z) = wrap (8 * Z.of_nat n) z.
Proof.
  revert z. induction n as [|n IH]; intros z; simpl le_encode; simpl le_decode.
  - unfold wrap. by rewrite Z.mod_1_r.
  - rewrite IH, b2z_z2b. unfold wrap. rewrite pow256_S.
    rewrite Z.rem_mul_r by (try apply Z.pow_nonzero; try apply Z.pow_pos_nonneg; lia).
    by change (2 ^ 8) with 256.
Qed.

Lemma le_encode_decode bs : le_encode (length bs) (le_decode bs) = bs.
Proof.
  induction bs as [|b bs IH]; [done|]. simpl. pose proof (b2z_range b).
  replace ((b2z b + 256 * le_decode bs) / 256) with (le_decode bs)
    by (rewrite (Z.mul_comm 256), Z.div_add, Z.div_small; lia).
  rewrite IH. f_equal. rewrite <- (z2b_b2z b) at 2.
  apply b2z_inj. rewrite !b2z_z2b. unfold wrap. change (2 ^ 8) with 256.
  by rewrite (Z.mul_comm 256), Z_mod_plus_full.
Qed.

(** Two buffers of one length with the same value are the same. *)
Lemma le_decode_inj a b : length a = length b -> le_decode a = le_decode b -> a = b.
Proof. intros Hl Hd. rewrite <- (le_encode_decode a), <- (le_encode_decode b). by rewrite Hl, Hd. Qed.

(** ** Loads and stores at an offset *)

Definition load (off n : nat) (buf : list byte) : option (list byte) :=
  if decide (off + n <= length buf)%nat then Some (take n (drop off buf)) else None.

Definition store (off : nat) (bs : list byte) (buf : list byte) : option (list byte) :=
  if decide (off + length bs <= length buf)%nat
  then Some (take off buf ++ bs ++ drop (off + length bs) buf) else None.

(** Unsigned integer of [n] bytes at [off]. *)
Definition load_le (off n : nat) (buf : list byte) : option Z :=
  le_decode <$> load off n buf.

Abbreviation load8 off := (load_le off 1).
Abbreviation load16 off := (load_le off 2).
Abbreviation load32 off := (load_le off 4).
Abbreviation load64 off := (load_le off 8).

(** [memset(buf, 0x00, n)] on an object of [n] bytes. *)
Definition zeros (n : nat) : list byte := replicate n x00.

(** What [recv(…, buf, sizeof(buf), 0)] leaves in [buf]: the datagram, cut at
    the size of the buffer, over the first bytes; the others keep their value. *)
Definition recv_into (buf data : list byte) : list byte :=
  take (length buf) data ++ drop (length data) buf.

#[global] Arguments recv_into : simpl never.

(** [ntohs] and [ntohl] of a little-endian host. *)
Definition ntohs (x : Z) : Z := Z.lor (Z.shiftl (Z.land x 255) 8) (Z.shiftr x 8).
Definition ntohl (x : Z) : Z :=
  Z.lor (Z.lor (Z.shiftl (Z.land x 255) 24)
               (Z.shiftl (Z.land (Z.shiftr x 8) 255) 16))
        (Z.lor (Z.shiftl (Z.land (Z.shiftr x 16) 255) 8) (Z.shiftr x 24)).

(** Big-endian reading, the byte order of the network headers. *)
Fixpoint be_decode (acc : Z) (bs : list byte) : Z :=
  match bs with
  | [] => acc
  | b :: bs' => be_decode (256 * acc + b2z b) bs'
  end.

Lemma store_length off bs buf buf' :
  store off bs buf = Some buf' -> length buf' = length buf.
Proof.
  unfold store. case_decide; [|done]. intros [= <-].
  rewrite !length_app, length_take, length_drop. lia.
Qed.

Lemma load_length off n buf bs : load off n buf = Some bs -> length bs = n.
Proof.
  unfold load. case_decide; [|done]. intros [= <-].
  rewrite length_take, length_drop. lia.
Qed.

Lemma load_Some off n buf : (off + n <= length buf)%nat -> is_Some (load off n buf).
Proof. intros. unfold load. rewrite decide_True by lia. eauto. Qed.

Lemma store_Some off bs buf :
  (off + length bs <= length buf)%nat -> is_Some (store off bs buf).
Proof. intros. unfold store. rewrite decide_True by lia. eauto. Qed.

Lemma load_store_same off bs buf buf' :
  store off bs buf = Some buf' -> load off (length bs) buf' = Some bs.
Proof.
  intros Hs. pose proof (store_length _ _ _ _ Hs) as Hl. revert Hs Hl.
  unfold store, load. case_decide; [|done]. intros [= <-] Hl.
  rewrite decide_True by lia. f_equal.
  rewrite drop_app_exact by (rewrite length_take; lia).
  by apply take_app_exact.
Qed.

Lemma load_store_disjoint off bs buf buf' off' n :
  store off bs buf = Some buf' ->
  (off' + n <= off \/ off + length bs <= off')%nat ->
  load off' n buf' = load off' n buf.
Proof.
  intros Hs Hd. pose proof (store_length _ _ _ _ Hs) as Hl. revert Hs Hl.
  unfold store, load. case_decide; [|done]. intros [= <-] Hl. rewrite Hl.
  case_decide; [|done]. f_equal. apply list_eq. intros i.
  destruct (decide (i < n)%nat); [|rewrite !lookup_take_ge by lia; done].
  rewrite !lookup_take_lt, !lookup_drop by lia.
  destruct Hd.
  - by rewrite lookup_app_l, lookup_take_lt by (rewrite ?length_take; lia).
  - rewrite lookup_app_r, lookup_app_r, lookup_drop by (rewrite ?length_take; lia).
    f_equal. rewrite length_take. lia.
Qed.

Lemma load_le_Some off n buf :
  (off + n <= length buf)%nat -> is_Some (load_le off n buf).
Proof. intros H. unfold load_le. apply fmap_is_Some. by apply load_Some. Qed.

Lemma load_le_range off n buf z :
  load_le off n buf = Some z -> 0 <= z < 2 ^ (8 * Z.of_nat n).
Proof.
  unfold load_le. intros (bs & Hl & ->)%fmap_Some.
  rewrite <- (load_length _ _ _ _ Hl). apply le_decode_range.
Qed.

Lemma load_le_store_same off n z buf buf' :
  store off (le_encode n z) buf = Some buf' ->
  load_le off n buf' = Some (wrap (8 * Z.of_nat n) z).
Proof.
  intros H%load_store_same. rewrite le_encode_length in H.
  unfold load_le. by rewrite H; simpl; rewrite le_decode_encode.
Qed.

Lemma load_le_store_disjoint off bs buf buf' off' n :
  store off bs buf = Some buf' ->
  (off' + n <= off \/ off + length bs <= off')%nat ->
  load_le off' n buf' = load_le off' n buf.
Proof. intros. unfold load_le. by erewrite load_store_disjoint. Qed.

Lemma recv_into_length buf data : length (recv_into buf data) = length buf.
Proof. unfold recv_into. rewrite length_app, length_take, length_drop. lia. Qed.

(** A load inside the received bytes does not see what the buffer held before. *)
Lemma load_recv_into buf data off n :
  (off + n <= length data)%nat -> (length data <= length buf)%nat ->
  load off n (recv_into buf data) = load off n data.
Proof.
  intros H1 H2. unfold load. rewrite recv_into_length, !decide_True by lia. f_equal.
  unfold recv_into. rewrite (take_ge data) by lia.
  rewrite drop_app_le, take_app_le by (rewrite ?length_drop; lia). done.
Qed.

Lemma load_le_recv_into buf data off n :
  (off + n <= length data)%nat -> (length data <= length buf)%nat ->
  load_le off n (recv_into buf data) = load_le off n data.
Proof. intros. unfold load_le. by rewrite load_recv_into. Qed.

(** ** The byte order of the network *)

Lemma land_255 x : Z.land x 255 = x mod 256.
Proof. change 255 with (Z.ones 8). by rewrite Z.land_ones. Qed.

Lemma land_shiftl_low a b n : 0 <= n -> 0 <= b < 2 ^ n -> Z.land (Z.shiftl a n) b = 0.
Proof.
  intros Hn Hb. apply Z.bits_inj'. intros i Hi. rewrite Z.land_spec, Z.bits_0.
  destruct (Z.ltb_spec i n).
  - by rewrite Z.shiftl_spec_low.
  - rewrite <- (Z.mod_small b (2 ^ n)), Z.mod_pow2_bits_high by lia. apply andb_false_r.
Qed.

Lemma lor_shiftl_add a b n : 0 <= n -> 0 <= b < 2 ^ n ->
  Z.lor (Z.shiftl a n) b = a * 2 ^ n + b.
Proof.
  intros Hn Hb. pose proof (land_shiftl_low a b n Hn Hb) as H0.
  rewrite <- Z.lxor_lor, <- Z.add_nocarry_lxor, Z.shiftl_mul_pow2; auto.
Qed.

(** [ntohs] turns a little-endian load of two bytes into their big-endian
    value, which is the value of the header field. *)
Lemma ntohs_load b0 b1 : ntohs (le_decode [b0; b1]) = be_decode 0 [b0; b1].
Proof.
  unfold ntohs. simpl le_decode. simpl be_decode.
  pose proof (b2z_range b0). pose proof (b2z_range b1).
  rewrite land_255, Z.shiftr_div_pow2 by lia. change (2 ^ 8) with 256.
  replace ((b2z b0 + 256 * (b2z b1 + 256 * 0)) mod 256) with (b2z b0)
    by (rewrite <- (Z.mod_unique _ 256 (b2z b1) (b2z b0)); lia).
  replace ((b2z b0 + 256 * (b2z b1 + 256 * 0)) / 256) with (b2z b1)
    by (rewrite <- (Z.div_unique _ 256 (b2z b1) (b2z b0)); lia).
  rewrite lor_shiftl_add by lia. lia.
Qed.

Lemma ntohl_load b0 b1 b2 b3 :
  ntohl (le_decode [b0; b1; b2; b3]) = be_decode 0 [b0; b1; b2; b3].
Proof.
  unfold ntohl. simpl le_decode. simpl be_decode.
  pose proof (b2z_range b0). pose proof (b2z_range b1).
  pose proof (b2z_range b2). pose proof (b2z_range b3).
  set (x := b2z b0 + _). rewrite !land_255, !Z.shiftr_div_pow2 by lia.
  change (2 ^ 8) with 256. change (2 ^ 16) with 65536. change (2 ^ 24) with 16777216.
  replace (x mod 256) with (b2z b0)
    by (apply (Z.mod_unique _ _ (b2z b1 + 256 * (b2z b2 + 256 * b2z b3))); lia).
  replace (x / 256) with (b2z b1 + 256 * (b2z b2 + 256 * b2z b3))
    by (apply (Z.div_unique _ _ _ (b2z b0)); lia).
  replace (x / 65536) with (b2z b2 + 256 * b2z b3)
    by (apply (Z.div_unique _ _ _ (b2z b0 + 256 * b2z b1)); lia).
  replace (x / 16777216) with (b2z b3)
    by (apply (Z.div_unique _ _ _ (b2z b0 + 256 * b2z b1 + 65536 * b2z b2)); lia).
  replace ((b2z b1 + 256 * (b2z b2 + 256 * b2z b3)) mod 256) with (b2z b1)
    by (apply (Z.mod_unique _ _ (b2z b2 + 256 * b2z b3)); lia).
  replace ((b2z b2 + 256 * b2z b3) mod 256) with (b2z b2)
    by (apply (Z.mod_unique _ _ (b2z b3)); lia).
  rewrite (lor_shiftl_add (b2z b2)) by lia.
  rewrite <- Z.lor_assoc, (lor_shiftl_add (b2z b1) (b2z b2 * 2 ^ 8 + b2z b3) 16) by lia.
  rewrite lor_shiftl_add by lia. lia.
Qed.

#[export] Hint Rewrite recv_into_length le_encode_length : cint.
