(* ===== verification/Binary64.v ===== *)
(** * Binary64: the C type [double]

    A [double] member of a packed record is kept as its 64-bit pattern; the
    comparison [price > 0xffff] of the clients is the IEEE-754 one, taken from
    the specification of floating-point numbers of the standard library. *)

From Stdlib Require Import ZArith Lia SpecFloat.
From S2P Require Import Prelude.

(** The fields of the pattern: sign, biased exponent, fraction. *)
Definition f64_sign (x : Z) : bool := Z.testbit x 63.
Definition f64_expo (x : Z) : Z := Z.land (Z.shiftr x 52) 2047.
Definition f64_frac (x : Z) : Z := Z.land x (2 ^ 52 - 1).

(** The number a pattern denotes. *)
Definition f64_val (x : Z) : spec_float :=
  let s := f64_sign x in let e := f64_expo x in let m := f64_frac x in
  if e =? 0 then
    match m with Zpos p => S754_finite s p (-1074) | _ => S754_zero s end
  else if e =? 2047 then
    (if m =? 0 then S754_infinity s else S754_nan)
  else
    match 2 ^ 52 + m with Zpos p => S754_finite s p (e - 1075) | _ => S754_nan end.

(** [x > y] in C. *)
Definition f64_gt (x y : Z) : bool := SFltb (f64_val y) (f64_val x).

(** The constants [0.0] and [(double) 0xffff]. *)
Definition f64_0 : Z := 0.
Definition f64_0xffff : Z := 0x40EFFFE000000000.

#[global] Arguments f64_gt : simpl never.
#[global] Arguments f64_0xffff : simpl never.

(** The value of a finite number in units of [2^-1074], the spacing of the
    subnormal numbers, in which every finite number is an integer. *)
Definition f64_units (x : Z) : option Z :=
  match f64_val x with
  | S754_zero _ => Some 0
  | S754_finite s m e => Some ((if s then -1 else 1) * (Zpos m * 2 ^ (e + 1074)))
  | _ => None
  end.

Definition f64_is_nan (x : Z) : bool :=
  match f64_val x with S754_nan => true | _ => false end.

(** Shape of the finite numbers [f64_val] returns. *)
Definition canon (m : positive) (e : Z) : Prop :=
  Zpos m < 2 ^ 53 /\ -1074 <= e /\ (e <> -1074 -> 2 ^ 52 <= Zpos m).

Lemma f64_frac_range x : 0 <= f64_frac x < 2 ^ 52.
Proof.
  unfold f64_frac. change (2 ^ 52 - 1) with (Z.ones 52). rewrite Z.land_ones by lia.
  apply Z.mod_pos_bound. lia.
Qed.

Lemma f64_expo_range x : 0 <= f64_expo x < 2048.
Proof.
  unfold f64_expo. change 2047 with (Z.ones 11). rewrite Z.land_ones by lia.
  apply Z.mod_pos_bound. lia.
Qed.

Lemma f64_val_canon x s m e : f64_val x = S754_finite s m e -> canon m e.
Proof.
  unfold f64_val, canon. pose proof (f64_frac_range x). pose proof (f64_expo_range x).
  destruct (Z.eqb_spec (f64_expo x) 0).
  - destruct (f64_frac x) eqn:E; intros [=]; subst; lia.
  - destruct (Z.eqb_spec (f64_expo x) 2047); [by destruct (_ =? _)|].
    destruct (2 ^ 52 + f64_frac x) eqn:E; intros [=]; subst; lia.
Qed.

(** Canonical magnitudes are ordered as their pairs (exponent, mantissa). *)
Lemma canon_lt m1 e1 m2 e2 : canon m1 e1 -> canon m2 e2 -> e1 < e2 ->
  Zpos m1 * 2 ^ (e1 + 1074) < Zpos m2 * 2 ^ (e2 + 1074).
Proof.
  intros (H1 & H1' & _) (_ & H2' & H2) He. specialize (H2 ltac:(lia)).
  assert (0 < 2 ^ (e1 + 1074)) by (apply Z.pow_pos_nonneg; lia).
  apply Z.lt_le_trans with (2 ^ 53 * 2 ^ (e1 + 1074)); [nia|].
  apply Z.le_trans with (2 ^ 52 * 2 ^ (e2 + 1074)).
  - rewrite <- !Z.pow_add_r by lia. apply Z.pow_le_mono_r; lia.
  - apply Z.mul_le_mono_nonneg_r; [apply Z.pow_nonneg; lia|lia].
Qed.

Lemma canon_compare m1 e1 m2 e2 : canon m1 e1 -> canon m2 e2 ->
  Z.compare (Zpos m1 * 2 ^ (e1 + 1074)) (Zpos m2 * 2 ^ (e2 + 1074)) =
  match Z.compare e1 e2 with
  | Lt => Lt | Gt => Gt | Eq => Pos.compare_cont Eq m1 m2
  end.
Proof.
  intros C1 C2. destruct (Z.compare_spec e1 e2) as [->|Hlt|Hgt].
  - rewrite <- Zmult_compare_compat_r; [done|].
    apply Z.lt_gt, Z.pow_pos_nonneg; destruct C2 as (_ & ? & _); lia.
  - apply Z.compare_lt_iff. by apply canon_lt.
  - apply Z.compare_gt_iff. by apply canon_lt.
Qed.

(** The comparison is exact: on finite operands it compares the values. *)
Lemma f64_gt_exact x y vx vy :
  f64_units x = Some vx -> f64_units y = Some vy -> f64_gt x y = (vy <? vx).
Proof.
  unfold f64_units, f64_gt, SFltb, SFcompare.
  destruct (f64_val x) as [sx|sx| |sx mx ex] eqn:Ex; intros [=]; subst;
  destruct (f64_val y) as [sy|sy| |sy my ey] eqn:Ey; intros [=]; subst; try done.
  - assert (0 < Zpos my * 2 ^ (ey + 1074)).
    { apply Z.mul_pos_pos; [lia|]. apply Z.pow_pos_nonneg; [lia|].
      destruct (f64_val_canon _ _ _ _ Ey). lia. }
    destruct sy; symmetry; [apply Z.ltb_lt|apply Z.ltb_ge]; lia.
  - assert (0 < Zpos mx * 2 ^ (ex + 1074)).
    { apply Z.mul_pos_pos; [lia|]. apply Z.pow_pos_nonneg; [lia|].
      destruct (f64_val_canon _ _ _ _ Ex). lia. }
    destruct sx; symmetry; [apply Z.ltb_ge|apply Z.ltb_lt]; lia.
  - apply f64_val_canon in Ex, Ey. pose proof (canon_compare _ _ _ _ Ey Ex) as HC.
    unfold Z.ltb.
    set (X := Zpos mx * 2 ^ (ex + 1074)) in *. set (Y := Zpos my * 2 ^ (ey + 1074)) in *.
    assert (0 < X) by (apply Z.mul_pos_pos; [lia|]; apply Z.pow_pos_nonneg; [lia|];
                       destruct Ex as (_ & ? & _); lia).
    assert (0 < Y) by (apply Z.mul_pos_pos; [lia|]; apply Z.pow_pos_nonneg; [lia|];
                       destruct Ey as (_ & ? & _); lia).
    destruct sx, sy; rewrite ?Z.mul_1_l.
    + replace (-1 * Y) with (- Y) by lia. replace (-1 * X) with (- X) by lia.
      rewrite Z.compare_opp, (Z.compare_antisym Y X), HC.
      by destruct (Z.compare ey ex).
    + by rewrite (proj2 (Z.compare_gt_iff _ _)) by lia.
    + by rewrite (proj2 (Z.compare_lt_iff _ _)) by lia.
    + rewrite HC. by destruct (Z.compare ey ex).
Qed.

(** [0xffff] converts to [65535.0] exactly. *)
Lemma f64_0xffff_units : f64_units f64_0xffff = Some (65535 * 2 ^ 1074).
Proof. vm_compute. reflexivity. Qed.
