(* ===== verification/Printf.v ===== *)
(** * Printf: the conversions the clients print with

    The format strings of the clients use [%d], [%5d], [%s], [%8s], [%12s],
    [%04d], [%02d], [%.1f] and [%.2f].  [printf] interprets such a format on its
    arguments; a conversion whose argument is missing or of another type is
    undefined behaviour ([None]). *)

From Stdlib Require Import ZArith Lia SpecFloat Ascii String Strings.Byte.
From stdpp Require Import pretty.
From S2P Require Import Prelude Bytes Binary64.
Import Ascii String.

Inductive arg :=
  | AInt (z : Z)             (* int, or an unsigned 32-bit value passed as one *)
  | ADouble (x : Z)          (* double, by its pattern *)
  | AStr (s : list byte).    (* the bytes before the NUL *)

Inductive conv := CD | CS | CF.

Record spec := Spec { sp_zero : bool; sp_width : nat; sp_prec : nat; sp_conv : conv }.

Inductive piece := Lit (c : ascii) | Conv (s : spec).

(** ** Reading a format *)

Definition digit (c : ascii) : option nat :=
  let n := nat_of_ascii c in
  if ((48 <=? n) && (n <=? 57))%nat then Some (n - 48)%nat else None.

Inductive pstate :=
  | PLit
  | PWidth (zero : bool) (w : nat)
  | PPrec (zero : bool) (w p : nat).

Definition conv_of (c : ascii) : option conv :=
  if ascii_dec c "d" then Some CD
  else if ascii_dec c "s" then Some CS
  else if ascii_dec c "f" then Some CF else None.

Fixpoint parse_format (st : pstate) (f : string) : option (list piece) :=
  match f with
  | EmptyString => match st with PLit => Some [] | _ => None end
  | String c f' =>
      match st with
      | PLit =>
          if ascii_dec c "%" then parse_format (PWidth false 0) f'
          else cons (Lit c) <$> parse_format PLit f'
      | PWidth z w =>
          match digit c with
          | Some d =>
              parse_format
                (PWidth (z || ((w =? 0) && (d =? 0))%nat) (10 * w + d)) f'
          | None =>
              if ascii_dec c "." then parse_format (PPrec z w 0) f'
              else k ← conv_of c; cons (Conv (Spec z w 6 k)) <$> parse_format PLit f'
          end
      | PPrec z w p =>
          match digit c with
          | Some d => parse_format (PPrec z w (10 * p + d)) f'
          | None => k ← conv_of c; cons (Conv (Spec z w p k)) <$> parse_format PLit f'
          end
      end
  end.

(** ** Conversions *)

Fixpoint fill (c : ascii) (n : nat) : string :=
  match n with O => EmptyString | S n' => String c (fill c n') end.

Definition pad (w : nat) (s : string) : string :=
  String.append (fill " " (w - String.length s)) s.

(** Decimal digits of a natural number, at least [k] of them. *)
Definition digits (k : nat) (n : Z) : string :=
  let s := pretty (Z.to_N n) in String.append (fill "0" (k - String.length s)) s.

Definition conv_d (sp : spec) (z : Z) : string :=
  let v := i32 z in
  let sign := if v <? 0 then "-"%string else ""%string in
  if sp_zero sp
  then String.append sign (digits (sp_width sp - String.length sign) (Z.abs v))
  else pad (sp_width sp) (String.append sign (digits 1 (Z.abs v))).

(** [n / d] rounded to the nearest integer, ties to even. *)
Definition round_half_even (n d : Z) : Z :=
  let q := n / d in let r := n mod d in
  if 2 * r <? d then q
  else if d <? 2 * r then q + 1
  else if Z.even q then q else q + 1.

(** The magnitude [m * 2^e] in units of [10^-p], rounded. *)
Definition scaled (m : positive) (e : Z) (p : nat) : Z :=
  let t := Zpos m * 10 ^ Z.of_nat p in
  if 0 <=? e then t * 2 ^ e else round_half_even t (2 ^ (- e)).

Definition fixed (p : nat) (u : Z) : string :=
  let s := 10 ^ Z.of_nat p in
  String.append (digits 1 (u / s))
    (match p with O => ""%string | _ => String "." (digits p (u mod s)) end).

Definition conv_f (sp : spec) (x : Z) : string :=
  let sgn (b : bool) s := if b then String "-" s else s in
  pad (sp_width sp)
    match f64_val x with
    | S754_zero s => sgn s (fixed (sp_prec sp) 0)
    | S754_infinity s => sgn s "inf"%string
    | S754_nan => sgn (f64_sign x) "nan"%string
    | S754_finite s m e => sgn s (fixed (sp_prec sp) (scaled m e (sp_prec sp)))
    end.

Definition string_of_bytes (bs : list byte) : string :=
  string_of_list_ascii (map ascii_of_byte bs).

Definition convert (sp : spec) (a : arg) : option string :=
  match sp_conv sp, a with
  | CD, AInt z => Some (conv_d sp z)
  | CS, AStr s => Some (pad (sp_width sp) (string_of_bytes s))
  | CF, ADouble x => Some (conv_f sp x)
  | _, _ => None
  end.

Fixpoint render (ps : list piece) (args : list arg) : option string :=
  match ps, args with
  | [], _ => Some ""%string
  | Lit c :: ps', _ => String c <$> render ps' args
  | Conv sp :: ps', a :: args' =>
      s ← convert sp a; String.append s <$> render ps' args'
  | Conv _ :: _, [] => None
  end.

Definition printf (f : string) (args : list arg) : option string :=
  ps ← parse_format PLit f; render ps args.

(** ** What a conversion needs of its argument *)

Definition arg_ok (k : conv) (a : arg) : bool :=
  match k, a with
  | CD, AInt _ | CF, ADouble _ | CS, AStr _ => true
  | _, _ => false
  end.

Fixpoint convs (ps : list piece) : list conv :=
  match ps with
  | [] => []
  | Lit _ :: ps' => convs ps'
  | Conv sp :: ps' => sp_conv sp :: convs ps'
  end.

(** A format and its arguments agree on number and types. *)
Definition fits (ks : list conv) (args : list arg) : Prop :=
  Forall2 (fun k a => arg_ok k a = true) ks args.

Lemma render_fits ps args : fits (convs ps) args -> is_Some (render ps args).
Proof.
  revert args. induction ps as [|[c|sp] ps IH]; intros args H; simpl in *; [done| |].
  - apply fmap_is_Some. auto.
  - inversion H as [|k a ks args' Ha Hs]; subst.
    destruct (IH _ Hs) as [t Ht]. unfold convert.
    destruct (sp_conv sp), a; try done; simpl; rewrite Ht; eauto.
Qed.

Lemma printf_fits f ps args :
  parse_format PLit f = Some ps -> fits (convs ps) args -> is_Some (printf f args).
Proof. intros Hp Hf. unfold printf. rewrite Hp. simpl. by apply render_fits. Qed.
