(* ===== verification/NormalUdp.v ===== *)
(** * NormalUdp: the market-data records of [normal_udp.h]

    The packet handler fills a 256-byte buffer [output_data] with one of two
    packed records; the clients view the buffer through a cast pointer, clear
    the prices above [0xffff] in place and print the members.  This file has the
    layout of the two records, their decoding from and encoding to bytes, the
    in-place clearing, and the refinement of the byte-level code by the
    operation on records. *)

From Stdlib Require Import ZArith Lia Strings.Byte String.
From S2P Require Import Prelude Bytes Binary64 Printf.

(** ** Layout *)

Inductive ctype := CChar (n : nat) | CDouble | CUint32.

Definition sizeof (t : ctype) : nat :=
  match t with CChar n => n | CDouble => 8 | CUint32 => 4 end.

Definition layout := list (string * ctype).

(** [#pragma pack(1)]: no padding between the members. *)
Fixpoint sizeof_packed (l : layout) : nat :=
  match l with [] => 0 | (_, t) :: l' => (sizeof t + sizeof_packed l')%nat end.

Fixpoint offsetof (f : string) (l : layout) : nat :=
  match l with
  | [] => 0
  | (g, t) :: l' => if String.eqb f g then 0 else (sizeof t + offsetof f l')%nat
  end.

Definition best_quote_layout : layout :=
  [("contract_id", CChar 8); ("gen_time", CChar 12); ("last_price", CDouble);
   ("match_tot_qty", CUint32); ("turnover", CDouble); ("open_interest", CUint32);
   ("bid_price", CDouble); ("bid_qty", CUint32); ("ask_price", CDouble);
   ("ask_qty", CUint32); ("last_match_qty", CUint32)]%string.

Definition depth_update_layout : layout :=
  [("contract_id", CChar 8); ("gen_time", CChar 12);
   ("bid1_price", CDouble); ("bid1_qty", CUint32);
   ("bid2_price", CDouble); ("bid2_qty", CUint32);
   ("bid3_price", CDouble); ("bid3_qty", CUint32);
   ("bid4_price", CDouble); ("bid4_qty", CUint32);
   ("bid5_price", CDouble); ("bid5_qty", CUint32);
   ("ask1_price", CDouble); ("ask1_qty", CUint32);
   ("ask2_price", CDouble); ("ask2_qty", CUint32);
   ("ask3_price", CDouble); ("ask3_qty", CUint32);
   ("ask4_price", CDouble); ("ask4_qty", CUint32);
   ("ask5_price", CDouble); ("ask5_qty", CUint32)]%string.

(** [&best->f] and [&deep->f], as offsets in [output_data]. *)
Definition best_off (f : string) : nat := offsetof f best_quote_layout.
Definition deep_off (f : string) : nat := offsetof f depth_update_layout.

Definition OUTPUT_DATA_SIZE : nat := 256.

(** ** The records *)

(** Character arrays by their bytes, [double] members by their pattern and
    [uint32_t] members by their value. *)
Record normal_best_quote := BestQuote {
  bq_contract_id : list byte;
  bq_gen_time : list byte;
  bq_last_price : Z;
  bq_match_tot_qty : Z;
  bq_turnover : Z;
  bq_open_interest : Z;
  bq_bid_price : Z;
  bq_bid_qty : Z;
  bq_ask_price : Z;
  bq_ask_qty : Z;
  bq_last_match_qty : Z
}.

Record normal_depth_update := DepthUpdate {
  du_contract_id : list byte;
  du_gen_time : list byte;
  du_bid1_price : Z;
  du_bid1_qty : Z;
  du_bid2_price : Z;
  du_bid2_qty : Z;
  du_bid3_price : Z;
  du_bid3_qty : Z;
  du_bid4_price : Z;
  du_bid4_qty : Z;
  du_bid5_price : Z;
  du_bid5_qty : Z;
  du_ask1_price : Z;
  du_ask1_qty : Z;
  du_ask2_price : Z;
  du_ask2_qty : Z;
  du_ask3_price : Z;
  du_ask3_qty : Z;
  du_ask4_price : Z;
  du_ask4_qty : Z;
  du_ask5_price : Z;
  du_ask5_qty : Z
}.

(** The record a buffer holds, seen through the cast pointer. *)
Definition view_best (buf : list byte) : option normal_best_quote :=
  c ← load (best_off "contract_id") 8 buf;
  t ← load (best_off "gen_time") 12 buf;
  last_price ← load_le (best_off "last_price") 8 buf;
  match_tot_qty ← load_le (best_off "match_tot_qty") 4 buf;
  turnover ← load_le (best_off "turnover") 8 buf;
  open_interest ← load_le (best_off "open_interest") 4 buf;
  bid_price ← load_le (best_off "bid_price") 8 buf;
  bid_qty ← load_le (best_off "bid_qty") 4 buf;
  ask_price ← load_le (best_off "ask_price") 8 buf;
  ask_qty ← load_le (best_off "ask_qty") 4 buf;
  last_match_qty ← load_le (best_off "last_match_qty") 4 buf;
  Some (BestQuote c t last_price match_tot_qty turnover open_interest bid_price bid_qty ask_price ask_qty last_match_qty).

Definition view_deep (buf : list byte) : option normal_depth_update :=
  c ← load (deep_off "contract_id") 8 buf;
  t ← load (deep_off "gen_time") 12 buf;
  bid1_price ← load_le (deep_off "bid1_price") 8 buf;
  bid1_qty ← load_le (deep_off "bid1_qty") 4 buf;
  bid2_price ← load_le (deep_off "bid2_price") 8 buf;
  bid2_qty ← load_le (deep_off "bid2_qty") 4 buf;
  bid3_price ← load_le (deep_off "bid3_price") 8 buf;
  bid3_qty ← load_le (deep_off "bid3_qty") 4 buf;
  bid4_price ← load_le (deep_off "bid4_price") 8 buf;
  bid4_qty ← load_le (deep_off "bid4_qty") 4 buf;
  bid5_price ← load_le (deep_off "bid5_price") 8 buf;
  bid5_qty ← load_le (deep_off "bid5_qty") 4 buf;
  ask1_price ← load_le (deep_off "ask1_price") 8 buf;
  ask1_qty ← load_le (deep_off "ask1_qty") 4 buf;
  ask2_price ← load_le (deep_off "ask2_price") 8 buf;
  ask2_qty ← load_le (deep_off "ask2_qty") 4 buf;
  ask3_price ← load_le (deep_off "ask3_price") 8 buf;
  ask3_qty ← load_le (deep_off "ask3_qty") 4 buf;
  ask4_price ← load_le (deep_off "ask4_price") 8 buf;
  ask4_qty ← load_le (deep_off "ask4_qty") 4 buf;
  ask5_price ← load_le (deep_off "ask5_price") 8 buf;
  ask5_qty ← load_le (deep_off "ask5_qty") 4 buf;
  Some (DepthUpdate c t bid1_price bid1_qty bid2_price bid2_qty bid3_price bid3_qty bid4_price bid4_qty bid5_price bid5_qty ask1_price ask1_qty ask2_price ask2_qty ask3_price ask3_qty ask4_price ask4_qty ask5_price ask5_qty).

(** ** The members of a record as a list, after its layout *)

Inductive field := FChars (bs : list byte) | FNum (z : Z).

Definition decode_field (t : ctype) (bs : list byte) : field :=
  match t with CChar _ => FChars bs | _ => FNum (le_decode bs) end.

Definition encode_field (t : ctype) (f : field) : list byte :=
  match f with FChars bs => bs | FNum z => le_encode (sizeof t) z end.

Definition field_ok (t : ctype) (f : field) : Prop :=
  match t, f with
  | CChar n, FChars bs => length bs = n
  | CDouble, FNum z => 0 <= z < 2 ^ 64
  | CUint32, FNum z => 0 <= z < 2 ^ 32
  | _, _ => False
  end.

(** The record at the start of a buffer; [None] when the buffer is too short. *)
Fixpoint decode_fields (l : layout) (off : nat) (buf : list byte) : option (list field) :=
  match l with
  | [] => Some []
  | (_, t) :: l' =>
      bs ← load off (sizeof t) buf;
      cons (decode_field t bs) <$> decode_fields l' (off + sizeof t) buf
  end.

Fixpoint encode_fields (l : layout) (fs : list field) : list byte :=
  match l, fs with
  | (_, t) :: l', f :: fs' => encode_field t f ++ encode_fields l' fs'
  | _, _ => []
  end.

Definition fields_ok (l : layout) (fs : list field) : Prop :=
  Forall2 (fun nt f => field_ok (snd nt) f) l fs.

(** ** Clearing the sentinel prices *)

(** [if (p > 0xffff) p = 0;] on the value of [p]. *)
Definition clamp (x : Z) : Z := if f64_gt x f64_0xffff then f64_0 else x.

(** The same statement on the member at [off] of the record in [buf]. *)
Definition clear_price (off : nat) (buf : list byte) : option (list byte) :=
  x ← load64 off buf;
  if f64_gt x f64_0xffff then store off (le_encode 8 f64_0) buf else Some buf.

Fixpoint clear_prices (offs : list nat) (buf : list byte) : option (list byte) :=
  match offs with
  | [] => Some buf
  | off :: offs' => buf' ← clear_price off buf; clear_prices offs' buf'
  end.

(** The order of the statements is the order of the source. *)
Definition best_price_names : list string :=
  ["bid_price"; "ask_price"; "last_price"]%string.
Definition deep_price_names : list string :=
  ["bid1_price"; "bid2_price"; "bid3_price"; "bid4_price"; "bid5_price";
   "ask1_price"; "ask2_price"; "ask3_price"; "ask4_price"; "ask5_price"]%string.

Definition sanitize_best (buf : list byte) : option (list byte) :=
  clear_prices (map best_off best_price_names) buf.
Definition sanitize_deep (buf : list byte) : option (list byte) :=
  clear_prices (map deep_off deep_price_names) buf.

(** The operations on records that [sanitize_best] and [sanitize_deep] implement. *)
Definition clamp_best (q : normal_best_quote) : normal_best_quote :=
  BestQuote (bq_contract_id q) (bq_gen_time q)
    (clamp (bq_last_price q))
    (bq_match_tot_qty q)
    (bq_turnover q)
    (bq_open_interest q)
    (clamp (bq_bid_price q))
    (bq_bid_qty q)
    (clamp (bq_ask_price q))
    (bq_ask_qty q)
    (bq_last_match_qty q).

Definition clamp_deep (q : normal_depth_update) : normal_depth_update :=
  DepthUpdate (du_contract_id q) (du_gen_time q)
    (clamp (du_bid1_price q))
    (du_bid1_qty q)
    (clamp (du_bid2_price q))
    (du_bid2_qty q)
    (clamp (du_bid3_price q))
    (du_bid3_qty q)
    (clamp (du_bid4_price q))
    (du_bid4_qty q)
    (clamp (du_bid5_price q))
    (du_bid5_qty q)
    (clamp (du_ask1_price q))
    (du_ask1_qty q)
    (clamp (du_ask2_price q))
    (du_ask2_qty q)
    (clamp (du_ask3_price q))
    (du_ask3_qty q)
    (clamp (du_ask4_price q))
    (du_ask4_qty q)
    (clamp (du_ask5_price q))
    (du_ask5_qty q).

(** ** Reading the members for [printf] *)

Fixpoint until_nul (bs : list byte) : option (list byte) :=
  match bs with
  | [] => None
  | b :: bs' => if decide (b = x00) then Some [] else cons b <$> until_nul bs'
  end.

(** A [%s] argument that points into the buffer: the conversion reads up to the
    first NUL, which has to be inside the object. *)
Definition read_str (off : nat) (buf : list byte) : option arg :=
  AStr <$> until_nul (drop off buf).
Definition read_u32 (off : nat) (buf : list byte) : option arg := AInt <$> load32 off buf.
Definition read_f64 (off : nat) (buf : list byte) : option arg := ADouble <$> load64 off buf.

Fixpoint typeof (f : string) (l : layout) : option ctype :=
  match l with
  | [] => None
  | (g, t) :: l' => if String.eqb f g then Some t else typeof f l'
  end.

(** A member as a [printf] argument, after its type. *)
Definition read_member (l : layout) (f : string) (buf : list byte) : option arg :=
  t ← typeof f l;
  match t with
  | CChar _ => read_str (offsetof f l) buf
  | CDouble => read_f64 (offsetof f l) buf
  | CUint32 => read_u32 (offsetof f l) buf
  end.

(** The conversion a member of that type is printed with. *)
Definition conv_for (t : ctype) : conv :=
  match t with CChar _ => CS | CDouble => CF | CUint32 => CD end.

Fixpoint read_members (l : layout) (fs : list string) (buf : list byte)
    : option (list arg) :=
  match fs with
  | [] => Some []
  | f :: fs' => a ← read_member l f buf; cons a <$> read_members l fs' buf
  end.

(** ** Layout facts *)

Lemma best_quote_size : sizeof_packed best_quote_layout = 72%nat.
Proof. done. Qed.

Lemma depth_update_size : sizeof_packed depth_update_layout = 140%nat.
Proof. done. Qed.

(** ** The clearing, one member *)

Definition apart (o1 n1 o2 n2 : nat) : Prop := (o1 + n1 <= o2 \/ o2 + n2 <= o1)%nat.

Lemma clear_price_spec off buf : (off + 8 <= length buf)%nat ->
  exists buf', clear_price off buf = Some buf' /\ length buf' = length buf /\
    load64 off buf' = clamp <$> load64 off buf /\
    (forall o n, apart o n off 8 -> load o n buf' = load o n buf).
Proof.
  intros Hl. destruct (load_le_Some off 8 buf Hl) as [x Hx].
  unfold clear_price. rewrite Hx. cbn [mbind option_bind fmap option_fmap option_map].
  unfold clamp. destruct (f64_gt x f64_0xffff).
  - destruct (store_Some off (le_encode 8 f64_0) buf) as [b Hb];
      [by rewrite le_encode_length|].
    exists b. split; [done|]. split; [by eapply store_length|]. split.
    + apply load_le_store_same in Hb. exact Hb.
    + intros o n Ha. eapply load_store_disjoint; [done|].
      rewrite le_encode_length. unfold apart in Ha. lia.
  - exists buf. repeat split; auto.
Qed.

(** ** The clearing, a list of members that do not overlap *)

Fixpoint separate (offs : list nat) : Prop :=
  match offs with
  | [] => True
  | o :: offs' => Forall (fun o' => apart o 8 o' 8) offs' /\ separate offs'
  end.

Lemma load_le_ext off n b b' : load off n b = load off n b' -> load_le off n b = load_le off n b'.
Proof. unfold load_le. by intros ->. Qed.

Lemma clear_prices_spec offs buf :
  separate offs -> Forall (fun o => o + 8 <= length buf)%nat offs ->
  exists buf', clear_prices offs buf = Some buf' /\ length buf' = length buf /\
    Forall (fun o => load64 o buf' = clamp <$> load64 o buf) offs /\
    (forall o n, Forall (fun p => apart o n p 8) offs -> load o n buf' = load o n buf).
Proof.
  revert buf. induction offs as [|off offs IH]; intros buf Hs Hf; simpl.
  { exists buf. repeat split; auto. }
  destruct Hs as [Ha Hs]. apply Forall_cons in Hf as [Ho Hf].
  destruct (clear_price_spec off buf Ho) as (b1 & E1 & L1 & P1 & U1).
  destruct (IH b1 Hs) as (b2 & E2 & L2 & P2 & U2).
  { eapply Forall_impl; [done|]. simpl. by rewrite L1. }
  exists b2. rewrite E1. simpl. split; [done|]. split; [congruence|]. split.
  - constructor.
    + rewrite <- P1. apply load_le_ext, U2. done.
    + rewrite Forall_forall in P2, Ha |- *. intros o Hin. rewrite (P2 o Hin).
      f_equal. apply load_le_ext, U1. specialize (Ha o Hin). unfold apart in *. lia.
  - intros o n (H1 & H2)%Forall_cons. rewrite (U2 _ _ H2). auto.
Qed.

(** ** Refinement: clearing the bytes is clamping the record *)

(** Evaluates the offsets of the members. *)
Ltac offs :=
  cbn [map best_off deep_off offsetof best_quote_layout depth_update_layout
       best_price_names deep_price_names String.eqb Ascii.eqb Bool.eqb sizeof Nat.add].

(** The value of a member that is a number, read before and after. *)
Lemma load_le_unchanged (b b' : list byte) (offs : list nat) o n :
  (forall x y, Forall (fun p => apart x y p 8) offs -> load x y b' = load x y b) ->
  Forall (fun p => apart o n p 8) offs -> load_le o n b' = load_le o n b.
Proof. intros U H. by apply load_le_ext, U. Qed.

Ltac apart_solve :=
  repeat (apply Forall_cons; split); try (apply Forall_nil; exact I); unfold apart; lia.

Ltac sep_solve := cbn [separate]; repeat split; apart_solve.

(** Reads one member after the other on both sides. *)
Ltac view_step :=
  match goal with
  | |- mbind _ (load ?o ?n ?b) = _ => destruct (load o n b); [|done]
  | |- mbind _ (load_le ?o ?n ?b) = _ => destruct (load_le o n b); [|done]
  | |- mbind _ (_ <$> load_le ?o ?n ?b) = _ => destruct (load_le o n b); [|done]
  end; cbn [mbind option_bind fmap option_fmap option_map].

Lemma sanitize_best_view buf : (72 <= length buf)%nat ->
  exists buf', sanitize_best buf = Some buf' /\ length buf' = length buf /\
    view_best buf' = clamp_best <$> view_best buf /\
    (forall o n, (72 <= o)%nat -> load o n buf' = load o n buf) /\
    (forall o n, (o + n <= 20)%nat -> load o n buf' = load o n buf).
Proof.
  intros Hl. unfold sanitize_best, view_best. offs.
  destruct (clear_prices_spec [44; 56; 20]%nat buf) as (b & E & L & P & U).
  { sep_solve. }
  { apart_solve. }
  exists b. split; [exact E|]. split; [exact L|].
  repeat rewrite Forall_cons in P. destruct P as (P1 & P2 & P3 & _).
  split; [|split; intros o n Ho; apply U; apart_solve].
  rewrite P1, P2, P3, !U by apart_solve.
  rewrite !(load_le_unchanged buf b _ _ _ U) by apart_solve.
  repeat view_step. done.
Qed.

Lemma sanitize_deep_view buf : (140 <= length buf)%nat ->
  exists buf', sanitize_deep buf = Some buf' /\ length buf' = length buf /\
    view_deep buf' = clamp_deep <$> view_deep buf /\
    (forall o n, (140 <= o)%nat -> load o n buf' = load o n buf) /\
    (forall o n, (o + n <= 20)%nat -> load o n buf' = load o n buf).
Proof.
  intros Hl. unfold sanitize_deep, view_deep. offs.
  destruct (clear_prices_spec [20; 32; 44; 56; 68; 80; 92; 104; 116; 128]%nat buf)
    as (b & E & L & P & U).
  { sep_solve. }
  { apart_solve. }
  exists b. split; [exact E|]. split; [exact L|].
  repeat rewrite Forall_cons in P.
  destruct P as (P1 & P2 & P3 & P4 & P5 & P6 & P7 & P8 & P9 & P10 & _).
  split; [|split; intros o n Ho; apply U; apart_solve].
  rewrite P1, P2, P3, P4, P5, P6, P7, P8, P9, P10, !U by apart_solve.
  rewrite !(load_le_unchanged buf b _ _ _ U) by apart_solve.
  repeat view_step. done.
Qed.

(** A buffer that is long enough holds a record. *)
Ltac view_total :=
  repeat match goal with
  | |- is_Some (mbind _ (load ?o ?n ?b)) =>
      destruct (load_Some o n b) as [? ->]; [lia|]; cbn [mbind option_bind]
  | |- is_Some (mbind _ (load_le ?o ?n ?b)) =>
      destruct (load_le_Some o n b) as [? ->]; [lia|]; cbn [mbind option_bind]
  end; eauto.

Lemma view_best_Some buf : (72 <= length buf)%nat -> is_Some (view_best buf).
Proof. intros. unfold view_best. offs. view_total. Qed.

Lemma view_deep_Some buf : (140 <= length buf)%nat -> is_Some (view_deep buf).
Proof. intros. unfold view_deep. offs. view_total. Qed.

(** ** The clamped value *)

(** On a finite price the result is the price, or zero when it is above 65535. *)
Lemma clamp_finite x v : f64_units x = Some v ->
  f64_units (clamp x) = Some (if 65535 * 2 ^ 1074 <? v then 0 else v).
Proof.
  intros H. unfold clamp. rewrite (f64_gt_exact _ _ _ _ H f64_0xffff_units).
  by destruct (_ <? v).
Qed.

Lemma clamp_not_above x : f64_gt (clamp x) f64_0xffff = false.
Proof. unfold clamp. destruct (f64_gt x f64_0xffff) eqn:E; [by vm_compute|exact E]. Qed.

Lemma clamp_idemp x : clamp (clamp x) = clamp x.
Proof. unfold clamp at 1. by rewrite clamp_not_above. Qed.

(** ** Encoding and decoding *)

Lemma decode_encode_field t f :
  field_ok t f -> length (encode_field t f) = sizeof t /\ decode_field t (encode_field t f) = f.
Proof.
  destruct t, f; cbn [field_ok encode_field decode_field sizeof]; try done; intros H;
    rewrite ?le_encode_length; (split; [done|]); f_equal.
  - rewrite (le_decode_encode 8). by apply wrap_small.
  - rewrite (le_decode_encode 4). by apply wrap_small.
Qed.

Lemma load_app_mid (pre bs post : list byte) :
  load (length pre) (length bs) (pre ++ bs ++ post) = Some bs.
Proof.
  unfold load. rewrite !length_app, decide_True by lia.
  by rewrite drop_app_length, take_app_length.
Qed.

Lemma decode_encode_fields l fs pre post : fields_ok l fs ->
  decode_fields l (length pre) (pre ++ encode_fields l fs ++ post) = Some fs.
Proof.
  intros H. revert pre. induction H as [|[n t] f l fs Hf _ IH]; intros pre; [done|].
  cbn [decode_fields encode_fields snd] in *.
  destruct (decode_encode_field t f Hf) as [Hlen Hdec].
  rewrite <- app_assoc, <- Hlen, load_app_mid. simpl. rewrite Hdec, app_assoc, <- length_app, IH.
  done.
Qed.

Lemma load_split off n buf bs :
  load off n buf = Some bs -> drop off buf = bs ++ drop (off + n) buf.
Proof.
  unfold load. case_decide; [|done]. intros [= <-].
  rewrite <- drop_drop. by rewrite take_drop.
Qed.

Lemma encode_decode_fields l off buf fs :
  decode_fields l off buf = Some fs ->
  fields_ok l fs /\
  drop off buf = encode_fields l fs ++ drop (off + sizeof_packed l) buf.
Proof.
  revert off fs. induction l as [|[n t] l IH]; intros off fs; cbn [decode_fields].
  { intros [= <-]. split; [constructor|]. simpl. f_equal. lia. }
  destruct (load off (sizeof t) buf) as [bs|] eqn:Hb; [|done]. simpl.
  destruct (decode_fields l _ buf) as [fs'|] eqn:Hd; [|done]. intros [= <-].
  destruct (IH _ _ Hd) as [Hok Henc]. pose proof (load_length _ _ _ _ Hb) as Hlen.
  pose proof (le_decode_range bs) as Hr. rewrite Hlen in Hr. split.
  - constructor; [|done]. by destruct t.
  - rewrite (load_split _ _ _ _ Hb), Henc. cbn [encode_fields]. rewrite <- app_assoc.
    replace (off + sizeof t + sizeof_packed l)%nat
      with (off + sizeof_packed ((n, t) :: l))%nat by (simpl; lia).
    f_equal. destruct t; cbn [decode_field encode_field]; [done| |];
      rewrite <- Hlen; by rewrite le_encode_decode.
Qed.

(** ** Reading members never leaves the buffer *)

Lemma offsetof_bound f l t :
  typeof f l = Some t -> (offsetof f l + sizeof t <= sizeof_packed l)%nat.
Proof.
  induction l as [|[g s] l IH]; simpl; [done|].
  destruct (String.eqb f g); [intros [= ->]; lia|]. intros H. specialize (IH H). lia.
Qed.

Lemma until_nul_Some bs : x00 ∈ bs -> is_Some (until_nul bs).
Proof.
  induction bs as [|b bs IH]; simpl; [by intros ?%not_elem_of_nil|].
  intros [->|H]%elem_of_cons; case_decide; eauto; [done|].
  apply fmap_is_Some. auto.
Qed.

(** The buffer holds a record of layout [l] and a NUL byte behind it. *)
Definition terminated (l : layout) (buf : list byte) : Prop :=
  buf !! sizeof_packed l = Some x00.

Lemma read_member_ok l f t buf : typeof f l = Some t -> terminated l buf ->
  exists a, read_member l f buf = Some a /\ arg_ok (conv_for t) a = true.
Proof.
  intros Ht Hn. pose proof (offsetof_bound _ _ _ Ht) as Ho.
  pose proof (lookup_lt_Some _ _ _ Hn) as Hl.
  unfold read_member. rewrite Ht. cbn [mbind option_bind].
  destruct t as [n| |]; simpl sizeof in Ho.
  - unfold read_str. destruct (until_nul_Some (drop (offsetof f l) buf)) as [s Hs].
    { apply list_elem_of_lookup. exists (sizeof_packed l - offsetof f l)%nat.
      rewrite lookup_drop. rewrite <- Hn. f_equal. lia. }
    rewrite Hs. by exists (AStr s).
  - unfold read_f64. destruct (load_le_Some (offsetof f l) 8 buf) as [x Hx]; [lia|].
    rewrite Hx. by exists (ADouble x).
  - unfold read_u32. destruct (load_le_Some (offsetof f l) 4 buf) as [x Hx]; [lia|].
    rewrite Hx. by exists (AInt x).
Qed.

Lemma read_members_fits l fs ks buf :
  mapM (fun f => conv_for <$> typeof f l) fs = Some ks -> terminated l buf ->
  exists args, read_members l fs buf = Some args /\ fits ks args.
Proof.
  intros Hk Hn. apply mapM_Some in Hk.
  induction Hk as [|f k fs ks Hf _ (args & Hr & Hfit)].
  { exists []. split; [done|constructor]. }
  apply fmap_Some in Hf as (t & Ht & ->).
  destruct (read_member_ok l f t buf Ht Hn) as (a & Ha & Hok).
  exists (a :: args). simpl. rewrite Ha. simpl. rewrite Hr. split; [done|by constructor].
Qed.
