(* ===== verification/World.v ===== *)
(** * World: what the clients exchange with the outside

    The observable events of a client, the calls that produce them, and the
    interface of the packet handler, the closed library
    ([libpacket_handler_gplus], [libpacket_handler_gcc]) that decodes the
    exchange's messages into the records of [NormalUdp]. *)

From Stdlib Require Import ZArith Lia Strings.Byte String.
From S2P Require Import Prelude Bytes Binary64 Printf NormalUdp.

(** ** Events *)

Inductive io :=
  | Stdout (s : string)                  (* printf *)
  | Stderr (s : string)                  (* fprintf(stderr, …) *)
  | Perror (s : string)                  (* perror(s) *)
  | Syscall (name : string) (args : list Z).

(** A client state keeps its events in the order they happened. *)
Class Traced (S : Type) := { add_io : io -> S -> S }.

Section Calls.
Context {S : Type} `{Traced S}.

Definition emit (e : io) : cm S unit := modify (add_io e).

Definition cprintf (f : string) (args : list arg) : cm S unit :=
  let! s := access (printf f args) in emit (Stdout s).
End Calls.

Ltac wunfold := unfold cprintf, emit in *; cunfold.

Definition nl : string := String (Ascii.ascii_of_nat 10) EmptyString.
#[global] Arguments String.append : simpl never.

(** ** The packet handler *)

(** [packet_handler_full(input_data, output_data)]: the result code and what the
    call leaves in the two buffers. *)
Definition handler_full : Type := list byte -> list byte -> Z * (list byte * list byte).

(** [packet_handler_payload(input_data, output_data, payload_size)]. *)
Definition handler_payload : Type :=
  list byte -> list byte -> Z -> Z * (list byte * list byte).

Definition BEST_QUOTE_MSG : Z := 1.
Definition DEPTH_UPDATE_MSG : Z := 2.

(** What the handler may do to the output buffer for a result code: the
    buffer keeps its size, and behind the record that the code announces no
    byte is written. *)
Definition output_ok (r : Z) (out out' : list byte) : Prop :=
  length out' = length out /\
  (r = BEST_QUOTE_MSG -> drop 72 out' = drop 72 out) /\
  (r = DEPTH_UPDATE_MSG -> drop 140 out' = drop 140 out).

Class HandlerFull (h : handler_full) := {
  hf_input : forall i o, length (fst (snd (h i o))) = length i;
  hf_output : forall i o, output_ok (fst (h i o)) o (snd (snd (h i o)))
}.

Class HandlerPayload (h : handler_payload) := {
  hp_input : forall i o n, length (fst (snd (h i o n))) = length i;
  hp_output : forall i o n, output_ok (fst (h i o n)) o (snd (snd (h i o n)))
}.

(** A handler that copies the first [k] input bytes over the record and
    announces a best quote when the message is long enough, and a depth update
    when it is longer: it satisfies the interface. *)
Definition overwrite (bs o : list byte) : list byte :=
  if decide (length bs <= length o)%nat then bs ++ drop (length bs) o else o.

Definition copy_payload : handler_payload := fun i o n =>
  if n <? 28 then (0, (i, o))
  else if n <? 62 then (BEST_QUOTE_MSG, (i, overwrite (take 20 (take (Z.to_nat n) i)) o))
  else (DEPTH_UPDATE_MSG, (i, overwrite (take 60 (take (Z.to_nat n) i)) o)).

Definition copy_full : handler_full := fun i o =>
  match i !! 42%nat with
  | Some b => if b2z b =? 1 then (BEST_QUOTE_MSG, (i, overwrite (take 20 (drop 43 i)) o))
              else if b2z b =? 2 then (DEPTH_UPDATE_MSG, (i, overwrite (take 60 (drop 43 i)) o))
              else (0, (i, o))
  | None => (0, (i, o))
  end.

Lemma overwrite_ok k bs o r : (k <= 72)%nat -> output_ok r o (overwrite (take k bs) o).
Proof.
  intros Hk. unfold overwrite. pose proof (length_take bs k) as Hl. case_decide as Hd.
  - split; [rewrite length_app, length_drop; lia|].
    split; intros _; rewrite drop_app_ge, drop_drop by lia; f_equal; lia.
  - by repeat split.
Qed.

#[export] Instance copy_payload_ok : HandlerPayload copy_payload.
Proof.
  split; intros i o n; unfold copy_payload; repeat case_match; simpl; try done;
    try (apply overwrite_ok; lia).
Qed.

#[export] Instance copy_full_ok : HandlerFull copy_full.
Proof.
  split; intros i o; unfold copy_full; repeat case_match; simpl; try done;
    try (apply overwrite_ok; lia).
Qed.

(** ** Printing a record *)

(** How a client prints: a format and the members it shows, for each record,
    and whether the IP identification comes first. *)
Record formats := Formats {
  f_with_id : bool;
  f_best : string;
  f_best_members : list string;
  f_deep : string;
  f_deep_members : list string
}.

(** The conversions a format has to have for these members. *)
Definition convs_of (with_id : bool) (l : layout) (ms : list string) : option (list conv) :=
  ks ← mapM (fun f => conv_for <$> typeof f l) ms;
  Some (if with_id then CD :: ks else ks).

Definition format_ok (with_id : bool) (l : layout) (f : string) (ms : list string) : Prop :=
  exists ps, parse_format PLit f = Some ps /\ convs_of with_id l ms = Some (convs ps).

Definition formats_ok (F : formats) : Prop :=
  format_ok (f_with_id F) best_quote_layout (f_best F) (f_best_members F) /\
  format_ok (f_with_id F) depth_update_layout (f_deep F) (f_deep_members F).

(** The two [printf] calls: clear the prices in the buffer, then print. *)
Definition show_record (with_id : bool) (l : layout) (f : string) (ms : list string)
    (id : Z) (out : list byte) : option string :=
  args ← read_members l ms out;
  printf f (if with_id then AInt id :: args else args).

Definition report_best (F : formats) (id : Z) (out : list byte)
    : option (list byte * string) :=
  out' ← sanitize_best out;
  s ← show_record (f_with_id F) best_quote_layout (f_best F) (f_best_members F) id out';
  Some (out', s).

Definition report_deep (F : formats) (id : Z) (out : list byte)
    : option (list byte * string) :=
  out' ← sanitize_deep out;
  s ← show_record (f_with_id F) depth_update_layout (f_deep F) (f_deep_members F) id out';
  Some (out', s).

#[global] Arguments show_record : simpl never.
#[global] Arguments report_best : simpl never.
#[global] Arguments report_deep : simpl never.
#[global] Arguments zeros : simpl never.
#[global] Arguments printf : simpl never.
#[global] Arguments view_best : simpl never.
#[global] Arguments view_deep : simpl never.

Lemma show_record_ok with_id l f ms id out :
  format_ok with_id l f ms -> terminated l out ->
  is_Some (show_record with_id l f ms id out).
Proof.
  intros (ps & Hp & Hc) Ht. unfold convs_of in Hc.
  destruct (mapM _ ms) as [ks|] eqn:Hk; [|done]. simpl in Hc. injection Hc as Hc.
  destruct (read_members_fits l ms ks out Hk Ht) as (args & Ha & Hf).
  unfold show_record. rewrite Ha. cbn [mbind option_bind].
  eapply printf_fits; [exact Hp|]. rewrite <- Hc. destruct with_id; [|done].
  by constructor.
Qed.

(** A byte behind the record is a NUL when the buffer was cleared. *)
Lemma terminated_zeros l out' :
  drop (sizeof_packed l) out' = drop (sizeof_packed l) (zeros OUTPUT_DATA_SIZE) ->
  (sizeof_packed l < OUTPUT_DATA_SIZE)%nat -> terminated l out'.
Proof.
  intros Hd Hl. unfold terminated.
  replace (sizeof_packed l) with (sizeof_packed l + 0)%nat by lia.
  rewrite <- lookup_drop, Hd, lookup_drop. unfold zeros. apply lookup_replicate_2. lia.
Qed.

Lemma load_lookup (buf buf' : list byte) n :
  load n 1 buf' = load n 1 buf -> length buf' = length buf -> (n < length buf)%nat ->
  buf' !! n = buf !! n.
Proof.
  intros H Hl Hn. unfold load in H. rewrite !decide_True in H by lia. injection H as H.
  rewrite <- (Nat.add_0_r n), <- !lookup_drop.
  by rewrite <- (lookup_take_lt _ 1 0), H, lookup_take_lt by lia.
Qed.

Lemma terminated_kept l (b b' : list byte) :
  length b' = length b ->
  (forall o n, (sizeof_packed l <= o)%nat -> load o n b' = load o n b) ->
  terminated l b -> terminated l b'.
Proof.
  unfold terminated. intros Hl U Ht. rewrite <- Ht. apply load_lookup; auto.
  by eapply lookup_lt_Some.
Qed.

(** After a handler call that announces a record on a cleared buffer, the report
    is printed: no member is read outside the buffer, and what is printed is
    read from the clamped record. *)
Lemma report_best_ok F id out' :
  formats_ok F -> output_ok BEST_QUOTE_MSG (zeros OUTPUT_DATA_SIZE) out' ->
  exists out'' s q, report_best F id out' = Some (out'', s) /\
    length out'' = OUTPUT_DATA_SIZE /\
    view_best out' = Some q /\ view_best out'' = Some (clamp_best q) /\
    show_record (f_with_id F) best_quote_layout (f_best F) (f_best_members F) id out''
      = Some s.
Proof.
  intros [Hf _] (Hlen & Hb & _). specialize (Hb eq_refl).
  unfold zeros in Hlen. rewrite length_replicate in Hlen. change OUTPUT_DATA_SIZE with 256%nat in *.
  destruct (sanitize_best_view out') as (b & E & L & V & U & _); [lia|].
  destruct (show_record_ok _ _ _ _ id b Hf) as [s Hs].
  { apply (terminated_kept _ out'); [done|exact U|]. apply terminated_zeros; [exact Hb|unfold OUTPUT_DATA_SIZE; simpl; lia]. }
  destruct (view_best_Some out') as [q Hq]; [lia|]. rewrite Hq in V.
  exists b, s, q. unfold report_best. rewrite E. simpl. rewrite Hs. simpl. rewrite L. auto.
Qed.

Lemma report_deep_ok F id out' :
  formats_ok F -> output_ok DEPTH_UPDATE_MSG (zeros OUTPUT_DATA_SIZE) out' ->
  exists out'' s q, report_deep F id out' = Some (out'', s) /\
    length out'' = OUTPUT_DATA_SIZE /\
    view_deep out' = Some q /\ view_deep out'' = Some (clamp_deep q) /\
    show_record (f_with_id F) depth_update_layout (f_deep F) (f_deep_members F) id out''
      = Some s.
Proof.
  intros [_ Hf] (Hlen & _ & Hb). specialize (Hb eq_refl).
  unfold zeros in Hlen. rewrite length_replicate in Hlen. change OUTPUT_DATA_SIZE with 256%nat in *.
  destruct (sanitize_deep_view out') as (b & E & L & V & U & _); [lia|].
  destruct (show_record_ok _ _ _ _ id b Hf) as [s Hs].
  { apply (terminated_kept _ out'); [done|exact U|]. apply terminated_zeros; [exact Hb|unfold OUTPUT_DATA_SIZE; simpl; lia]. }
  destruct (view_deep_Some out') as [q Hq]; [lia|]. rewrite Hq in V.
  exists b, s, q. unfold report_deep. rewrite E. simpl. rewrite Hs. simpl. rewrite L. auto.
Qed.
