(* ===== verification/CString.v ===== *)
(** * CString: the string functions of the C library that the sources call

    A C string is the [string] of its characters before the NUL.  [strtok] keeps
    its position between calls; the position is the rest of the string, an
    argument and a result of the function here. *)

From Stdlib Require Import ZArith Lia Ascii String.
From S2P Require Import Prelude Bytes.
Import Ascii String.

Fixpoint in_set (c : ascii) (set : string) : bool :=
  match set with
  | EmptyString => false
  | String d set' => if ascii_dec c d then true else in_set c set'
  end.

Fixpoint skip_set (set s : string) : string :=
  match s with
  | EmptyString => EmptyString
  | String c s' => if in_set c set then skip_set set s' else s
  end.

(** The characters before the first one of [set], and those behind it. *)
Fixpoint break_set (set s : string) : string * string :=
  match s with
  | EmptyString => (EmptyString, EmptyString)
  | String c s' =>
      if in_set c set then (EmptyString, s')
      else let (t, r) := break_set set s' in (String c t, r)
  end.

(** [strtok(s, delim)], and [strtok(NULL, delim)] on the saved position. *)
Definition strtok (s delim : string) : option string * string :=
  match skip_set delim s with
  | EmptyString => (None, EmptyString)
  | t => let (tok, r) := break_set delim t in (Some tok, r)
  end.

(** [strchr(s, c)]: the suffix that starts at the first [c]. *)
Fixpoint strchr (s : string) (c : ascii) : option string :=
  match s with
  | EmptyString => None
  | String d s' => if ascii_dec c d then Some s else strchr s' c
  end.

(** [! strncmp(p, s, strlen(p))]. *)
Definition has_prefix (p s : string) : bool := String.prefix p s.

Definition tolower (c : ascii) : ascii :=
  let n := nat_of_ascii c in
  if ((65 <=? n) && (n <=? 90))%nat then ascii_of_nat (n + 32) else c.

Fixpoint lower (s : string) : string :=
  match s with EmptyString => EmptyString | String c s' => String (tolower c) (lower s') end.

(** [! strcasecmp(a, b)]. *)
Definition strcaseeq (a b : string) : bool := String.eqb (lower a) (lower b).

(** ** Numbers *)

Definition isspace (c : ascii) : bool :=
  let n := nat_of_ascii c in ((n =? 32) || ((9 <=? n) && (n <=? 13)))%nat.

Fixpoint skip_space (s : string) : string :=
  match s with
  | EmptyString => EmptyString
  | String c s' => if isspace c then skip_space s' else s
  end.

Definition digit_val (c : ascii) : option Z :=
  let n := Z.of_nat (nat_of_ascii c) in
  if (48 <=? n) && (n <=? 57) then Some (n - 48)
  else if (97 <=? n) && (n <=? 122) then Some (n - 87)
  else if (65 <=? n) && (n <=? 90) then Some (n - 55)
  else None.

(** The longest run of digits of [base]: its value and the rest. *)
Fixpoint run_digits (base acc : Z) (s : string) : Z * string :=
  match s with
  | EmptyString => (acc, s)
  | String c s' =>
      match digit_val c with
      | Some d => if d <? base then run_digits base (base * acc + d) s' else (acc, s)
      | None => (acc, s)
      end
  end.

Definition starts_digit (base : Z) (s : string) : bool :=
  match s with
  | EmptyString => false
  | String c _ => match digit_val c with Some d => d <? base | None => false end
  end.

Definition LONG_MAX : Z := 2 ^ 63 - 1.
Definition LONG_MIN : Z := - 2 ^ 63.

(** [strtol(s, &end, base)] for the bases 10 and 16: the value, saturated, and
    the rest behind the number; without a number, zero and [s] itself. *)
Definition strtol (s : string) (base : Z) : Z * string :=
  let s1 := skip_space s in
  let '(neg, s2) :=
    match s1 with
    | String c r => if ascii_dec c "-" then (true, r)
                    else if ascii_dec c "+" then (false, r) else (false, s1)
    | EmptyString => (false, s1)
    end in
  let s3 :=
    match s2 with
    | String c0 (String cx r) =>
        if (base =? 16) && (if ascii_dec c0 "0" then true else false)
           && (if ascii_dec (tolower cx) "x" then true else false)
           && starts_digit 16 r
        then r else s2
    | _ => s2
    end in
  if starts_digit base s3 then
    let (v, rest) := run_digits base 0 s3 in
    ((if neg then Z.max LONG_MIN (- v) else Z.min LONG_MAX v), rest)
  else (0, s).

(** [atoi(s)] is [(int) strtol(s, NULL, 10)]. *)
Definition atoi (s : string) : Z := i32 (fst (strtol s 10)).

(** ** [inet_addr], for dotted-quad addresses *)

Fixpoint dotted (n : nat) (s : string) : option (list Z) :=
  match n with
  | O => None
  | S n' =>
      if starts_digit 10 s then
        let (v, r) := run_digits 10 0 s in
        if 255 <? v then None
        else match n', r with
             | O, EmptyString => Some [v]
             | S _, String c r' => if ascii_dec c "." then cons v <$> dotted n' r' else None
             | _, _ => None
             end
      else None
  end.

(** The address as the 32-bit object in network byte order, read on a
    little-endian host; [INADDR_NONE] when the string is not an address. *)
Definition inet_addr (s : string) : Z :=
  match dotted 4 s with
  | Some vs => le_decode (map z2b vs)
  | None => 2 ^ 32 - 1
  end.

(** ** Facts *)

Lemma append_cons c a b : String.append (String c a) b = String c (String.append a b).
Proof. reflexivity. Qed.


Lemma skip_set_spec set s :
  match skip_set set s with
  | EmptyString => True
  | String c _ => in_set c set = false
  end.
Proof. induction s as [|c s IH]; simpl; [done|]. destruct (in_set c set) eqn:E; auto. Qed.

(** A token is not empty. *)
Lemma strtok_nonempty s delim tok r :
  strtok s delim = (Some tok, r) -> tok <> EmptyString.
Proof.
  unfold strtok. pose proof (skip_set_spec delim s) as Hs.
  destruct (skip_set delim s) as [|c t]; [done|]. simpl. rewrite Hs.
  destruct (break_set delim t). intros [= <- <-]. done.
Qed.

Lemma break_set_length set s t r :
  break_set set s = (t, r) -> (String.length t + String.length r <= String.length s)%nat.
Proof.
  revert t r. induction s as [|c s IH]; simpl; intros t r.
  { intros [= <- <-]. simpl. lia. }
  destruct (in_set c set).
  { intros [= <- <-]. simpl. lia. }
  destruct (break_set set s) as [t' r'] eqn:E. intros [= <- <-].
  specialize (IH _ _ eq_refl). simpl. lia.
Qed.

Lemma skip_set_length set s : (String.length (skip_set set s) <= String.length s)%nat.
Proof. induction s as [|c s IH]; simpl; [lia|]. destruct (in_set c set); simpl; lia. Qed.

(** [strtok(NULL, "")] returns the whole rest. *)
Lemma strtok_rest s : s <> EmptyString -> strtok s "" = (Some s, EmptyString).
Proof.
  intros Hs. unfold strtok. replace (skip_set "" s) with s by (by destruct s).
  destruct s as [|c s]; [done|].
  enough (break_set "" (String c s) = (String c s, EmptyString)) as ->; [done|].
  clear Hs. generalize (String c s). clear. intros s.
  induction s as [|c s IH]; simpl; [done|]. by rewrite IH.
Qed.
