(* ===== verification/SubSocket.v ===== *)
(** * SubSocket: the client on a UDP socket ([dce-sub-socket.c])

    [main] opens a datagram socket on port 888, joins the multicast group, and
    serves one datagram per pass of a [while (1)].  The results of the system
    calls are the inputs of the model ([env]); the datagrams arrive as a list. *)

From Stdlib Require Import ZArith Lia Strings.Byte String.
From S2P Require Import Prelude Bytes Binary64 Printf NormalUdp World CString.

Definition EXAMPLE_PORT : Z := 888.
Definition EXAMPLE_GROUP : string := "239.239.239.8".

(** The buffers on the stack of [main] that outlive a pass of the loop. *)
Record state := State {
  message : list byte;
  output_data : list byte;
  trace : list io
}.

#[export] Instance state_traced : Traced state := {
  add_io e s := State (message s) (output_data s) (trace s ++ [e])
}.

Definition MESSAGE_SIZE : nat := 2048.

(** What the calls return: a descriptor or -1; zero or -1; for each [recvfrom]
    the datagram, or [None] for -1. *)
Record env := Env {
  e_socket : Z;
  e_bind : Z;
  e_setsockopt : Z;
  e_recvfrom : list (option (list byte))
}.

Definition the_formats : formats := {|
  f_with_id := false;
  f_best := "%s, %s, best, %d_%.1f x %.1f_%d, %d/%.2f/%d, %.1f/%d" ++ nl;
  f_best_members :=
    ["contract_id"; "gen_time"; "bid_qty"; "bid_price"; "ask_price"; "ask_qty";
     "match_tot_qty"; "turnover"; "open_interest"; "last_price"; "last_match_qty"];
  f_deep :=
    "%s, %s, deep, %d_%.1f|%d_%.1f|%d_%.1f|%d_%.1f|%d_%.1f x %.1f_%d|%.1f_%d|%.1f_%d|%.1f_%d|%.1f_%d" ++ nl;
  f_deep_members :=
    ["contract_id"; "gen_time"; "bid5_qty"; "bid5_price"; "bid4_qty"; "bid4_price";
     "bid3_qty"; "bid3_price"; "bid2_qty"; "bid2_price"; "bid1_qty"; "bid1_price";
     "ask1_price"; "ask1_qty"; "ask2_price"; "ask2_qty"; "ask3_price"; "ask3_qty";
     "ask4_price"; "ask4_qty"; "ask5_price"; "ask5_qty"]
|}%string.

Definition set_output (o : list byte) (s : state) : state := State (message s) o (trace s).

Section Main.
Variable packet_handler_payload : handler_payload.

(** One pass of the loop on the result of [recvfrom]. *)
Definition body (r : option (list byte)) : cm state loopctl :=
  match r with
  | None => emit (Perror "recvfrom") ;;; stop (Exit (-1))
  | Some data =>
      modify (fun s => State (recv_into (message s) data) (output_data s) (trace s)) ;;;
      let cnt := Z.of_nat (Nat.min (length data) MESSAGE_SIZE) in
      if (cnt <? 20) && (144 <? cnt) then
        cprintf ("<ERR> abnormal payload size:%d" ++ nl) [AInt cnt] ;;; ret LBreak
      else
        modify (set_output (zeros OUTPUT_DATA_SIZE)) ;;;
        let! s := get in
        let '(result, (msg', out')) :=
          packet_handler_payload (message s) (output_data s) cnt in
        modify (fun s => State msg' out' (trace s)) ;;;
        if result =? BEST_QUOTE_MSG then
          let! r := access (report_best the_formats 0 out') in
          modify (set_output (fst r)) ;;; emit (Stdout (snd r)) ;;; ret LNext
        else if result =? DEPTH_UPDATE_MSG then
          let! r := access (report_deep the_formats 0 out') in
          modify (set_output (fst r)) ;;; emit (Stdout (snd r)) ;;; ret LNext
        else
          cprintf ("<ERROR> packet_decode_err: %d" ++ nl) [AInt cnt] ;;; ret LNext
  end.

Definition AF_INET : Z := 2.
Definition SOCK_DGRAM : Z := 2.
Definition IPPROTO_IP : Z := 0.
Definition IP_ADD_MEMBERSHIP : Z := 35.
Definition INADDR_ANY : Z := 0.

(** [main]: the set-up with its early returns, then the loop. *)
Definition main (e : env) : cm state unit :=
  let sock := e_socket e in
  emit (Syscall "socket" [AF_INET; SOCK_DGRAM; 0]) ;;;
  if sock <? 0 then emit (Perror "socket") ;;; stop (Exit (-1)) else
  (* memset of addr, then its members *)
  emit (Syscall "bind" [sock; AF_INET; ntohl INADDR_ANY; ntohs EXAMPLE_PORT]) ;;;
  if e_bind e <? 0 then emit (Perror "bind") ;;; stop (Exit (-1)) else
  emit (Syscall "setsockopt" [sock; IPPROTO_IP; IP_ADD_MEMBERSHIP;
                              inet_addr EXAMPLE_GROUP; ntohl INADDR_ANY]) ;;;
  if e_setsockopt e <? 0 then emit (Perror "setsockopt mreq") ;;; stop (Exit (-1)) else
  serve body (stop (Exit 0)) (e_recvfrom e).
End Main.

(** ** The buffers keep their sizes and no access leaves them *)

Definition wf (s : state) : Prop :=
  length (message s) = MESSAGE_SIZE /\ length (output_data s) = OUTPUT_DATA_SIZE.

Lemma sock_the_formats_ok : formats_ok the_formats.
Proof. split; eexists; split; reflexivity. Qed.

Lemma sock_err_printf_ok z :
  is_Some (printf ("<ERROR> packet_decode_err: %d" ++ nl) [AInt z]).
Proof. eapply printf_fits; [reflexivity|]. by repeat constructor. Qed.

(** The size check of the source cannot hold. *)
Lemma sock_size_check_dead cnt : (cnt <? 20) && (144 <? cnt) = false.
Proof. destruct (Z.ltb_spec cnt 20), (Z.ltb_spec 144 cnt); simpl; try done; lia. Qed.

Section Facts.
#[local] Opaque printf.
Context (h : handler_payload) `{HandlerPayload h}.

(** The line a pass prints, after what the handler returned. *)
Definition report_line (result : Z) (out : list byte) (cnt : Z) : option string :=
  if result =? BEST_QUOTE_MSG then snd <$> report_best the_formats 0 out
  else if result =? DEPTH_UPDATE_MSG then snd <$> report_deep the_formats 0 out
  else printf ("<ERROR> packet_decode_err: %d" ++ nl) [AInt cnt].

(** What a pass does on a datagram. *)
Definition pass_spec (data : list byte) (s s' : state) : Prop :=
  let cnt := Z.of_nat (Nat.min (length data) MESSAGE_SIZE) in
  let input := recv_into (message s) data in
  let '(result, (_, out)) := h input (zeros OUTPUT_DATA_SIZE) cnt in
  exists line, trace s' = trace s ++ [Stdout line] /\
    report_line result out cnt = Some line /\
    ((result = BEST_QUOTE_MSG /\ exists q, view_best out = Some q /\
        view_best (output_data s') = Some (clamp_best q) /\
        show_record false best_quote_layout (f_best the_formats)
          (f_best_members the_formats) 0 (output_data s') = Some line) \/
     (result = DEPTH_UPDATE_MSG /\ exists q, view_deep out = Some q /\
        view_deep (output_data s') = Some (clamp_deep q) /\
        show_record false depth_update_layout (f_deep the_formats)
          (f_deep_members the_formats) 0 (output_data s') = Some line) \/
     (result <> BEST_QUOTE_MSG /\ result <> DEPTH_UPDATE_MSG /\
        printf ("<ERROR> packet_decode_err: %d" ++ nl) [AInt cnt] = Some line)).

Lemma sock_body_pass data s : wf s ->
  exists s', body h (Some data) s = (s', Ok LNext) /\ wf s' /\ pass_spec data s s'.
Proof.
  intros [Hm Ho]. unfold body, pass_spec. wunfold. rewrite sock_size_check_dead. cbn [message output_data trace].
  set (cnt := Z.of_nat _). set (inp := recv_into (message s) data).
  pose proof (hp_input (h:=h) inp (zeros OUTPUT_DATA_SIZE) cnt) as Hi.
  pose proof (hp_output (h:=h) inp (zeros OUTPUT_DATA_SIZE) cnt) as Hout.
  unfold set_output. cbn [message output_data trace].
  destruct (h inp (zeros OUTPUT_DATA_SIZE) cnt) as [result [msg' out']].
  cbn [fst snd] in Hi, Hout.
  assert (length inp = MESSAGE_SIZE) by (subst inp; by rewrite recv_into_length).
  destruct (Z.eqb_spec result BEST_QUOTE_MSG) as [->|Hb].
  { destruct (report_best_ok the_formats 0 out' sock_the_formats_ok Hout)
      as (o & l & q & Hr & Hol & Hq & Hq' & Hs). rewrite Hr. cbn.
    eexists. split; [reflexivity|]. split; [split; simpl; congruence|].
    exists l. split; [done|]. split; [unfold report_line; by rewrite Hr|]. left. split; [done|]. eauto. }
  destruct (Z.eqb_spec result DEPTH_UPDATE_MSG) as [->|Hd].
  { destruct (report_deep_ok the_formats 0 out' sock_the_formats_ok Hout)
      as (o & l & q & Hr & Hol & Hq & Hq' & Hs). rewrite Hr. cbn.
    eexists. split; [reflexivity|]. split; [split; simpl; congruence|].
    exists l. split; [done|]. split; [unfold report_line; by rewrite Hr|]. right; left. split; [done|]. eauto. }
  destruct (sock_err_printf_ok cnt) as [l Hl]. rewrite Hl. cbn.
  eexists. split; [reflexivity|]. destruct Hout as [Hlen _]. split; [split; simpl; [congruence|]|].
  { rewrite Hlen. apply length_replicate. }
  exists l. split; [done|]. split; [|by right; right].
  unfold report_line. apply Z.eqb_neq in Hb, Hd. by rewrite Hb, Hd.
Qed.

(** A run of the loop over datagrams, pass by pass. *)
Fixpoint served (ds : list (list byte)) (s s' : state) : Prop :=
  match ds with
  | [] => s = s'
  | d :: ds' => exists s1, wf s1 /\ pass_spec d s s1 /\ served ds' s1 s'
  end.

Lemma sock_serve_ok after ds s : wf s ->
  exists s', serve (body h) after (Some <$> ds) s = (s', Ok tt) /\ wf s' /\ served ds s s'.
Proof.
  revert s. induction ds as [|d ds IH]; intros s Hs; [by exists s|].
  destruct (sock_body_pass d s Hs) as (s1 & Hb & Hs1 & Hp).
  destruct (IH s1 Hs1) as (s' & Hr & Hw & Hsv). exists s'.
  cbn [fmap list_fmap serve]. rewrite (bind_Ok _ _ _ _ _ Hb). split; [exact Hr|].
  split; [done|]. exists s1. auto.
Qed.

Lemma sock_served_lines ds s s' : served ds s s' ->
  exists lines, trace s' = trace s ++ map Stdout lines /\ length lines = length ds.
Proof.
  revert s. induction ds as [|d ds IH]; intros s; simpl.
  { intros <-. exists []. by rewrite app_nil_r. }
  intros (s1 & _ & Hp & Hsv). destruct (IH _ Hsv) as (ls & Ht & Hl).
  unfold pass_spec in Hp. destruct (h _ _ _) as [result [m out]].
  destruct Hp as (l & Htr & _). exists (l :: ls).
  rewrite Ht, Htr, <- app_assoc. simpl. auto.
Qed.

(** A handler that looks only at the bytes of the datagram. *)
Definition reads_payload_only : Prop :=
  forall i i' o n, take (Z.to_nat n) i = take (Z.to_nat n) i' ->
    fst (h i o n) = fst (h i' o n) /\ snd (snd (h i o n)) = snd (snd (h i' o n)).

Lemma sock_take_recv_into buf data :
  take (Nat.min (length data) (length buf)) (recv_into buf data) = take (length buf) data.
Proof.
  unfold recv_into. destruct (decide (length data <= length buf)%nat).
  - rewrite Nat.min_l, (take_ge data) by lia. by rewrite take_app_length.
  - rewrite Nat.min_r by lia. apply take_app_exact. rewrite length_take. lia.
Qed.

Lemma sock_pass_same_line data s1 s1' s2 s2' : reads_payload_only -> wf s1 -> wf s2 ->
  pass_spec data s1 s1' -> pass_spec data s2 s2' ->
  exists l, trace s1' = trace s1 ++ [Stdout l] /\ trace s2' = trace s2 ++ [Stdout l].
Proof.
  intros Hp [H1 _] [H2 _]. unfold pass_spec.
  set (cnt := Z.of_nat (Nat.min (length data) MESSAGE_SIZE)) in *.
  destruct (Hp (recv_into (message s1) data) (recv_into (message s2) data)
              (zeros OUTPUT_DATA_SIZE) cnt) as [Er Eo].
  { subst cnt. rewrite !Nat2Z.id. rewrite <- H1 at 1. rewrite <- H2, !sock_take_recv_into.
    by rewrite H1, H2. }
  destruct (h _ _ _) as [r1 [m1 o1]]. destruct (h _ _ _) as [r2 [m2 o2]].
  cbn in Er, Eo. subst. intros (l1 & -> & L1 & _) (l2 & -> & L2 & _).
  exists l1. split; [done|]. congruence.
Qed.

Lemma sock_served_same_lines ds s1 s1' s2 s2' : reads_payload_only -> wf s1 -> wf s2 ->
  served ds s1 s1' -> served ds s2 s2' ->
  exists lines, trace s1' = trace s1 ++ map Stdout lines /\
                trace s2' = trace s2 ++ map Stdout lines.
Proof.
  intros Hp. revert s1 s2. induction ds as [|d ds IH]; intros s1 s2 H1 H2; simpl.
  { intros <- <-. exists []. by rewrite !app_nil_r. }
  intros (t1 & W1 & P1 & S1) (t2 & W2 & P2 & S2).
  destruct (sock_pass_same_line d s1 t1 s2 t2 Hp H1 H2 P1 P2) as (l & T1 & T2).
  destruct (IH _ _ W1 W2 S1 S2) as (ls & U1 & U2).
  exists (l :: ls). rewrite U1, U2, T1, T2, <- !app_assoc. done.
Qed.

(** The events of the set-up: the socket is bound to port 888 of any local
    address and joins the group on any interface. *)
Definition setup_events (e : env) : list io :=
  [Syscall "socket" [2; 2; 0];
   Syscall "bind" [e_socket e; 2; 0; 30723];
   Syscall "setsockopt" [e_socket e; 0; 35; 149942255; 0]].

Definition setup_ok (e : env) : bool :=
  (0 <=? e_socket e) && (0 <=? e_bind e) && (0 <=? e_setsockopt e).

Lemma sock_main_setup e s : setup_ok e = true ->
  main h e s = serve (body h) (stop (Exit 0)) (e_recvfrom e)
    (State (message s) (output_data s) (trace s ++ setup_events e)).
Proof.
  intros He. apply andb_prop in He as [He E3]. apply andb_prop in He as [E1 E2].
  unfold main. wunfold. rewrite !Z.ltb_antisym, E1, E2, E3. simpl.
  by rewrite <- !app_assoc.
Qed.
End Facts.

(** ** The client *)

(** C2: on every sequence of datagrams, of any sizes and contents, with a set-up
    whose calls succeed, the client stays in its loop without leaving a buffer,
    binds and joins with the addresses of the source, and prints exactly one
    line per datagram: the best quote or the depth update the handler decoded,
    with its prices cleared when above 65535, or the decoding error with the
    size of the datagram. *)
Theorem sock_main_serves (h : handler_payload) (H : HandlerPayload h) e ds s :
  wf s -> setup_ok e = true -> e_recvfrom e = Some <$> ds ->
  exists s0 s' lines,
    message s0 = message s /\ trace s0 = trace s ++ setup_events e /\
    main h e s = (s', Ok tt) /\ wf s' /\ served h ds s0 s' /\
    trace s' = trace s0 ++ map Stdout lines /\ length lines = length ds.
Proof.
  intros Hs He Hr. rewrite (sock_main_setup h e s He), Hr.
  set (s0 := State (message s) (output_data s) (trace s ++ setup_events e)).
  destruct (sock_serve_ok h (stop (Exit 0)) ds s0 Hs) as (s' & Hrun & Hw & Hsv).
  destruct (sock_served_lines h ds s0 s' Hsv) as (ls & Ht & Hl).
  exists s0, s', ls. auto 10.
Qed.

Definition st0 : state := State (zeros MESSAGE_SIZE) (zeros OUTPUT_DATA_SIZE) [].
Definition env0 : env := Env 3 0 0 [Some (replicate 28 x41); Some []].

Lemma sock_main_serves_witness :
  exists s0 s' lines,
    message s0 = message st0 /\ trace s0 = trace st0 ++ setup_events env0 /\
    main copy_payload env0 st0 = (s', Ok tt) /\ wf s' /\
    served copy_payload [replicate 28 x41; []] s0 s' /\
    trace s' = trace s0 ++ map Stdout lines /\ length lines = 2%nat.
Proof.
  apply (sock_main_serves copy_payload copy_payload_ok env0 [replicate 28 x41; []] st0);
    [split; reflexivity|reflexivity|reflexivity].
Defined.

(** C5: the exits of the client.  A failing [socket], [bind] or [setsockopt]
    ends the process with status -1 after the [perror] of that call and before
    any later call; a failing [recvfrom] ends it with -1 after the lines of the
    datagrams before it, and no later datagram is read. *)
Theorem sock_main_exits (h : handler_payload) (H : HandlerPayload h) e ds rest s :
  wf s ->
  (e_socket e < 0 ->
   exists s', main h e s = (s', Exit (-1)) /\
     trace s' = trace s ++ [Syscall "socket" [2; 2; 0]; Perror "socket"]) /\
  (0 <= e_socket e -> e_bind e < 0 ->
   exists s', main h e s = (s', Exit (-1)) /\
     trace s' = trace s ++ take 2 (setup_events e) ++ [Perror "bind"]) /\
  (0 <= e_socket e -> 0 <= e_bind e -> e_setsockopt e < 0 ->
   exists s', main h e s = (s', Exit (-1)) /\
     trace s' = trace s ++ setup_events e ++ [Perror "setsockopt mreq"]) /\
  (setup_ok e = true -> e_recvfrom e = (Some <$> ds) ++ None :: rest ->
   exists s' lines, main h e s = (s', Exit (-1)) /\ length lines = length ds /\
     trace s' = trace s ++ setup_events e ++ map Stdout lines ++ [Perror "recvfrom"]).
Proof.
  intros Hs. repeat split.
  - intros H1%Z.ltb_lt. unfold main. wunfold. rewrite H1. eexists. split; [reflexivity|].
    simpl. by rewrite <- app_assoc.
  - intros H1%Z.ltb_ge H2%Z.ltb_lt. unfold main. wunfold. rewrite H1, H2.
    eexists. split; [reflexivity|]. simpl. by rewrite <- !app_assoc.
  - intros H1%Z.ltb_ge H2%Z.ltb_ge H3%Z.ltb_lt. unfold main. wunfold. rewrite H1, H2, H3.
    eexists. split; [reflexivity|]. simpl. by rewrite <- !app_assoc.
  - intros He Hr. rewrite (sock_main_setup h e s He), Hr.
    set (s0 := State (message s) (output_data s) (trace s ++ setup_events e)).
    destruct (sock_serve_ok h (stop (Exit 0)) ds s0 Hs) as (s1 & Hrun & Hw & Hsv).
    destruct (sock_served_lines h ds s0 s1 Hsv) as (ls & Ht & Hl).
    erewrite serve_app_run; [|exact Hrun|done]. wunfold.
    eexists _, ls. split; [reflexivity|]. split; [done|].
    simpl. rewrite Ht. simpl. by rewrite <- !app_assoc.
Qed.

Lemma sock_main_exits_witness :
  exists s' lines, main copy_payload (Env 3 0 0 [Some (replicate 70 x42); None; Some []]) st0
      = (s', Exit (-1)) /\ length lines = 1%nat /\
    trace s' = trace st0 ++ setup_events (Env 3 0 0 []) ++ map Stdout lines
               ++ [Perror "recvfrom"].
Proof.
  apply (sock_main_exits copy_payload copy_payload_ok
           (Env 3 0 0 [Some (replicate 70 x42); None; Some []])
           [replicate 70 x42] [Some []] st0);
    [split; reflexivity|reflexivity|reflexivity].
Defined.

(** What the buffer held before a datagram does not show: for a handler that
    reads only the bytes of the datagram, two runs on the same datagrams print
    the same lines, whatever the message buffers contained at the start. *)
Lemma sock_stale_bytes_unobservable (h : handler_payload) (H : HandlerPayload h) ds s1 s2 :
  reads_payload_only h -> wf s1 -> wf s2 ->
  exists lines,
    trace (fst (serve (body h) (stop (Exit 0)) (Some <$> ds) s1)) = trace s1 ++ map Stdout lines /\
    trace (fst (serve (body h) (stop (Exit 0)) (Some <$> ds) s2)) = trace s2 ++ map Stdout lines.
Proof.
  intros Hp H1 H2.
  destruct (sock_serve_ok h (stop (Exit 0)) ds s1 H1) as (s1' & -> & _ & S1).
  destruct (sock_serve_ok h (stop (Exit 0)) ds s2 H2) as (s2' & -> & _ & S2).
  exact (sock_served_same_lines h ds s1 s1' s2 s2' Hp H1 H2 S1 S2).
Qed.

Lemma sock_copy_payload_reads_payload_only : reads_payload_only copy_payload.
Proof.
  intros i i' o n Ht. unfold copy_payload. rewrite Ht. by repeat case_match.
Qed.

Lemma sock_stale_bytes_unobservable_witness :
  exists lines,
    trace (fst (serve (body copy_payload) (stop (Exit 0)) (Some <$> [replicate 30 x43]) st0))
      = trace st0 ++ map Stdout lines /\
    trace (fst (serve (body copy_payload) (stop (Exit 0)) (Some <$> [replicate 30 x43])
                 (State (replicate 2048 x7f) (zeros OUTPUT_DATA_SIZE) [])))
      = [] ++ map Stdout lines.
Proof.
  apply (sock_stale_bytes_unobservable copy_payload copy_payload_ok [replicate 30 x43] st0
           (State (replicate 2048 x7f) (zeros OUTPUT_DATA_SIZE) []));
    [exact sock_copy_payload_reads_payload_only|split; reflexivity|split; reflexivity].
Defined.

(** The guard against abnormal sizes ([cnt<20 && cnt>144]) rejects nothing:
    a datagram of any size, shorter than 20 and longer than 144 bytes included,
    is passed to the handler and the loop goes on. *)
Lemma sock_abnormal_size_accepted (h : handler_payload) (H : HandlerPayload h) data s :
  wf s -> exists s', body h (Some data) s = (s', Ok LNext) /\ pass_spec h data s s'.
Proof. intros Hs. destruct (sock_body_pass h data s Hs) as (s' & Hb & _ & Hp). eauto. Qed.

Lemma sock_abnormal_size_accepted_witness :
  exists s', body copy_payload (Some (replicate 145 x00)) st0 = (s', Ok LNext) /\
    pass_spec copy_payload (replicate 145 x00) st0 s'.
Proof.
  apply (sock_abnormal_size_accepted copy_payload copy_payload_ok (replicate 145 x00) st0).
  split; reflexivity.
Defined.
