(* ===== verification/Frame.v ===== *)
(** * Frame: Ethernet frames that carry the feed

    The clients that read whole frames ([dce-sub-raw-socket.c],
    [dce-sub-exanic.c], [mc_client_efvi::handle_pkt]) share the code from the
    EtherType test to the report, once copied into each file.  It is one
    definition here, [handle_frame], parameterised by the formats; each client
    applies it behind its own guards.  An abstract description of the frames of
    the feed characterises what the code accepts. *)

From Stdlib Require Import ZArith Lia Strings.Byte String.
From S2P Require Import Prelude Bytes Binary64 Printf NormalUdp World.

Definition ETHTYPE_OFFSET : nat := 12.
Definition DOT1Q_ETHTYPE_OFFSET : nat := 16.
Definition IP_ID_OFFSET : nat := 18.
Definition DST_IP_OFFSET : nat := 30.
Definition IPV4_PACKET : Z := 0x0008.
Definition DOT1Q_FRAME : Z := 0x0081.
Definition DST_IP_FILTER : Z := 0xefefef08.

(** ** The tests on the headers *)

(** The offset a VLAN tag adds, or [None] for a frame that is skipped; the outer
    [None] is a read outside the buffer. *)
Definition find_dot1q_offset (pkt : list byte) : option (option nat) :=
  ethtype ← load16 ETHTYPE_OFFSET pkt;
  if ethtype =? IPV4_PACKET then Some (Some 0%nat)
  else if ethtype =? DOT1Q_FRAME then
    dot1q_ethtype ← load16 DOT1Q_ETHTYPE_OFFSET pkt;
    Some (if dot1q_ethtype =? IPV4_PACKET then Some 4%nat else None)
  else Some None.

(** The IP identification of a frame of the feed. *)
Definition decode_frame (pkt : list byte) : option (option Z) :=
  d ← find_dot1q_offset pkt;
  match d with
  | None => Some None
  | Some dot1q_offset =>
      dst ← load32 (dot1q_offset + DST_IP_OFFSET) pkt;
      if ntohl dst =? DST_IP_FILTER then
        id ← load16 (dot1q_offset + IP_ID_OFFSET) pkt;
        Some (Some (ntohs id))
      else Some None
  end.

(** [(uint16_t)(prev_ip_id+0x0001) != last_ip_id] *)
Definition id_gap (prev last : Z) : bool := negb (u16 (prev + 1) =? last).

(** ** The state of a frame client *)

Record fstate := FState {
  prev_ip_id : Z;
  packet_buf : list byte;
  output_data : list byte;
  trace : list io
}.

#[export] Instance fstate_traced : Traced fstate := {
  add_io e s := FState (prev_ip_id s) (packet_buf s) (output_data s) (trace s ++ [e])
}.

Definition set_prev (id : Z) (s : fstate) : fstate :=
  FState id (packet_buf s) (output_data s) (trace s).
Definition set_buffers (pkt out : list byte) (s : fstate) : fstate :=
  FState (prev_ip_id s) pkt out (trace s).

Definition gap_format : string :=
  "<WARN> IP_ID sequence number gap previous/latest: %d/%d " ++ nl.
Definition err_format : string := "<ERROR> packet_decode_err: %d" ++ nl.

Section Handle.
Variable packet_handler_full : handler_full.
Variable F : formats.

(** From the EtherType test to the report; [size] is printed on an error. *)
Definition handle_frame (size : Z) : cm fstate unit :=
  let! s := get in
  let! d := access (decode_frame (packet_buf s)) in
  match d with
  | None => ret tt
  | Some last_ip_id =>
      (if id_gap (prev_ip_id s) last_ip_id
       then cprintf gap_format [AInt (prev_ip_id s); AInt last_ip_id] else ret tt) ;;;
      modify (set_prev last_ip_id) ;;;
      let '(result, (pkt', out')) :=
        packet_handler_full (packet_buf s) (zeros OUTPUT_DATA_SIZE) in
      modify (set_buffers pkt' out') ;;;
      if result =? BEST_QUOTE_MSG then
        let! r := access (report_best F last_ip_id out') in
        modify (set_buffers pkt' (fst r)) ;;; emit (Stdout (snd r))
      else if result =? DEPTH_UPDATE_MSG then
        let! r := access (report_deep F last_ip_id out') in
        modify (set_buffers pkt' (fst r)) ;;; emit (Stdout (snd r))
      else cprintf err_format [AInt size]
  end.
End Handle.

(** ** The frames of the feed, described by their bytes *)

Record feed_frame := FeedFrame {
  ff_macs : list byte;           (* destination and source address *)
  ff_tag : option (list byte);   (* tag control information of a VLAN tag *)
  ff_ip_start : list byte;       (* version to total length *)
  ff_id : list byte;             (* identification *)
  ff_ip_mid : list byte;         (* fragment fields to source address *)
  ff_dst : list byte;            (* destination address *)
  ff_rest : list byte            (* UDP header and message *)
}.

Definition ff_bytes (f : feed_frame) : list byte :=
  ff_macs f ++ (match ff_tag f with Some tci => [x81; x00] ++ tci | None => [] end)
  ++ [x08; x00] ++ ff_ip_start f ++ ff_id f ++ ff_ip_mid f ++ ff_dst f ++ ff_rest f.

Definition ff_wf (f : feed_frame) : Prop :=
  length (ff_macs f) = 12%nat /\
  (match ff_tag f with Some tci => length tci = 2%nat | None => True end) /\
  length (ff_ip_start f) = 4%nat /\ length (ff_id f) = 2%nat /\
  length (ff_ip_mid f) = 10%nat /\ length (ff_dst f) = 4%nat.

(** 239.239.239.8 *)
Definition group : list byte := [xef; xef; xef; x08].

(** A load behind a prefix, and a load of the prefix itself. *)
Lemma load_le_skip (pre buf : list byte) off n r :
  off = (length pre + r)%nat -> load_le off n (pre ++ buf) = load_le r n buf.
Proof.
  intros ->. unfold load_le, load. rewrite length_app, drop_app_add.
  destruct (decide (_ + _ + n <= _)%nat), (decide (r + n <= _)%nat); try lia; done.
Qed.

Lemma load_le_here (bs post : list byte) n :
  length bs = n -> load_le 0 n (bs ++ post) = Some (le_decode bs).
Proof. intros <-. unfold load_le. pose proof (load_app_mid [] bs post) as E. simpl in E. by rewrite E. Qed.

Lemma length_2 (l : list byte) : length l = 2%nat -> exists a b, l = [a; b].
Proof. destruct l as [|a [|b [|? ?]]]; try done. eauto. Qed.

Lemma length_4 (l : list byte) : length l = 4%nat -> exists a b c d, l = [a; b; c; d].
Proof. destruct l as [|a [|b [|c [|d [|? ?]]]]]; try done. eauto. Qed.

(** A 32-bit load is the group exactly when its bytes are. *)
Lemma ntohl_group l : length l = 4%nat ->
  (ntohl (le_decode l) =? DST_IP_FILTER) = bool_decide (l = group).
Proof.
  intros (a & b & c & d & ->)%length_4. rewrite ntohl_load. unfold DST_IP_FILTER, group.
  case_bool_decide as E; [by injection E as -> -> -> ->|].
  apply Z.eqb_neq. intros Hz. apply E. clear E. simpl be_decode in Hz.
  pose proof (b2z_range a). pose proof (b2z_range b). pose proof (b2z_range c). pose proof (b2z_range d).
  assert (b2z d = b2z x08) by (change (b2z x08) with 8; lia).
  assert (b2z c = b2z xef) by (change (b2z xef) with 239; lia).
  assert (b2z b = b2z xef) by (change (b2z xef) with 239; lia).
  assert (b2z a = b2z xef) by (change (b2z xef) with 239; lia).
  repeat f_equal; by apply b2z_inj.
Qed.

(** The IP header behind [pre], the Ethernet header. *)
Definition ff_ip (f : feed_frame) : list byte :=
  ff_ip_start f ++ ff_id f ++ ff_ip_mid f ++ ff_dst f ++ ff_rest f.

Lemma load_ip_fields f d pre : ff_wf f -> length pre = (14 + d)%nat ->
  load32 (d + DST_IP_OFFSET) (pre ++ ff_ip f) = Some (le_decode (ff_dst f)) /\
  load16 (d + IP_ID_OFFSET) (pre ++ ff_ip f) = Some (le_decode (ff_id f)).
Proof.
  intros (_ & _ & Hs & Hi & Hd & Hg) Hp. unfold DST_IP_OFFSET, IP_ID_OFFSET, ff_ip. split.
  - rewrite (load_le_skip pre _ _ _ 16), (load_le_skip _ _ _ _ 12),
      (load_le_skip _ _ _ _ 10), (load_le_skip _ _ _ _ 0) by lia. by apply load_le_here.
  - rewrite (load_le_skip pre _ _ _ 4), (load_le_skip _ _ _ _ 0) by lia.
    by apply load_le_here.
Qed.

(** The code on a described frame. *)
Lemma decode_frame_ff f : ff_wf f ->
  decode_frame (ff_bytes f) =
    Some (if bool_decide (ff_dst f = group) then Some (be_decode 0 (ff_id f)) else None).
Proof.
  intros Hw. pose proof Hw as (Hm & Ht & _ & Hi & _ & Hg).
  destruct (length_2 _ Hi) as (i0 & i1 & Ei).
  set (pre := ff_macs f ++ (match ff_tag f with Some tci => [x81; x00] ++ tci | None => [] end)
              ++ [x08; x00]).
  assert (Hb : ff_bytes f = pre ++ ff_ip f)
    by (unfold ff_bytes, pre, ff_ip; by rewrite <- !app_assoc).
  assert (exists d, find_dot1q_offset (ff_bytes f) = Some (Some d) /\ length pre = (14 + d)%nat)
    as (d & Hd & Hp).
  { unfold find_dot1q_offset, ff_bytes, pre, ETHTYPE_OFFSET, DOT1Q_ETHTYPE_OFFSET.
    rewrite (load_le_skip (ff_macs f) _ 12 _ 0) by lia.
    destruct (ff_tag f) as [tci|].
    - exists 4%nat. rewrite <- (app_assoc [x81; x00]).
      rewrite (load_le_here [x81; x00]) by done.
      rewrite (load_le_skip (ff_macs f) _ 16 _ 4), (load_le_skip [x81; x00] _ _ _ 2),
        (load_le_skip tci _ _ _ 0), (load_le_here [x08; x00]) by (simpl; lia).
      split; [done|]. rewrite !length_app, Hm, Ht. done.
    - exists 0%nat. rewrite app_nil_l, (load_le_here [x08; x00]) by done.
      split; [done|]. rewrite !length_app, Hm. done. }
  destruct (load_ip_fields f d pre Hw Hp) as [L1 L2].
  unfold decode_frame. rewrite Hd, Hb. cbn [mbind option_bind]. rewrite L1, L2.
  cbn [mbind option_bind]. rewrite (ntohl_group _ Hg). case_bool_decide; [|done].
  by rewrite Ei, ntohs_load.
Qed.

Lemma load_le_bytes off n buf bs :
  load_le off n buf = Some (le_decode bs) -> length bs = n -> load off n buf = Some bs.
Proof.
  unfold load_le. intros (x & Hx & He)%fmap_Some Hn. rewrite Hx. f_equal.
  pose proof (load_length _ _ _ _ Hx) as Hl.
  rewrite <- (le_encode_decode x), <- (le_encode_decode bs). congruence.
Qed.

(** Splits the buffer at a field. *)
Lemma load_field off n (buf : list byte) : (off + n <= length buf)%nat ->
  exists bs, length bs = n /\ load off n buf = Some bs /\ drop off buf = bs ++ drop (off + n) buf.
Proof.
  intros H. destruct (load_Some off n buf H) as [bs Hb]. exists bs.
  eauto using load_length, load_split.
Qed.

Lemma split_ip d pkt : (d + 34 <= length pkt)%nat ->
  exists s i m g r, drop (d + 14) pkt = s ++ i ++ m ++ g ++ r /\
    length s = 4%nat /\ length i = 2%nat /\ length m = 10%nat /\ length g = 4%nat /\
    load32 (d + DST_IP_OFFSET) pkt = Some (le_decode g) /\
    load16 (d + IP_ID_OFFSET) pkt = Some (le_decode i).
Proof.
  intros H. unfold DST_IP_OFFSET, IP_ID_OFFSET.
  destruct (load_field (d + 14) 4 pkt) as (s & Ls & _ & Ds); [lia|].
  destruct (load_field (d + 18) 2 pkt) as (i & Li & Fi & Di); [lia|].
  destruct (load_field (d + 20) 10 pkt) as (m & Lm & _ & Dm); [lia|].
  destruct (load_field (d + 30) 4 pkt) as (g & Lg & Fg & Dg); [lia|].
  exists s, i, m, g, (drop (d + 34) pkt). unfold load_le. rewrite Fi, Fg.
  replace (d + 14 + 4)%nat with (d + 18)%nat in Ds by lia.
  replace (d + 18 + 2)%nat with (d + 20)%nat in Di by lia.
  replace (d + 20 + 10)%nat with (d + 30)%nat in Dm by lia.
  replace (d + 30 + 4)%nat with (d + 34)%nat in Dg by lia.
  by rewrite Ds, Di, Dm, Dg.
Qed.

Lemma find_dot1q_total pkt : (18 <= length pkt)%nat -> is_Some (find_dot1q_offset pkt).
Proof.
  intros H. unfold find_dot1q_offset, ETHTYPE_OFFSET, DOT1Q_ETHTYPE_OFFSET.
  destruct (load_le_Some 12 2 pkt) as [e ->]; [lia|].
  destruct (load_le_Some 16 2 pkt) as [f ->]; [lia|].
  cbn [mbind option_bind]. repeat case_match; eauto.
Qed.

Lemma find_dot1q_cases pkt d : find_dot1q_offset pkt = Some (Some d) ->
  (d = 0%nat /\ load 12 2 pkt = Some [x08; x00]) \/
  (d = 4%nat /\ load 12 2 pkt = Some [x81; x00] /\ load 16 2 pkt = Some [x08; x00]).
Proof.
  unfold find_dot1q_offset, ETHTYPE_OFFSET, DOT1Q_ETHTYPE_OFFSET.
  destruct (load_le 12 2 pkt) as [e|] eqn:E; [|done]. cbn [mbind option_bind].
  destruct (Z.eqb_spec e IPV4_PACKET) as [->|_].
  { intros [= <-]. left. split; [done|]. by apply load_le_bytes. }
  destruct (Z.eqb_spec e DOT1Q_FRAME) as [->|_]; [|done].
  destruct (load_le 16 2 pkt) as [f|] eqn:G; [|done]. cbn [mbind option_bind].
  destruct (Z.eqb_spec f IPV4_PACKET) as [->|_]; [|done]. intros [= <-].
  right. split; [done|]. split; by apply load_le_bytes.
Qed.

(** Every frame the code takes for a frame of the feed is one. *)
Lemma decode_frame_inv pkt id : (38 <= length pkt)%nat ->
  decode_frame pkt = Some (Some id) ->
  exists f, ff_wf f /\ pkt = ff_bytes f /\ ff_dst f = group /\ id = be_decode 0 (ff_id f).
Proof.
  intros Hl. unfold decode_frame.
  destruct (find_dot1q_offset pkt) as [[d|]|] eqn:Hd; try done. cbn [mbind option_bind].
  apply find_dot1q_cases in Hd.
  assert (d <= 4)%nat by (destruct Hd as [[-> _]|[-> _]]; lia).
  destruct (split_ip d pkt) as (s & i & m & g & r & E & Ls & Li & Lm & Lg & Fg & Fi); [lia|].
  rewrite Fg, Fi. cbn [mbind option_bind]. rewrite (ntohl_group g Lg).
  case_bool_decide as Hg; [|done]. intros [= <-].
  pose proof (take_drop 12 pkt) as Hsp.
  destruct (length_2 _ Li) as (i0 & i1 & ->). rewrite ntohs_load.
  destruct Hd as [[-> L1]|(-> & L1 & L2)]; apply load_split in L1.
  - exists (FeedFrame (take 12 pkt) None s [i0; i1] m g r). split.
    { unfold ff_wf. cbn -[take]. rewrite length_take. repeat split; try done; lia. }
    split; [|done]. unfold ff_bytes. simpl ff_macs. simpl ff_tag. cbn -[take].
    rewrite <- Hsp at 1. rewrite L1. simpl Nat.add in *. by rewrite E.
  - apply load_split in L2.
    destruct (load_field 14 2 pkt) as (t & Lt & _ & Dt); [lia|].
    exists (FeedFrame (take 12 pkt) (Some t) s [i0; i1] m g r). split.
    { unfold ff_wf. cbn -[take]. rewrite length_take. repeat split; try done; lia. }
    split; [|done]. unfold ff_bytes. cbn -[take].
    rewrite <- Hsp at 1. rewrite L1. simpl Nat.add in *. rewrite Dt, L2, E. done.
Qed.

Lemma decode_frame_total pkt : (38 <= length pkt)%nat -> is_Some (decode_frame pkt).
Proof.
  intros Hl. unfold decode_frame. destruct (find_dot1q_total pkt) as [[d|] Hd]; [lia| |].
  - rewrite Hd. cbn [mbind option_bind]. apply find_dot1q_cases in Hd.
    assert (d <= 4)%nat by (destruct Hd as [[-> _]|[-> _]]; lia).
    destruct (split_ip d pkt) as (s & i & m & g & r & _ & _ & _ & _ & _ & Fg & Fi); [lia|].
    rewrite Fg, Fi. cbn [mbind option_bind]. case_match; eauto.
  - rewrite Hd. cbn. eauto.
Qed.

(** ** What [handle_frame] does *)

Lemma gap_printf_ok a b : is_Some (printf gap_format [AInt a; AInt b]).
Proof. eapply printf_fits; [reflexivity|]. by repeat constructor. Qed.

Lemma err_printf_ok z : is_Some (printf err_format [AInt z]).
Proof. eapply printf_fits; [reflexivity|]. by repeat constructor. Qed.

Lemma ntohs_range off pkt z : load16 off pkt = Some z -> 0 <= ntohs z < 2 ^ 16.
Proof.
  unfold load_le. intros (bs & Hb & ->)%fmap_Some.
  destruct (length_2 _ (load_length _ _ _ _ Hb)) as (a & b & ->). rewrite ntohs_load. simpl.
  pose proof (b2z_range a). pose proof (b2z_range b). lia.
Qed.

Lemma decode_frame_range pkt id : decode_frame pkt = Some (Some id) -> 0 <= id < 2 ^ 16.
Proof.
  unfold decode_frame. destruct (find_dot1q_offset pkt) as [[d|]|]; try done.
  cbn [mbind option_bind]. destruct (load_le (d + DST_IP_OFFSET) 4 pkt); [|done].
  cbn [mbind option_bind]. case_match; [|done].
  destruct (load_le (d + IP_ID_OFFSET) 2 pkt) as [i|] eqn:E; [|done].
  cbn. intros [= <-]. by eapply ntohs_range.
Qed.

Definition fwf (n : nat) (s : fstate) : Prop :=
  length (packet_buf s) = n /\ length (output_data s) = OUTPUT_DATA_SIZE /\
  0 <= prev_ip_id s < 2 ^ 16.

(** The line of the report of a frame. *)
Definition frame_line (F : formats) (id size result : Z) (out : list byte) : option string :=
  if result =? BEST_QUOTE_MSG then snd <$> report_best F id out
  else if result =? DEPTH_UPDATE_MSG then snd <$> report_deep F id out
  else printf err_format [AInt size].

Section HandleFacts.
#[local] Opaque printf.
Context (h : handler_full) `{HandlerFull h} (F : formats) (HF : formats_ok F).

(** Events of a frame with identification [id], after [prev]. *)
Definition frame_events (prev id size : Z) (pkt : list byte) (evs : list io) : Prop :=
  exists warn line,
    evs = (if id_gap prev id then [Stdout warn] else []) ++ [Stdout line] /\
    printf gap_format [AInt prev; AInt id] = Some warn /\
    frame_line F id size (fst (h pkt (zeros OUTPUT_DATA_SIZE)))
      (snd (snd (h pkt (zeros OUTPUT_DATA_SIZE)))) = Some line.

Lemma handle_frame_skip n size s : fwf n s -> decode_frame (packet_buf s) = Some None ->
  handle_frame h F size s = (s, Ok tt).
Proof. intros _ Hd. unfold handle_frame. wunfold. by rewrite Hd. Qed.

Lemma handle_frame_feed n size s id : fwf n s ->
  decode_frame (packet_buf s) = Some (Some id) ->
  exists s' evs, handle_frame h F size s = (s', Ok tt) /\ fwf n s' /\ prev_ip_id s' = id /\
    trace s' = trace s ++ evs /\ frame_events (prev_ip_id s) id size (packet_buf s) evs.
Proof.
  intros (Hp & Ho & Hr) Hd. pose proof (decode_frame_range _ _ Hd) as Hid.
  pose proof (hf_input (h:=h) (packet_buf s) (zeros OUTPUT_DATA_SIZE)) as Hi.
  pose proof (hf_output (h:=h) (packet_buf s) (zeros OUTPUT_DATA_SIZE)) as Hout.
  destruct (gap_printf_ok (prev_ip_id s) id) as [w Hw].
  destruct (err_printf_ok size) as [le Hle].
  pose proof (length_replicate OUTPUT_DATA_SIZE x00) as HL. fold (zeros OUTPUT_DATA_SIZE) in HL.
  set (r := h (packet_buf s) (zeros OUTPUT_DATA_SIZE)) in *.
  assert (exists o line,
    frame_line F id size (fst r) (snd (snd r)) = Some line /\ length o = OUTPUT_DATA_SIZE /\
    handle_frame h F size s =
      (FState id (fst (snd r)) o
         (trace s ++ (if id_gap (prev_ip_id s) id then [Stdout w] else []) ++ [Stdout line]),
       Ok tt)) as (o & line & Hline & Hol & Hrun).
  { unfold handle_frame, frame_line. wunfold. rewrite Hd. cbn. fold r.
    destruct r as [result [pkt' out']]. cbn [fst snd] in *.
    destruct (Z.eqb_spec result BEST_QUOTE_MSG) as [->|Hb];
      [destruct (report_best_ok F id out' HF Hout) as (o & l & q & Hrep & Hol & _)
      |destruct (Z.eqb_spec result DEPTH_UPDATE_MSG) as [->|Hb'];
        [destruct (report_deep_ok F id out' HF Hout) as (o & l & q & Hrep & Hol & _)|]];
    [exists o, l|exists o, l|exists out', le]; rewrite ?Hrep, ?Hle;
    (split; [done|]); (split; [try exact Hol; rewrite (proj1 Hout); exact HL|]);
    destruct (id_gap (prev_ip_id s) id); rewrite ?Hw; cbn; rewrite ?Hrep, ?Hle; cbn;
    rewrite <- ?app_assoc; done. }
  eexists _, _. split; [exact Hrun|]. split; [unfold fwf; simpl; split; [congruence|auto]|].
  split; [done|]. split; [reflexivity|]. exists w, line. auto.
Qed.
End HandleFacts.

(** ** A pass over a received frame: [if(size > 64)] and what is behind it *)

Definition frame_pass (h : handler_full) (F : formats) (size : Z) : cm fstate unit :=
  if 64 <? size then handle_frame h F size else ret tt.

#[global] Arguments frame_pass : simpl never.
#[global] Arguments handle_frame : simpl never.
#[global] Arguments decode_frame : simpl never.

(** The identification of the frame in a buffer, when the pass looks at it. *)
Definition frame_id (size : Z) (pkt : list byte) : option Z :=
  if 64 <? size then (match decode_frame pkt with Some d => d | None => None end) else None.

Section PassFacts.
Context (h : handler_full) `{HandlerFull h} (F : formats) (HF : formats_ok F).

(** From state [s], with the frame already in the buffer, to [s']. *)
Definition pass_spec (size : Z) (s s' : fstate) : Prop :=
  match frame_id size (packet_buf s) with
  | Some id =>
      prev_ip_id s' = id /\
      exists evs, trace s' = trace s ++ evs /\
        frame_events h F (prev_ip_id s) id size (packet_buf s) evs
  | None => s' = s
  end.

Lemma frame_pass_ok n size s : fwf n s -> (38 <= n)%nat ->
  exists s', frame_pass h F size s = (s', Ok tt) /\ fwf n s' /\ pass_spec size s s'.
Proof.
  intros Hs Hn. unfold frame_pass, pass_spec, frame_id.
  destruct (64 <? size); [|by exists s].
  destruct (decode_frame_total (packet_buf s)) as [[id|] Hd];
    [destruct Hs as [-> _]; lia| |]; rewrite Hd.
  - destruct (handle_frame_feed h F HF n size s id Hs Hd)
      as (s' & evs & Hr & Hw & Hp & Ht & He). exists s'. eauto 10.
  - exists s. rewrite (handle_frame_skip h F n size s Hs Hd). auto.
Qed.
End PassFacts.

(** The header fields of a frame longer than 64 bytes lie in its first 38
    bytes: what the buffer held before does not show in them. *)
Lemma load_take off n m (l : list byte) : (off + n <= m)%nat -> load off n (take m l) = load off n l.
Proof.
  intros H. unfold load. rewrite length_take, skipn_firstn_comm.
  destruct (decide (off + n <= length l)%nat), (decide (off + n <= m `min` length l)%nat);
    try lia; [|done]. f_equal.
  rewrite firstn_firstn. f_equal. lia.
Qed.

Lemma decode_frame_ext pkt pkt' :
  (forall off n, (off + n <= 38)%nat -> load off n pkt = load off n pkt') ->
  decode_frame pkt = decode_frame pkt'.
Proof.
  intros E. assert (El : forall off n, (off + n <= 38)%nat -> load_le off n pkt = load_le off n pkt')
    by (intros; unfold load_le; by rewrite E).
  unfold decode_frame. replace (find_dot1q_offset pkt') with (find_dot1q_offset pkt).
  2:{ unfold find_dot1q_offset, ETHTYPE_OFFSET, DOT1Q_ETHTYPE_OFFSET.
      by rewrite (El 12%nat), (El 16%nat) by lia. }
  destruct (find_dot1q_offset pkt) as [[d|]|] eqn:Hd; try done. cbn [mbind option_bind].
  apply find_dot1q_cases in Hd.
  assert (d <= 4)%nat by (destruct Hd as [[-> _]|[-> _]]; lia).
  unfold DST_IP_OFFSET, IP_ID_OFFSET. by rewrite !El by lia.
Qed.

Lemma decode_frame_recv_into buf data : (38 <= length data)%nat -> (38 <= length buf)%nat ->
  decode_frame (recv_into buf data) = decode_frame data.
Proof.
  intros Hd Hb. apply decode_frame_ext. intros off n Ho. unfold recv_into, load.
  rewrite length_app, length_take, length_drop, !decide_True by lia. f_equal.
  rewrite drop_app_le, take_app_le by (rewrite ?length_drop, ?length_take; lia).
  rewrite skipn_firstn_comm, firstn_firstn. f_equal. lia.
Qed.

(** Sequence gaps in a series of identifications, after [prev]. *)
Fixpoint gaps (prev : Z) (ids : list Z) : nat :=
  match ids with
  | [] => 0
  | id :: ids' => ((if id_gap prev id then 1 else 0) + gaps id ids')%nat
  end.

(** The identifications that follow [prev] without a gap, modulo [2^16]. *)
Fixpoint consecutive (prev : Z) (n : nat) : list Z :=
  match n with O => [] | S n' => u16 (prev + 1) :: consecutive (u16 (prev + 1)) n' end.

Lemma gaps_zero prev ids : gaps prev ids = 0%nat <-> ids = consecutive prev (length ids).
Proof.
  revert prev. induction ids as [|id ids IH]; intros prev; simpl; [done|].
  unfold id_gap at 1. destruct (Z.eqb_spec (u16 (prev + 1)) id) as [<-|Hn]; simpl.
  - rewrite IH. split; [by intros <-|congruence].
  - split; [lia|congruence].
Qed.

(** ** What the code accepts *)

(** C1: the header tests accept exactly the frames of the feed.  A buffer of at
    least 38 bytes is taken for a frame with identification [id] if and only if
    it is an Ethernet frame, with or without one VLAN tag, of an IPv4 datagram
    to 239.239.239.8 whose identification field is [id] in network byte order. *)
Theorem decode_frame_exact pkt id :
  (38 <= length pkt)%nat ->
  decode_frame pkt = Some (Some id) <->
  exists f, ff_wf f /\ pkt = ff_bytes f /\ ff_dst f = group /\ id = be_decode 0 (ff_id f).
Proof.
  intros Hl. split; [by apply decode_frame_inv|].
  intros (f & Hw & -> & Hg & ->). rewrite (decode_frame_ff f Hw).
  by rewrite bool_decide_true.
Qed.

(** A tagged frame with identification 0x0102. *)
Definition tagged_frame : feed_frame :=
  FeedFrame (replicate 12 x01) (Some [x00; x64]) [x45; x00; x00; x40] [x01; x02]
    (replicate 10 x00) group (replicate 40 x00).

Lemma decode_frame_exact_witness :
  decode_frame (ff_bytes tagged_frame) = Some (Some 258).
Proof.
  apply (decode_frame_exact (ff_bytes tagged_frame) 258); [vm_compute; lia|].
  exists tagged_frame. repeat split.
Defined.
