(* ===== verification/RawSock.v ===== *)
(** * RawSock: the client on a raw packet socket ([dce-sub-raw-socket.c])

    [main] checks its argument, opens a packet socket, asks for the flags of the
    interface, binds and serves one frame per pass.  The device flags are part
    of the state, so that the effect of the two [ioctl] calls shows. *)

From Stdlib Require Import ZArith Lia Strings.Byte String.
From S2P Require Import Prelude Bytes Binary64 Printf NormalUdp World CString Frame.

Definition BUF_SIZE : nat := 10240.
Definition IFNAMSIZ : nat := 16.
Definition IFF_PROMISC : Z := 0x100.
Definition SIOCGIFFLAGS : Z := 0x8913.
Definition SIOCSIFFLAGS : Z := 0x8914.
Definition PF_PACKET : Z := 17.
Definition SOCK_RAW : Z := 3.
Definition ETH_P_ALL : Z := 3.

Record ifreq := IfReq { ifr_name : list byte; ifr_flags : Z }.

(** The frame client, the request structure on the stack, and the flags of the
    device in the kernel. *)
Record state := State { frame : fstate; req : ifreq; dev_flags : Z }.

#[export] Instance state_traced : Traced state := {
  add_io e s := State (add_io e (frame s)) (req s) (dev_flags s)
}.

Definition on_frame {A} (c : cm fstate A) : cm state A := fun s =>
  let '(f, r) := c (frame s) in (State f (req s) (dev_flags s), r).

(** The results of the calls; [if_nametoindex] is applied to the 16 bytes of
    the name, and each [recv] gives the frame or [None] for -1. *)
Record env := Env {
  e_argv : list string;
  e_socket : Z;
  e_ioctl : Z;
  e_ioctl2 : Z;
  e_nametoindex : list byte -> Z;
  e_bind : Z;
  e_recv : list (option (list byte))
}.

(** [strncpy(dst, s, n)] into an array of [n] characters. *)
Definition strncpy (n : nat) (s : string) : list byte :=
  let bs := list_byte_of_string s in take n bs ++ zeros (n - length bs).

(** [ioctl(fd, request, &req)] when it succeeds, for the two requests on
    interface flags; both move a 16-bit value. *)
Definition ioctl_flags (request : Z) : cm state unit :=
  modify (fun s =>
    if request =? SIOCGIFFLAGS
    then State (frame s) (IfReq (ifr_name (req s)) (u16 (dev_flags s))) (dev_flags s)
    else if request =? SIOCSIFFLAGS
    then State (frame s) (req s) (ifr_flags (req s))
    else s).

Definition the_formats : formats := {|
  f_with_id := true;
  f_best := "%5d, %s, best, %d_%.1f x %.1f_%d, %d/%d, %.1f/%d" ++ nl;
  f_best_members :=
    ["contract_id"; "bid_qty"; "bid_price"; "ask_price"; "ask_qty";
     "match_tot_qty"; "open_interest"; "last_price"; "last_match_qty"];
  f_deep :=
    "%5d, %s, deep, %d_%.1f|%d_%.1f|%d_%.1f|%d_%.1f|%d_%.1f x %.1f_%d|%.1f_%d|%.1f_%d|%.1f_%d|%.1f_%d" ++ nl;
  f_deep_members :=
    ["contract_id"; "bid5_qty"; "bid5_price"; "bid4_qty"; "bid4_price";
     "bid3_qty"; "bid3_price"; "bid2_qty"; "bid2_price"; "bid1_qty"; "bid1_price";
     "ask1_price"; "ask1_qty"; "ask2_price"; "ask2_qty"; "ask3_price"; "ask3_qty";
     "ask4_price"; "ask4_qty"; "ask5_price"; "ask5_qty"]
|}%string.

Section Main.
Variable packet_handler_full : handler_full.

(** One pass of the loop on the result of [recv]. *)
Definition body (r : option (list byte)) : cm state loopctl :=
  match r with
  | None => cprintf ("recv error!" ++ nl) [] ;;; ret LBreak
  | Some data =>
      let n := Z.of_nat (Nat.min (length data) BUF_SIZE) in
      on_frame (modify (fun s =>
        FState (prev_ip_id s) (recv_into (packet_buf s) data) (output_data s) (trace s))) ;;;
      if n =? 0 then ret LNext
      else on_frame (frame_pass packet_handler_full the_formats n) ;;; ret LNext
  end.

Definition main (e : env) : cm state unit :=
  match e_argv e with
  | [_; ifname] =>
      emit (Syscall "socket" [PF_PACKET; SOCK_RAW; ntohs ETH_P_ALL]) ;;;
      if e_socket e =? -1 then
        cprintf ("socket error!" ++ nl) [] ;;; stop (Exit 1) else
      modify (fun s => State (frame s) (IfReq (strncpy IFNAMSIZ ifname) (ifr_flags (req s)))
                             (dev_flags s)) ;;;
      emit (Syscall "ioctl" [e_socket e; SIOCGIFFLAGS]) ;;;
      if e_ioctl e =? -1 then emit (Perror "ioctl") ;;; stop (Exit (-1)) else
      ioctl_flags SIOCGIFFLAGS ;;;
      modify (fun s => State (frame s)
        (IfReq (ifr_name (req s)) (Z.lor (ifr_flags (req s)) IFF_PROMISC)) (dev_flags s)) ;;;
      emit (Syscall "ioctl" [e_socket e; SIOCGIFFLAGS]) ;;;
      if e_ioctl2 e =? -1 then emit (Perror "ioctl") ;;; stop (Exit (-1)) else
      ioctl_flags SIOCGIFFLAGS ;;;
      let! s := get in
      let sll_ifindex := e_nametoindex e (ifr_name (req s)) in
      if sll_ifindex =? 0 then
        let! msg := access (name ← until_nul (ifr_name (req s));
                            printf ("Unknown interface: %s" ++ nl) [AStr name]) in
        emit (Stderr msg) ;;; stop (Exit 1) else
      emit (Syscall "bind" [e_socket e; PF_PACKET; ntohs ETH_P_ALL; sll_ifindex]) ;;;
      if e_bind e <? 0 then emit (Perror "bind") ;;; stop (Exit 1) else
      serve body (stop (Exit 0)) (e_recv e)
  | _ =>
      cprintf ("Usage: ./dce-sub-raw-socket ens1f[0:1]" ++ nl) [] ;;; stop (Exit 1)
  end.
End Main.

Lemma raw_the_formats_ok : formats_ok the_formats.
Proof. split; eexists; split; reflexivity. Qed.

#[local] Opaque printf.

(** ** A pass *)

Definition wf (s : state) : Prop := fwf BUF_SIZE (frame s).

Section Facts.
Context (h : handler_full) `{HandlerFull h}.

(** The frame as the buffer holds it, and its size. *)
Definition size_of (data : list byte) : Z := Z.of_nat (Nat.min (length data) BUF_SIZE).

Definition loaded (data : list byte) (s : fstate) : fstate :=
  FState (prev_ip_id s) (recv_into (packet_buf s) data) (output_data s) (trace s).

Definition raw_pass (data : list byte) (s s' : state) : Prop :=
  req s' = req s /\ dev_flags s' = dev_flags s /\
  pass_spec h the_formats (size_of data) (loaded data (frame s)) (frame s').

Lemma raw_body_pass data s : wf s ->
  exists s', body h (Some data) s = (s', Ok LNext) /\ wf s' /\ raw_pass data s s'.
Proof.
  intros (Hp & Ho & Hr). assert (Hl : fwf BUF_SIZE (loaded data (frame s)))
    by (unfold fwf; simpl; by rewrite recv_into_length).
  unfold body, on_frame. fold (size_of data). cunfold. fold (loaded data (frame s)).
  destruct (Z.eqb_spec (size_of data) 0) as [E|_].
  - eexists. split; [reflexivity|]. split; [exact Hl|]. unfold raw_pass, pass_spec, frame_id.
    simpl. by rewrite E.
  - destruct (frame_pass_ok h the_formats raw_the_formats_ok BUF_SIZE (size_of data) _ Hl)
      as (f & Hf & Hw & Hs); [by apply Nat.leb_le|].
    cbn [frame req dev_flags]. rewrite Hf. eexists. split; [reflexivity|]. split; [exact Hw|].
    unfold raw_pass. simpl. auto.
Qed.

(** A run of the loop over received frames, pass by pass. *)
Fixpoint served (ds : list (list byte)) (s s' : state) : Prop :=
  match ds with
  | [] => s = s'
  | d :: ds' => exists s1, wf s1 /\ raw_pass d s s1 /\ served ds' s1 s'
  end.

Lemma raw_serve_ok ds s : wf s ->
  exists s', serve (body h) (stop (Exit 0)) (Some <$> ds) s = (s', Ok tt) /\
    wf s' /\ served ds s s'.
Proof.
  revert s. induction ds as [|d ds IH]; intros s Hs; [by exists s|].
  destruct (raw_body_pass d s Hs) as (s1 & Hb & Hs1 & Hp).
  destruct (IH s1 Hs1) as (s' & Hr & Hw & Hsv). exists s'.
  cbn [fmap list_fmap serve]. rewrite (bind_Ok _ _ _ _ _ Hb). split; [exact Hr|].
  split; [done|]. exists s1. auto.
Qed.

(** The identifications of the frames of the feed, in order of arrival; they
    are read from the received bytes alone. *)
Definition ids (ds : list (list byte)) : list Z := omap (fun d => frame_id (size_of d) d) ds.

Lemma raw_frame_id_loaded data s : wf s ->
  frame_id (size_of data) (recv_into (packet_buf (frame s)) data) = frame_id (size_of data) data.
Proof.
  intros (Hp & _). unfold frame_id. destruct (Z.ltb_spec 64 (size_of data)) as [Hs|]; [|done].
  unfold size_of in Hs. rewrite decode_frame_recv_into; [done|lia|].
  rewrite Hp. by apply Nat.leb_le.
Qed.

(** Events: one line per frame of the feed and one more per gap. *)
Lemma raw_served_events ds s s' : wf s -> served ds s s' ->
  length (trace (frame s')) =
    (length (trace (frame s)) + length (ids ds) + gaps (prev_ip_id (frame s)) (ids ds))%nat /\
  prev_ip_id (frame s') = List.last (ids ds) (prev_ip_id (frame s)) /\
  dev_flags s' = dev_flags s.
Proof.
  revert s. induction ds as [|d ds IH]; intros s Hs; cbn [served].
  { intros <-. simpl. repeat split; lia. }
  intros (s1 & H1 & (_ & Hf & Hp) & Hsv). destruct (IH s1 H1 Hsv) as (Hl & Hlast & Hfl).
  unfold pass_spec in Hp. simpl in Hp. rewrite (raw_frame_id_loaded d s Hs) in Hp.
  unfold ids in *. cbn [omap list_omap]. rewrite Hfl, Hf.
  destruct (frame_id (size_of d) d) as [id|].
  - destruct Hp as (Hid & evs & Ht & w & l & -> & _). rewrite Hl, Hlast, Ht, Hid.
    cbn [gaps length]. rewrite !length_app. split; [|split; [|done]].
    + destruct (id_gap _ id); simpl; lia.
    + by rewrite last_cons_default.
  - rewrite Hl, Hlast, Hp. simpl. auto.
Qed.

Definition setup_ok (e : env) : Prop :=
  length (e_argv e) = 2%nat /\ e_socket e <> -1 /\ e_ioctl e <> -1 /\ e_ioctl2 e <> -1 /\
  (forall name, e_nametoindex e name <> 0) /\ 0 <= e_bind e.

Lemma raw_main_setup e s : setup_ok e ->
  exists s0, main h e s = serve (body h) (stop (Exit 0)) (e_recv e) s0 /\
    prev_ip_id (frame s0) = prev_ip_id (frame s) /\
    packet_buf (frame s0) = packet_buf (frame s) /\
    output_data (frame s0) = output_data (frame s) /\
    dev_flags s0 = dev_flags s /\ ifr_flags (req s0) = u16 (dev_flags s) /\
    exists evs, trace (frame s0) = trace (frame s) ++ evs /\ length evs = 4%nat.
Proof.
  intros (Ha & H1 & H2 & H3 & H4 & H5). unfold main.
  destruct (e_argv e) as [|a0 [|ifname [|? ?]]]; try done. wunfold.
  apply Z.eqb_neq in H1, H2, H3. apply Z.ltb_ge in H5. rewrite H1, H2, H3, H5.
  rewrite (proj2 (Z.eqb_neq _ _) (H4 _)). eexists. split; [reflexivity|]. simpl.
  repeat split. eexists. rewrite <- !app_assoc. split; [reflexivity|done].
Qed.

(** The flags of the device, along every path of a pass and of [main]. *)
Lemma raw_body_dev_flags r s s' o : body h r s = (s', o) -> dev_flags s' = dev_flags s.
Proof.
  unfold body, on_frame. wunfold. destruct r as [data|].
  - destruct (_ =? 0); [by intros [= <- _]|]. cbn [frame req dev_flags].
    destruct (frame_pass _ _ _ _) as [f [[]|z| |]]; by intros [= <- _].
  - destruct (printf _ _); cbn; by intros [= <- _].
Qed.

Lemma raw_serve_dev_flags ins s s' o :
  serve (body h) (stop (Exit 0)) ins s = (s', o) -> dev_flags s' = dev_flags s.
Proof.
  intros Hr. eapply (serve_inv (fun t => dev_flags t = dev_flags s)); try exact Hr; [| |done].
  - intros i st st' r Hst Hb. apply raw_body_dev_flags in Hb. congruence.
  - intros st st' r Hst. unfold stop. by intros [= <- _].
Qed.
End Facts.

(** ** The client *)

(** C3: with a set-up whose calls succeed, on every sequence of received frames
    the client stays in its loop and no access leaves a buffer; a frame that is
    not longer than 64 bytes or not of the feed changes nothing; each frame of
    the feed gives one report line, preceded by a warning exactly when its
    identification is not the successor, modulo [2^16], of the one before; and
    the identifications are read from the received bytes alone. *)
Theorem raw_main_serves (h : handler_full) (H : HandlerFull h) e ds s :
  wf s -> setup_ok e -> e_recv e = Some <$> ds ->
  exists s0 s', main h e s = (s', Ok tt) /\ wf s' /\ served h ds s0 s' /\
    prev_ip_id (frame s0) = prev_ip_id (frame s) /\
    length (trace (frame s0)) = (length (trace (frame s)) + 4)%nat /\
    length (trace (frame s')) =
      (length (trace (frame s0)) + length (ids ds) + gaps (prev_ip_id (frame s)) (ids ds))%nat /\
    prev_ip_id (frame s') = List.last (ids ds) (prev_ip_id (frame s)).
Proof.
  intros Hs He Hr. destruct (raw_main_setup h e s He) as (s0 & Hm & Hp & Hb & Ho & _ & _ & evs & Ht & Hl).
  assert (wf s0) as Hs0 by (unfold wf, fwf in *; by rewrite Hp, Hb, Ho).
  destruct (raw_serve_ok h ds s0 Hs0) as (s' & Hrun & Hw & Hsv).
  destruct (raw_served_events h ds s0 s' Hs0 Hsv) as (E1 & E2 & _).
  exists s0, s'. rewrite Hm, Hr, <- Hp. repeat split; try done; try apply Hw.
  by rewrite Ht, length_app, Hl.
Qed.

Definition st0 : state :=
  State (FState 0 (zeros BUF_SIZE) (zeros OUTPUT_DATA_SIZE) []) (IfReq [] 0) 0x1043.
Definition env0 (ds : list (list byte)) : env :=
  Env ["dce-sub-raw-socket"; "ens1f0"]%string 3 0 0 (fun _ => 2) 0 (Some <$> ds).

Lemma raw_st0_wf : wf st0.
Proof.
  unfold wf, fwf. cbn [frame packet_buf output_data prev_ip_id st0]. unfold zeros.
  rewrite !length_replicate. repeat split; lia.
Qed.

Lemma raw_main_serves_witness :
  exists s0 s', main copy_full (env0 [ff_bytes tagged_frame; []]) st0 = (s', Ok tt) /\ wf s' /\
    served copy_full [ff_bytes tagged_frame; []] s0 s' /\
    prev_ip_id (frame s0) = prev_ip_id (frame st0) /\
    length (trace (frame s0)) = (length (trace (frame st0)) + 4)%nat /\
    length (trace (frame s')) =
      (length (trace (frame s0)) + length (ids [ff_bytes tagged_frame; []])
       + gaps (prev_ip_id (frame st0)) (ids [ff_bytes tagged_frame; []]))%nat /\
    prev_ip_id (frame s') = List.last (ids [ff_bytes tagged_frame; []]) (prev_ip_id (frame st0)).
Proof.
  apply (raw_main_serves copy_full copy_full_ok (env0 [ff_bytes tagged_frame; []])
           [ff_bytes tagged_frame; []] st0); [exact raw_st0_wf| |reflexivity].
  repeat split; intros; simpl; lia.
Defined.

(** A stream is reported without a warning exactly when its identifications
    follow one another modulo [2^16], the first one following the identification
    the client saw last. *)
Lemma raw_warning_free_iff_consecutive (h : handler_full) (H : HandlerFull h) ds s s' :
  wf s -> served h ds s s' ->
  length (trace (frame s')) = (length (trace (frame s)) + length (ids ds))%nat <->
  ids ds = consecutive (prev_ip_id (frame s)) (length (ids ds)).
Proof.
  intros Hs Hsv. destruct (raw_served_events h ds s s' Hs Hsv) as (-> & _ & _).
  rewrite <- gaps_zero. lia.
Qed.

(** Two frames around the end of the 16-bit range. *)
Definition wrap_frames : list (list byte) :=
  [ff_bytes (FeedFrame (replicate 12 x01) None [x45; x00; x00; x40] [xff; xff]
               (replicate 10 x00) group (replicate 40 x00));
   ff_bytes (FeedFrame (replicate 12 x01) None [x45; x00; x00; x40] [x00; x00]
               (replicate 10 x00) group (replicate 40 x00))].

Definition st_fffe : state :=
  State (FState 65534 (zeros BUF_SIZE) (zeros OUTPUT_DATA_SIZE) []) (IfReq [] 0) 0.

Lemma raw_st_fffe_served :
  wf st_fffe /\ exists s', served copy_full wrap_frames st_fffe s'.
Proof.
  assert (wf st_fffe) as Hw.
  { unfold wf, fwf. cbn [frame packet_buf output_data prev_ip_id st_fffe]. unfold zeros.
    rewrite !length_replicate. repeat split; lia. }
  split; [done|]. destruct (raw_serve_ok copy_full wrap_frames st_fffe Hw) as (s' & _ & _ & Hs).
  eauto.
Qed.

Lemma raw_warning_free_iff_consecutive_witness :
  exists s', length (trace (frame s')) = (length (trace (frame st_fffe)) + 2)%nat.
Proof.
  destruct raw_st_fffe_served as [Hw [s' Hs]]. exists s'.
  apply (raw_warning_free_iff_consecutive copy_full copy_full_ok wrap_frames st_fffe s' Hw Hs).
  vm_compute. reflexivity.
Defined.

(** The program does not put the interface into promiscuous mode: whatever
    the calls return and whatever is received, the flags of the device are at the
    end what they were at the start, since both [ioctl] calls read them. *)
Lemma raw_promiscuous_never_set (h : handler_full) e s :
  dev_flags (fst (main h e s)) = dev_flags s.
Proof.
  unfold main. destruct (e_argv e) as [|a0 [|ifname [|? ?]]]; wunfold;
    try (destruct (printf _ _); reflexivity).
  destruct (e_socket e =? -1); [destruct (printf _ _); reflexivity|].
  destruct (e_ioctl e =? -1); [reflexivity|]. cbn.
  destruct (e_ioctl2 e =? -1); [reflexivity|]. cbn.
  destruct (_ =? 0); [by destruct (_ ≫= _)|]. destruct (e_bind e <? 0); [reflexivity|].
  destruct (serve _ _ _ _) as [s' o] eqn:E. by apply raw_serve_dev_flags in E.
Qed.
