(* ===== verification/Exanic.v ===== *)
(** * Exanic: the client on an ExaNIC adapter ([dce-sub-exanic.c])

    [main] takes its device and port from an argument of the form
    [exanic0:1], acquires the receive buffer and polls it for ever.  The calls of
    the vendor's library are inputs of the model: whether the handle and the
    receive buffer were acquired, and for each [exanic_receive_frame] its result
    and what it left in the packet buffer. *)

From Stdlib Require Import ZArith Lia Strings.Byte Ascii String.
From S2P Require Import Prelude Bytes Binary64 Printf NormalUdp World CString Frame.

Definition PACKET_BUF_SIZE : nat := 2048.

Record env := Env {
  e_argv : list string;
  e_last_error : string;
  e_acquire_handle : string -> bool;
  e_acquire_rx_buffer : Z -> bool;
  e_receive : list (Z * list byte)
}.

Definition the_formats : formats := {|
  f_with_id := false;
  f_best := "%s, %8s, best, %d_%.1f x %.1f_%d, %d/%.2f/%d, %.1f/%d" ++ nl;
  f_best_members :=
    ["contract_id"; "gen_time"; "bid_qty"; "bid_price"; "ask_price"; "ask_qty";
     "match_tot_qty"; "turnover"; "open_interest"; "last_price"; "last_match_qty"];
  f_deep :=
    "%s, %8s, deep, %d_%.1f|%d_%.1f|%d_%.1f|%d_%.1f|%d_%.1f x %.1f_%d|%.1f_%d|%.1f_%d|%.1f_%d|%.1f_%d" ++ nl;
  f_deep_members :=
    ["contract_id"; "gen_time"; "bid5_qty"; "bid5_price"; "bid4_qty"; "bid4_price";
     "bid3_qty"; "bid3_price"; "bid2_qty"; "bid2_price"; "bid1_qty"; "bid1_price";
     "ask1_price"; "ask1_qty"; "ask2_price"; "ask2_qty"; "ask3_price"; "ask3_qty";
     "ask4_price"; "ask4_qty"; "ask5_price"; "ask5_qty"]
|}%string.

(** The device name and port of the argument.  The outer [None] is the usage
    error (no colon); the inner [None] is [atoi(NULL)], undefined behaviour,
    when [strtok] finds no second token; a name that is missing is a null
    pointer as well. *)
Definition parse_nic (arg : string) : option (option (string * Z)) :=
  match strchr arg ":" with
  | None => None
  | Some _ =>
      let '(nic_name, saved) := strtok arg ":" in
      let '(port, _) := strtok saved ":" in
      match nic_name, port with
      | Some name, Some p => Some (Some (name, u8 (atoi p)))
      | _, _ => Some None
      end
  end.

Section Main.
Variable packet_handler_full : handler_full.

(** One pass of [while (keep_running)]; nothing clears the flag. *)
Definition body (r : Z * list byte) : cm fstate loopctl :=
  modify (fun s => FState (prev_ip_id s) (snd r) (output_data s) (trace s)) ;;;
  frame_pass packet_handler_full the_formats (fst r) ;;; ret LNext.

Definition usage (argv0 : string) : cm fstate unit :=
  let! m := access (printf ("Usage: %s exanic[0-N]:[0,1]" ++ nl)
                      [AStr (list_byte_of_string argv0)]) in
  emit (Stderr m) ;;; stop (Exit (-1)).

Definition failed (what : string) (e : env) : cm fstate unit :=
  let! m := access (printf (what ++ nl) [AStr (list_byte_of_string (e_last_error e))]) in
  emit (Stderr m) ;;; stop (Exit (-1)).

Definition main (e : env) : cm fstate unit :=
  match e_argv e with
  | [argv0; arg] =>
      match parse_nic arg with
      | None => usage argv0
      | Some None => stop Undef
      | Some (Some (nic_name, nic_port)) =>
          cprintf ("nic_name:%s, nic_port:%d " ++ nl)
            [AStr (list_byte_of_string nic_name); AInt nic_port] ;;;
          if e_acquire_handle e nic_name then
            if e_acquire_rx_buffer e nic_port then
              serve body (stop (Exit 0)) (e_receive e)
            else failed "exanic_acquire_rx_buffer: %s" e
          else failed "exanic_acquire_handle: %s" e
      end
  | argv0 :: _ => usage argv0
  | [] => usage ""
  end.
End Main.

Lemma exa_the_formats_ok : formats_ok the_formats.
Proof. split; eexists; split; reflexivity. Qed.

#[local] Opaque printf.

(** ** Arguments *)

Lemma exa_in_set_colon c : in_set c ":" = if ascii_dec c ":" then true else false.
Proof. simpl. by destruct (ascii_dec c ":"). Qed.

(** A name without colon, a colon, and a port that starts with no colon. *)
Lemma exa_break_set_app name rest :
  strchr name ":" = None ->
  break_set ":" (name ++ String ":" rest) = (name, rest).
Proof.
  induction name as [|c name IH]; [done|]. rewrite append_cons. cbn [strchr break_set].
  destruct (ascii_dec ":" c) as [->|Hc]; [done|]. intros Hn.
  rewrite exa_in_set_colon. destruct (ascii_dec c ":") as [->|_]; [done|]. by rewrite (IH Hn).
Qed.

Lemma exa_strchr_app name rest : is_Some (strchr (name ++ String ":" rest) ":").
Proof.
  induction name as [|c name IH]; [by eexists|]. rewrite append_cons. cbn [strchr].
  destruct (ascii_dec ":" c); eauto.
Qed.

Lemma exa_break_set_none p : strchr p ":" = None -> break_set ":" p = (p, EmptyString).
Proof.
  induction p as [|c p IH]; [done|]. cbn [strchr break_set].
  destruct (ascii_dec ":" c) as [->|Hc]; [done|]. intros Hn.
  rewrite exa_in_set_colon. destruct (ascii_dec c ":") as [->|_]; [done|]. by rewrite (IH Hn).
Qed.

Lemma exa_skip_set_none p : p <> EmptyString -> strchr p ":" = None -> skip_set ":" p = p.
Proof.
  destruct p as [|c p]; [done|]. intros _. cbn [strchr skip_set].
  destruct (ascii_dec ":" c) as [->|Hc]; [done|]. intros _.
  rewrite exa_in_set_colon. destruct (ascii_dec c ":") as [->|_]; done.
Qed.

Lemma exa_skip_set_head name rest : name <> EmptyString -> strchr name ":" = None ->
  skip_set ":" (name ++ String ":" rest) = (name ++ String ":" rest)%string.
Proof.
  destruct name as [|c p]; [done|]. intros _. rewrite append_cons. cbn [strchr skip_set].
  destruct (ascii_dec ":" c) as [->|Hc]; [done|]. intros _.
  rewrite exa_in_set_colon. destruct (ascii_dec c ":") as [->|_]; done.
Qed.

Lemma exa_strtok_head name rest : name <> EmptyString -> strchr name ":" = None ->
  strtok (name ++ String ":" rest) ":" = (Some name, rest).
Proof.
  intros Hn Hc. unfold strtok. rewrite (exa_skip_set_head _ _ Hn Hc).
  destruct name as [|c name]; [done|]. rewrite append_cons, <- append_cons.
  by rewrite (exa_break_set_app _ rest Hc).
Qed.

Lemma exa_strtok_last p : p <> EmptyString -> strchr p ":" = None ->
  strtok p ":" = (Some p, EmptyString).
Proof.
  intros Hn Hc. unfold strtok. rewrite (exa_skip_set_none _ Hn Hc).
  destruct p as [|c p]; [done|]. by rewrite (exa_break_set_none _ Hc).
Qed.

(** ** A pass *)

Definition wf (s : fstate) : Prop := fwf PACKET_BUF_SIZE s.

Section Facts.
Context (h : handler_full) `{HandlerFull h}.

Definition loaded (r : Z * list byte) (s : fstate) : fstate :=
  FState (prev_ip_id s) (snd r) (output_data s) (trace s).

Lemma exa_body_pass r s : wf s -> length (snd r) = PACKET_BUF_SIZE ->
  exists s', body h r s = (s', Ok LNext) /\ wf s' /\
    pass_spec h the_formats (fst r) (loaded r s) s'.
Proof.
  intros (Hp & Ho & Hr) Hl. assert (fwf PACKET_BUF_SIZE (loaded r s)) as Hw by done.
  destruct (frame_pass_ok h the_formats exa_the_formats_ok PACKET_BUF_SIZE (fst r) _ Hw)
    as (f & Hf & Hwf & Hs); [by apply Nat.leb_le|].
  exists f. unfold body. cunfold. fold (loaded r s). by rewrite Hf.
Qed.

(** A run of the loop over polls of the adapter, pass by pass. *)
Fixpoint served (rs : list (Z * list byte)) (s s' : fstate) : Prop :=
  match rs with
  | [] => s = s'
  | r :: rs' =>
      exists s1, wf s1 /\ pass_spec h the_formats (fst r) (loaded r s) s1 /\ served rs' s1 s'
  end.

Lemma exa_serve_ok rs s : wf s -> Forall (fun r => length (snd r) = PACKET_BUF_SIZE) rs ->
  exists s', serve (body h) (stop (Exit 0)) rs s = (s', Ok tt) /\ wf s' /\ served rs s s'.
Proof.
  intros Hs Hf. revert s Hs. induction Hf as [|r rs Hr _ IH]; intros s Hs; [by exists s|].
  destruct (exa_body_pass r s Hs Hr) as (s1 & Hb & Hs1 & Hp).
  destruct (IH s1 Hs1) as (s' & Hrun & Hw & Hsv). exists s'.
  cbn [serve]. rewrite (bind_Ok _ _ _ _ _ Hb). split; [exact Hrun|].
  split; [done|]. exists s1. auto.
Qed.

Definition ids (rs : list (Z * list byte)) : list Z :=
  omap (fun r => frame_id (fst r) (snd r)) rs.

Lemma exa_served_events rs s s' : served rs s s' ->
  length (trace s') =
    (length (trace s) + length (ids rs) + gaps (prev_ip_id s) (ids rs))%nat /\
  prev_ip_id s' = List.last (ids rs) (prev_ip_id s).
Proof.
  revert s. induction rs as [|r rs IH]; intros s; cbn [served].
  { intros <-. simpl. split; lia. }
  intros (s1 & H1 & Hp & Hsv). destruct (IH s1 Hsv) as (Hl & Hlast).
  unfold pass_spec in Hp. simpl in Hp. unfold ids in *. cbn [omap list_omap].
  destruct (frame_id (fst r) (snd r)) as [id|].
  - destruct Hp as (Hid & evs & Ht & w & l & -> & _). rewrite Hl, Hlast, Ht, Hid.
    cbn [gaps length]. rewrite !length_app, last_cons_default. split; [|done].
    destruct (id_gap _ id); simpl; lia.
  - rewrite Hl, Hlast, Hp. simpl. auto.
Qed.
End Facts.

(** ** The client *)

(** The argument [name:port] with a name and a port is split at the colon and
    the port is the value of [atoi] modulo 256; an argument without a colon is
    the usage error; with a colon but nothing behind it, the program passes a
    null pointer to [atoi]. *)
Lemma exa_parse_nic_cases name port :
  name <> EmptyString -> strchr name ":" = None ->
  port <> EmptyString -> strchr port ":" = None ->
  parse_nic (name ++ String ":" port) = Some (Some (name, u8 (atoi port))) /\
  parse_nic name = None /\
  parse_nic (name ++ ":") = Some None.
Proof.
  intros Hn Hc Hp Hpc. unfold parse_nic. destruct (exa_strchr_app name port) as [? ->].
  rewrite (exa_strtok_head _ _ Hn Hc), (exa_strtok_last _ Hp Hpc), Hc. repeat split.
  destruct (exa_strchr_app name "") as [? ->]. by rewrite (exa_strtok_head _ _ Hn Hc).
Qed.

Lemma exa_parse_nic_cases_witness :
  parse_nic "exanic0:1" = Some (Some ("exanic0", 1)%string) /\
  parse_nic "exanic0" = None /\ parse_nic "exanic0:" = Some None.
Proof. apply (exa_parse_nic_cases "exanic0" "1"); (done || reflexivity). Defined.

(** C4: with a well-formed argument and the adapter acquired, the client polls for
    ever and no access leaves a buffer, whatever the polls return; it prints one
    line for its arguments, one report line for each frame of the feed that is
    longer than 64 bytes, and one warning for each gap in the identifications;
    empty polls, errors and other frames change nothing. *)
Theorem exa_main_serves (h : handler_full) (H : HandlerFull h) e argv0 arg name port s :
  wf s -> e_argv e = [argv0; arg] -> parse_nic arg = Some (Some (name, port)) ->
  e_acquire_handle e name = true -> e_acquire_rx_buffer e port = true ->
  Forall (fun r => length (snd r) = PACKET_BUF_SIZE) (e_receive e) ->
  exists s0 s', main h e s = (s', Ok tt) /\ wf s' /\ served h (e_receive e) s0 s' /\
    length (trace s') =
      (length (trace s) + 1 + length (ids (e_receive e))
       + gaps (prev_ip_id s) (ids (e_receive e)))%nat /\
    prev_ip_id s' = List.last (ids (e_receive e)) (prev_ip_id s).
Proof.
  intros Hs Ha Hp H1 H2 Hr. unfold main. rewrite Ha, Hp.
  destruct (printf_fits ("nic_name:%s, nic_port:%d " ++ nl) _
              [AStr (list_byte_of_string name); AInt port] eq_refl) as [l Hl];
    [by repeat constructor|].
  unfold cprintf, emit. cunfold. rewrite Hl. cbn. rewrite H1, H2.
  set (s0 := FState (prev_ip_id s) (packet_buf s) (output_data s) (trace s ++ [Stdout l])).
  assert (wf s0) as Hs0 by exact Hs.
  destruct (exa_serve_ok h (e_receive e) s0 Hs0 Hr) as (s' & Hrun & Hw & Hsv).
  destruct (exa_served_events h _ _ _ Hsv) as [E1 E2].
  exists s0, s'. repeat split; try done; try apply Hw.
  rewrite E1. simpl. rewrite length_app. simpl. lia.
Qed.

Definition st0 : fstate := FState 0 (zeros PACKET_BUF_SIZE) (zeros OUTPUT_DATA_SIZE) [].
Definition env0 : env :=
  Env ["dce-sub-exanic"; "exanic0:1"]%string "" (fun _ => true) (fun _ => true)
    [(0, zeros PACKET_BUF_SIZE);
     (78, recv_into (zeros PACKET_BUF_SIZE) (ff_bytes tagged_frame)); (-1, zeros PACKET_BUF_SIZE)].

Lemma exa_main_serves_witness :
  exists s0 s', main copy_full env0 st0 = (s', Ok tt) /\ wf s' /\
    served copy_full (e_receive env0) s0 s' /\
    length (trace s') =
      (length (trace st0) + 1 + length (ids (e_receive env0))
       + gaps (prev_ip_id st0) (ids (e_receive env0)))%nat /\
    prev_ip_id s' = List.last (ids (e_receive env0)) (prev_ip_id st0).
Proof.
  apply (exa_main_serves copy_full copy_full_ok env0 "dce-sub-exanic" "exanic0:1" "exanic0" 1 st0);
    try reflexivity; [repeat split; simpl; lia|repeat constructor].
Defined.
