(* ===== verification/BitField.v ===== *)
(** * BitField: C bit-fields

    A structure of bit-fields over [unsigned] as a list of members.  [place]
    lays them out the way the ABI of the supported hosts does: from the least
    significant bit up, a field never crossing a 32-bit unit.  An object is the
    number of its bits. *)

From Stdlib Require Import ZArith Lia String.
From S2P Require Import Prelude.

Inductive member :=
  | MBits (name : string) (width : Z)   (* unsigned name : width; *)
  | MWord (name : string).              (* unsigned name; *)

Definition mname (m : member) : string :=
  match m with MBits n _ | MWord n => n end.
Definition mwidth (m : member) : Z :=
  match m with MBits _ w => w | MWord _ => 32 end.

Definition next_unit (pos : Z) : Z := 32 * ((pos + 31) / 32).

(** Name, offset and width of each member, the first one at bit [pos] or later. *)
Fixpoint place (pos : Z) (ms : list member) : list (string * (Z * Z)) :=
  match ms with
  | [] => []
  | m :: ms' =>
      let p := if 32 <? pos mod 32 + mwidth m then next_unit pos else pos in
      (mname m, (p, mwidth m)) :: place (p + mwidth m) ms'
  end.

Fixpoint locate (f : string) (l : list (string * (Z * Z))) : option (Z * Z) :=
  match l with
  | [] => None
  | (g, ow) :: l' => if String.eqb f g then Some ow else locate f l'
  end.

(** The value of the field at offset [o] of width [w]. *)
Definition getbits (o w x : Z) : Z := Z.land (Z.shiftr x o) (Z.ones w).

Definition bf_get (ms : list member) (f : string) (x : Z) : Z :=
  match locate f (place 0 ms) with Some (o, w) => getbits o w x | None => 0 end.

(** An object with the given member values. *)
Fixpoint build (l : list (string * (Z * Z))) (vs : list Z) : Z :=
  match l, vs with
  | (_, (o, _)) :: l', v :: vs' => Z.lor (Z.shiftl v o) (build l' vs')
  | _, _ => 0
  end.

Definition bf_make (ms : list member) (vs : list Z) : Z := build (place 0 ms) vs.

(** ** Layout *)

Definition widths_ok (ms : list member) : Prop := Forall (fun m => 0 < mwidth m <= 32) ms.

#[export] Instance widths_ok_dec ms : Decision (widths_ok ms).
Proof. unfold widths_ok. apply _. Defined.

(** Fields in order, from bit [pos] up, without overlap. *)
Fixpoint laid (pos : Z) (l : list (string * (Z * Z))) : Prop :=
  match l with
  | [] => True
  | (_, (o, w)) :: l' => pos <= o /\ 0 < w /\ laid (o + w) l'
  end.

Lemma next_unit_ge pos : pos <= next_unit pos.
Proof. unfold next_unit. pose proof (Z.div_mod (pos + 31) 32 ltac:(lia)).
  pose proof (Z.mod_pos_bound (pos + 31) 32 ltac:(lia)). lia. Qed.

Lemma place_laid pos ms : widths_ok ms -> laid pos (place pos ms).
Proof.
  intros Hw. revert pos. induction Hw as [|m ms Hm _ IH]; intros pos; cbn [place laid]; [done|].
  split; [|split; [lia|apply IH]].
  destruct (_ <? _); [apply next_unit_ge|lia].
Qed.

(** A field stays inside one 32-bit unit. *)
Lemma place_unit pos ms n o w : widths_ok ms -> 0 <= pos ->
  (n, (o, w)) ∈ place pos ms -> o mod 32 + w <= 32 /\ 0 <= o.
Proof.
  intros Hw. revert pos. induction Hw as [|m ms Hm _ IH]; intros pos Hp; cbn [place].
  { by intros ?%not_elem_of_nil. }
  set (p := if _ <? _ then _ else _).
  assert (0 <= p /\ p mod 32 + mwidth m <= 32) as [Hp1 Hp2].
  { subst p. pose proof (next_unit_ge pos). destruct (Z.ltb_spec 32 (pos mod 32 + mwidth m)); [|lia].
    split; [lia|]. unfold next_unit. rewrite Z.mul_comm, Z_mod_mult. lia. }
  intros [E|Hin]%elem_of_cons; [simplify_eq; lia|]. eapply IH; [|done]. lia.
Qed.

Lemma getbits_range o w x : 0 <= w -> 0 <= getbits o w x < 2 ^ w.
Proof. intros. unfold getbits. rewrite Z.land_ones by lia. apply Z.mod_pos_bound. lia. Qed.

(** Bits of an object below its first field are clear. *)
Lemma build_low pos l vs k : laid pos l -> 0 <= k < pos -> Z.testbit (build l vs) k = false.
Proof.
  revert pos vs. induction l as [|[n [o w]] l IH]; intros pos vs Hl Hk; cbn [build].
  { apply Z.bits_0. }
  destruct vs as [|v vs]; [apply Z.bits_0|]. destruct Hl as (Ho & Hw & Hl).
  rewrite Z.lor_spec, Z.shiftl_spec_low by lia. simpl. eapply IH; [done|lia].
Qed.

Lemma testbit_small v w k : 0 <= v < 2 ^ w -> w <= k -> Z.testbit v k = false.
Proof.
  intros Hv Hk. destruct (decide (0 <= w)) as [Hw|Hw].
  - rewrite <- (Z.mod_small v (2 ^ w)) by lia. by apply Z.mod_pow2_bits_high.
  - rewrite Z.pow_neg_r in Hv by lia. lia.
Qed.

Lemma laid_lookup pos l i n o w : laid pos l -> l !! i = Some (n, (o, w)) -> pos <= o /\ 0 < w.
Proof.
  revert pos i. induction l as [|[a [b c]] l IH]; intros pos i Hl Hi; [done|].
  destruct Hl as (H1 & H2 & H3). destruct i as [|i]; simpl in Hi; [simplify_eq; lia|].
  destruct (IH _ _ H3 Hi). lia.
Qed.

(** Reading a member gives the value the object was made with. *)
Lemma getbits_build pos l vs i n o w v :
  laid pos l -> 0 <= pos ->
  Forall2 (fun f v => 0 <= v < 2 ^ snd (snd f)) l vs ->
  l !! i = Some (n, (o, w)) -> vs !! i = Some v -> getbits o w (build l vs) = v.
Proof.
  intros Hl Hp Hf. revert pos i Hl Hp. induction Hf as [|[n' [o' w']] v' l vs Hv Hf IH];
    intros pos i Hl Hp Hi Hvi; [done|]. destruct Hl as (Ho & Hw & Hl). simpl in Hv.
  unfold getbits. apply Z.bits_inj'. intros k Hk.
  rewrite Z.land_spec, Z.shiftr_spec by lia. cbn [build]. rewrite Z.lor_spec.
  destruct i as [|i]; simpl in Hi, Hvi.
  - simplify_eq. destruct (Z.ltb_spec k w).
    + rewrite Z.ones_spec_low, Z.shiftl_spec, (build_low (o + w) l vs (k + o)) by (done || lia).
      rewrite andb_true_r, orb_false_r. f_equal. lia.
    + rewrite Z.ones_spec_high, andb_false_r by lia. symmetry. by apply (testbit_small v w).
  - destruct (laid_lookup _ _ _ _ _ _ Hl Hi) as [Ho' _].
    rewrite <- (IH (o' + w') i Hl ltac:(lia) Hi Hvi).
    unfold getbits. rewrite Z.land_spec, Z.shiftr_spec, Z.shiftl_spec by lia.
    by rewrite (testbit_small v' w' (k + o - o')) by (done || lia).
Qed.

(** ** Bits and ranges *)

Lemma wrap_spec w x k : 0 <= w -> 0 <= k -> Z.testbit (wrap w x) k = (k <? w) && Z.testbit x k.
Proof.
  intros. unfold wrap. destruct (Z.ltb_spec k w);
    [by apply Z.mod_pow2_bits_low|by apply Z.mod_pow2_bits_high].
Qed.

Lemma bits_range n x : 0 <= n -> 0 <= x -> (forall k, n <= k -> Z.testbit x k = false) -> 0 <= x < 2 ^ n.
Proof.
  intros Hn Hx H. assert (x = wrap n x) as ->; [|by apply wrap_range].
  apply Z.bits_inj'. intros k Hk. rewrite wrap_spec by done. destruct (Z.ltb_spec k n); [done|].
  simpl. by apply H.
Qed.
