(* ===== verification/EfVi.v ===== *)
(** * EfVi: the user-level interface of the adapter ([etherfabric/ef_vi.h])

    The event union with its accessors, the descriptor-ring state of a virtual
    interface, and the inline functions over it.  The driver-dependent
    operations that an [ef_vi] carries as function pointers are in the library
    behind the header: [vi_ops] is their interface, [VIOps] states what the
    header documents of the three that the client calls, and [sim_ops] is an
    implementation that satisfies it. *)

From Stdlib Require Import ZArith Lia String Znumtheory.
From S2P Require Import Prelude BitField.

(** ** Events: the alternatives of the union *)

Definition ev_generic : list member :=
  [MBits "type" 16]%string.
Definition ev_rx : list member :=
  [MBits "type" 16; MBits "q_id" 8; MBits "__reserved" 8; MBits "rq_id" 32; MBits "len" 16; MBits "flags" 16; MBits "ofs" 16]%string.
Definition ev_rx_discard : list member :=
  [MBits "type" 16; MBits "q_id" 8; MBits "__reserved" 8; MBits "rq_id" 32; MBits "len" 16; MBits "flags" 16; MBits "subtype" 16]%string.
Definition ev_tx : list member :=
  [MBits "type" 16; MBits "q_id" 8; MBits "flags" 8; MBits "desc_id" 16]%string.
Definition ev_tx_error : list member :=
  [MBits "type" 16; MBits "q_id" 8; MBits "flags" 8; MBits "desc_id" 16; MBits "subtype" 16]%string.
Definition ev_tx_timestamp : list member :=
  [MBits "type" 16; MBits "q_id" 8; MBits "flags" 8; MBits "rq_id" 32; MBits "ts_sec" 32; MBits "ts_nsec" 32]%string.
Definition ev_tx_alt : list member :=
  [MBits "type" 16; MBits "q_id" 8; MBits "__reserved" 8; MBits "alt_id" 16]%string.
Definition ev_rx_no_desc_trunc : list member :=
  [MBits "type" 16; MBits "q_id" 8]%string.
Definition ev_rx_packed_stream : list member :=
  [MBits "type" 16; MBits "q_id" 8; MBits "__reserved" 8; MBits "flags" 16; MBits "n_pkts" 16; MBits "ps_flags" 8]%string.
Definition ev_sw : list member :=
  [MBits "type" 16; MWord "data"]%string.
Definition ev_rx_multi : list member :=
  [MBits "type" 16; MBits "q_id" 8; MBits "__reserved" 8; MBits "n_descs" 16; MBits "flags" 16]%string.
Definition ev_rx_multi_discard : list member :=
  [MBits "type" 16; MBits "q_id" 8; MBits "__reserved" 8; MBits "n_descs" 16; MBits "flags" 16; MBits "subtype" 16]%string.
Definition ev_rx_multi_pkts : list member :=
  [MBits "type" 16; MBits "q_id" 8; MBits "__reserved" 8; MBits "n_pkts" 16; MBits "flags" 16]%string.
Definition ev_memcpy : list member :=
  [MBits "type" 16; MBits "__reserved" 16; MBits "dma_id" 32]%string.
Definition ev_rx_ref : list member :=
  [MBits "type" 16; MBits "len" 16; MBits "pkt_id" 32; MBits "q_id" 8; MBits "user" 24]%string.
Definition ev_rx_ref_discard : list member :=
  [MBits "type" 16; MBits "len" 16; MBits "pkt_id" 32; MBits "q_id" 8; MBits "user" 24; MBits "flags" 16]%string.

Definition ef_event_alternatives : list (list member) :=
  [ev_generic; ev_rx; ev_rx_discard; ev_tx; ev_tx_error; ev_tx_timestamp; ev_tx_alt; ev_rx_no_desc_trunc; ev_rx_packed_stream; ev_sw; ev_rx_multi; ev_rx_multi_discard; ev_rx_multi_pkts; ev_memcpy; ev_rx_ref; ev_rx_ref_discard].

(** An [ef_event] is the number of its bits. *)
Definition ef_event := Z.

Inductive ef_event_type :=
  | EF_EVENT_TYPE_RX
  | EF_EVENT_TYPE_TX
  | EF_EVENT_TYPE_RX_DISCARD
  | EF_EVENT_TYPE_TX_ERROR
  | EF_EVENT_TYPE_RX_NO_DESC_TRUNC
  | EF_EVENT_TYPE_SW
  | EF_EVENT_TYPE_OFLOW
  | EF_EVENT_TYPE_TX_WITH_TIMESTAMP
  | EF_EVENT_TYPE_RX_PACKED_STREAM
  | EF_EVENT_TYPE_RX_MULTI
  | EF_EVENT_TYPE_TX_ALT
  | EF_EVENT_TYPE_RX_MULTI_DISCARD
  | EF_EVENT_TYPE_RESET
  | EF_EVENT_TYPE_MEMCPY
  | EF_EVENT_TYPE_RX_MULTI_PKTS
  | EF_EVENT_TYPE_RX_REF
  | EF_EVENT_TYPE_RX_REF_DISCARD.

Definition ef_event_type_val (t : ef_event_type) : Z :=
  match t with
  | EF_EVENT_TYPE_RX => 0
  | EF_EVENT_TYPE_TX => 1
  | EF_EVENT_TYPE_RX_DISCARD => 2
  | EF_EVENT_TYPE_TX_ERROR => 3
  | EF_EVENT_TYPE_RX_NO_DESC_TRUNC => 4
  | EF_EVENT_TYPE_SW => 5
  | EF_EVENT_TYPE_OFLOW => 6
  | EF_EVENT_TYPE_TX_WITH_TIMESTAMP => 7
  | EF_EVENT_TYPE_RX_PACKED_STREAM => 8
  | EF_EVENT_TYPE_RX_MULTI => 9
  | EF_EVENT_TYPE_TX_ALT => 10
  | EF_EVENT_TYPE_RX_MULTI_DISCARD => 11
  | EF_EVENT_TYPE_RESET => 12
  | EF_EVENT_TYPE_MEMCPY => 13
  | EF_EVENT_TYPE_RX_MULTI_PKTS => 14
  | EF_EVENT_TYPE_RX_REF => 15
  | EF_EVENT_TYPE_RX_REF_DISCARD => 16
  end.

Inductive ef_event_rx_discard_type :=
  | EF_EVENT_RX_DISCARD_CSUM_BAD
  | EF_EVENT_RX_DISCARD_MCAST_MISMATCH
  | EF_EVENT_RX_DISCARD_CRC_BAD
  | EF_EVENT_RX_DISCARD_TRUNC
  | EF_EVENT_RX_DISCARD_RIGHTS
  | EF_EVENT_RX_DISCARD_EV_ERROR
  | EF_EVENT_RX_DISCARD_OTHER
  | EF_EVENT_RX_DISCARD_INNER_CSUM_BAD
  | EF_EVENT_RX_DISCARD_MAX.

Definition ef_event_rx_discard_type_val (t : ef_event_rx_discard_type) : Z :=
  match t with
  | EF_EVENT_RX_DISCARD_CSUM_BAD => 0
  | EF_EVENT_RX_DISCARD_MCAST_MISMATCH => 1
  | EF_EVENT_RX_DISCARD_CRC_BAD => 2
  | EF_EVENT_RX_DISCARD_TRUNC => 3
  | EF_EVENT_RX_DISCARD_RIGHTS => 4
  | EF_EVENT_RX_DISCARD_EV_ERROR => 5
  | EF_EVENT_RX_DISCARD_OTHER => 6
  | EF_EVENT_RX_DISCARD_INNER_CSUM_BAD => 7
  | EF_EVENT_RX_DISCARD_MAX => 8
  end.

Inductive ef_event_tx_error_type :=
  | EF_EVENT_TX_ERROR_RIGHTS
  | EF_EVENT_TX_ERROR_OFLOW
  | EF_EVENT_TX_ERROR_2BIG
  | EF_EVENT_TX_ERROR_BUS.

Definition ef_event_tx_error_type_val (t : ef_event_tx_error_type) : Z :=
  match t with
  | EF_EVENT_TX_ERROR_RIGHTS => 0
  | EF_EVENT_TX_ERROR_OFLOW => 1
  | EF_EVENT_TX_ERROR_2BIG => 2
  | EF_EVENT_TX_ERROR_BUS => 3
  end.

Definition EF_EVENT_FLAG_SOP : Z := 0x1.
Definition EF_EVENT_FLAG_CONT : Z := 0x2.
Definition EF_EVENT_FLAG_ISCSI_OK : Z := 0x4.
Definition EF_EVENT_FLAG_MULTICAST : Z := 0x8.
Definition EF_EVENT_FLAG_PS_NEXT_BUFFER : Z := 0x10.
Definition EF_REQUEST_ID_MASK : Z := 0xffffffff.

(** The accessor macros. *)
Definition EF_EVENT_TYPE (e : ef_event) : Z := bf_get ev_generic "type" e.
Definition EF_EVENT_RX_BYTES (e : ef_event) : Z := bf_get ev_rx "len" e.
Definition EF_EVENT_RX_Q_ID (e : ef_event) : Z := bf_get ev_rx "q_id" e.
Definition EF_EVENT_RX_RQ_ID (e : ef_event) : Z := bf_get ev_rx "rq_id" e.
Definition EF_EVENT_RX_CONT (e : ef_event) : Z :=
  Z.land (bf_get ev_rx "flags" e) EF_EVENT_FLAG_CONT.
Definition EF_EVENT_RX_SOP (e : ef_event) : Z :=
  Z.land (bf_get ev_rx "flags" e) EF_EVENT_FLAG_SOP.
Definition EF_EVENT_RX_PS_NEXT_BUFFER (e : ef_event) : Z :=
  Z.land (bf_get ev_rx_packed_stream "flags" e) EF_EVENT_FLAG_PS_NEXT_BUFFER.
Definition EF_EVENT_RX_ISCSI_OKAY (e : ef_event) : Z :=
  Z.land (bf_get ev_rx "flags" e) EF_EVENT_FLAG_ISCSI_OK.
Definition EF_EVENT_FLAG_CTPIO : Z := 0x1.
Definition EF_EVENT_TX_Q_ID (e : ef_event) : Z := bf_get ev_tx "q_id" e.
Definition EF_EVENT_TX_CTPIO (e : ef_event) : Z := Z.land (bf_get ev_tx "flags" e) EF_EVENT_FLAG_CTPIO.
Definition EF_EVENT_RX_DISCARD_Q_ID (e : ef_event) : Z := bf_get ev_rx_discard "q_id" e.
Definition EF_EVENT_RX_DISCARD_RQ_ID (e : ef_event) : Z := bf_get ev_rx_discard "rq_id" e.
Definition EF_EVENT_RX_DISCARD_CONT (e : ef_event) : Z :=
  Z.land (bf_get ev_rx_discard "flags" e) EF_EVENT_FLAG_CONT.
Definition EF_EVENT_RX_DISCARD_SOP (e : ef_event) : Z :=
  Z.land (bf_get ev_rx_discard "flags" e) EF_EVENT_FLAG_SOP.
Definition EF_EVENT_RX_DISCARD_TYPE (e : ef_event) : Z := bf_get ev_rx_discard "subtype" e.
Definition EF_EVENT_RX_DISCARD_BYTES (e : ef_event) : Z := bf_get ev_rx_discard "len" e.
Definition EF_EVENT_RX_MULTI_Q_ID (e : ef_event) : Z := bf_get ev_rx_multi "q_id" e.
Definition EF_EVENT_RX_MULTI_CONT (e : ef_event) : Z :=
  Z.land (bf_get ev_rx_multi "flags" e) EF_EVENT_FLAG_CONT.
Definition EF_EVENT_RX_MULTI_SOP (e : ef_event) : Z :=
  Z.land (bf_get ev_rx_multi "flags" e) EF_EVENT_FLAG_SOP.
Definition EF_EVENT_RX_MULTI_DISCARD_TYPE (e : ef_event) : Z := bf_get ev_rx_multi_discard "subtype" e.
Definition EF_EVENT_TX_ERROR_Q_ID (e : ef_event) : Z := bf_get ev_tx_error "q_id" e.
Definition EF_EVENT_TX_ERROR_TYPE (e : ef_event) : Z := bf_get ev_tx_error "subtype" e.
Definition EF_EVENT_TX_WITH_TIMESTAMP_Q_ID (e : ef_event) : Z := bf_get ev_tx_timestamp "q_id" e.
Definition EF_EVENT_TX_WITH_TIMESTAMP_RQ_ID (e : ef_event) : Z := bf_get ev_tx_timestamp "rq_id" e.
Definition EF_EVENT_TX_WITH_TIMESTAMP_SEC (e : ef_event) : Z := bf_get ev_tx_timestamp "ts_sec" e.
Definition EF_VI_SYNC_FLAG_CLOCK_SET : Z := 1.
Definition EF_VI_SYNC_FLAG_CLOCK_IN_SYNC : Z := 2.
Definition EF_EVENT_TX_WITH_TIMESTAMP_NSEC (e : ef_event) : Z := bf_get ev_tx_timestamp "ts_nsec" e.
Definition EF_EVENT_TX_WITH_TIMESTAMP_SYNC_MASK : Z :=
  Z.lor EF_VI_SYNC_FLAG_CLOCK_SET EF_VI_SYNC_FLAG_CLOCK_IN_SYNC.
Definition EF_EVENT_TX_WITH_TIMESTAMP_SYNC_FLAGS (e : ef_event) : Z :=
  Z.land (bf_get ev_tx_timestamp "ts_nsec" e) EF_EVENT_TX_WITH_TIMESTAMP_SYNC_MASK.
Definition EF_EVENT_TX_ALT_Q_ID (e : ef_event) : Z := bf_get ev_tx_alt "q_id" e.
Definition EF_EVENT_TX_ALT_ALT_ID (e : ef_event) : Z := bf_get ev_tx_alt "alt_id" e.
Definition EF_EVENT_RX_NO_DESC_TRUNC_Q_ID (e : ef_event) : Z := bf_get ev_rx_no_desc_trunc "q_id" e.
Definition EF_EVENT_SW_DATA_MASK : Z := 0xffff.
Definition EF_EVENT_SW_DATA (e : ef_event) : Z := bf_get ev_sw "data" e.

(** ** Flags of a virtual interface *)

Definition EF_VI_FLAGS_DEFAULT : Z := 0x0.
Definition EF_VI_ISCSI_RX_HDIG : Z := 0x2.
Definition EF_VI_ISCSI_TX_HDIG : Z := 0x4.
Definition EF_VI_ISCSI_RX_DDIG : Z := 0x8.
Definition EF_VI_ISCSI_TX_DDIG : Z := 0x10.
Definition EF_VI_TX_PHYS_ADDR : Z := 0x20.
Definition EF_VI_RX_PHYS_ADDR : Z := 0x40.
Definition EF_VI_TX_IP_CSUM_DIS : Z := 0x80.
Definition EF_VI_TX_TCPUDP_CSUM_DIS : Z := 0x100.
Definition EF_VI_TX_TCPUDP_ONLY : Z := 0x200.
Definition EF_VI_TX_FILTER_IP : Z := 0x400.
Definition EF_VI_TX_FILTER_MAC : Z := 0x800.
Definition EF_VI_TX_FILTER_MASK_1 : Z := 0x1000.
Definition EF_VI_TX_FILTER_MASK_2 : Z := 0x2000.
Definition EF_VI_TX_FILTER_MASK_3 : Z := Z.lor 0x1000 0x2000.
Definition EF_VI_TX_PUSH_DISABLE : Z := 0x4000.
Definition EF_VI_TX_PUSH_ALWAYS : Z := 0x8000.
Definition EF_VI_RX_TIMESTAMPS : Z := 0x10000.
Definition EF_VI_TX_TIMESTAMPS : Z := 0x20000.
Definition EF_VI_RX_PACKED_STREAM : Z := 0x80000.
Definition EF_VI_RX_PS_BUF_SIZE_64K : Z := 0x100000.
Definition EF_VI_RX_EVENT_MERGE : Z := 0x200000.
Definition EF_VI_TX_ALT : Z := 0x400000.
Definition EF_VI_ENABLE_EV_TIMER : Z := 0x800000.
Definition EF_VI_TX_CTPIO : Z := 0x1000000.
Definition EF_VI_TX_CTPIO_NO_POISON : Z := 0x2000000.
Definition EF_VI_RX_ZEROCOPY : Z := 0x4000000.
Definition EF_VI_ALLOW_MEMCPY : Z := 0x8000000.
Definition EF_VI_EFCT_UNIQUEUE : Z := 0x10000000.
Definition EF_VI_RX_EXCLUSIVE : Z := 0x20000000.

Definition all_vi_flags : list Z :=
  [EF_VI_FLAGS_DEFAULT; EF_VI_ISCSI_RX_HDIG; EF_VI_ISCSI_TX_HDIG; EF_VI_ISCSI_RX_DDIG; EF_VI_ISCSI_TX_DDIG; EF_VI_TX_PHYS_ADDR; EF_VI_RX_PHYS_ADDR; EF_VI_TX_IP_CSUM_DIS; EF_VI_TX_TCPUDP_CSUM_DIS; EF_VI_TX_TCPUDP_ONLY; EF_VI_TX_FILTER_IP; EF_VI_TX_FILTER_MAC; EF_VI_TX_FILTER_MASK_1; EF_VI_TX_FILTER_MASK_2; EF_VI_TX_FILTER_MASK_3; EF_VI_TX_PUSH_DISABLE; EF_VI_TX_PUSH_ALWAYS; EF_VI_RX_TIMESTAMPS; EF_VI_TX_TIMESTAMPS; EF_VI_RX_PACKED_STREAM; EF_VI_RX_PS_BUF_SIZE_64K; EF_VI_RX_EVENT_MERGE; EF_VI_TX_ALT; EF_VI_ENABLE_EV_TIMER; EF_VI_TX_CTPIO; EF_VI_TX_CTPIO_NO_POISON; EF_VI_RX_ZEROCOPY; EF_VI_ALLOW_MEMCPY; EF_VI_EFCT_UNIQUEUE; EF_VI_RX_EXCLUSIVE].

(** ** State of the descriptor rings *)

Record ef_vi_txq_state := TxqState {
  tx_previous : Z;
  tx_added : Z;
  tx_removed : Z;
  tx_ct_added : Z;
  tx_ct_removed : Z;
  tx_ts_nsec : Z
}.

Record ef_vi_rxq_state := RxqState {
  rx_posted : Z;
  rx_added : Z;
  rx_removed : Z;
  rx_in_jumbo : Z;
  rx_bytes_acc : Z;
  rx_last_desc_i : Z;
  rx_ps_credit_avail : Z
}.

Record ef_eventq_state := EventqState {
  evq_ptr : Z;
  evq_clear_stride : Z;
  sync_timestamp_major : Z;
  sync_timestamp_minor : Z;
  sync_timestamp_minimum : Z;
  sync_timestamp_synchronised : Z;
  unsol_credit_seq : Z;
  sync_flags : Z
}.

Record ef_vi_txq := Txq { txq_mask : Z; txq_ct_fifo_bytes : Z; txq_ids : list Z }.
Record ef_vi_rxq := Rxq { rxq_mask : Z; rxq_ids : list Z }.

Record ef_vi_state := VIState {
  st_evq : ef_eventq_state;
  st_txq : ef_vi_txq_state;
  st_rxq : ef_vi_rxq_state
}.

Inductive ef_vi_arch :=
  EF_VI_ARCH_FALCON | EF_VI_ARCH_EF10 | EF_VI_ARCH_EF100 | EF_VI_ARCH_EFCT | EF_VI_ARCH_AF_XDP.

(** The members of an [ef_vi] that the inline functions read. *)
Record ef_vi := VI {
  vi_resource_id : Z;
  vi_i : Z;
  rx_buffer_len : Z;
  rx_prefix_len : Z;
  evq_phase_bits : bool;
  vi_txq : ef_vi_txq;
  vi_rxq : ef_vi_rxq;
  ep_state : ef_vi_state;
  vi_flags : Z;
  nic_arch : ef_vi_arch
}.

Definition ef_vi_resource_id (vi : ef_vi) : Z := vi_resource_id vi.
Definition ef_vi_flags (vi : ef_vi) : Z := vi_flags vi.
Definition ef_vi_instance (vi : ef_vi) : Z := vi_i vi.

Definition ef_vi_receive_prefix_len (vi : ef_vi) : Z := i32 (rx_prefix_len vi).
Definition ef_vi_receive_buffer_len (vi : ef_vi) : Z := i32 (rx_buffer_len vi).
Definition ef_vi_receive_set_buffer_len (vi : ef_vi) (buf_len : Z) : ef_vi :=
  VI (vi_resource_id vi) (vi_i vi) buf_len (rx_prefix_len vi) (evq_phase_bits vi)
     (vi_txq vi) (vi_rxq vi) (ep_state vi) (vi_flags vi) (nic_arch vi).

(** The differences of the free-running 32-bit counters. *)
Definition ef_vi_receive_space (vi : ef_vi) : Z :=
  let qs := st_rxq (ep_state vi) in
  i32 (u32 (rxq_mask (vi_rxq vi) - u32 (rx_added qs - rx_removed qs))).
Definition ef_vi_receive_fill_level (vi : ef_vi) : Z :=
  let qs := st_rxq (ep_state vi) in i32 (u32 (rx_added qs - rx_removed qs)).
Definition ef_vi_receive_capacity (vi : ef_vi) : Z := i32 (rxq_mask (vi_rxq vi)).

Definition ef_vi_transmit_space (vi : ef_vi) : Z :=
  let qs := st_txq (ep_state vi) in
  i32 (u32 (txq_mask (vi_txq vi) - u32 (tx_added qs - tx_removed qs))).
Definition ef_vi_transmit_fill_level (vi : ef_vi) : Z :=
  let qs := st_txq (ep_state vi) in i32 (u32 (tx_added qs - tx_removed qs)).
Definition ef_vi_transmit_space_bytes (vi : ef_vi) : Z :=
  let qs := st_txq (ep_state vi) in
  i32 (u32 (txq_ct_fifo_bytes (vi_txq vi) - u32 (tx_ct_added qs - tx_ct_removed qs))).
Definition ef_vi_transmit_fill_level_bytes (vi : ef_vi) : Z :=
  let qs := st_txq (ep_state vi) in i32 (u32 (tx_ct_added qs - tx_ct_removed qs)).
Definition ef_vi_transmit_capacity (vi : ef_vi) : Z := i32 (txq_mask (vi_txq vi)).

Definition ef_eventq_current (vi : ef_vi) : Z := u32 (evq_ptr (st_evq (ep_state vi))).

Record ef_vi_transmit_alt_overhead := AltOverhead {
  alt_pre_round : Z; alt_mask : Z; alt_post_round : Z
}.

Definition ef_vi_transmit_alt_usage (params : ef_vi_transmit_alt_overhead) (pkt_len : Z) : Z :=
  let pkt_len := u32 (pkt_len + alt_pre_round params) in
  let pkt_len := Z.land pkt_len (alt_mask params) in
  u32 (pkt_len + alt_post_round params).

(** The identifier of the receive buffer at the head of the ring. *)
Definition ef_vi_next_rx_rq_id (vi : ef_vi) : option Z :=
  rxq_ids (vi_rxq vi) !!
    Z.to_nat (Z.land (rx_removed (st_rxq (ep_state vi))) (rxq_mask (vi_rxq vi))).

(** ** Counters *)

(** [n] more descriptors were added than removed, across wrap-around. *)
Definition ring_holds (added removed n : Z) : Prop := u32 added = u32 (removed + n).

Lemma ring_fill added removed n : 0 <= n < 2 ^ 31 -> ring_holds added removed n ->
  i32 (u32 (added - removed)) = n.
Proof.
  intros Hn Hr. unfold ring_holds in Hr.
  assert (u32 (added - removed) = n) as ->; [|apply swrap_small; lia].
  rewrite <- wrap_sub_l, Hr, wrap_sub_l. replace (removed + n - removed) with n by lia.
  apply wrap_small. lia.
Qed.

Lemma ring_space mask added removed n : 0 <= n <= mask -> mask < 2 ^ 31 ->
  ring_holds added removed n -> i32 (u32 (mask - u32 (added - removed))) = mask - n.
Proof.
  intros Hn Hm Hr. unfold ring_holds in Hr.
  assert (u32 (added - removed) = n) as ->.
  { rewrite <- wrap_sub_l, Hr, wrap_sub_l. replace (removed + n - removed) with n by lia.
    apply wrap_small. lia. }
  rewrite wrap_small by lia. apply swrap_small; lia.
Qed.

(** ** The driver-dependent operations of an interface *)

(** The buffers in the receive ring, oldest first. *)
Definition rx_pending (vi : ef_vi) : list Z :=
  let qs := st_rxq (ep_state vi) in
  map (fun k => nth (Z.to_nat (Z.land (u32 (rx_removed qs + Z.of_nat k)) (rxq_mask (vi_rxq vi))))
                 (rxq_ids (vi_rxq vi)) 0)
      (seq 0 (Z.to_nat (ef_vi_receive_fill_level vi))).

(** A ring of [2^k] slots with counters that hold at most [2^k - 1] buffers. *)
Definition vi_wf (vi : ef_vi) : Prop :=
  let qs := st_rxq (ep_state vi) in
  (exists k, 0 <= k <= 30 /\ rxq_mask (vi_rxq vi) = 2 ^ k - 1) /\
  length (rxq_ids (vi_rxq vi)) = Z.to_nat (rxq_mask (vi_rxq vi) + 1) /\
  Forall (fun id => 0 <= id < 2 ^ 32) (rxq_ids (vi_rxq vi)) /\
  0 <= rx_added qs < 2 ^ 32 /\ 0 <= rx_removed qs < 2 ^ 32 /\
  0 <= ef_vi_receive_fill_level vi <= ef_vi_receive_capacity vi.

(** [ops.receive_init], [ops.receive_push] and [ops.eventq_poll]; a poll returns
    at most [evs_len] events and depends on what the network has delivered. *)
Record vi_ops (net : Type) := Ops {
  op_receive_init : ef_vi -> Z -> Z -> ef_vi * Z;
  op_receive_push : ef_vi -> ef_vi;
  op_eventq_poll : net -> ef_vi -> Z -> ef_vi * list ef_event
}.
Arguments Ops {net}.
Arguments op_receive_init {net}.
Arguments op_receive_push {net}.
Arguments op_eventq_poll {net}.

(** What stays fixed in an interface while it is used. *)
Definition same_setup (vi vi' : ef_vi) : Prop :=
  rxq_mask (vi_rxq vi') = rxq_mask (vi_rxq vi) /\ rx_prefix_len vi' = rx_prefix_len vi.

(** The buffer that an event gives back, if it gives one back. *)
Definition returns_buffer (e : ef_event) : option Z :=
  if EF_EVENT_TYPE e =? ef_event_type_val EF_EVENT_TYPE_RX then Some (EF_EVENT_RX_RQ_ID e)
  else if EF_EVENT_TYPE e =? ef_event_type_val EF_EVENT_TYPE_RX_DISCARD
  then Some (EF_EVENT_RX_DISCARD_RQ_ID e) else None.

(** The documented behaviour: a descriptor is added at the tail while there is
    space; a push changes no descriptor; a poll gives the buffers back in the
    order they were added, one per receive or discard event. *)
Class VIOps {net} (ops : vi_ops net) := {
  init_adds : forall vi addr id, vi_wf vi ->
    ef_vi_receive_fill_level vi < ef_vi_receive_capacity vi ->
    let '(vi', rc) := op_receive_init ops vi addr id in
    rc = 0 /\ vi_wf vi' /\ same_setup vi vi' /\ rx_pending vi' = rx_pending vi ++ [u32 id];
  push_keeps : forall vi, vi_wf vi ->
    let vi' := op_receive_push ops vi in
    vi_wf vi' /\ same_setup vi vi' /\ rx_pending vi' = rx_pending vi;
  poll_returns : forall w vi n, vi_wf vi -> 0 <= n ->
    let '(vi', evs) := op_eventq_poll ops w vi n in
    Z.of_nat (length evs) <= n /\ vi_wf vi' /\ same_setup vi vi' /\
    rx_pending vi = omap returns_buffer evs ++ rx_pending vi'
}.

Lemma rx_pending_length vi : vi_wf vi ->
  Z.of_nat (length (rx_pending vi)) = ef_vi_receive_fill_level vi.
Proof.
  intros (_ & _ & _ & _ & _ & Hf). unfold rx_pending. rewrite length_map, length_seq. lia.
Qed.

(** ** An implementation of the operations *)

Definition set_rxq (vi : ef_vi) (q : ef_vi_rxq) (qs : ef_vi_rxq_state) : ef_vi :=
  VI (vi_resource_id vi) (vi_i vi) (rx_buffer_len vi) (rx_prefix_len vi) (evq_phase_bits vi)
     (vi_txq vi) q (VIState (st_evq (ep_state vi)) (st_txq (ep_state vi)) qs)
     (vi_flags vi) (nic_arch vi).

Definition set_counters (qs : ef_vi_rxq_state) (posted added removed : Z) : ef_vi_rxq_state :=
  RxqState posted added removed (rx_in_jumbo qs) (rx_bytes_acc qs) (rx_last_desc_i qs)
    (rx_ps_credit_avail qs).

Definition sim_receive_init (vi : ef_vi) (addr id : Z) : ef_vi * Z :=
  let q := vi_rxq vi in let qs := st_rxq (ep_state vi) in
  if ef_vi_receive_space vi =? 0 then (vi, -11)
  else (set_rxq vi
          (Rxq (rxq_mask q)
             (<[Z.to_nat (Z.land (rx_added qs) (rxq_mask q)) := u32 id]> (rxq_ids q)))
          (set_counters qs (rx_posted qs) (u32 (rx_added qs + 1)) (rx_removed qs)), 0).

Definition sim_receive_push (vi : ef_vi) : ef_vi :=
  let qs := st_rxq (ep_state vi) in
  set_rxq vi (vi_rxq vi) (set_counters qs (rx_added qs) (rx_added qs) (rx_removed qs)).

(** A receive event for a whole packet of [len] bytes. *)
Definition rx_event (id len : Z) : ef_event :=
  bf_make ev_rx [ef_event_type_val EF_EVENT_TYPE_RX; 0; 0; id; len; EF_EVENT_FLAG_SOP; 0].

(** The network delivers packets of the given lengths, one into each buffer. *)
Definition sim_eventq_poll (lens : list Z) (vi : ef_vi) (n : Z) : ef_vi * list ef_event :=
  let qs := st_rxq (ep_state vi) in
  let k := Z.min (Z.min n (ef_vi_receive_fill_level vi)) (Z.of_nat (length lens)) in
  (set_rxq vi (vi_rxq vi)
     (set_counters qs (rx_posted qs) (rx_added qs) (u32 (rx_removed qs + k))),
   zip_with (fun id len => rx_event id (u16 len)) (take (Z.to_nat k) (rx_pending vi))
     (take (Z.to_nat k) lens)).

Definition sim_ops : vi_ops (list Z) := Ops sim_receive_init sim_receive_push sim_eventq_poll.

Lemma fill_level_range vi :
  vi_wf vi -> ring_holds (rx_added (st_rxq (ep_state vi))) (rx_removed (st_rxq (ep_state vi)))
                (ef_vi_receive_fill_level vi).
Proof.
  intros _. unfold ring_holds, ef_vi_receive_fill_level.
  rewrite <- wrap_add_r, wrap_swrap, wrap_wrap, wrap_add_r by lia. f_equal. lia.
Qed.

Lemma land_mask k x : 0 <= k -> Z.land x (2 ^ k - 1) = x mod 2 ^ k.
Proof. intros. rewrite <- Z.land_ones by lia. f_equal. rewrite Z.ones_equiv. lia. Qed.

Lemma mod_u32 k x : 0 <= k <= 32 -> u32 x mod 2 ^ k = x mod 2 ^ k.
Proof.
  intros Hk. unfold wrap. symmetry. apply Zmod_div_mod; try (apply Z.pow_pos_nonneg; lia).
  exists (2 ^ (32 - k)). rewrite <- Z.pow_add_r by lia. f_equal. lia.
Qed.

(** Slots less than a ring apart are different. *)
Lemma slot_ne k a d : 0 <= k -> 0 < d < 2 ^ k -> a mod 2 ^ k <> (a + d) mod 2 ^ k.
Proof.
  intros Hk Hd E. assert (0 < 2 ^ k) by (apply Z.pow_pos_nonneg; lia).
  assert ((a + d - a) mod 2 ^ k = 0) as E2.
  { rewrite Zminus_mod, <- E, Z.sub_diag. apply Z.mod_0_l. lia. }
  replace (a + d - a) with d in E2 by lia. rewrite Z.mod_small in E2; lia.
Qed.

Lemma place_ev_rx : place 0 ev_rx =
  [("type", (0, 16)); ("q_id", (16, 8)); ("__reserved", (24, 8)); ("rq_id", (32, 32));
   ("len", (64, 16)); ("flags", (80, 16)); ("ofs", (96, 16))]%string.
Proof. reflexivity. Qed.

Lemma rx_event_fields id len : 0 <= id < 2 ^ 32 -> 0 <= len < 2 ^ 16 ->
  EF_EVENT_TYPE (rx_event id len) = 0 /\ EF_EVENT_RX_RQ_ID (rx_event id len) = id /\
  EF_EVENT_RX_BYTES (rx_event id len) = len /\ EF_EVENT_RX_SOP (rx_event id len) = 1 /\
  EF_EVENT_RX_CONT (rx_event id len) = 0.
Proof.
  intros Hi Hl. assert (G : forall i n o w v, place 0 ev_rx !! i = Some (n, (o, w)) ->
    [0; 0; 0; id; len; 1; 0] !! i = Some v -> getbits o w (rx_event id len) = v).
  { intros i n o w v E1 E2.
    eapply (getbits_build 0 (place 0 ev_rx) _ i); [|lia| |exact E1|exact E2].
    - apply place_laid. by apply (bool_decide_unpack _).
    - rewrite place_ev_rx. unfold EF_EVENT_FLAG_SOP, ef_event_type_val. repeat (apply Forall2_cons; split; [cbn; lia|]). by apply Forall2_nil. }
  unfold EF_EVENT_TYPE, EF_EVENT_RX_RQ_ID, EF_EVENT_RX_BYTES, EF_EVENT_RX_SOP, EF_EVENT_RX_CONT, bf_get.
  change (locate "type" (place 0 ev_generic)) with (Some (0, 16)).
  change (locate "rq_id" (place 0 ev_rx)) with (Some (32, 32)).
  change (locate "len" (place 0 ev_rx)) with (Some (64, 16)).
  change (locate "flags" (place 0 ev_rx)) with (Some (80, 16)). cbn [fst snd].
  rewrite (G 0%nat "type"%string 0 16 0), (G 3%nat "rq_id"%string 32 32 id),
    (G 4%nat "len"%string 64 16 len), (G 5%nat "flags"%string 80 16 1) by reflexivity.
  done.
Qed.

(** The pending buffers of an interface whose counters are known. *)
Lemma rx_pending_eq vi n : 0 <= n < 2 ^ 31 ->
  ring_holds (rx_added (st_rxq (ep_state vi))) (rx_removed (st_rxq (ep_state vi))) n ->
  rx_pending vi =
    map (fun k => nth (Z.to_nat (Z.land (u32 (rx_removed (st_rxq (ep_state vi)) + Z.of_nat k))
                                   (rxq_mask (vi_rxq vi)))) (rxq_ids (vi_rxq vi)) 0)
        (seq 0 (Z.to_nat n)).
Proof.
  intros Hn Hr. unfold rx_pending, ef_vi_receive_fill_level. by rewrite (ring_fill _ _ n).
Qed.

Lemma pending_range vi : vi_wf vi -> Forall (fun id => 0 <= id < 2 ^ 32) (rx_pending vi).
Proof.
  intros (_ & _ & Hids & _). apply Forall_forall. intros x Hx.
  unfold rx_pending in Hx. apply list_elem_of_In, in_map_iff in Hx as (k & <- & _).
  destruct (nth_in_or_default (Z.to_nat (Z.land (u32 (rx_removed (st_rxq (ep_state vi)) + Z.of_nat k))
              (rxq_mask (vi_rxq vi)))) (rxq_ids (vi_rxq vi)) 0) as [Hin| ->]; [|lia].
  rewrite Forall_forall in Hids. apply Hids. by apply list_elem_of_In.
Qed.

Lemma capacity_mask vi : vi_wf vi ->
  0 <= rxq_mask (vi_rxq vi) < 2 ^ 30 /\ ef_vi_receive_capacity vi = rxq_mask (vi_rxq vi).
Proof.
  intros ((k & Hk & Hm) & _). unfold ef_vi_receive_capacity. rewrite Hm.
  assert (0 < 2 ^ k <= 2 ^ 30) by (split; [apply Z.pow_pos_nonneg|apply Z.pow_le_mono_r]; lia).
  split; [lia|]. apply swrap_small; lia.
Qed.

Lemma sim_init_adds vi addr id : vi_wf vi ->
  ef_vi_receive_fill_level vi < ef_vi_receive_capacity vi ->
  let '(vi', rc) := sim_receive_init vi addr id in
  rc = 0 /\ vi_wf vi' /\ same_setup vi vi' /\ rx_pending vi' = rx_pending vi ++ [u32 id].
Proof.
  intros Hw Hlt. pose proof (capacity_mask vi Hw) as [Hm Hc].
  pose proof (fill_level_range vi Hw) as Hr. pose proof Hw as ((k & Hk & Hmask) & Hlen & Hids & Ha & Hrm & Hf).
  set (n := ef_vi_receive_fill_level vi) in *. rewrite Hc in *.
  unfold sim_receive_init. set (qs := st_rxq (ep_state vi)) in *.
  assert (ef_vi_receive_space vi = rxq_mask (vi_rxq vi) - n) as ->
    by (apply ring_space; [lia|lia|exact Hr]).
  destruct (Z.eqb_spec (rxq_mask (vi_rxq vi) - n) 0); [lia|].
  set (ids' := <[_ := _]> _). set (vi' := set_rxq _ _ _).
  assert (Hr' : ring_holds (rx_added (st_rxq (ep_state vi'))) (rx_removed (st_rxq (ep_state vi'))) (n + 1)).
  { unfold ring_holds in *. simpl. rewrite wrap_wrap, <- wrap_add_l, Hr, wrap_add_l. f_equal. lia. }
  assert (Hf' : ef_vi_receive_fill_level vi' = n + 1) by (apply ring_fill; [lia|exact Hr']).
  split; [done|]. split.
  { split; [by exists k|]. split; [simpl; unfold ids'; by rewrite length_insert|]. split.
    { simpl. unfold ids'. apply Forall_insert; [done|]. apply wrap_range. lia. }
    split; [simpl; apply wrap_range; lia|]. split; [exact Hrm|].
    rewrite Hf'. unfold ef_vi_receive_capacity in *. simpl. lia. }
  split; [by split|].
  rewrite (rx_pending_eq vi' (n + 1)) by (lia || exact Hr').
  rewrite (rx_pending_eq vi n) by (lia || exact Hr). simpl rxq_mask. simpl rxq_ids. fold qs.
  replace (Z.to_nat (n + 1)) with (Z.to_nat n + 1)%nat by lia.
  rewrite seq_app, map_app. cbn [seq map]. rewrite ?Nat.add_0_l. f_equal.
  - apply map_ext_in. intros j Hj%in_seq. simpl. fold qs. subst ids'.
    rewrite !nth_lookup, list_lookup_insert_ne; [done|].
    rewrite Hmask, !land_mask, mod_u32 by lia. intros E.
    assert (0 < 2 ^ k) by (apply Z.pow_pos_nonneg; lia).
    apply Z2Nat.inj in E; try (apply Z.mod_pos_bound; lia).
    apply (slot_ne k (rx_removed qs + Z.of_nat j) (n - Z.of_nat j)); [lia|lia|].
    rewrite <- E. replace (rx_removed qs + Z.of_nat j + (n - Z.of_nat j)) with (rx_removed qs + n) by lia.
    rewrite <- (mod_u32 k (rx_added qs)), <- (mod_u32 k (rx_removed qs + n)) by lia.
    unfold ring_holds in Hr. congruence.
  - f_equal. simpl. fold qs. subst ids'. rewrite nth_lookup, Z2Nat.id by lia.
    replace (Z.land (u32 (rx_removed qs + n)) (rxq_mask (vi_rxq vi)))
      with (Z.land (rx_added qs) (rxq_mask (vi_rxq vi))).
    2:{ unfold ring_holds in Hr. rewrite <- Hr. by rewrite wrap_small. }
    rewrite list_lookup_insert_eq; [done|]. rewrite Hlen, Hmask, land_mask by lia.
    pose proof (Z.mod_pos_bound (rx_added qs) (2 ^ k) ltac:(apply Z.pow_pos_nonneg; lia)). lia.
Qed.

Lemma sim_push_keeps vi : vi_wf vi ->
  vi_wf (sim_receive_push vi) /\ same_setup vi (sim_receive_push vi) /\
  rx_pending (sim_receive_push vi) = rx_pending vi.
Proof. intros Hw. split; [exact Hw|]. split; [done|reflexivity]. Qed.

Lemma returns_rx_events l lens : length l = length lens ->
  Forall (fun id => 0 <= id < 2 ^ 32) l ->
  omap returns_buffer (zip_with (fun id len => rx_event id (u16 len)) l lens) = l.
Proof.
  intros Hlen H. revert lens Hlen.
  induction H as [|id l Hid _ IH]; intros [|len lens] Hlen; try done. cbn [zip_with omap list_omap].
  destruct (rx_event_fields id (u16 len) Hid ltac:(apply wrap_range; lia)) as (Ht & Hr & _).
  assert (returns_buffer (rx_event id (u16 len)) = Some id) as ->
    by (unfold returns_buffer; by rewrite Ht, Hr).
  f_equal. apply IH. simpl in Hlen. lia.
Qed.

Lemma drop_seq k s n : drop k (seq s n) = seq (s + k) (n - k).
Proof.
  revert s n. induction k as [|k IH]; intros s n; simpl; [by rewrite Nat.add_0_r, Nat.sub_0_r|].
  destruct n as [|n]; [done|]. simpl. rewrite IH. f_equal. lia.
Qed.

Lemma map_add_seq k n : map (Nat.add k) (seq 0 n) = seq k n.
Proof.
  enough (forall s, map (Nat.add k) (seq s n) = seq (k + s) n) as H by (by rewrite H, Nat.add_0_r).
  induction n as [|n IH]; intros s; simpl; [done|]. rewrite IH. do 2 f_equal. lia.
Qed.

Lemma sim_poll_returns w vi n : vi_wf vi -> 0 <= n ->
  let '(vi', evs) := sim_eventq_poll w vi n in
  Z.of_nat (length evs) <= n /\ vi_wf vi' /\ same_setup vi vi' /\
  rx_pending vi = omap returns_buffer evs ++ rx_pending vi'.
Proof.
  intros Hw Hn. pose proof (capacity_mask vi Hw) as [Hm Hc].
  pose proof (fill_level_range vi Hw) as Hr.
  pose proof Hw as (Hmask & Hlen & Hids & Ha & Hrm & Hf). pose proof (pending_range vi Hw) as Hp.
  unfold sim_eventq_poll. set (f := ef_vi_receive_fill_level vi) in *.
  set (k := Z.min (Z.min n f) _). set (vi' := set_rxq _ _ _). set (qs := st_rxq (ep_state vi)) in *.
  assert (Hk : 0 <= k <= f /\ k <= n /\ k <= Z.of_nat (length w)) by lia.
  assert (Hpl : length (rx_pending vi) = Z.to_nat f) by (pose proof (rx_pending_length vi Hw); lia).
  assert (Hr' : ring_holds (rx_added (st_rxq (ep_state vi'))) (rx_removed (st_rxq (ep_state vi'))) (f - k)).
  { unfold ring_holds in *. simpl. rewrite Hr, wrap_add_l. f_equal. lia. }
  assert (Hf' : ef_vi_receive_fill_level vi' = f - k) by (apply ring_fill; [lia|exact Hr']).
  split; [rewrite length_zip_with, !length_take; lia|]. split.
  { split; [done|]. split; [done|]. split; [done|]. split; [done|].
    split; [simpl; apply wrap_range; lia|]. rewrite Hf'. unfold ef_vi_receive_capacity in *. simpl. lia. }
  split; [done|]. rewrite returns_rx_events by ((by apply Forall_take) || (rewrite !length_take; lia)).
  rewrite <- (take_drop (Z.to_nat k) (rx_pending vi)) at 1. f_equal.
  rewrite (rx_pending_eq vi' (f - k)) by (lia || exact Hr').
  rewrite (rx_pending_eq vi f) by (lia || exact Hr). fold qs.
  rewrite skipn_map, drop_seq, Nat.add_0_l.
  replace (Z.to_nat f - Z.to_nat k)%nat with (Z.to_nat (f - k)) by lia.
  replace (seq (Z.to_nat k) (Z.to_nat (f - k)))
    with (map (Nat.add (Z.to_nat k)) (seq 0 (Z.to_nat (f - k)))) by (apply map_add_seq).
  rewrite map_map. apply map_ext. intros j. cbn [vi' set_rxq set_counters ep_state st_rxq rx_removed vi_rxq].
  rewrite wrap_add_l. do 4 f_equal. lia.
Qed.

#[export] Instance sim_ops_ok : VIOps sim_ops := {
  init_adds := sim_init_adds;
  push_keeps := sim_push_keeps;
  poll_returns := sim_poll_returns
}.

(** ** Layout of the event union *)

(** The alternatives that the header says share their initial layout, with the
    members they share. *)
Definition shared_layouts : list (list member * list member * list string) :=
  [(ev_rx, ev_rx_discard, ["type"; "q_id"; "__reserved"; "rq_id"; "len"; "flags"]);
   (ev_tx, ev_tx_error, ["type"; "q_id"; "flags"; "desc_id"]);
   (ev_tx, ev_tx_timestamp, ["type"; "q_id"; "flags"]);
   (ev_rx_multi, ev_rx_multi_discard, ["type"; "q_id"; "__reserved"; "n_descs"; "flags"]);
   (ev_rx_ref, ev_rx_ref_discard, ["type"; "len"; "pkt_id"; "q_id"; "user"])]%string.

Lemma bf_get_locate a b n e : locate n (place 0 a) = locate n (place 0 b) -> bf_get a n e = bf_get b n e.
Proof. intros H. unfold bf_get. by rewrite H. Qed.

(** The bits that each accessor reads, as the structures of the header lie in the 16 bytes
    of an event: offset and width. *)
Definition accessor_bits : list ((ef_event -> Z) * Z * Z) :=
  [(EF_EVENT_TYPE, 0, 16);
   (EF_EVENT_RX_Q_ID, 16, 8); (EF_EVENT_RX_RQ_ID, 32, 32); (EF_EVENT_RX_BYTES, 64, 16);
   (EF_EVENT_RX_DISCARD_Q_ID, 16, 8); (EF_EVENT_RX_DISCARD_RQ_ID, 32, 32); (EF_EVENT_RX_DISCARD_BYTES, 64, 16);
   (EF_EVENT_RX_DISCARD_TYPE, 96, 16);
   (EF_EVENT_TX_Q_ID, 16, 8); (EF_EVENT_TX_ERROR_Q_ID, 16, 8); (EF_EVENT_TX_ERROR_TYPE, 48, 16);
   (EF_EVENT_TX_WITH_TIMESTAMP_Q_ID, 16, 8); (EF_EVENT_TX_WITH_TIMESTAMP_RQ_ID, 32, 32);
   (EF_EVENT_TX_WITH_TIMESTAMP_SEC, 64, 32); (EF_EVENT_TX_WITH_TIMESTAMP_NSEC, 96, 32);
   (EF_EVENT_TX_WITH_TIMESTAMP_SYNC_FLAGS, 96, 2);
   (EF_EVENT_TX_ALT_Q_ID, 16, 8); (EF_EVENT_TX_ALT_ALT_ID, 32, 16);
   (EF_EVENT_RX_NO_DESC_TRUNC_Q_ID, 16, 8); (EF_EVENT_SW_DATA, 32, 32);
   (EF_EVENT_RX_MULTI_Q_ID, 16, 8); (EF_EVENT_RX_MULTI_DISCARD_TYPE, 64, 16)].

(** The bit that each flag accessor tests. *)
Definition flag_bits : list ((ef_event -> Z) * Z) :=
  [(EF_EVENT_RX_SOP, 80); (EF_EVENT_RX_CONT, 81); (EF_EVENT_RX_ISCSI_OKAY, 82);
   (EF_EVENT_RX_DISCARD_SOP, 80); (EF_EVENT_RX_DISCARD_CONT, 81);
   (EF_EVENT_RX_MULTI_SOP, 48); (EF_EVENT_RX_MULTI_CONT, 49);
   (EF_EVENT_RX_PS_NEXT_BUFFER, 36); (EF_EVENT_TX_CTPIO, 24)].

Lemma event_getbits o w e : 0 <= o -> 0 <= w -> getbits o w e = e / 2 ^ o mod 2 ^ w.
Proof. intros Ho Hw. unfold getbits. by rewrite Z.shiftr_div_pow2, Z.land_ones. Qed.

Lemma bf_get_bits ms n e o w : locate n (place 0 ms) = Some (o, w) -> 0 <= o -> 0 <= w -> bf_get ms n e = e / 2 ^ o mod 2 ^ w.
Proof. intros E Ho Hw. unfold bf_get. rewrite E. by apply event_getbits. Qed.

(** A flag of a member is a bit of the event. *)
Lemma bf_get_flag ms n e o w k : locate n (place 0 ms) = Some (o, w) -> 0 <= o -> 0 <= k < w ->
  Z.land (bf_get ms n e) (2 ^ k) <> 0 <-> Z.testbit e (o + k) = true.
Proof.
  intros E Ho Hk. unfold bf_get, getbits. rewrite E.
  assert (Z.land (Z.land (Z.shiftr e o) (Z.ones w)) (2 ^ k) = if Z.testbit e (o + k) then 2 ^ k else 0) as ->.
  { apply Z.bits_inj'. intros i Hi. rewrite !Z.land_spec, Z.pow2_bits_eqb, Z.shiftr_spec by lia.
    destruct (Z.eqb_spec k i) as [<-|Hne]; [|rewrite andb_false_r; destruct (Z.testbit e (o + k)); rewrite ?Z.pow2_bits_eqb, ?Z.bits_0 by lia; [by rewrite (proj2 (Z.eqb_neq k i))|done]].
    rewrite Z.ones_spec_low by lia. rewrite !andb_true_r, (Z.add_comm k o). destruct (Z.testbit e (o + k)); [by rewrite Z.pow2_bits_true by lia|by rewrite Z.bits_0]. }
  pose proof (Z.pow_pos_nonneg 2 k ltac:(lia) ltac:(lia)). destruct (Z.testbit e (o + k)); split; intros; congruence || lia.
Qed.

Lemma bf_flag_bit ms n e f o w b : locate n (place 0 ms) = Some (o, w) -> (0 <=? o) && (f =? 2 ^ Z.log2 f) && (Z.log2 f <? w) = true -> b = o + Z.log2 f ->
  Z.land (bf_get ms n e) f <> 0 <-> Z.testbit e b = true.
Proof.
  intros E [[Ho Hf]%andb_true_iff Hw]%andb_true_iff ->. apply Z.eqb_eq in Hf. pose proof (Z.log2_nonneg f). rewrite Hf at 1. apply (bf_get_flag ms n e o w); [done|lia|lia].
Qed.

(** The two low bits of the nanoseconds. *)
Lemma sync_flags_bits e : EF_EVENT_TX_WITH_TIMESTAMP_SYNC_FLAGS e = e / 2 ^ 96 mod 2 ^ 2.
Proof.
  unfold EF_EVENT_TX_WITH_TIMESTAMP_SYNC_FLAGS. change EF_EVENT_TX_WITH_TIMESTAMP_SYNC_MASK with (Z.ones 2).
  rewrite Z.land_ones, (bf_get_bits _ _ e 96 32) by done. change (2 ^ 32) with (2 ^ 2 * 2 ^ 30).
  rewrite Z.rem_mul_r by lia. by rewrite Z.mul_comm, Z.mod_add, Z.mod_mod by lia.
Qed.

(** C11: every accessor macro of events reads exactly the bits of its member, as the
    structures of the header lie in an event: the 22 that give a number, by offset and
    width, and the 9 that test a flag, by its bit.  The type of an event may be read
    through any of the 16 alternatives of the union, and the alternatives that the header
    requires to have a common layout agree on every member they share, so that a discard
    event may be read as the receive event it replaces. *)
Theorem event_reads_exact e :
  Forall (fun '(f, o, w) => f e = e / 2 ^ o mod 2 ^ w) accessor_bits /\
  Forall (fun '(f, k) => f e <> 0 <-> Z.testbit e k = true) flag_bits /\
  Forall (fun ms => bf_get ms "type" e = e mod 2 ^ 16) ef_event_alternatives /\
  Forall (fun '(a, b, ns) => Forall (fun n => bf_get a n e = bf_get b n e) ns) shared_layouts.
Proof.
  split; [|split; [|split]].
  - repeat (apply Forall_cons; split; [first [apply bf_get_bits; [reflexivity|lia|lia]|lazymatch goal with |- EF_EVENT_TX_WITH_TIMESTAMP_SYNC_FLAGS _ = _ => apply sync_flags_bits end]|]). by apply Forall_nil.
  - repeat (apply Forall_cons; split; [by eapply bf_flag_bit|]). by apply Forall_nil.
  - repeat (apply Forall_cons; split; [rewrite (bf_get_bits _ _ e 0 16) by done; by rewrite Z.div_1_r|]). by apply Forall_nil.
  - repeat (apply Forall_cons; split;
      [repeat (apply Forall_cons; split; [apply bf_get_locate; reflexivity|]); by apply Forall_nil|]).
    by apply Forall_nil.
Qed.

(** ** Accounting of the rings *)

(** C10: with free-running 32-bit counters, wrapped or not, the fill level is the
    number of descriptors outstanding, the space is the rest of the ring, and
    together they are its capacity; the same for transmission, in descriptors
    and in bytes. *)
Theorem ring_accounting vi n m b :
  0 <= n <= rxq_mask (vi_rxq vi) -> rxq_mask (vi_rxq vi) < 2 ^ 31 ->
  ring_holds (rx_added (st_rxq (ep_state vi))) (rx_removed (st_rxq (ep_state vi))) n ->
  0 <= m <= txq_mask (vi_txq vi) -> txq_mask (vi_txq vi) < 2 ^ 31 ->
  ring_holds (tx_added (st_txq (ep_state vi))) (tx_removed (st_txq (ep_state vi))) m ->
  0 <= b <= txq_ct_fifo_bytes (vi_txq vi) -> txq_ct_fifo_bytes (vi_txq vi) < 2 ^ 31 ->
  ring_holds (tx_ct_added (st_txq (ep_state vi))) (tx_ct_removed (st_txq (ep_state vi))) b ->
  ef_vi_receive_fill_level vi = n /\
  ef_vi_receive_fill_level vi + ef_vi_receive_space vi = ef_vi_receive_capacity vi /\
  ef_vi_transmit_fill_level vi = m /\
  ef_vi_transmit_fill_level vi + ef_vi_transmit_space vi = ef_vi_transmit_capacity vi /\
  ef_vi_transmit_fill_level_bytes vi = b /\
  ef_vi_transmit_fill_level_bytes vi + ef_vi_transmit_space_bytes vi = txq_ct_fifo_bytes (vi_txq vi).
Proof.
  intros Hn Hrm Hr Hm Htm Ht Hb Hbm Hc.
  unfold ef_vi_receive_fill_level, ef_vi_receive_space, ef_vi_receive_capacity, ef_vi_transmit_fill_level,
    ef_vi_transmit_space, ef_vi_transmit_capacity, ef_vi_transmit_fill_level_bytes, ef_vi_transmit_space_bytes.
  rewrite (ring_fill _ _ n), (ring_space _ _ _ n), (ring_fill _ _ m), (ring_space _ _ _ m),
    (ring_fill _ _ b), (ring_space _ _ _ b) by (lia || assumption).
  rewrite !swrap_small by lia. repeat split; lia.
Qed.

(** Counters that have wrapped: 10 buffers from 2^32 - 6 to 4. *)
Definition wrapped_vi : ef_vi :=
  VI 0 0 1792 14 false (Txq 511 4096 []) (Rxq 511 [])
    (VIState (EventqState 0 0 0 0 0 0 0 0) (TxqState 0 3 4294967290 100 4294967290 0)
       (RxqState 0 4 4294967290 0 0 0 0)) 0 EF_VI_ARCH_EF10.

Lemma ring_accounting_witness :
  ef_vi_receive_fill_level wrapped_vi = 10 /\
  ef_vi_receive_fill_level wrapped_vi + ef_vi_receive_space wrapped_vi = ef_vi_receive_capacity wrapped_vi /\
  ef_vi_transmit_fill_level wrapped_vi = 9 /\
  ef_vi_transmit_fill_level wrapped_vi + ef_vi_transmit_space wrapped_vi = ef_vi_transmit_capacity wrapped_vi /\
  ef_vi_transmit_fill_level_bytes wrapped_vi = 106 /\
  ef_vi_transmit_fill_level_bytes wrapped_vi + ef_vi_transmit_space_bytes wrapped_vi
    = txq_ct_fifo_bytes (vi_txq wrapped_vi).
Proof. apply (ring_accounting wrapped_vi 10 9 106); cbn; lia || reflexivity. Defined.

(** ** Flags *)

(** The flags that stand for one property each: all but the default and the
    mask of two. *)
Definition single_vi_flags : list Z :=
  filter (fun f => Z.land f (f - 1) = 0 /\ f <> 0) all_vi_flags.

Lemma single_flags_disjoint :
  Forall (fun a => Forall (fun b => a = b \/ Z.land a b = 0) single_vi_flags) single_vi_flags.
Proof. apply (bool_decide_unpack _). vm_compute. exact I. Qed.

(** The flags of an interface are independent: there are 28 of one bit
    each, all different, and setting one does not change whether another is
    set; the mask of two is the two filter masks. *)
Lemma vi_flags_independent x a b :
  a ∈ single_vi_flags -> b ∈ single_vi_flags -> a <> b ->
  Z.land (Z.lor x a) b = Z.land x b /\ NoDup single_vi_flags /\ length single_vi_flags = 28%nat /\
  EF_VI_TX_FILTER_MASK_3 = Z.lor EF_VI_TX_FILTER_MASK_1 EF_VI_TX_FILTER_MASK_2.
Proof.
  intros Ha Hb Hab. pose proof single_flags_disjoint as H. rewrite Forall_forall in H.
  specialize (H a Ha). rewrite Forall_forall in H. destruct (H b Hb) as [?|Hz]; [done|]. split.
  - rewrite Z.land_lor_distr_l, Hz. apply Z.lor_0_r.
  - split; [apply (bool_decide_unpack _); vm_compute; exact I|]. split; reflexivity.
Qed.

Lemma vi_flags_independent_witness :
  Z.land (Z.lor EF_VI_TX_ALT EF_VI_RX_EVENT_MERGE) EF_VI_RX_ZEROCOPY = Z.land EF_VI_TX_ALT EF_VI_RX_ZEROCOPY /\
  NoDup single_vi_flags /\ length single_vi_flags = 28%nat /\
  EF_VI_TX_FILTER_MASK_3 = Z.lor EF_VI_TX_FILTER_MASK_1 EF_VI_TX_FILTER_MASK_2.
Proof.
  apply (vi_flags_independent EF_VI_TX_ALT EF_VI_RX_EVENT_MERGE EF_VI_RX_ZEROCOPY);
    [apply (bool_decide_unpack _); vm_compute; exact I|apply (bool_decide_unpack _); vm_compute; exact I|discriminate].
Defined.
