(* ===== verification/EvqRxIter.v ===== *)
(** * EvqRxIter: the iterator over received buffers ([etherfabric/internal/evq_rx_iter.h])

    The iterator walks a list of events and the identifiers of the receive
    ring: a receive event gives one buffer, a receive-multi event a run of ring
    slots.  [spec] is the list of results the walk is meant to give; the
    theorem is that successive calls give it, and that each call ends. *)

From Stdlib Require Import ZArith Lia String.
From S2P Require Import Prelude BitField EfVi.

Record ef_vi_rvq_rx_iter := Iter {
  it_evs : list ef_event;      (* ev and n_evs: the events not looked at yet *)
  it_ids : list Z;
  it_mask : Z;
  it_di : Z;
  it_left : Z                  (* multi_desc_left *)
}.

Definition ef_vi_evq_rx_iter_set (v : ef_vi) (evs : list ef_event) : ef_vi_rvq_rx_iter :=
  Iter evs (rxq_ids (vi_rxq v)) (rxq_mask (vi_rxq v)) (rx_removed (st_rxq (ep_state v))) 0.

(** [flags & (SOP | CONT)] *)
Definition frag_flags (flags : Z) : Z := Z.land flags (Z.lor EF_EVENT_FLAG_SOP EF_EVENT_FLAG_CONT).

Definition is_type (t : ef_event_type) (e : ef_event) : bool := EF_EVENT_TYPE e =? ef_event_type_val t.

Definition rx_whole (e : ef_event) : bool := frag_flags (bf_get ev_rx "flags" e) =? EF_EVENT_FLAG_SOP.
Definition multi_whole (e : ef_event) : bool := frag_flags (bf_get ev_rx_multi "flags" e) =? EF_EVENT_FLAG_SOP.
Definition n_descs (e : ef_event) : Z := bf_get ev_rx_multi "n_descs" e.

(** The value that a call returns, what it stores in [*len_out], and the
    iterator behind it.  [None] is a read outside the ring, or no fuel. *)
Definition next_result : Type := option (Z * option Z * ef_vi_rvq_rx_iter).

(** Both labels and the loop between them: with [multi_desc_left] set the code
    is at [multi_desc], otherwise at the head of the loop. *)
Fixpoint iter_next (fuel : nat) (ri : ef_vi_rvq_rx_iter) : next_result :=
  match fuel with
  | O => None
  | S fuel' =>
      let multi_desc ri :=
        id ← it_ids ri !! Z.to_nat (Z.land (it_di ri) (it_mask ri));
        let ri' := Iter (it_evs ri) (it_ids ri) (it_mask ri) (u32 (it_di ri + 1)) (u32 (it_left ri - 1)) in
        if u32 (i32 id) =? EF_REQUEST_ID_MASK then iter_next fuel' ri'
        else Some (i32 id, Some 0, ri') in
      let skip evs d := iter_next fuel' (Iter evs (it_ids ri) (it_mask ri) (u32 (it_di ri + d)) 0) in
      if negb (it_left ri =? 0) then multi_desc ri
      else
        match it_evs ri with
        | [] => Some (0, None, ri)
        | e :: evs =>
            if is_type EF_EVENT_TYPE_RX e then
              if rx_whole e
              then Some (i32 (EF_EVENT_RX_RQ_ID e), Some (EF_EVENT_RX_BYTES e),
                         Iter evs (it_ids ri) (it_mask ri) (it_di ri) 0)
              else skip evs 0
            else if is_type EF_EVENT_TYPE_RX_MULTI e then
              if negb (multi_whole e) then skip evs (n_descs e)
              else multi_desc (Iter evs (it_ids ri) (it_mask ri) (it_di ri) (n_descs e))
            else if is_type EF_EVENT_TYPE_RX_MULTI_DISCARD e then skip evs (n_descs e)
            else skip evs 0
        end
  end.

(** Every call ends within the events and descriptors that are left. *)
Definition work (ri : ef_vi_rvq_rx_iter) : nat :=
  Z.to_nat (it_left ri) +
  fold_right (fun e n => (1 + Z.to_nat (n_descs e) + n)%nat) 0%nat (it_evs ri).

Definition ef_vi_evq_rx_iter_next (ri : ef_vi_rvq_rx_iter) : next_result := iter_next (S (work ri)) ri.

(** ** The results that the walk is meant to give *)

(** The buffers of [n] ring slots from [di]; a slot without a buffer holds the
    mask. *)
Fixpoint slots (ids : list Z) (mask di : Z) (n : nat) : list (Z * Z) :=
  match n with
  | O => []
  | S n' =>
      let id := nth (Z.to_nat (Z.land di mask)) ids 0 in
      let rest := slots ids mask (u32 (di + 1)) n' in
      if id =? EF_REQUEST_ID_MASK then rest else (i32 id, 0) :: rest
  end.

Fixpoint walk (ids : list Z) (mask di : Z) (evs : list ef_event) : list (Z * Z) :=
  match evs with
  | [] => []
  | e :: evs' =>
      if is_type EF_EVENT_TYPE_RX e then
        (if rx_whole e then [(i32 (EF_EVENT_RX_RQ_ID e), EF_EVENT_RX_BYTES e)] else []) ++ walk ids mask di evs'
      else if is_type EF_EVENT_TYPE_RX_MULTI e then
        (if multi_whole e then slots ids mask di (Z.to_nat (n_descs e)) else []) ++
        walk ids mask (u32 (di + n_descs e)) evs'
      else if is_type EF_EVENT_TYPE_RX_MULTI_DISCARD e then walk ids mask (u32 (di + n_descs e)) evs'
      else walk ids mask di evs'
  end.

Definition spec (ri : ef_vi_rvq_rx_iter) : list (Z * Z) :=
  slots (it_ids ri) (it_mask ri) (it_di ri) (Z.to_nat (it_left ri)) ++
  walk (it_ids ri) (it_mask ri) (u32 (it_di ri + it_left ri)) (it_evs ri).

(** A ring of [mask + 1] identifiers, and events that announce descriptors. *)
Definition iter_wf (ri : ef_vi_rvq_rx_iter) : Prop :=
  (exists k, 0 <= k <= 32 /\ it_mask ri = 2 ^ k - 1) /\
  Z.of_nat (length (it_ids ri)) = it_mask ri + 1 /\
  Forall (fun id => 0 <= id < 2 ^ 32) (it_ids ri) /\
  0 <= it_di ri < 2 ^ 32 /\ 0 <= it_left ri < 2 ^ 32 /\
  Forall (fun e => is_type EF_EVENT_TYPE_RX_MULTI e = true -> multi_whole e = true -> 0 < n_descs e) (it_evs ri).

(** ** The walk *)

Lemma n_descs_range e : 0 <= n_descs e < 2 ^ 16.
Proof. apply (getbits_range 32 16 e). lia. Qed.

Lemma id_mask_eq id : 0 <= id < 2 ^ 32 -> (u32 (i32 id) =? EF_REQUEST_ID_MASK) = (id =? EF_REQUEST_ID_MASK).
Proof. intros H. rewrite wrap_swrap, wrap_small by lia. done. Qed.

#[local] Opaque is_type rx_whole multi_whole n_descs EF_EVENT_RX_RQ_ID EF_EVENT_RX_BYTES.

(** Two iterators with the same ring. *)
Definition at_pos (ri : ef_vi_rvq_rx_iter) (evs : list ef_event) (di left : Z) : ef_vi_rvq_rx_iter :=
  Iter evs (it_ids ri) (it_mask ri) di left.

Lemma iter_wf_at ri evs di left : iter_wf ri ->
  Forall (fun e => is_type EF_EVENT_TYPE_RX_MULTI e = true -> multi_whole e = true -> 0 < n_descs e) evs ->
  0 <= di < 2 ^ 32 -> 0 <= left < 2 ^ 32 -> iter_wf (at_pos ri evs di left).
Proof. intros (Hm & Hl & Hi & _ & _ & _) He Hd Hn. by repeat split; try apply Hd; try apply Hn. Qed.

(** What a call has to give, for a list of results still to come. *)
Definition gives (r : next_result) (todo : list (Z * Z)) (w : nat) : Prop :=
  match todo with
  | [] => exists ri', r = Some (0, None, ri') /\ it_evs ri' = [] /\ it_left ri' = 0
  | (id, len) :: rest =>
      exists ri', r = Some (id, Some len, ri') /\ spec ri' = rest /\ iter_wf ri' /\ (work ri' <= w)%nat
  end.

Lemma gives_le r todo w w' : gives r todo w -> (w <= w')%nat -> gives r todo w'.
Proof.
  destruct todo as [|[id len] rest]; [done|]. intros (ri' & H1 & H2 & H3 & H4) Hw. exists ri'.
  repeat split; try done; try apply H3. lia.
Qed.

(** One slot of a run, given the rest of the walk. *)
Lemma multi_desc_gives ri n (k : ef_vi_rvq_rx_iter -> next_result) :
  iter_wf ri -> it_left ri = Z.of_nat (S n) ->
  (let ri' := at_pos ri (it_evs ri) (u32 (it_di ri + 1)) (Z.of_nat n) in
   iter_wf ri' -> (work ri' < work ri)%nat -> gives (k ri') (spec ri') (work ri')) ->
  gives (id ← it_ids ri !! Z.to_nat (Z.land (it_di ri) (it_mask ri));
         let ri' := Iter (it_evs ri) (it_ids ri) (it_mask ri) (u32 (it_di ri + 1)) (u32 (it_left ri - 1)) in
         if u32 (i32 id) =? EF_REQUEST_ID_MASK then k ri' else Some (i32 id, Some 0, ri'))
        (spec ri) (work ri).
Proof.
  intros Hw Hl Hk. pose proof Hw as ((m & Hm & Hmask) & Hlen & Hids & Hdi & Hleft & Hev).
  assert (Z.land (it_di ri) (it_mask ri) < Z.of_nat (length (it_ids ri))).
  { rewrite Hlen, Hmask, land_mask by lia. pose proof (Z.mod_pos_bound (it_di ri) (2 ^ m)). lia. }
  assert (0 <= Z.land (it_di ri) (it_mask ri)) by (apply Z.land_nonneg; lia).
  destruct (lookup_lt_is_Some_2 (it_ids ri) (Z.to_nat (Z.land (it_di ri) (it_mask ri)))) as [id Hid]; [lia|].
  rewrite Hid. cbn [mbind option_bind]. cbv zeta. rewrite id_mask_eq.
  2:{ rewrite Forall_forall in Hids. apply Hids. by eapply list_elem_of_lookup_2. }
  replace (u32 (it_left ri - 1)) with (Z.of_nat n) by (rewrite wrap_small; lia).
  fold (at_pos ri (it_evs ri) (u32 (it_di ri + 1)) (Z.of_nat n)).
  set (ri' := at_pos ri (it_evs ri) (u32 (it_di ri + 1)) (Z.of_nat n)) in *.
  assert (Hw' : iter_wf ri') by (apply iter_wf_at; [done|done|apply wrap_range; lia|lia]).
  assert (Hwk : (work ri' < work ri)%nat) by (unfold work; simpl; rewrite Hl; lia).
  assert (Hs : spec ri = (if id =? EF_REQUEST_ID_MASK then [] else [(i32 id, 0)]) ++ spec ri').
  { unfold spec, ri', at_pos. cbn [it_ids it_mask it_di it_left it_evs]. rewrite Hl, !Nat2Z.id. cbn [slots].
    rewrite (nth_lookup (it_ids ri)), Hid. cbn [default]. rewrite wrap_add_l.
    replace (it_di ri + 1 + Z.of_nat n) with (it_di ri + Z.of_nat (S n)) by lia.
    unfold Datatypes.id. by destruct (id =? EF_REQUEST_ID_MASK). }
  rewrite Hs. destruct (id =? EF_REQUEST_ID_MASK); cbn [app].
  - eapply gives_le; [by apply Hk|lia].
  - exists ri'. split; [done|]. split; [done|]. split; [done|lia].
Qed.

Lemma iter_next_gives fuel : forall ri, iter_wf ri -> (work ri < fuel)%nat ->
  gives (iter_next fuel ri) (spec ri) (work ri).
Proof.
  induction fuel as [|fuel IH]; intros ri Hw Hf; [lia|]. cbn [iter_next].
  pose proof Hw as (_ & _ & _ & Hdi & Hleft & Hev).
  destruct (Z.eqb_spec (it_left ri) 0) as [Hl|Hl]; cbn [negb].
  2:{ apply (multi_desc_gives ri (Z.to_nat (it_left ri - 1))); [done|lia|]. intros ri' Hw' Hlt. apply IH; [done|lia]. }
  destruct (it_evs ri) as [|e evs] eqn:Eev.
  { unfold spec. rewrite Hl, Eev. simpl. by exists ri. }
  apply Forall_cons in Hev as [He Hev]. pose proof (n_descs_range e) as Hn.
  assert (Hwk : work ri = (1 + Z.to_nat (n_descs e) + work (at_pos ri evs 0 0))%nat)
    by (unfold work; rewrite Hl, Eev; simpl; lia).
  assert (Hspec : spec ri = walk (it_ids ri) (it_mask ri) (u32 (it_di ri)) (e :: evs))
    by (unfold spec; rewrite Hl, Eev; simpl; by rewrite Z.add_0_r).
  assert (Hskip : forall d, 0 <= d -> let ri' := at_pos ri evs (u32 (it_di ri + d)) 0 in
    spec ri' = walk (it_ids ri) (it_mask ri) (u32 (it_di ri + d)) evs /\
    gives (iter_next fuel ri') (spec ri') (work ri)).
  { intros d Hd ri'. split; [unfold spec; simpl; by rewrite Z.add_0_r, wrap_wrap|].
    assert (work ri' = work (at_pos ri evs 0 0)) by reflexivity.
    eapply gives_le; [apply IH; [|lia]|lia]. apply iter_wf_at; [done|done|apply wrap_range; lia|lia]. }
  rewrite Hspec. cbn [walk].
  destruct (is_type EF_EVENT_TYPE_RX e).
  { destruct (rx_whole e); cbn [app].
    - eexists. split; [reflexivity|]. split; [unfold spec; simpl; by rewrite Z.add_0_r|].
      split; [by apply (iter_wf_at ri evs (it_di ri) 0)|].
      change (work (Iter evs (it_ids ri) (it_mask ri) (it_di ri) 0)) with (work (at_pos ri evs 0 0)). lia.
    - destruct (Hskip 0 ltac:(lia)) as [E G]. rewrite E in G. rewrite Z.add_0_r in *. exact G. }
  destruct (is_type EF_EVENT_TYPE_RX_MULTI e) eqn:Em.
  { destruct (multi_whole e) eqn:Emw; cbn [negb].
    - set (ri1 := Iter evs (it_ids ri) (it_mask ri) (it_di ri) (n_descs e)).
      assert (Hw1 : iter_wf ri1) by (apply (iter_wf_at ri evs); [done|done|done|lia]).
      assert (Hwk1 : (work ri1 <= work ri)%nat) by (rewrite Hwk; unfold ri1, work, at_pos; simpl; lia).
      assert (Hs1 : slots (it_ids ri) (it_mask ri) (u32 (it_di ri)) (Z.to_nat (n_descs e)) ++
        walk (it_ids ri) (it_mask ri) (u32 (u32 (it_di ri) + n_descs e)) evs = spec ri1)
        by (unfold spec, ri1; cbn; by rewrite (wrap_small 32 (it_di ri)) by done).
      rewrite Hs1. eapply gives_le; [|exact Hwk1]. specialize (He eq_refl eq_refl).
      apply (multi_desc_gives ri1 (Z.to_nat (n_descs e - 1))); [done|cbn; lia|].
      intros ri' Hw' Hlt. apply IH; [done|lia].
    - destruct (Hskip (n_descs e) ltac:(lia)) as [E G]. rewrite E in G. rewrite wrap_add_l. exact G. }
  destruct (is_type EF_EVENT_TYPE_RX_MULTI_DISCARD e).
  - destruct (Hskip (n_descs e) ltac:(lia)) as [E G]. rewrite E in G. rewrite wrap_add_l. exact G.
  - destruct (Hskip 0 ltac:(lia)) as [E G]. rewrite E in G. rewrite Z.add_0_r in *. exact G.
Qed.

(** C12: a call of the iterator ends, and returns the identifier of the next
    result of the walk and stores its length: one whole receive event or one
    ring slot at a time, in order, over slots without a buffer and over events
    that are not for it; behind the last one it returns 0.  This is what the
    code does and not what its comment says, which has it return 1 and give the
    identifier: [*id_out] is never written, and a result with identifier 0
    returns the value that stands for the end
    ([evq_rx_iter_zero_ambiguous]). *)
Theorem evq_rx_iter_exact ri : iter_wf ri ->
  match spec ri with
  | [] => exists ri', ef_vi_evq_rx_iter_next ri = Some (0, None, ri')
  | (id, len) :: rest =>
      exists ri', ef_vi_evq_rx_iter_next ri = Some (id, Some len, ri') /\ spec ri' = rest /\ iter_wf ri'
  end.
Proof.
  intros Hw. pose proof (iter_next_gives (S (work ri)) ri Hw ltac:(lia)) as H. unfold gives in H.
  unfold ef_vi_evq_rx_iter_next. destruct (spec ri) as [|[id len] rest].
  - destruct H as (ri' & E & _). eauto.
  - destruct H as (ri' & E & Hs & Hw' & _). eauto.
Qed.

(** A ring of four buffers, the third slot empty, with a run over three slots
    that wraps and a whole packet behind it. *)
Definition demo_iter : ef_vi_rvq_rx_iter :=
  Iter [bf_make ev_rx_multi [9; 0; 0; 3; 1]; bf_make ev_rx [0; 0; 0; 7; 100; 1; 0]]
    [5; 6; 4294967295; 8] 3 2 0.

Lemma demo_iter_wf : iter_wf demo_iter.
Proof.
  split; [exists 2; split; [lia|reflexivity]|]. split; [reflexivity|].
  split; [apply (bool_decide_unpack _); vm_compute; exact I|]. cbn. split; [lia|]. split; [lia|].
  apply Forall_cons. split; [intros _ _; vm_compute; reflexivity|].
  apply Forall_cons. split; [intros H; vm_compute in H; discriminate|by apply Forall_nil].
Qed.

Lemma evq_rx_iter_exact_witness :
  spec demo_iter = [(8, 0); (5, 0); (7, 100)] /\
  exists ri', ef_vi_evq_rx_iter_next demo_iter = Some (8, Some 0, ri') /\ spec ri' = [(5, 0); (7, 100)] /\ iter_wf ri'.
Proof.
  assert (E : spec demo_iter = [(8, 0); (5, 0); (7, 100)]) by (vm_compute; reflexivity).
  pose proof (evq_rx_iter_exact demo_iter demo_iter_wf) as H. rewrite E in H. split; [exact E|exact H].
Defined.

(** The iterator reports a buffer by its identifier in the return value and
    never writes [*id_out], so that the buffer with identifier 0 looks like the
    end of the walk: with results still to come the call returns what a
    finished iterator returns. *)
Lemma evq_rx_iter_zero_ambiguous ri len rest fin : iter_wf ri -> iter_wf fin ->
  spec ri = (0, len) :: rest -> spec fin = [] ->
  exists r r', ef_vi_evq_rx_iter_next ri = Some r /\ ef_vi_evq_rx_iter_next fin = Some r' /\
    fst (fst r) = fst (fst r').
Proof.
  intros Hw Hf Hs Hs'. pose proof (iter_next_gives (S (work ri)) ri Hw ltac:(lia)) as H1.
  pose proof (iter_next_gives (S (work fin)) fin Hf ltac:(lia)) as H2. unfold gives in *.
  rewrite Hs in H1. rewrite Hs' in H2. destruct H1 as (a & E1 & _). destruct H2 as (b & E2 & _).
  by eexists _, _.
Qed.

Definition zero_iter : ef_vi_rvq_rx_iter := Iter [bf_make ev_rx [0; 0; 0; 0; 64; 1; 0]] [0] 0 0 0.
Definition end_iter : ef_vi_rvq_rx_iter := Iter [] [0] 0 0 0.

Lemma evq_rx_iter_zero_ambiguous_witness :
  exists r r', ef_vi_evq_rx_iter_next zero_iter = Some r /\ ef_vi_evq_rx_iter_next end_iter = Some r' /\
    fst (fst r) = fst (fst r').
Proof.
  apply (evq_rx_iter_zero_ambiguous zero_iter 64 [] end_iter).
  - repeat split; try (cbn; lia); try (exists 0; split; [lia|reflexivity]); try reflexivity.
    + repeat constructor; lia.
    + apply Forall_cons. split; [intros H; vm_compute in H; discriminate|by apply Forall_nil].
  - repeat split; try (cbn; lia); try (exists 0; split; [lia|reflexivity]); try reflexivity.
    + repeat constructor; lia.
    + by apply Forall_nil.
  - vm_compute. reflexivity.
  - reflexivity.
Defined.
