(* ===== verification/Utils.v ===== *)
(** * Utils: the helpers of the ef_vi client ([EF_VI/utils.h], [EF_VI/utils.cpp])

    [TRY] and [TEST] with what they print before they abort, the filter
    parser and the socket helpers.  The filter setters, the address resolver
    and the system calls are parameters: each call is a value of a type of
    calls, answered by a function that stands for the library. *)

From Stdlib Require Import ZArith Lia Ascii String Strings.Byte.
From S2P Require Import Prelude Bytes Printf World CString.
Import Ascii String.

Definition bytes_of_string (s : string) : list byte := map byte_of_ascii (list_ascii_of_string s).

(** The result of a library call: its return value, and [errno] behind it. *)
Record cres := Res { rc_of : Z; errno_of : Z }.

Definition dquote : string := String (ascii_of_nat 34) EmptyString.

(** ** Macros of [utils.h] *)

Definition huge_page_size : Z := 2 * 1024 * 1024.
Definition ROUND_UP (p align : Z) : Z := Z.land (p + align - 1) (Z.lnot (align - 1)).
Definition IS_POW2 (n : Z) : bool := Z.land n (n - 1) =? 0.

Section Macros.
Context {S : Type} `{Traced S}.
Variable strerror : Z -> string.

(** [LOGE], [LOGW] and [LOGI]; [LOGV] is empty. *)
Definition LOG (f : string) (args : list arg) : cm S unit :=
  let! s := access (printf f args) in emit (Stderr s).

Definition TRY (x file : string) (line : Z) (r : cres) : cm S unit :=
  if rc_of r <? 0 then
    LOG ("ERROR: TRY(%s) failed" ++ nl) [AStr (bytes_of_string x)] ;;;
    LOG ("ERROR: at %s:%d" ++ nl) [AStr (bytes_of_string file); AInt line] ;;;
    LOG ("ERROR: rc=%d errno=%d (%s)" ++ nl)
      [AInt (rc_of r); AInt (errno_of r); AStr (bytes_of_string (strerror (errno_of r)))] ;;;
    stop Abort
  else ret tt.

Definition TEST (x file : string) (line : Z) (ok : bool) : cm S unit :=
  if ok then ret tt
  else
    LOG ("ERROR: TEST(%s) failed" ++ nl) [AStr (bytes_of_string x)] ;;;
    LOG ("ERROR: at %s:%d" ++ nl) [AStr (bytes_of_string file); AInt line] ;;;
    stop Abort.
End Macros.

(** ** Filters *)

Definition EINVAL : Z := 22.
Definition AF_UNSPEC : Z := 0.
Definition AF_INET : Z := 2.
Definition AF_INET6 : Z := 10.
Definition IPPROTO_TCP : Z := 6.
Definition IPPROTO_UDP : Z := 17.
Definition EF_FILTER_FLAG_NONE : Z := 0.
Definition EF_FILTER_FLAG_MCAST_LOOP_RECEIVE : Z := 2.
Definition EF_FILTER_VLAN_ID_ANY : Z := -1.

(** What [ci_hostport_to_sockaddr] leaves in the union, read through its three
    members [ss], [s4] and [s6]. *)
Record sockaddr := SA {
  ss_family : Z;
  sin_addr : Z;
  sin_port : Z;
  sin6_addr : list byte;
  sin6_port : Z
}.

(** The calls of the setters. *)
Inductive filter_call :=
  | set_vlan (vlan_id : Z)
  | set_ip4_full (protocol laddr lport raddr rport : Z)
  | set_ip6_full (protocol : Z) (laddr : list byte) (lport : Z) (raddr : list byte) (rport : Z)
  | set_ip4_local (protocol addr port : Z)
  | set_ip6_local (protocol : Z) (addr : list byte) (port : Z)
  | set_eth_type (ethertype : Z)
  | set_ip_proto (ipproto : Z)
  | set_eth_local (vlan_id : Z) (mac : list byte)
  | set_multicast_all
  | set_unicast_all
  | set_multicast_mismatch
  | set_unicast_mismatch
  | set_port_sniff (promisc : Z)
  | set_tx_port_sniff
  | set_block_kernel
  | set_block_kernel_unicast
  | set_block_kernel_multicast.

(** The library: the initial specification for some flags, the setters, and
    the resolver, whose string must be given. *)
Record filter_lib (FS : Type) := FilterLib {
  fl_init : Z -> FS;
  fl_set : filter_call -> FS -> FS * cres;
  fl_hostport : Z -> string -> sockaddr * cres
}.
Arguments FilterLib {FS}.
Arguments fl_init {FS}.
Arguments fl_set {FS}.
Arguments fl_hostport {FS}.

Record fstate_p (FS : Type) := FP {
  fp_fs : FS;                (* *fs *)
  fp_mcast : option Z;       (* *sa_mcast, when written *)
  fp_trace : list io
}.
Arguments FP {FS}.
Arguments fp_fs {FS}.
Arguments fp_mcast {FS}.
Arguments fp_trace {FS}.

#[export] Instance fstate_p_traced FS : Traced (fstate_p FS) := {
  add_io e s := FP (fp_fs s) (fp_mcast s) (fp_trace s ++ [e])
}.

(** [consume_parameter(arg)]: the value and the new [*arg]; [None] when a null
    pointer would be dereferenced. *)
Definition consume_parameter (arg : string) : option (Z * option string) :=
  let '(tok, rest) := strtok arg "," in
  param ← tok;
  match strchr param "=" with
  | None => None
  | Some EmptyString => None
  | Some (String _ param) =>
      if String.eqb param "" then Some (0, None)
      else Some (atoi param, fst (strtok rest ""))
  end.

Section Filter.
Context {FS : Type}.
Variable lib : filter_lib FS.
Variable strerror : Z -> string.

Abbreviation M := (cm (fstate_p FS)).

Definition ef_filter_spec_init (flags : Z) : M unit :=
  modify (fun s => FP (fl_init lib flags) (fp_mcast s) (fp_trace s)).

(** [TRY(ef_filter_spec_set_...)]. *)
Definition TRY_set (x : string) (line : Z) (c : filter_call) : M unit :=
  let! s := get in
  let '(fs', r) := fl_set lib c (fp_fs s) in
  modify (fun s => FP fs' (fp_mcast s) (fp_trace s)) ;;; TRY strerror x "utils.cpp" line r.

(** [TRY(ci_hostport_to_sockaddr(...))].  The resolver parses the string it is given
    and does not check it: a null pointer is undefined behaviour. *)
Definition TRY_hostport (x : string) (line family : Z) (hostport : option string) : M sockaddr :=
  let! hp := access hostport in
  let '(sa, r) := fl_hostport lib family hp in
  TRY strerror x "utils.cpp" line r ;;; ret sa.

(** [goto out] with [rc] still at its initial value. *)
Definition out_EINVAL : M Z := ret (- EINVAL).

(** [if( ! strncmp("vid=", remainder, 4) ) ...] where it ends in a [set_vlan]:
    the new [remainder], null for [goto out]. *)
Definition vid_vlan (line : Z) (remainder : string) : M (option string) :=
  if has_prefix "vid=" remainder then
    let! p := access (consume_parameter remainder) in
    match snd p with
    | None => ret None
    | Some r => TRY_set "ef_filter_spec_set_vlan(fs, vlan_id)" line (set_vlan (fst p)) ;;; ret (Some r)
    end
  else ret (Some remainder).

(** Both hosts, [hostport,remainder]. *)
Definition parse_full (protocol : Z) (remainder : string) : M Z :=
  let '(hostport, rest) := strtok remainder "," in
  let remainder := fst (strtok rest "") in
  let! laddr := TRY_hostport "ci_hostport_to_sockaddr(AF_UNSPEC, hostport, &laddr.ss)" 92
                  AF_UNSPEC hostport in
  let! raddr := TRY_hostport "ci_hostport_to_sockaddr(laddr.ss.ss_family, remainder, &raddr.ss)" 93
                  (ss_family laddr) remainder in
  if (ss_family laddr =? AF_INET) && (ss_family raddr =? AF_INET) then
    TRY_set "ef_filter_spec_set_ip4_full(fs, protocol, laddr.s4.sin_addr.s_addr, laddr.s4.sin_port, raddr.s4.sin_addr.s_addr, raddr.s4.sin_port)"
      95 (set_ip4_full protocol (sin_addr laddr) (sin_port laddr) (sin_addr raddr) (sin_port raddr)) ;;;
    ret 0
  else if (ss_family laddr =? AF_INET6) && (ss_family raddr =? AF_INET6) then
    TRY_set "ef_filter_spec_set_ip6_full(fs, protocol, &laddr.s6.sin6_addr, laddr.s6.sin6_port, &raddr.s6.sin6_addr, raddr.s6.sin6_port)"
      102 (set_ip6_full protocol (sin6_addr laddr) (sin6_port laddr) (sin6_addr raddr) (sin6_port raddr)) ;;;
    ret 0
  else LOG ("ERROR: invalid families in local/remote hosts" ++ nl) [] ;;; out_EINVAL.

(** The local host only. *)
Definition parse_local (sa_mcast : bool) (protocol : Z) (remainder : string) : M Z :=
  let! laddr := TRY_hostport ("ci_hostport_to_sockaddr(AF_UNSPEC, strtok(remainder, " ++ dquote ++ "," ++ dquote ++ "), &laddr.ss)") 113
                  AF_UNSPEC (fst (strtok remainder ",")) in
  if ss_family laddr =? AF_INET then
    TRY_set "ef_filter_spec_set_ip4_local(fs, protocol, laddr.s4.sin_addr.s_addr, laddr.s4.sin_port)"
      115 (set_ip4_local protocol (sin_addr laddr) (sin_port laddr)) ;;;
    modify (fun s => if sa_mcast then FP (fp_fs s) (Some (sin_addr laddr)) (fp_trace s) else s) ;;;
    ret 0
  else if ss_family laddr =? AF_INET6 then
    TRY_set "ef_filter_spec_set_ip6_local(fs, protocol, &laddr.s6.sin6_addr, laddr.s6.sin6_port)"
      122 (set_ip6_local protocol (sin6_addr laddr) (sin6_port laddr)) ;;;
    ret 0
  else LOG ("ERROR: invalid family in local host" ++ nl) [] ;;; out_EINVAL.

Definition parse_udp_tcp (sa_mcast : bool) (type rest : string) : M Z :=
  let protocol := if strcaseeq type "tcp" then IPPROTO_TCP else IPPROTO_UDP in
  match fst (strtok rest "") with
  | None => out_EINVAL
  | Some remainder =>
      let! remainder :=
        (if has_prefix "mcastloop-rx," remainder then
           ef_filter_spec_init EF_FILTER_FLAG_MCAST_LOOP_RECEIVE ;;;
           ret (fst (strtok (snd (strtok remainder ",")) ""))
         else ret (Some remainder)) in
      match remainder with
      | None => out_EINVAL
      | Some remainder =>
          let! remainder := vid_vlan 86 remainder in
          match remainder with
          | None => out_EINVAL
          | Some remainder =>
              match strchr remainder "," with
              | Some _ => parse_full protocol remainder
              | None => parse_local sa_mcast protocol remainder
              end
          end
      end
  end.

(** The address loop: six hexadecimal numbers with colons between them, and
    what is left behind the last; [None] is a [goto out]. *)
Fixpoint parse_mac (n : nat) (remainder : string) : option (list Z * string) :=
  match n with
  | O => None
  | S n' =>
      let '(v, r) := strtol remainder 16 in
      match n' with
      | O => Some ([u8 v], r)
      | S _ =>
          match r with
          | String ":" r' =>
              if String.eqb r' "" then None
              else '(vs, r'') ← parse_mac n' r'; Some (u8 v :: vs, r'')
          | _ => None
          end
      end
  end.

(** [vid=] of the [eth] form: the value is kept for [set_eth_local]. *)
Definition vid_local (remainder : string) : option (Z * option string) :=
  if has_prefix "vid=" remainder then consume_parameter remainder
  else Some (EF_FILTER_VLAN_ID_ANY, Some remainder).

Definition htons (x : Z) : Z := ntohs (u16 x).

(** [ethertype=] and [ipproto=] of the [eth] form. *)
Definition eth_option (remainder : string) : M (option string) :=
  if has_prefix "ethertype=" remainder then
    let! p := access (consume_parameter remainder) in
    match snd p with
    | None => ret None
    | Some r =>
        TRY_set "ef_filter_spec_set_eth_type(fs, ethertype)" 150 (set_eth_type (htons (fst p))) ;;;
        ret (Some r)
    end
  else if has_prefix "ipproto=" remainder then
    let! p := access (consume_parameter remainder) in
    match snd p with
    | None => ret None
    | Some r =>
        TRY_set "ef_filter_spec_set_ip_proto(fs, ipproto)" 156 (set_ip_proto (u8 (fst p))) ;;;
        ret (Some r)
    end
  else ret (Some remainder).

Definition parse_eth (rest : string) : M Z :=
  match fst (strtok rest "") with
  | None => out_EINVAL
  | Some remainder =>
      let! v := access (vid_local remainder) in
      match snd v with
      | None => out_EINVAL
      | Some remainder =>
          let! remainder := eth_option remainder in
          match remainder with
          | None => out_EINVAL
          | Some remainder =>
              match parse_mac 6 remainder with
              | Some (mac, EmptyString) =>
                  TRY_set "ef_filter_spec_set_eth_local(fs, vlan_id, mac)" 171
                    (set_eth_local (fst v) (map z2b mac)) ;;; ret 0
              | _ => out_EINVAL
              end
          end
      end
  end.

(** The [ethertype] and [ipproto] forms: an optional [vid=] and a number. *)
Definition parse_number (vline : Z) (rest : string) (set : Z -> M unit) : M Z :=
  match fst (strtok rest "") with
  | None => out_EINVAL
  | Some remainder =>
      let! remainder := vid_vlan vline remainder in
      match remainder with
      | None => out_EINVAL
      | Some remainder =>
          let '(v, r) := strtol remainder 10 in
          if String.eqb r "" then set v ;;; ret 0 else out_EINVAL
      end
  end.

Definition parse_all (type s_in x : string) (line : Z) (c : filter_call) : M Z :=
  if negb (String.length type =? String.length s_in)%nat then out_EINVAL
  else TRY_set x line c ;;; ret 0.

(** The mismatch forms: [:vid=N] is optional. *)
Definition parse_mis (type s_in rest x : string) (line vline : Z) (c : filter_call) : M Z :=
  TRY_set x line c ;;;
  if (String.length type =? String.length s_in)%nat then ret 0
  else
    match fst (strtok rest "") with
    | None => out_EINVAL
    | Some remainder =>
        if has_prefix "vid=" remainder then
          let! vlan := access (strchr remainder "=") in
          match vlan with
          | EmptyString | String _ EmptyString => out_EINVAL
          | String _ v => TRY_set "ef_filter_spec_set_vlan(fs, atoi(vlan))" vline (set_vlan (atoi v)) ;;; ret 0
          end
        else out_EINVAL
    end.

Definition parse_sniff (type s_in rest : string) : M Z :=
  if (String.length type =? String.length s_in)%nat then
    TRY_set "ef_filter_spec_set_port_sniff(fs, 1)" 265 (set_port_sniff 1) ;;; ret 0
  else
    match fst (strtok rest "") with
    | None => out_EINVAL
    | Some remainder =>
        if String.eqb "promisc" remainder then
          TRY_set "ef_filter_spec_set_port_sniff(fs, 1)" 272 (set_port_sniff 1) ;;; ret 0
        else if String.eqb "no-promisc" remainder then
          TRY_set "ef_filter_spec_set_port_sniff(fs, 0)" 274 (set_port_sniff 0) ;;; ret 0
        else out_EINVAL
    end.

(** [dup] is whether [strdup] had memory for the copy; [strtok] on a null pointer
    without an earlier call is undefined behaviour. *)
Definition filter_parse (dup : bool) (s_in : string) (sa_mcast : bool) : M Z :=
  ef_filter_spec_init EF_FILTER_FLAG_NONE ;;;
  if negb dup then stop Undef else
  let '(type, rest) := strtok s_in ":" in
  match type with
  | None => out_EINVAL
  | Some type =>
      let isty s := String.eqb s type in
      if isty "udp" || isty "tcp" then parse_udp_tcp sa_mcast type rest
      else if isty "eth" then parse_eth rest
      else if isty "ethertype" then
        parse_number 186 rest
          (fun v => TRY_set "ef_filter_spec_set_eth_type(fs, ethertype)" 193 (set_eth_type (htons v)))
      else if isty "ipproto" then
        parse_number 208 rest
          (fun v => TRY_set "ef_filter_spec_set_ip_proto(fs, ipproto)" 215 (set_ip_proto (u8 v)))
      else if isty "multicast-all" then
        parse_all type s_in "ef_filter_spec_set_multicast_all(fs)" 222 set_multicast_all
      else if isty "unicast-all" then
        parse_all type s_in "ef_filter_spec_set_unicast_all(fs)" 229 set_unicast_all
      else if isty "multicast-mis" then
        parse_mis type s_in rest "ef_filter_spec_set_multicast_mismatch(fs)" 234 243 set_multicast_mismatch
      else if isty "unicast-mis" then
        parse_mis type s_in rest "ef_filter_spec_set_unicast_mismatch(fs)" 249 258 set_unicast_mismatch
      else if isty "sniff" then parse_sniff type s_in rest
      else if isty "tx-sniff" then
        TRY_set "ef_filter_spec_set_tx_port_sniff(fs)" 282 set_tx_port_sniff ;;; ret 0
      else if isty "block-kernel" then
        TRY_set "ef_filter_spec_set_block_kernel(fs)" 287 set_block_kernel ;;; ret 0
      else if isty "block-kernel-unicast" then
        TRY_set "ef_filter_spec_set_block_kernel_unicast(fs)" 292 set_block_kernel_unicast ;;; ret 0
      else if isty "block-kernel-multicast" then
        TRY_set "ef_filter_spec_set_block_kernel_multicast(fs)" 297 set_block_kernel_multicast ;;; ret 0
      else out_EINVAL
  end.
End Filter.

(** ** The macros do what they say *)

Section MacroFacts.
Context {S : Type} `{Traced S}.
Variable strerror : Z -> string.

Lemma LOG_yields f ps args : parse_format PLit f = Some ps -> fits (convs ps) args ->
  yields (S := S) (fun _ => True) (LOG f args).
Proof.
  intros Hp Hf. apply yields_seq; [|done]. apply yields_access. by eapply printf_fits.
Qed.

Lemma TRY_yields x file line r : yields (S := S) (fun _ => True) (TRY strerror x file line r).
Proof.
  unfold TRY. destruct (_ <? _); [|by apply yields_ret].
  repeat (apply yields_seq; [eapply LOG_yields; [reflexivity|repeat constructor]|intros _]).
  apply yields_abort.
Qed.

Lemma TEST_yields x file line ok : yields (S := S) (fun _ => True) (TEST x file line ok).
Proof.
  unfold TEST. destruct ok; [by apply yields_ret|].
  repeat (apply yields_seq; [eapply LOG_yields; [reflexivity|repeat constructor]|intros _]).
  apply yields_abort.
Qed.

Lemma LOG_ok f ps args s : parse_format PLit f = Some ps -> fits (convs ps) args ->
  exists line, LOG (S := S) f args s = (add_io (Stderr line) s, Ok tt).
Proof.
  intros Hp Hf. destruct (printf_fits f ps args Hp Hf) as [line Hl]. exists line.
  unfold LOG. wunfold. by rewrite Hl.
Qed.

Lemma TRY_ok x file line r s : 0 <= rc_of r -> TRY strerror x file line r s = (s, Ok tt).
Proof. intros Hr. unfold TRY. by destruct (Z.ltb_spec (rc_of r) 0); [lia|]. Qed.
End MacroFacts.

#[export] Hint Resolve TRY_yields TEST_yields : yields.

(** ** Parameters *)

#[local] Open Scope string_scope.
#[local] Open Scope Z_scope.

(** [p] has no delimiter: the token that starts with [p] runs on behind it. *)
Fixpoint avoids (set p : string) : bool :=
  match p with EmptyString => true | String c p' => negb (in_set c set) && avoids set p' end.

Lemma break_set_app set p r : avoids set p = true ->
  break_set set (p ++ r) = (p ++ fst (break_set set r), snd (break_set set r)).
Proof.
  induction p as [|c p IH]; intros Hp.
  { change ("" ++ r) with r. destruct (break_set set r). done. }
  simpl in Hp. apply andb_prop in Hp as [Hc Hp]. apply negb_true_iff in Hc.
  rewrite !append_cons. simpl. rewrite Hc, IH by done. done.
Qed.

Lemma strtok_app set c p r : avoids set (String c p) = true ->
  strtok (String c p ++ r) set =
    (Some (String c p ++ fst (break_set set r)), snd (break_set set r)).
Proof.
  intros Hp. unfold strtok. rewrite append_cons. simpl skip_set.
  pose proof Hp as Hp'. simpl in Hp'. apply andb_prop in Hp' as [Hc _]. apply negb_true_iff in Hc.
  rewrite Hc, <- append_cons, break_set_app by done. done.
Qed.

Lemma prefix_app p s : String.prefix p s = true -> exists r, s = p ++ r.
Proof.
  revert s. induction p as [|c p IH]; intros s Hp; [by exists s|].
  destruct s as [|d s]; simpl in Hp; [done|]. destruct (ascii_dec c d) as [->|]; [|done].
  destruct (IH s Hp) as [r ->]. by exists r.
Qed.

Lemma has_prefix_app p r : has_prefix p (p ++ r) = true.
Proof.
  unfold has_prefix. induction p as [|c p IH]; [by destruct r|].
  rewrite append_cons. simpl. by destruct (ascii_dec c c).
Qed.

Lemma strchr_app p c r : strchr (p ++ String c r) c <> None.
Proof.
  induction p as [|d p IH].
  { change ("" ++ String c r) with (String c r). simpl. by destruct (ascii_dec c c). }
  rewrite append_cons. cbn [strchr]. by destruct (ascii_dec c d).
Qed.

Lemma strchr_nonempty s c r : strchr s c = Some r -> r <> EmptyString.
Proof. induction s as [|d s IH]; simpl; [done|]. destruct (ascii_dec c d); [intros [= <-]; done|auto]. Qed.

Lemma append_nil_s a : a ++ "" = a.
Proof. induction a as [|c a IH]; [done|]. by rewrite append_cons, IH. Qed.

Lemma length_append_s a b : String.length (a ++ b) = (String.length a + String.length b)%nat.
Proof. induction a as [|c a IH]; [done|]. rewrite append_cons. simpl. by rewrite IH. Qed.

Lemma append_assoc_s (a b c : string) : (a ++ b) ++ c = a ++ (b ++ c).
Proof. induction a as [|x a IH]; [done|]. by rewrite !append_cons, IH. Qed.

(** Behind a recognised name, [consume_parameter] never meets a null pointer. *)
Lemma consume_parameter_some name c s : avoids "," (String c name ++ "=") = true ->
  has_prefix (String c name ++ "=") s = true -> is_Some (consume_parameter s).
Proof.
  intros Ha [r ->]%prefix_app. unfold consume_parameter.
  rewrite append_cons, (strtok_app "," c (name ++ "=") r) by exact Ha.
  cbn [mbind option_bind]. destruct (strchr _ "=") as [[|d v]|] eqn:E.
  - by apply strchr_nonempty in E.
  - by destruct (String.eqb v "").
  - exfalso. revert E. rewrite <- (append_cons c name "="), append_assoc_s. apply strchr_app.
Qed.

(** ** Hosts that are missing *)

(** What stands behind the first host of a list of hosts, commas before it skipped;
    [None] when one of the two is missing. *)
Fixpoint behind_host (started : bool) (r : string) : option string :=
  match r with
  | EmptyString => None
  | String c r' =>
      if ascii_dec c "," then
        if started then (if String.eqb r' "" then None else Some r') else behind_host false r'
      else behind_host true r'
  end.

(** The text behind the options [mcastloop-rx,] and [vid=N,] of the [udp] and [tcp] forms. *)
Definition mcast_rest (r : string) : option string :=
  if has_prefix "mcastloop-rx," r then fst (strtok (snd (strtok r ",")) "") else Some r.
Definition vid_rest (r : string) : option string :=
  if has_prefix "vid=" r then p ← consume_parameter r; snd p else Some r.
Definition host_text (s_in : string) : option string :=
  let '(type, rest) := strtok s_in ":" in
  t ← type;
  if String.eqb "udp" t || String.eqb "tcp" t then r ← fst (strtok rest ""); r ← mcast_rest r; vid_rest r else None.

(** A comma announces two hosts, and one of them is not there. *)
Definition host_missing (s_in : string) : bool :=
  match host_text s_in with
  | Some r => bool_decide (strchr r "," <> None) && bool_decide (behind_host false r = None)
  | None => false
  end.

Lemma behind_started r : behind_host true r = (let r' := snd (break_set "," r) in if String.eqb r' "" then None else Some r').
Proof.
  induction r as [|c r IH]; [done|]. cbn [behind_host break_set in_set]. destruct (ascii_dec c ","); [done|]. rewrite IH. by destruct (break_set "," r).
Qed.

Lemma behind_strtok r : behind_host false r = (let '(host, rest) := strtok r "," in h ← host; if String.eqb rest "" then None else Some rest).
Proof.
  unfold strtok. induction r as [|c r IH]; [done|]. cbn [behind_host skip_set in_set]. destruct (ascii_dec c ",") as [E|E]; [exact IH|]. rewrite behind_started.
  cbn [break_set in_set]. destruct (ascii_dec c ","); [done|]. by destruct (break_set "," r).
Qed.

Lemma rest_some r : r <> EmptyString -> is_Some (fst (strtok r "")).
Proof. intros H. by rewrite strtok_rest. Qed.

Lemma rest_nonempty r q : fst (strtok r "") = Some q -> q <> EmptyString.
Proof. destruct (strtok r "") as [[t|] r'] eqn:E; [|done]. intros [= <-]. by eapply strtok_nonempty. Qed.

(** Without a comma the whole text is the host. *)
Lemma strtok_no_comma r : r <> EmptyString -> strchr r "," = None -> is_Some (fst (strtok r ",")).
Proof.
  unfold strtok. destruct r as [|c r]; [done|]. intros _. cbn [strchr skip_set in_set]. destruct (ascii_dec "," c) as [<-|Hc]; [done|]. intros _.
  destruct (ascii_dec c ","); [congruence|]. by destruct (break_set "," _).
Qed.

Section FilterFacts.
Context {FS : Type}.
Variable lib : filter_lib FS.
Variable strerror : Z -> string.

Definition rc_ok (z : Z) : Prop := z = 0 \/ z = - EINVAL.

Lemma TRY_set_yields x line c : yields (fun _ => True) (TRY_set lib strerror x line c).
Proof.
  unfold TRY_set. apply yields_seq; [auto with yields|]. intros s. destruct (fl_set _ _ _).
  apply yields_seq; auto with yields.
Qed.

Lemma TRY_hostport_yields x line f h : is_Some h -> yields (fun _ => True) (TRY_hostport lib strerror x line f h).
Proof.
  intros Hh. unfold TRY_hostport. apply yields_seq; [auto with yields|]. intros hp. destruct (fl_hostport _ _ _). apply yields_seq; auto with yields.
Qed.

Lemma out_EINVAL_yields : yields rc_ok (out_EINVAL (FS := FS)).
Proof. apply yields_ret. by right. Qed.

Lemma ret0_yields : yields (S := fstate_p FS) rc_ok (ret 0).
Proof. apply yields_ret. by left. Qed.

#[local] Hint Resolve TRY_set_yields TRY_hostport_yields out_EINVAL_yields ret0_yields : yields.

Lemma vid_vlan_yields line r : yields (fun _ => True) (vid_vlan lib strerror line r).
Proof.
  unfold vid_vlan. destruct (has_prefix "vid=" r) eqn:E; [|auto with yields].
  apply yields_seq; [apply yields_access; by apply (consume_parameter_some "id" "v")|].
  intros [v [r'|]]; simpl; [apply yields_seq|]; auto with yields.
Qed.

Lemma eth_option_yields r : yields (fun _ => True) (eth_option lib strerror r).
Proof.
  unfold eth_option. destruct (has_prefix "ethertype=" r) eqn:E1.
  { apply yields_seq; [apply yields_access; by apply (consume_parameter_some "thertype" "e")|].
    intros [v [r'|]]; simpl; [apply yields_seq|]; auto with yields. }
  destruct (has_prefix "ipproto=" r) eqn:E2; [|auto with yields].
  apply yields_seq; [apply yields_access; by apply (consume_parameter_some "pproto" "i")|].
  intros [v [r'|]]; simpl; [apply yields_seq|]; auto with yields.
Qed.

Lemma vid_local_some r : is_Some (vid_local r).
Proof.
  unfold vid_local. destruct (has_prefix "vid=" r) eqn:E; [|done].
  by apply (consume_parameter_some "id" "v").
Qed.

#[local] Hint Resolve vid_vlan_yields eth_option_yields vid_local_some : yields.
#[local] Hint Extern 1 (yields _ (LOG _ _)) => eapply LOG_yields; [reflexivity|repeat constructor] : yields.

(** One step of the parser's code. *)
Ltac ystep :=
  match goal with
  | |- yields _ (let '(_, _) := ?x in _) => destruct x
  | |- yields _ (match ?x with _ => _ end) => destruct x eqn:?
  | |- yields _ (bind _ _) => apply yields_seq; [auto 3 with yields|intros ?]
  | |- _ => solve [auto 3 with yields]
  end.

Lemma parse_full_yields p r : behind_host false r <> None -> yields rc_ok (parse_full lib strerror p r).
Proof.
  rewrite behind_strtok. unfold parse_full. destruct (strtok r ",") as [[h|] rest]; [|done]. cbn [mbind option_bind].
  destruct (String.eqb_spec rest ""); [done|]. intros _. pose proof (rest_some rest ltac:(done)). repeat ystep.
Qed.

Lemma parse_local_yields m p r : r <> EmptyString -> strchr r "," = None -> yields rc_ok (parse_local lib strerror m p r).
Proof.
  intros Hr Hc. unfold parse_local. pose proof (strtok_no_comma r Hr Hc). repeat ystep.
Qed.

Lemma vid_vlan_rest line r : yields (fun o => o = vid_rest r) (vid_vlan lib strerror line r).
Proof.
  unfold vid_vlan, vid_rest. destruct (has_prefix "vid=" r) eqn:E; [|by apply yields_ret].
  destruct (consume_parameter_some "id" "v" r ltac:(done) E) as [[v [q|]] Ec]; rewrite Ec; intros st; unfold access; rewrite bind_ret_l; cbn [mbind option_bind fst snd]; [|done].
  apply (yields_seq _ _ _ (TRY_set_yields _ _ _) (fun _ => yields_ret (fun o => o = Some q) (Some q) eq_refl)).
Qed.

Lemma vid_rest_nonempty r q : r <> EmptyString -> vid_rest r = Some q -> q <> EmptyString.
Proof.
  unfold vid_rest. destruct (has_prefix "vid=" r); [|intros H [= <-]; done]. intros _. unfold consume_parameter. destruct (strtok r ",") as [[t|] rest]; [|done]. cbn [mbind option_bind].
  destruct (strchr t "=") as [[|c v]|]; [done| |done]. destruct (String.eqb v ""); [done|]. cbn [mbind option_bind snd]. apply rest_nonempty.
Qed.

Lemma mcast_rest_nonempty r q : r <> EmptyString -> mcast_rest r = Some q -> q <> EmptyString.
Proof. unfold mcast_rest. destruct (has_prefix _ r); [intros _; apply rest_nonempty|intros H [= <-]; done]. Qed.

(** The hosts that the parser comes to are those of [host_text]. *)
Lemma parse_udp_tcp_yields m t rest : match (r ← fst (strtok rest ""); r ← mcast_rest r; vid_rest r) with
    | Some r => strchr r "," <> None -> behind_host false r <> None | None => True end ->
  yields rc_ok (parse_udp_tcp lib strerror m t rest).
Proof.
  unfold parse_udp_tcp, ef_filter_spec_init. destruct (fst (strtok rest "")) as [r|] eqn:Er; [|intros _; ystep]. apply rest_nonempty in Er. cbn [mbind option_bind]. intros H.
  eapply yields_bind with (P := fun o => o = mcast_rest r).
  { unfold mcast_rest. destruct (has_prefix _ r); [apply yields_seq; [auto with yields|intros _; by apply yields_ret]|by apply yields_ret]. }
  intros o ->. destruct (mcast_rest r) as [r1|] eqn:E1; [|auto with yields]. apply mcast_rest_nonempty in E1; [|done]. cbn [mbind option_bind] in H.
  eapply yields_bind; [apply vid_vlan_rest|]. intros o ->. destruct (vid_rest r1) as [r2|] eqn:E2; [|auto with yields]. apply vid_rest_nonempty in E2; [|done].
  destruct (strchr r2 ",") eqn:Ec; [apply parse_full_yields; by apply H|by apply parse_local_yields].
Qed.

Lemma parse_eth_yields r : yields rc_ok (parse_eth lib strerror r).
Proof. unfold parse_eth. repeat ystep. Qed.

Lemma parse_number_yields l r set : (forall v, yields (fun _ => True) (set v)) ->
  yields rc_ok (parse_number lib strerror l r set).
Proof. intros Hs. unfold parse_number. repeat ystep. Qed.

Lemma parse_all_yields t s x l c : yields rc_ok (parse_all lib strerror t s x l c).
Proof. unfold parse_all. repeat ystep. Qed.

Lemma parse_mis_yields t s r x l vl c : yields rc_ok (parse_mis lib strerror t s r x l vl c).
Proof.
  unfold parse_mis. ystep. ystep; [ystep|]. ystep; [|ystep]. destruct (has_prefix _ _) eqn:E; [|ystep].
  apply yields_seq; [|intros [|? []]; repeat ystep].
  apply yields_access. destruct (prefix_app _ _ E) as [q ->].
  apply not_eq_None_Some. apply (strchr_app "vid" "=" q).
Qed.

Lemma parse_sniff_yields t s r : yields rc_ok (parse_sniff lib strerror t s r).
Proof. unfold parse_sniff. repeat ystep. Qed.
End FilterFacts.

#[export] Hint Resolve TRY_set_yields out_EINVAL_yields ret0_yields parse_eth_yields
  parse_number_yields parse_all_yields parse_mis_yields parse_sniff_yields : yields.

(** The library accepts every call. *)
Definition accepts {FS} (lib : filter_lib FS) : Prop :=
  (forall c fs, 0 <= rc_of (snd (fl_set lib c fs))) /\ (forall f h, 0 <= rc_of (snd (fl_hostport lib f h))).

Section Missing.
Context {FS : Type} (lib : filter_lib FS) (strerror : Z -> string) (Hlib : accepts lib).

Lemma TRY_set_ok x line c s : exists s', TRY_set lib strerror x line c s = (s', Ok tt).
Proof.
  unfold TRY_set. rewrite bind_get. pose proof (proj1 Hlib c (fp_fs s)) as H. destruct (fl_set lib c (fp_fs s)) as [fs' r]. rewrite bind_modify. eexists. by apply TRY_ok.
Qed.

Lemma vid_vlan_ok line r s : exists s', vid_vlan lib strerror line r s = (s', Ok (vid_rest r)).
Proof.
  unfold vid_vlan, vid_rest. destruct (has_prefix "vid=" r) eqn:E; [|by exists s].
  destruct (consume_parameter_some "id" "v" r ltac:(done) E) as [[v [q|]] Ec]; rewrite Ec; unfold access; rewrite bind_ret_l; cbn [mbind option_bind fst snd]; [|by exists s].
  destruct (TRY_set_ok "ef_filter_spec_set_vlan(fs, vlan_id)" line (set_vlan v) s) as [s' E']. exists s'. by rewrite (bind_Ok _ _ _ _ _ E').
Qed.

Lemma TRY_hostport_null {A} x line f (k : sockaddr -> cm (fstate_p FS) A) s : bind (TRY_hostport lib strerror x line f None) k s = (s, Undef).
Proof. reflexivity. Qed.

Lemma TRY_hostport_some x line f h s : exists sa, TRY_hostport lib strerror x line f (Some h) s = (s, Ok sa).
Proof.
  unfold TRY_hostport, access. rewrite bind_ret_l. pose proof (proj2 Hlib f h) as H. destruct (fl_hostport lib f h) as [sa r]. exists sa.
  by rewrite (bind_Ok _ _ _ _ _ (TRY_ok _ _ _ _ _ _ H)).
Qed.

Lemma parse_full_missing p r s : behind_host false r = None -> snd (parse_full lib strerror p r s) = Undef.
Proof.
  rewrite behind_strtok. unfold parse_full. destruct (strtok r ",") as [[h|] rest]; [|done]. cbn [mbind option_bind]. destruct (String.eqb_spec rest "") as [->|]; [|done]. intros _.
  destruct (TRY_hostport_some "ci_hostport_to_sockaddr(AF_UNSPEC, hostport, &laddr.ss)" 92 AF_UNSPEC h s) as [sa E]. by rewrite (bind_Ok _ _ _ _ _ E).
Qed.

Lemma filter_parse_missing s_in m s : host_missing s_in = true -> snd (filter_parse lib strerror true s_in m s) = Undef.
Proof.
  unfold host_missing, host_text, filter_parse, ef_filter_spec_init. rewrite bind_modify. cbn [negb]. destruct (strtok s_in ":") as [[type|] rest]; [|done]. cbn [mbind option_bind].
  destruct (String.eqb "udp" type || String.eqb "tcp" type); [|done]. unfold parse_udp_tcp. destruct (fst (strtok rest "")) as [r|]; [|done]. cbn [mbind option_bind].
  match goal with |- _ -> snd (bind ?c _ ?s0) = _ => assert (exists s1, c s0 = (s1, Ok (mcast_rest r))) as [s1 E1] end.
  { unfold mcast_rest. destruct (has_prefix _ r); eexists; [|done]. unfold ef_filter_spec_init. by rewrite bind_modify. }
  rewrite (bind_Ok _ _ _ _ _ E1). destruct (mcast_rest r) as [r1|]; [|done]. cbn [mbind option_bind].
  destruct (vid_vlan_ok 86 r1 s1) as [s2 E2]. rewrite (bind_Ok _ _ _ _ _ E2). destruct (vid_rest r1) as [r2|]; [|done].
  intros [Hc Hb]%andb_true_iff. apply bool_decide_eq_true in Hc, Hb. destruct (strchr r2 ","); [|done]. by apply parse_full_missing.
Qed.
End Missing.

(** C9: which filter strings the parser can take.  When the copy of the string has its
    memory and the [udp] and [tcp] forms do not announce a second host with a comma and
    leave one of the two out, the parser dereferences no null pointer, gives none to the
    resolver and does not end the process, whatever the library answers: it returns 0 or
    [-EINVAL], or aborts in a [TRY].  For the other strings, as ["udp:a,"], and for a
    copy that failed, the behaviour is undefined with every library that accepts the
    calls made before. *)
Theorem filter_parse_safe {FS} (lib : filter_lib FS) strerror s_in sa_mcast :
  (host_missing s_in = false -> yields rc_ok (filter_parse lib strerror true s_in sa_mcast)) /\
  (host_missing s_in = true -> accepts lib -> forall st, snd (filter_parse lib strerror true s_in sa_mcast st) = Undef) /\
  (forall st, snd (filter_parse lib strerror false s_in sa_mcast st) = Undef).
Proof.
  split; [|split; [intros Hm Ha st; by apply filter_parse_missing|done]].
  intros Hm. unfold filter_parse. apply yields_seq; [apply yields_modify|intros _]. cbn [negb].
  unfold host_missing, host_text in Hm. destruct (strtok s_in ":") as [[type|] rest]; [|auto with yields]. cbn [mbind option_bind] in Hm.
  destruct (String.eqb "udp" type || String.eqb "tcp" type).
  { apply parse_udp_tcp_yields. destruct (_ ≫= _) as [r|]; [|done]. intros Hc. rewrite bool_decide_true in Hm by done. by apply bool_decide_eq_false in Hm. }
  repeat match goal with |- yields _ (if ?b then _ else _) => destruct b; [first [solve [auto with yields]|apply yields_seq; auto with yields]|] end.
  auto with yields.
Qed.

(** ** Printing what the parser reads *)

Definition hex_digit (d : Z) : ascii :=
  ascii_of_nat (Z.to_nat (if d <? 10 then 48 + d else 87 + d)).

(** Two hexadecimal digits per byte, with colons. *)
Definition hex2 (b : byte) : string :=
  String (hex_digit (b2z b / 16)) (String (hex_digit (b2z b mod 16)) EmptyString).

Fixpoint print_mac (mac : list byte) : string :=
  match mac with
  | [] => EmptyString
  | [b] => hex2 b
  | b :: mac' => hex2 b ++ String ":" (print_mac mac')
  end.

(** A decimal numeral. *)
Definition is_decimal (ds : list Z) : Prop := ds <> [] /\ Forall (fun d => 0 <= d <= 9) ds.
Definition print_decimal (ds : list Z) : string := string_of_list_ascii (map hex_digit ds).
Definition decimal (acc : Z) (ds : list Z) : Z := fold_left (fun a d => 10 * a + d) ds acc.

Lemma hex_digit_facts d : 0 <= d < 16 ->
  digit_val (hex_digit d) = Some d /\ isspace (hex_digit d) = false /\
  hex_digit d <> "-"%char /\ hex_digit d <> "+"%char /\ tolower (hex_digit d) <> "x"%char /\
  in_set (hex_digit d) "vti" = false /\ in_set (hex_digit d) "," = false.
Proof.
  intros Hd. assert (d ∈ map Z.of_nat (seq 0 16)) as Hin.
  { apply list_elem_of_In, in_map_iff. exists (Z.to_nat d). rewrite in_seq. lia. }
  clear Hd; revert d Hin. apply (proj1 (Forall_forall (fun d =>
    digit_val (hex_digit d) = Some d /\ isspace (hex_digit d) = false /\
    hex_digit d <> "-"%char /\ hex_digit d <> "+"%char /\ tolower (hex_digit d) <> "x"%char /\
    in_set (hex_digit d) "vti" = false /\ in_set (hex_digit d) "," = false) _)).
  repeat (constructor; [repeat split; try reflexivity; discriminate|]). constructor.
Qed.

Lemma run_digits_digit base acc d r : 0 <= d < 16 -> d < base ->
  run_digits base acc (String (hex_digit d) r) = run_digits base (base * acc + d) r.
Proof.
  intros Hd Hb. destruct (hex_digit_facts d Hd) as (E & _). cbn [run_digits]. rewrite E.
  by destruct (Z.ltb_spec d base); [|lia].
Qed.

Lemma run_digits_stop base acc r : starts_digit base r = false -> run_digits base acc r = (acc, r).
Proof. destruct r as [|c r]; [done|]. simpl. destruct (digit_val c); [|done]. by intros ->. Qed.

(** A number is read up to the first character that is not a digit of it. *)
Lemma strtol_digits base d r v rest : 0 <= d < 16 -> d < base ->
  (base = 16 -> match r with String c _ => tolower c <> "x"%char | _ => True end) ->
  run_digits base d r = (v, rest) ->
  strtol (String (hex_digit d) r) base = (Z.min LONG_MAX v, rest).
Proof.
  intros Hd Hb Hx Hr. destruct (hex_digit_facts d Hd) as (E & Hs & Hm & Hp & _).
  unfold strtol. cbn [skip_space]. rewrite Hs.
  destruct (ascii_dec (hex_digit d) "-"); [done|]. destruct (ascii_dec (hex_digit d) "+"); [done|].
  assert (forall q, (match r with
    | String cx r' => if (base =? 16) && (if ascii_dec (hex_digit d) "0" then true else false)
         && (if ascii_dec (tolower cx) "x" then true else false) && starts_digit 16 r' then r' else q
    | EmptyString => q end) = q) as Hq.
  { intros q. destruct r as [|cx r']; [done|]. destruct (Z.eqb_spec base 16) as [->|]; [|done].
    specialize (Hx eq_refl). destruct (ascii_dec (tolower cx) "x"); [done|]. by rewrite !andb_false_r. }
  rewrite Hq. unfold starts_digit. rewrite E. destruct (Z.ltb_spec d base); [|lia].
  rewrite run_digits_digit by lia. replace (base * 0 + d) with d by lia. by rewrite Hr.
Qed.

Lemma hex2_strtol b r : starts_digit 16 r = false -> strtol (hex2 b ++ r) 16 = (b2z b, r).
Proof.
  intros Hr. unfold hex2. rewrite !append_cons. change ("" ++ r) with r. pose proof (b2z_range b).
  assert (0 <= b2z b / 16 < 16) by (split; [apply Z.div_pos|apply Z.div_lt_upper_bound]; lia).
  pose proof (Z.mod_pos_bound (b2z b) 16 ltac:(lia)).
  rewrite (strtol_digits 16 _ _ (b2z b) r); try lia.
  - f_equal. unfold LONG_MAX. lia.
  - intros _. by apply hex_digit_facts.
  - rewrite run_digits_digit by lia. rewrite <- Z.div_mod by lia. by apply run_digits_stop.
Qed.

Lemma print_mac_nonempty b mac : print_mac (b :: mac) <> EmptyString.
Proof. by destruct mac. Qed.

Lemma parse_print_mac mac : mac <> [] ->
  parse_mac (length mac) (print_mac mac) = Some (map b2z mac, EmptyString).
Proof.
  induction mac as [|b [|b' mac] IH]; intros Hne; [done| |].
  - cbn [length parse_mac print_mac]. replace (hex2 b) with (hex2 b ++ "") by reflexivity.
    rewrite hex2_strtol by done. rewrite wrap_small by apply b2z_range. done.
  - change (print_mac (b :: b' :: mac)) with (hex2 b ++ String ":" (print_mac (b' :: mac))).
    change (length (b :: b' :: mac)) with (S (length (b' :: mac))).
    remember (length (b' :: mac)) as n eqn:En. cbn [parse_mac].
    rewrite hex2_strtol by done. destruct n as [|n]; [done|].
    destruct (String.eqb_spec (print_mac (b' :: mac)) ""); [by apply print_mac_nonempty in e|].
    rewrite IH by done. cbn [mbind option_bind]. rewrite wrap_small by apply b2z_range. done.
Qed.

Lemma run_print_decimal ds acc rest : Forall (fun d => 0 <= d <= 9) ds ->
  starts_digit 10 rest = false ->
  run_digits 10 acc (print_decimal ds ++ rest) = (decimal acc ds, rest).
Proof.
  intros H Hr. revert acc. induction H as [|d ds Hd _ IH]; intros acc.
  { by apply run_digits_stop. }
  change (print_decimal (d :: ds) ++ rest) with (String (hex_digit d) (print_decimal ds ++ rest)).
  rewrite run_digits_digit by lia. apply IH.
Qed.

Lemma decimal_lower ds acc : Forall (fun d => 0 <= d <= 9) ds -> 0 <= acc -> acc <= decimal acc ds.
Proof.
  intros H. revert acc. induction H as [|d ds Hd _ IH]; intros acc Ha; simpl; [lia|].
  specialize (IH (10 * acc + d) ltac:(lia)). unfold decimal in *. lia.
Qed.

Lemma strtol_print ds rest : is_decimal ds -> decimal 0 ds < 2 ^ 31 -> starts_digit 10 rest = false ->
  strtol (print_decimal ds ++ rest) 10 = (decimal 0 ds, rest) /\ 0 <= decimal 0 ds.
Proof.
  intros [Hne Hd] Hlt Hr. destruct ds as [|d ds]; [done|]. apply Forall_cons in Hd as [Hd Hds].
  pose proof (decimal_lower ds d Hds ltac:(lia)).
  assert (decimal 0 (d :: ds) = decimal d ds) as E by reflexivity. rewrite E in *. split; [|lia].
  change (print_decimal (d :: ds) ++ rest) with (String (hex_digit d) (print_decimal ds ++ rest)).
  rewrite (strtol_digits 10 d _ _ _ ltac:(lia) ltac:(lia) ltac:(done) (run_print_decimal ds d rest Hds Hr)).
  by rewrite Z.min_r by (unfold LONG_MAX; lia).
Qed.

Lemma atoi_print ds : is_decimal ds -> decimal 0 ds < 2 ^ 31 -> atoi (print_decimal ds) = decimal 0 ds.
Proof.
  intros Hd Hlt. destruct (strtol_print ds "" Hd Hlt eq_refl) as [E H0]. rewrite append_nil_s in E.
  unfold atoi. rewrite E. apply swrap_small; cbn [fst]; lia.
Qed.

Lemma print_decimal_avoids ds : Forall (fun d => 0 <= d <= 9) ds -> avoids "," (print_decimal ds) = true.
Proof.
  induction 1 as [|d ds Hd _ IH]; [done|]. cbn. fold (print_decimal ds).
  destruct (hex_digit_facts d ltac:(lia)) as (_ & _ & _ & _ & _ & _ & Hc). simpl in Hc. by rewrite Hc, IH.
Qed.

Lemma avoids_app set a b : avoids set (a ++ b) = avoids set a && avoids set b.
Proof.
  induction a as [|c a IH]; [done|]. rewrite append_cons. simpl. by rewrite IH, andb_assoc.
Qed.

(** A token up to its delimiter. *)
Lemma strtok_to p c d r : avoids (String d "") (String c p) = true ->
  strtok (String c p ++ String d r) (String d "") = (Some (String c p), r).
Proof.
  intros Ha. rewrite strtok_app by done. cbn [break_set in_set]. destruct (ascii_dec d d); [|done].
  cbn [fst snd]. by rewrite append_nil_s.
Qed.

Lemma mac_no_option b r :
  has_prefix "vid=" (hex2 b ++ r) = false /\ has_prefix "ethertype=" (hex2 b ++ r) = false /\
  has_prefix "ipproto=" (hex2 b ++ r) = false.
Proof.
  unfold hex2. rewrite !append_cons. pose proof (b2z_range b).
  assert (0 <= b2z b / 16 < 16) by (split; [apply Z.div_pos|apply Z.div_lt_upper_bound]; lia).
  pose proof (Z.mod_pos_bound (b2z b) 16 ltac:(lia)).
  destruct (hex_digit_facts (b2z b / 16) ltac:(lia)) as (_ & _ & _ & _ & _ & Hx & _).
  destruct (hex_digit_facts (b2z b mod 16) ltac:(lia)) as (_ & _ & _ & _ & _ & Hy & _).
  revert Hx Hy. generalize (hex_digit (b2z b / 16)) (hex_digit (b2z b mod 16)). intros x y Hx Hy.
  unfold has_prefix. cbn [String.prefix]. simpl in Hx, Hy. repeat case_match; subst; done.
Qed.

Lemma print_mac_head b mac : exists r, print_mac (b :: mac) = hex2 b ++ r.
Proof. destruct mac; [exists ""|eexists; reflexivity]. by rewrite append_nil_s. Qed.

(** [vid=N,] in front of something. *)
Lemma consume_vid ds m : is_decimal ds -> decimal 0 ds < 2 ^ 31 -> m <> EmptyString ->
  consume_parameter ("vid=" ++ print_decimal ds ++ String "," m) = Some (decimal 0 ds, Some m).
Proof.
  intros Hd Hlt Hm. unfold consume_parameter.
  rewrite <- append_assoc_s. change ("vid=" ++ print_decimal ds) with (String "v" ("id=" ++ print_decimal ds)).
  rewrite strtok_to.
  2:{ change (String "v" ("id=" ++ print_decimal ds)) with ("vid=" ++ print_decimal ds).
      rewrite avoids_app, print_decimal_avoids by apply Hd. done. }
  cbn [mbind option_bind].
  change (strchr (String "v" ("id=" ++ print_decimal ds)) "=") with (Some (String "=" (print_decimal ds))).
  cbv beta iota.
  destruct (String.eqb_spec (print_decimal ds) "") as [E|_].
  { destruct Hd as [Hne _]. by destruct ds. }
  rewrite atoi_print by done. rewrite strtok_rest by done. reflexivity.
Qed.

(** The [eth] form of a specification: an optional VLAN and the address. *)
Definition print_eth (vid : option (list Z)) (mac : list byte) : string :=
  "eth:" ++ match vid with
            | Some ds => "vid=" ++ print_decimal ds ++ String "," (print_mac mac)
            | None => print_mac mac
            end.

Definition vid_value (vid : option (list Z)) : Z :=
  match vid with Some ds => decimal 0 ds | None => EF_FILTER_VLAN_ID_ANY end.

(** Parsing a printed [eth] specification gives back the VLAN and the six
    bytes of the address in one [set_eth_local] on a fresh specification. *)
Lemma filter_parse_eth_roundtrip {FS} (lib : filter_lib FS) strerror vid mac m st :
  length mac = 6%nat ->
  (forall ds, vid = Some ds -> is_decimal ds /\ decimal 0 ds < 2 ^ 31) ->
  0 <= rc_of (snd (fl_set lib (set_eth_local (vid_value vid) mac) (fl_init lib EF_FILTER_FLAG_NONE))) ->
  filter_parse lib strerror true (print_eth vid mac) m st =
    (FP (fst (fl_set lib (set_eth_local (vid_value vid) mac) (fl_init lib EF_FILTER_FLAG_NONE)))
        (fp_mcast st) (fp_trace st), Ok 0).
Proof.
  intros Hlen Hvid Hrc. destruct mac as [|b mac]; [done|].
  set (pm := print_mac (b :: mac)) in *. pose proof (print_mac_nonempty b mac) as Hne. fold pm in Hne.
  destruct (print_mac_head b mac) as [r Hr]. fold pm in Hr. destruct (mac_no_option b r) as (N1 & N2 & N3).
  rewrite <- Hr in N1, N2, N3.
  set (rest := match vid with Some ds => "vid=" ++ print_decimal ds ++ String "," pm | None => pm end).
  assert (print_eth vid (b :: mac) = String "e" "th" ++ String ":" rest) as -> by reflexivity.
  assert (Hrest : strtok rest "" = (Some rest, "")) by (apply strtok_rest; by destruct vid).
  assert (Hvl : vid_local rest = Some (vid_value vid, Some pm)).
  { clear Hrest. unfold vid_local. destruct vid as [ds|].
    - destruct (Hvid ds eq_refl). cbv beta iota zeta delta [rest].
      rewrite has_prefix_app. by apply consume_vid.
    - cbv beta iota zeta delta [rest]. by rewrite N1. }
  assert (Hmac : parse_mac 6 pm = Some (map b2z (b :: mac), "")).
  { rewrite <- Hlen. by apply parse_print_mac. }
  assert (Hbytes : map z2b (map b2z (b :: mac)) = b :: mac).
  { rewrite map_map. etransitivity; [apply map_ext; apply z2b_b2z|apply map_id]. }
  unfold filter_parse. rewrite (strtok_to "th" "e" ":" rest) by reflexivity. cbn -[parse_eth].
  unfold parse_eth. rewrite Hrest. cbn [fst]. rewrite Hvl. cbn [access snd fst].
  rewrite bind_ret_l. cbn [snd fst]. unfold eth_option. rewrite N2, N3, bind_ret_l, Hmac, Hbytes.
  unfold TRY_set, bind, get, modify, ret. cbn [fp_fs fp_mcast fp_trace].
  destruct (fl_set _ _ _) as [fs' r'] eqn:E. cbn [fst snd] in *. rewrite TRY_ok by exact Hrc. done.
Qed.

(** ** A library that records the calls *)

Definition log_lib (hosts : string -> option sockaddr) : filter_lib (Z * list filter_call) :=
  FilterLib (fun flags => (flags, []))
    (fun c fs => ((fst fs, (snd fs ++ [c])%list), Res 0 0))
    (fun _ h => match hosts h with
                | Some sa => (sa, Res 0 0)
                | None => (SA 0 0 0 [] 0, Res (-22) 22)
                end).

(** The hosts of a library that accepts everything; "udp:a," leaves out the second. *)
Definition one_host : filter_lib (Z * list filter_call) := log_lib (fun _ => Some (SA AF_INET 0x0100007f 0 [] 0)).

Lemma filter_parse_safe_witness :
  yields rc_ok (filter_parse one_host (fun _ => "") true "udp:vid=5,10.0.0.1:80,10.0.0.2:90" false) /\
  snd (filter_parse one_host (fun _ => "") true "udp:a," false (FP (0, []) None [])) = Undef.
Proof.
  split.
  - refine (proj1 (filter_parse_safe one_host (fun _ => "") "udp:vid=5,10.0.0.1:80,10.0.0.2:90" false) _). vm_compute. reflexivity.
  - refine (proj1 (proj2 (filter_parse_safe one_host (fun _ => "") "udp:a," false)) _ _ _); [vm_compute; reflexivity|]. split; intros; simpl; lia.
Defined.

Lemma filter_parse_eth_roundtrip_witness :
  filter_parse (log_lib (fun _ => None)) (fun _ => "") true "eth:vid=42,00:1b:21:ff:0e:9a" false
    (FP (0, []) None []) =
  (FP (0, [set_eth_local 42 [x00; x1b; x21; xff; x0e; x9a]]) None [], Ok 0).
Proof.
  apply (filter_parse_eth_roundtrip (log_lib (fun _ => None)) (fun _ => "") (Some [4; 2])
           [x00; x1b; x21; xff; x0e; x9a] false (FP (0, []) None [])); [reflexivity| |].
  - intros ds [= <-]. split; [|vm_compute; reflexivity]. split; [done|].
    repeat (apply Forall_cons; split; [lia|]). by apply Forall_nil.
  - vm_compute. discriminate.
Defined.

(** What the client passes: the specification becomes a promiscuous sniff. *)
Lemma filter_parse_sniff {FS} (lib : filter_lib FS) strerror m st :
  0 <= rc_of (snd (fl_set lib (set_port_sniff 1) (fl_init lib EF_FILTER_FLAG_NONE))) ->
  filter_parse lib strerror true "sniff" m st =
    (FP (fst (fl_set lib (set_port_sniff 1) (fl_init lib EF_FILTER_FLAG_NONE)))
        (fp_mcast st) (fp_trace st), Ok 0).
Proof.
  intros Hrc. unfold filter_parse. change (strtok "sniff" ":") with (Some "sniff", "").
  unfold parse_sniff, TRY_set, ef_filter_spec_init, bind, get, modify, ret. cbn -[TRY].
  destruct (fl_set _ _ _) as [fs' r'] eqn:E. cbn [fst snd] in *. rewrite TRY_ok by exact Hrc. done.
Qed.

(** ** Integers over a connection *)

(** The bytes in flight on the connection, and the events. *)
Record nstate := NState { n_stream : list byte; n_trace : list io }.

#[export] Instance nstate_traced : Traced nstate := {
  add_io e s := NState (n_stream s) (n_trace s ++ [e])%list
}.

(** [sent] is what [send] returns: it takes that many bytes. *)
Definition sock_put_int (sent i : Z) : cm nstate unit :=
  let i := ntohl (u32 i) in
  modify (fun s => NState (n_stream s ++ take (Z.to_nat sent) (le_encode 4 i))%list (n_trace s)) ;;;
  TEST "send(sock, &i, sizeof(i), 0) == sizeof(i)" "utils.cpp" 310 (sent =? 4).

(** [got] is what [recv] returns: it delivers that many bytes. *)
Definition sock_get_int (got : Z) : cm nstate Z :=
  let! s := get in
  modify (fun s => NState (drop (Z.to_nat got) (n_stream s)) (n_trace s)) ;;;
  TEST "recv(sock, &i, sizeof(i), MSG_WAITALL) == sizeof(i)" "utils.cpp" 317 (got =? 4) ;;;
  ret (i32 (ntohl (le_decode (take (Z.to_nat got) (n_stream s))))).

Lemma ntohl_involutive x : 0 <= x < 2 ^ 32 -> ntohl (ntohl x) = x /\ 0 <= ntohl x < 2 ^ 32.
Proof.
  intros Hx. set (l := le_encode 4 x).
  assert (Hl : le_decode l = x) by (unfold l; rewrite le_decode_encode; apply wrap_small; exact Hx).
  pose proof (le_encode_length 4 x) as Hlen. fold l in Hlen.
  destruct l as [|a [|b [|c [|d [|? ?]]]]]; try done. rewrite <- Hl, ntohl_load.
  assert (be_decode 0 [a; b; c; d] = le_decode [d; c; b; a]) as E by (simpl; lia).
  rewrite E, ntohl_load. split; [simpl; lia|]. apply (le_decode_range [d; c; b; a]).
Qed.

(** An [int] put on a connection in full is the [int] got at the other end,
    in big-endian order on the wire, and the bytes behind it stay for the next. *)
Lemma sock_int_roundtrip i s : - 2 ^ 31 <= i < 2 ^ 31 ->
  let wire := le_encode 4 (ntohl (u32 i)) in
  be_decode 0 wire = u32 i /\
  sock_put_int 4 i s = (NState (n_stream s ++ wire)%list (n_trace s), Ok tt) /\
  forall rest t, sock_get_int 4 (NState (wire ++ rest)%list t) = (NState rest t, Ok i).
Proof.
  intros Hi wire. pose proof (wrap_range 32 i ltac:(lia)) as Hr.
  destruct (ntohl_involutive (u32 i) Hr) as [Hinv Hrn].
  assert (Hdec : le_decode wire = ntohl (u32 i))
    by (unfold wire; rewrite le_decode_encode; apply wrap_small; exact Hrn).
  assert (Hlen : length wire = 4%nat) by apply le_encode_length.
  split; [|split].
  - destruct wire as [|a [|b [|c [|d [|? ?]]]]]; try done.
    by rewrite <- ntohl_load, Hdec, Hinv.
  - unfold sock_put_int, TEST, bind, modify, ret. change (4 =? 4) with true. cbn [n_stream n_trace].
    fold wire. by rewrite (take_ge wire) by (rewrite Hlen; done).
  - intros rest t. unfold sock_get_int, TEST, bind, get, modify, ret. change (4 =? 4) with true.
    cbn [n_stream n_trace]. rewrite take_app_exact, drop_app_exact, Hdec, Hinv by (by rewrite Hlen).
    do 2 f_equal. unfold swrap. rewrite wrap_wrap. unfold wrap in *.
    destruct (Z.ltb_spec (i mod 2 ^ 32) (2 ^ (32 - 1))) as [H|H]; Z.to_euclidean_division_equations; lia.
Qed.

Lemma sock_int_roundtrip_witness :
  sock_put_int 4 (-2) (NState [] []) = (NState [xff; xff; xff; xfe] [], Ok tt).
Proof. apply (sock_int_roundtrip (-2) (NState [] [])); lia. Defined.

(** ** Interfaces *)

(** [sscanf(s, "%d%c", ...)]: the conversions made and the value of the first. *)
Definition sscanf_dc (s : string) : Z * option Z :=
  let s1 := skip_space s in
  if String.eqb s1 "" then (-1, None)
  else
    let '(v, r) := strtol s1 10 in
    if String.eqb r s1 then (0, None)
    else (if String.eqb r "" then 1 else 2, Some (i32 v)).

(** The result and [*ifindex_out]; [idx] is what [if_nametoindex] returns. *)
Definition parse_interface (if_nametoindex : string -> Z) (s : string) : Z * Z :=
  let idx := if_nametoindex s in
  if idx =? 0 then
    let '(n, v) := sscanf_dc s in
    let idx := default idx v in
    if negb (n =? 1) then (0, idx) else (1, idx)
  else (1, idx).

(** An interface argument that names no interface is accepted exactly as a
    number: a decimal numeral gives its value, and the same numeral with
    something behind it is refused. *)
Lemma parse_interface_number lookup ds c r :
  is_decimal ds -> decimal 0 ds < 2 ^ 31 -> lookup (print_decimal ds) = 0 ->
  lookup (print_decimal ds ++ String c r) = 0 -> starts_digit 10 (String c r) = false ->
  parse_interface lookup (print_decimal ds) = (1, decimal 0 ds) /\
  parse_interface lookup (print_decimal ds ++ String c r) = (0, decimal 0 ds).
Proof.
  intros Hd Hlt Hl1 Hl2 Hs.
  destruct (strtol_print ds "" Hd Hlt eq_refl) as [E1 H0]. rewrite append_nil_s in E1.
  destruct (strtol_print ds (String c r) Hd Hlt Hs) as [E2 _].
  assert (forall q, skip_space (print_decimal ds ++ q) = print_decimal ds ++ q /\
                    String.eqb (print_decimal ds ++ q) "" = false /\
                    String.eqb q (print_decimal ds ++ q) = false) as Hq.
  { intros q. destruct Hd as [Hne Hds]. destruct ds as [|d ds]; [done|].
    apply Forall_cons in Hds as [Hd _]. destruct (hex_digit_facts d ltac:(lia)) as (_ & Hsp & _).
    change (print_decimal (d :: ds) ++ q) with (String (hex_digit d) (print_decimal ds ++ q)).
    split; [cbn [skip_space]; by rewrite Hsp|]. split; [done|].
    apply String.eqb_neq. intros E. apply (f_equal String.length) in E. simpl in E.
    rewrite length_append_s in E. lia. }
  destruct (Hq "") as (Q1 & Q2 & Q3). rewrite append_nil_s in Q1, Q2, Q3.
  destruct (Hq (String c r)) as (Q4 & Q5 & Q6).
  unfold parse_interface, sscanf_dc. rewrite Hl1, Hl2, Q1, Q2, E1, Q4, Q5, E2.
  cbv beta iota zeta. rewrite Q3, Q6. cbn. by rewrite swrap_small by lia.
Qed.

Lemma parse_interface_number_witness :
  parse_interface (fun s => if String.eqb s "ens1f0" then 4 else 0) "12" = (1, 12) /\
  parse_interface (fun s => if String.eqb s "ens1f0" then 4 else 0) "12x" = (0, 12).
Proof.
  apply (parse_interface_number (fun s => if String.eqb s "ens1f0" then 4 else 0) [1; 2] "x" "").
  - split; [done|]. repeat (apply Forall_cons; split; [lia|]). by apply Forall_nil.
  - vm_compute. reflexivity.
  - vm_compute. reflexivity.
  - vm_compute. reflexivity.
  - vm_compute. reflexivity.
Defined.
