(* ===== verification/Sockets.v ===== *)
(** * Sockets: the address helpers of [EF_VI/utils.cpp]

    The helpers over [getaddrinfo], [getifaddrs] and the socket calls.  The
    answers of the system are a parameter; the state counts what the calls
    allocate (address lists, interface lists, open sockets), so that what each
    helper leaves behind can be stated. *)

From Stdlib Require Import ZArith Lia Ascii String Strings.Byte.
From S2P Require Import Prelude Bytes Printf World CString Utils.

#[local] Open Scope string_scope.
#[local] Open Scope Z_scope.

Record sstate := SState {
  s_infos : nat;         (* lists of getaddrinfo not yet freed *)
  s_ifaddrs : nat;       (* lists of getifaddrs not yet freed *)
  s_fds : list Z;        (* open sockets *)
  s_trace : list io
}.

#[export] Instance sstate_traced : Traced sstate := {
  add_io e s := SState (s_infos s) (s_ifaddrs s) (s_fds s) (s_trace s ++ [e])%list
}.

Definition alloc_info (s : sstate) : sstate := SState (S (s_infos s)) (s_ifaddrs s) (s_fds s) (s_trace s).
Definition freeaddrinfo (s : sstate) : sstate := SState (pred (s_infos s)) (s_ifaddrs s) (s_fds s) (s_trace s).
Definition alloc_ifaddrs (s : sstate) : sstate := SState (s_infos s) (S (s_ifaddrs s)) (s_fds s) (s_trace s).
Definition freeifaddrs (s : sstate) : sstate := SState (s_infos s) (pred (s_ifaddrs s)) (s_fds s) (s_trace s).
Definition open_fd (fd : Z) (s : sstate) : sstate := SState (s_infos s) (s_ifaddrs s) (fd :: s_fds s) (s_trace s).
Definition close_fd (s : sstate) : sstate := SState (s_infos s) (s_ifaddrs s) (tail (s_fds s)) (s_trace s).

(** An element of the list of [getifaddrs]; a null address is [None]. *)
Record ifaddr := IfAddr { ifa_name : string; ifa_flags : Z; ifa_addr : option (list byte) }.

(** The first element of the list of [getaddrinfo]. *)
Record addrinfo := AddrInfo { ai_family : Z; ai_socktype : Z; ai_protocol : Z; ai_addr : list byte; ai_addrlen : Z }.

Record hints := Hints { hint_flags : Z; hint_family : Z; hint_socktype : Z }.
Definition AI_PASSIVE : Z := 1.

(** What the system answers. *)
Record netenv := NetEnv {
  e_getsockname : cres * list byte;
  e_getifaddrs : cres * list ifaddr;
  e_if_nametoindex : string -> Z;
  e_getaddrinfo : hints -> option string -> option string -> Z * addrinfo;
  e_gai_strerror : Z -> string;
  e_socket : Z -> Z -> Z -> cres;
  e_getnameinfo : list byte -> cres * string;
  e_strerror : Z -> string
}.

Section Helpers.
Variable env : netenv.

Abbreviation M := (cm sstate).

Definition IFF_UP : Z := 1.
Definition sizeof_sockaddr_storage : Z := 128.
Definition NI_MAXHOST : Z := 1025.

Definition sa_family (a : list byte) : M Z := access (load16 0 a).

(** A pointer to a string given to [%s]: null is undefined. *)
Definition str_arg (s : option string) : M arg := access (option_map (fun s => AStr (bytes_of_string s)) s).
Definition or_empty (s : option string) : arg := AStr (bytes_of_string (default "" s)).

(** [sock_get_ifindex]: the search over the interfaces. *)
Fixpoint find_ifindex (family : Z) (off len : nat) (sas : list byte) (l : list ifaddr) : M (option Z) :=
  match l with
  | [] => ret None
  | iap :: l' =>
      match ifa_addr iap with
      | Some a =>
          if Z.land (ifa_flags iap) IFF_UP =? 0 then find_ifindex family off len sas l'
          else
            let! f := sa_family a in
            if negb (f =? family) then find_ifindex family off len sas l'
            else
              let! x := access (load off len sas) in
              let! y := access (load off len a) in
              if decide (x = y) then
                let idx := e_if_nametoindex env (ifa_name iap) in
                TEST "(*ifindex_out = if_nametoindex(iap->ifa_name)) != 0" "utils.cpp" 352 (negb (idx =? 0)) ;;;
                ret (Some idx)
              else find_ifindex family off len sas l'
      | None => find_ifindex family off len sas l'
      end
  end.

(** The return code and [*ifindex_out], when it is written. *)
Definition sock_get_ifindex : M (Z * option Z) :=
  let '(r, sas) := e_getsockname env in
  TRY (e_strerror env) "getsockname(sock, (sockaddr*) &sas, &len)" "utils.cpp" 329 r ;;;
  let! family := sa_family sas in
  let where_ := if family =? AF_INET then Some (4%nat, 4%nat)
                else if family =? AF_INET6 then Some (8%nat, 16%nat) else None in
  match where_ with
  | None => ret (-1, None)
  | Some (off, len) =>
      let '(r, addrs) := e_getifaddrs env in
      TRY (e_strerror env) "getifaddrs(&addrs)" "utils.cpp" 346 r ;;;
      modify alloc_ifaddrs ;;;
      let! found := find_ifindex family off len sas addrs in
      modify freeifaddrs ;;;
      ret (match found with Some i => (0, Some i) | None => (-1, None) end)
  end.

Definition getaddrinfo_storage (family : Z) (host port : option string) : M (Z * option (list byte)) :=
  let '(rc, ai) := e_getaddrinfo env (Hints AI_PASSIVE family 0) host port in
  if negb (rc =? 0) then
    let! p := str_arg port in
    LOG ("ERROR: could not resolve '%s:%s' (%s)" ++ nl)
      [or_empty host; p; AStr (bytes_of_string (e_gai_strerror env rc))] ;;;
    ret (-1, None)
  else
    modify alloc_info ;;;
    TEST "ai->ai_addrlen <= sizeof(*sas)" "utils.cpp" 376 (ai_addrlen ai <=? sizeof_sockaddr_storage) ;;;
    let! bytes := access (load 0 (Z.to_nat (ai_addrlen ai)) (ai_addr ai)) in
    modify freeaddrinfo ;;;
    ret (0, Some bytes).

(** [op] is null or a call such as [bind] or [connect]. *)
Definition mk_socket (family socktype : Z) (op : option (Z -> list byte -> Z -> cres)) (host port : option string) : M Z :=
  let '(rc, ai) := e_getaddrinfo env (Hints AI_PASSIVE family socktype) host port in
  if negb (rc =? 0) then
    LOG ("ERROR: could not resolve '%s:%s' (%s)" ++ nl)
      [or_empty host; or_empty port; AStr (bytes_of_string (e_gai_strerror env rc))] ;;;
    ret (-1)
  else
    modify alloc_info ;;;
    let sock := e_socket env (ai_family ai) (ai_socktype ai) (ai_protocol ai) in
    if rc_of sock <? 0 then
      LOG ("ERROR: socket(%d, %d, %d) failed (%s)" ++ nl)
        [AInt (ai_family ai); AInt (ai_socktype ai); AInt (ai_protocol ai);
         AStr (bytes_of_string (e_strerror env (errno_of sock)))] ;;;
      ret (-1)
    else
      modify (open_fd (rc_of sock)) ;;;
      match op with
      | Some f =>
          let r := f (rc_of sock) (ai_addr ai) (ai_addrlen ai) in
          if rc_of r <? 0 then
            let! h := str_arg host in
            let! p := str_arg port in
            LOG ("ERROR: op(%s, %s) failed (%s)" ++ nl) [h; p; AStr (bytes_of_string (e_strerror env (errno_of r)))] ;;;
            modify close_fd ;;;
            ret (-1)
          else modify freeaddrinfo ;;; ret (rc_of sock)
      | None => modify freeaddrinfo ;;; ret (rc_of sock)
      end.

(** The search of [get_ipaddr_of_intf]: the text of the first IPv4 address. *)
Fixpoint find_ipaddr (intf : string) (l : list ifaddr) : M (option string) :=
  match l with
  | [] => ret None
  | ifa :: l' =>
      match ifa_addr ifa with
      | None => find_ipaddr intf l'
      | Some a =>
          if negb (String.eqb (ifa_name ifa) intf) then find_ipaddr intf l'
          else
            let! f := sa_family a in
            if negb (f =? AF_INET) then find_ipaddr intf l'
            else
              let '(r, text) := e_getnameinfo env a in
              TRY (e_strerror env) "getnameinfo(ifa->ifa_addr, sizeof(struct sockaddr_in), ipaddr, NI_MAXHOST, ((void *)0), 0, 1)"
                "utils.cpp" 430 r ;;;
              ret (Some text)
      end
  end.

(** [mem] is whether [calloc] gave memory. *)
Definition get_ipaddr_of_intf (mem : bool) (intf : string) : M string :=
  TEST "ipaddr" "utils.cpp" 421 mem ;;;
  let '(r, addrs) := e_getifaddrs env in
  TRY (e_strerror env) "getifaddrs(&ifaddrs)" "utils.cpp" 422 r ;;;
  modify alloc_ifaddrs ;;;
  let! found := find_ipaddr intf addrs in
  modify freeifaddrs ;;;
  ret (default "" found).

(** [snprintf] cuts the text at the size of the buffer; it does not fail. *)
Definition get_ipaddr_of_vlan_intf (mem : bool) (intf : string) (vlan : Z) : M string :=
  if vlan <? 0 then get_ipaddr_of_intf mem intf
  else
    let! s := access (printf "%s.%d" [AStr (bytes_of_string intf); AInt vlan]) in
    get_ipaddr_of_intf mem (substring 0 (Z.to_nat (NI_MAXHOST - 1)) s).

Definition my_getaddrinfo (host port : option string) : Z * addrinfo := e_getaddrinfo env (Hints 0 AF_INET 0) host port.

Definition parse_host (s : string) : M (Z * option Z) :=
  let '(rc, ai) := my_getaddrinfo (Some s) None in
  if rc <? 0 then ret (0, None)
  else
    modify alloc_info ;;;
    let! ip := access (load32 4 (ai_addr ai)) in
    modify freeaddrinfo ;;;
    ret (1, Some ip).
End Helpers.

(** ** What the helpers leave behind *)

(** A state with the same resources and one more line of output. *)
Definition logged (s s' : sstate) : Prop := exists line, s' = add_io (Stderr line) s.

Section Accounts.
Variable env : netenv.

Lemma LOG_logged f ps args s : parse_format PLit f = Some ps -> fits (convs ps) args ->
  exists s', LOG f args s = (s', Ok tt) /\ logged s s'.
Proof. intros Hp Hf. destruct (LOG_ok f ps args s Hp Hf) as [line E]. eexists. split; [exact E|by exists line]. Qed.

(** What [mk_socket] returns and leaves behind, on every path.  It
    returns the new socket, open, with the address list freed; or -1 with no
    socket left open.  When the socket call or the operation fails, the
    address list is not freed; when the operation fails and the host or the
    port is a null pointer, the error report itself is undefined. *)
Lemma mk_socket_accounts family socktype op host port s :
  let '(rc, ai) := e_getaddrinfo env (Hints AI_PASSIVE family socktype) host port in
  let sock := e_socket env (ai_family ai) (ai_socktype ai) (ai_protocol ai) in
  let fails := match op with Some f => rc_of (f (rc_of sock) (ai_addr ai) (ai_addrlen ai)) <? 0 | None => false end in
  let run := mk_socket env family socktype op host port s in
  (rc <> 0 -> exists s', run = (s', Ok (-1)) /\ logged s s') /\
  (rc = 0 -> rc_of sock < 0 -> exists s', run = (s', Ok (-1)) /\ logged (alloc_info s) s') /\
  (rc = 0 -> 0 <= rc_of sock -> fails = false -> run = (open_fd (rc_of sock) s, Ok (rc_of sock))) /\
  (rc = 0 -> 0 <= rc_of sock -> fails = true -> is_Some host -> is_Some port ->
     exists s', run = (s', Ok (-1)) /\ logged (alloc_info s) s') /\
  (rc = 0 -> 0 <= rc_of sock -> fails = true -> host = None \/ port = None -> exists s', run = (s', Undef)).
Proof.
  unfold mk_socket. destruct (e_getaddrinfo env _ host port) as [rc ai].
  split_and!.
  - intros Hrc. rewrite (proj2 (Z.eqb_neq _ _) Hrc). cbn [negb].
    edestruct (LOG_logged ("ERROR: could not resolve '%s:%s' (%s)" ++ nl)) as (s' & E & L);
      [reflexivity| |rewrite (bind_Ok _ _ _ _ _ E); by exists s']. repeat constructor.
  - intros -> Hs. cbn [Z.eqb negb]. rewrite bind_modify. rewrite (proj2 (Z.ltb_lt _ _) Hs).
    edestruct (LOG_logged ("ERROR: socket(%d, %d, %d) failed (%s)" ++ nl)) as (s' & E & L);
      [reflexivity| |rewrite (bind_Ok _ _ _ _ _ E); by exists s']. repeat constructor.
  - intros -> Hs Hf. cbn [Z.eqb negb]. rewrite bind_modify, (proj2 (Z.ltb_ge _ _) Hs), bind_modify.
    destruct op as [f|]; [rewrite Hf|]; rewrite bind_modify; done.
  - intros -> Hs Hf [h ->] [p ->]. cbn [Z.eqb negb]. rewrite bind_modify, (proj2 (Z.ltb_ge _ _) Hs), bind_modify.
    destruct op as [f|]; [|done]. rewrite Hf. cbn [str_arg option_map access]. rewrite !bind_ret_l.
    edestruct (LOG_logged ("ERROR: op(%s, %s) failed (%s)" ++ nl)) as (s' & E & line & ->); [reflexivity| |].
    2: { rewrite (bind_Ok _ _ _ _ _ E), bind_modify. eexists. split; [reflexivity|]. by exists line. }
    repeat constructor.
  - intros -> Hs Hf Hnull. cbn [Z.eqb negb]. rewrite bind_modify, (proj2 (Z.ltb_ge _ _) Hs), bind_modify.
    destruct op as [f|]; [|done]. rewrite Hf.
    destruct host as [h|]; [destruct Hnull as [|Hp]; [done|subst port]|]; cbn [str_arg option_map access];
      rewrite ?bind_ret_l; by eexists.
Qed.
End Accounts.

(** A resolver that succeeds, and a system without sockets. *)
Definition no_socket_env : netenv :=
  NetEnv (Res 0 0, []) (Res 0 0, []) (fun _ => 0) (fun _ _ _ => (0, AddrInfo AF_INET 1 6 (zeros 16) 16)) (fun _ => "")
    (fun _ _ _ => Res (-1) 24) (fun _ => (Res 0 0, "")) (fun _ => "Too many open files").

Lemma mk_socket_accounts_witness : exists s',
  mk_socket no_socket_env AF_INET 1 None (Some "localhost") (Some "888") (SState 0 0 [] []) = (s', Ok (-1)) /\
  s_infos s' = 1%nat /\ s_fds s' = [].
Proof.
  destruct (mk_socket_accounts no_socket_env AF_INET 1 None (Some "localhost") (Some "888") (SState 0 0 [] []))
    as (_ & H & _). destruct (H eq_refl eq_refl) as (s' & E & line & ->).
  eexists. split; [exact E|]. done.
Defined.
