(* ===== verification/EfviClient.v ===== *)
(** * EfviClient: the kernel-bypass client ([EF_VI/mc_client_efvi.cpp], [.h])

    The state is the client object with its [resources] and the packet buffers
    in registered memory.  A buffer is a block of [PKT_BUF_SIZE] bytes that
    starts with a [pkt_buf]; the structures are a map from addresses, with
    [next] the link of the free list.  The bytes behind a structure belong to
    the adapter and are an input of each poll. *)

From Stdlib Require Import ZArith Lia Ascii String Strings.Byte.
From stdpp Require Import gmap.
From S2P Require Import Prelude Bytes Binary64 Printf NormalUdp World CString Frame BitField EfVi Utils.

Definition EV_POLL_BATCH_SIZE : Z := 16.
Definition REFILL_BATCH_SIZE : Z := 16.
Definition PKT_BUF_SIZE : Z := 2048.
Definition EF_VI_DMA_ALIGN : Z := 64.
Definition sizeof_pkt_buf : Z := 32.
Definition RX_DMA_OFF : Z := ROUND_UP sizeof_pkt_buf EF_VI_DMA_ALIGN.

(** ** Registered memory ([etherfabric/memreg.h]) *)

Definition EF_VI_NIC_PAGE_SHIFT : Z := 12.
Definition EF_VI_NIC_PAGE_SIZE : Z := Z.shiftl 1 EF_VI_NIC_PAGE_SHIFT.

(** One DMA address per 4K page. *)
Record ef_memreg := Memreg { mr_dma_addrs : list Z }.

Definition ef_memreg_dma_addr (mr : ef_memreg) (offset : Z) : option Z :=
  base ← mr_dma_addrs mr !! Z.to_nat (Z.shiftr offset EF_VI_NIC_PAGE_SHIFT);
  Some (Z.lor base (Z.land offset (EF_VI_NIC_PAGE_SIZE - 1))).

(** ** State *)

Record pkt_buf := PktBuf {
  efvi_addr : Z;
  rx_ptr : Z;
  id : Z;
  next : option Z
}.

Record resources := Resources {
  vi : ef_vi;
  res_rx_prefix_len : Z;
  refill_level : Z;
  refill_min : Z;
  pkt_bufs : Z;
  pkt_bufs_n : Z;
  memreg : ef_memreg;
  free_pkt_bufs : option Z;
  free_pkt_bufs_n : Z;
  n_rx_pkts : Z;
  n_rx_bytes : Z;
  heap : gmap Z pkt_buf
}.

(** The members of the class, with the events of the process. *)
Record client := Client {
  main_interface : list byte;
  cfg_max_fill : Z;
  cstop : Z;
  c_prev_ip_id : Z;
  c_output_data : list byte;
  c_trace : list io;
  res : resources
}.

#[export] Instance client_traced : Traced client := {
  add_io e s := Client (main_interface s) (cfg_max_fill s) (cstop s) (c_prev_ip_id s)
                  (c_output_data s) (c_trace s ++ [e]) (res s)
}.

Definition on_res (f : resources -> resources) : cm client unit := modify (fun s =>
  Client (main_interface s) (cfg_max_fill s) (cstop s) (c_prev_ip_id s) (c_output_data s)
    (c_trace s) (f (res s))).

Definition set_vi (v : ef_vi) (r : resources) : resources :=
  Resources v (res_rx_prefix_len r) (refill_level r) (refill_min r) (pkt_bufs r) (pkt_bufs_n r)
    (memreg r) (free_pkt_bufs r) (free_pkt_bufs_n r) (n_rx_pkts r) (n_rx_bytes r) (heap r).
Definition set_free (p : option Z) (n : Z) (r : resources) : resources :=
  Resources (vi r) (res_rx_prefix_len r) (refill_level r) (refill_min r) (pkt_bufs r) (pkt_bufs_n r)
    (memreg r) p n (n_rx_pkts r) (n_rx_bytes r) (heap r).
Definition set_stats (pkts bytes : Z) (r : resources) : resources :=
  Resources (vi r) (res_rx_prefix_len r) (refill_level r) (refill_min r) (pkt_bufs r) (pkt_bufs_n r)
    (memreg r) (free_pkt_bufs r) (free_pkt_bufs_n r) pkts bytes (heap r).
Definition set_heap (h : gmap Z pkt_buf) (r : resources) : resources :=
  Resources (vi r) (res_rx_prefix_len r) (refill_level r) (refill_min r) (pkt_bufs r) (pkt_bufs_n r)
    (memreg r) (free_pkt_bufs r) (free_pkt_bufs_n r) (n_rx_pkts r) (n_rx_bytes r) h.
Definition set_refill (level min : Z) (r : resources) : resources :=
  Resources (vi r) (res_rx_prefix_len r) level min (pkt_bufs r) (pkt_bufs_n r)
    (memreg r) (free_pkt_bufs r) (free_pkt_bufs_n r) (n_rx_pkts r) (n_rx_bytes r) (heap r).
Definition set_prefix (v : ef_vi) (len : Z) (r : resources) : resources :=
  Resources v len (refill_level r) (refill_min r) (pkt_bufs r) (pkt_bufs_n r)
    (memreg r) (free_pkt_bufs r) (free_pkt_bufs_n r) (n_rx_pkts r) (n_rx_bytes r) (heap r).
Definition set_bufs (p n : Z) (h : gmap Z pkt_buf) (r : resources) : resources :=
  Resources (vi r) (res_rx_prefix_len r) (refill_level r) (refill_min r) p n
    (memreg r) (free_pkt_bufs r) (free_pkt_bufs_n r) (n_rx_pkts r) (n_rx_bytes r) h.
Definition set_memreg (m : ef_memreg) (r : resources) : resources :=
  Resources (vi r) (res_rx_prefix_len r) (refill_level r) (refill_min r) (pkt_bufs r) (pkt_bufs_n r)
    m (free_pkt_bufs r) (free_pkt_bufs_n r) (n_rx_pkts r) (n_rx_bytes r) (heap r).

Definition next_of (p : option Z) (b : pkt_buf) : pkt_buf := PktBuf (efvi_addr b) (rx_ptr b) (id b) p.

(** A pointer to a structure is dereferenced, or written through. *)
Definition deref (p : option Z) : cm client pkt_buf :=
  let! s := get in
  let! a := access p in access (heap (res s) !! a).
Definition update (a : Z) (f : pkt_buf -> pkt_buf) : cm client unit :=
  let! b := deref (Some a) in on_res (fun r => set_heap (<[a := f b]> (heap r)) r).

(** ** Buffers *)

Definition buf_addr (base i : Z) : Z := base + i * PKT_BUF_SIZE.

(** [assert] fails when the comparison of the unsigned values does. *)
Definition pkt_buf_from_id (pkt_buf_i : Z) : cm client Z :=
  let! s := get in
  if u32 pkt_buf_i <? u32 (pkt_bufs_n (res s))
  then ret (buf_addr (pkt_bufs (res s)) pkt_buf_i) else stop Abort.

Definition pkt_buf_free (a : Z) : cm client unit :=
  let! s := get in
  update a (next_of (free_pkt_bufs (res s))) ;;;
  on_res (fun r => set_free (Some a) (free_pkt_bufs_n r + 1) r).

(** ** Packets *)

(** What the adapter left in a buffer, by the index of its block: the bytes of
    the block behind the structure. *)
Definition contents : Type := Z -> list byte.

Definition blocks_ok (dma : contents) : Prop :=
  forall i, length (dma i) = Z.to_nat (PKT_BUF_SIZE - sizeof_pkt_buf).

(** The bytes from an address to the end of its block; an address outside the
    bytes of the adapter has none. *)
Definition data_from (dma : contents) (r : resources) (p : Z) : option (list byte) :=
  let off := (p - pkt_bufs r) mod PKT_BUF_SIZE in
  let i := (p - pkt_bufs r) / PKT_BUF_SIZE in
  if (0 <=? i) && (i <? pkt_bufs_n r) && (sizeof_pkt_buf <=? off)
  then Some (drop (Z.to_nat (off - sizeof_pkt_buf)) (dma i)) else None.

Definition the_formats : formats := {|
  f_with_id := true;
  f_best := "%5d, %s, %12s, best, %d_%.1f x %.1f_%d, %d/%d, %.1f/%d" ++ nl;
  f_best_members :=
    ["contract_id"; "gen_time"; "bid_qty"; "bid_price"; "ask_price"; "ask_qty";
     "match_tot_qty"; "open_interest"; "last_price"; "last_match_qty"];
  f_deep :=
    "%5d, %s, %12s, deep, %d_%.1f|%d_%.1f|%d_%.1f|%d_%.1f|%d_%.1f x %.1f_%d|%.1f_%d|%.1f_%d|%.1f_%d|%.1f_%d" ++ nl;
  f_deep_members :=
    ["contract_id"; "gen_time"; "bid5_qty"; "bid5_price"; "bid4_qty"; "bid4_price";
     "bid3_qty"; "bid3_price"; "bid2_qty"; "bid2_price"; "bid1_qty"; "bid1_price";
     "ask1_price"; "ask1_qty"; "ask2_price"; "ask2_qty"; "ask3_price"; "ask3_qty";
     "ask4_price"; "ask4_qty"; "ask5_price"; "ask5_qty"]
|}%string.

(** The shared part of the frame clients, on the members of the object; the
    bytes that the handler may change belong to a buffer that goes back to the
    adapter. *)
Definition on_frame (pkt : list byte) (c : cm fstate unit) : cm client unit := fun s =>
  let '(f, o) := c (FState (c_prev_ip_id s) pkt (c_output_data s) (c_trace s)) in
  (Client (main_interface s) (cfg_max_fill s) (cstop s) (Frame.prev_ip_id f) (Frame.output_data f)
     (trace f) (res s), o).

(** The five tests of the first [if], in their order; [d] are the bytes from
    [p].  [Some true] goes on. *)
Definition feed_guard (d : list byte) : option bool :=
  eth_proto ← load16 6 d;
  if negb (eth_proto =? 0x0008) then Some false else
  ip_header_len ← load8 8 d;
  if negb (ip_header_len =? 0x45) then Some false else
  ip_proto ← load8 17 d;
  if negb (ip_proto =? 0x11) then Some false else
  dst_ip ← load32 24 d;
  Some (dst_ip =? 0x08efefef).

Section Handlers.
Context {net : Type}.
Variable packet_handler_full : handler_full.
Variable ops : vi_ops net.
Variable dma : contents.

Definition handle_pkt (pv len : Z) : cm client unit :=
  if len <? 60 then ret tt else
  let! s := get in
  let! d := access (data_from dma (res s) pv) in
  let! go := access (feed_guard d) in
  if negb go then ret tt else
  let! pkt := access (data_from dma (res s) (pv - 6)) in
  on_frame pkt (handle_frame packet_handler_full the_formats (len - 36)).

Definition handle_rx_core (rx_ptr len : Z) : cm client unit :=
  handle_pkt rx_ptr len ;;;
  on_res (fun r => set_stats (u64 (n_rx_pkts r + 1)) (u64 (n_rx_bytes r + len)) r).

Definition handle_rx (pkt_buf_i len : Z) : cm client unit :=
  let! a := pkt_buf_from_id pkt_buf_i in
  let! b := deref (Some a) in
  handle_rx_core (rx_ptr b) len ;;;
  pkt_buf_free a.

Definition handle_rx_discard (pkt_buf_i len discard_type : Z) : cm client unit :=
  LOG ("ERROR: discard type=%d" ++ nl) [AInt discard_type] ;;;
  let! a := pkt_buf_from_id pkt_buf_i in
  pkt_buf_free a.

(** The body of the [for] loop, [n] more times. *)
Fixpoint refill_batch (n : nat) : cm client unit :=
  match n with
  | O => ret tt
  | S n' =>
      let! s := get in
      let! a := access (free_pkt_bufs (res s)) in
      let! b := deref (Some a) in
      on_res (fun r => set_free (next b) (free_pkt_bufs_n r - 1) r) ;;;
      on_res (fun r => set_vi (fst (op_receive_init ops (vi r) (u64 (efvi_addr b + RX_DMA_OFF)) (id b))) r) ;;;
      refill_batch n'
  end.

(** The [do]-[while] loop; every pass takes buffers off the list, so that the
    number of free buffers bounds the passes. *)
Fixpoint refill_loop (fuel : nat) : cm client unit :=
  match fuel with
  | O => stop Undef
  | S fuel' =>
      refill_batch (Z.to_nat REFILL_BATCH_SIZE) ;;;
      let! s := get in
      if (ef_vi_receive_fill_level (vi (res s)) <? refill_min (res s)) &&
         (REFILL_BATCH_SIZE <=? free_pkt_bufs_n (res s))
      then refill_loop fuel' else ret tt
  end.

Definition refill_rx_ring : cm client bool :=
  let! s := get in
  if (refill_level (res s) <? ef_vi_receive_fill_level (vi (res s))) ||
     (free_pkt_bufs_n (res s) <? REFILL_BATCH_SIZE)
  then ret false
  else
    refill_loop (Z.to_nat (free_pkt_bufs_n (res s))) ;;;
    on_res (fun r => set_vi (op_receive_push ops (vi r)) r) ;;;
    ret true.

Definition handle_event (e : ef_event) : cm client unit :=
  if EF_EVENT_TYPE e =? ef_event_type_val EF_EVENT_TYPE_RX then
    TEST "EF_EVENT_RX_SOP(evs[i]) && ! EF_EVENT_RX_CONT(evs[i])" "mc_client_efvi.cpp" 194
      (negb (EF_EVENT_RX_SOP e =? 0) && (EF_EVENT_RX_CONT e =? 0)) ;;;
    let! s := get in
    handle_rx (i32 (EF_EVENT_RX_RQ_ID e)) (EF_EVENT_RX_BYTES e - res_rx_prefix_len (res s))
  else if EF_EVENT_TYPE e =? ef_event_type_val EF_EVENT_TYPE_RX_DISCARD then
    let! s := get in
    handle_rx_discard (i32 (EF_EVENT_RX_DISCARD_RQ_ID e))
      (EF_EVENT_RX_DISCARD_BYTES e - res_rx_prefix_len (res s)) (EF_EVENT_RX_DISCARD_TYPE e)
  else LOG ("ERROR: unexpected event type=%d" ++ nl) [AInt (EF_EVENT_TYPE e)].

Fixpoint handle_events (evs : list ef_event) : cm client unit :=
  match evs with
  | [] => ret tt
  | e :: evs' => handle_event e ;;; handle_events evs'
  end.

Definition poll_evq (w : net) : cm client Z :=
  let! s := get in
  let '(vi', evs) := op_eventq_poll ops w (vi (res s)) EV_POLL_BATCH_SIZE in
  on_res (set_vi vi') ;;;
  handle_events evs ;;;
  ret (Z.of_nat (length evs)).
End Handlers.

(** [event_loop_low_latency]: each pass has the state of the network and what
    the buffers hold when it polls. *)
Section Loop.
Context {net : Type}.
Variable packet_handler_full : handler_full.
Variable ops : vi_ops net.

Definition loop_body (i : net * contents) : cm client loopctl :=
  let! s := get in
  if cstop s =? 0 then ret LBreak else
  refill_rx_ring ops ;;;
  poll_evq packet_handler_full ops (snd i) (fst i) ;;;
  ret LNext.

Definition event_loop_low_latency (ins : list (net * contents)) : cm client unit :=
  serve loop_body (ret tt) ins.
End Loop.

(** ** Construction and initialisation *)

(** The constructor: the name is printed as a C string, and without a NUL in
    the eight bytes copied the print would run into bytes never written. *)
Definition construct (input_interface : list byte) (garbage : resources) : cm (list io) client :=
  let! name := access (load 0 8 input_interface) in
  let! str := access (until_nul name) in
  let! line := access (printf ("main_interface:%s" ++ nl) [AStr str]) in
  modify (fun t => t ++ [Stdout line]) ;;;
  let! t := get in
  ret (Client name (-1) 1 0 (zeros 256) t garbage).

Record tm := Tm { tm_year : Z; tm_mon : Z; tm_mday : Z; tm_hour : Z; tm_min : Z; tm_sec : Z }.

(** The results of the calls that [init] makes, in their order. *)
Record init_env (FS : Type) := InitEnv {
  e_calloc : bool;
  e_driver_open : cres;
  e_pd_alloc : cres;
  e_vi_alloc : cres;
  e_vi : ef_vi;                     (* what ef_vi_alloc_from_pd leaves in res->vi *)
  e_evq_capacity : Z;
  e_mmap : option Z;                (* None is MAP_FAILED *)
  e_memalign : Z * Z;               (* the result of posix_memalign and the pointer *)
  e_memory : Z -> pkt_buf;          (* what the memory of a block holds at first *)
  e_memreg : cres;
  e_dma_addrs : list Z;
  e_filter_lib : filter_lib FS;
  e_filter_add : FS -> cres;
  e_fs : FS;                        (* the stack object before filter_parse *)
  e_time : tm;
  e_strerror : Z -> string
}.
Arguments e_calloc {FS}.
Arguments e_driver_open {FS}.
Arguments e_pd_alloc {FS}.
Arguments e_vi_alloc {FS}.
Arguments e_vi {FS}.
Arguments e_evq_capacity {FS}.
Arguments e_mmap {FS}.
Arguments e_memalign {FS}.
Arguments e_memory {FS}.
Arguments e_memreg {FS}.
Arguments e_dma_addrs {FS}.
Arguments e_filter_lib {FS}.
Arguments e_filter_add {FS}.
Arguments e_fs {FS}.
Arguments e_time {FS}.
Arguments e_strerror {FS}.

(** [calloc] gives zeroed resources. *)
Definition zero_vi : ef_vi :=
  VI 0 0 0 0 false (Txq 0 0 []) (Rxq 0 [])
    (VIState (EventqState 0 0 0 0 0 0 0 0) (TxqState 0 0 0 0 0 0) (RxqState 0 0 0 0 0 0 0))
    0 EF_VI_ARCH_FALCON.
Definition zero_resources : resources :=
  Resources zero_vi 0 0 0 0 0 (Memreg []) None 0 0 0 ∅.

(** The structures in the first [n] blocks of fresh memory. *)
Fixpoint fresh_heap (base : Z) (m : Z -> pkt_buf) (n : nat) : gmap Z pkt_buf :=
  match n with
  | O => ∅
  | S n' => <[buf_addr base (Z.of_nat n') := m (Z.of_nat n')]> (fresh_heap base m n')
  end.

(** A product of two [int]s. *)
Definition mul_int (a b : Z) : option Z :=
  if (- 2 ^ 31 <=? a * b) && (a * b <? 2 ^ 31) then Some (a * b) else None.

(** [for( i = 0; i < n; ++i )] over a body. *)
Definition for_upto {S} (n : Z) (body : Z -> cm S unit) : cm S unit :=
  fold_right (fun i k => body (Z.of_nat i) ;;; k) (ret tt) (seq 0 (Z.to_nat n)).

Section Init.
Context {net FS : Type}.
Variable ops : vi_ops net.
Variable env : init_env FS.

Abbreviation TRY' x line r := (TRY (e_strerror env) x "mc_client_efvi.cpp" line r).

(** Allocation of the buffers: the address of the memory. *)
Definition alloc_bufs (alloc_size : Z) : cm client Z :=
  match e_mmap env with
  | Some p => ret p
  | None =>
      LOG ("mmap() failed. Are huge pages configured?" ++ nl) [] ;;;
      TEST "posix_memalign(&res->pkt_bufs, huge_page_size, alloc_size) == 0" "mc_client_efvi.cpp"
        252 (fst (e_memalign env) =? 0) ;;;
      ret (snd (e_memalign env))
  end.

Definition init_buf (i : Z) : cm client unit :=
  let! a := pkt_buf_from_id i in
  let! s := get in
  update a (fun b => PktBuf (efvi_addr b) (a + RX_DMA_OFF + res_rx_prefix_len (res s)) (id b) (next b)) ;;;
  update a (fun b => PktBuf (efvi_addr b) (rx_ptr b) i (next b)) ;;;
  pkt_buf_free a.

Definition init_addr (i : Z) : cm client unit :=
  let! a := pkt_buf_from_id i in
  let! s := get in
  let! off := access (mul_int i PKT_BUF_SIZE) in
  let! d := access (ef_memreg_dma_addr (memreg (res s)) off) in
  update a (fun b => PktBuf d (rx_ptr b) (id b) (next b)).

(** [while( fill_level <= refill_level ) refill_rx_ring(res);] *)
Fixpoint fill_ring (fuel : nat) : cm client unit :=
  match fuel with
  | O => stop Undef
  | S fuel' =>
      let! s := get in
      if ef_vi_receive_fill_level (vi (res s)) <=? refill_level (res s)
      then refill_rx_ring ops ;;; fill_ring fuel'
      else ret tt
  end.

(** The parser on its own state, with the events passed on; the copy of the six bytes that
    it parses has its memory. *)
Definition run_filter_parse (s_in : string) : cm client (Z * FS) := fun s =>
  let '(f, o) := filter_parse (e_filter_lib env) (e_strerror env) true s_in false
                   (FP (e_fs env) None (c_trace s)) in
  (Client (main_interface s) (cfg_max_fill s) (cstop s) (c_prev_ip_id s) (c_output_data s)
     (fp_trace f) (res s),
   match o with
   | Ok z => Ok (z, fp_fs f) | Exit z => Exit z | Abort => Abort | Undef => Undef
   end).

Definition set_max_fill (n : Z) : cm client unit := modify (fun s =>
  Client (main_interface s) n (cstop s) (c_prev_ip_id s) (c_output_data s) (c_trace s) (res s)).

Definition init : cm client Z :=
  TEST "(res = (struct resources*)calloc(1, sizeof(*res))) != NULL" "mc_client_efvi.cpp" 219 (e_calloc env) ;;;
  on_res (fun _ => zero_resources) ;;;
  TRY' "ef_driver_open(&res->dh)" 222 (e_driver_open env) ;;;
  TRY' "ef_pd_alloc_by_name(&res->pd, res->dh, main_interface, EF_PD_DEFAULT)" 223 (e_pd_alloc env) ;;;
  TRY' "ef_vi_alloc_from_pd(&res->vi, res->dh, &res->pd, res->dh, -1, -1, 0, NULL, -1, EF_VI_FLAGS_DEFAULT)"
    224 (e_vi_alloc env) ;;;
  on_res (set_prefix (e_vi env) (ef_vi_receive_prefix_len (e_vi env))) ;;;
  let! s := get in
  let capacity := ef_vi_receive_capacity (vi (res s)) in
  let max_fill := capacity - 15 in
  set_max_fill max_fill ;;;
  LOG ("rxq_size=%d" ++ nl) [AInt capacity] ;;;
  LOG ("max_fill=%d" ++ nl) [AInt max_fill] ;;;
  LOG ("evq_size=%d" ++ nl) [AInt (e_evq_capacity env)] ;;;
  LOG ("rx_prefix_len=%d" ++ nl) [AInt (res_rx_prefix_len (res s))] ;;;
  let! bytes := access (mul_int max_fill PKT_BUF_SIZE) in
  let alloc_size := u64 bytes in
  cprintf ("alloc_size:%d, huge_page_size:%d" ++ nl) [AInt (i32 alloc_size); AInt (i32 huge_page_size)] ;;;
  let alloc_size := u64 (ROUND_UP alloc_size huge_page_size) in
  let! p := alloc_bufs alloc_size in
  on_res (set_bufs p max_fill (fresh_heap p (e_memory env) (Z.to_nat max_fill))) ;;;
  for_upto max_fill init_buf ;;;
  TRY' "ef_memreg_alloc(&res->memreg, res->dh, &res->pd, res->dh, res->pkt_bufs, alloc_size)" 264
    (e_memreg env) ;;;
  on_res (set_memreg (Memreg (e_dma_addrs env))) ;;;
  for_upto max_fill init_addr ;;;
  on_res (set_refill (max_fill - REFILL_BATCH_SIZE) (Z.quot max_fill 2)) ;;;
  fill_ring (Z.to_nat max_fill + 1) ;;;
  let! rf := run_filter_parse "sniff" in
  if negb (fst rf =? 0) then LOG ("ERROR: Bad filter spec" ++ nl) [] ;;; stop (Exit 1) else
  TRY' "ef_vi_filter_add(&res->vi, res->dh, &filter_spec, NULL)" 282 (e_filter_add env (snd rf)) ;;;
  cprintf ("Ready to receive, time: %04d:%02d:%02d_%02d:%02d:%02d " ++ nl)
    [AInt (tm_year (e_time env) + 1900); AInt (tm_mon (e_time env)); AInt (tm_mday (e_time env));
     AInt (tm_hour (e_time env)); AInt (tm_min (e_time env)); AInt (tm_sec (e_time env))] ;;;
  ret 0.
End Init.

(** ** Where the buffers are *)

(** The free list from a pointer spells the identifiers [fl]. *)
Fixpoint chain (h : gmap Z pkt_buf) (base : Z) (p : option Z) (fl : list Z) : Prop :=
  match fl with
  | [] => p = None
  | i :: fl' =>
      p = Some (buf_addr base i) /\
      exists b, h !! buf_addr base i = Some b /\ chain h base (next b) fl'
  end.

Definition all_ids (n : Z) : list Z := map Z.of_nat (seq 0 (Z.to_nat n)).

(** The structure of each buffer says where its packet starts and which buffer
    it is. *)
Definition bufs_ok (r : resources) : Prop :=
  forall i, 0 <= i < pkt_bufs_n r -> exists b, heap r !! buf_addr (pkt_bufs r) i = Some b /\
    id b = i /\ rx_ptr b = buf_addr (pkt_bufs r) i + RX_DMA_OFF + res_rx_prefix_len r.

(** Every buffer is in one place: on the free list [fl], with the client in
    [lent] (returned by an event that is still to be handled), or in the
    receive ring. *)
Record owned (r : resources) (fl lent : list Z) : Prop := Owned {
  ow_vi : vi_wf (vi r);
  ow_n : 0 <= pkt_bufs_n r <= ef_vi_receive_capacity (vi r);
  ow_chain : chain (heap r) (pkt_bufs r) (free_pkt_bufs r) fl;
  ow_count : free_pkt_bufs_n r = Z.of_nat (length fl);
  ow_perm : fl ++ lent ++ rx_pending (vi r) ≡ₚ all_ids (pkt_bufs_n r);
  ow_bufs : bufs_ok r
}.

Lemma all_ids_elem n i : i ∈ all_ids n <-> 0 <= i < n.
Proof.
  unfold all_ids. rewrite list_elem_of_In, in_map_iff. split.
  - intros (k & <- & Hk%in_seq). lia.
  - intros Hi. exists (Z.to_nat i). rewrite in_seq. lia.
Qed.

Lemma all_ids_NoDup n : NoDup (all_ids n).
Proof. change (NoDup (Z.of_nat <$> seq 0 (Z.to_nat n))). apply NoDup_fmap_2; [apply _|apply NoDup_seq]. Qed.

Lemma all_ids_length n : length (all_ids n) = Z.to_nat n.
Proof. unfold all_ids. by rewrite length_map, length_seq. Qed.

Lemma buf_addr_inj base i j : buf_addr base i = buf_addr base j -> i = j.
Proof. unfold buf_addr, PKT_BUF_SIZE. lia. Qed.

(** A list that does not mention buffer [i] survives an update of it. *)
Lemma chain_insert h base p fl i b : i ∉ fl -> chain h base p fl ->
  chain (<[buf_addr base i := b]> h) base p fl.
Proof.
  revert p. induction fl as [|j fl IH]; intros p Hni Hc; [done|].
  apply not_elem_of_cons in Hni as [Hij Hni]. destruct Hc as (Hp & b' & Hb & Hc). split; [done|].
  exists b'. split; [|by apply IH]. rewrite lookup_insert_ne; [done|]. intros E%buf_addr_inj. done.
Qed.

(** Sizes: the ring and the client hold what is not free. *)
Lemma owned_sizes r fl lent : owned r fl lent ->
  Z.of_nat (length fl) + Z.of_nat (length lent) + ef_vi_receive_fill_level (vi r) = pkt_bufs_n r.
Proof.
  intros [Hv Hn _ _ Hp _]. apply Permutation_length in Hp. rewrite !length_app, all_ids_length in Hp.
  pose proof (rx_pending_length _ Hv). lia.
Qed.

Lemma owned_NoDup r fl lent : owned r fl lent -> NoDup (fl ++ lent ++ rx_pending (vi r)).
Proof. intros [_ _ _ _ Hp _]. rewrite Hp. apply all_ids_NoDup. Qed.

Lemma owned_range r fl lent i : owned r fl lent ->
  i ∈ fl \/ i ∈ lent \/ i ∈ rx_pending (vi r) -> 0 <= i < pkt_bufs_n r.
Proof.
  intros [_ _ _ _ Hp _] Hi. apply all_ids_elem. rewrite <- Hp, !elem_of_app. exact Hi.
Qed.

Lemma owned_lent r fl i lent : owned r fl (i :: lent) -> 0 <= i < pkt_bufs_n r.
Proof. intros Ho. apply (owned_range _ _ _ i Ho). set_solver. Qed.

Lemma owned_bound r fl lent : owned r fl lent -> pkt_bufs_n r < 2 ^ 30.
Proof.
  intros [Hv Hn _ _ _ _]. pose proof (capacity_mask _ Hv) as [? ?]. lia.
Qed.

(** ** Operations on the buffers *)

(** What the operations on the buffers leave alone. *)
Definition with_res (s : client) (r : resources) : client :=
  Client (main_interface s) (cfg_max_fill s) (cstop s) (c_prev_ip_id s) (c_output_data s) (c_trace s) r.

(** The members of the resources that are fixed after [init]. *)
Definition same_config (r r' : resources) : Prop :=
  pkt_bufs r' = pkt_bufs r /\ pkt_bufs_n r' = pkt_bufs_n r /\
  res_rx_prefix_len r' = res_rx_prefix_len r /\
  refill_level r' = refill_level r /\ refill_min r' = refill_min r /\ memreg r' = memreg r.

#[export] Instance same_config_preorder : PreOrder same_config.
Proof. split; [by repeat split|]. intros a b c H1 H2. unfold same_config in *. intuition congruence. Qed.

Lemma pkt_buf_from_id_ok s i : 0 <= i < pkt_bufs_n (res s) -> pkt_bufs_n (res s) < 2 ^ 32 ->
  pkt_buf_from_id i s = (s, Ok (buf_addr (pkt_bufs (res s)) i)).
Proof.
  intros Hi Hn. unfold pkt_buf_from_id. cunfold. rewrite !wrap_small by lia.
  by destruct (Z.ltb_spec i (pkt_bufs_n (res s))); [|lia].
Qed.

(** A lent buffer goes to the head of the free list. *)
Lemma pkt_buf_free_ok s fl lent i : owned (res s) fl (i :: lent) ->
  exists r', pkt_buf_free (buf_addr (pkt_bufs (res s)) i) s = (with_res s r', Ok tt) /\
    owned r' (i :: fl) lent /\ same_config (res s) r' /\ vi r' = vi (res s) /\
    n_rx_pkts r' = n_rx_pkts (res s) /\ n_rx_bytes r' = n_rx_bytes (res s).
Proof.
  intros Ho. pose proof (owned_range _ _ _ i Ho ltac:(set_solver)) as Hi.
  pose proof (owned_NoDup _ _ _ Ho) as Hnd. pose proof Ho as [Hv Hn Hc Hk Hp Hb].
  destruct (Hb i Hi) as (b & Hl & Hid & Hrx).
  unfold pkt_buf_free, update, deref. cunfold. rewrite Hl. eexists. split; [reflexivity|].
  split; [|by repeat split].
  split; simpl; [exact Hv|exact Hn| | | |].
  - split; [done|]. eexists. split; [apply lookup_insert_eq|]. simpl. apply chain_insert; [|done].
    apply NoDup_app in Hnd as (_ & Hnd & _). set_solver.
  - lia.
  - rewrite <- Hp. apply Permutation_middle.
  - intros j Hj. simpl in *. destruct (decide (j = i)) as [->|Hne].
    + eexists. split; [apply lookup_insert_eq|]. done.
    + rewrite lookup_insert_ne by (intros E%buf_addr_inj; done). by apply Hb.
Qed.

(** Statistics and structures that a refill does not touch. *)
Definition kept (r r' : resources) : Prop :=
  n_rx_pkts r' = n_rx_pkts r /\ n_rx_bytes r' = n_rx_bytes r /\ heap r' = heap r.

#[export] Instance kept_preorder : PreOrder kept.
Proof. split; [by repeat split|]. intros a b c H1 H2. unfold kept in *. intuition congruence. Qed.

Section RefillFacts.
Context {net : Type} (ops : vi_ops net) `{!VIOps ops}.

(** One buffer moves from the free list to the tail of the ring. *)
Lemma refill_one s i fl lent n : owned (res s) (i :: fl) lent ->
  exists r', refill_batch ops (S n) s = refill_batch ops n (with_res s r') /\
    owned r' fl lent /\ same_config (res s) r' /\
    rx_pending (vi r') = rx_pending (vi (res s)) ++ [i] /\
    kept (res s) r'.
Proof.
  intros Ho. pose proof (owned_range _ _ _ i Ho ltac:(set_solver)) as Hi.
  pose proof (owned_sizes _ _ _ Ho) as Hs. pose proof (owned_bound _ _ _ Ho).
  pose proof Ho as [Hv Hn Hc Hk Hp Hb]. destruct (Hb i Hi) as (b & Hl & Hid & Hrx).
  destruct Hc as (Hfree & b' & Hl' & Hc). rewrite Hl in Hl'. injection Hl' as <-.
  cbn [refill_batch]. unfold deref. cunfold. rewrite Hfree. cbn. rewrite Hl.
  pose proof (init_adds (vi (res s)) (u64 (efvi_addr b + RX_DMA_OFF)) (id b) Hv ltac:(simpl in Hs; lia)) as Hinit.
  destruct (op_receive_init ops (vi (res s)) (u64 (efvi_addr b + RX_DMA_OFF)) (id b)) as [v' rc] eqn:E.
  destruct Hinit as (_ & Hv' & (Hm & Hpl) & Hpend). rewrite Hid, wrap_small in Hpend by lia.
  eexists. split; [cbn; rewrite E; reflexivity|]. split; [|by repeat split].
  split; simpl; [exact Hv'| |exact Hc| | |exact Hb].
  - unfold ef_vi_receive_capacity in *. by rewrite Hm.
  - simpl in Hk. lia.
  - rewrite Hpend, <- Hp. simpl. by rewrite !app_assoc, <- Permutation_cons_append.
Qed.

Lemma refill_batch_ok n : forall s fl lent, owned (res s) fl lent -> (n <= length fl)%nat ->
  exists r', refill_batch ops n s = (with_res s r', Ok tt) /\
    owned r' (drop n fl) lent /\ same_config (res s) r' /\
    rx_pending (vi r') = rx_pending (vi (res s)) ++ take n fl /\
    kept (res s) r'.
Proof.
  induction n as [|n IH]; intros s fl lent Ho Hn.
  - exists (res s). simpl. rewrite app_nil_r. split; [by destruct s|]. by repeat split; try apply Ho.
  - destruct fl as [|i fl]; simpl in Hn; [lia|].
    destruct (refill_one s i fl lent n Ho) as (r1 & -> & Ho1 & Hc1 & Hp1 & Hk1).
    destruct (IH (with_res s r1) fl lent Ho1 ltac:(lia)) as (r2 & E & Ho2 & Hc2 & Hp2 & Hk2).
    exists r2. simpl in *. split; [exact E|]. split; [exact Ho2|].
    split; [by transitivity r1|]. rewrite Hp2, Hp1, <- app_assoc. split; [done|]. by transitivity r1.
Qed.

(** The loop posts [j] batches, at least one, and stops when the ring has
    reached [refill_min] or less than a batch is free. *)
Lemma refill_loop_ok fuel : forall s fl lent, owned (res s) fl lent ->
  (16 <= length fl)%nat -> (length fl < 16 * fuel + 16)%nat ->
  exists r' j, refill_loop ops fuel s = (with_res s r', Ok tt) /\
    (1 <= j)%nat /\ (16 * j <= length fl)%nat /\
    owned r' (drop (16 * j) fl) lent /\ same_config (res s) r' /\
    rx_pending (vi r') = rx_pending (vi (res s)) ++ take (16 * j) fl /\
    (refill_min r' <= ef_vi_receive_fill_level (vi r') \/ free_pkt_bufs_n r' < 16) /\
    kept (res s) r'.
Proof.
  induction fuel as [|fuel IH]; intros s fl lent Ho Hfl Hfuel; [lia|].
  cbn [refill_loop]. change (Z.to_nat REFILL_BATCH_SIZE) with 16%nat.
  destruct (refill_batch_ok 16 s fl lent Ho Hfl) as (r1 & E1 & Ho1 & Hc1 & Hp1 & Hk1).
  rewrite (bind_Ok _ _ _ _ _ E1), bind_get. cbn [res with_res].
  pose proof (ow_count _ _ _ Ho1) as Hk. rewrite length_drop in Hk. unfold REFILL_BATCH_SIZE.
  destruct ((ef_vi_receive_fill_level (vi r1) <? refill_min r1) && (16 <=? free_pkt_bufs_n r1)) eqn:Ec.
  - zbool. destruct (IH (with_res s r1) (drop 16 fl) lent Ho1) as (r2 & j & E2 & Hj & Hle & Ho2 & Hc2 & Hp2 & Hx & Hk2).
    { rewrite length_drop. lia. } { rewrite length_drop. lia. }
    rewrite length_drop in Hle. rewrite drop_drop in Ho2. simpl in Hc2, Hp2, Hk2.
    exists r2, (S j). split; [exact E2|]. split; [lia|]. split; [lia|].
    replace (16 * S j)%nat with (16 + 16 * j)%nat by lia.
    split; [exact Ho2|]. split; [by transitivity r1|].
    split; [by rewrite Hp2, Hp1, <- app_assoc, take_take_drop|]. split; [done|]. by transitivity r1.
  - exists r1, 1%nat. rewrite Nat.mul_1_r. split; [done|]. split; [lia|]. split; [lia|].
    split; [exact Ho1|]. split; [exact Hc1|]. split; [exact Hp1|]. split; [|done].
    apply andb_false_iff in Ec as [Ec|Ec]; zbool; lia.
Qed.

(** What a call of [refill_rx_ring] does, from a free list [fl]: it posts the
    first [16 j] buffers of the list, in its order. *)
Lemma refill_rx_ring_ok s fl lent : owned (res s) fl lent ->
  exists r' b j, refill_rx_ring ops s = (with_res s r', Ok b) /\
    (16 * j <= length fl)%nat /\ owned r' (drop (16 * j) fl) lent /\ same_config (res s) r' /\
    rx_pending (vi r') = rx_pending (vi (res s)) ++ take (16 * j) fl /\
    (b = false <-> refill_level (res s) < ef_vi_receive_fill_level (vi (res s)) \/ (length fl < 16)%nat) /\
    (b = false -> r' = res s) /\ (b = true -> (1 <= j)%nat) /\ (b = false -> j = 0%nat) /\
    (b = true -> refill_min r' <= ef_vi_receive_fill_level (vi r') \/ free_pkt_bufs_n r' < 16) /\
    kept (res s) r'.
Proof.
  intros Ho. unfold refill_rx_ring. rewrite bind_get. unfold REFILL_BATCH_SIZE.
  pose proof (ow_count _ _ _ Ho) as Hk.
  destruct ((refill_level (res s) <? ef_vi_receive_fill_level (vi (res s))) ||
            (free_pkt_bufs_n (res s) <? 16)) eqn:Ec.
  - exists (res s), false, 0%nat. simpl. rewrite app_nil_r. split; [by destruct s|]. split; [lia|].
    split; [exact Ho|]. split; [done|]. split; [done|]. split; [|by repeat split].
    split; [intros _|done]. apply orb_true_iff in Ec as [Ec|Ec]; zbool; lia.
  - zbool. destruct (refill_loop_ok (Z.to_nat (free_pkt_bufs_n (res s))) s fl lent Ho ltac:(lia) ltac:(lia))
      as (r1 & j & E1 & Hj & Hle & Ho1 & Hc1 & Hp1 & Hx & Hk1).
    rewrite (bind_Ok _ _ _ _ _ E1). cunfold.
    destruct (push_keeps (vi r1) (ow_vi _ _ _ Ho1)) as (Hv & (Hm & Hpl) & Hpend).
    exists (set_vi (op_receive_push ops (vi r1)) r1), true, j. split; [done|]. split; [done|]. split.
    { destruct Ho1 as [_ Hn Hc Hcnt Hp Hb]. split; simpl; [exact Hv| |done|done| |exact Hb].
      - unfold ef_vi_receive_capacity in *. by rewrite Hm.
      - by rewrite Hpend. }
    split; [exact Hc1|]. split; [simpl; congruence|]. split; [split; [done|lia]|].
    split; [done|]. split; [done|]. split; [done|]. split; [|done].
    intros _. simpl. pose proof (rx_pending_length _ Hv). pose proof (rx_pending_length _ (ow_vi _ _ _ Ho1)).
    rewrite Hpend in *. lia.
Qed.
End RefillFacts.

(** ** Packets *)

Lemma efvi_the_formats_ok : formats_ok the_formats.
Proof. split; eexists; split; reflexivity. Qed.

(** The largest prefix with which the headers lie inside a block. *)
Definition prefix_ok (len : Z) : Prop := 0 <= len <= 1900.

(** The bytes of block [i] from where the client takes the frame to start. *)
Definition frame_at (dma : contents) (prefix i : Z) : list byte :=
  drop (Z.to_nat (prefix + RX_DMA_OFF - 6 - sizeof_pkt_buf)) (dma i).

Lemma data_from_block dma r i off : 0 <= i < pkt_bufs_n r -> sizeof_pkt_buf <= off < PKT_BUF_SIZE ->
  data_from dma r (buf_addr (pkt_bufs r) i + off) = Some (drop (Z.to_nat (off - sizeof_pkt_buf)) (dma i)).
Proof.
  intros Hi Ho. unfold data_from, buf_addr, sizeof_pkt_buf, PKT_BUF_SIZE in *.
  replace (pkt_bufs r + i * 2048 + off - pkt_bufs r) with (off + i * 2048) by lia.
  rewrite Z_mod_plus_full, Z.mod_small, Z.div_add, Z.div_small, Z.add_0_l by lia.
  destruct (Z.leb_spec 0 i), (Z.ltb_spec i (pkt_bufs_n r)), (Z.leb_spec 32 off); try lia. done.
Qed.

Lemma frame_at_length dma prefix i : blocks_ok dma -> prefix_ok prefix ->
  length (frame_at dma prefix i) = Z.to_nat (1990 - prefix).
Proof.
  intros Hb Hp. unfold frame_at. rewrite length_drop, (Hb i). unfold prefix_ok in Hp.
  change RX_DMA_OFF with 64. unfold PKT_BUF_SIZE, sizeof_pkt_buf. lia.
Qed.

Lemma feed_guard_total d : (28 <= length d)%nat -> is_Some (feed_guard d).
Proof.
  intros Hd. unfold feed_guard.
  destruct (load_le_Some 6 2 d ltac:(lia)) as [a ->]. cbn. case_match; [done|].
  destruct (load_le_Some 8 1 d ltac:(lia)) as [b ->]. cbn. case_match; [done|].
  destruct (load_le_Some 17 1 d ltac:(lia)) as [c ->]. cbn. case_match; [done|].
  destruct (load_le_Some 24 4 d ltac:(lia)) as [e ->]. done.
Qed.

(** The identification of a packet that is reported. *)
Definition efvi_id (len : Z) (pkt : list byte) : option Z :=
  if 60 <=? len then
    match feed_guard (drop 6 pkt) with
    | Some true => match decode_frame pkt with Some d => d | None => None end
    | _ => None
    end
  else None.

Definition cwf (s : client) : Prop :=
  length (c_output_data s) = OUTPUT_DATA_SIZE /\ 0 <= c_prev_ip_id s < 2 ^ 16.

Section PktFacts.
#[local] Opaque printf.
Context (h : handler_full) `{!HandlerFull h} (dma : contents) (Hdma : blocks_ok dma).

(** From [s] to [s'] over a packet of [len] bytes in [pkt]. *)
Definition pkt_spec (len : Z) (pkt : list byte) (s s' : client) : Prop :=
  res s' = res s /\ cstop s' = cstop s /\
  match efvi_id len pkt with
  | Some ipid =>
      c_prev_ip_id s' = ipid /\
      exists evs, c_trace s' = c_trace s ++ evs /\
        frame_events h the_formats (c_prev_ip_id s) ipid (len - 36) pkt evs
  | None => s' = s
  end.

Lemma handle_pkt_ok s i len : cwf s -> 0 <= i < pkt_bufs_n (res s) -> prefix_ok (res_rx_prefix_len (res s)) ->
  exists s', handle_pkt h dma (buf_addr (pkt_bufs (res s)) i + RX_DMA_OFF + res_rx_prefix_len (res s)) len s
             = (s', Ok tt) /\ cwf s' /\
    pkt_spec len (frame_at dma (res_rx_prefix_len (res s)) i) s s'.
Proof.
  intros Hw Hi Hp. set (pl := res_rx_prefix_len (res s)) in *. unfold handle_pkt, pkt_spec, efvi_id.
  destruct (Z.ltb_spec len 60), (Z.leb_spec 60 len); try lia; [by exists s|].
  unfold prefix_ok in Hp. rewrite bind_get, <- Z.add_assoc.
  rewrite data_from_block by (change RX_DMA_OFF with 64; unfold sizeof_pkt_buf, PKT_BUF_SIZE; lia).
  pose proof (frame_at_length dma pl i Hdma Hp) as Hlen.
  assert (drop (Z.to_nat (RX_DMA_OFF + pl - sizeof_pkt_buf)) (dma i) = drop 6 (frame_at dma pl i)) as ->.
  { unfold frame_at. rewrite drop_drop. f_equal. change RX_DMA_OFF with 64. unfold sizeof_pkt_buf. lia. }
  destruct (feed_guard_total (drop 6 (frame_at dma pl i))) as [go Hgo]; [rewrite length_drop; lia|].
  cbn [access]. rewrite bind_ret_l, Hgo. cbn [access]. rewrite bind_ret_l.
  destruct go; cbn [negb]; [|by exists s].
  replace (buf_addr (pkt_bufs (res s)) i + (RX_DMA_OFF + pl) - 6)
    with (buf_addr (pkt_bufs (res s)) i + (pl + RX_DMA_OFF - 6)) by lia.
  rewrite data_from_block by (change RX_DMA_OFF with 64; unfold sizeof_pkt_buf, PKT_BUF_SIZE; lia).
  fold (frame_at dma pl i). cbn [access]. rewrite bind_ret_l. unfold on_frame.
  set (f0 := FState _ _ _ _). assert (Hf : fwf (Z.to_nat (1990 - pl)) f0) by (split; [exact Hlen|exact Hw]).
  destruct (decode_frame_total (packet_buf f0)) as [[ipid|] Hd]; [simpl; lia| |]; simpl in Hd; rewrite Hd.
  - destruct (handle_frame_feed h the_formats efvi_the_formats_ok _ (len - 36) f0 ipid Hf Hd)
      as (f' & evs & -> & (Hw1 & Hw2 & Hw3) & Hpr & Ht & He).
    eexists. split; [reflexivity|]. split; [split; [exact Hw2|exact Hw3]|]. simpl. eauto 10.
  - rewrite (handle_frame_skip h the_formats _ (len - 36) f0 Hf Hd). eexists. split; [reflexivity|].
    split; [exact Hw|]. simpl. split; [done|]. split; [done|]. by destruct s.
Qed.
End PktFacts.

(** ** Events *)

Definition is_rx (e : ef_event) : bool := EF_EVENT_TYPE e =? ef_event_type_val EF_EVENT_TYPE_RX.

(** The packet of the event lies in one buffer. *)
Definition whole_event (e : ef_event) : bool :=
  negb (is_rx e) || (negb (EF_EVENT_RX_SOP e =? 0) && (EF_EVENT_RX_CONT e =? 0)).

Definition returned (e : ef_event) : list Z := option_list (returns_buffer e).

Section EventFacts.
#[local] Opaque printf EF_EVENT_TYPE EF_EVENT_RX_RQ_ID EF_EVENT_RX_BYTES EF_EVENT_RX_SOP EF_EVENT_RX_CONT
  EF_EVENT_RX_DISCARD_RQ_ID EF_EVENT_RX_DISCARD_TYPE EF_EVENT_RX_DISCARD_BYTES.
Context (h : handler_full) `{!HandlerFull h} (dma : contents) (Hdma : blocks_ok dma).

(** What an event shows, and what it counts. *)
Definition event_spec (e : ef_event) (s s' : client) : Prop :=
  let len := EF_EVENT_RX_BYTES e - res_rx_prefix_len (res s) in
  let pkt := frame_at dma (res_rx_prefix_len (res s)) (EF_EVENT_RX_RQ_ID e) in
  if is_rx e then
    n_rx_pkts (res s') = u64 (n_rx_pkts (res s) + 1) /\
    n_rx_bytes (res s') = u64 (n_rx_bytes (res s) + len) /\
    match efvi_id len pkt with
    | Some ipid =>
        c_prev_ip_id s' = ipid /\
        exists evs, c_trace s' = c_trace s ++ evs /\
          frame_events h the_formats (c_prev_ip_id s) ipid (len - 36) pkt evs
    | None => c_prev_ip_id s' = c_prev_ip_id s /\ c_trace s' = c_trace s
    end
  else
    n_rx_pkts (res s') = n_rx_pkts (res s) /\ n_rx_bytes (res s') = n_rx_bytes (res s) /\
    c_prev_ip_id s' = c_prev_ip_id s /\ exists line, c_trace s' = c_trace s ++ [Stderr line].

(** Everything but the buffers, between two states. *)
Definition same_client (s s' : client) : Prop :=
  same_config (res s) (res s') /\ vi (res s') = vi (res s) /\ cstop s' = cstop s.

Lemma TEST_fail x file line s : exists s', TEST (S := client) x file line false s = (s', Abort).
Proof.
  unfold TEST. destruct (LOG_ok ("ERROR: TEST(%s) failed" ++ nl) _ [AStr (bytes_of_string x)] s eq_refl)
    as [l1 E1]; [repeat constructor|]. rewrite (bind_Ok _ _ _ _ _ E1).
  destruct (LOG_ok ("ERROR: at %s:%d" ++ nl) _ [AStr (bytes_of_string file); AInt line]
              (add_io (Stderr l1) s) eq_refl) as [l2 E2]; [repeat constructor|].
  rewrite (bind_Ok _ _ _ _ _ E2). eauto.
Qed.

(** A buffer that the client received is freed exactly once. *)
Lemma handle_rx_ok s fl lent i len : cwf s -> prefix_ok (res_rx_prefix_len (res s)) ->
  owned (res s) fl (i :: lent) ->
  exists s', handle_rx h dma i len s = (s', Ok tt) /\ cwf s' /\
    owned (res s') (i :: fl) lent /\ same_client s s' /\
    n_rx_pkts (res s') = u64 (n_rx_pkts (res s) + 1) /\
    n_rx_bytes (res s') = u64 (n_rx_bytes (res s) + len) /\
    match efvi_id len (frame_at dma (res_rx_prefix_len (res s)) i) with
    | Some ipid => c_prev_ip_id s' = ipid /\
        exists evs, c_trace s' = c_trace s ++ evs /\ frame_events h the_formats (c_prev_ip_id s) ipid
          (len - 36) (frame_at dma (res_rx_prefix_len (res s)) i) evs
    | None => c_prev_ip_id s' = c_prev_ip_id s /\ c_trace s' = c_trace s
    end.
Proof.
  intros Hw Hp Ho. pose proof (owned_lent _ _ _ _ Ho) as Hi.
  pose proof (owned_bound _ _ _ Ho) as Hbd. destruct (ow_bufs _ _ _ Ho i Hi) as (b & Hl & Hid & Hrx).
  unfold handle_rx. rewrite (bind_Ok _ _ _ _ _ (pkt_buf_from_id_ok s i Hi ltac:(lia))).
  assert (Hd : deref (Some (buf_addr (pkt_bufs (res s)) i)) s = (s, Ok b))
    by (unfold deref; cunfold; by rewrite Hl).
  rewrite (bind_Ok _ _ _ _ _ Hd), Hrx.
  destruct (handle_pkt_ok h dma Hdma s i len Hw Hi Hp) as (s1 & E1 & Hw1 & Hr1 & Hst & Hspec).
  unfold handle_rx_core. rewrite bind_assoc, (bind_Ok _ _ _ _ _ E1). unfold on_res at 1.
  rewrite bind_modify. set (s2 := Client _ _ _ _ _ _ _).
  assert (Ho2 : owned (res s2) fl (i :: lent)).
  { unfold s2. cbn [res]. rewrite Hr1. destruct Ho. by split. }
  replace (pkt_bufs (res s)) with (pkt_bufs (res s2)) by (unfold s2; cbn [res]; by rewrite Hr1).
  destruct (pkt_buf_free_ok s2 fl lent i Ho2) as (r3 & E3 & Ho3 & Hc3 & Hv3 & Hp3 & Hb3).
  eexists. split; [exact E3|]. split; [exact Hw1|]. split; [exact Ho3|].
  unfold same_client. cbn [res with_res].
  split; [|split; [|split]].
  - split; [|split; [|exact Hst]].
    + transitivity (res s2); [|exact Hc3]. unfold s2. cbn [res]. rewrite Hr1. by repeat split.
    + rewrite Hv3. unfold s2. cbn [res]. by rewrite Hr1.
  - rewrite Hp3. unfold s2. cbn. by rewrite Hr1.
  - rewrite Hb3. unfold s2. cbn. by rewrite Hr1.
  - cbn. destruct (efvi_id len _); [exact Hspec|]. by rewrite Hspec.
Qed.

Lemma handle_event_ok e s fl lent : whole_event e = true -> cwf s ->
  prefix_ok (res_rx_prefix_len (res s)) -> owned (res s) fl (returned e ++ lent) ->
  exists s', handle_event h dma e s = (s', Ok tt) /\ cwf s' /\
    owned (res s') (returned e ++ fl) lent /\ same_client s s' /\ event_spec e s s'.
Proof.
  intros Hwh Hw Hp Ho. unfold handle_event, event_spec, returned, returns_buffer in *.
  fold (is_rx e) in *. unfold whole_event in Hwh. destruct (is_rx e); cbn [negb orb] in Hwh.
  { rewrite Hwh. unfold TEST. rewrite bind_ret_l, bind_get. cbn [option_list app] in *.
    pose proof (owned_lent _ _ _ _ Ho).
    pose proof (owned_bound _ _ _ Ho). rewrite swrap_small by lia.
    destruct (handle_rx_ok s fl lent (EF_EVENT_RX_RQ_ID e) (EF_EVENT_RX_BYTES e - res_rx_prefix_len (res s)) Hw Hp Ho)
      as (s' & E & ? & ? & ? & ? & ? & ?). exists s'. repeat (split; [assumption|]). assumption. }
  destruct (EF_EVENT_TYPE e =? ef_event_type_val EF_EVENT_TYPE_RX_DISCARD); cbn [option_list app] in *.
  - rewrite bind_get. unfold handle_rx_discard.
    destruct (LOG_ok ("ERROR: discard type=%d" ++ nl) _ [AInt (EF_EVENT_RX_DISCARD_TYPE e)] s eq_refl)
      as [line E]; [repeat constructor|]. rewrite (bind_Ok _ _ _ _ _ E). set (s1 := add_io _ s).
    pose proof (owned_lent _ _ _ _ Ho).
    pose proof (owned_bound _ _ _ Ho). rewrite swrap_small by lia.
    assert (E2 : pkt_buf_from_id (EF_EVENT_RX_DISCARD_RQ_ID e) s1 = (s1, Ok (buf_addr (pkt_bufs (res s1)) (EF_EVENT_RX_DISCARD_RQ_ID e))))
      by (apply pkt_buf_from_id_ok; cbn; lia).
    rewrite (bind_Ok _ _ _ _ _ E2).
    destruct (pkt_buf_free_ok s1 fl lent (EF_EVENT_RX_DISCARD_RQ_ID e) Ho) as (r' & E3 & Ho3 & Hc3 & Hv3 & Hp3 & Hb3).
    eexists. split; [exact E3|]. split; [exact Hw|]. split; [exact Ho3|].
    split; [split; [exact Hc3|split; [exact Hv3|done]]|]. cbn. eauto 10.
  - destruct (LOG_ok ("ERROR: unexpected event type=%d" ++ nl) _ [AInt (EF_EVENT_TYPE e)] s eq_refl)
      as [line E]; [repeat constructor|]. eexists. split; [exact E|]. split; [exact Hw|].
    split; [exact Ho|]. split; [by repeat split|]. cbn. eauto 10.
Qed.

(** A packet in several buffers stops the process. *)
Lemma handle_event_abort e s : whole_event e = false -> exists s', handle_event h dma e s = (s', Abort).
Proof.
  unfold whole_event, handle_event. fold (is_rx e). destruct (is_rx e); cbn [negb orb]; [|done]. intros ->.
  destruct (TEST_fail "EF_EVENT_RX_SOP(evs[i]) && ! EF_EVENT_RX_CONT(evs[i])" "mc_client_efvi.cpp" 194 s)
    as [s' E]. exists s'. unfold bind. by rewrite E.
Qed.

(** The events of a poll, one after the other. *)
Fixpoint events_spec (evs : list ef_event) (s s' : client) : Prop :=
  match evs with
  | [] => s' = s
  | e :: evs' => exists s1, event_spec e s s1 /\ events_spec evs' s1 s'
  end.

Lemma handle_events_ok evs : forall s fl, forallb whole_event evs = true -> cwf s ->
  prefix_ok (res_rx_prefix_len (res s)) -> owned (res s) fl (omap returns_buffer evs) ->
  exists s', handle_events h dma evs s = (s', Ok tt) /\ cwf s' /\
    owned (res s') (reverse (omap returns_buffer evs) ++ fl) [] /\ same_client s s' /\
    events_spec evs s s'.
Proof.
  induction evs as [|e evs IH]; intros s fl Hwh Hw Hp Ho.
  { exists s. by repeat split; try apply Hw; try apply Ho. }
  cbn [forallb] in Hwh. apply andb_prop in Hwh as [He Hwh].
  assert (Hl : omap returns_buffer (e :: evs) = returned e ++ omap returns_buffer evs)
    by (unfold returned; cbn [omap list_omap]; by destruct (returns_buffer e)).
  rewrite Hl in *.
  destruct (handle_event_ok e s fl _ He Hw Hp Ho) as (s1 & E1 & Hw1 & Ho1 & (Hc1 & Hv1 & Hst1) & Hs1).
  assert (Hp1 : prefix_ok (res_rx_prefix_len (res s1))) by (destruct Hc1 as (_ & _ & -> & _); exact Hp).
  destruct (IH s1 (returned e ++ fl) Hwh Hw1 Hp1 Ho1) as (s2 & E2 & Hw2 & Ho2 & (Hc2 & Hv2 & Hst2) & Hs2).
  exists s2. cbn [handle_events]. rewrite (bind_Ok _ _ _ _ _ E1). split; [exact E2|]. split; [exact Hw2|].
  split; [|split; [|exists s1; by split]].
  - rewrite reverse_app, <- app_assoc. unfold returned in *. by destruct (returns_buffer e).
  - split; [by transitivity (res s1)|]. split; congruence.
Qed.

Lemma handle_events_abort evs : forall s fl, forallb whole_event evs = false -> cwf s ->
  prefix_ok (res_rx_prefix_len (res s)) -> owned (res s) fl (omap returns_buffer evs) ->
  exists s', handle_events h dma evs s = (s', Abort).
Proof.
  induction evs as [|e evs IH]; intros s fl Hwh Hw Hp Ho; [done|].
  cbn [forallb] in Hwh. cbn [handle_events]. destruct (whole_event e) eqn:He.
  - assert (Hl : omap returns_buffer (e :: evs) = returned e ++ omap returns_buffer evs)
      by (unfold returned; cbn [omap list_omap]; by destruct (returns_buffer e)).
    rewrite Hl in *.
    destruct (handle_event_ok e s fl _ He Hw Hp Ho) as (s1 & E1 & Hw1 & Ho1 & (Hc1 & _) & _).
    rewrite (bind_Ok _ _ _ _ _ E1). apply (IH s1 (returned e ++ fl)); [done|done| |done].
    destruct Hc1 as (_ & _ & -> & _). exact Hp.
  - destruct (handle_event_abort e s He) as [s' E]. exists s'. unfold bind. by rewrite E.
Qed.
End EventFacts.

(** ** The loop *)

(** A client in its loop: nothing is lent, every buffer is accounted for. *)
Definition ready (s : client) : Prop :=
  cwf s /\ cstop s = 1 /\ prefix_ok (res_rx_prefix_len (res s)) /\ exists fl, owned (res s) fl [].

(** The adapter delivers every packet into one buffer. *)
Definition whole_packets {net} (ops : vi_ops net) : Prop :=
  forall w v n, forallb whole_event (snd (op_eventq_poll ops w v n)) = true.

Section LoopFacts.
Context {net : Type} (ops : vi_ops net) `{!VIOps ops} (h : handler_full) `{!HandlerFull h}.

Lemma poll_evq_ok dma w s fl : blocks_ok dma -> cwf s -> prefix_ok (res_rx_prefix_len (res s)) ->
  owned (res s) fl [] ->
  let '(vi', evs) := op_eventq_poll ops w (vi (res s)) EV_POLL_BATCH_SIZE in
  if forallb whole_event evs then
    exists s', poll_evq h ops dma w s = (s', Ok (Z.of_nat (length evs))) /\ cwf s' /\
      owned (res s') (reverse (omap returns_buffer evs) ++ fl) [] /\ same_config (res s) (res s') /\
      cstop s' = cstop s /\ events_spec h dma evs (with_res s (set_vi vi' (res s))) s'
  else exists s', poll_evq h ops dma w s = (s', Abort).
Proof.
  intros Hdma Hw Hp Ho. pose proof (poll_returns w (vi (res s)) EV_POLL_BATCH_SIZE (ow_vi _ _ _ Ho)) as Hpoll.
  unfold poll_evq. destruct (op_eventq_poll ops w (vi (res s)) EV_POLL_BATCH_SIZE) as [vi' evs] eqn:E.
  destruct Hpoll as (_ & Hv' & (Hm & Hpl) & Hpend); [unfold EV_POLL_BATCH_SIZE; lia|].
  set (s1 := with_res s (set_vi vi' (res s))).
  assert (Ho1 : owned (res s1) fl (omap returns_buffer evs)).
  { destruct Ho as [Hv Hn Hc Hk Hperm Hb]. split; simpl; [exact Hv'| |done|done| |exact Hb].
    - unfold ef_vi_receive_capacity in *. by rewrite Hm.
    - rewrite <- Hperm, Hpend. done. }
  rewrite bind_get, E. unfold on_res. rewrite bind_modify. fold (with_res s (set_vi vi' (res s))). fold s1.
  destruct (forallb whole_event evs) eqn:Hwh.
  - destruct (handle_events_ok h dma Hdma evs s1 fl Hwh Hw Hp Ho1) as (s2 & E2 & Hw2 & Ho2 & (Hc2 & Hv2 & Hst2) & Hs2).
    exists s2. rewrite (bind_Ok _ _ _ _ _ E2). split; [done|]. split; [done|]. split; [done|].
    split; [exact Hc2|]. by split.
  - destruct (handle_events_abort h dma Hdma evs s1 fl Hwh Hw Hp Ho1) as [s2 E2].
    exists s2. unfold bind. by rewrite E2.
Qed.

(** A pass keeps the client ready, or aborts on a packet in several buffers. *)
Lemma loop_body_ok i s : blocks_ok (snd i) -> ready s ->
  exists s' o, loop_body h ops i s = (s', o) /\
    ((o = Ok LNext /\ ready s' /\ same_config (res s) (res s')) \/ (o = Abort /\ ~ whole_packets ops)).
Proof.
  intros Hdma (Hw & Hst & Hp & fl & Ho). unfold loop_body. rewrite bind_get, Hst. change (1 =? 0) with false.
  cbv iota. destruct (refill_rx_ring_ok ops s fl [] Ho) as (r1 & b & j & E1 & _ & Ho1 & Hc1 & _).
  rewrite (bind_Ok _ _ _ _ _ E1). set (s1 := with_res s r1).
  assert (Hp1 : prefix_ok (res_rx_prefix_len (res s1))) by (destruct Hc1 as (_ & _ & Heq & _); simpl; by rewrite Heq).
  pose proof (poll_evq_ok (snd i) (fst i) s1 _ Hdma Hw Hp1 Ho1) as Hpoll.
  destruct (op_eventq_poll ops (fst i) (vi (res s1)) EV_POLL_BATCH_SIZE) as [vi' evs] eqn:E.
  destruct (forallb whole_event evs) eqn:Hwh.
  - destruct Hpoll as (s2 & E2 & Hw2 & Ho2 & Hc2 & Hst2 & _). exists s2, (Ok LNext).
    rewrite (bind_Ok _ _ _ _ _ E2). split; [done|]. left. split; [done|]. split.
    + split; [exact Hw2|]. split; [by rewrite Hst2|].
      split; [destruct Hc2 as (_ & _ & -> & _); exact Hp1|]. eauto.
    + transitivity r1; [exact Hc1|exact Hc2].
  - destruct Hpoll as (s2 & E2). exists s2, Abort. unfold bind. rewrite E2. split; [done|]. right.
    split; [done|]. intros Hall. specialize (Hall (fst i) (vi (res s1)) EV_POLL_BATCH_SIZE).
    rewrite E in Hall. simpl in Hall. congruence.
Qed.
End LoopFacts.

Lemma event_loop_ok {net} (ops : vi_ops net) `{!VIOps ops} (h : handler_full) `{!HandlerFull h} ins s :
  Forall (fun i => blocks_ok (snd i)) ins -> ready s ->
  exists s' o, event_loop_low_latency h ops ins s = (s', o) /\
    ((o = Ok tt /\ ready s' /\ same_config (res s) (res s')) \/ (o = Abort /\ ~ whole_packets ops)).
Proof.
  intros Hins. revert s. induction Hins as [|i ins Hi _ IH]; intros s Hr.
  { exists s, (Ok tt). split; [done|]. left. by split. }
  unfold event_loop_low_latency. cbn [serve].
  destruct (loop_body_ok ops h i s Hi Hr) as (s1 & o & E & [(-> & Hr1 & Hc1)|(-> & Hn)]).
  - rewrite (bind_Ok _ _ _ _ _ E). destruct (IH s1 Hr1) as (s2 & o & E2 & [(-> & Hr2 & Hc2)|(-> & Hn)]).
    + exists s2, (Ok tt). split; [exact E2|]. left. split; [done|]. split; [done|]. by transitivity (res s1).
    + exists s2, Abort. split; [exact E2|]. by right.
  - exists s1, Abort. split; [unfold bind; by rewrite E|]. by right.
Qed.

(** ** Initialisation *)

(** A counting loop under an invariant on the index. *)
Lemma for_upto_ok {S} n (body : Z -> cm S unit) (P : Z -> S -> Prop) s : 0 <= n ->
  P 0 s -> (forall i s, 0 <= i < n -> P i s -> exists s', body i s = (s', Ok tt) /\ P (i + 1) s') ->
  exists s', for_upto n body s = (s', Ok tt) /\ P n s'.
Proof.
  intros Hn H0 Hb. unfold for_upto.
  enough (forall len start s, Z.of_nat start + Z.of_nat len = n -> P (Z.of_nat start) s ->
    exists s', fold_right (fun i k => body (Z.of_nat i) ;;; k) (ret tt) (seq start len) s = (s', Ok tt) /\
      P n s') as H by (apply (H (Z.to_nat n) 0%nat); [lia|exact H0]).
  clear s H0. induction len as [|len IH]; intros start s Hl HP; cbn [seq fold_right].
  - exists s. split; [done|]. by replace n with (Z.of_nat start) by lia.
  - destruct (Hb (Z.of_nat start) s ltac:(lia) HP) as (s1 & E & HP1). rewrite (bind_Ok _ _ _ _ _ E).
    apply (IH (Datatypes.S start)); [lia|]. by replace (Z.of_nat (Datatypes.S start)) with (Z.of_nat start + 1) by lia.
Qed.

Lemma all_ids_succ i : 0 <= i -> all_ids (i + 1) = all_ids i ++ [i].
Proof.
  intros Hi. unfold all_ids. replace (Z.to_nat (i + 1)) with (Z.to_nat i + 1)%nat by lia.
  rewrite seq_app, map_app. simpl. do 2 f_equal. lia.
Qed.

Lemma fresh_heap_lookup p m n i : 0 <= i < Z.of_nat n -> is_Some (fresh_heap p m n !! buf_addr p i).
Proof.
  induction n as [|n IH]; intros Hi; [lia|]. cbn [fresh_heap].
  destruct (decide (i = Z.of_nat n)) as [->|Hne]; [rewrite lookup_insert_eq; eauto|].
  rewrite lookup_insert_ne by (intros E%buf_addr_inj; congruence). apply IH. lia.
Qed.

(** After [i] passes of the first loop: the first [i] buffers are set up and on
    the free list, the last one first. *)
Record set_up (v : ef_vi) (p n pl i : Z) (r : resources) : Prop := SetUp {
  su_vi : vi r = v;
  su_p : pkt_bufs r = p;
  su_n : pkt_bufs_n r = n;
  su_pl : res_rx_prefix_len r = pl;
  su_heap : forall j, 0 <= j < n -> exists b, heap r !! buf_addr p j = Some b /\
    (j < i -> id b = j /\ rx_ptr b = buf_addr p j + RX_DMA_OFF + pl);
  su_chain : chain (heap r) p (free_pkt_bufs r) (reverse (all_ids i));
  su_count : free_pkt_bufs_n r = i;
  su_stats : n_rx_pkts r = 0 /\ n_rx_bytes r = 0
}.

Lemma init_buf_ok v p n pl i s : 0 <= i < n -> n < 2 ^ 32 -> set_up v p n pl i (res s) ->
  exists r', init_buf i s = (with_res s r', Ok tt) /\ memreg r' = memreg (res s) /\
    set_up v p n pl (i + 1) r'.
Proof.
  intros Hi Hn Hu. destruct Hu as [Hv Hp Hpn Hpl Hh Hc Hk Hs].
  unfold init_buf. rewrite (bind_Ok _ _ _ _ _ (pkt_buf_from_id_ok s i ltac:(lia) ltac:(lia))).
  rewrite bind_get, Hp, Hpl. destruct (Hh i Hi) as (b & Hl & _).
  unfold pkt_buf_free, update, deref. cunfold. rewrite Hl. cbn. rewrite lookup_insert_eq. cbn.
  rewrite lookup_insert_eq. cbn. eexists. split; [reflexivity|]. split; [reflexivity|].
  rewrite !insert_insert_eq. split; cbn; try done; try lia.
  - intros j Hj. destruct (decide (j = i)) as [->|Hne].
    + eexists. split; [apply lookup_insert_eq|]. done.
    + rewrite lookup_insert_ne by (intros E%buf_addr_inj; congruence).
      destruct (Hh j Hj) as (b' & Hb' & H'). exists b'. split; [done|]. intros ?. apply H'. lia.
  - rewrite all_ids_succ, reverse_app by lia. cbn. split; [done|]. eexists. split; [apply lookup_insert_eq|].
    cbn. apply chain_insert; [|done]. rewrite elem_of_reverse, all_ids_elem. lia.
Qed.

(** The second loop writes the I/O addresses. *)
Definition addrs_set (addrs : list Z) (i : Z) (r : resources) : Prop :=
  memreg r = Memreg addrs /\
  forall j, 0 <= j < i -> exists b, heap r !! buf_addr (pkt_bufs r) j = Some b /\
    ef_memreg_dma_addr (Memreg addrs) (j * PKT_BUF_SIZE) = Some (efvi_addr b).

(** A change of [efvi_addr] keeps the links. *)
Lemma chain_readdress h base p fl i b d : chain h base p fl -> h !! buf_addr base i = Some b ->
  chain (<[buf_addr base i := PktBuf d (rx_ptr b) (id b) (next b)]> h) base p fl.
Proof.
  revert p. induction fl as [|j fl IH]; intros p Hc Hb; [done|].
  destruct Hc as (Hp & b' & Hb' & Hc). split; [done|].
  destruct (decide (j = i)) as [->|Hne].
  - exists (PktBuf d (rx_ptr b) (id b) (next b)). split; [apply lookup_insert_eq|].
    rewrite Hb in Hb'. injection Hb' as <-. by apply IH.
  - exists b'. rewrite lookup_insert_ne by (intros E%buf_addr_inj; congruence). split; [done|]. by apply IH.
Qed.

Lemma init_addr_ok v p n pl addrs i s : 0 <= i < n -> n * PKT_BUF_SIZE < 2 ^ 31 ->
  n <= 2 * Z.of_nat (length addrs) ->
  set_up v p n pl n (res s) -> addrs_set addrs i (res s) ->
  exists r', init_addr i s = (with_res s r', Ok tt) /\ set_up v p n pl n r' /\ addrs_set addrs (i + 1) r'.
Proof.
  intros Hi Hn Hlen Hu [Hm Ha]. pose proof Hu as [Hv Hp Hpn Hpl Hh Hc Hk Hs]. unfold PKT_BUF_SIZE in Hn.
  unfold init_addr. rewrite (bind_Ok _ _ _ _ _ (pkt_buf_from_id_ok s i ltac:(lia) ltac:(lia))).
  rewrite bind_get, Hp, Hm.
  assert (mul_int i PKT_BUF_SIZE = Some (i * PKT_BUF_SIZE)) as ->.
  { unfold mul_int, PKT_BUF_SIZE. destruct (Z.leb_spec (- 2 ^ 31) (i * 2048)), (Z.ltb_spec (i * 2048) (2 ^ 31)); try lia. done. }
  cbn [access]. rewrite bind_ret_l.
  destruct (ef_memreg_dma_addr (Memreg addrs) (i * PKT_BUF_SIZE)) as [d|] eqn:Ed.
  2:{ exfalso. unfold ef_memreg_dma_addr in Ed. cbn [mr_dma_addrs] in Ed.
      destruct (addrs !! _) eqn:El; [done|]. apply lookup_ge_None in El.
      rewrite Z.shiftr_div_pow2 in El by (unfold EF_VI_NIC_PAGE_SHIFT; lia).
      unfold EF_VI_NIC_PAGE_SHIFT, PKT_BUF_SIZE in El.
      assert (i * 2048 / 2 ^ 12 < Z.of_nat (length addrs)) by (apply Z.div_lt_upper_bound; lia). lia. }
  cbn [access]. rewrite bind_ret_l. destruct (Hh i Hi) as (b & Hl & Hb). destruct (Hb ltac:(lia)) as [Hid Hrx].
  unfold update, deref. cunfold. rewrite Hl. cbn. eexists. split; [reflexivity|]. split.
  - split; cbn; try done.
    + intros j Hj. destruct (decide (j = i)) as [->|Hne].
      * eexists. split; [apply lookup_insert_eq|]. done.
      * rewrite lookup_insert_ne by (intros E%buf_addr_inj; congruence). by apply Hh.
    + by apply chain_readdress.
  - split; [exact Hm|]. cbn. rewrite Hp in *. intros j Hj. destruct (decide (j = i)) as [->|Hne].
    + eexists. split; [apply lookup_insert_eq|]. done.
    + rewrite lookup_insert_ne by (intros E%buf_addr_inj; congruence). apply Ha. lia.
Qed.

Section InitFacts.
#[local] Opaque printf.
Context {net FS : Type} (ops : vi_ops net) `{!VIOps ops} (env : init_env FS).

(** With a whole number of batches the loop ends, and every buffer is posted. *)
Lemma fill_ring_ok m : forall fuel s fl, (m < fuel)%nat -> owned (res s) fl [] ->
  length fl = (16 * m)%nat -> refill_level (res s) = pkt_bufs_n (res s) - 16 ->
  exists r', fill_ring ops fuel s = (with_res s r', Ok tt) /\ owned r' [] [] /\
    same_config (res s) r' /\ kept (res s) r' /\ rx_pending (vi r') = rx_pending (vi (res s)) ++ fl.
Proof.
  induction m as [m IH] using lt_wf_ind. intros [|fuel] s fl Hf Ho Hlen Hlv; [lia|].
  cbn [fill_ring]. rewrite bind_get. pose proof (owned_sizes _ _ _ Ho) as Hs. simpl in Hs.
  destruct (Z.leb_spec (ef_vi_receive_fill_level (vi (res s))) (refill_level (res s))) as [Hle|Hgt].
  - destruct (refill_rx_ring_ok ops s fl [] Ho) as (r1 & b & j & E1 & Hj & Ho1 & Hc1 & Hp1 & Hb & _ & Hj1 & _ & _ & Hk1).
    assert (b = true) as -> by (destruct b; [done|]; destruct (proj1 Hb eq_refl); lia).
    specialize (Hj1 eq_refl). rewrite (bind_Ok _ _ _ _ _ E1).
    destruct (IH (m - j)%nat ltac:(lia) fuel (with_res s r1) (drop (16 * j) fl)) as (r2 & E2 & Ho2 & Hc2 & Hk2 & Hp2);
      [lia|exact Ho1|rewrite length_drop; lia| |].
    { destruct Hc1 as (_ & Hn & _ & Hl & _). simpl. congruence. }
    exists r2. simpl in *. split; [exact E2|]. split; [done|]. split; [by transitivity r1|].
    split; [by transitivity r1|]. by rewrite Hp2, Hp1, <- app_assoc, take_drop.
  - assert (fl = []) as -> by (destruct fl; [done|]; simpl in *; lia).
    exists (res s). rewrite app_nil_r. split; [by destruct s|]. by repeat split; try apply Ho.
Qed.

Lemma cprintf_ok f ps args (s : client) : parse_format PLit f = Some ps -> fits (convs ps) args ->
  exists line, cprintf f args s = (add_io (Stdout line) s, Ok tt).
Proof.
  intros Hp Hf. destruct (printf_fits f ps args Hp Hf) as [line Hl]. exists line. wunfold. by rewrite Hl.
Qed.

(** The calls succeed on an adapter with a ring of [2^k] descriptors, empty,
    and enough DMA addresses for the buffers. *)
Record init_good (k : Z) : Prop := InitGood {
  ig_k : 5 <= k <= 20;
  ig_calloc : e_calloc env = true;
  ig_open : 0 <= rc_of (e_driver_open env);
  ig_pd : 0 <= rc_of (e_pd_alloc env);
  ig_vi_alloc : 0 <= rc_of (e_vi_alloc env);
  ig_vi : vi_wf (e_vi env);
  ig_mask : rxq_mask (vi_rxq (e_vi env)) = 2 ^ k - 1;
  ig_empty : ef_vi_receive_fill_level (e_vi env) = 0;
  ig_prefix : prefix_ok (rx_prefix_len (e_vi env));
  ig_mem : is_Some (e_mmap env) \/ fst (e_memalign env) = 0;
  ig_memreg : 0 <= rc_of (e_memreg env);
  ig_addrs : 2 ^ (k - 1) - 8 <= Z.of_nat (length (e_dma_addrs env));
  ig_sniff : 0 <= rc_of (snd (fl_set (e_filter_lib env) (set_port_sniff 1)
                                (fl_init (e_filter_lib env) EF_FILTER_FLAG_NONE)));
  ig_filter : 0 <= rc_of (e_filter_add env (fst (fl_set (e_filter_lib env) (set_port_sniff 1)
                                (fl_init (e_filter_lib env) EF_FILTER_FLAG_NONE))))
}.

(** The first loop on fresh memory. *)
Lemma init_bufs_ok p n pl s : 0 <= n < 2 ^ 32 -> res_rx_prefix_len (res s) = pl ->
  pkt_bufs (res s) = p -> pkt_bufs_n (res s) = n ->
  heap (res s) = fresh_heap p (e_memory env) (Z.to_nat n) ->
  free_pkt_bufs (res s) = None -> free_pkt_bufs_n (res s) = 0 ->
  n_rx_pkts (res s) = 0 /\ n_rx_bytes (res s) = 0 ->
  exists r', for_upto n init_buf s = (with_res s r', Ok tt) /\ set_up (vi (res s)) p n pl n r'.
Proof.
  intros Hn Hpl Hp Hpn Hh Hf Hc Hs.
  destruct (for_upto_ok n init_buf (fun i s' => exists r, s' = with_res s r /\ set_up (vi (res s)) p n pl i r) s)
    as (s' & E & r & -> & Hu); [lia| | |].
  - exists (res s). split; [by destruct s|]. split; try done. rewrite Hh. intros j Hj.
    destruct (fresh_heap_lookup p (e_memory env) (Z.to_nat n) j ltac:(lia)) as [b Hb].
    exists b. split; [done|lia].
  - intros i s' Hi (r & -> & Hu).
    destruct (init_buf_ok _ _ _ _ i (with_res s r) Hi ltac:(lia) Hu) as (r' & E & _ & Hu').
    exists (with_res s r'). split; [exact E|]. by exists r'.
  - by exists r.
Qed.

(** The second loop. *)
Lemma init_addrs_ok v p n pl addrs s : 0 <= n -> n * PKT_BUF_SIZE < 2 ^ 31 ->
  n <= 2 * Z.of_nat (length addrs) -> set_up v p n pl n (res s) -> memreg (res s) = Memreg addrs ->
  exists r', for_upto n init_addr s = (with_res s r', Ok tt) /\ set_up v p n pl n r' /\ addrs_set addrs n r'.
Proof.
  intros Hn Hs Hlen Hu Hm.
  destruct (for_upto_ok n init_addr (fun i s' => exists r, s' = with_res s r /\ set_up v p n pl n r /\ addrs_set addrs i r) s)
    as (s' & E & r & -> & Hu' & Ha); [lia| | |].
  - exists (res s). split; [by destruct s|]. split; [done|]. split; [done|lia].
  - intros i s' Hi (r & -> & Hu' & Ha).
    destruct (init_addr_ok v p n pl addrs i (with_res s r) Hi Hs Hlen Hu' Ha) as (r' & E & Hu2 & Ha2).
    exists (with_res s r'). split; [exact E|]. by exists r'.
  - by exists r.
Qed.

(** After the loops every buffer is on the free list. *)
Lemma set_up_owned v p n pl r : vi_wf v -> 0 <= n <= ef_vi_receive_capacity v ->
  ef_vi_receive_fill_level v = 0 -> set_up v p n pl n r -> owned r (reverse (all_ids n)) [].
Proof.
  intros Hv Hn Hf [Hvi Hp Hpn Hpl Hh Hc Hk _].
  assert (Hpend : rx_pending v = []) by (apply nil_length_inv; pose proof (rx_pending_length v Hv); lia).
  split; rewrite ?Hvi, ?Hp, ?Hpn; try done.
  - rewrite Hk, length_reverse, all_ids_length. lia.
  - rewrite Hpend. cbn [app]. rewrite app_nil_r. apply reverse_Permutation.
  - intros i Hi. rewrite Hpn in Hi. rewrite Hp, Hpl. destruct (Hh i Hi) as (b & Hb & Hib). exists b.
    destruct (Hib ltac:(lia)). auto.
Qed.

(** The size of the buffers for a ring of [2^k] descriptors. *)
Lemma ring_sizes k : 5 <= k <= 20 -> exists m, 2 ^ k - 16 = 16 * Z.of_nat m /\ (1 <= m)%nat /\
  2 ^ (k - 1) - 8 = 8 * Z.of_nat m /\ (2 ^ k - 16) * PKT_BUF_SIZE < 2 ^ 31.
Proof.
  intros Hk. exists (Z.to_nat (2 ^ (k - 4) - 1)).
  assert (2 ^ k = 16 * 2 ^ (k - 4)) by (change 16 with (2 ^ 4); rewrite <- Z.pow_add_r by lia; f_equal; lia).
  assert (2 ^ (k - 1) = 8 * 2 ^ (k - 4)) by (change 8 with (2 ^ 3); rewrite <- Z.pow_add_r by lia; f_equal; lia).
  assert (2 ^ 1 <= 2 ^ (k - 4) <= 2 ^ 16) by (split; apply Z.pow_le_mono_r; lia).
  unfold PKT_BUF_SIZE. lia.
Qed.

Lemma alloc_bufs_ok n s : is_Some (e_mmap env) \/ fst (e_memalign env) = 0 ->
  exists p t, alloc_bufs env n s =
    (Client (main_interface s) (cfg_max_fill s) (cstop s) (c_prev_ip_id s) (c_output_data s) t (res s), Ok p).
Proof.
  intros Hm. unfold alloc_bufs. destruct (e_mmap env) as [p|].
  { exists p, (c_trace s). by destruct s. }
  destruct Hm as [[? ?]|Hm]; [done|]. rewrite Hm. unfold TEST. change (0 =? 0) with true. cbv iota.
  destruct (LOG_ok ("mmap() failed. Are huge pages configured?" ++ nl) _ [] s eq_refl) as [l E]; [constructor|].
  rewrite (bind_Ok _ _ _ _ _ E), bind_ret_l. by eexists _, _.
Qed.
End InitFacts.

(** One line of [init] that succeeds. *)
Ltac init_step :=
  match goal with
  | |- context [bind (LOG ?f ?args) ?k ?s] =>
      let l := fresh "l" in let E := fresh "E" in
      destruct (LOG_ok f _ args s eq_refl) as [l E]; [repeat constructor|];
      rewrite (bind_Ok _ k _ _ _ E); clear E
  | |- context [bind (cprintf ?f ?args) ?k ?s] =>
      let l := fresh "l" in let E := fresh "E" in
      destruct (cprintf_ok f _ args s eq_refl) as [l E]; [repeat constructor|];
      rewrite (bind_Ok _ k _ _ _ E); clear E
  | |- context [bind (TRY ?e ?x ?f ?l ?r) ?k ?s] =>
      rewrite (bind_Ok _ k _ _ _ (TRY_ok e x f l r s ltac:(assumption)))
  | |- context [bind get ?k ?s] => rewrite (bind_get k s)
  | |- context [bind (on_res ?g) ?k ?s] => unfold on_res at 1; rewrite (bind_modify _ k s)
  end.

(** [init] when every call succeeds. *)
Lemma init_reaches {net FS} (ops : vi_ops net) `{!VIOps ops} (env : init_env FS) k s :
  init_good env k -> cwf s -> cstop s = 1 ->
  exists s', init ops env s = (s', Ok 0) /\ ready s' /\
    pkt_bufs_n (res s') = 2 ^ k - 16 /\ free_pkt_bufs (res s') = None /\ free_pkt_bufs_n (res s') = 0 /\
    rx_pending (vi (res s')) = reverse (all_ids (2 ^ k - 16)) /\
    addrs_set (e_dma_addrs env) (2 ^ k - 16) (res s').
Proof.
  intros [Hk Hcal Hopen Hpd Hva Hvi Hmask Hempty Hpre Hmem Hmr Haddr Hsn Hfi] Hw Hst.
  destruct (ring_sizes k Hk) as (m & Hm & Hm1 & Hm2 & Hov).
  pose proof (capacity_mask _ Hvi) as [_ Hcap]. rewrite Hmask in Hcap.
  assert (Hcn : 2 ^ k - 1 - 15 = 2 ^ k - 16) by lia.
  assert (Hle : 2 ^ k - 16 <= 2 ^ k - 1) by lia.
  revert Hm Hov Hcn Hle. generalize (2 ^ k - 16). intros n Hm Hov Hcn Hle.
  assert (Hn : 0 <= n < 2 ^ 32) by (unfold PKT_BUF_SIZE in Hov; lia).
  assert (Hmul : mul_int n PKT_BUF_SIZE = Some (n * PKT_BUF_SIZE)).
  { unfold mul_int. unfold PKT_BUF_SIZE in *.
    destruct (Z.leb_spec (- 2 ^ 31) (n * 2048)), (Z.ltb_spec (n * 2048) (2 ^ 31)); try lia. done. }
  unfold init. rewrite Hcal. unfold TEST at 1. rewrite bind_ret_l.
  do 6 init_step. cbn [res vi set_prefix].
  rewrite Hcap, Hcn.
  unfold set_max_fill. rewrite bind_modify. do 4 init_step. rewrite Hmul. cbn [access]. rewrite bind_ret_l.
  init_step.
  match goal with |- context [bind (alloc_bufs env ?z) ?kk ?st] =>
    destruct (alloc_bufs_ok env z st Hmem) as (p & t1 & Eal); rewrite (bind_Ok _ kk _ _ _ Eal); clear Eal end.
  init_step.
  set (s1 := Client _ _ _ _ _ _ (set_bufs _ _ _ _)).
  assert (H1 : res_rx_prefix_len (res s1) = ef_vi_receive_prefix_len (e_vi env)) by reflexivity.
  assert (H2 : pkt_bufs (res s1) = p) by reflexivity.
  assert (H3 : pkt_bufs_n (res s1) = n) by reflexivity.
  assert (H4 : heap (res s1) = fresh_heap p (e_memory env) (Z.to_nat n)) by reflexivity.
  assert (H5 : free_pkt_bufs (res s1) = None) by reflexivity.
  assert (H6 : free_pkt_bufs_n (res s1) = 0) by reflexivity.
  assert (H7 : n_rx_pkts (res s1) = 0 /\ n_rx_bytes (res s1) = 0) by (split; reflexivity).
  destruct (init_bufs_ok env p n _ s1 Hn H1 H2 H3 H4 H5 H6 H7) as (r1 & E1 & Hu1).
  rewrite (bind_Ok _ _ _ _ _ E1).
  do 2 init_step.
  match goal with |- context [bind (for_upto n init_addr) ?kk ?st] =>
    destruct (init_addrs_ok (e_vi env) p n (ef_vi_receive_prefix_len (e_vi env)) (e_dma_addrs env) st)
      as (r2 & E2 & Hu2 & Ha2);
      [lia|exact Hov|lia|by destruct Hu1; split|reflexivity|]; rewrite (bind_Ok _ kk _ _ _ E2); clear E2 end.
  assert (Ho2 : owned r2 (reverse (all_ids n)) []).
  { apply (set_up_owned (e_vi env) p n (ef_vi_receive_prefix_len (e_vi env)) r2 Hvi); [rewrite Hcap; lia|done|done]. }
  init_step. set (s3 := Client _ _ _ _ _ _ (set_refill _ _ _)).
  assert (Ho3 : owned (res s3) (reverse (all_ids n)) []) by (destruct Ho2; by split).
  destruct (fill_ring_ok ops m (Z.to_nat n + 1) s3 (reverse (all_ids n))) as (r4 & E4 & Ho4 & Hc4 & Hk4 & Hp4);
    [lia|exact Ho3|rewrite length_reverse, all_ids_length; lia|simpl; by rewrite (su_n _ _ _ _ _ _ Hu2)|].
  rewrite (bind_Ok _ _ _ _ _ E4).
  unfold run_filter_parse. unfold bind at 1. rewrite filter_parse_sniff by exact Hsn. cbn [fst snd fp_fs fp_trace].
  change (negb (0 =? 0)) with false. cbv iota. do 2 init_step.
  eexists. split; [reflexivity|].
  match goal with |- ready ?st /\ _ =>
    assert (Hr4 : res st = r4) by reflexivity; assert (Hw4 : cwf st) by exact Hw;
    assert (Hst4 : cstop st = 1) by exact Hst; revert Hr4 Hw4 Hst4; generalize st end.
  intros s' Hr4 Hw4 Hst4. unfold ready. rewrite Hr4.
  destruct Hc4 as (Hc41 & Hc42 & Hc43 & _ & _ & Hc46). destruct Hk4 as (_ & _ & Hk4).
  assert (Hv3 : vi (res s3) = e_vi env) by exact (su_vi _ _ _ _ _ _ Hu2).
  assert (Hpl4 : res_rx_prefix_len r4 = rx_prefix_len (e_vi env)).
  { rewrite Hc43. change (res_rx_prefix_len (res s3)) with (res_rx_prefix_len r2).
    rewrite (su_pl _ _ _ _ _ _ Hu2). unfold ef_vi_receive_prefix_len, prefix_ok in *. apply swrap_small; lia. }
  split; [|split; [|split; [|split; [|split]]]].
  - split; [exact Hw4|]. split; [exact Hst4|]. split; [by rewrite Hpl4|]. by exists [].
  - rewrite Hc42. exact (su_n _ _ _ _ _ _ Hu2).
  - exact (ow_chain _ _ _ Ho4).
  - exact (ow_count _ _ _ Ho4).
  - rewrite Hp4, Hv3. assert (rx_pending (e_vi env) = []) as ->; [|done].
    apply nil_length_inv. pose proof (rx_pending_length _ Hvi). lia.
  - split; [rewrite Hc46; exact (proj1 Ha2)|]. rewrite Hk4, Hc41. exact (proj2 Ha2).
Qed.


(** C8: on an adapter with a ring of [2^k] descriptors, [5 <= k <= 20], where
    the calls succeed, [init] returns 0 with the client ready for its loop: all
    [2^k - 16] buffers are posted, the last one set up first, nothing is free,
    no product overflows, each structure holds the address of its own page, and
    the adapter was given the promiscuous sniff filter. *)
Theorem efvi_init_ready {net FS} (ops : vi_ops net) `{!VIOps ops} (env : init_env FS) k s :
  init_good env k -> cwf s -> cstop s = 1 ->
  exists s', init ops env s = (s', Ok 0) /\ ready s' /\
    pkt_bufs_n (res s') = 2 ^ k - 16 /\ free_pkt_bufs (res s') = None /\ free_pkt_bufs_n (res s') = 0 /\
    rx_pending (vi (res s')) = reverse (all_ids (2 ^ k - 16)) /\
    addrs_set (e_dma_addrs env) (2 ^ k - 16) (res s').
Proof. exact (init_reaches ops env k s). Qed.

(** C7: for every sequence of polls, whatever the network delivers and the
    packets hold, the event loop never leaves the registered memory, follows a
    null pointer or fails an assertion on a buffer: it keeps every buffer in
    exactly one place, and it stops only by aborting on a packet that the
    adapter split over buffers. *)
Theorem efvi_loop_conserves {net} (ops : vi_ops net) `{!VIOps ops} (h : handler_full) `{!HandlerFull h} ins s :
  Forall (fun i => blocks_ok (snd i)) ins -> ready s ->
  exists s' o, event_loop_low_latency h ops ins s = (s', o) /\
    ((o = Ok tt /\ ready s' /\ same_config (res s) (res s')) \/ (o = Abort /\ ~ whole_packets ops)).
Proof. exact (event_loop_ok ops h ins s). Qed.

(** ** A small adapter *)

(** A ring of 32 descriptors whose counters are about to wrap. *)
Definition demo_vi : ef_vi :=
  VI 0 0 1792 14 false (Txq 0 0 []) (Rxq 31 (replicate 32 0))
    (VIState (EventqState 0 0 0 0 0 0 0 0) (TxqState 0 0 0 0 0 0)
       (RxqState 4294967290 4294967290 4294967290 0 0 0 0)) 0 EF_VI_ARCH_EF10.

Definition demo_env : init_env (Z * list filter_call) :=
  InitEnv _ true (Res 0 0) (Res 0 0) (Res 0 0) demo_vi 512 None (0, 8192) (fun _ => PktBuf 0 0 0 None)
    (Res 0 0) [4096; 8192; 65536; 12288; 20480; 40960; 0; 16384] (log_lib (fun _ => None))
    (fun _ => Res 0 0) (0, []) (Tm 124 0 15 9 0 0) (fun _ => EmptyString).

Definition demo_client : client :=
  Client (zeros 8) (-1) 1 0 (zeros 256) [] zero_resources.

Lemma demo_vi_wf : vi_wf demo_vi.
Proof.
  split; [exists 5; split; [lia|reflexivity]|]. split; [reflexivity|].
  split; [apply Forall_replicate; lia|]. cbn. repeat split; try lia; done.
Qed.

Lemma demo_good : init_good demo_env 5.
Proof.
  split.
  - lia.
  - reflexivity.
  - cbn. lia.
  - cbn. lia.
  - cbn. lia.
  - apply demo_vi_wf.
  - reflexivity.
  - reflexivity.
  - unfold prefix_ok. cbn. lia.
  - by right.
  - cbn. lia.
  - vm_compute. discriminate.
  - vm_compute. discriminate.
  - vm_compute. discriminate.
Qed.

Lemma demo_cwf : cwf demo_client /\ cstop demo_client = 1.
Proof. split; [split; [reflexivity|cbn; lia]|reflexivity]. Qed.

Lemma efvi_init_ready_witness : exists s', init sim_ops demo_env demo_client = (s', Ok 0) /\ ready s' /\
  pkt_bufs_n (res s') = 2 ^ 5 - 16 /\ free_pkt_bufs (res s') = None /\ free_pkt_bufs_n (res s') = 0 /\
  rx_pending (vi (res s')) = reverse (all_ids (2 ^ 5 - 16)) /\
  addrs_set (e_dma_addrs demo_env) (2 ^ 5 - 16) (res s').
Proof. apply (efvi_init_ready sim_ops demo_env 5 demo_client demo_good); apply demo_cwf. Defined.

(** The client after [init], and three packets, one of them short. *)
Definition demo_start : client := fst (init sim_ops demo_env demo_client).

Lemma demo_ready : ready demo_start.
Proof.
  destruct (init_reaches sim_ops demo_env 5 demo_client demo_good) as (s' & E & Hr & _); try apply demo_cwf.
  unfold demo_start. by rewrite E.
Qed.

Lemma efvi_loop_conserves_witness : exists s' o,
  event_loop_low_latency copy_full sim_ops [([100; 60; 64], fun _ => zeros 2016)] demo_start = (s', o) /\
    ((o = Ok tt /\ ready s' /\ same_config (res demo_start) (res s')) \/ (o = Abort /\ ~ whole_packets sim_ops)).
Proof.
  apply (efvi_loop_conserves sim_ops copy_full); [|apply demo_ready].
  apply Forall_singleton. intros i. reflexivity.
Defined.

(** A call of [refill_rx_ring] moves a whole number of batches of 16 from
    the head of the free list to the tail of the ring, in order, within the
    capacity of the ring.  It returns false and does nothing exactly when the
    ring is above [refill_level] or less than a batch is free; when it returns
    true it stopped at [refill_min] or for want of a batch. *)
Lemma efvi_refill_exact {net} (ops : vi_ops net) `{!VIOps ops} s fl :
  owned (res s) fl [] ->
  exists r' b j, refill_rx_ring ops s = (with_res s r', Ok b) /\ owned r' (drop (16 * j) fl) [] /\
    rx_pending (vi r') = rx_pending (vi (res s)) ++ take (16 * j) fl /\
    ef_vi_receive_fill_level (vi r') = ef_vi_receive_fill_level (vi (res s)) + 16 * Z.of_nat j /\
    ef_vi_receive_fill_level (vi r') <= ef_vi_receive_capacity (vi r') /\
    (b = false <-> refill_level (res s) < ef_vi_receive_fill_level (vi (res s)) \/ free_pkt_bufs_n (res s) < 16) /\
    (b = false -> r' = res s) /\
    (b = true -> (1 <= j)%nat /\
                 (refill_min r' <= ef_vi_receive_fill_level (vi r') \/ free_pkt_bufs_n r' < 16)).
Proof.
  intros Ho. destruct (refill_rx_ring_ok ops s fl [] Ho)
    as (r' & b & j & E & Hj & Ho' & Hc & Hp & Hb & Hf & Ht & _ & Hx & _).
  exists r', b, j. split; [exact E|]. split; [exact Ho'|]. split; [exact Hp|].
  pose proof (owned_sizes _ _ _ Ho) as S1. pose proof (owned_sizes _ _ _ Ho') as S2.
  rewrite length_drop in S2. cbn [length] in S1, S2. destruct Hc as (_ & Hn & _).
  split; [lia|]. split; [apply (ow_vi _ _ _ Ho')|]. rewrite (ow_count _ _ _ Ho).
  split; [rewrite Hb; lia|]. auto.
Qed.

Lemma efvi_refill_exact_witness :
  exists r' b j, refill_rx_ring sim_ops demo_start = (with_res demo_start r', Ok b) /\ owned r' (drop (16 * j) []) [] /\
    rx_pending (vi r') = rx_pending (vi (res demo_start)) ++ take (16 * j) [] /\
    ef_vi_receive_fill_level (vi r') = ef_vi_receive_fill_level (vi (res demo_start)) + 16 * Z.of_nat j /\
    ef_vi_receive_fill_level (vi r') <= ef_vi_receive_capacity (vi r') /\
    (b = false <-> refill_level (res demo_start) < ef_vi_receive_fill_level (vi (res demo_start)) \/
                   free_pkt_bufs_n (res demo_start) < 16) /\
    (b = false -> r' = res demo_start) /\
    (b = true -> (1 <= j)%nat /\
                 (refill_min r' <= ef_vi_receive_fill_level (vi r') \/ free_pkt_bufs_n r' < 16)).
Proof.
  apply (efvi_refill_exact sim_ops demo_start []).
  destruct (init_reaches sim_ops demo_env 5 demo_client demo_good) as (s' & E & Hr & Hn & _ & Hc & _);
    try apply demo_cwf.
  unfold demo_start. rewrite E. cbn [fst]. destruct Hr as (_ & _ & _ & fl & Ho).
  pose proof (ow_count _ _ _ Ho) as Hk. rewrite Hc in Hk. destruct fl; [exact Ho|cbn in Hk; lia].
Defined.

(** A poll frees the buffers of its events, the last one first, and nothing
    else; it handles the events in order, each packet by [event_spec]: one
    report and one count per packet of the feed, one line on standard error for
    a discard or an unexpected event.  A packet split over buffers aborts. *)
Lemma efvi_poll_exact {net} (ops : vi_ops net) `{!VIOps ops} (h : handler_full) `{!HandlerFull h} dma w s fl :
  blocks_ok dma -> cwf s -> prefix_ok (res_rx_prefix_len (res s)) -> owned (res s) fl [] ->
  let '(vi', evs) := op_eventq_poll ops w (vi (res s)) EV_POLL_BATCH_SIZE in
  if forallb whole_event evs then
    exists s', poll_evq h ops dma w s = (s', Ok (Z.of_nat (length evs))) /\
      owned (res s') (reverse (omap returns_buffer evs) ++ fl) [] /\
      events_spec h dma evs (with_res s (set_vi vi' (res s))) s'
  else exists s', poll_evq h ops dma w s = (s', Abort).
Proof.
  intros Hd Hw Hp Ho. pose proof (poll_evq_ok ops h dma w s fl Hd Hw Hp Ho) as H.
  destruct (op_eventq_poll ops w (vi (res s)) EV_POLL_BATCH_SIZE) as [vi' evs].
  destruct (forallb whole_event evs); [|exact H]. destruct H as (s' & E & _ & Ho' & _ & _ & Hs). eauto.
Qed.

Lemma efvi_poll_exact_witness :
  exists fl, let '(vi', evs) := op_eventq_poll sim_ops [100; 60] (vi (res demo_start)) EV_POLL_BATCH_SIZE in
  if forallb whole_event evs then
    exists s', poll_evq copy_full sim_ops (fun _ => zeros 2016) [100; 60] demo_start
                 = (s', Ok (Z.of_nat (length evs))) /\
      owned (res s') (reverse (omap returns_buffer evs) ++ fl) [] /\
      events_spec copy_full (fun _ => zeros 2016) evs (with_res demo_start (set_vi vi' (res demo_start))) s'
  else exists s', poll_evq copy_full sim_ops (fun _ => zeros 2016) [100; 60] demo_start = (s', Abort).
Proof.
  destruct demo_ready as (Hw & _ & Hp & fl & Ho). exists fl.
  apply (efvi_poll_exact sim_ops copy_full (fun _ => zeros 2016) [100; 60] demo_start fl);
    [intros i; reflexivity|exact Hw|exact Hp|exact Ho].
Defined.

(** ** Which packets are reported *)

Lemma load_le_drop off n k (l : list byte) : (k <= length l)%nat -> load_le off n (drop k l) = load_le (k + off) n l.
Proof.
  intros Hk. rewrite <- (take_drop k l) at 2. symmetry. apply load_le_skip. rewrite length_take. lia.
Qed.

(** The description of a frame that the client reports: untagged, no IP
    options, UDP, to the group. *)
Definition efvi_accepts (f : feed_frame) : Prop :=
  ff_tag f = None /\ head (ff_ip_start f) = Some x45 /\ ff_ip_mid f !! 3%nat = Some x11 /\ ff_dst f = group.

#[export] Instance efvi_accepts_dec f : Decision (efvi_accepts f) := _.

Lemma byte_eqb b c : (b2z b =? b2z c) = bool_decide (b = c).
Proof.
  destruct (Z.eqb_spec (b2z b) (b2z c)) as [E|E].
  - rewrite bool_decide_true; [done|]. by apply b2z_inj.
  - rewrite bool_decide_false; [done|]. congruence.
Qed.

(** The four tests, on an untagged frame and on a tagged one. *)
Lemma feed_guard_ff f : ff_wf f -> feed_guard (drop 6 (ff_bytes f)) = Some (bool_decide (efvi_accepts f)).
Proof.
  intros (Hm & Ht & Hs & Hi & Hd & Hg). destruct f as [macs tag st ident mid dst rest]. cbn in *.
  unfold feed_guard, ff_bytes. cbn.
  assert (Hlen : (6 <= length (macs ++ match tag with Some tci => x81 :: x00 :: tci | None => [] end ++
             x08 :: x00 :: st ++ ident ++ mid ++ dst ++ rest))%nat) by (rewrite length_app; lia).
  rewrite !load_le_drop by exact Hlen. cbn [Nat.add].
  rewrite (load_le_skip macs _ 12 _ 0) by lia. destruct tag as [tci|].
  { change ((x81 :: x00 :: tci) ++ ?r) with ([x81; x00] ++ (tci ++ r)). rewrite load_le_here by done.
    cbn [mbind option_bind]. change (negb (le_decode [x81; x00] =? 8)) with true. cbv iota.
    rewrite bool_decide_false; [done|]. by intros [? _]. }
  change ([] ++ x08 :: x00 :: ?r) with ([x08; x00] ++ r). rewrite load_le_here by done. cbn [mbind option_bind].
  change (negb (le_decode [x08; x00] =? 8)) with false. cbv iota.
  destruct st as [|s0 st]; [done|]. change ((s0 :: st) ++ ?r) with ([s0] ++ (st ++ r)).
  rewrite (load_le_skip macs _ 14 _ 2), (load_le_skip [x08; x00] _ _ _ 0), load_le_here by (done || lia).
  cbn [mbind option_bind]. replace (le_decode [s0]) with (b2z s0) by (simpl; lia). change 69 with (b2z x45).
  rewrite byte_eqb. case_bool_decide as E0; cbn [negb].
  2:{ rewrite bool_decide_false; [done|]. intros (_ & [= ->] & _). done. }
  do 4 (destruct mid as [|? mid]; [done|]). rename b2 into m3.
  change ((b :: b0 :: b1 :: m3 :: mid) ++ ?r) with ([b; b0; b1] ++ [m3] ++ (mid ++ r)).
  simpl in Hs, Hd. subst s0.
  rewrite (load_le_skip macs _ 23 _ 11), (load_le_skip [x08; x00] _ _ _ 9), (load_le_skip [x45] _ _ _ 8),
    (load_le_skip st _ _ _ 5), (load_le_skip ident _ _ _ 3), (load_le_skip [b; b0; b1] _ _ _ 0), load_le_here
    by (done || (cbn; lia)).
  cbn [mbind option_bind]. replace (le_decode [m3]) with (b2z m3) by (simpl; lia). change 17 with (b2z x11).
  rewrite byte_eqb. case_bool_decide as E1; cbn [negb].
  2:{ rewrite bool_decide_false; [done|]. intros (_ & _ & [= ->] & _). done. }
  subst m3.
  rewrite (load_le_skip macs _ 30 _ 18), (load_le_skip [x08; x00] _ _ _ 16), (load_le_skip [x45] _ _ _ 15),
    (load_le_skip st _ _ _ 12), (load_le_skip ident _ _ _ 10), (load_le_skip [b; b0; b1] _ _ _ 7),
    (load_le_skip [x11] _ _ _ 6), (load_le_skip mid _ _ _ 0), load_le_here by (done || (cbn; lia)).
  cbn [mbind option_bind]. f_equal. change 0x08efefef with (le_decode group).
  destruct (Z.eqb_spec (le_decode dst) (le_decode group)) as [E|E].
  - rewrite bool_decide_true; [done|]. repeat split. by apply le_decode_inj.
  - rewrite bool_decide_false; [done|]. intros (_ & _ & _ & Hd'). cbn in Hd'. by subst dst.
Qed.

(** Of the frames laid out where the client looks for them, it reports
    exactly those of at least 60 bytes that are untagged IPv4 without options,
    UDP, and sent to 239.239.239.8, each with its own identification.  A frame
    with a VLAN tag is never reported: the branch behind the first test that
    looks for one cannot be taken. *)
Lemma efvi_frame_exact f len : ff_wf f ->
  efvi_id len (ff_bytes f) =
    if bool_decide (60 <= len /\ efvi_accepts f) then Some (be_decode 0 (ff_id f)) else None.
Proof.
  intros Hw. unfold efvi_id. rewrite (feed_guard_ff f Hw), (decode_frame_ff f Hw).
  destruct (Z.leb_spec 60 len).
  - case_bool_decide as Ha.
    + rewrite (bool_decide_true (60 <= len /\ efvi_accepts f)) by (split; [lia|done]).
      destruct Ha as (_ & _ & _ & ->). done.
    + rewrite bool_decide_false; [done|]. by intros [_ ?].
  - rewrite bool_decide_false; [done|]. intros [? _]. lia.
Qed.

Definition efvi_frame : feed_frame :=
  FeedFrame (replicate 12 x00) None [x45; x00; x00; x50] [x12; x34]
    [x00; x00; x40; x11; x00; x00; x0a; x00; x00; x01] [xef; xef; xef; x08] (replicate 60 x00).

Lemma efvi_frame_exact_witness : efvi_id 90 (ff_bytes efvi_frame) = Some 0x1234.
Proof.
  rewrite (efvi_frame_exact efvi_frame 90); [reflexivity|]. repeat split.
Defined.

(** A frame delivered where the adapter says a frame starts, at [rx_ptr],
    is looked at six bytes early: its EtherType is read out of the source
    address, so that every frame whose source address does not start with
    08:00 is dropped. *)
Lemma efvi_frame_at_rx_ptr_dropped before f len : ff_wf f -> length before = 6%nat ->
  take 2 (drop 6 (ff_macs f)) <> [x08; x00] ->
  efvi_id len (before ++ ff_bytes f) = None.
Proof.
  intros (Hm & _) Hb Hne. unfold efvi_id. destruct (60 <=? len); [|done].
  rewrite drop_app_exact by done.
  assert (Hf : feed_guard (ff_bytes f) = Some false); [|by rewrite Hf].
  unfold feed_guard, ff_bytes. destruct f as [macs tag st ident mid dst rest]. cbn in *.
  rewrite <- (take_drop 6 macs), <- (take_drop 2 (drop 6 macs)), <- !app_assoc.
  rewrite (load_le_skip (take 6 macs) _ 6 _ 0) by (rewrite length_take; lia).
  rewrite load_le_here by (rewrite length_take, length_drop; lia). cbn [mbind option_bind].
  destruct (Z.eqb_spec (le_decode (take 2 (drop 6 macs))) 8) as [E|E]; [|done].
  destruct Hne. apply le_decode_inj; [rewrite length_take, length_drop, Hm; reflexivity|]. rewrite E. reflexivity.
Qed.

Lemma efvi_frame_at_rx_ptr_dropped_witness : efvi_id 90 (zeros 6 ++ ff_bytes efvi_frame) = None.
Proof. apply (efvi_frame_at_rx_ptr_dropped (zeros 6) efvi_frame 90); [repeat split|reflexivity|discriminate]. Defined.

(** ** The program ([main.cpp]) *)

Definition INTERFACE : list byte := list_byte_of_string "ens1f0" ++ zeros 2.

(** The thread, from the events before it; [garbage] is what the uninitialised
    members of the object on its stack hold. *)
Definition MarketDataThread_EFVI {net FS} (h : handler_full) (ops : vi_ops net) (env : init_env FS)
    (garbage : resources) (ins : list (net * contents)) (t : list io) : client * outcome unit :=
  match construct INTERFACE garbage t with
  | (_, Ok c) =>
      (cprintf ("EFVI Init" ++ nl) [] ;;;
       init ops env ;;;
       cprintf ("Low Latency looping" ++ nl) [] ;;;
       event_loop_low_latency h ops ins) c
  | (t', Exit z) => (Client [] 0 0 0 [] t' garbage, Exit z)
  | (t', Abort) => (Client [] 0 0 0 [] t' garbage, Abort)
  | (t', Undef) => (Client [] 0 0 0 [] t' garbage, Undef)
  end.

(** [main]: [md_ret] is what [pthread_create] returns; without a thread the
    process ends, otherwise it spins while the thread runs. *)
Definition main {net FS} (h : handler_full) (ops : vi_ops net) (env : init_env FS)
    (garbage : resources) (md_ret : Z) (ins : list (net * contents)) : client * outcome unit :=
  if negb (md_ret =? 0) then
    (Client [] 0 0 0 [] [Stdout "Create MarketData Thread_EFVI Error!"] garbage, Exit (-1))
  else MarketDataThread_EFVI h ops env garbage ins [].

(** C6: on a working adapter the program comes up and serves: construction,
    [init] and any number of polls run without undefined behaviour, with the
    invariant on the buffers at every stop, and end only in the abort on a
    split packet. *)
Theorem efvi_main_serves {net FS} (ops : vi_ops net) `{!VIOps ops} (h : handler_full) `{!HandlerFull h}
    (env : init_env FS) k garbage ins :
  init_good env k -> Forall (fun i => blocks_ok (snd i)) ins ->
  exists s o, main h ops env garbage 0 ins = (s, o) /\
    ((o = Ok tt /\ ready s /\ pkt_bufs_n (res s) = 2 ^ k - 16) \/ (o = Abort /\ ~ whole_packets ops)).
Proof.
  intros Hg Hins. unfold main, MarketDataThread_EFVI. change (negb (0 =? 0)) with false. cbv iota.
  assert (exists t, construct INTERFACE garbage [] = (t, Ok (Client INTERFACE (-1) 1 0 (zeros 256) t garbage)))
    as [t ->] by (eexists; reflexivity).
  set (c := Client _ _ _ _ _ _ _).
  destruct (cprintf_ok ("EFVI Init" ++ nl) _ [] c eq_refl) as [l1 E1]; [constructor|].
  rewrite (bind_Ok _ _ _ _ _ E1). set (c1 := add_io _ c).
  destruct (init_reaches ops env k c1 Hg) as (s1 & E2 & Hr & Hn & _); [split; [reflexivity|cbn; lia]|reflexivity|].
  rewrite (bind_Ok _ _ _ _ _ E2).
  destruct (cprintf_ok ("Low Latency looping" ++ nl) _ [] s1 eq_refl) as [l3 E3]; [constructor|].
  rewrite (bind_Ok _ _ _ _ _ E3).
  assert (Hr3 : ready (add_io (Stdout l3) s1)).
  { destruct Hr as (H1 & H2 & H3 & H4). split; [exact H1|]. split; [exact H2|]. split; [exact H3|exact H4]. }
  destruct (event_loop_ok ops h ins (add_io (Stdout l3) s1) Hins Hr3)
    as (s' & o & E & [(-> & Hr' & _ & Hc & _)|Hab]); eexists s', _; (split; [exact E|]).
  - left. split; [done|]. split; [exact Hr'|]. rewrite Hc. exact Hn.
  - by right.
Qed.

Lemma efvi_main_serves_witness : exists s o,
  main copy_full sim_ops demo_env zero_resources 0 [([100; 1400], fun _ => zeros 2016)] = (s, o) /\
    ((o = Ok tt /\ ready s /\ pkt_bufs_n (res s) = 2 ^ 5 - 16) \/ (o = Abort /\ ~ whole_packets sim_ops)).
Proof.
  apply (efvi_main_serves sim_ops copy_full demo_env 5 zero_resources); [exact demo_good|].
  apply Forall_singleton. intros i. reflexivity.
Defined.
