(* ===== verification/DLList.v ===== *)
(** * DLList: intrusive circular doubly-linked lists
    ([ci/tools/dllist.h], [onload/oo_p_dllist.h])

    Both headers implement one data structure: a head and members linked in a
    ring, an unused link linked to itself.  The first links by pointers, the
    second by offsets in shared state, with the pointer kept beside the offset.
    Memory is kept field by field, one map for [next] and one for [prev]; a
    link is an address.  The abstract value of a head is the list of its
    members, and each operation is shown to compute on it. *)

From Stdlib Require Import ZArith Lia.
From stdpp Require Import gmap.
From S2P Require Import Prelude.

(** ** Memory *)

Record dlheap := DLHeap { h_next : gmap Z Z; h_prev : gmap Z Z }.

Abbreviation M := (cm dlheap).

Definition get_next (p : Z) : M Z := let! h := get in access (h_next h !! p).
Definition get_prev (p : Z) : M Z := let! h := get in access (h_prev h !! p).

(** A store needs the object to exist. *)
Definition set_next (p q : Z) : M unit :=
  let! old := get_next p in modify (fun h => DLHeap (<[p := q]> (h_next h)) (h_prev h)).
Definition set_prev (p q : Z) : M unit :=
  let! old := get_prev p in modify (fun h => DLHeap (h_next h) (<[p := q]> (h_prev h))).

(** [ci_assert_equal(a, b)] in a build with assertions. *)
Definition assert_equal (a b : Z) : M unit := if a =? b then ret tt else stop Abort.

(** ** [ci/tools/dllist.h] *)

(** A list is named by the address of its head link. *)

Definition CI_DLLIST_LINK_ASSERT_VALID (l : Z) : M unit :=
  let! p := get_prev l in let! pn := get_next p in assert_equal pn l ;;;
  let! n := get_next l in let! np := get_prev n in assert_equal np l.

Definition ci_dllist_init (list : Z) : M unit := set_next list list ;;; set_prev list list.

Definition ci_dllist_is_empty (list : Z) : M bool := let! n := get_next list in ret (n =? list).
Definition ci_dllist_not_empty (list : Z) : M bool := let! n := get_next list in ret (negb (n =? list)).

Definition ci_dllist_insert_after (before after : Z) : M unit :=
  CI_DLLIST_LINK_ASSERT_VALID before ;;;
  let! n := get_next before in set_next after n ;;;
  set_prev after before ;;;
  let! n := get_next before in set_prev n after ;;;
  set_next before after.

Definition ci_dllist_insert_before (after insert : Z) : M unit :=
  CI_DLLIST_LINK_ASSERT_VALID after ;;;
  set_next insert after ;;;
  let! p := get_prev after in set_prev insert p ;;;
  let! p := get_prev after in set_next p insert ;;;
  set_prev after insert.

Definition ci_dllist_remove (link : Z) : M unit :=
  CI_DLLIST_LINK_ASSERT_VALID link ;;;
  let! p := get_prev link in let! n := get_next link in set_next p n ;;;
  let! n := get_next link in let! p := get_prev link in set_prev n p.

Definition ci_dllist_remove_safe (link : Z) : M unit :=
  CI_DLLIST_LINK_ASSERT_VALID link ;;;
  let! p := get_prev link in let! n := get_next link in set_next p n ;;;
  let! n := get_next link in let! p := get_prev link in set_prev n p ;;;
  set_prev link link ;;; set_next link link.

Definition ci_dllist_head (list : Z) : M Z := get_next list.
Definition ci_dllist_tail (list : Z) : M Z := get_prev list.
Definition ci_dllist_is_head (list link : Z) : M bool := let! n := get_next list in ret (link =? n).
Definition ci_dllist_is_tail (list link : Z) : M bool := let! p := get_prev list in ret (link =? p).
Definition ci_dllist_is_anchor (list link : Z) : M bool := ret (link =? list).

Definition ci_dllist_push (list link : Z) : M unit :=
  CI_DLLIST_LINK_ASSERT_VALID list ;;;
  let! n := get_next list in set_next link n ;;;
  set_prev link list ;;;
  let! n := get_next link in set_prev n link ;;;
  set_next list link.

Definition ci_dllist_push_tail (list link : Z) : M unit :=
  CI_DLLIST_LINK_ASSERT_VALID list ;;;
  set_next link list ;;;
  let! p := get_prev list in set_prev link p ;;;
  let! p := get_prev link in set_next p link ;;;
  set_prev list link.

Definition ci_dllist_pop (list : Z) : M Z :=
  let! l := get_next list in ci_dllist_remove l ;;; ret l.
Definition ci_dllist_pop_tail (list : Z) : M Z :=
  let! l := get_prev list in ci_dllist_remove l ;;; ret l.

(** The null pointer is [None]. *)
Definition ci_dllist_try_pop (list : Z) : M (option Z) :=
  let! e := ci_dllist_is_empty list in
  if e then ret None else let! l := ci_dllist_pop list in ret (Some l).
Definition ci_dllist_try_pop_tail (list : Z) : M (option Z) :=
  let! e := ci_dllist_is_empty list in
  if e then ret None else let! l := ci_dllist_pop_tail list in ret (Some l).

Definition ci_dllist_put := ci_dllist_push_tail.
Definition ci_dllist_put_back := ci_dllist_push.
Definition ci_dllist_get := ci_dllist_pop.
Definition ci_dllist_try_get := ci_dllist_try_pop.

Definition ci_dllist_rehome (to from : Z) : M unit :=
  let! e := ci_dllist_is_empty from in
  if e then ci_dllist_init to
  else
    let! n := get_next from in set_next to n ;;;
    let! p := get_prev from in set_prev to p ;;;
    let! p := get_prev to in set_next p to ;;;
    let! n := get_next to in set_prev n to ;;;
    ci_dllist_init from.

Definition ci_dllist_join (list from : Z) : M unit :=
  let! ne := ci_dllist_not_empty from in
  if ne then
    let! p := get_prev list in let! n := get_next from in set_next p n ;;;
    let! n := get_next from in let! p := get_prev list in set_prev n p ;;;
    let! p := get_prev from in set_prev list p ;;;
    let! p := get_prev from in set_next p list ;;;
    ci_dllist_init from
  else ret tt.

Definition ci_dllist_start (list : Z) : M Z := get_next list.
Definition ci_dllist_last (list : Z) : M Z := get_prev list.
Definition ci_dllist_end (list : Z) : M Z := ret list.

(** [CI_DLLIST_FOR_EACH(l, list)]: the links visited, with at most [fuel]
    passes. *)
Fixpoint for_each (fuel : nat) (list l : Z) : M (Datatypes.list Z) :=
  match fuel with
  | O => stop Undef
  | S fuel' =>
      if l =? list then ret []
      else let! n := get_next l in let! rest := for_each fuel' list n in ret (l :: rest)
  end.
Definition CI_DLLIST_FOR_EACH (fuel : nat) (list : Z) : M (Datatypes.list Z) :=
  let! l := ci_dllist_start list in for_each fuel list l.

Definition ci_dllist_count (fuel : nat) (list : Z) : M Z :=
  let! ls := CI_DLLIST_FOR_EACH fuel list in ret (Z.of_nat (length ls)).

(** The search stops at the link. *)
Fixpoint find_from (fuel : nat) (list link l : Z) : M bool :=
  match fuel with
  | O => stop Undef
  | S fuel' =>
      if l =? list then ret false
      else if l =? link then ret true
      else let! n := get_next l in find_from fuel' list link n
  end.
Definition ci_dllist_is_member (fuel : nat) (list link : Z) : M bool :=
  let! l := ci_dllist_start list in find_from fuel list link l.

Definition ci_dllink_self_link (link : Z) : M unit := set_prev link link ;;; set_next link link.
Definition ci_dllink_is_self_linked (link : Z) : M bool := let! n := get_next link in ret (link =? n).
Definition ci_dllink_mark_free (link : Z) : M unit := set_next link 0.
Definition ci_dllink_is_free (link : Z) : M bool := let! n := get_next link in ret (n =? 0).

(** ** [onload/oo_p_dllist.h] *)

(** A pair of the pointer and the offset; both name the link here. *)
Record oo_p_dllink_state := LinkState { st_l : Z; st_p : Z }.

Section Offsets.
(** [CI_NETIF_PTR(ni, p)], and its inverse. *)
Variable ptr : Z -> Z.
Variable to_statep : Z -> Z.

Definition oo_p_dllink_from_p (p : Z) : Z := ptr p.
Definition oo_p_dllink_ptr (l : Z) : oo_p_dllink_state := LinkState l (to_statep l).
Definition oo_p_dllink_statep (p : Z) : oo_p_dllink_state := LinkState (oo_p_dllink_from_p p) p.
Definition oo_p_dllink_sb (l : Z) : oo_p_dllink_state := oo_p_dllink_ptr l.

(** The members of the ring hold offsets, the stores go through pointers. *)
Definition oo_p_dllink_init (state : oo_p_dllink_state) : M unit :=
  set_prev (st_l state) (st_p state) ;;; set_next (st_l state) (st_p state).

Definition oo_p_dllink_del (link : oo_p_dllink_state) : M unit :=
  let! p := get_prev (st_l link) in let! n := get_next (st_l link) in
  set_next (oo_p_dllink_from_p p) n ;;;
  let! n := get_next (st_l link) in let! p := get_prev (st_l link) in
  set_prev (oo_p_dllink_from_p n) p.

Definition oo_p_dllink_del_init (link : oo_p_dllink_state) : M unit :=
  oo_p_dllink_del link ;;; oo_p_dllink_init link.

Definition oo_p_dllink_add_between (prev next new : oo_p_dllink_state) : M unit :=
  set_prev (st_l next) (st_p new) ;;;
  set_next (st_l new) (st_p next) ;;;
  set_prev (st_l new) (st_p prev) ;;;
  set_next (st_l prev) (st_p new).

Definition oo_p_dllink_add (list link : oo_p_dllink_state) : M unit :=
  let! n := get_next (st_l list) in oo_p_dllink_add_between list (oo_p_dllink_statep n) link.
Definition oo_p_dllink_add_tail (list link : oo_p_dllink_state) : M unit :=
  let! p := get_prev (st_l list) in oo_p_dllink_add_between (oo_p_dllink_statep p) list link.

Definition oo_p_dllink_is_empty (list : oo_p_dllink_state) : M bool :=
  let! n := get_next (st_l list) in ret (n =? st_p list).

Definition oo_p_dllink_assert_empty (l : oo_p_dllink_state) : M unit :=
  let! n := get_next (st_l l) in assert_equal n (st_p l) ;;;
  let! p := get_prev (st_l l) in assert_equal p (st_p l).

(** [__oo_p_dllink_splice] *)
Definition oo_p_dllink_splice_between (list prev next : oo_p_dllink_state) : M unit :=
  let! f := get_next (st_l list) in
  let! t := get_prev (st_l list) in
  let first := oo_p_dllink_statep f in
  let last := oo_p_dllink_statep t in
  set_prev (st_l first) (st_p prev) ;;;
  set_next (st_l prev) (st_p first) ;;;
  set_next (st_l last) (st_p next) ;;;
  set_prev (st_l next) (st_p last).

Definition oo_p_dllink_splice (list into : oo_p_dllink_state) : M unit :=
  let! e := oo_p_dllink_is_empty list in
  if negb e then
    let! n := get_next (st_l into) in oo_p_dllink_splice_between list into (oo_p_dllink_statep n)
  else ret tt.
Definition oo_p_dllink_splice_tail (list into : oo_p_dllink_state) : M unit :=
  let! e := oo_p_dllink_is_empty list in
  if negb e then
    let! p := get_prev (st_l into) in oo_p_dllink_splice_between list (oo_p_dllink_statep p) into
  else ret tt.

(** [oo_p_dllink_for_each], with at most [fuel] passes: the loop ends when it
    is back at the pointer of the head. *)
Fixpoint oo_p_walk (fuel : nat) (list link : oo_p_dllink_state) : M (Datatypes.list Z) :=
  match fuel with
  | O => stop Undef
  | S fuel' =>
      if st_l link =? st_l list then ret []
      else
        let! n := get_next (st_l link) in
        let! rest := oo_p_walk fuel' list (oo_p_dllink_statep n) in
        ret (st_p link :: rest)
  end.
Definition oo_p_dllink_for_each (fuel : nat) (list : oo_p_dllink_state) : M (Datatypes.list Z) :=
  let! n := get_next (st_l list) in oo_p_walk fuel list (oo_p_dllink_statep n).

(** [oo_p_dllink_concurrent_add]: [now] is what [list.l->next] holds when the
    compare-and-swap reads it, after it was read at the start. *)
Definition oo_p_dllink_concurrent_add (list link : oo_p_dllink_state) (now : option Z) : M bool :=
  let! next := get_next (st_l list) in
  let! next_orig := get_next (st_l link) in
  let! prev_orig := get_prev (st_l link) in
  set_next (st_l link) next ;;;
  set_prev (st_l link) (st_p list) ;;;
  (match now with Some v => set_next (st_l list) v | None => ret tt end) ;;;
  let! cur := get_next (st_l list) in
  if negb (cur =? next) then
    set_next (st_l link) next_orig ;;;
    set_prev (st_l link) prev_orig ;;;
    ret false
  else
    set_next (st_l list) (st_p link) ;;;
    let! n := get_next (st_l list) in
    set_prev (st_l (oo_p_dllink_statep next)) n ;;;
    ret true.
End Offsets.

(** ** The list that a head stands for *)

Lemma removelast_snoc (l : list Z) a : removelast (l ++ [a]) = l.
Proof. apply removelast_last. Qed.

(** The ends of the two parts of a ring around a position. *)
Lemma last_is_Some a (l : list Z) : exists u, last (a :: l) = Some u /\ u ∈ a :: l.
Proof.
  revert a. induction l as [|b l IH]; intros a; [exists a; set_solver|].
  destruct (IH b) as (u & Hu & Hin). exists u. split; [exact Hu|set_solver].
Qed.

Lemma head_is_Some (l : list Z) a : exists v, head (l ++ [a]) = Some v /\ v ∈ l ++ [a].
Proof. destruct l as [|b l]; [exists a|exists b]; set_solver. Qed.

Lemma last_removelast a (l : list Z) u : NoDup (a :: l) -> last (a :: l) = Some u -> u ∉ removelast (a :: l).
Proof.
  revert a. induction l as [|b l IH]; intros a Hd Hu; [set_solver|].
  apply NoDup_cons in Hd as [Hn Hd]. change (removelast (a :: b :: l)) with (a :: removelast (b :: l)).
  apply not_elem_of_cons. split; [|by apply IH].
  intros ->. destruct (last_is_Some b l) as (v & Hv & Hin).
  change (last (a :: b :: l)) with (last (b :: l)) in Hu. congruence.
Qed.

Lemma head_tail (l : list Z) a v : NoDup (l ++ [a]) -> head (l ++ [a]) = Some v -> v ∉ tail (l ++ [a]).
Proof.
  destruct l as [|b l]; simpl; intros Hd [= ->]; [set_solver|]. by apply NoDup_cons in Hd as [? _].
Qed.

Lemma elem_removelast (p : Z) w : p ∈ removelast w -> p ∈ w.
Proof.
  induction w as [|x [|y w] IH]; [done|simpl; set_solver|].
  change (removelast (x :: y :: w)) with (x :: removelast (y :: w)). set_solver.
Qed.

Lemma elem_tail (p : Z) w : p ∈ tail w -> p ∈ w.
Proof. destruct w; set_solver. Qed.

Section Rings.
(** Links are named by [p] and stored at [ptr p]; stored values are names. *)
Variable ptr : Z -> Z.
Context `{!Inj (=) (=) ptr}.

Definition nx (h : dlheap) (p : Z) : option Z := h_next h !! ptr p.
Definition pv (h : dlheap) (p : Z) : option Z := h_prev h !! ptr p.

Definition edge (h : dlheap) (u v : Z) : Prop := nx h u = Some v /\ pv h v = Some u.

(** Every link of the walk points to the one behind it, and back. *)
Fixpoint edges (h : dlheap) (w : list Z) : Prop :=
  match w with
  | u :: ((v :: _) as w') => edge h u v /\ edges h w'
  | _ => True
  end.

(** The ring of head [a] has the members [l], in order. *)
Definition ring (h : dlheap) (a : Z) (l : list Z) : Prop := NoDup (a :: l) /\ edges h (a :: l ++ [a]).

(** A link that exists in memory. *)
Definition is_link (h : dlheap) (p : Z) : Prop := is_Some (nx h p) /\ is_Some (pv h p).

Lemma edges_app h w1 w2 u v : last w1 = Some u -> head w2 = Some v ->
  edges h (w1 ++ w2) <-> edges h w1 /\ edge h u v /\ edges h w2.
Proof.
  revert u. induction w1 as [|x [|y w1] IH]; intros u Hu Hv; [done| |].
  - simpl in Hu. injection Hu as ->. destruct w2 as [|z w2]; [done|]. simpl in Hv. injection Hv as ->.
    simpl. tauto.
  - change (last (x :: y :: w1)) with (last (y :: w1)) in Hu.
    change (edges h ((x :: y :: w1) ++ w2)) with (edge h x y /\ edges h ((y :: w1) ++ w2)).
    change (edges h (x :: y :: w1)) with (edge h x y /\ edges h (y :: w1)).
    rewrite (IH u Hu Hv). tauto.
Qed.

Lemma edges_frame h h' w : edges h w ->
  (forall p, p ∈ removelast w -> nx h' p = nx h p) -> (forall p, p ∈ tail w -> pv h' p = pv h p) ->
  edges h' w.
Proof.
  induction w as [|x [|y w] IH]; intros He Hn Hp; [done|done|]. destruct He as [[E1 E2] He].
  change (removelast (x :: y :: w)) with (x :: removelast (y :: w)) in Hn. cbn [tail] in Hp.
  split.
  - split; [rewrite Hn; [done|set_solver]|rewrite Hp; [done|set_solver]].
  - apply IH; [done| |]; intros p Hin; [apply Hn|apply Hp]; [set_solver|].
    simpl in Hin. set_solver.
Qed.

(** The two parts of a ring around a position keep their edges when only the
    [next] of the last link before it and the [prev] of the first link behind
    it change, and links outside. *)
Lemma parts_frame h h' a l1 l2 u v (out : list Z) :
  NoDup (a :: l1 ++ l2) -> last (a :: l1) = Some u -> head (l2 ++ [a]) = Some v ->
  (forall p, p ∈ out -> p ∉ a :: l1 ++ l2) ->
  (forall p, p <> u -> p ∉ out -> nx h' p = nx h p) -> (forall p, p <> v -> p ∉ out -> pv h' p = pv h p) ->
  edges h (a :: l1) -> edges h (l2 ++ [a]) -> edges h' (a :: l1) /\ edges h' (l2 ++ [a]).
Proof.
  intros Hd Hu Hv Hout Hn Hp H1 H2.
  assert (Hd1 : NoDup (a :: l1)) by (rewrite app_comm_cons in Hd; by apply NoDup_app in Hd as (? & _)).
  assert (Hdl : forall p, p ∈ a :: l1 -> p ∉ l2)
    by (rewrite app_comm_cons in Hd; by apply NoDup_app in Hd as (_ & ? & _)).
  assert (Hd2 : NoDup (l2 ++ [a])).
  { rewrite app_comm_cons in Hd. apply NoDup_app in Hd as (_ & _ & Hd). apply NoDup_app. split; [done|].
    split; [|apply NoDup_singleton]. intros p Hp2 ->%list_elem_of_singleton. apply (Hdl a); set_solver. }
  assert (Hu_in : u ∈ a :: l1) by (destruct (last_is_Some a l1) as (u' & E & ?); congruence).
  assert (Hv_in : v ∈ l2 ++ [a]) by (destruct (head_is_Some l2 a) as (v' & E & ?); congruence).
  split.
  - apply (edges_frame h); [done| |]; intros p Hin.
    + pose proof (last_removelast a l1 u Hd1 Hu). apply Hn; [set_solver|].
      intros Ho. apply (Hout p Ho). apply elem_removelast in Hin. set_solver.
    + cbn [tail] in Hin. apply Hp; [|intros Ho; apply (Hout p Ho); set_solver].
      intros ->. apply elem_of_app in Hv_in as [?| ->%list_elem_of_singleton].
      * apply (Hdl v); set_solver.
      * apply NoDup_cons in Hd1 as [? _]. done.
  - apply (edges_frame h); [done| |]; intros p Hin.
    + rewrite removelast_snoc in Hin. apply Hn; [intros ->; by apply (Hdl u)|].
      intros Ho. apply (Hout p Ho). set_solver.
    + pose proof (head_tail l2 a v Hd2 Hv). apply Hp; [set_solver|].
      intros Ho. apply (Hout p Ho). apply elem_tail in Hin. set_solver.
Qed.

(** A walk [m] is put between two parts of a ring. *)
Lemma ring_splice h h' a l1 l2 m f t u v :
  NoDup (a :: l1 ++ l2) -> NoDup m -> (forall p, p ∈ m -> p ∉ a :: l1 ++ l2) ->
  edges h (a :: l1) -> edges h (l2 ++ [a]) -> edges h m ->
  last (a :: l1) = Some u -> head (l2 ++ [a]) = Some v -> head m = Some f -> last m = Some t ->
  edge h' u f -> edge h' t v ->
  (forall p, p <> u -> p <> t -> nx h' p = nx h p) -> (forall p, p <> v -> p <> f -> pv h' p = pv h p) ->
  ring h' a (l1 ++ m ++ l2).
Proof.
  intros Hd Hm Hdis H1 H2 Hem Hu Hv Hf Ht Huf Htv Hn Hp. split.
  - rewrite app_comm_cons. rewrite app_comm_cons in Hd. apply NoDup_app in Hd as (Hd1 & Hdl & Hd2).
    apply NoDup_app. split; [done|]. split.
    + intros x Hx Hin. apply elem_of_app in Hin as [Hin|Hin]; [|by apply (Hdl x)].
      apply (Hdis x Hin). set_solver.
    + apply NoDup_app. split; [done|]. split; [|done]. intros x Hx Hin. apply (Hdis x Hx). set_solver.
  - assert (t ∈ m /\ f ∈ m) as [Htm Hfm].
    { destruct m as [|y m]; [done|]. simpl in Hf. injection Hf as ->.
      destruct (last_is_Some f m) as (t' & E & ?). rewrite Ht in E. injection E as <-. set_solver. }
    assert (edges h' (a :: l1) /\ edges h' (l2 ++ [a])) as [H1' H2'].
    { eapply (parts_frame h h' a l1 l2 u v m); try done;
        intros p Hne Hout; [apply Hn|apply Hp]; try done; intros ->; done. }
    assert (Hu_in : u ∈ a :: l1) by (destruct (last_is_Some a l1) as (u' & E & ?); congruence).
    assert (Hv_in : v ∈ l2 ++ [a]) by (destruct (head_is_Some l2 a) as (v' & E & ?); congruence).
    assert (Hem' : edges h' m).
    { apply (edges_frame h); [done| |]; intros p Hin.
      - destruct m as [|y m]; [done|]. pose proof (last_removelast y m t Hm Ht).
        apply Hn; [|set_solver]. intros ->. apply elem_removelast in Hin. apply (Hdis u Hin). set_solver.
      - destruct m as [|y m]; [done|]. simpl in Hf. injection Hf as ->. cbn [tail] in Hin.
        apply NoDup_cons in Hm as [Hfm' _]. apply Hp; [|by intros ->]. intros ->.
        apply (Hdis v); set_solver. }
    replace (a :: (l1 ++ m ++ l2) ++ [a]) with ((a :: l1) ++ (m ++ (l2 ++ [a]))) by (simpl; by rewrite !app_assoc).
    rewrite (edges_app h' (a :: l1) _ u f) by (done || (destruct m; done)).
    rewrite (edges_app h' m _ t v) by done. done.
Qed.

(** The two parts are joined over what was between them. *)
Lemma ring_close h h' a l1 l2 u v :
  NoDup (a :: l1 ++ l2) -> edges h (a :: l1) -> edges h (l2 ++ [a]) ->
  last (a :: l1) = Some u -> head (l2 ++ [a]) = Some v -> edge h' u v ->
  (forall p, p <> u -> nx h' p = nx h p) -> (forall p, p <> v -> pv h' p = pv h p) ->
  ring h' a (l1 ++ l2).
Proof.
  intros Hd H1 H2 Hu Hv Huv Hn Hp. split; [done|].
  assert (edges h' (a :: l1) /\ edges h' (l2 ++ [a])) as [H1' H2'].
  { eapply (parts_frame h h' a l1 l2 u v []); try done; intros p; [set_solver|intros; by apply Hn|intros; by apply Hp]. }
  replace (a :: (l1 ++ l2) ++ [a]) with ((a :: l1) ++ (l2 ++ [a])) by (simpl; by rewrite app_assoc).
  by rewrite (edges_app h' (a :: l1) _ u v).
Qed.

(** The parts of a ring, and the edge between them. *)
Lemma ring_parts h a l1 l2 : ring h a (l1 ++ l2) -> exists u v,
  last (a :: l1) = Some u /\ head (l2 ++ [a]) = Some v /\
  NoDup (a :: l1 ++ l2) /\ edges h (a :: l1) /\ edge h u v /\ edges h (l2 ++ [a]) /\
  u ∈ a :: l1 /\ v ∈ l2 ++ [a].
Proof.
  intros [Hd He]. destruct (last_is_Some a l1) as (u & Hu & Hui). destruct (head_is_Some l2 a) as (v & Hv & Hvi).
  exists u, v. replace (a :: (l1 ++ l2) ++ [a]) with ((a :: l1) ++ (l2 ++ [a])) in He by (simpl; by rewrite app_assoc).
  rewrite (edges_app h (a :: l1) _ u v) in He by done. tauto.
Qed.

(** Every link of a ring has its two neighbours. *)
Lemma ring_valid h a l p : ring h a l -> p ∈ a :: l -> exists w v, edge h w p /\ edge h p v.
Proof.
  intros H Hp. apply list_elem_of_split in Hp as (k1 & k2 & E). destruct k1 as [|b k1]; simplify_eq/=.
  - destruct (ring_parts h p [] k2 H) as (u & v & Hu & _ & _ & _ & E1 & _). simplify_eq/=.
    destruct (ring_parts h u k2 []) as (w & v' & _ & Hv & _ & _ & E2 & _); [by rewrite app_nil_r|].
    simplify_eq/=. eauto.
  - destruct (ring_parts h b k1 (p :: k2) H) as (w & p' & _ & Hp' & _ & _ & E1 & _). simplify_eq/=.
    change (p' :: k2) with ([p'] ++ k2) in H. rewrite app_assoc in H.
    destruct (ring_parts h b (k1 ++ [p']) k2 H) as (p & v & Hp & _ & _ & _ & E2 & _).
    rewrite app_comm_cons, last_snoc in Hp. simplify_eq. eauto.
Qed.

Lemma ring_link h a l p : ring h a l -> p ∈ a :: l -> is_link h p.
Proof. intros H Hp. destruct (ring_valid h a l p H Hp) as (w & v & [_ E1] & [E2 _]). split; by eexists. Qed.

(** Two memories that differ at most at the links of [T]. *)
Definition same_out (T : list Z) (h h' : dlheap) : Prop :=
  forall p, p ∉ T -> nx h' p = nx h p /\ pv h' p = pv h p.

Lemma ring_frame h h' a l T : ring h a l -> same_out T h h' -> (forall p, p ∈ a :: l -> p ∉ T) -> ring h' a l.
Proof.
  intros [Hd He] Hs HT. split; [done|]. apply (edges_frame h); [done| |]; intros p Hp; apply Hs, HT.
  - rewrite app_comm_cons, removelast_snoc in Hp. done.
  - cbn [tail] in Hp. set_solver.
Qed.

(** ** Stores *)

Definition upd_n (h : dlheap) (p q : Z) : dlheap := DLHeap (<[ptr p := q]> (h_next h)) (h_prev h).
Definition upd_p (h : dlheap) (p q : Z) : dlheap := DLHeap (h_next h) (<[ptr p := q]> (h_prev h)).

Lemma nx_upd_n_eq h p q : nx (upd_n h p q) p = Some q.
Proof. apply lookup_insert_eq. Qed.
Lemma nx_upd_n_ne h p q r : p <> r -> nx (upd_n h p q) r = nx h r.
Proof. intros H. apply lookup_insert_ne. intros ?%(inj ptr). done. Qed.
Lemma nx_upd_p h p q r : nx (upd_p h p q) r = nx h r.
Proof. done. Qed.
Lemma pv_upd_p_eq h p q : pv (upd_p h p q) p = Some q.
Proof. apply lookup_insert_eq. Qed.
Lemma pv_upd_p_ne h p q r : p <> r -> pv (upd_p h p q) r = pv h r.
Proof. intros H. apply lookup_insert_ne. intros ?%(inj ptr). done. Qed.
Lemma pv_upd_n h p q r : pv (upd_n h p q) r = pv h r.
Proof. done. Qed.

Lemma link_upd_n h p q r : is_link h r -> is_link (upd_n h p q) r.
Proof.
  intros [H1 H2]. split; [|done]. destruct (decide (p = r)) as [->|]; [by rewrite nx_upd_n_eq|by rewrite nx_upd_n_ne].
Qed.
Lemma link_upd_p h p q r : is_link h r -> is_link (upd_p h p q) r.
Proof.
  intros [H1 H2]. split; [done|]. destruct (decide (p = r)) as [->|]; [by rewrite pv_upd_p_eq|by rewrite pv_upd_p_ne].
Qed.

Lemma get_next_ok h p v : nx h p = Some v -> get_next (ptr p) h = (h, Ok v).
Proof. unfold nx. intros H. unfold get_next. rewrite bind_get. by rewrite H. Qed.
Lemma get_prev_ok h p v : pv h p = Some v -> get_prev (ptr p) h = (h, Ok v).
Proof. unfold pv. intros H. unfold get_prev. rewrite bind_get. by rewrite H. Qed.
Lemma set_next_ok h p q : is_link h p -> set_next (ptr p) q h = (upd_n h p q, Ok tt).
Proof. intros [[v H] _]. unfold set_next. by rewrite (bind_Ok _ _ _ _ _ (get_next_ok h p v H)). Qed.
Lemma set_prev_ok h p q : is_link h p -> set_prev (ptr p) q h = (upd_p h p q, Ok tt).
Proof. intros [_ [v H]]. unfold set_prev. by rewrite (bind_Ok _ _ _ _ _ (get_prev_ok h p v H)). Qed.
Lemma set_next_at h P p q : P = ptr p -> is_link h p -> set_next P q h = (upd_n h p q, Ok tt).
Proof. intros ->. apply set_next_ok. Qed.
Lemma set_prev_at h P p q : P = ptr p -> is_link h p -> set_prev P q h = (upd_p h p q, Ok tt).
Proof. intros ->. apply set_prev_ok. Qed.
End Rings.

Lemma assert_equal_refl a h : assert_equal a a h = (h, Ok tt).
Proof. unfold assert_equal. by rewrite Z.eqb_refl. Qed.

(** Evaluates a read through the stores before it, when the aliasing is known. *)
Ltac dlread :=
  repeat first
    [ rewrite nx_upd_p | rewrite pv_upd_n
    | rewrite nx_upd_n_eq by apply _ | rewrite pv_upd_p_eq by apply _
    | rewrite nx_upd_n_ne by first [apply _|congruence]
    | rewrite pv_upd_p_ne by first [apply _|congruence] ].

Ltac dllink := repeat first [eassumption|apply link_upd_n; [apply _|]|apply link_upd_p; [apply _|]].

(** One access of the code, at a link whose contents are known. *)
Ltac dlstep ptr :=
  first
    [ rewrite bind_assoc | rewrite bind_ret_l
    | rewrite (bind_Ok _ _ _ _ _ (assert_equal_refl _ _))
    | erewrite (bind_Ok (get_next _)) by (eapply (get_next_ok ptr); dlread; first [eassumption|reflexivity])
    | erewrite (bind_Ok (get_prev _)) by (eapply (get_prev_ok ptr); dlread; first [eassumption|reflexivity])
    | erewrite (bind_Ok (set_next _ _)) by (eapply (set_next_ok ptr); dllink)
    | erewrite (bind_Ok (set_prev _ _)) by (eapply (set_prev_ok ptr); dllink)
    | erewrite (set_next_at ptr) by first [reflexivity|dllink]
    | erewrite (set_prev_at ptr) by first [reflexivity|dllink] ].

Section Insert.
Variable ptr : Z -> Z.
Context `{!Inj (=) (=) ptr}.

(** The walk from [f] to [t] is put between [u] and [v]. *)
Definition linked_span (h h' : dlheap) (u f t v : Z) : Prop :=
  edge ptr h' u f /\ edge ptr h' t v /\
  (forall p, p <> u -> p <> t -> nx ptr h' p = nx ptr h p) /\
  (forall p, p <> v -> p <> f -> pv ptr h' p = pv ptr h p) /\
  (forall p, is_link ptr h p -> is_link ptr h' p).

(** The link [n] is put between [u] and [v]. *)
Definition linked_between (h h' : dlheap) (u n v : Z) : Prop := linked_span h h' u n n v.

(** [u] and [v] are made neighbours. *)
Definition linked_over (h h' : dlheap) (u v : Z) : Prop :=
  edge ptr h' u v /\
  (forall p, p <> u -> nx ptr h' p = nx ptr h p) /\ (forall p, p <> v -> pv ptr h' p = pv ptr h p) /\
  (forall p, is_link ptr h p -> is_link ptr h' p).

Lemma ring_insert h h' a l1 l2 n u v : ring ptr h a (l1 ++ l2) -> n ∉ a :: l1 ++ l2 ->
  last (a :: l1) = Some u -> head (l2 ++ [a]) = Some v -> linked_between h h' u n v ->
  ring ptr h' a (l1 ++ n :: l2) /\ same_out ptr (n :: a :: l1 ++ l2) h h'.
Proof.
  intros Hr Hn Hu Hv (E1 & E2 & Hnx & Hpv & _).
  destruct (ring_parts ptr h a l1 l2 Hr) as (u' & v' & Hu' & Hv' & Hd & He1 & _ & He2 & Hui & Hvi).
  rewrite Hu in Hu'. rewrite Hv in Hv'. simplify_eq. split.
  - change (l1 ++ n :: l2) with (l1 ++ [n] ++ l2).
    eapply (ring_splice ptr h h' a l1 l2 [n] n n u' v'); try done; [apply NoDup_singleton|].
    intros p ->%list_elem_of_singleton. done.
  - intros p Hp. split; [apply Hnx|apply Hpv]; intros ->; apply Hp; set_solver.
Qed.

Lemma ring_remove h h' a l1 l2 k u v : ring ptr h a (l1 ++ k :: l2) ->
  last (a :: l1) = Some u -> head (l2 ++ [a]) = Some v -> linked_over h h' u v ->
  ring ptr h' a (l1 ++ l2) /\ same_out ptr (a :: l1 ++ k :: l2) h h'.
Proof.
  intros Hr Hu Hv (E & Hnx & Hpv & _).
  destruct (ring_parts ptr h a l1 (k :: l2) Hr) as (u' & k' & Hu' & _ & Hd & He1 & _ & He2 & Hui & _).
  rewrite Hu in Hu'. injection Hu' as <-.
  assert (Hvi : v ∈ l2 ++ [a]) by (destruct (head_is_Some l2 a) as (v' & Ev & ?); congruence).
  assert (He2' : edges ptr h (l2 ++ [a])) by (destruct l2; [done|]; by destruct He2).
  split.
  - eapply (ring_close ptr h h'); try done. rewrite app_comm_cons in *.
    apply NoDup_app in Hd as (? & Hx & [? ?]%NoDup_cons). apply NoDup_app. split; [done|]. split; [|done].
    intros p Hp Hin. apply (Hx p); set_solver.
  - intros p Hp. split; [apply Hnx|apply Hpv]; intros ->; apply Hp; set_solver.
Qed.

(** The members [m] of a ring move into another. *)
Lemma ring_join h h' a l1 l2 b m f t u v : ring ptr h a (l1 ++ l2) -> ring ptr h b m ->
  (forall p, p ∈ m -> p ∉ a :: l1 ++ l2) ->
  last (a :: l1) = Some u -> head (l2 ++ [a]) = Some v -> head m = Some f -> last m = Some t ->
  linked_span h h' u f t v -> ring ptr h' a (l1 ++ m ++ l2).
Proof.
  intros Hr Hb Hdis Hu Hv Hf Ht (E1 & E2 & Hnx & Hpv & _).
  destruct (ring_parts ptr h a l1 l2 Hr) as (u' & v' & Hu' & Hv' & Hd & He1 & _ & He2 & _).
  rewrite Hu in Hu'. rewrite Hv in Hv'. simplify_eq.
  destruct (ring_parts ptr h b [] m Hb) as (x & y & _ & _ & [_ Hm]%NoDup_cons & _ & _ & Hem & _).
  assert (edges ptr h m).
  { destruct m as [|z m]; [done|]. rewrite (edges_app ptr h (z :: m) [b] t b) in Hem by done. tauto. }
  eapply (ring_splice ptr h h' a l1 l2 m); done.
Qed.

(** A new head takes over the members of a ring. *)
Lemma ring_move h h' a b m f t : ring ptr h b m -> a ∉ m -> head m = Some f -> last m = Some t ->
  linked_span h h' a f t a -> ring ptr h' a m.
Proof.
  intros Hb Ha Hf Ht (E1 & E2 & Hnx & Hpv & _).
  destruct (ring_parts ptr h b [] m Hb) as (x & y & _ & _ & [_ Hm]%NoDup_cons & _ & _ & Hem & _).
  assert (edges ptr h m).
  { destruct m as [|z m]; [done|]. rewrite (edges_app ptr h (z :: m) [b] t b) in Hem by done. tauto. }
  rewrite <- (app_nil_r m). eapply (ring_splice ptr h h' a [] [] m f t a a); try done.
  - apply NoDup_singleton.
  - set_solver.
Qed.

Lemma span_out h h' u f t v T : linked_span h h' u f t v -> u ∈ T -> f ∈ T -> t ∈ T -> v ∈ T -> same_out ptr T h h'.
Proof. intros (_ & _ & H1 & H2 & _) ???? p Hp. split; [apply H1|apply H2]; intros ->; done. Qed.

Lemma span_links h h' u f t v p : linked_span h h' u f t v -> is_link ptr h p -> is_link ptr h' p.
Proof. intros (_ & _ & _ & _ & H). apply H. Qed.
End Insert.

(** ** The operations of [ci/tools/dllist.h] *)

Abbreviation ci_edge := (edge Datatypes.id).
Abbreviation ci_link := (is_link Datatypes.id).

Ltac ci_run := repeat dlstep (@Datatypes.id Z).
Ltac ci_points := repeat split; intros; dlread; try done; dllink.

Lemma assert_valid_ok h w p v : ci_edge h w p -> ci_edge h p v -> CI_DLLIST_LINK_ASSERT_VALID p h = (h, Ok tt).
Proof. intros [A1 A2] [B1 B2]. unfold CI_DLLIST_LINK_ASSERT_VALID. ci_run. by rewrite assert_equal_refl. Qed.

Section Runs.
Variables (h : dlheap) (w u v n : Z).
Hypotheses (Hu : u <> n) (Hv : v <> n) (Lu : ci_link h u) (Lv : ci_link h v) (Ln : ci_link h n).

Lemma insert_after_ok : ci_edge h w u -> ci_edge h u v ->
  exists h', ci_dllist_insert_after u n h = (h', Ok tt) /\ linked_between Datatypes.id h h' u n v.
Proof.
  intros Hw Huv. unfold ci_dllist_insert_after.
  rewrite (bind_Ok _ _ _ _ _ (assert_valid_ok h w u v Hw Huv)). destruct Huv as [A1 A2]. ci_run.
  eexists. split; [reflexivity|]. ci_points.
Qed.

Lemma insert_before_ok : ci_edge h v w -> ci_edge h u v ->
  exists h', ci_dllist_insert_before v n h = (h', Ok tt) /\ linked_between Datatypes.id h h' u n v.
Proof.
  intros Hw Huv. unfold ci_dllist_insert_before.
  rewrite (bind_Ok _ _ _ _ _ (assert_valid_ok h u v w Huv Hw)). destruct Huv as [A1 A2]. ci_run.
  eexists. split; [reflexivity|]. ci_points.
Qed.

Lemma push_ok : ci_edge h w u -> ci_edge h u v ->
  exists h', ci_dllist_push u n h = (h', Ok tt) /\ linked_between Datatypes.id h h' u n v.
Proof.
  intros Hw Huv. unfold ci_dllist_push.
  rewrite (bind_Ok _ _ _ _ _ (assert_valid_ok h w u v Hw Huv)). destruct Huv as [A1 A2]. ci_run.
  eexists. split; [reflexivity|]. ci_points.
Qed.

Lemma push_tail_ok : ci_edge h v w -> ci_edge h u v ->
  exists h', ci_dllist_push_tail v n h = (h', Ok tt) /\ linked_between Datatypes.id h h' u n v.
Proof.
  intros Hw Huv. unfold ci_dllist_push_tail.
  rewrite (bind_Ok _ _ _ _ _ (assert_valid_ok h u v w Huv Hw)). destruct Huv as [A1 A2]. ci_run.
  eexists. split; [reflexivity|]. ci_points.
Qed.

Lemma remove_ok : ci_edge h u n -> ci_edge h n v ->
  exists h', ci_dllist_remove n h = (h', Ok tt) /\ linked_over Datatypes.id h h' u v.
Proof.
  intros Hun Hnv. unfold ci_dllist_remove.
  rewrite (bind_Ok _ _ _ _ _ (assert_valid_ok h u n v Hun Hnv)). destruct Hun as [A1 A2], Hnv as [B1 B2]. ci_run.
  eexists. split; [reflexivity|]. ci_points.
Qed.
End Runs.

(** [ci_dllist_init] and [ci_dllink_self_link] leave a link linked to itself. *)
Definition self_linked ptr (h h' : dlheap) (a : Z) : Prop :=
  edge ptr h' a a /\ same_out ptr [a] h h' /\ (forall p, is_link ptr h p -> is_link ptr h' p).

Ltac self_points := eexists; split; [reflexivity|]; split; [|split];
  [ci_points|intros p Hp; apply not_elem_of_cons in Hp as [Hp _]; ci_points|intros; dllink].

Lemma init_ok h a : ci_link h a -> exists h', ci_dllist_init a h = (h', Ok tt) /\ self_linked Datatypes.id h h' a.
Proof. intros La. unfold ci_dllist_init. ci_run. self_points. Qed.

Lemma self_link_ok h a : ci_link h a -> exists h', ci_dllink_self_link a h = (h', Ok tt) /\ self_linked Datatypes.id h h' a.
Proof. intros La. unfold ci_dllink_self_link. ci_run. self_points. Qed.

(** The stores of [ci_dllist_rehome] and [ci_dllist_join] before [from] is
    emptied. *)
Lemma rehome_ok h to from f t : to <> from -> to <> f -> to <> t -> f <> from ->
  h_next h !! from = Some f -> h_prev h !! from = Some t ->
  ci_link h to -> ci_link h f -> ci_link h t ->
  exists h', ci_dllist_rehome to from h = ci_dllist_init from h' /\ linked_span Datatypes.id h h' to f t to.
Proof.
  intros H1 H2 H3 H4 Hf Ht L1 L2 L3. unfold ci_dllist_rehome, ci_dllist_is_empty. ci_run.
  rewrite (proj2 (Z.eqb_neq _ _) H4). ci_run.
  eexists. split; [reflexivity|]. ci_points.
Qed.

Lemma rehome_empty h to from : h_next h !! from = Some from ->
  ci_dllist_rehome to from h = ci_dllist_init to h.
Proof. intros H. unfold ci_dllist_rehome, ci_dllist_is_empty. ci_run. by rewrite Z.eqb_refl. Qed.

Lemma join_ok h a u from f t : a <> from -> u <> from -> f <> from -> f <> a -> u <> t ->
  h_next h !! from = Some f -> h_prev h !! from = Some t -> h_prev h !! a = Some u ->
  ci_link h a -> ci_link h f -> ci_link h t -> ci_link h u ->
  exists h', ci_dllist_join a from h = ci_dllist_init from h' /\ linked_span Datatypes.id h h' u f t a.
Proof.
  intros H1 H2 H3 H4 H5 Hf Ht Hu L1 L2 L3 L4. unfold ci_dllist_join, ci_dllist_not_empty. ci_run.
  rewrite (proj2 (Z.eqb_neq _ _) H3). cbn [negb]. ci_run.
  eexists. split; [reflexivity|]. ci_points.
Qed.

Lemma join_empty h a from : h_next h !! from = Some from -> ci_dllist_join a from h = (h, Ok tt).
Proof. intros H. unfold ci_dllist_join, ci_dllist_not_empty. ci_run. by rewrite Z.eqb_refl. Qed.

(** ** The abstract state: lists by their heads, and links in no list *)

Record dlstate := DLState { lists : gmap Z (list Z); free : gset Z }.

Section Represents.
Variable ptr : Z -> Z.
Context `{!Inj (=) (=) ptr}.

Definition represents (h : dlheap) (s : dlstate) : Prop :=
  (forall a l, lists s !! a = Some l -> ring ptr h a l) /\
  (forall a b la lb, a <> b -> lists s !! a = Some la -> lists s !! b = Some lb ->
     forall p, p ∈ a :: la -> p ∉ b :: lb) /\
  (forall p, p ∈ free s -> is_link ptr h p /\ forall a l, lists s !! a = Some l -> p ∉ a :: l).

(** A step that touches only links of [T], the footprint of the list [a] in
    the new state and of links it leaves free, keeps the rest. *)
Lemma represents_change h h' s s' T a l :
  represents h s -> lists s' !! a = Some l -> ring ptr h' a l -> (forall p, p ∈ a :: l -> p ∈ T) ->
  same_out ptr T h h' -> (forall p, is_link ptr h p -> is_link ptr h' p) ->
  (forall b lb, b <> a -> lists s' !! b = Some lb -> lists s !! b = Some lb /\ forall p, p ∈ b :: lb -> p ∉ T) ->
  (forall p, p ∈ free s' -> p ∉ a :: l /\ (p ∈ free s \/ (p ∈ T /\ is_link ptr h p))) ->
  represents h' s'.
Proof.
  intros (Hr & Hdis & Hfree) Ha Hra HaT Hout Hlink Hold Hnew. split; [|split].
  - intros b lb Hb. destruct (decide (b = a)) as [->|Hne]; [by simplify_eq|].
    destruct (Hold b lb Hne Hb) as [Hb' HT]. exact (ring_frame ptr h h' b lb T (Hr b lb Hb') Hout HT).
  - intros b c lb lc Hbc Hb Hc p Hp Hp'. destruct (decide (b = a)) as [->|Hba]; [|destruct (decide (c = a)) as [->|Hca]].
    + simplify_eq. destruct (Hold c lc ltac:(done) Hc) as [_ HT]. exact (HT p Hp' (HaT p Hp)).
    + simplify_eq. destruct (Hold b lb Hba Hb) as [_ HT]. exact (HT p Hp (HaT p Hp')).
    + destruct (Hold b lb Hba Hb) as [Hb' _], (Hold c lc Hca Hc) as [Hc' _].
      exact (Hdis b c lb lc Hbc Hb' Hc' p Hp Hp').
  - intros p Hp. destruct (Hnew p Hp) as [Hpa Hcase]. split.
    + destruct Hcase as [Hf|[_ HL]]; [by apply Hlink, Hfree|by apply Hlink].
    + intros b lb Hb Hin. destruct (decide (b = a)) as [->|Hba]; [by simplify_eq|].
      destruct (Hold b lb Hba Hb) as [Hb' HT]. destruct Hcase as [Hf|[HpT _]]; [|exact (HT p Hin HpT)].
      destruct (Hfree p Hf) as [_ Hn]. exact (Hn b lb Hb' Hin).
Qed.

Lemma rep_ring h s a l : represents h s -> lists s !! a = Some l -> ring ptr h a l.
Proof. intros (H & _). apply H. Qed.

Lemma rep_free h s p a l : represents h s -> p ∈ free s -> lists s !! a = Some l -> p ∉ a :: l.
Proof. intros (_ & _ & H) Hp Ha. destruct (H p Hp) as [_ Hn]. by apply Hn. Qed.

Lemma rep_link h s p : represents h s -> p ∈ free s -> is_link ptr h p.
Proof. intros (_ & _ & H) Hp. by apply H. Qed.

Lemma rep_disjoint h s a b la lb p : represents h s -> a <> b -> lists s !! a = Some la -> lists s !! b = Some lb ->
  p ∈ a :: la -> p ∉ b :: lb.
Proof. intros (_ & H & _) Hab Ha Hb. by apply (H a b). Qed.

(** The four shapes of step. *)
Definition add_link (s : dlstate) (a n : Z) (l : list Z) : dlstate := DLState (<[a := l]> (lists s)) (free s ∖ {[n]}).
Definition del_link (s : dlstate) (a k : Z) (l : list Z) : dlstate := DLState (<[a := l]> (lists s)) (free s ∪ {[k]}).
Definition new_list (s : dlstate) (a : Z) : dlstate := add_link s a a [].
(** The members of [b] go to [a], with those it has; [b] is free. *)
Definition move_list (s : dlstate) (a b : Z) (l : list Z) : dlstate :=
  DLState (<[a := l]> (delete b (lists s))) ((free s ∖ {[a]}) ∪ {[b]}).

Lemma rep_insert h h' s a l1 l2 n u v : represents h s -> lists s !! a = Some (l1 ++ l2) -> n ∈ free s ->
  last (a :: l1) = Some u -> head (l2 ++ [a]) = Some v -> linked_between ptr h h' u n v ->
  represents h' (add_link s a n (l1 ++ n :: l2)).
Proof.
  intros Hrep Ha Hn Hu Hv Hl. pose proof (rep_free h s n a _ Hrep Hn Ha) as Hna.
  destruct (ring_insert ptr h h' a l1 l2 n u v (rep_ring h s a _ Hrep Ha) Hna Hu Hv Hl) as [Hr Hout].
  eapply (represents_change h h' s _ _ a); [done|apply lookup_insert_eq|exact Hr| |exact Hout| | |].
  - set_solver.
  - intros p. exact (span_links ptr h h' u n n v p Hl).
  - intros b lb Hb. cbn. rewrite lookup_insert_ne by done. intros Hlb. split; [done|].
    intros p Hp [->|Hp']%elem_of_cons; [by apply (rep_free h s n b lb)|].
    by apply (rep_disjoint h s a b (l1 ++ l2) lb p Hrep).
  - cbn. intros p Hp. assert (p ∈ free s) by set_solver. split; [|by left].
    pose proof (rep_free h s p a _ Hrep H Ha). set_solver.
Qed.

Lemma rep_remove h h' s a l1 l2 k u v : represents h s -> lists s !! a = Some (l1 ++ k :: l2) ->
  last (a :: l1) = Some u -> head (l2 ++ [a]) = Some v -> linked_over ptr h h' u v ->
  represents h' (del_link s a k (l1 ++ l2)).
Proof.
  intros Hrep Ha Hu Hv Hl. pose proof (rep_ring h s a _ Hrep Ha) as Hr0.
  destruct (ring_remove ptr h h' a l1 l2 k u v Hr0 Hu Hv Hl) as [Hr Hout].
  eapply (represents_change h h' s _ _ a); [done|apply lookup_insert_eq|exact Hr| |exact Hout| | |].
  - set_solver.
  - intros p. apply Hl.
  - intros b lb Hb. cbn. rewrite lookup_insert_ne by done. intros Hlb. split; [done|].
    intros p Hp Hp'. by apply (rep_disjoint h s a b (l1 ++ k :: l2) lb p Hrep).
  - cbn. intros p [Hp|Hp]%elem_of_union.
    + split; [|by left]. pose proof (rep_free h s p a _ Hrep Hp Ha). set_solver.
    + apply elem_of_singleton in Hp as ->. split; [|right; split; [set_solver|]].
      * destruct Hr0 as [Hd _]. rewrite app_comm_cons in Hd.
        apply NoDup_app in Hd as (_ & Hx & [? _]%NoDup_cons). pose proof (Hx k). set_solver.
      * eapply ring_link; [exact Hr0|set_solver].
Qed.

Lemma rep_new h h' s a : represents h s -> a ∈ free s -> self_linked ptr h h' a -> represents h' (new_list s a).
Proof.
  intros Hrep Ha (E & Hout & Hlink).
  eapply (represents_change h h' s _ _ a []); [done|apply lookup_insert_eq| | |exact Hout|exact Hlink| |].
  - split; [apply NoDup_singleton|]. done.
  - set_solver.
  - intros b lb Hb. cbn. rewrite lookup_insert_ne by done. intros Hlb. split; [done|].
    intros p Hp ->%list_elem_of_singleton. by apply (rep_free h s a b lb).
  - cbn. intros p Hp. split; [set_solver|]. left. set_solver.
Qed.

(** [a] is free or has the list [l1 ++ l2]; it takes the members of [b]. *)
Lemma rep_move h h' s a b l1 m l2 u f t v : represents h s -> a <> b ->
  (a ∈ free s /\ l1 = [] /\ l2 = [] \/ lists s !! a = Some (l1 ++ l2)) -> lists s !! b = Some m ->
  last (a :: l1) = Some u -> head (l2 ++ [a]) = Some v -> head m = Some f -> last m = Some t ->
  linked_span ptr h h' u f t v -> represents h' (move_list s a b (l1 ++ m ++ l2)).
Proof.
  intros Hrep Hab Ha Hb Hu Hv Hf Ht Hl. pose proof (rep_ring h s b m Hrep Hb) as Hrb.
  assert (Hdis : forall p, p ∈ b :: m -> p ∉ a :: l1 ++ l2).
  { intros p Hp. destruct Ha as [(Ha & -> & ->)|Ha].
    - intros ->%list_elem_of_singleton. by apply (rep_free h s a b m).
    - by apply (rep_disjoint h s b a m (l1 ++ l2) p Hrep). }
  assert (Hr : ring ptr h' a (l1 ++ m ++ l2)).
  { destruct Ha as [(Ha & -> & ->)|Ha].
    - rewrite app_nil_r. cbn in Hu, Hv. injection Hu as <-. injection Hv as <-. eapply (ring_move ptr h h' a b m f t); try done.
      pose proof (Hdis a). set_solver.
    - eapply (ring_join ptr h h' a l1 l2 b m f t u v); try done; [by apply (rep_ring h s)|].
      intros p Hp. apply Hdis. set_solver. }
  assert (Hfm : f ∈ m) by (destruct m; simplify_eq/=; set_solver).
  assert (Htm : t ∈ m) by by apply last_Some_elem_of.
  assert (Hui : u ∈ a :: l1) by by apply last_Some_elem_of.
  assert (Hvi : v ∈ l2 ++ [a]) by (destruct (head_is_Some l2 a) as (v' & E & ?); congruence).
  eapply (represents_change h h' s _ (b :: a :: l1 ++ m ++ l2) a); [done|apply lookup_insert_eq|exact Hr| | | | |].
  - set_solver.
  - eapply span_out; [exact Hl|set_solver..].
  - intros p. exact (span_links ptr h h' u f t v p Hl).
  - intros c lc Hc. cbn. rewrite lookup_insert_ne by done. intros [Hcb Hlc]%lookup_delete_Some. split; [done|].
    intros p Hp Hp'. assert (p ∈ b :: m \/ p ∈ a :: l1 ++ l2) as [Hx|Hx] by set_solver.
    + by apply (rep_disjoint h s b c m lc p Hrep).
    + destruct Ha as [(Ha & -> & ->)|Ha].
      * apply list_elem_of_singleton in Hx as ->. by apply (rep_free h s a c lc).
      * by apply (rep_disjoint h s a c (l1 ++ l2) lc p Hrep).
  - cbn. intros p [Hp|Hp]%elem_of_union.
    + assert (Hpf : p ∈ free s) by set_solver. split; [|by left]. pose proof (rep_free h s p b m Hrep Hpf Hb).
      destruct Ha as [(Ha & -> & ->)|Ha]; [set_solver|]. pose proof (rep_free h s p a _ Hrep Hpf Ha). set_solver.
    + apply elem_of_singleton in Hp as ->. split; [|right; split; [set_solver|]].
      * pose proof (Hdis b ltac:(set_solver)). destruct Hrb as [[? _]%NoDup_cons _]. set_solver.
      * eapply ring_link; [exact Hrb|set_solver].
Qed.

(** What memory holds around a position of a list. *)
Lemma rep_place h s a l1 l2 : represents h s -> lists s !! a = Some (l1 ++ l2) -> exists u v,
  last (a :: l1) = Some u /\ head (l2 ++ [a]) = Some v /\ edge ptr h u v /\
  is_link ptr h u /\ is_link ptr h v /\ (exists w, edge ptr h w u) /\ (exists w, edge ptr h v w) /\
  u ∈ a :: l1 ++ l2 /\ v ∈ a :: l1 ++ l2 /\ (forall n, n ∈ free s -> u <> n /\ v <> n).
Proof.
  intros Hrep Ha. pose proof (rep_ring h s a _ Hrep Ha) as Hr.
  destruct (ring_parts ptr h a l1 l2 Hr) as (u & v & Hu & Hv & _ & _ & E & _ & Hui & Hvi).
  assert (u ∈ a :: l1 ++ l2 /\ v ∈ a :: l1 ++ l2) as [Iu Iv] by set_solver.
  destruct (ring_valid ptr h a _ u Hr Iu) as (w & w1 & Ew & _), (ring_valid ptr h a _ v Hr Iv) as (w2 & w' & _ & Ew').
  exists u, v. split_and!; eauto using ring_link.
  intros n Hn. pose proof (rep_free h s n a _ Hrep Hn Ha). set_solver.
Qed.

(** The neighbours of a member. *)
Lemma rep_member h s a l1 k l2 : represents h s -> lists s !! a = Some (l1 ++ k :: l2) -> exists u v,
  last (a :: l1) = Some u /\ head (l2 ++ [a]) = Some v /\ edge ptr h u k /\ edge ptr h k v /\
  u <> k /\ v <> k /\ is_link ptr h u /\ is_link ptr h k /\ is_link ptr h v.
Proof.
  intros Hrep Ha. pose proof (rep_ring h s a _ Hrep Ha) as Hr.
  destruct (rep_place h s a l1 (k :: l2) Hrep Ha) as (u & k' & Hu & Hk & E1 & Lu & Lk & _ & _ & _ & _ & _).
  cbn in Hk. injection Hk as <-.
  assert (Ha' : lists s !! a = Some ((l1 ++ [k]) ++ l2)) by (by rewrite <- app_assoc).
  destruct (rep_place h s a (l1 ++ [k]) l2 Hrep Ha') as (k' & v & Hk & Hv & E2 & _ & Lv & _).
  rewrite app_comm_cons, last_snoc in Hk. injection Hk as <-. exists u, v. split_and!; try done.
  all: destruct Hr as [Hd _]; rewrite app_comm_cons in Hd; apply NoDup_app in Hd as (_ & Hx & Hd).
  - intros ->. apply (Hx k); [by apply last_Some_elem_of in Hu|set_solver].
  - intros ->. assert (k ∈ l2 ++ [a]) by (destruct (head_is_Some l2 a) as (v' & E & ?); congruence).
    apply NoDup_cons in Hd as [Hd _]. apply (Hx a); set_solver.
Qed.
(** The ends of a list, as its head holds them. *)
Lemma rep_ends h s a l : represents h s -> lists s !! a = Some l ->
  nx ptr h a = head (l ++ [a]) /\ pv ptr h a = last (a :: l).
Proof.
  intros Hrep Ha. split.
  - destruct (rep_place h s a [] l Hrep Ha) as (u & v & Hu & Hv & [E _] & _). cbn in Hu. injection Hu as <-.
    by rewrite Hv.
  - rewrite <- (app_nil_r l) in Ha.
    destruct (rep_place h s a l [] Hrep Ha) as (u & v & Hu & Hv & [_ E] & _). cbn in Hv. injection Hv as <-.
    by rewrite Hu.
Qed.

(** The first and the last of a list with members are links, told apart from
    everything outside the list. *)
Lemma rep_span h s b m : represents h s -> lists s !! b = Some m -> m <> [] -> exists f t,
  head m = Some f /\ last m = Some t /\ f ∈ m /\ t ∈ m /\ nx ptr h b = Some f /\ pv ptr h b = Some t /\
  f <> b /\ t <> b /\ is_link ptr h f /\ is_link ptr h t.
Proof.
  intros Hrep Hb Hm. pose proof (rep_ring h s b m Hrep Hb) as Hr. destruct (rep_ends h s b m Hrep Hb) as [E1 E2].
  destruct m as [|f m]; [done|]. change (last (b :: f :: m)) with (last (f :: m)) in E2.
  destruct (last_is_Some f m) as (t & Ht & Htm). exists f, t.
  assert (b ∉ f :: m) by (destruct Hr as [Hd _]; by apply NoDup_cons in Hd as [? _]).
  split_and!; try done; [set_solver|by rewrite E2|set_solver|set_solver|..]; (eapply (ring_link ptr); [exact Hr|set_solver]).
Qed.

End Represents.

(** ** Calls, and what they mean for the abstract state *)

Inductive dlcall :=
  | CInit (list : Z) | CSelfLink (link : Z) | CMarkFree (link : Z)
  | CInsertAfter (before after : Z) | CInsertBefore (after insert : Z)
  | CPush (list link : Z) | CPushTail (list link : Z)
  | CRemove (link : Z) | CRemoveSafe (link : Z)
  | CPop (list : Z) | CPopTail (list : Z) | CTryPop (list : Z) | CTryPopTail (list : Z)
  | CRehome (to from : Z) | CJoin (list from : Z).

Definition void (c : M unit) : M (option Z) := c ;;; ret None.
Definition link_of (c : M Z) : M (option Z) := let! l := c in ret (Some l).

Definition run_call (c : dlcall) : M (option Z) :=
  match c with
  | CInit a => void (ci_dllist_init a)
  | CSelfLink n => void (ci_dllink_self_link n)
  | CMarkFree n => void (ci_dllink_mark_free n)
  | CInsertAfter b n => void (ci_dllist_insert_after b n)
  | CInsertBefore b n => void (ci_dllist_insert_before b n)
  | CPush a n => void (ci_dllist_push a n)
  | CPushTail a n => void (ci_dllist_push_tail a n)
  | CRemove k => void (ci_dllist_remove k)
  | CRemoveSafe k => void (ci_dllist_remove_safe k)
  | CPop a => link_of (ci_dllist_pop a)
  | CPopTail a => link_of (ci_dllist_pop_tail a)
  | CTryPop a => ci_dllist_try_pop a
  | CTryPopTail a => ci_dllist_try_pop_tail a
  | CRehome to from => void (ci_dllist_rehome to from)
  | CJoin a from => void (ci_dllist_join a from)
  end.

(** The calls on lists of links: which are allowed, and their effect. *)
Inductive dlspec (s : dlstate) : dlcall -> option Z -> dlstate -> Prop :=
  | SInit a : a ∈ free s -> dlspec s (CInit a) None (new_list s a)
  | SSelfLink a : a ∈ free s -> dlspec s (CSelfLink a) None (new_list s a)
  | SMarkFree a : a ∈ free s -> dlspec s (CMarkFree a) None s
  | SInsertAfter a l1 l2 b n : lists s !! a = Some (l1 ++ l2) -> last (a :: l1) = Some b -> n ∈ free s ->
      dlspec s (CInsertAfter b n) None (add_link s a n (l1 ++ n :: l2))
  | SInsertBefore a l1 l2 b n : lists s !! a = Some (l1 ++ l2) -> head (l2 ++ [a]) = Some b -> n ∈ free s ->
      dlspec s (CInsertBefore b n) None (add_link s a n (l1 ++ n :: l2))
  | SPush a l n : lists s !! a = Some l -> n ∈ free s -> dlspec s (CPush a n) None (add_link s a n (n :: l))
  | SPushTail a l n : lists s !! a = Some l -> n ∈ free s ->
      dlspec s (CPushTail a n) None (add_link s a n (l ++ [n]))
  | SRemove a l1 k l2 : lists s !! a = Some (l1 ++ k :: l2) ->
      dlspec s (CRemove k) None (del_link s a k (l1 ++ l2))
  | SRemoveSafe a l1 k l2 : lists s !! a = Some (l1 ++ k :: l2) ->
      dlspec s (CRemoveSafe k) None (new_list (del_link s a k (l1 ++ l2)) k)
  | SPop a k l : lists s !! a = Some (k :: l) -> dlspec s (CPop a) (Some k) (del_link s a k l)
  | SPopTail a k l : lists s !! a = Some (l ++ [k]) -> dlspec s (CPopTail a) (Some k) (del_link s a k l)
  | STryPop a k l : lists s !! a = Some (k :: l) -> dlspec s (CTryPop a) (Some k) (del_link s a k l)
  | STryPopNull a : lists s !! a = Some [] -> dlspec s (CTryPop a) None s
  | STryPopTail a k l : lists s !! a = Some (l ++ [k]) -> dlspec s (CTryPopTail a) (Some k) (del_link s a k l)
  | STryPopTailNull a : lists s !! a = Some [] -> dlspec s (CTryPopTail a) None s
  | SRehome to from l : to ∈ free s -> lists s !! from = Some l ->
      dlspec s (CRehome to from) None (DLState (<[from := []]> (<[to := l]> (lists s))) (free s ∖ {[to]}))
  | SJoin a from l m : a <> from -> lists s !! a = Some l -> lists s !! from = Some m ->
      dlspec s (CJoin a from) None (DLState (<[from := []]> (<[a := l ++ m]> (lists s))) (free s)).

(** Sequences of calls. *)
Inductive dlspecs : dlstate -> list dlcall -> list (option Z) -> dlstate -> Prop :=
  | SNil s : dlspecs s [] [] s
  | SCons s c r s1 cs rs s2 : dlspec s c r s1 -> dlspecs s1 cs rs s2 -> dlspecs s (c :: cs) (r :: rs) s2.

Fixpoint run_calls (cs : list dlcall) : M (list (option Z)) :=
  match cs with
  | [] => ret []
  | c :: cs' => let! r := run_call c in let! rs := run_calls cs' in ret (r :: rs)
  end.

Abbreviation ci_represents := (represents Datatypes.id).

(** Running a call [c] in memory [h] gives [r] and represents [s']. *)
Definition refined (h : dlheap) (c : M (option Z)) (r : option Z) (s' : dlstate) : Prop :=
  exists h', c h = (h', Ok r) /\ ci_represents h' s'.

Lemma void_refined h c s' h' : c h = (h', Ok tt) -> ci_represents h' s' -> refined h (void c) None s'.
Proof. intros H Hr. exists h'. split; [|done]. unfold void. by rewrite (bind_Ok _ _ _ _ _ H). Qed.

Lemma insert_refines h s a l1 l2 n : ci_represents h s -> lists s !! a = Some (l1 ++ l2) -> n ∈ free s ->
  exists u v, last (a :: l1) = Some u /\ head (l2 ++ [a]) = Some v /\
  refined h (void (ci_dllist_insert_after u n)) None (add_link s a n (l1 ++ n :: l2)) /\
  refined h (void (ci_dllist_insert_before v n)) None (add_link s a n (l1 ++ n :: l2)) /\
  refined h (void (ci_dllist_push u n)) None (add_link s a n (l1 ++ n :: l2)) /\
  refined h (void (ci_dllist_push_tail v n)) None (add_link s a n (l1 ++ n :: l2)).
Proof.
  intros Hrep Ha Hn. pose proof (rep_link _ h s n Hrep Hn) as Ln.
  destruct (rep_place _ h s a l1 l2 Hrep Ha) as (u & v & Hu & Hv & E & Lu & Lv & [w Ew] & [x Ex] & _ & _ & Hf).
  destruct (Hf n Hn) as [Nu Nv]. exists u, v. split; [done|]. split; [done|].
  split_and!.
  - destruct (insert_after_ok h w u v n Nu Nv Lu Lv Ln Ew E) as (h' & R & L).
    eapply void_refined; [exact R|]. by eapply (rep_insert Datatypes.id).
  - destruct (insert_before_ok h x u v n Nu Nv Lu Lv Ln Ex E) as (h' & R & L).
    eapply void_refined; [exact R|]. by eapply (rep_insert Datatypes.id).
  - destruct (push_ok h w u v n Nu Nv Lu Lv Ln Ew E) as (h' & R & L).
    eapply void_refined; [exact R|]. by eapply (rep_insert Datatypes.id).
  - destruct (push_tail_ok h x u v n Nu Nv Lu Lv Ln Ex E) as (h' & R & L).
    eapply void_refined; [exact R|]. by eapply (rep_insert Datatypes.id).
Qed.

Lemma remove_refines h s a l1 k l2 : ci_represents h s -> lists s !! a = Some (l1 ++ k :: l2) ->
  exists h', ci_dllist_remove k h = (h', Ok tt) /\ ci_represents h' (del_link s a k (l1 ++ l2)).
Proof.
  intros Hrep Ha.
  destruct (rep_member _ h s a l1 k l2 Hrep Ha) as (u & v & Hu & Hv & E1 & E2 & Nu & Nv & Lu & Lk & Lv).
  destruct (remove_ok h u v k Nu Lu Lv E1 E2) as (h' & R & L). exists h'. split; [done|].
  by eapply (rep_remove Datatypes.id).
Qed.

(** [ci_dllist_remove_safe] is [ci_dllist_remove] and a link to itself. *)
Lemma remove_safe_split link h :
  ci_dllist_remove_safe link h = (ci_dllist_remove link ;;; ci_dllink_self_link link) h.
Proof.
  unfold ci_dllist_remove_safe, ci_dllist_remove, ci_dllink_self_link, bind.
  repeat (match goal with |- context [match ?x with _ => _ end] => destruct x end; try done).
Qed.

Lemma self_refines h s k : ci_represents h s -> k ∈ free s ->
  exists h', ci_dllink_self_link k h = (h', Ok tt) /\ ci_represents h' (new_list s k).
Proof.
  intros Hrep Hk. destruct (self_link_ok h k (rep_link _ h s k Hrep Hk)) as (h' & R & L).
  exists h'. split; [done|]. by eapply (rep_new Datatypes.id).
Qed.

Lemma init_refines h s k : ci_represents h s -> k ∈ free s ->
  exists h', ci_dllist_init k h = (h', Ok tt) /\ ci_represents h' (new_list s k).
Proof.
  intros Hrep Hk. destruct (init_ok h k (rep_link _ h s k Hrep Hk)) as (h' & R & L).
  exists h'. split; [done|]. by eapply (rep_new Datatypes.id).
Qed.

(** A store into a free link changes no list. *)
Lemma mark_free_refines h s k : ci_represents h s -> k ∈ free s ->
  exists h', ci_dllink_mark_free k h = (h', Ok tt) /\ ci_represents h' s.
Proof.
  intros Hrep Hk. unfold ci_dllink_mark_free. exists (upd_n Datatypes.id h k 0).
  split; [apply (set_next_ok Datatypes.id), (rep_link _ h s k Hrep Hk)|].
  assert (Hout : same_out Datatypes.id [k] h (upd_n Datatypes.id h k 0)).
  { intros p Hp. apply not_elem_of_cons in Hp as [Hp _]. split; dlread; done. }
  destruct Hrep as (H1 & H2 & H3). split; [|split]; [|done|].
  - intros a l Ha. apply (ring_frame Datatypes.id h _ a l [k]); [by apply H1|exact Hout|].
    intros p Hp ->%list_elem_of_singleton. by apply (H3 k Hk) in Hp.
  - intros p Hp. split; [|by apply H3]. apply link_upd_n; [apply _|]. by apply H3.
Qed.

Lemma pop_refines h s a k l : ci_represents h s -> lists s !! a = Some (k :: l) ->
  exists h', ci_dllist_pop a h = (h', Ok k) /\ ci_represents h' (del_link s a k l).
Proof.
  intros Hrep Ha. destruct (rep_ends _ h s a _ Hrep Ha) as [E _]. cbn in E.
  destruct (remove_refines h s a [] k l Hrep Ha) as (h' & R & Hrep'). exists h'. split; [|done].
  unfold ci_dllist_pop. dlstep (@Datatypes.id Z). by rewrite (bind_Ok _ _ _ _ _ R).
Qed.

Lemma pop_tail_refines h s a k l : ci_represents h s -> lists s !! a = Some (l ++ [k]) ->
  exists h', ci_dllist_pop_tail a h = (h', Ok k) /\ ci_represents h' (del_link s a k l).
Proof.
  intros Hrep Ha. destruct (rep_ends _ h s a _ Hrep Ha) as [_ E]. rewrite app_comm_cons, last_snoc in E.
  destruct (remove_refines h s a l k [] Hrep Ha) as (h' & R & Hrep'). rewrite app_nil_r in Hrep'.
  exists h'. split; [|done]. unfold ci_dllist_pop_tail. dlstep (@Datatypes.id Z). by rewrite (bind_Ok _ _ _ _ _ R).
Qed.

(** [ci_dllist_is_empty] tells whether the list is empty. *)
Lemma is_empty_ok h s a l : ci_represents h s -> lists s !! a = Some l ->
  ci_dllist_is_empty a h = (h, Ok (bool_decide (l = []))).
Proof.
  intros Hrep Ha. destruct (rep_ends _ h s a l Hrep Ha) as [E _]. destruct (rep_ring _ h s a l Hrep Ha) as [Hd _].
  unfold ci_dllist_is_empty. destruct l as [|k l]; cbn in E; ci_run; [by rewrite Z.eqb_refl|].
  apply NoDup_cons in Hd as [Hd _]. rewrite (proj2 (Z.eqb_neq _ _)) by set_solver. done.
Qed.

Lemma try_refines h s a l k c s' : ci_represents h s -> lists s !! a = Some l -> l <> [] ->
  (exists h', c h = (h', Ok k) /\ ci_represents h' s') ->
  refined h (let! e := ci_dllist_is_empty a in if e then ret None else let! x := c in ret (Some x)) (Some k) s'.
Proof.
  intros Hrep Ha Hl (h' & R & Hrep'). exists h'. split; [|done].
  rewrite (bind_Ok _ _ _ _ _ (is_empty_ok h s a l Hrep Ha)), bool_decide_eq_false_2 by done.
  by rewrite (bind_Ok _ _ _ _ _ R).
Qed.

Lemma try_null_refines h s a c : ci_represents h s -> lists s !! a = Some [] ->
  refined h (let! e := ci_dllist_is_empty a in if e then ret None else c) None s.
Proof.
  intros Hrep Ha. exists h. split; [|done].
  by rewrite (bind_Ok _ _ _ _ _ (is_empty_ok h s a [] Hrep Ha)), bool_decide_eq_true_2.
Qed.

(** Moving the members of [b] away and emptying it is an update of two lists. *)
Lemma move_new_eq h s a b l l' : ci_represents h s -> a <> b -> lists s !! b = Some l' ->
  new_list (move_list s a b l) b = DLState (<[b := []]> (<[a := l]> (lists s))) (free s ∖ {[a]}).
Proof.
  intros Hrep Hab Hb. unfold new_list, add_link, move_list. cbn. f_equal.
  - rewrite (insert_insert_ne _ b a) by done. rewrite insert_delete_eq. by rewrite insert_insert_ne.
  - assert (b ∉ free s) by (intros Hf; apply (rep_free _ h s b b l' Hrep Hf Hb); set_solver). set_solver.
Qed.

Lemma rehome_refines h s to from l : ci_represents h s -> to ∈ free s -> lists s !! from = Some l ->
  refined h (void (ci_dllist_rehome to from)) None
    (DLState (<[from := []]> (<[to := l]> (lists s))) (free s ∖ {[to]})).
Proof.
  intros Hrep Hto Hfrom. pose proof (rep_free _ h s to from l Hrep Hto Hfrom) as Hn. destruct (decide (l = [])) as [->|Hl].
  - destruct (rep_ends _ h s from [] Hrep Hfrom) as [E _].
    destruct (init_refines h s to Hrep Hto) as (h' & R & Hrep').
    eapply void_refined; [rewrite rehome_empty by exact E; exact R|].
    rewrite insert_insert_ne by set_solver. by rewrite (insert_id (lists s) from []).
  - destruct (rep_span _ h s from l Hrep Hfrom Hl) as (f & t & Hf & Ht & If & It & E1 & E2 & N1 & N2 & Lf & Lt).
    destruct (rehome_ok h to from f t) as (h1 & R & L); try done; [set_solver..|by eapply rep_link|].
    assert (Hrep1 : ci_represents h1 (move_list s to from ([] ++ l ++ []))).
    { eapply (rep_move Datatypes.id h h1 s to from [] l [] to f t to); try done; [set_solver|by left]. }
    rewrite app_nil_r in Hrep1. cbn [app] in Hrep1.
    destruct (init_refines h1 _ from Hrep1) as (h' & R' & Hrep'); [cbn; set_solver|].
    eapply void_refined; [rewrite R; exact R'|]. by erewrite <- move_new_eq by (done || set_solver).
Qed.

Lemma join_refines h s a from l m : ci_represents h s -> a <> from ->
  lists s !! a = Some l -> lists s !! from = Some m ->
  refined h (void (ci_dllist_join a from)) None (DLState (<[from := []]> (<[a := l ++ m]> (lists s))) (free s)).
Proof.
  intros Hrep Hne Ha Hfrom. destruct (decide (m = [])) as [->|Hm].
  - destruct (rep_ends _ h s from [] Hrep Hfrom) as [E _].
    eapply void_refined; [apply join_empty; exact E|]. rewrite app_nil_r.
    rewrite (insert_id (lists s) a l), (insert_id (lists s) from []) by done. by destruct s.
  - destruct (rep_span _ h s from m Hrep Hfrom Hm) as (f & t & Hf & Ht & If & It & E1 & E2 & N1 & N2 & Lf & Lt).
    assert (Ha' : lists s !! a = Some (l ++ [])) by (by rewrite app_nil_r).
    destruct (rep_place _ h s a l [] Hrep Ha') as (u & v & Hu & Hv & [_ E3] & Lu & Lv & _ & _ & Iu & _).
    cbn in Hv. injection Hv as <-. rewrite app_nil_r in Iu.
    pose proof (fun p => rep_disjoint _ h s a from l m p Hrep Hne Ha Hfrom) as Hdis.
    pose proof (Hdis u Iu) as Hu'. pose proof (Hdis a ltac:(set_solver)) as Ha2.
    destruct (join_ok h a u from f t) as (h1 & R & L); try done; [set_solver..|].
    assert (Hrep1 : ci_represents h1 (move_list s a from (l ++ m ++ []))).
    { eapply (rep_move Datatypes.id h h1 s a from l m [] u f t a); try done. by right. }
    rewrite app_nil_r in Hrep1.
    destruct (init_refines h1 _ from Hrep1) as (h' & R' & Hrep'); [cbn; set_solver|].
    eapply void_refined; [rewrite R; exact R'|]. erewrite (move_new_eq h s a from) in Hrep' by done.
    replace (free s) with (free s ∖ {[a]}); [done|].
    assert (a ∉ free s) by (intros Hf'; apply (rep_free _ h s a a l Hrep Hf' Ha); set_solver). set_solver.
Qed.

Lemma call_refines h s c r s' : ci_represents h s -> dlspec s c r s' -> refined h (run_call c) r s'.
Proof.
  intros Hrep []; cbn [run_call].
  - destruct (init_refines h s a) as (h' & R & ?); try done. by eapply void_refined.
  - destruct (self_refines h s a) as (h' & R & ?); try done. by eapply void_refined.
  - destruct (mark_free_refines h s a) as (h' & R & ?); try done. by eapply void_refined.
  - destruct (insert_refines h s a l1 l2 n) as (u & v & Hu & Hv & R1 & R2 & R3 & R4); try done. by simplify_eq.
  - destruct (insert_refines h s a l1 l2 n) as (u & v & Hu & Hv & R1 & R2 & R3 & R4); try done. by simplify_eq.
  - destruct (insert_refines h s a [] l n) as (u & v & Hu & Hv & R1 & R2 & R3 & R4); try done. by simplify_eq/=.
  - destruct (insert_refines h s a l [] n) as (u & v & Hu & Hv & R1 & R2 & R3 & R4); try done;
      [by rewrite app_nil_r|]. cbn in Hv. by injection Hv as <-.
  - destruct (remove_refines h s a l1 k l2) as (h' & R & ?); try done. by eapply void_refined.
  - destruct (remove_refines h s a l1 k l2) as (h1 & R & Hrep1); try done.
    destruct (self_refines h1 _ k Hrep1) as (h' & R' & ?); [cbn; set_solver|].
    eapply void_refined; [|done]. rewrite remove_safe_split. by rewrite (bind_Ok _ _ _ _ _ R).
  - destruct (pop_refines h s a k l) as (h' & R & ?); try done. exists h'.
    unfold link_of. by rewrite (bind_Ok _ _ _ _ _ R).
  - destruct (pop_tail_refines h s a k l) as (h' & R & ?); try done. exists h'.
    unfold link_of. by rewrite (bind_Ok _ _ _ _ _ R).
  - eapply try_refines; [done|done|done|]. by apply pop_refines.
  - by apply try_null_refines.
  - eapply try_refines; [done|done|by destruct l|]. by apply pop_tail_refines.
  - by apply try_null_refines.
  - by apply rehome_refines.
  - by apply join_refines.
Qed.

(** ** Traversals *)

(** The walk along the rest of a ring gives the rest of its members. *)
Lemma for_each_walk h a l1 l2 fuel v : ring Datatypes.id h a (l1 ++ l2) -> (length l2 < fuel)%nat ->
  head (l2 ++ [a]) = Some v -> for_each fuel a v h = (h, Ok l2).
Proof.
  intros Hr. revert l1 fuel v Hr. induction l2 as [|k l2 IH]; intros l1 fuel v Hr Hf Hv;
    (destruct fuel as [|fuel]; [simpl in Hf; lia|]); cbn in Hv; injection Hv as <-; cbn [for_each].
  - by rewrite Z.eqb_refl.
  - assert (k <> a).
    { destruct Hr as [Hd _]. apply NoDup_cons in Hd as [Hd _]. set_solver. }
    rewrite (proj2 (Z.eqb_neq _ _)) by done.
    change (k :: l2) with ([k] ++ l2) in Hr. rewrite app_assoc in Hr.
    destruct (ring_parts _ h a (l1 ++ [k]) l2 Hr) as (k' & v & Hk & Hv & _ & _ & [E _] & _).
    rewrite app_comm_cons, last_snoc in Hk. injection Hk as <-. dlstep (@Datatypes.id Z).
    rewrite (bind_Ok _ _ _ _ _ (IH (l1 ++ [k]) fuel v Hr ltac:(simpl in Hf; lia) Hv)). done.
Qed.

Lemma find_walk h a l1 l2 fuel v link : ring Datatypes.id h a (l1 ++ l2) -> (length l2 < fuel)%nat ->
  head (l2 ++ [a]) = Some v -> find_from fuel a link v h = (h, Ok (bool_decide (link ∈ l2))).
Proof.
  intros Hr. revert l1 fuel v Hr. induction l2 as [|k l2 IH]; intros l1 fuel v Hr Hf Hv;
    (destruct fuel as [|fuel]; [simpl in Hf; lia|]); cbn in Hv; injection Hv as <-; cbn [find_from].
  - by rewrite Z.eqb_refl.
  - assert (k <> a).
    { destruct Hr as [Hd _]. apply NoDup_cons in Hd as [Hd _]. set_solver. }
    rewrite (proj2 (Z.eqb_neq _ _)) by done. destruct (Z.eqb_spec k link) as [->|Hk].
    { rewrite bool_decide_eq_true_2; [done|set_solver]. }
    change (k :: l2) with ([k] ++ l2) in Hr. rewrite app_assoc in Hr.
    destruct (ring_parts _ h a (l1 ++ [k]) l2 Hr) as (k' & v & Hk' & Hv & _ & _ & [E _] & _).
    rewrite app_comm_cons, last_snoc in Hk'. injection Hk' as <-. dlstep (@Datatypes.id Z).
    rewrite (IH (l1 ++ [k]) fuel v Hr ltac:(simpl in Hf; lia) Hv). do 2 f_equal.
    apply bool_decide_ext. rewrite elem_of_cons. naive_solver.
Qed.

Lemma traversal_steps h s a l fuel : ci_represents h s -> lists s !! a = Some l -> (length l < fuel)%nat ->
  CI_DLLIST_FOR_EACH fuel a h = (h, Ok l) /\
  forall link, ci_dllist_is_member fuel a link h = (h, Ok (bool_decide (link ∈ l))).
Proof.
  intros Hrep Ha Hf. pose proof (rep_ring _ h s a l Hrep Ha) as Hr.
  destruct (rep_place _ h s a [] l Hrep Ha) as (u & v & Hu & Hv & [E _] & _). cbn in Hu. injection Hu as <-.
  split; [|intros link]; unfold CI_DLLIST_FOR_EACH, ci_dllist_is_member, ci_dllist_start; dlstep (@Datatypes.id Z);
    [by apply (for_each_walk h a [] l)|by apply (find_walk h a [] l)].
Qed.

(** ** The theorems *)

(** C13: every sequence of calls of the list interface that respects its
    contract (links inserted are in no list, heads initialised are free) runs
    without assertion failure and without access outside the links, returns
    the results that the operations on sequences of members give, and leaves a
    memory that represents the resulting sequences: push, insert, remove, pop,
    rehome and join on any number of disjoint lists. *)
Theorem dllist_refines h s cs rs s' : ci_represents h s -> dlspecs s cs rs s' ->
  exists h', run_calls cs h = (h', Ok rs) /\ ci_represents h' s'.
Proof.
  intros Hrep Hs. revert h Hrep. induction Hs as [s|s c r s1 cs rs s2 Hc _ IH]; intros h Hrep; [by exists h|].
  destruct (call_refines h s c r s1 Hrep Hc) as (h1 & R & Hrep1). destruct (IH h1 Hrep1) as (h' & R' & Hrep').
  exists h'. split; [|done]. cbn [run_calls]. rewrite (bind_Ok _ _ _ _ _ R). by rewrite (bind_Ok _ _ _ _ _ R').
Qed.

(** A traversal of a list ends after as many passes as the list has
    members: [CI_DLLIST_FOR_EACH] visits the members in order, [ci_dllist_count]
    counts them, [ci_dllist_is_member] decides membership, and the memory is
    as before. *)
Lemma dllist_traversal_ends h s a l : ci_represents h s -> lists s !! a = Some l ->
  forall fuel link, (length l < fuel)%nat ->
  CI_DLLIST_FOR_EACH fuel a h = (h, Ok l) /\
  ci_dllist_count fuel a h = (h, Ok (Z.of_nat (length l))) /\
  ci_dllist_is_member fuel a link h = (h, Ok (bool_decide (link ∈ l))).
Proof.
  intros Hrep Ha fuel link Hf. destruct (traversal_steps h s a l fuel Hrep Ha Hf) as [H1 H2].
  split; [done|]. split; [|apply H2]. unfold ci_dllist_count. by rewrite (bind_Ok _ _ _ _ _ H1).
Qed.

(** Memory with the links [ps], none of them initialised. *)
Definition raw_links (ps : list Z) : dlheap :=
  DLHeap (list_to_map ((fun p => (p, 0)) <$> ps)) (list_to_map ((fun p => (p, 0)) <$> ps)).

Lemma raw_represents ps : ci_represents (raw_links ps) (DLState ∅ (list_to_set ps)).
Proof.
  split; [|split]; cbn; [intros a l Ha; by rewrite lookup_empty in Ha|intros a b la lb _ Ha; by rewrite lookup_empty in Ha|].
  intros p Hp. split; [|intros a l Ha; by rewrite lookup_empty in Ha].
  apply elem_of_list_to_set in Hp.
  assert (is_Some ((list_to_map ((fun p => (p, 0)) <$> ps) : gmap Z Z) !! p)).
  { apply elem_of_dom. rewrite dom_list_to_map. apply elem_of_list_to_set, list_elem_of_fmap.
    exists (p, 0). split; [done|]. apply list_elem_of_fmap. by exists p. }
  done.
Qed.

Lemma dllist_refines_witness : exists h',
  run_calls [CInit 10; CInit 20; CPush 10 1; CPushTail 10 2; CInsertAfter 1 3; CPush 20 4; CJoin 10 20; CTryPop 10; CRemoveSafe 2]
    (raw_links [10; 20; 1; 2; 3; 4]) = (h', Ok [None; None; None; None; None; None; None; Some 1; None]) /\
  exists s', lists s' !! 10 = Some [3; 4] /\ lists s' !! 20 = Some [] /\ lists s' !! 2 = Some [] /\ ci_represents h' s'.
Proof.
  edestruct (dllist_refines (raw_links [10; 20; 1; 2; 3; 4])
    (DLState ∅ (list_to_set [10; 20; 1; 2; 3; 4])) [CInit 10; CInit 20; CPush 10 1; CPushTail 10 2;
    CInsertAfter 1 3; CPush 20 4; CJoin 10 20; CTryPop 10; CRemoveSafe 2]) as (h' & R & Hrep); [apply raw_represents| |].
  - eapply SCons; [apply SInit; set_solver|]. eapply SCons; [apply SInit; set_solver|].
    eapply SCons; [apply (SPush _ 10 []); [done|set_solver]|].
    eapply SCons; [apply (SPushTail _ 10 [1]); [done|set_solver]|].
    eapply SCons; [apply (SInsertAfter _ 10 [1] [2] 1); [done|done|set_solver]|].
    eapply SCons; [apply (SPush _ 20 []); [done|set_solver]|].
    eapply SCons; [apply (SJoin _ 10 20 [1; 3; 2] [4]); done|].
    eapply SCons; [apply (STryPop _ 10 1 [3; 2; 4]); done|].
    eapply SCons; [apply (SRemoveSafe _ 10 [3] 2 [4]); done|]. apply SNil.
  - exists h'. split; [exact R|]. eexists. split; [|split; [|split; [|exact Hrep]]]; reflexivity.
Defined.

(** A list of two members in memory. *)
Definition two_links : dlheap :=
  DLHeap (list_to_map [(10, 1); (1, 2); (2, 10)]) (list_to_map [(10, 2); (1, 10); (2, 1)]).

Lemma two_represents : ci_represents two_links (DLState {[10 := [1; 2]]} ∅).
Proof.
  split; [|split]; cbn.
  - intros a l [<- <-]%lookup_singleton_Some. split; [apply (bool_decide_unpack _); by vm_compute|]. done.
  - intros a b la lb Hab [<- _]%lookup_singleton_Some [<- _]%lookup_singleton_Some. done.
  - set_solver.
Qed.

Lemma dllist_traversal_ends_witness :
  ci_dllist_count 3 10 two_links = (two_links, Ok 2) /\
  ci_dllist_is_member 3 10 2 two_links = (two_links, Ok true).
Proof.
  destruct (dllist_traversal_ends two_links _ 10 [1; 2] two_represents eq_refl 3%nat 2 ltac:(simpl; lia)) as (_ & H1 & H2).
  split; [exact H1|exact H2].
Defined.

(** ** The lists of [onload/oo_p_dllist.h] *)

Section OoLists.
Variable ptr : Z -> Z.
Context `{!Inj (=) (=) ptr}.

Abbreviation at_ := (oo_p_dllink_statep ptr).
Abbreviation rep := (represents ptr).

Ltac oo_unfold := unfold oo_p_dllink_add, oo_p_dllink_add_tail, oo_p_dllink_add_between, oo_p_dllink_del,
  oo_p_dllink_init, oo_p_dllink_statep, oo_p_dllink_from_p; cbn [st_l st_p].
Ltac oo_run := oo_unfold; repeat dlstep ptr.

Lemma oo_add_between_ok h u v n : u <> n -> v <> n -> is_link ptr h u -> is_link ptr h v -> is_link ptr h n ->
  exists h', oo_p_dllink_add_between (at_ u) (at_ v) (at_ n) h = (h', Ok tt) /\ linked_between ptr h h' u n v.
Proof.
  intros Nu Nv Lu Lv Ln. oo_run. eexists. split; [reflexivity|]. ci_points.
Qed.

Lemma oo_init_ok h a : is_link ptr h a ->
  exists h', oo_p_dllink_init (at_ a) h = (h', Ok tt) /\ self_linked ptr h h' a.
Proof. intros La. oo_run. self_points. Qed.

Lemma oo_del_ok h u k v : u <> k -> is_link ptr h u -> is_link ptr h v -> edge ptr h u k -> edge ptr h k v ->
  exists h', oo_p_dllink_del ptr (at_ k) h = (h', Ok tt) /\ linked_over ptr h h' u v.
Proof. intros Nu Lu Lv [A1 A2] [B1 B2]. oo_run. eexists. split; [reflexivity|]. ci_points. Qed.

Lemma oo_splice_between_ok h b u v f t : nx ptr h b = Some f -> pv ptr h b = Some t -> v <> f -> u <> t ->
  is_link ptr h u -> is_link ptr h v -> is_link ptr h f -> is_link ptr h t ->
  exists h', oo_p_dllink_splice_between ptr (at_ b) (at_ u) (at_ v) h = (h', Ok tt) /\ linked_span ptr h h' u f t v.
Proof.
  intros Hf Ht N1 N2 Lu Lv Lf Lt. unfold oo_p_dllink_splice_between. oo_run. eexists. split; [reflexivity|]. ci_points.
Qed.

Lemma oo_is_empty_ok h s a l : rep h s -> lists s !! a = Some l ->
  oo_p_dllink_is_empty (at_ a) h = (h, Ok (bool_decide (l = []))).
Proof.
  intros Hrep Ha. destruct (rep_ends _ h s a l Hrep Ha) as [E _]. destruct (rep_ring _ h s a l Hrep Ha) as [Hd _].
  unfold oo_p_dllink_is_empty. destruct l as [|k l]; cbn in E; oo_run; [by rewrite Z.eqb_refl|].
  apply NoDup_cons in Hd as [Hd _]. rewrite (proj2 (Z.eqb_neq _ _)) by set_solver. done.
Qed.

Lemma oo_add_refines h s a l1 l2 n : rep h s -> lists s !! a = Some (l1 ++ l2) -> n ∈ free s -> exists u v h',
  last (a :: l1) = Some u /\ head (l2 ++ [a]) = Some v /\ edge ptr h u v /\
  oo_p_dllink_add_between (at_ u) (at_ v) (at_ n) h = (h', Ok tt) /\ rep h' (add_link s a n (l1 ++ n :: l2)).
Proof.
  intros Hrep Ha Hn. pose proof (rep_link _ h s n Hrep Hn) as Ln.
  destruct (rep_place _ h s a l1 l2 Hrep Ha) as (u & v & Hu & Hv & E & Lu & Lv & _ & _ & _ & _ & Hf).
  destruct (Hf n Hn) as [Nu Nv]. destruct (oo_add_between_ok h u v n Nu Nv Lu Lv Ln) as (h' & R & L).
  exists u, v, h'. split_and!; try done. by eapply (rep_insert ptr).
Qed.

Lemma oo_del_refines h s a l1 k l2 : rep h s -> lists s !! a = Some (l1 ++ k :: l2) ->
  exists h', oo_p_dllink_del ptr (at_ k) h = (h', Ok tt) /\ rep h' (del_link s a k (l1 ++ l2)).
Proof.
  intros Hrep Ha.
  destruct (rep_member _ h s a l1 k l2 Hrep Ha) as (u & v & Hu & Hv & E1 & E2 & Nu & Nv & Lu & Lk & Lv).
  destruct (oo_del_ok h u k v Nu Lu Lv E1 E2) as (h' & R & L). exists h'. split; [done|].
  by eapply (rep_remove ptr).
Qed.

Lemma oo_init_refines h s k : rep h s -> k ∈ free s ->
  exists h', oo_p_dllink_init (at_ k) h = (h', Ok tt) /\ rep h' (new_list s k).
Proof.
  intros Hrep Hk. destruct (oo_init_ok h k (rep_link _ h s k Hrep Hk)) as (h' & R & L).
  exists h'. split; [done|]. by eapply (rep_new ptr).
Qed.

Lemma oo_splice_refines h s a b l1 l2 m : rep h s -> a <> b -> lists s !! a = Some (l1 ++ l2) ->
  lists s !! b = Some m -> m <> [] -> exists u v h',
  last (a :: l1) = Some u /\ head (l2 ++ [a]) = Some v /\ edge ptr h u v /\
  oo_p_dllink_splice_between ptr (at_ b) (at_ u) (at_ v) h = (h', Ok tt) /\
  rep h' (move_list s a b (l1 ++ m ++ l2)).
Proof.
  intros Hrep Hab Ha Hb Hm.
  destruct (rep_span _ h s b m Hrep Hb Hm) as (f & t & Hf & Ht & If & It & E1 & E2 & _ & _ & Lf & Lt).
  destruct (rep_place _ h s a l1 l2 Hrep Ha) as (u & v & Hu & Hv & E & Lu & Lv & _ & _ & Iu & Iv & _).
  pose proof (fun p => rep_disjoint _ h s a b _ m p Hrep Hab Ha Hb) as Hdis.
  pose proof (Hdis u Iu). pose proof (Hdis v Iv).
  destruct (oo_splice_between_ok h b u v f t E1 E2) as (h' & R & L); try done; [set_solver..|].
  exists u, v, h'. split_and!; try done. eapply (rep_move ptr); try done. by right.
Qed.

Lemma oo_for_each_walk h a l1 l2 fuel v : ring ptr h a (l1 ++ l2) -> (length l2 < fuel)%nat ->
  head (l2 ++ [a]) = Some v -> oo_p_walk ptr fuel (at_ a) (at_ v) h = (h, Ok l2).
Proof.
  intros Hr. revert l1 fuel v Hr. induction l2 as [|k l2 IH]; intros l1 fuel v Hr Hf Hv;
    (destruct fuel as [|fuel]; [simpl in Hf; lia|]); cbn in Hv; injection Hv as <-; cbn [oo_p_walk].
  - by rewrite Z.eqb_refl.
  - assert (k <> a).
    { destruct Hr as [Hd _]. apply NoDup_cons in Hd as [Hd _]. set_solver. }
    rewrite (proj2 (Z.eqb_neq _ _)) by (cbn; intros ?%(inj ptr); done).
    change (k :: l2) with ([k] ++ l2) in Hr. rewrite app_assoc in Hr.
    destruct (ring_parts _ h a (l1 ++ [k]) l2 Hr) as (k' & v & Hk & Hv & _ & _ & [E _] & _).
    rewrite app_comm_cons, last_snoc in Hk. injection Hk as <-. cbn [st_l st_p]. dlstep ptr.
    by rewrite (bind_Ok _ _ _ _ _ (IH (l1 ++ [k]) fuel v Hr ltac:(simpl in Hf; lia) Hv)).
Qed.

Inductive oocall :=
  | OInit (link : Z) | ODel (link : Z) | ODelInit (link : Z)
  | OAdd (list link : Z) | OAddTail (list link : Z)
  | OSplice (list into : Z) | OSpliceTail (list into : Z)
  | OForEach (fuel : nat) (list : Z).

(** A call and what it visits; the links are named by their offsets. *)
Definition run_oocall (c : oocall) : M (list Z) :=
  let none (c : M unit) : M (list Z) := c ;;; ret [] in
  match c with
  | OInit a => none (oo_p_dllink_init (at_ a))
  | ODel k => none (oo_p_dllink_del ptr (at_ k))
  | ODelInit k => none (oo_p_dllink_del_init ptr (at_ k))
  | OAdd a n => none (oo_p_dllink_add ptr (at_ a) (at_ n))
  | OAddTail a n => none (oo_p_dllink_add_tail ptr (at_ a) (at_ n))
  | OSplice b a => none (oo_p_dllink_splice ptr (at_ b) (at_ a))
  | OSpliceTail b a => none (oo_p_dllink_splice_tail ptr (at_ b) (at_ a))
  | OForEach fuel a => oo_p_dllink_for_each ptr fuel (at_ a)
  end.

(** After a splice that moves members the old head is in no list, and is not
    linked to itself: it has to be initialised again. *)
Inductive oospec (s : dlstate) : oocall -> list Z -> dlstate -> Prop :=
  | OSInit a : a ∈ free s -> oospec s (OInit a) [] (new_list s a)
  | OSDel a l1 k l2 : lists s !! a = Some (l1 ++ k :: l2) -> oospec s (ODel k) [] (del_link s a k (l1 ++ l2))
  | OSDelInit a l1 k l2 : lists s !! a = Some (l1 ++ k :: l2) ->
      oospec s (ODelInit k) [] (new_list (del_link s a k (l1 ++ l2)) k)
  | OSAdd a l n : lists s !! a = Some l -> n ∈ free s -> oospec s (OAdd a n) [] (add_link s a n (n :: l))
  | OSAddTail a l n : lists s !! a = Some l -> n ∈ free s -> oospec s (OAddTail a n) [] (add_link s a n (l ++ [n]))
  | OSSplice b a m l : a <> b -> lists s !! a = Some l -> lists s !! b = Some m -> m <> [] ->
      oospec s (OSplice b a) [] (move_list s a b (m ++ l))
  | OSSpliceTail b a m l : a <> b -> lists s !! a = Some l -> lists s !! b = Some m -> m <> [] ->
      oospec s (OSpliceTail b a) [] (move_list s a b (l ++ m))
  | OSSpliceEmpty b a : lists s !! b = Some [] -> oospec s (OSplice b a) [] s
  | OSSpliceTailEmpty b a : lists s !! b = Some [] -> oospec s (OSpliceTail b a) [] s
  | OSForEach fuel a l : lists s !! a = Some l -> (length l < fuel)%nat -> oospec s (OForEach fuel a) l s.

Inductive oospecs : dlstate -> list oocall -> list (list Z) -> dlstate -> Prop :=
  | OSNil s : oospecs s [] [] s
  | OSCons s c r s1 cs rs s2 : oospec s c r s1 -> oospecs s1 cs rs s2 -> oospecs s (c :: cs) (r :: rs) s2.

Fixpoint run_oocalls (cs : list oocall) : M (list (list Z)) :=
  match cs with
  | [] => ret []
  | c :: cs' => let! r := run_oocall c in let! rs := run_oocalls cs' in ret (r :: rs)
  end.

Lemma none_run (c : M unit) h h' : c h = (h', Ok tt) -> (c ;;; ret ([] : list Z)) h = (h', Ok []).
Proof. intros H. by rewrite (bind_Ok _ _ _ _ _ H). Qed.

Lemma oo_call_refines h s c r s' : rep h s -> oospec s c r s' ->
  exists h', run_oocall c h = (h', Ok r) /\ rep h' s'.
Proof.
  intros Hrep []; cbn [run_oocall].
  - destruct (oo_init_refines h s a) as (h' & R & ?); try done. exists h'. split; [by apply none_run|done].
  - destruct (oo_del_refines h s a l1 k l2) as (h' & R & ?); try done. exists h'. split; [by apply none_run|done].
  - destruct (oo_del_refines h s a l1 k l2) as (h1 & R & Hrep1); try done.
    destruct (oo_init_refines h1 _ k Hrep1) as (h' & R' & ?); [cbn; set_solver|]. exists h'. split; [|done].
    apply none_run. unfold oo_p_dllink_del_init. by rewrite (bind_Ok _ _ _ _ _ R).
  - destruct (oo_add_refines h s a [] l n) as (u & v & h' & Hu & Hv & [E _] & R & ?); try done.
    cbn in Hu. injection Hu as <-. exists h'. split; [|done]. apply none_run.
    unfold oo_p_dllink_add. cbn [st_l oo_p_dllink_statep]. dlstep ptr. exact R.
  - destruct (oo_add_refines h s a l [] n) as (u & v & h' & Hu & Hv & [_ E] & R & ?); try done; [by rewrite app_nil_r|].
    cbn in Hv. injection Hv as <-. exists h'. split; [|done]. apply none_run.
    unfold oo_p_dllink_add_tail. cbn [st_l oo_p_dllink_statep]. dlstep ptr. exact R.
  - destruct (oo_splice_refines h s a b [] l m) as (u & v & h' & Hu & Hv & [E _] & R & ?); try done.
    cbn in Hu. injection Hu as <-. exists h'. split; [|done]. apply none_run. unfold oo_p_dllink_splice.
    rewrite (bind_Ok _ _ _ _ _ (oo_is_empty_ok h s b m ltac:(done) ltac:(done))), bool_decide_eq_false_2 by done.
    cbn [negb st_l oo_p_dllink_statep]. dlstep ptr. exact R.
  - destruct (oo_splice_refines h s a b l [] m) as (u & v & h' & Hu & Hv & [_ E] & R & Hrep'); try done;
      [by rewrite app_nil_r|]. rewrite app_nil_r in Hrep'.
    cbn in Hv. injection Hv as <-. exists h'. split; [|done]. apply none_run. unfold oo_p_dllink_splice_tail.
    rewrite (bind_Ok _ _ _ _ _ (oo_is_empty_ok h s b m ltac:(done) ltac:(done))), bool_decide_eq_false_2 by done.
    cbn [negb st_l oo_p_dllink_statep]. dlstep ptr. exact R.
  - exists h. split; [|done]. apply none_run. unfold oo_p_dllink_splice.
    by rewrite (bind_Ok _ _ _ _ _ (oo_is_empty_ok h s b [] ltac:(done) ltac:(done))), bool_decide_eq_true_2.
  - exists h. split; [|done]. apply none_run. unfold oo_p_dllink_splice_tail.
    by rewrite (bind_Ok _ _ _ _ _ (oo_is_empty_ok h s b [] ltac:(done) ltac:(done))), bool_decide_eq_true_2.
  - exists h. split; [|done]. pose proof (rep_ring _ h s a l Hrep ltac:(done)) as Hr.
    destruct (rep_place _ h s a [] l Hrep ltac:(done)) as (u & v & Hu & Hv & [E _] & _). cbn in Hu. injection Hu as <-.
    unfold oo_p_dllink_for_each. cbn [st_l oo_p_dllink_statep]. dlstep ptr. by apply (oo_for_each_walk h a [] l).
Qed.

(** C14: the lists linked by offsets in shared state compute on sequences of
    members: every sequence of init, del, del_init, add, add_tail, splice,
    splice_tail and traversal that respects the contract runs without an access
    outside the links, visits the members in order, and leaves a memory that
    represents the resulting sequences, for every injective translation of
    offsets to pointers. *)
Theorem oo_p_dllist_refines h s cs rs s' : rep h s -> oospecs s cs rs s' ->
  exists h', run_oocalls cs h = (h', Ok rs) /\ rep h' s'.
Proof.
  intros Hrep Hs. revert h Hrep. induction Hs as [s|s c r s1 cs rs s2 Hc _ IH]; intros h Hrep; [by exists h|].
  destruct (oo_call_refines h s c r s1 Hrep Hc) as (h1 & R & Hrep1). destruct (IH h1 Hrep1) as (h' & R' & Hrep').
  exists h'. split; [|done]. cbn [run_oocalls]. rewrite (bind_Ok _ _ _ _ _ R). by rewrite (bind_Ok _ _ _ _ _ R').
Qed.

(** [oo_p_dllink_concurrent_add] puts the link at the front when the head
    is unchanged at its compare-and-swap; when another thread has taken the
    list, it reports failure, keeps what the other thread wrote into the head
    and restores the link exactly. *)
Lemma concurrent_add_or_restore h s a l n now : rep h s -> lists s !! a = Some l -> n ∈ free s ->
  match now with
  | None => exists h', oo_p_dllink_concurrent_add ptr (at_ a) (at_ n) None h = (h', Ok true) /\
      rep h' (add_link s a n (n :: l))
  | Some v => Some v <> nx ptr h a -> exists h',
      oo_p_dllink_concurrent_add ptr (at_ a) (at_ n) (Some v) h = (h', Ok false) /\
      nx ptr h' a = Some v /\ (forall p, p <> a -> nx ptr h' p = nx ptr h p) /\ (forall p, pv ptr h' p = pv ptr h p)
  end.
Proof.
  intros Hrep Ha Hn. pose proof (rep_link _ h s n Hrep Hn) as Ln. pose proof Ln as [[n0 N1] [p0 N2]].
  destruct (rep_place _ h s a [] l Hrep Ha) as (u & v & Hu & Hv & [E1 E2] & Lu & Lv & _ & _ & _ & _ & Hf).
  cbn in Hu. injection Hu as <-. destruct (Hf n Hn) as [Na Nv].
  destruct now as [v'|]; [intros Hne|]; unfold oo_p_dllink_concurrent_add, oo_p_dllink_statep, oo_p_dllink_from_p;
    cbn [st_l st_p]; repeat dlstep ptr.
  - rewrite (proj2 (Z.eqb_neq _ _)) by congruence. cbn [negb]. repeat dlstep ptr. eexists. split; [reflexivity|].
    split; [by dlread|]. split; intros p.
    + intros Hp. destruct (decide (n = p)) as [<-|]; by dlread.
    + destruct (decide (n = p)) as [<-|]; by dlread.
  - rewrite Z.eqb_refl. cbn [negb]. repeat dlstep ptr. eexists. split; [reflexivity|].
    eapply (rep_insert ptr h _ s a [] l n a v); try done. ci_points.
Qed.
End OoLists.

(** Offsets from a base address. *)
Definition base_ptr (p : Z) : Z := 4096 + p.

#[export] Instance base_ptr_inj : Inj (=) (=) base_ptr.
Proof. unfold base_ptr. intros x y H. lia. Qed.

(** Two lists and a free link, in memory at those addresses. *)
Definition oo_heap : dlheap :=
  DLHeap (list_to_map [(4106, 1); (4097, 10); (4116, 2); (4098, 20); (4099, 0)])
         (list_to_map [(4106, 1); (4097, 10); (4116, 2); (4098, 20); (4099, 0)]).
Definition oo_state : dlstate := DLState {[10 := [1]; 20 := [2]]} {[3]}.

Lemma oo_represents : represents base_ptr oo_heap oo_state.
Proof.
  assert (Hl : forall a l, lists oo_state !! a = Some l -> a = 10 /\ l = [1] \/ a = 20 /\ l = [2]).
  { cbn. intros a l [[<- <-]|[_ [<- <-]%lookup_singleton_Some]]%lookup_insert_Some; auto. }
  split; [|split].
  - intros a l [[-> ->]|[-> ->]]%Hl; (split; [apply (bool_decide_unpack _); by vm_compute|done]).
  - intros a b la lb Hab [[-> ->]|[-> ->]]%Hl [[-> ->]|[-> ->]]%Hl; try done; set_solver.
  - cbn. intros p ->%elem_of_singleton. split; [done|]. intros a l [[-> ->]|[-> ->]]%Hl; set_solver.
Qed.

Lemma oo_p_dllist_refines_witness : exists h',
  run_oocalls base_ptr [OAddTail 10 3; OSplice 20 10; OForEach 4 10; ODelInit 1] oo_heap
  = (h', Ok [[]; []; [2; 1; 3]; []]).
Proof.
  edestruct (oo_p_dllist_refines base_ptr oo_heap oo_state [OAddTail 10 3; OSplice 20 10; OForEach 4 10; ODelInit 1])
    as (h' & R & _); [exact oo_represents| |exists h'; exact R].
  eapply OSCons; [apply (OSAddTail _ 10 [1]); [done|set_solver]|].
  eapply OSCons; [apply (OSSplice _ 20 10 [2] [1; 3]); done|].
  eapply OSCons; [apply (OSForEach _ 4 10 [2; 1; 3]); [done|simpl; lia]|].
  eapply OSCons; [apply (OSDelInit _ 10 [2] 1 [3]); done|]. apply OSNil.
Defined.

Lemma concurrent_add_or_restore_witness :
  (exists h', oo_p_dllink_concurrent_add base_ptr (oo_p_dllink_statep base_ptr 10) (oo_p_dllink_statep base_ptr 3)
     None oo_heap = (h', Ok true) /\ ring base_ptr h' 10 [3; 1]) /\
  (exists h', oo_p_dllink_concurrent_add base_ptr (oo_p_dllink_statep base_ptr 10) (oo_p_dllink_statep base_ptr 3)
     (Some 99) oo_heap = (h', Ok false) /\ nx base_ptr h' 3 = Some 0).
Proof.
  split.
  - destruct (concurrent_add_or_restore base_ptr oo_heap oo_state 10 [1] 3 None oo_represents eq_refl ltac:(set_solver))
      as (h' & R & (Hr & _)). exists h'. split; [exact R|]. by apply Hr.
  - destruct (concurrent_add_or_restore base_ptr oo_heap oo_state 10 [1] 3 (Some 99) oo_represents eq_refl ltac:(set_solver))
      as (h' & R & _ & Hn & _); [done|]. exists h'. split; [exact R|]. rewrite Hn by done. done.
Defined.
