(* ===== verification/SLList.v ===== *)
(** * SLList: intrusive singly-linked lists ([ci/tools/sllist.h])

    A head and members linked one to the next.  The last link is not null but a value of
    its own, so that a null link means that an element is in no list.  The operations are
    shown to compute on sequences of members, for any number of disjoint lists; the loops
    and the popping macro, which still take null for the end, leave the list. *)

From Stdlib Require Import ZArith Lia.
From stdpp Require Import gmap.
From S2P Require Import Prelude.

(** ** Memory and operations *)

(** The links of elements and the heads of lists, by address. *)
Record slheap := SLHeap { sl_next : gmap Z Z; sl_head : gmap Z Z }.

Abbreviation SM := (cm slheap).

Definition load_next (p : Z) : SM Z := let! h := get in access (sl_next h !! p).
Definition load_head (a : Z) : SM Z := let! h := get in access (sl_head h !! a).
Definition store_next (p q : Z) : SM unit :=
  let! old := load_next p in modify (fun h => SLHeap (<[p := q]> (sl_next h)) (sl_head h)).
Definition store_head (a q : Z) : SM unit :=
  let! old := load_head a in modify (fun h => SLHeap (sl_next h) (<[a := q]> (sl_head h))).

Definition CI_SLLIST_TAIL : Z := 0xdeaddead.

Definition ci_sllink_busy (link : Z) : SM bool := let! n := load_next link in ret (negb (n =? 0)).

Definition ci_sllist_init (list : Z) : SM unit := store_head list CI_SLLIST_TAIL.
Definition ci_sllist_is_empty (list : Z) : SM bool := let! h := load_head list in ret (h =? CI_SLLIST_TAIL).
Definition ci_sllist_not_empty (list : Z) : SM bool := let! h := load_head list in ret (negb (h =? CI_SLLIST_TAIL)).

Definition ci_sllist_push (list link : Z) : SM unit :=
  let! h := load_head list in store_next link h ;;; store_head list link.

Definition ci_sllist_pop (list : Z) : SM Z :=
  let! link := load_head list in
  let! n := load_next link in store_head list n ;;;
  store_next link 0 ;;; ret link.

Definition ci_sllist_try_pop (list : Z) : SM Z :=
  let! link := load_head list in
  if link =? CI_SLLIST_TAIL then ret 0 else
  let! n := load_next link in store_head list n ;;;
  store_next link 0 ;;; ret link.

(** [off] is the offset of the member [lnk_mbr]. *)
Definition CI_SLLIST_TRY_POP (off list : Z) : SM Z :=
  let! h := load_head list in
  if negb (h =? 0) then let! link := ci_sllist_pop list in ret (link - off) else ret 0.

Definition ci_sllist_insert_after (before after : Z) : SM unit :=
  let! n := load_next before in store_next after n ;;; store_next before after.

(** The values of the iterator, of at most [fuel] rounds. *)
Fixpoint sl_walk (fuel : nat) (p_lnk : Z) : SM (list Z) :=
  if negb (p_lnk =? 0) then
    match fuel with
    | O => ret []
    | S fuel' => let! n := load_next p_lnk in let! l := sl_walk fuel' n in ret (p_lnk :: l)
    end
  else ret [].
Definition CI_SLLIST_FOR_EACH (fuel : nat) (p_list : Z) : SM (list Z) := let! h := load_head p_list in sl_walk fuel h.

(** ** Lists in memory *)

(** From the link [h] on come the members [l], then the end. *)
Fixpoint sl_chain (nx : gmap Z Z) (h : Z) (l : list Z) : Prop :=
  match l with
  | [] => h = CI_SLLIST_TAIL
  | x :: l' => h = x /\ x <> 0 /\ x <> CI_SLLIST_TAIL /\ exists n, nx !! x = Some n /\ sl_chain nx n l'
  end.

(** Memory holds the lists [m], which share no member; what is in no list has a null link,
    and nothing lives at the value that stands for the end. *)
Record sl_holds (m : gmap Z (list Z)) (h : slheap) : Prop := {
  sl_lists : forall a l, m !! a = Some l -> NoDup l /\ exists hd, sl_head h !! a = Some hd /\ sl_chain (sl_next h) hd l;
  sl_apart : forall a b l l' x, m !! a = Some l -> m !! b = Some l' -> x ∈ l -> x ∈ l' -> a = b;
  sl_free : forall x n, sl_next h !! x = Some n -> (forall a l, m !! a = Some l -> x ∉ l) -> n = 0;
  sl_end : sl_next h !! CI_SLLIST_TAIL = None }.

Lemma sl_chain_ext nx nx' hd l : (forall x, x ∈ l -> nx' !! x = nx !! x) -> sl_chain nx hd l -> sl_chain nx' hd l.
Proof.
  revert hd. induction l as [|x l IH]; intros hd Hx; simpl; [done|]. intros (-> & H0 & Ht & n & E & Hc). do 3 (split; [done|]).
  exists n. split; [by rewrite Hx by set_solver|]. apply IH; [set_solver|done].
Qed.

Lemma sl_chain_put nx x v hd l : x ∉ l -> sl_chain nx hd l -> sl_chain (<[x := v]> nx) hd l.
Proof. intros Hx. apply sl_chain_ext. intros y Hy. apply lookup_insert_ne. set_solver. Qed.

Lemma sl_chain_mem nx hd l x : sl_chain nx hd l -> x ∈ l -> x <> 0 /\ x <> CI_SLLIST_TAIL /\ exists n, nx !! x = Some n /\ n <> 0.
Proof.
  revert hd. induction l as [|y l IH]; intros hd; simpl; [set_solver|]. intros (-> & H0 & Ht & n & E & Hc) [->|Hx]%elem_of_cons; [|by eapply IH].
  do 2 (split; [done|]). exists n. split; [done|]. destruct l as [|z l]; simpl in Hc; [by subst n|]. by destruct Hc as (-> & ? & _).
Qed.

(** A chain can be cut behind any member. *)
Lemma sl_chain_insert nx hd l1 b l2 x : sl_chain nx hd (l1 ++ b :: l2) -> NoDup (l1 ++ b :: l2) -> x ∉ l1 ++ b :: l2 -> x <> 0 -> x <> CI_SLLIST_TAIL ->
  exists n, nx !! b = Some n /\ sl_chain (<[b := x]> (<[x := n]> nx)) hd (l1 ++ b :: x :: l2).
Proof.
  revert hd. induction l1 as [|y l1 IH]; intros hd; simpl.
  - intros (-> & H0 & Ht & n & E & Hc) [Hb Hnd]%NoDup_cons Hx Hx0 Hxt. exists n. split; [done|]. do 3 (split; [done|]). exists x.
    split; [apply lookup_insert_eq|]. do 3 (split; [done|]). exists n. assert (b <> x) by set_solver.
    split; [by rewrite lookup_insert_ne, lookup_insert_eq|]. apply sl_chain_put; [done|]. apply sl_chain_put; [set_solver|done].
  - intros (-> & H0 & Ht & n & E & Hc) [Hb Hnd]%NoDup_cons Hx Hx0 Hxt. destruct (IH n Hc Hnd) as (k & Ek & Hk); [set_solver|done|done|].
    exists k. split; [done|]. do 3 (split; [done|]). exists n. split; [|done]. rewrite !lookup_insert_ne; [done|set_solver|set_solver].
Qed.

(** ** Refinement *)

(** Calls; [SInsertAfter] names the list that its first element is in. *)
Inductive slop :=
  | SInit (a : Z) | SIsEmpty (a : Z) | SNotEmpty (a : Z) | SBusy (x : Z)
  | SPush (a x : Z) | SPop (a : Z) | STryPop (a : Z) | SInsertAfter (a b x : Z).

Definition of_bool (b : bool) : Z := if b then 1 else 0.

Definition sl_code (o : slop) : SM Z :=
  match o with
  | SInit a => ci_sllist_init a ;;; ret 0
  | SIsEmpty a => let! b := ci_sllist_is_empty a in ret (of_bool b)
  | SNotEmpty a => let! b := ci_sllist_not_empty a in ret (of_bool b)
  | SBusy x => let! b := ci_sllink_busy x in ret (of_bool b)
  | SPush a x => ci_sllist_push a x ;;; ret 0
  | SPop a => ci_sllist_pop a
  | STryPop a => ci_sllist_try_pop a
  | SInsertAfter a b x => ci_sllist_insert_after b x ;;; ret 0
  end.

Fixpoint insert_behind (b x : Z) (l : list Z) : list Z :=
  match l with [] => [] | y :: l' => if y =? b then y :: x :: l' else y :: insert_behind b x l' end.

Definition in_some_list (m : gmap Z (list Z)) (x : Z) : Prop := map_Exists (fun _ l => x ∈ l) m.
#[global] Instance in_some_list_dec m x : Decision (in_some_list m x).
Proof. unfold in_some_list. apply _. Defined.

Section Refines.
(** The addresses of links and of heads. *)
Context (links heads : gset Z).

Definition addable (m : gmap Z (list Z)) (x : Z) : Prop := x ∈ links /\ x <> 0 /\ ~ in_some_list m x.
#[local] Instance addable_dec m x : Decision (addable m x).
Proof. unfold addable. apply _. Defined.

(** The lists after a call and its result, [None] when the caller may not make it. *)
Definition sl_spec (m : gmap Z (list Z)) (o : slop) : option (gmap Z (list Z) * Z) :=
  match o with
  | SInit a => if decide (a ∈ heads /\ default [] (m !! a) = []) then Some (<[a := []]> m, 0) else None
  | SIsEmpty a => l ← m !! a; Some (m, of_bool (bool_decide (l = [])))
  | SNotEmpty a => l ← m !! a; Some (m, of_bool (bool_decide (l <> [])))
  | SBusy x => if decide (x ∈ links) then Some (m, of_bool (bool_decide (in_some_list m x))) else None
  | SPush a x => l ← m !! a; if decide (addable m x) then Some (<[a := x :: l]> m, 0) else None
  | SPop a => l ← m !! a; match l with [] => None | x :: l' => Some (<[a := l']> m, x) end
  | STryPop a => l ← m !! a; match l with [] => Some (m, 0) | x :: l' => Some (<[a := l']> m, x) end
  | SInsertAfter a b x => l ← m !! a; if decide (b ∈ l /\ addable m x) then Some (<[a := insert_behind b x l]> m, 0) else None
  end.

Definition sl_state (m : gmap Z (list Z)) (h : slheap) : Prop := sl_holds m h /\ dom (sl_next h) = links /\ dom (sl_head h) = heads.

Lemma load_next_ok h x n : sl_next h !! x = Some n -> load_next x h = (h, Ok n).
Proof. intros E. unfold load_next. rewrite bind_get. by rewrite E. Qed.

Lemma load_next_none h x : sl_next h !! x = None -> load_next x h = (h, Undef).
Proof. intros E. unfold load_next. rewrite bind_get. by rewrite E. Qed.

Lemma load_head_ok h a n : sl_head h !! a = Some n -> load_head a h = (h, Ok n).
Proof. intros E. unfold load_head. rewrite bind_get. by rewrite E. Qed.

Lemma store_next_ok h x q : is_Some (sl_next h !! x) -> store_next x q h = (SLHeap (<[x := q]> (sl_next h)) (sl_head h), Ok tt).
Proof. intros [n E]. unfold store_next. by rewrite (bind_Ok _ _ _ _ _ (load_next_ok _ _ _ E)). Qed.

Lemma store_head_ok h a q : is_Some (sl_head h !! a) -> store_head a q h = (SLHeap (sl_next h) (<[a := q]> (sl_head h)), Ok tt).
Proof. intros [n E]. unfold store_head. by rewrite (bind_Ok _ _ _ _ _ (load_head_ok _ _ _ E)). Qed.

Lemma not_in_lists m x : ~ in_some_list m x -> forall a l, m !! a = Some l -> x ∉ l.
Proof. intros H a l E Hx. apply H. by exists a, l. Qed.

Lemma dom_put (m : gmap Z Z) k v : is_Some (m !! k) -> dom (<[k := v]> m) = dom m.
Proof. intros [w E]. apply elem_of_dom_2 in E. rewrite dom_insert_L. set_solver. Qed.

(** One list is changed, and with it the links of elements that are in it before or after. *)
Lemma sl_holds_change m h a l' nx' hd' : sl_holds m h -> NoDup l' -> sl_chain nx' hd' l' -> is_Some (sl_head h !! a) ->
  (forall x, x ∈ l' -> x ∈ default [] (m !! a) \/ ~ in_some_list m x) ->
  (forall x, x ∉ default [] (m !! a) -> x ∉ l' -> nx' !! x = sl_next h !! x) ->
  (forall x n, x ∈ default [] (m !! a) -> x ∉ l' -> nx' !! x = Some n -> n = 0) ->
  nx' !! CI_SLLIST_TAIL = None ->
  sl_holds (<[a := l']> m) (SLHeap nx' (<[a := hd']> (sl_head h))).
Proof.
  intros H Hnd Hc Ha Hin Hout Hgone Hend.
  assert (forall b l x, m !! b = Some l -> b <> a -> x ∈ l -> x ∉ default [] (m !! a) /\ x ∉ l') as Hdis.
  { intros b l x Hb Hne Hx. assert (x ∉ default [] (m !! a)) as Hn.
    { destruct (m !! a) as [la|] eqn:E; simpl; [|set_solver]. intros Hx'. by apply Hne, (sl_apart _ _ H b a l la x). }
    split; [done|]. intros Hx'. destruct (Hin x Hx') as [?|Hno]; [done|]. by apply (not_in_lists m x Hno b l). }
  split; simpl.
  - intros b l. rewrite lookup_insert. case_decide as E; [intros [= <-]; subst b; split; [done|]; exists hd'; by rewrite lookup_insert_eq|]. intros Hb.
    destruct (sl_lists _ _ H b l Hb) as (Hn & hd & Eh & Hch). split; [done|]. exists hd. rewrite lookup_insert_ne by done. split; [done|].
    eapply sl_chain_ext; [|exact Hch]. intros x Hx. apply Hout; by apply (Hdis b l x).
  - intros b c l1 l2 x. rewrite !lookup_insert. do 2 case_decide; subst; intros E1 E2 X1 X2; simplify_eq; try done.
    + by destruct (Hdis c l2 x).
    + by destruct (Hdis b l1 x).
    + by apply (sl_apart _ _ H b c l1 l2 x).
  - intros x n Hx Hfree. assert (x ∉ l') as Hl' by (apply (Hfree a); apply lookup_insert_eq).
    destruct (decide (x ∈ default [] (m !! a))) as [Hi|Hi]; [by apply (Hgone x)|]. rewrite Hout in Hx by done. apply (sl_free _ _ H x); [done|].
    intros b l Hb. destruct (decide (b = a)) as [->|Hne]; [by rewrite Hb in Hi|]. apply (Hfree b). by rewrite lookup_insert_ne.
  - done.
Qed.

(** The first element of a list is taken off. *)
Lemma sl_pop_ok m h a x l : sl_state m h -> m !! a = Some (x :: l) ->
  exists n h', sl_head h !! a = Some x /\ x <> CI_SLLIST_TAIL /\ load_next x h = (h, Ok n) /\
    (store_head a n ;;; store_next x 0 ;;; ret x)%C h = (h', Ok x) /\ sl_state (<[a := l]> m) h'.
Proof.
  intros (H & D1 & D2) Ea. destruct (sl_lists _ _ H a _ Ea) as (Hnd & hd & Eh & -> & H0 & Ht & n & En & Hc). apply NoDup_cons in Hnd as [Hx Hnd].
  exists n, (SLHeap (<[x := 0]> (sl_next h)) (<[a := n]> (sl_head h))). split; [done|]. split; [done|]. split; [by apply load_next_ok|]. split.
  - rewrite (bind_Ok _ _ _ _ _ (store_head_ok h a n ltac:(eauto))). by rewrite (bind_Ok _ _ _ _ _ (store_next_ok (SLHeap (sl_next h) _) x 0 ltac:(eauto))).
  - split; [|simpl; rewrite !dom_put; eauto]. apply sl_holds_change; [done|done|by apply sl_chain_put|eauto|..]; rewrite ?Ea; simpl.
    + intros y Hy. left. set_solver.
    + intros y Hy _. rewrite lookup_insert_ne; [done|]. set_solver.
    + intros y k Hy Hyl. assert (y = x) as -> by set_solver. rewrite lookup_insert_eq. congruence.
    + rewrite lookup_insert_ne by done. apply H.
Qed.

Lemma sl_push_ok m h a x l : sl_state m h -> m !! a = Some l -> addable m x ->
  exists h', ci_sllist_push a x h = (h', Ok tt) /\ sl_state (<[a := x :: l]> m) h'.
Proof.
  intros (H & D1 & D2) Ea (Hx & H0 & Hno). destruct (sl_lists _ _ H a _ Ea) as (Hnd & hd & Eh & Hc). pose proof (not_in_lists m x Hno a l Ea) as Hxl.
  assert (is_Some (sl_next h !! x)) as Hs by (apply elem_of_dom; by rewrite D1). assert (x <> CI_SLLIST_TAIL) as Ht by (intros ->; rewrite (sl_end _ _ H) in Hs; by destruct Hs).
  exists (SLHeap (<[x := hd]> (sl_next h)) (<[a := x]> (sl_head h))). split.
  - unfold ci_sllist_push. rewrite (bind_Ok _ _ _ _ _ (load_head_ok h a hd Eh)), (bind_Ok _ _ _ _ _ (store_next_ok h x hd Hs)). apply (store_head_ok (SLHeap _ (sl_head h))). eauto.
  - split; [|simpl; rewrite !dom_put; eauto]. apply sl_holds_change; [done|by apply NoDup_cons| |eauto|..]; rewrite ?Ea; simpl.
    + do 3 (split; [done|]). exists hd. split; [apply lookup_insert_eq|by apply sl_chain_put].
    + intros y [->|Hy]%elem_of_cons; [by right|by left].
    + intros y _ Hy. rewrite lookup_insert_ne; [done|]. set_solver.
    + intros y k Hy Hyl. set_solver.
    + rewrite lookup_insert_ne by done. apply H.
Qed.

Lemma insert_behind_split b x l1 l2 : b ∉ l1 -> insert_behind b x (l1 ++ b :: l2) = l1 ++ b :: x :: l2.
Proof.
  induction l1 as [|y l1 IH]; simpl; intros Hb; [by rewrite Z.eqb_refl|]. rewrite (proj2 (Z.eqb_neq y b)) by set_solver. f_equal. apply IH. set_solver.
Qed.

Lemma sl_insert_ok m h a b x l : sl_state m h -> m !! a = Some l -> b ∈ l -> addable m x ->
  exists h', ci_sllist_insert_after b x h = (h', Ok tt) /\ sl_state (<[a := insert_behind b x l]> m) h'.
Proof.
  intros (H & D1 & D2) Ea Hb (Hx & H0 & Hno). destruct (sl_lists _ _ H a _ Ea) as (Hnd & hd & Eh & Hc). pose proof (not_in_lists m x Hno a l Ea) as Hxl.
  assert (is_Some (sl_next h !! x)) as Hs by (apply elem_of_dom; by rewrite D1). assert (x <> CI_SLLIST_TAIL) as Ht by (intros ->; rewrite (sl_end _ _ H) in Hs; by destruct Hs).
  destruct (sl_chain_mem _ _ _ _ Hc Hb) as (_ & Hbt & _). apply list_elem_of_split in Hb as (l1 & l2 & ->).
  rewrite insert_behind_split by (apply NoDup_app in Hnd as (_ & Hd & _); intros Hb; by destruct (Hd b Hb); set_solver).
  destruct (sl_chain_insert _ _ _ _ _ x Hc Hnd Hxl H0 Ht) as (n & En & Hc'). exists (SLHeap (<[b := x]> (<[x := n]> (sl_next h))) (sl_head h)).
  assert (is_Some (<[x := n]> (sl_next h) !! b)) as Hs' by (rewrite lookup_insert; case_decide; eauto). split.
  - unfold ci_sllist_insert_after. rewrite (bind_Ok _ _ _ _ _ (load_next_ok h b n En)), (bind_Ok _ _ _ _ _ (store_next_ok h x n Hs)). by apply (store_next_ok (SLHeap _ (sl_head h))).
  - split; [|simpl; rewrite !dom_put; eauto]. rewrite <- (insert_id (sl_head h) a hd Eh).
    apply sl_holds_change; [done| |done|eauto|..]; rewrite ?Ea; simpl.
    + assert (l1 ++ b :: x :: l2 ≡ₚ x :: l1 ++ b :: l2) as -> by (by rewrite (Permutation_swap x b l2), <- Permutation_middle). by apply NoDup_cons.
    + intros y. rewrite !elem_of_app, !elem_of_cons. intros [?|[?|[->|?]]]; [left; set_solver|left; set_solver|by right|left; set_solver].
    + intros y Hy Hy'. rewrite !lookup_insert_ne; [done|set_solver|set_solver].
    + intros y k Hy Hyl. set_solver.
    + rewrite !lookup_insert_ne by done. apply H.
Qed.

Lemma sl_busy_ok m h x : sl_state m h -> x ∈ links -> ci_sllink_busy x h = (h, Ok (bool_decide (in_some_list m x))).
Proof.
  intros (H & D1 & D2) Hx. rewrite <- D1 in Hx. apply elem_of_dom in Hx as [n En]. unfold ci_sllink_busy. rewrite (bind_Ok _ _ _ _ _ (load_next_ok h x n En)).
  unfold ret. do 2 f_equal. destruct (decide (in_some_list m x)) as [Hi|Hi].
  - rewrite bool_decide_true by done. destruct Hi as (a & l & Ea & Hl). destruct (sl_lists _ _ H a l Ea) as (_ & hd & _ & Hc).
    destruct (sl_chain_mem _ _ _ _ Hc Hl) as (_ & _ & k & Ek & Hk). rewrite Ek in En. simplify_eq. by rewrite (proj2 (Z.eqb_neq _ _)).
  - rewrite bool_decide_false by done. by rewrite (sl_free _ _ H x n En (not_in_lists m x Hi)).
Qed.

Lemma sl_head_empty m h a l : sl_state m h -> m !! a = Some l -> exists hd, load_head a h = (h, Ok hd) /\ (hd =? CI_SLLIST_TAIL) = bool_decide (l = []).
Proof.
  intros (H & _) Ea. destruct (sl_lists _ _ H a _ Ea) as (_ & hd & Eh & Hc). exists hd. split; [by apply load_head_ok|].
  destruct l as [|x l]; simpl in Hc; [by subst hd|]. destruct Hc as (-> & _ & Ht & _). by rewrite (proj2 (Z.eqb_neq _ _)).
Qed.

Ltac lookup_list m a := destruct (m !! a) as [l|] eqn:Ea; simpl; [|done].

(** Every call that the contract allows runs and does to memory what it does to the lists. *)
Lemma sllist_step m h o m' v : sl_state m h -> sl_spec m o = Some (m', v) -> exists h', sl_code o h = (h', Ok v) /\ sl_state m' h'.
Proof.
  intros H. destruct o as [a|a|a|x|a x|a|a|a b x]; simpl; [|lookup_list m a|lookup_list m a| |lookup_list m a|lookup_list m a|lookup_list m a|lookup_list m a].
  - case_decide as D; [|done]. intros [= <- <-]. destruct D as [Ha El], H as (H & D1 & D2). rewrite <- D2 in Ha. apply elem_of_dom in Ha.
    exists (SLHeap (sl_next h) (<[a := CI_SLLIST_TAIL]> (sl_head h))). unfold ci_sllist_init. rewrite (bind_Ok _ _ _ _ _ (store_head_ok h a _ Ha)).
    split; [done|]. split; [|simpl; rewrite dom_put; eauto]. apply sl_holds_change; rewrite ?El; try done; [apply NoDup_nil_2|set_solver..|apply H].
  - intros [= <- <-]. destruct (sl_head_empty m h a l H Ea) as (hd & E & Eb). exists h. split; [|done]. unfold ci_sllist_is_empty.
    rewrite bind_assoc, (bind_Ok _ _ _ _ _ E), bind_ret_l. by rewrite Eb.
  - intros [= <- <-]. destruct (sl_head_empty m h a l H Ea) as (hd & E & Eb). exists h. split; [|done]. unfold ci_sllist_not_empty.
    rewrite bind_assoc, (bind_Ok _ _ _ _ _ E), bind_ret_l, Eb. by destruct l.
  - case_decide as D; [|done]. intros [= <- <-]. exists h. split; [|done]. by rewrite (bind_Ok _ _ _ _ _ (sl_busy_ok m h x H D)).
  - case_decide as D; [|done]. intros [= <- <-]. destruct (sl_push_ok m h a x l H Ea D) as (h' & E & H'). exists h'. split; [|done]. by rewrite (bind_Ok _ _ _ _ _ E).
  - destruct l as [|x l]; [done|]. intros [= <- <-]. destruct (sl_pop_ok m h a x l H Ea) as (n & h' & Eh & Ht & En & E & H'). exists h'. split; [|done].
    unfold ci_sllist_pop. rewrite (bind_Ok _ _ _ _ _ (load_head_ok h a x Eh)). by rewrite (bind_Ok _ _ _ _ _ En).
  - destruct l as [|x l]; intros [= <- <-]; unfold ci_sllist_try_pop.
    + destruct (sl_head_empty m h a [] H Ea) as (hd & E & Eb). exists h. split; [|done]. rewrite (bind_Ok _ _ _ _ _ E). by rewrite Eb.
    + destruct (sl_pop_ok m h a x l H Ea) as (n & h' & Eh & Ht & En & E & H'). exists h'. split; [|done].
      rewrite (bind_Ok _ _ _ _ _ (load_head_ok h a x Eh)), (proj2 (Z.eqb_neq _ _)) by done. by rewrite (bind_Ok _ _ _ _ _ En).
  - case_decide as D; [|done]. intros [= <- <-]. destruct D as [Db Dx]. destruct (sl_insert_ok m h a b x l H Ea Db Dx) as (h' & E & H').
    exists h'. split; [|done]. by rewrite (bind_Ok _ _ _ _ _ E).
Qed.

Fixpoint sl_run (os : list slop) : SM (list Z) :=
  match os with [] => ret [] | o :: os' => let! v := sl_code o in let! vs := sl_run os' in ret (v :: vs) end.
Fixpoint sl_spec_run (m : gmap Z (list Z)) (os : list slop) : option (gmap Z (list Z) * list Z) :=
  match os with
  | [] => Some (m, [])
  | o :: os' => r ← sl_spec m o; r' ← sl_spec_run (fst r) os'; Some (fst r', snd r :: snd r')
  end.

(** Every sequence of calls that keeps to the contract runs without undefined behaviour,
    and its results and the memory after it are those of the lists. *)
Lemma sllist_refines os m h m' vs : sl_state m h -> sl_spec_run m os = Some (m', vs) -> exists h', sl_run os h = (h', Ok vs) /\ sl_state m' h'.
Proof.
  revert m h m' vs. induction os as [|o os IH]; intros m h m' vs H; simpl; [intros [= <- <-]; by exists h|].
  destruct (sl_spec m o) as [[m1 v]|] eqn:E1; simpl; [|done]. destruct (sl_spec_run m1 os) as [[m2 vs']|] eqn:E2; simpl; [|done]. intros [= <- <-].
  destruct (sllist_step m h o m1 v H E1) as (h1 & R1 & H1). destruct (IH m1 h1 m2 vs' H1 E2) as (h2 & R2 & H2). exists h2. split; [|done].
  rewrite (bind_Ok _ _ _ _ _ R1). by rewrite (bind_Ok _ _ _ _ _ R2).
Qed.

(** ** The macros that take null for the end *)

Lemma sl_walk_leaves h hd l fuel : sl_next h !! CI_SLLIST_TAIL = None -> sl_chain (sl_next h) hd l -> (length l < fuel)%nat ->
  sl_walk fuel hd h = (h, Undef).
Proof.
  intros Ht. revert hd fuel. induction l as [|x l IH]; intros hd [|fuel]; simpl; try lia.
  - intros -> _. change (negb (CI_SLLIST_TAIL =? 0)) with true. cbv iota. unfold bind at 1. by rewrite load_next_none.
  - intros (-> & H0 & _ & n & En & Hc) Hf. rewrite (proj2 (Z.eqb_neq x 0)) by done. cbn [negb]. rewrite (bind_Ok _ _ _ _ _ (load_next_ok h x n En)).
    unfold bind at 1. by rewrite (IH n fuel Hc ltac:(lia)).
Qed.

(** The loop over any list, the empty one included, goes on behind the last member to what
    stands for the end and reads its link; the popping macro does so on an empty list. *)
Lemma for_each_leaves_list m h a l fuel off : sl_state m h -> m !! a = Some l -> (length l < fuel)%nat ->
  CI_SLLIST_FOR_EACH fuel a h = (h, Undef) /\ (l = [] -> CI_SLLIST_TRY_POP off a h = (h, Undef)).
Proof.
  intros (H & _) Ea Hf. destruct (sl_lists _ _ H a l Ea) as (_ & hd & Eh & Hc). pose proof (sl_end _ _ H) as Ht. split.
  - unfold CI_SLLIST_FOR_EACH. rewrite (bind_Ok _ _ _ _ _ (load_head_ok h a hd Eh)). by apply sl_walk_leaves with l.
  - intros ->. simpl in Hc. subst hd. unfold CI_SLLIST_TRY_POP, ci_sllist_pop. rewrite (bind_Ok _ _ _ _ _ (load_head_ok h a _ Eh)). change (negb (CI_SLLIST_TAIL =? 0)) with true. cbv iota.
    unfold bind at 1. rewrite (bind_Ok _ _ _ _ _ (load_head_ok h a _ Eh)). unfold bind at 1. by rewrite load_next_none.
Qed.
End Refines.

(** Two lists and three elements: pushes, an insertion, pops to the end. *)
Definition slheap1 : slheap := SLHeap {[16 := 0; 32 := 0; 48 := 0]} {[1 := 7; 2 := 7]}.

Example sllist_run :
  sl_state {[16; 32; 48]} {[1; 2]} ∅ slheap1 /\
  exists h, sl_run [SInit 1; SInit 2; SPush 1 16; SPush 2 32; SInsertAfter 1 16 48; SBusy 48; SPop 1; SBusy 16; STryPop 1; STryPop 1; SIsEmpty 2; SNotEmpty 1] slheap1 =
    (h, Ok [0; 0; 0; 0; 0; 1; 16; 0; 48; 0; 0; 0]).
Proof.
  split.
  - split; [|by vm_compute]. split; [done|done| |done]. intros x n. unfold slheap1. cbn [sl_next]. rewrite !lookup_insert_Some, lookup_singleton_Some. naive_solver.
  - eexists. vm_compute. reflexivity.
Qed.
