(* ===== verification/IpAddr.v ===== *)
(** * IpAddr: addresses and headers of IPv4 and IPv6
    ([ci/net/ipv4.h], [ci/net/ipv6.h], [ci/net/ipvx.h], [ci/net/ipvx_sh.h])

    The build with IPv6 ([CI_CFG_IPV6]) on a little-endian host.  The address
    union is the 128-bit number of its memory, and each of its views a range of
    bits; a header is the bytes it lies in, with a field at an offset, so that
    the two members of the header union share their memory. *)

From Stdlib Require Import ZArith Lia Bool Btauto String Ascii Strings.Byte.
From S2P Require Import Prelude Bytes Printf BitField.

(** ** Byte order *)

Definition CI_BSWAP_16 (v : Z) : Z := ntohs (u16 v).
Definition CI_BSWAP_32 (v : Z) : Z := ntohl (u32 v).
Definition CI_BSWAP_LE32 (v : Z) : Z := v.
Definition CI_BSWAP_LE64 (v : Z) : Z := v.
Definition CI_BSWAP_BE16 (v : Z) : Z := CI_BSWAP_16 v.
Definition CI_BSWAP_BE32 (v : Z) : Z := CI_BSWAP_32 v.

(** ** Fields of a header in memory *)

Record field := Field { f_off : nat; f_len : nat }.

Definition rd (f : field) (h : list byte) : option Z := load_le (f_off f) (f_len f) h.
Definition wr (f : field) (z : Z) (h : list byte) : option (list byte) := store (f_off f) (le_encode (f_len f) z) h.

(** ** [ci/net/ipv4.h] *)

Definition ip_ihl_version := Field 0 1.
Definition ip_tos := Field 1 1.
Definition ip_tot_len_be16 := Field 2 2.
Definition ip_id_be16 := Field 4 2.
Definition ip_frag_off_be16 := Field 6 2.
Definition ip_ttl := Field 8 1.
Definition ip_protocol := Field 9 1.
Definition ip_check_be16 := Field 10 2.
Definition ip_saddr_be32 := Field 12 4.
Definition ip_daddr_be32 := Field 16 4.
Definition ci_ip4_hdr : list field :=
  [ip_ihl_version; ip_tos; ip_tot_len_be16; ip_id_be16; ip_frag_off_be16; ip_ttl; ip_protocol; ip_check_be16;
   ip_saddr_be32; ip_daddr_be32].
Definition sizeof_ip4_hdr : Z := 20.

Definition CI_IP4_IHL_VERSION (ihl : Z) : Z := Z.lor (Z.shiftl 4 4) (Z.shiftr ihl 2).
Definition CI_IP4_IHL (ip : list byte) : option Z := v ← rd ip_ihl_version ip; Some (Z.shiftl (Z.land v 0xf) 2).
Definition CI_IP4_VERSION (ip : list byte) : option Z := v ← rd ip_ihl_version ip; Some (Z.shiftr v 4).
(** The offset of the data in the packet. *)
Definition ci_ip_data (ip : list byte) : option Z := CI_IP4_IHL ip.

Definition CI_IP4_OFFSET_MASK : Z := CI_BSWAP_16 0x1fff.
Definition CI_IP4_FRAG_MORE : Z := CI_BSWAP_16 0x2000.
Definition CI_IP4_FRAG_DONT : Z := CI_BSWAP_16 0x4000.

Definition CI_IP4_FRAG_OFFSET (ip : list byte) : option Z :=
  v ← rd ip_frag_off_be16 ip; Some (CI_BSWAP_BE16 (Z.land v CI_IP4_OFFSET_MASK)).
Definition CI_IP4_IS_FIRST_FRAG (ip : list byte) : option bool :=
  v ← rd ip_frag_off_be16 ip; Some (Z.land v (Z.lor CI_IP4_FRAG_MORE CI_IP4_OFFSET_MASK) =? CI_IP4_FRAG_MORE).
Definition CI_IP4_IS_LAST_FRAG (ip : list byte) : option bool :=
  v ← rd ip_frag_off_be16 ip; Some (Z.land v CI_IP4_FRAG_MORE =? 0).
Definition CI_IP4_IS_UNFRAG (ip : list byte) : option bool :=
  v ← rd ip_frag_off_be16 ip; Some (Z.land v (Z.lor CI_IP4_FRAG_MORE CI_IP4_OFFSET_MASK) =? 0).
Definition CI_IP4_IS_FIRST_OR_ONLY_FRAG (ip : list byte) : option bool :=
  a ← CI_IP4_IS_FIRST_FRAG ip; b ← CI_IP4_IS_UNFRAG ip; Some (a || b).
Definition CI_IP4_SET_FRAG_MORE (ip : list byte) : option (list byte) :=
  v ← rd ip_frag_off_be16 ip; wr ip_frag_off_be16 (Z.lor v CI_IP4_FRAG_MORE) ip.
Definition CI_IP4_SET_FRAG_DONT (ip : list byte) : option (list byte) :=
  v ← rd ip_frag_off_be16 ip; wr ip_frag_off_be16 (Z.lor v CI_IP4_FRAG_DONT) ip.
Definition CI_IP4_MAKE_OFFSET (off : Z) : Z := Z.land (CI_BSWAP_BE16 (Z.shiftr off 3)) CI_IP4_OFFSET_MASK.
Definition CI_IP4_ARE_FROM_SAME_PKT (ip1 ip2 : list byte) : option bool :=
  i1 ← rd ip_id_be16 ip1; i2 ← rd ip_id_be16 ip2;
  s1 ← rd ip_saddr_be32 ip1; s2 ← rd ip_saddr_be32 ip2;
  d1 ← rd ip_daddr_be32 ip1; d2 ← rd ip_daddr_be32 ip2;
  Some ((i1 =? i2) && (s1 =? s2) && (d1 =? d2)).

(** A shift by more than 31 places is undefined. *)
Definition ci_ip_prefix2mask (prefix_he32 : Z) : option Z :=
  if prefix_he32 =? 0 then Some 0
  else
    let n := u32 (32 - prefix_he32) in
    if n <? 32 then Some (u32 (Z.shiftl 0xffffffff n)) else None.

Fixpoint mask2prefix_loop (fuel : nat) (mask prefix : Z) : option Z :=
  match fuel with
  | O => None
  | S fuel' =>
      if Z.land mask 0x80000000 =? 0 then Some prefix
      else mask2prefix_loop fuel' (u32 (Z.shiftl mask 1)) (u32 (prefix + 1))
  end.
(** Every pass shifts a set bit out: 33 passes are enough. *)
Definition ci_ip_mask2prefix (mask_he32 : Z) : option Z := mask2prefix_loop 33 mask_he32 0.

Definition CI_IP_ADDR (ipa ipb ipc ipd : Z) : Z :=
  Z.lor (Z.lor (Z.lor ipa (Z.shiftl ipb 8)) (Z.shiftl ipc 16)) (Z.shiftl ipd 24).
Definition CI_IP_ADDR_EQUAL (ipaddr ipa ipb ipc ipd mask : Z) : bool :=
  Z.land ipaddr (CI_BSWAP_BE32 mask) =? Z.land (CI_IP_ADDR ipa ipb ipc ipd) (CI_BSWAP_BE32 mask).
Definition CI_IP_IS_MULTICAST (ip : Z) : bool := Z.land ip (CI_BSWAP_BE32 0xf0000000) =? CI_BSWAP_BE32 0xe0000000.
Definition CI_IP_IS_LOOPBACK (ip : Z) : bool := Z.land ip (CI_BSWAP_BE32 0xff000000) =? CI_BSWAP_BE32 0x7f000000.
Definition CI_IP_ADDR_CMP (a b : Z) : bool := negb (a =? b).

(** TCP *)

Definition tcp_hdr_len_sl4 := Field 12 1.
Definition tcp_flags := Field 13 1.
Definition ci_tcp_hdr : list field :=
  [Field 0 2; Field 2 2; Field 4 4; Field 8 4; tcp_hdr_len_sl4; tcp_flags; Field 14 2; Field 16 2; Field 18 2].
Definition sizeof_tcp_hdr : Z := 20.
Definition CI_TCP_HDR_SET_LEN (hdr : list byte) (hlen : Z) : option (list byte) := wr tcp_hdr_len_sl4 (Z.shiftl hlen 2) hdr.
Definition CI_TCP_HDR_LEN (hdr : list byte) : option Z :=
  v ← rd tcp_hdr_len_sl4 hdr; Some (Z.shiftr (Z.land v 0xf0) 2).
Definition CI_TCP_HDR_OPT_LEN (hdr : list byte) : option Z := l ← CI_TCP_HDR_LEN hdr; Some (u64 (l - sizeof_tcp_hdr)).
Definition CI_TCP_PAYLEN (ip tcp : list byte) : option Z :=
  t ← rd ip_tot_len_be16 ip; l ← CI_IP4_IHL ip; h ← CI_TCP_HDR_LEN tcp; Some (CI_BSWAP_BE16 t - l - h).

(** UDP *)

Definition udp_len_be16 := Field 4 2.
Definition ci_udp_hdr : list field := [Field 0 2; Field 2 2; udp_len_be16; Field 6 2].
Definition CI_UDP_PAYLEN (hdr : list byte) : option Z := l ← rd udp_len_be16 hdr; Some (CI_BSWAP_BE16 l).

(** ** [ci/net/ipv6.h] *)

Definition ip6_prio_version := Field 0 1.
(** The first four bytes, as the header reads them: version, class, label. *)
Definition ip6_word := Field 0 4.
Definition ip6_payload_len := Field 4 2.
Definition ip6_next_hdr := Field 6 1.
Definition ip6_hop_limit := Field 7 1.
Definition ip6_saddr := Field 8 16.
Definition ip6_daddr := Field 24 16.
Definition ci_ip6_hdr : list field :=
  [ip6_prio_version; Field 1 3; ip6_payload_len; ip6_next_hdr; ip6_hop_limit; ip6_saddr; ip6_daddr].
Definition sizeof_ip6_hdr : Z := 40.

Definition ci_ip6_data (ip6 : list byte) : option Z := Some sizeof_ip6_hdr.
Definition CI_IP6_PRIORITY (ip : list byte) : option Z := v ← rd ip6_prio_version ip; Some (Z.land v 0xf).
Definition CI_IP6_VERSION (ip : list byte) : option Z := v ← rd ip6_prio_version ip; Some (Z.shiftr v 4).

Definition CI_INET6_ADDRSTRLEN : Z := 48.

Definition CI_IP6_TCLASS_MASK : Z := CI_BSWAP_BE32 0x0FF00000.
Definition CI_IP6_FLOWLABEL_MASK : Z := CI_BSWAP_BE32 0x000FFFFF.
Definition CI_IP6_TCLASS_SHIFT : Z := 20.

Definition ci_ip6_tclass (hdr : list byte) : option Z :=
  w ← rd ip6_word hdr; Some (u8 (Z.shiftr (CI_BSWAP_BE32 (Z.land w CI_IP6_TCLASS_MASK)) CI_IP6_TCLASS_SHIFT)).
Definition ci_ip6_flowlabel_be32 (hdr : list byte) : option Z :=
  w ← rd ip6_word hdr; Some (Z.land w CI_IP6_FLOWLABEL_MASK).
Definition ci_ip6_set_flowinfo (hdr : list byte) (tclass flowlabel_be32 : Z) : option (list byte) :=
  wr ip6_word (Z.lor (CI_BSWAP_BE32 (Z.lor 0x60000000 (Z.shiftl tclass CI_IP6_TCLASS_SHIFT))) flowlabel_be32) hdr.
Definition ci_ip6_set_tclass (hdr : list byte) (tclass : Z) : option (list byte) :=
  flowlabel ← ci_ip6_flowlabel_be32 hdr; ci_ip6_set_flowinfo hdr tclass flowlabel.
Definition ci_ip6_set_flowlabel_be32 (hdr : list byte) (flowlabel : Z) : option (list byte) :=
  tclass ← ci_ip6_tclass hdr; ci_ip6_set_flowinfo hdr tclass flowlabel.

Definition CI_NEXTHDR_FRAGMENT : Z := 44.
Definition frag_next_hdr := Field 0 1.
Definition frag_reserved := Field 1 1.
Definition frag_off := Field 2 2.
Definition frag_id := Field 4 4.
Definition ci_ip6_frag_hdr : list field := [frag_next_hdr; frag_reserved; frag_off; frag_id].
Definition sizeof_ip6_frag_hdr : Z := 8.
Definition CI_IP6_MF : Z := 0x0001.
Definition CI_IP6_OFFSET : Z := 0xFFF8.

Definition ci_ip6_frag_hdr_init (fh : list byte) (next_hdr off : Z) (mf : bool) (frag_id_be32 : Z) : option (list byte) :=
  fh ← wr frag_next_hdr next_hdr fh;
  fh ← wr frag_reserved 0 fh;
  fh ← wr frag_off (CI_BSWAP_BE16 off) fh;
  fh ← (if mf then v ← rd frag_off fh; wr frag_off (Z.lor v (CI_BSWAP_BE16 CI_IP6_MF)) fh else Some fh);
  wr frag_id frag_id_be32 fh.

(** ** [ci/net/ipvx.h]: addresses *)

(** The memory of the union, as a 128-bit number. *)
Definition ci_addr_t : Type := Z.
Definition u64_of (a : ci_addr_t) (i : Z) : Z := getbits (64 * i) 64 a.
Definition u32_of (a : ci_addr_t) (i : Z) : Z := getbits (32 * i) 32 a.
Definition u16_of (a : ci_addr_t) (i : Z) : Z := getbits (16 * i) 16 a.
Definition ip6_of (a : ci_addr_t) (i : Z) : Z := getbits (8 * i) 8 a.
Definition ip4_of (a : ci_addr_t) : Z := u32_of a 3.

Definition from_u64 (w0 w1 : Z) : ci_addr_t := Z.lor (u64 w0) (Z.shiftl (u64 w1) 64).

Definition addr_any : ci_addr_t := 0.
Definition ip4_addr_any : ci_addr_t := le_decode [x00;x00;x00;x00;x00;x00;x00;x00;x00;x00;xff;xff;x00;x00;x00;x00].
Definition ip6_addr_loop : ci_addr_t := le_decode [x00;x00;x00;x00;x00;x00;x00;x00;x00;x00;x00;x00;x00;x00;x00;x01].

Definition CI_ADDR_FROM_IP4 (ip : Z) : ci_addr_t :=
  from_u64 0 (CI_BSWAP_LE64 (Z.lor (u64 (Z.shiftl (CI_BSWAP_LE32 ip) 32)) 0xffff0000)).
Definition CI_ADDR_FROM_IP6 (ip6_addr : list byte) : ci_addr_t := le_decode ip6_addr.

Inductive af := AF_INET | AF_INET6.
#[export] Instance af_eq_dec : EqDecision af.
Proof. solve_decision. Defined.
Definition IS_AF_INET6 (f : af) : bool := match f with AF_INET6 => true | AF_INET => false end.

Definition CI_IPX_ADDR_SIZE (f : af) : Z := if IS_AF_INET6 f then 16 else 4.

Definition ci_is_addr_ip6 (a : ci_addr_t) : Z :=
  Z.lor (u64_of a 0) (Z.lxor (Z.land (CI_BSWAP_LE64 (u64_of a 1)) 0xffffffff) 0xffff0000).
Definition CI_IS_ADDR_IP6 (a : ci_addr_t) : bool := negb (ci_is_addr_ip6 a =? 0).
Definition CI_ADDR_AF (a : ci_addr_t) : af := if CI_IS_ADDR_IP6 a then AF_INET6 else AF_INET.

Definition CI_IP6_IS_MULTICAST (a : ci_addr_t) : bool := ip6_of a 0 =? 0xff.
Definition CI_IP6_IS_LINKLOCAL (a : ci_addr_t) : bool :=
  Z.land (u32_of a 0) (CI_BSWAP_BE32 0xffc00000) =? CI_BSWAP_BE32 0xfe800000.

Definition ci_ipx_is_multicast (a : ci_addr_t) : bool :=
  if CI_IS_ADDR_IP6 a then CI_IP6_IS_MULTICAST a else CI_IP_IS_MULTICAST (ip4_of a).
Definition CI_IPX_IS_LINKLOCAL (a : ci_addr_t) : bool := if CI_IS_ADDR_IP6 a then CI_IP6_IS_LINKLOCAL a else false.

Definition ci_ipx_addr_cmp (a b : ci_addr_t) : Z :=
  Z.lor (Z.lxor (u64_of a 0) (u64_of b 0)) (Z.lxor (u64_of a 1) (u64_of b 1)).
Definition CI_IPX_ADDR_EQ (a b : ci_addr_t) : bool := ci_ipx_addr_cmp a b =? 0.

Definition ci_ipx_addr_cmp_any (a : ci_addr_t) : Z :=
  let v := CI_BSWAP_LE64 (u64_of a 1) in
  Z.lor (u64_of a 0)
    (Z.land (u64 (Z.lor (u64 (Z.shiftl v 32)) (Z.shiftr v 32) + 0x1000000000000)) (u64 (Z.lnot 0x1000000000000))).
Definition CI_IPX_ADDR_IS_ANY (a : ci_addr_t) : bool := ci_ipx_addr_cmp_any a =? 0.

Definition ci_ipx_is_loopback (a : ci_addr_t) : bool :=
  if CI_IS_ADDR_IP6 a then CI_IPX_ADDR_EQ a ip6_addr_loop else CI_IP_IS_LOOPBACK (ip4_of a).

Definition AF_SPACE_FLAG_IP4 : Z := 1.
Definition AF_SPACE_FLAG_IP6 : Z := 2.
Definition IS_AF_SPACE_IP6 (s : Z) : bool := negb (Z.land s AF_SPACE_FLAG_IP6 =? 0).
Definition IS_AF_SPACE_IP4 (s : Z) : bool := negb (Z.land s AF_SPACE_FLAG_IP4 =? 0).
Definition OO_AF_FAMILY2SPACE (f : af) : Z := if IS_AF_INET6 f then AF_SPACE_FLAG_IP6 else AF_SPACE_FLAG_IP4.

Definition ci_ipx_addr_xor (f : af) (a b : ci_addr_t) : ci_addr_t :=
  if IS_AF_INET6 f then from_u64 (Z.lxor (u64_of a 0) (u64_of b 0)) (Z.lxor (u64_of a 1) (u64_of b 1))
  else Z.lor (Z.land a (Z.ones 96)) (Z.shiftl (Z.lxor (ip4_of a) (ip4_of b)) 96).

Definition ci_ipx_addr_masked_cmp (a b m : ci_addr_t) : Z :=
  Z.lor (Z.land (Z.lxor (u64_of a 0) (u64_of b 0)) (u64_of m 0))
        (Z.land (Z.lxor (u64_of a 1) (u64_of b 1)) (u64_of m 1)).
Definition ci_ipx_addr_masked_eq (a b m : ci_addr_t) : bool := ci_ipx_addr_masked_cmp a b m =? 0.

(** [ci/net/ipvx_sh.h]: the address as shared with the control plane. *)
Definition CI_IS_ADDR_SH_IP6 (a : ci_addr_t) : bool := negb (getbits 0 96 a =? getbits 0 96 ip4_addr_any).
Definition CI_ADDR_SH_FROM_IP4 (ip : Z) : ci_addr_t :=
  from_u64 0 (CI_BSWAP_LE64 (Z.lor (u64 (Z.shiftl (CI_BSWAP_LE32 ip) 32)) 0xffff0000)).
Definition CI_ADDR_SH_FROM_IP6 (ip6_addr : list byte) : ci_addr_t := le_decode ip6_addr.
Definition ci_ipx_addr_sh_masked_cmp (a b m : ci_addr_t) : Z :=
  Z.lor (Z.land (Z.lxor (u64_of a 0) (u64_of b 0)) (u64_of m 0))
        (Z.land (Z.lxor (u64_of a 1) (u64_of b 1)) (u64_of m 1)).
Definition ci_ipx_addr_sh_masked_eq (a b m : ci_addr_t) : bool := ci_ipx_addr_sh_masked_cmp a b m =? 0.

(** The macros of [ci/net/ipv4.h] on an IPv6 address in memory. *)
Definition CI_IP6_IS_V4MAPPED (a : ci_addr_t) : bool :=
  (u32_of a 0 =? 0) && (u32_of a 1 =? 0) && (u32_of a 2 =? CI_BSWAP_BE32 0xffff).
Definition CI_IP6_IS_ADDR_ANY (a : ci_addr_t) : bool :=
  (u32_of a 0 =? 0) && (u32_of a 1 =? 0) && (u32_of a 2 =? 0) && (u32_of a 3 =? 0).
Definition from_u32 (w2 w3 : Z) : ci_addr_t := Z.lor (Z.shiftl w2 64) (Z.shiftl w3 96).
Definition CI_IP_TO_IP6_MAPPED (ip_be32 : Z) : ci_addr_t :=
  if negb (ip_be32 =? 0) then from_u32 (CI_BSWAP_BE32 0xffff) ip_be32 else from_u32 0 0.

(** ** [ci/net/ipvx.h]: headers *)

Definition CI_IPX_HDR_SIZE (f : af) : Z := if IS_AF_INET6 f then sizeof_ip6_hdr else sizeof_ip4_hdr.
Definition CI_IPX_FRAG_HDR_SIZE (f : af) : Z := if IS_AF_INET6 f then sizeof_ip6_frag_hdr else 0.
Definition CI_IPX_IHL (f : af) (ipx : list byte) : option Z := if IS_AF_INET6 f then Some sizeof_ip6_hdr else CI_IP4_IHL ipx.

Definition ipx_hdr_saddr (f : af) (hdr : list byte) : option ci_addr_t :=
  if IS_AF_INET6 f then rd ip6_saddr hdr else CI_ADDR_FROM_IP4 <$> rd ip_saddr_be32 hdr.
Definition ipx_hdr_daddr (f : af) (hdr : list byte) : option ci_addr_t :=
  if IS_AF_INET6 f then rd ip6_daddr hdr else CI_ADDR_FROM_IP4 <$> rd ip_daddr_be32 hdr.
Definition ipx_hdr_set_saddr (f : af) (hdr : list byte) (addr : ci_addr_t) : option (list byte) :=
  if IS_AF_INET6 f then wr ip6_saddr addr hdr else wr ip_saddr_be32 (ip4_of addr) hdr.
Definition ipx_hdr_set_daddr (f : af) (hdr : list byte) (addr : ci_addr_t) : option (list byte) :=
  if IS_AF_INET6 f then wr ip6_daddr addr hdr else wr ip_daddr_be32 (ip4_of addr) hdr.
Definition ipx_hdr_tot_len (f : af) (hdr : list byte) : option Z :=
  if IS_AF_INET6 f then l ← rd ip6_payload_len hdr; Some (CI_BSWAP_BE16 l + sizeof_ip6_hdr)
  else l ← rd ip_tot_len_be16 hdr; Some (CI_BSWAP_BE16 l).
Definition ipx_hdr_set_payload_len (f : af) (hdr : list byte) (len : Z) : option (list byte) :=
  if IS_AF_INET6 f then wr ip6_payload_len (CI_BSWAP_BE16 len) hdr
  else wr ip_tot_len_be16 (CI_BSWAP_BE16 (sizeof_ip4_hdr + len)) hdr.
Definition ipx_hdr_set_flowlabel (f : af) (hdr : list byte) (flowlabel : Z) : option (list byte) :=
  if IS_AF_INET6 f then ci_ip6_set_flowlabel_be32 hdr flowlabel else Some hdr.
Definition ipx_hdr_data (f : af) (hdr : list byte) : option Z :=
  if IS_AF_INET6 f then ci_ip6_data hdr else ci_ip_data hdr.
Definition ipx_hdr_protocol (f : af) (hdr : list byte) : option Z := rd (if IS_AF_INET6 f then ip6_next_hdr else ip_protocol) hdr.
Definition ipx_hdr_ttl (f : af) (hdr : list byte) : option Z := rd (if IS_AF_INET6 f then ip6_hop_limit else ip_ttl) hdr.
Definition ipx_hdr_tos_tclass (f : af) (hdr : list byte) : option Z :=
  if IS_AF_INET6 f then ci_ip6_tclass hdr else rd ip_tos hdr.
Definition ipx_hdr_af (hdr : list byte) : option af :=
  v ← CI_IP6_VERSION hdr; Some (if v =? 6 then AF_INET6 else AF_INET).
Definition ci_ipx_is_frag (f : af) (hdr : list byte) : option bool :=
  if IS_AF_INET6 f then n ← rd ip6_next_hdr hdr; Some (n =? CI_NEXTHDR_FRAGMENT)
  else v ← rd ip_frag_off_be16 hdr; Some (negb (Z.land v (Z.lnot CI_IP4_FRAG_DONT) =? 0)).

(** ** [ci_get_ip_str] *)

#[local] Open Scope string_scope.
#[local] Open Scope Z_scope.

Definition hexdig (d : Z) : ascii := ascii_of_nat (Z.to_nat (if d <? 10 then 48 + d else 87 + d)).
Fixpoint hex_loop (fuel : nat) (z : Z) (acc : string) : string :=
  match fuel with
  | O => acc
  | S fuel' =>
      let acc' := String (hexdig (z mod 16)) acc in
      if z / 16 =? 0 then acc' else hex_loop fuel' (z / 16) acc'
  end.
(** [%x] of an [unsigned]: at most eight digits. *)
Definition conv_x (z : Z) : string := hex_loop 8 (u32 z) "".

(** [CI_SPRINTF_APPEND]: the text so far, or the [goto fail] with the text that
    did not fit. *)
Inductive strbuf := More (s : string) | Full (s : string).
Definition slen (s : string) : Z := Z.of_nat (String.length s).
Definition append_to (size : Z) (b : strbuf) (t : string) : strbuf :=
  match b with
  | More s => if size <=? slen (s ++ t) then Full (s ++ t) else More (s ++ t)
  | Full s => Full s
  end.

(** One pass of the loop over the eight groups. *)
Definition str_group (size : Z) (a : ci_addr_t) (st : strbuf * bool * bool) (i : Z) : strbuf * bool * bool :=
  let '(b, in_zero, been_in_zero) := st in
  let b := if negb (i =? 0) && negb in_zero then append_to size b ":" else b in
  if (u16_of a i =? 0) && (in_zero || negb been_in_zero) then
    ((if in_zero then b else append_to size b ":"), true, true)
  else (append_to size b (conv_x (CI_BSWAP_BE16 (u16_of a i))), false, been_in_zero).

Definition quad_text (ip : Z) : string :=
  digits 0 (getbits 0 8 ip) ++ "." ++ digits 0 (getbits 8 8 ip) ++ "." ++
  digits 0 (getbits 16 8 ip) ++ "." ++ digits 0 (getbits 24 8 ip).

Definition ip_text (size : Z) (src : ci_addr_t) (brackets : bool) : strbuf :=
  if CI_IS_ADDR_IP6 src then
    let b := if brackets then append_to size (More "") "[" else More "" in
    let '(b, in_zero, _) := fold_left (str_group size src) [0; 1; 2; 3; 4; 5; 6; 7] (b, false, false) in
    let b := if in_zero then append_to size b ":" else b in
    if brackets then append_to size b "]" else b
  else append_to size (More "") (quad_text (ip4_of src)).

(** The string in [dst].  Text that does not fit fails an assertion when it is
    longer than the buffer; when it is as long, the last byte is cut. *)
Definition ci_get_ip_str (src : ci_addr_t) (size : Z) (brackets : bool) : outcome string :=
  match ip_text size src brackets with
  | More s => Ok s
  | Full s => if slen s <=? size then Ok (substring 0 (Z.to_nat (size - 1)) s) else Abort
  end.

(** ** Addresses *)

Definition addr_ok (a : ci_addr_t) : Prop := 0 <= a < 2 ^ 128.

Lemma getbits_div o w x : 0 <= o -> 0 <= w -> getbits o w x = x / 2 ^ o mod 2 ^ w.
Proof. intros Ho Hw. unfold getbits. by rewrite Z.land_ones, Z.shiftr_div_pow2. Qed.

Lemma u64_lo a : u64_of a 0 = a mod 2 ^ 64.
Proof. unfold u64_of. rewrite getbits_div by lia. by rewrite Z.div_1_r. Qed.

Lemma u64_hi a : addr_ok a -> u64_of a 1 = a / 2 ^ 64.
Proof.
  intros Ha. unfold u64_of. rewrite getbits_div by lia. change (64 * 1) with 64. apply Z.mod_small.
  split; [apply Z.div_pos; [apply Ha|lia]|]. apply Z.div_lt_upper_bound; [lia|apply Ha].
Qed.

Lemma ip4_hi a : addr_ok a -> ip4_of a = a / 2 ^ 96.
Proof.
  intros Ha. unfold ip4_of, u32_of. rewrite getbits_div by lia. change (32 * 3) with 96. apply Z.mod_small.
  split; [apply Z.div_pos; [apply Ha|lia]|]. apply Z.div_lt_upper_bound; [lia|apply Ha].
Qed.

(** An address by its 64-bit words, the upper one by its halves. *)
Lemma addr_parts a : addr_ok a -> exists lo mid hi,
  0 <= lo < 2 ^ 64 /\ 0 <= mid < 2 ^ 32 /\ 0 <= hi < 2 ^ 32 /\
  a = lo + 2 ^ 64 * (mid + 2 ^ 32 * hi) /\ u64_of a 0 = lo /\ u64_of a 1 = mid + 2 ^ 32 * hi /\ ip4_of a = hi.
Proof.
  intros Ha. exists (a mod 2 ^ 64), (a / 2 ^ 64 mod 2 ^ 32), (a / 2 ^ 96).
  assert (Hd : a / 2 ^ 96 = a / 2 ^ 64 / 2 ^ 32) by (rewrite Z.div_div by lia; done).
  pose proof (Z.mod_pos_bound a (2 ^ 64) ltac:(lia)). pose proof (Z.mod_pos_bound (a / 2 ^ 64) (2 ^ 32) ltac:(lia)).
  pose proof (Z.div_mod a (2 ^ 64) ltac:(lia)) as E1. pose proof (Z.div_mod (a / 2 ^ 64) (2 ^ 32) ltac:(lia)) as E2.
  assert (0 <= a / 2 ^ 96 < 2 ^ 32).
  { destruct Ha. split; [apply Z.div_pos; lia|apply Z.div_lt_upper_bound; lia]. }
  rewrite u64_lo, u64_hi, ip4_hi by done. rewrite Hd in *. split_and!; try lia.
Qed.

Lemma from_u64_add w0 w1 : 0 <= w0 < 2 ^ 64 -> 0 <= w1 < 2 ^ 64 -> from_u64 w0 w1 = w0 + 2 ^ 64 * w1.
Proof.
  intros H0 H1. unfold from_u64. rewrite !wrap_small by lia. rewrite Z.lor_comm, lor_shiftl_add by lia. lia.
Qed.

Lemma from_ip4_add ip : 0 <= ip < 2 ^ 32 -> CI_ADDR_FROM_IP4 ip = 2 ^ 64 * (0xffff0000 + 2 ^ 32 * ip).
Proof.
  intros H. unfold CI_ADDR_FROM_IP4, CI_BSWAP_LE64, CI_BSWAP_LE32.
  rewrite wrap_small by (rewrite Z.shiftl_mul_pow2; lia). rewrite lor_shiftl_add by lia.
  rewrite from_u64_add by lia. lia.
Qed.

Lemma lor_lxor_zero x y z w : Z.lor (Z.lxor x y) (Z.lxor z w) = 0 <-> x = y /\ z = w.
Proof. by rewrite Z.lor_eq_0_iff, !Z.lxor_eq_0_iff. Qed.

Lemma is_addr_ip6_zero a : addr_ok a -> ci_is_addr_ip6 a = 0 <-> a = CI_ADDR_FROM_IP4 (ip4_of a).
Proof.
  intros Ha. destruct (addr_parts a Ha) as (lo & mid & hi & Hlo & Hmid & Hhi & E & E0 & E1 & E4).
  unfold ci_is_addr_ip6, CI_BSWAP_LE64. rewrite E0, E1, E4. change 0xffffffff with (Z.ones 32).
  rewrite Z.land_ones by lia. replace ((mid + 2 ^ 32 * hi) mod 2 ^ 32) with mid
    by (rewrite Z.mul_comm, Z_mod_plus_full, Z.mod_small by lia; done).
  rewrite Z.lor_eq_0_iff, Z.lxor_eq_0_iff, from_ip4_add by done. lia.
Qed.

Lemma from_ip4_ok ip : 0 <= ip < 2 ^ 32 -> addr_ok (CI_ADDR_FROM_IP4 ip) /\ ip4_of (CI_ADDR_FROM_IP4 ip) = ip.
Proof.
  intros H. assert (Ha : addr_ok (CI_ADDR_FROM_IP4 ip)) by (unfold addr_ok; rewrite from_ip4_add by done; lia).
  split; [done|]. rewrite ip4_hi by done. rewrite from_ip4_add by done.
  symmetry. apply (Z.div_unique _ _ _ (2 ^ 64 * 0xffff0000)); lia.
Qed.

Lemma addr_eq_spec a b : addr_ok a -> addr_ok b -> CI_IPX_ADDR_EQ a b = true <-> a = b.
Proof.
  intros Ha Hb. unfold CI_IPX_ADDR_EQ, ci_ipx_addr_cmp. rewrite Z.eqb_eq, lor_lxor_zero.
  destruct (addr_parts a Ha) as (lo & mid & hi & _ & _ & _ & E & E0 & E1 & _).
  destruct (addr_parts b Hb) as (lo' & mid' & hi' & _ & _ & _ & E' & E0' & E1' & _).
  rewrite E0, E1, E0', E1'. split; [intros [-> Hm]; lia|]. intros ->. by rewrite <- E0, <- E1, E0', E1'.
Qed.

Lemma land_pow2 x n : 0 <= n -> Z.land x (2 ^ n) = if Z.testbit x n then 2 ^ n else 0.
Proof.
  intros Hn. apply Z.bits_inj'. intros i Hi. rewrite Z.land_spec, Z.pow2_bits_eqb by lia.
  destruct (Z.eqb_spec n i) as [->|Hne].
  - rewrite andb_true_r. destruct (Z.testbit x i); [by rewrite Z.pow2_bits_true|by rewrite Z.bits_0].
  - rewrite andb_false_r. destruct (Z.testbit x n); [by rewrite Z.pow2_bits_false|by rewrite Z.bits_0].
Qed.

(** Clearing one bit of a word leaves zero in two cases. *)
Lemma clear_bit48 x : 0 <= x < 2 ^ 64 -> Z.land x (u64 (Z.lnot (2 ^ 48))) = 0 <-> x = 0 \/ x = 2 ^ 48.
Proof.
  intros Hx. split.
  - intros H. assert (E : x = Z.land x (2 ^ 48)).
    { assert (Hs : x = Z.land x (Z.ones 64)) by (rewrite Z.land_ones, Z.mod_small by lia; done).
      rewrite Hs at 1. change (Z.ones 64) with (Z.lor (u64 (Z.lnot (2 ^ 48))) (2 ^ 48)).
      by rewrite Z.land_lor_distr_r, H. }
    rewrite land_pow2 in E by lia. destruct (Z.testbit x 48); lia.
  - by intros [->| ->].
Qed.

Lemma addr_is_any_spec a : addr_ok a -> CI_IPX_ADDR_IS_ANY a = true <-> a = addr_any \/ a = ip4_addr_any.
Proof.
  intros Ha. destruct (addr_parts a Ha) as (lo & mid & hi & Hlo & Hmid & Hhi & E & E0 & E1 & _).
  unfold CI_IPX_ADDR_IS_ANY, ci_ipx_addr_cmp_any, CI_BSWAP_LE64. rewrite E0, E1, Z.eqb_eq.
  assert (Ev : Z.lor (u64 (Z.shiftl (mid + 2 ^ 32 * hi) 32)) (Z.shiftr (mid + 2 ^ 32 * hi) 32) = mid * 2 ^ 32 + hi).
  { rewrite Z.shiftr_div_pow2 by lia. replace ((mid + 2 ^ 32 * hi) / 2 ^ 32) with hi
      by (apply (Z.div_unique _ _ _ mid); lia).
    replace (u64 (Z.shiftl (mid + 2 ^ 32 * hi) 32)) with (Z.shiftl mid 32); [by apply lor_shiftl_add|].
    rewrite !Z.shiftl_mul_pow2 by lia. unfold wrap. apply (Z.mod_unique _ _ hi); lia. }
  rewrite Ev. change 0x1000000000000 with (2 ^ 48). rewrite Z.lor_eq_0_iff, clear_bit48 by (apply wrap_range; lia).
  assert (u64 (mid * 2 ^ 32 + hi + 2 ^ 48) = 0 \/ u64 (mid * 2 ^ 32 + hi + 2 ^ 48) = 2 ^ 48 <->
          (mid = 0 \/ mid = 0xffff0000) /\ hi = 0) as ->.
  { unfold wrap. pose proof (Z.div_mod (mid * 2 ^ 32 + hi + 2 ^ 48) (2 ^ 64) ltac:(lia)) as Hm.
    pose proof (Z.mod_pos_bound (mid * 2 ^ 32 + hi + 2 ^ 48) (2 ^ 64) ltac:(lia)).
    remember ((mid * 2 ^ 32 + hi + 2 ^ 48) / 2 ^ 64) as q. remember ((mid * 2 ^ 32 + hi + 2 ^ 48) mod 2 ^ 64) as r.
    assert (0 <= q <= 1) by lia. assert (q = 0 \/ q = 1) as [-> | ->] by lia; lia. }
  change ip4_addr_any with (2 ^ 64 * 0xffff0000). unfold addr_any. lia.
Qed.

Lemma getbits_land o w x y : getbits o w (Z.land x y) = Z.land (getbits o w x) (getbits o w y).
Proof.
  unfold getbits. rewrite Z.shiftr_land. apply Z.bits_inj'. intros i Hi. rewrite !Z.land_spec. btauto.
Qed.

Lemma getbits_lxor o w x y : getbits o w (Z.lxor x y) = Z.lxor (getbits o w x) (getbits o w y).
Proof.
  unfold getbits. rewrite Z.shiftr_lxor. apply Z.bits_inj'. intros i Hi. rewrite ?Z.lxor_spec, ?Z.land_spec, ?Z.lxor_spec.
  btauto.
Qed.

Lemma addr_zero a : addr_ok a -> a = 0 <-> u64_of a 0 = 0 /\ u64_of a 1 = 0.
Proof. intros Ha. destruct (addr_parts a Ha) as (lo & mid & hi & ? & ? & ? & E & -> & -> & _). lia. Qed.

Lemma land_ok x m : addr_ok m -> addr_ok (Z.land x m).
Proof.
  intros [Hm Hm']. split; [apply Z.land_nonneg; auto|].
  destruct (Z.eq_dec (Z.land x m) 0) as [->|Hn]; [lia|].
  pose proof (proj2 (Z.land_nonneg x m) (or_intror Hm)).
  replace (Z.land x m) with (Z.land (Z.land x m) (Z.ones 128)).
  - rewrite Z.land_ones by lia. apply Z.mod_pos_bound. lia.
  - rewrite <- Z.land_assoc, (Z.land_ones m), Z.mod_small by lia. done.
Qed.

Lemma masked_eq_spec a b m : addr_ok m -> ci_ipx_addr_masked_eq a b m = true <-> Z.land a m = Z.land b m.
Proof.
  intros Hm. unfold ci_ipx_addr_masked_eq, ci_ipx_addr_masked_cmp. rewrite Z.eqb_eq, Z.lor_eq_0_iff.
  unfold u64_of. rewrite <- !getbits_lxor, <- !getbits_land.
  change (u64_of (Z.land (Z.lxor a b) m) 0 = 0 /\ u64_of (Z.land (Z.lxor a b) m) 1 = 0 <-> Z.land a m = Z.land b m).
  rewrite <- (addr_zero _ (land_ok (Z.lxor a b) m Hm)), <- Z.lxor_eq_0_iff.
  replace (Z.land (Z.lxor a b) m) with (Z.lxor (Z.land a m) (Z.land b m)); [done|].
  apply Z.bits_inj'. intros i Hi. rewrite ?Z.lxor_spec, ?Z.land_spec, ?Z.lxor_spec. btauto.
Qed.

Lemma u32_words a : addr_ok a -> exists w0 w1 w2 w3,
  0 <= w0 < 2 ^ 32 /\ 0 <= w1 < 2 ^ 32 /\ 0 <= w2 < 2 ^ 32 /\ 0 <= w3 < 2 ^ 32 /\
  a = w0 + 2 ^ 32 * (w1 + 2 ^ 32 * (w2 + 2 ^ 32 * w3)) /\
  u32_of a 0 = w0 /\ u32_of a 1 = w1 /\ u32_of a 2 = w2 /\ u32_of a 3 = w3.
Proof.
  intros [H0 H1]. exists (a mod 2 ^ 32), (a / 2 ^ 32 mod 2 ^ 32), (a / 2 ^ 64 mod 2 ^ 32), (a / 2 ^ 96 mod 2 ^ 32).
  pose proof (Z.mod_pos_bound a (2 ^ 32)). pose proof (Z.mod_pos_bound (a / 2 ^ 32) (2 ^ 32)).
  pose proof (Z.mod_pos_bound (a / 2 ^ 64) (2 ^ 32)). pose proof (Z.mod_pos_bound (a / 2 ^ 96) (2 ^ 32)).
  assert (E1 : a / 2 ^ 64 = a / 2 ^ 32 / 2 ^ 32) by (rewrite Z.div_div by lia; done).
  assert (E2 : a / 2 ^ 96 = a / 2 ^ 64 / 2 ^ 32) by (rewrite Z.div_div by lia; done).
  assert (E3 : a / 2 ^ 96 mod 2 ^ 32 = a / 2 ^ 96).
  { apply Z.mod_small. split; [apply Z.div_pos; lia|apply Z.div_lt_upper_bound; lia]. }
  pose proof (Z.div_mod a (2 ^ 32)). pose proof (Z.div_mod (a / 2 ^ 32) (2 ^ 32)). pose proof (Z.div_mod (a / 2 ^ 64) (2 ^ 32)).
  unfold u32_of. rewrite !getbits_div by lia. change (32 * 0) with 0. change (32 * 1) with 32.
  change (32 * 2) with 64. change (32 * 3) with 96. rewrite Z.div_1_r. split_and!; try lia.
Qed.

(** The three tests for a mapped address are one test. *)
Lemma mapped_agree a : addr_ok a ->
  CI_IP6_IS_V4MAPPED a = negb (CI_IS_ADDR_IP6 a) /\ CI_IS_ADDR_SH_IP6 a = CI_IS_ADDR_IP6 a.
Proof.
  intros Ha. destruct (u32_words a Ha) as (w0 & w1 & w2 & w3 & H0 & H1 & H2 & H3 & E & E0 & E1 & E2 & E3).
  pose proof (is_addr_ip6_zero a Ha) as Hz. unfold ip4_of in Hz. rewrite E3, from_ip4_add in Hz by done.
  assert (Hz' : ci_is_addr_ip6 a = 0 <-> w0 = 0 /\ w1 = 0 /\ w2 = 0xffff0000) by lia. clear Hz.
  unfold CI_IP6_IS_V4MAPPED, CI_IS_ADDR_SH_IP6, CI_IS_ADDR_IP6. rewrite E0, E1, E2, negb_involutive.
  change (CI_BSWAP_BE32 0xffff) with 0xffff0000. split.
  - apply eq_true_iff_eq. rewrite !andb_true_iff, !Z.eqb_eq. lia.
  - f_equal. apply eq_true_iff_eq. rewrite !Z.eqb_eq.
    change (getbits 0 96 ip4_addr_any) with (2 ^ 64 * 0xffff0000). rewrite getbits_div, Z.div_1_r by lia.
    replace (a mod 2 ^ 96) with (w0 + 2 ^ 32 * (w1 + 2 ^ 32 * w2)) by (apply (Z.mod_unique _ _ w3); lia). lia.
Qed.

(** C16: the bit tests on addresses decide what they are meant to, on every
    128-bit value.  An address counts as IPv4 exactly when it is the mapped form
    of its last four bytes, and the three tests for that agree; equality is
    equality of all bits; the unspecified-address test with its addition and
    mask holds exactly of [::] and [::ffff:0.0.0.0]; the masked comparison is
    equality under the mask. *)
Theorem addr_tests_exact a b m : addr_ok a -> addr_ok b -> addr_ok m ->
  (CI_IS_ADDR_IP6 a = false <-> a = CI_ADDR_FROM_IP4 (ip4_of a)) /\
  CI_IP6_IS_V4MAPPED a = negb (CI_IS_ADDR_IP6 a) /\ CI_IS_ADDR_SH_IP6 a = CI_IS_ADDR_IP6 a /\
  (CI_IPX_ADDR_EQ a b = true <-> a = b) /\
  (CI_IPX_ADDR_IS_ANY a = true <-> a = addr_any \/ a = ip4_addr_any) /\
  (ci_ipx_addr_masked_eq a b m = true <-> Z.land a m = Z.land b m).
Proof.
  intros Ha Hb Hm. destruct (mapped_agree a Ha) as [M1 M2]. split_and!; auto.
  - unfold CI_IS_ADDR_IP6. rewrite negb_false_iff, Z.eqb_eq. by apply is_addr_ip6_zero.
  - by apply addr_eq_spec.
  - by apply addr_is_any_spec.
  - by apply masked_eq_spec.
Qed.

Lemma addr_tests_exact_witness :
  CI_IS_ADDR_IP6 (CI_ADDR_FROM_IP4 0x0100007f) = false /\ CI_IPX_ADDR_IS_ANY ip4_addr_any = true /\
  CI_IPX_ADDR_EQ ip6_addr_loop addr_any = false.
Proof.
  assert (H1 : addr_ok (CI_ADDR_FROM_IP4 0x0100007f)) by (split; [|apply Z.ltb_lt]; by vm_compute).
  assert (H2 : addr_ok ip4_addr_any) by (split; [|apply Z.ltb_lt]; by vm_compute).
  assert (H3 : addr_ok ip6_addr_loop) by (split; [|apply Z.ltb_lt]; by vm_compute).
  assert (H4 : addr_ok addr_any) by (unfold addr_ok, addr_any; lia).
  destruct (addr_tests_exact _ _ _ H1 H2 H2) as (E1 & _).
  destruct (addr_tests_exact _ _ _ H2 H2 H2) as (_ & _ & _ & _ & E2 & _).
  destruct (addr_tests_exact _ _ _ H3 H4 H4) as (_ & _ & _ & E3 & _).
  split; [apply E1; by vm_compute|]. split; [apply E2; by right|].
  apply not_true_iff_false. intros H. apply E3 in H. done.
Defined.

(** ** Headers *)

Definition fits_in (f : field) (h : list byte) : Prop := (f_off f + f_len f <= length h)%nat.
Definition apart (f g : field) : Prop := (f_off g + f_len g <= f_off f \/ f_off f + f_len f <= f_off g)%nat.

Lemma wr_ok f z h : fits_in f h -> exists h', wr f z h = Some h' /\ length h' = length h /\
  rd f h' = Some (wrap (8 * Z.of_nat (f_len f)) z) /\ (forall g, apart f g -> rd g h' = rd g h).
Proof.
  intros Hf. unfold wr. destruct (store_Some (f_off f) (le_encode (f_len f) z) h) as [h' E];
    [by rewrite le_encode_length|]. exists h'. split; [done|]. split; [by eapply store_length|].
  split; [by apply load_le_store_same in E|]. intros g Hg. unfold rd. eapply load_le_store_disjoint; [exact E|].
  rewrite le_encode_length. unfold apart in Hg. lia.
Qed.

Lemma ntohs_bytes b0 b1 : 0 <= b0 < 256 -> 0 <= b1 < 256 -> ntohs (b0 + 256 * b1) = b1 + 256 * b0.
Proof.
  intros H0 H1. unfold ntohs. rewrite land_255, Z.shiftr_div_pow2 by lia. change (2 ^ 8) with 256.
  rewrite <- (Z.mod_unique (b0 + 256 * b1) 256 b1 b0), <- (Z.div_unique (b0 + 256 * b1) 256 b1 b0) by lia.
  rewrite lor_shiftl_add by lia. lia.
Qed.

Lemma bswap16_invol z : 0 <= z < 65536 -> CI_BSWAP_BE16 (wrap 16 (CI_BSWAP_BE16 z)) = z.
Proof.
  intros Hz. unfold CI_BSWAP_BE16, CI_BSWAP_16.
  assert (exists b0 b1, 0 <= b0 < 256 /\ 0 <= b1 < 256 /\ z = b0 + 256 * b1) as (b0 & b1 & H0 & H1 & ->).
  { exists (z mod 256), (z / 256). pose proof (Z.div_mod z 256). pose proof (Z.mod_pos_bound z 256).
    split; [lia|]. split; [split; [apply Z.div_pos; lia|apply Z.div_lt_upper_bound; lia]|lia]. }
  rewrite (wrap_small 16 (b0 + 256 * b1)), ntohs_bytes by lia. rewrite wrap_wrap, wrap_small by lia. apply ntohs_bytes; lia.
Qed.

(** What a header of family [f] gives back for an address. *)
Definition seen_as (f : af) (a : ci_addr_t) : ci_addr_t := if IS_AF_INET6 f then a else CI_ADDR_FROM_IP4 (ip4_of a).

Lemma ip4_of_range a : 0 <= ip4_of a < 2 ^ 32.
Proof. apply getbits_range. lia. Qed.

(** The fields that the functions over either family select. *)
Definition saddr_field (f : af) : field := if IS_AF_INET6 f then ip6_saddr else ip_saddr_be32.
Definition daddr_field (f : af) : field := if IS_AF_INET6 f then ip6_daddr else ip_daddr_be32.
Definition len_field (f : af) : field := if IS_AF_INET6 f then ip6_payload_len else ip_tot_len_be16.

Lemma set_saddr_spec f hdr a : addr_ok a -> CI_IPX_HDR_SIZE f <= Z.of_nat (length hdr) ->
  exists h', ipx_hdr_set_saddr f hdr a = Some h' /\ length h' = length hdr /\
  ipx_hdr_saddr f h' = Some (seen_as f a) /\ (forall g, apart (saddr_field f) g -> rd g h' = rd g hdr).
Proof.
  intros Ha Hl. destruct f; unfold ipx_hdr_set_saddr, ipx_hdr_saddr, seen_as; cbn in *.
  - destruct (wr_ok ip_saddr_be32 (ip4_of a) hdr) as (h' & E & Hlen & R & Fr); [unfold fits_in, sizeof_ip4_hdr, sizeof_ip6_hdr in *; simpl; lia|].
    exists h'. rewrite E, R, wrap_small by apply ip4_of_range. auto.
  - destruct (wr_ok ip6_saddr a hdr) as (h' & E & Hlen & R & Fr); [unfold fits_in, sizeof_ip4_hdr, sizeof_ip6_hdr in *; simpl; lia|].
    exists h'. rewrite E, R, wrap_small by apply Ha. auto.
Qed.

Lemma set_daddr_spec f hdr a : addr_ok a -> CI_IPX_HDR_SIZE f <= Z.of_nat (length hdr) ->
  exists h', ipx_hdr_set_daddr f hdr a = Some h' /\ length h' = length hdr /\
  ipx_hdr_daddr f h' = Some (seen_as f a) /\ (forall g, apart (daddr_field f) g -> rd g h' = rd g hdr).
Proof.
  intros Ha Hl. destruct f; unfold ipx_hdr_set_daddr, ipx_hdr_daddr, seen_as; cbn in *.
  - destruct (wr_ok ip_daddr_be32 (ip4_of a) hdr) as (h' & E & Hlen & R & Fr); [unfold fits_in, sizeof_ip4_hdr, sizeof_ip6_hdr in *; simpl; lia|].
    exists h'. rewrite E, R, wrap_small by apply ip4_of_range. auto.
  - destruct (wr_ok ip6_daddr a hdr) as (h' & E & Hlen & R & Fr); [unfold fits_in, sizeof_ip4_hdr, sizeof_ip6_hdr in *; simpl; lia|].
    exists h'. rewrite E, R, wrap_small by apply Ha. auto.
Qed.

Lemma set_len_spec f hdr len : 0 <= len < 65536 - 20 -> CI_IPX_HDR_SIZE f <= Z.of_nat (length hdr) ->
  exists h', ipx_hdr_set_payload_len f hdr len = Some h' /\ length h' = length hdr /\
  ipx_hdr_tot_len f h' = Some (len + CI_IPX_HDR_SIZE f) /\ (forall g, apart (len_field f) g -> rd g h' = rd g hdr).
Proof.
  intros Hn Hl. destruct f; unfold ipx_hdr_set_payload_len, ipx_hdr_tot_len; cbn [IS_AF_INET6 CI_IPX_HDR_SIZE] in *.
  - destruct (wr_ok ip_tot_len_be16 (CI_BSWAP_BE16 (sizeof_ip4_hdr + len)) hdr) as (h' & E & Hlen & R & Fr);
      [unfold fits_in, CI_IPX_HDR_SIZE, sizeof_ip4_hdr in *; simpl in *; lia|].
    exists h'. rewrite E, R. cbn [mbind option_bind f_len ip_tot_len_be16]. change (8 * Z.of_nat 2) with 16.
    rewrite bswap16_invol by (unfold sizeof_ip4_hdr; lia). split_and!; auto. f_equal. unfold CI_IPX_HDR_SIZE. simpl. lia.
  - destruct (wr_ok ip6_payload_len (CI_BSWAP_BE16 len) hdr) as (h' & E & Hlen & R & Fr);
      [unfold fits_in, CI_IPX_HDR_SIZE, sizeof_ip6_hdr in *; simpl in *; lia|].
    exists h'. rewrite E, R. cbn [mbind option_bind f_len ip6_payload_len]. change (8 * Z.of_nat 2) with 16.
    rewrite bswap16_invol by lia. split_and!; auto.
Qed.

(** Traffic class and flow label share a word of the IPv6 header. *)
Definition flow_word (t l : Z) : Z := Z.lor (CI_BSWAP_BE32 (Z.lor 0x60000000 (Z.shiftl t CI_IP6_TCLASS_SHIFT))) l.

Definition class_ok (t : Z) : bool :=
  let w := CI_BSWAP_BE32 (Z.lor 0x60000000 (Z.shiftl t CI_IP6_TCLASS_SHIFT)) in
  (Z.land w CI_IP6_FLOWLABEL_MASK =? 0) && (w <? 2 ^ 32) && (0 <=? w) && (Z.land w 0xf0 =? 0x60) &&
  (u8 (Z.shiftr (CI_BSWAP_BE32 (Z.land w CI_IP6_TCLASS_MASK)) CI_IP6_TCLASS_SHIFT) =? t).

Lemma class_all t : 0 <= t < 256 -> class_ok t = true.
Proof.
  intros Ht. assert (H : forallb class_ok (seqZ 0 256) = true) by by vm_compute.
  rewrite forallb_forall in H. apply H. apply list_elem_of_In, elem_of_seqZ. lia.
Qed.

Lemma flow_word_spec t l : 0 <= t < 256 -> 0 <= l -> Z.land l CI_IP6_FLOWLABEL_MASK = l ->
  0 <= flow_word t l < 2 ^ 32 /\ Z.land (flow_word t l) CI_IP6_FLOWLABEL_MASK = l /\
  Z.land (flow_word t l) 0xf0 = 0x60 /\
  u8 (Z.shiftr (CI_BSWAP_BE32 (Z.land (flow_word t l) CI_IP6_TCLASS_MASK)) CI_IP6_TCLASS_SHIFT) = t.
Proof.
  intros Ht Hl Hm. pose proof (class_all t Ht) as Hc. unfold class_ok in Hc. unfold flow_word.
  set (w := CI_BSWAP_BE32 _) in *. zbool.
  assert (Hz : forall k, Z.land CI_IP6_FLOWLABEL_MASK k = 0 -> Z.land l k = 0).
  { intros k Hk. rewrite <- Hm, <- Z.land_assoc, Hk. apply Z.land_0_r. }
  assert (Hlb : l < 2 ^ 32).
  { rewrite <- Hm. assert (E : Z.land l CI_IP6_FLOWLABEL_MASK = Z.land (Z.land l CI_IP6_FLOWLABEL_MASK) (Z.ones 32))
      by (rewrite <- Z.land_assoc; done). rewrite E, Z.land_ones by lia. apply Z.mod_pos_bound. lia. }
  split; [|split; [|split]].
  - split; [apply Z.lor_nonneg; split; lia|].
    replace (Z.lor w l) with (Z.land (Z.lor w l) (Z.ones 32)); [rewrite Z.land_ones by lia; apply Z.mod_pos_bound; lia|].
    rewrite Z.land_lor_distr_l, !Z.land_ones, !Z.mod_small by lia. done.
  - rewrite Z.land_lor_distr_l. rewrite Hm. match goal with H : Z.land w CI_IP6_FLOWLABEL_MASK = 0 |- _ => by rewrite H end.
  - rewrite Z.land_lor_distr_l, (Hz 0xf0) by done. rewrite Z.lor_0_r. done.
  - rewrite Z.land_lor_distr_l, (Hz CI_IP6_TCLASS_MASK) by done. rewrite Z.lor_0_r. done.
Qed.

Lemma rd_low off h w : load_le off 4 h = Some w -> load_le off 1 h = Some (w mod 256).
Proof.
  unfold load_le, load. intros H. destruct (decide (off + 4 <= length h)%nat) as [Hl|]; [|done].
  rewrite decide_True by lia. cbn [fmap option_fmap option_map] in *.
  assert (exists b bs, drop off h = b :: bs) as (b & bs & E).
  { destruct (drop off h) as [|b bs] eqn:E; [|by eauto]. apply (f_equal length) in E. rewrite length_drop in E. simpl in E. lia. }
  rewrite E in *. cbn [take le_decode] in *. injection H as <-. pose proof (b2z_range b). f_equal.
  rewrite Z.mul_0_r, Z.add_0_r, (Z.mul_comm 256), Z_mod_plus_full, Z.mod_small by lia. done.
Qed.

Lemma set_flowinfo_spec hdr t l : 0 <= t < 256 -> 0 <= l -> Z.land l CI_IP6_FLOWLABEL_MASK = l ->
  (4 <= length hdr)%nat -> exists h', ci_ip6_set_flowinfo hdr t l = Some h' /\ length h' = length hdr /\
  ci_ip6_tclass h' = Some t /\ ci_ip6_flowlabel_be32 h' = Some l /\ ipx_hdr_af h' = Some AF_INET6 /\
  (forall g, apart ip6_word g -> rd g h' = rd g hdr).
Proof.
  intros Ht Hl Hm Hlen. destruct (flow_word_spec t l Ht Hl Hm) as (Hw & F1 & F2 & F3).
  destruct (wr_ok ip6_word (flow_word t l) hdr) as (h' & E & Hlen' & R & Fr); [done|].
  change (8 * Z.of_nat (f_len ip6_word)) with 32 in R. rewrite wrap_small in R by done.
  exists h'. split; [exact E|]. split; [done|]. unfold ci_ip6_tclass, ci_ip6_flowlabel_be32, ipx_hdr_af, CI_IP6_VERSION.
  rewrite R. cbn [mbind option_bind]. rewrite F1, F3. split; [done|]. split; [done|]. split; [|done].
  unfold rd in *. cbn [f_off f_len ip6_word ip6_prio_version] in *. rewrite (rd_low 0 h' _ R). cbn [mbind option_bind].
  rewrite <- land_255. replace (Z.shiftr (Z.land (flow_word t l) 255) 4) with (Z.shiftr (Z.land (flow_word t l) 0xf0) 4)
    by (rewrite !Z.shiftr_land; done). by rewrite F2.
Qed.

(** Setting source, destination and payload length of a header of either
    family reads back as the addresses (an IPv4 header gives the mapped form of
    the last four bytes) and the total length, and leaves protocol, time to
    live and class alone; traffic class and flow label, which share a word of
    the IPv6 header, both read back after being set, and the header is then
    recognised as IPv6. *)
Theorem ipx_hdr_roundtrip f hdr s d len t l : addr_ok s -> addr_ok d -> 0 <= len < 65516 ->
  0 <= t < 256 -> 0 <= l -> Z.land l CI_IP6_FLOWLABEL_MASK = l -> CI_IPX_HDR_SIZE f <= Z.of_nat (length hdr) ->
  (exists h1 h2 h3, ipx_hdr_set_saddr f hdr s = Some h1 /\ ipx_hdr_set_daddr f h1 d = Some h2 /\
     ipx_hdr_set_payload_len f h2 len = Some h3 /\
     ipx_hdr_saddr f h3 = Some (seen_as f s) /\ ipx_hdr_daddr f h3 = Some (seen_as f d) /\
     ipx_hdr_tot_len f h3 = Some (len + CI_IPX_HDR_SIZE f) /\ ipx_hdr_protocol f h3 = ipx_hdr_protocol f hdr /\
     ipx_hdr_ttl f h3 = ipx_hdr_ttl f hdr /\ ipx_hdr_tos_tclass f h3 = ipx_hdr_tos_tclass f hdr) /\
  (exists h', ci_ip6_set_flowinfo hdr t l = Some h' /\ ci_ip6_tclass h' = Some t /\
     ci_ip6_flowlabel_be32 h' = Some l /\ ipx_hdr_af h' = Some AF_INET6).
Proof.
  intros Hs Hd Hlen Ht Hl Hm Hh. split.
  - destruct (set_saddr_spec f hdr s Hs Hh) as (h1 & E1 & L1 & R1 & F1).
    destruct (set_daddr_spec f h1 d Hd) as (h2 & E2 & L2 & R2 & F2); [by rewrite L1|].
    destruct (set_len_spec f h2 len Hlen) as (h3 & E3 & L3 & R3 & F3); [by rewrite L2, L1|].
    exists h1, h2, h3. rewrite E1, E2, E3, R3. rewrite <- R1, <- R2.
    unfold ipx_hdr_saddr, ipx_hdr_daddr, ipx_hdr_protocol, ipx_hdr_ttl, ipx_hdr_tos_tclass, ci_ip6_tclass.
    destruct f; cbn [IS_AF_INET6 saddr_field daddr_field len_field] in *; split_and!; try done;
      rewrite ?F3, ?F2, ?F1 by (unfold apart; simpl; lia); done.
  - destruct (set_flowinfo_spec hdr t l Ht Hl Hm) as (h' & E & _ & ? & ? & ? & _); [|by eauto].
    destruct f; unfold CI_IPX_HDR_SIZE, sizeof_ip4_hdr, sizeof_ip6_hdr in Hh; simpl in Hh; lia.
Qed.

Lemma ipx_hdr_roundtrip_witness :
  exists h1 h2 h3, ipx_hdr_set_saddr AF_INET6 (zeros 40) ip6_addr_loop = Some h1 /\
    ipx_hdr_set_daddr AF_INET6 h1 ip4_addr_any = Some h2 /\ ipx_hdr_set_payload_len AF_INET6 h2 100 = Some h3 /\
    ipx_hdr_saddr AF_INET6 h3 = Some ip6_addr_loop /\ ipx_hdr_tot_len AF_INET6 h3 = Some 140.
Proof.
  destruct (ipx_hdr_roundtrip AF_INET6 (zeros 40) ip6_addr_loop ip4_addr_any 100 7 0x00010000)
    as [(h1 & h2 & h3 & E1 & E2 & E3 & E4 & _ & E5 & _) _];
    [split; [|apply Z.ltb_lt]; by vm_compute|split; [|apply Z.ltb_lt]; by vm_compute|lia|lia|lia|by vm_compute|by vm_compute|].
  exists h1, h2, h3. split_and!; [exact E1|exact E2|exact E3|exact E4|exact E5].
Defined.

(** ** The text of an address *)

Lemma slen_app s t : slen (s ++ t) = slen s + slen t.
Proof.
  unfold slen. rewrite <- Nat2Z.inj_add. f_equal. induction s as [|c s IH]; [done|].
  change (S (String.length (s ++ t)) = S (String.length s + String.length t)). by rewrite IH.
Qed.

Lemma append_fits size s t : slen s + slen t < size -> append_to size (More s) t = More (s ++ t).
Proof. intros H. unfold append_to. rewrite slen_app. destruct (Z.leb_spec size (slen s + slen t)); [lia|done]. Qed.

Lemma hex_loop_len fuel k z acc : 0 <= z < 16 ^ Z.of_nat (S k) -> slen (hex_loop fuel z acc) <= Z.of_nat (S k) + slen acc.
Proof.
  revert k z acc. induction fuel as [|fuel IH]; intros k z acc Hz; cbn [hex_loop]; [lia|].
  assert (Hc : slen (String (hexdig (z mod 16)) acc) = 1 + slen acc) by (unfold slen; simpl; lia).
  destruct (Z.eqb_spec (z / 16) 0) as [_|Hne]; [lia|]. destruct k as [|k].
  - change (16 ^ Z.of_nat 1) with 16 in Hz. rewrite Z.div_small in Hne by lia. done.
  - specialize (IH k (z / 16) (String (hexdig (z mod 16)) acc)). rewrite Hc in IH.
    assert (0 <= z / 16 < 16 ^ Z.of_nat (S k)); [|specialize (IH H); lia].
    rewrite Nat2Z.inj_succ, Z.pow_succ_r in Hz by lia. split; [apply Z.div_pos; lia|apply Z.div_lt_upper_bound; lia].
Qed.

Lemma u16_of_range a i : 0 <= u16_of a i < 2 ^ 16.
Proof. apply getbits_range. lia. Qed.

Lemma u16_split z : 0 <= z < 2 ^ 16 -> exists b0 b1, 0 <= b0 < 256 /\ 0 <= b1 < 256 /\ z = b0 + 256 * b1.
Proof.
  intros Hz. exists (z mod 256), (z / 256). pose proof (Z.div_mod z 256). pose proof (Z.mod_pos_bound z 256).
  split; [lia|]. split; [split; [apply Z.div_pos; lia|apply Z.div_lt_upper_bound; lia]|lia].
Qed.

Lemma bswap16_range z : 0 <= z < 2 ^ 16 -> 0 <= CI_BSWAP_BE16 z < 2 ^ 16.
Proof.
  intros Hz. destruct (u16_split z Hz) as (b0 & b1 & H0 & H1 & ->). unfold CI_BSWAP_BE16, CI_BSWAP_16.
  rewrite wrap_small, ntohs_bytes by lia. lia.
Qed.

Lemma group_text_len a i : slen (conv_x (CI_BSWAP_BE16 (u16_of a i))) <= 4.
Proof.
  pose proof (bswap16_range _ (u16_of_range a i)). unfold conv_x. rewrite wrap_small by lia.
  apply (hex_loop_len 8 3 _ ""). done.
Qed.

(** The text so far is in the buffer, and has at most [k] characters. *)
Definition short (k : Z) (b : strbuf) : Prop := exists s, b = More s /\ slen s <= k.

Lemma short_append k n b t : short k b -> slen t <= n -> k + n < 48 -> short (k + n) (append_to 48 b t).
Proof. intros (s & -> & Hs) Ht Hk. rewrite append_fits by lia. exists (s ++ t). rewrite slen_app. split; [done|lia]. Qed.

Lemma short_char k b t : short k b -> slen t = 1 -> k + 1 < 48 -> short (k + 1) (append_to 48 b t).
Proof. intros Hb Ht Hk. apply short_append; [done|lia|done]. Qed.

Lemma short_weaken k n b : short k b -> k <= n -> short n b.
Proof. intros (s & -> & Hs) Hk. exists s. split; [done|lia]. Qed.

Lemma str_group_short a k b z y i : short k b -> k + 5 < 48 -> short (k + 5) (str_group 48 a (b, z, y) i).1.1.
Proof.
  intros Hb Hk. unfold str_group. pose proof (group_text_len a i).
  assert (H1 : short (k + 1) (if negb (i =? 0) && negb z then append_to 48 b ":" else b)).
  { destruct (_ && _); [apply short_char; [done|done|lia]|eapply short_weaken; [done|lia]]. }
  generalize dependent (if negb (i =? 0) && negb z then append_to 48 b ":" else b). intros b1 H1.
  destruct (_ && _); cbn [fst].
  - destruct z; [eapply short_weaken; [done|lia]|].
    eapply short_weaken; [apply (short_char (k + 1)); [done|done|lia]|lia].
  - eapply short_weaken; [apply (short_append (k + 1) 4); [done|done|lia]|lia].
Qed.

Lemma groups_short a gs k st : short k st.1.1 -> k + 5 * Z.of_nat (length gs) < 48 ->
  short (k + 5 * Z.of_nat (length gs)) (fold_left (str_group 48 a) gs st).1.1.
Proof.
  revert k st. induction gs as [|i gs IH]; intros k [[b z] y] Hb Hk; cbn [fold_left length] in *.
  - by rewrite Z.add_0_r.
  - eapply short_weaken; [apply (IH (k + 5)); [apply str_group_short; [done|lia]|lia]|lia].
Qed.

Lemma quad_short ip : slen (quad_text ip) <= 15.
Proof.
  assert (H : forallb (fun z => slen (digits 0 z) <=? 3) (seqZ 0 256) = true) by by vm_compute.
  assert (Hd : forall o, slen (digits 0 (getbits o 8 ip)) <= 3).
  { intros o. rewrite forallb_forall in H. apply Z.leb_le, H, list_elem_of_In, elem_of_seqZ.
    pose proof (getbits_range o 8 ip ltac:(lia)). lia. }
  unfold quad_text. rewrite !slen_app. pose proof (Hd 0). pose proof (Hd 8). pose proof (Hd 16). pose proof (Hd 24).
  change (slen ".") with 1. lia.
Qed.

Lemma ip_text_short a brackets : short 43 (ip_text 48 a brackets).
Proof.
  unfold ip_text. destruct (CI_IS_ADDR_IP6 a).
  - pose proof (groups_short a [0; 1; 2; 3; 4; 5; 6; 7] 1
      (if brackets then append_to 48 (More "") "[" else More "", false, false)) as Hg.
    destruct (fold_left _ _ _) as [[b z] y]. cbn [fst length] in Hg.
    assert (Hb : short 41 b).
    { apply Hg; [|lia]. destruct brackets; [by exists "["|exists ""; split; [done|unfold slen; simpl; lia]]. }
    assert (Hz : short 42 (if z then append_to 48 b ":" else b))
      by (destruct z; [apply (short_char 41); [done|done|lia]|eapply short_weaken; [done|lia]]).
    destruct brackets; [apply (short_char 42); [done|done|lia]|eapply short_weaken; [done|lia]].
  - pose proof (quad_short (ip4_of a)). rewrite append_fits by (unfold slen at 1; simpl; lia).
    exists (quad_text (ip4_of a)). split; [done|lia].
Qed.

(** The text of every address, of either family and with or without
    brackets, fits in a buffer of [CI_INET6_ADDRSTRLEN] bytes with its
    terminator: [ci_get_ip_str] neither truncates nor fails its assertions. *)
Lemma ip_str_fits a brackets : exists s,
  ci_get_ip_str a CI_INET6_ADDRSTRLEN brackets = Ok s /\ ip_text CI_INET6_ADDRSTRLEN a brackets = More s /\
  slen s <= 43.
Proof.
  unfold ci_get_ip_str, CI_INET6_ADDRSTRLEN. destruct (ip_text_short a brackets) as (s & E & Hs).
  rewrite E. by exists s.
Qed.

(** The buffer starts with [s], while it does. *)
Definition ext (s : string) (b : strbuf) : Prop := match b with More s' => exists r, s' = s ++ r | Full _ => True end.

Lemma string_app_assoc (s t u : string) : (s ++ t) ++ u = s ++ (t ++ u).
Proof. induction s as [|c s IH]; [done|]. change (String c ((s ++ t) ++ u) = String c (s ++ (t ++ u))). by rewrite IH. Qed.

Lemma string_app_nil (s : string) : s ++ "" = s.
Proof. induction s as [|c s IH]; [done|]. change (String c (s ++ "") = String c s). by rewrite IH. Qed.

Lemma ext_append s size b t : ext s b -> ext s (append_to size b t).
Proof.
  destruct b as [s'|s']; [|done]. intros [r ->]. unfold append_to. destruct (_ <=? _); [done|].
  exists (r ++ t). apply string_app_assoc.
Qed.

Lemma ext_groups s size a gs st : ext s st.1.1 -> ext s (fold_left (str_group size a) gs st).1.1.
Proof.
  revert st. induction gs as [|i gs IH]; intros [[b z] y] Hb; [done|]. cbn [fold_left]. apply IH. unfold str_group.
  assert (H1 : ext s (if negb (i =? 0) && negb z then append_to size b ":" else b))
    by (destruct (_ && _); [by apply ext_append|done]).
  generalize dependent (if negb (i =? 0) && negb z then append_to size b ":" else b). intros b1 H1.
  destruct (_ && _); cbn [fst]; [destruct z; [done|]|]; by apply ext_append.
Qed.

Lemma zero_groups size a gs b : Forall (fun i => u16_of a i = 0) gs ->
  fold_left (str_group size a) gs (b, true, true) = (b, true, true).
Proof.
  induction 1 as [|i gs Hi _ IH]; [done|]. cbn [fold_left].
  replace (str_group size a (b, true, true) i) with (b, true, true); [done|].
  unfold str_group. rewrite Hi, andb_false_r. done.
Qed.

Lemma hex_head fuel z acc : (0 < fuel)%nat -> exists d r, 0 <= d < 16 /\ hex_loop fuel z acc = String (hexdig d) r.
Proof.
  revert z acc. induction fuel as [|fuel IH]; intros z acc Hf; [lia|]. cbn [hex_loop].
  pose proof (Z.mod_pos_bound z 16 ltac:(lia)). destruct (_ =? 0); [by eauto|].
  destruct fuel as [|fuel]; [cbn [hex_loop]; by eauto|]. apply IH. lia.
Qed.

Lemma hexdig_colon d : 0 <= d < 16 -> hexdig d <> ":"%char.
Proof.
  intros Hd. assert (H : forallb (fun d => negb (Ascii.eqb (hexdig d) ":")) (seqZ 0 16) = true) by by vm_compute.
  rewrite forallb_forall in H. specialize (H d). rewrite <- list_elem_of_In, elem_of_seqZ in H.
  intros E. rewrite E in H. by specialize (H ltac:(lia)).
Qed.

(** The groups of an address whose first is zero: the zeros print as one colon. *)
Lemma leading_zero_text a pre g post : [0; 1; 2; 3; 4; 5; 6; 7] = 0 :: pre ++ g :: post ->
  Forall (fun i => u16_of a i = 0) (0 :: pre) -> u16_of a g <> 0 ->
  ext (":" ++ conv_x (CI_BSWAP_BE16 (u16_of a g)))
    (fold_left (str_group 48 a) [0; 1; 2; 3; 4; 5; 6; 7] (More "", false, false)).1.1.
Proof.
  intros E [H0 Hpre]%Forall_cons Hg. rewrite E. cbn [fold_left].
  assert (E0 : str_group 48 a (More "", false, false) 0 = (More ":", true, true)) by (unfold str_group; by rewrite H0).
  rewrite E0, fold_left_app, zero_groups by done. cbn [fold_left].
  apply ext_groups. unfold str_group. rewrite (proj2 (Z.eqb_neq _ _) Hg). rewrite andb_false_r. cbn [andb fst].
  pose proof (group_text_len a g). rewrite append_fits by (change (slen ":") with 1; lia).
  exists "". by rewrite string_app_nil.
Qed.

(** An IPv6 address whose first group is zero prints its leading zeros as a
    single colon, not as two: the text is [:] followed by the first group that
    is not zero, so the loopback address [::1] prints as [:1], which is not the
    text of an address. *)
Lemma ip_str_leading_zero a pre g post : CI_IS_ADDR_IP6 a = true ->
  [0; 1; 2; 3; 4; 5; 6; 7] = 0 :: pre ++ g :: post -> Forall (fun i => u16_of a i = 0) (0 :: pre) -> u16_of a g <> 0 ->
  exists c rest, ci_get_ip_str a CI_INET6_ADDRSTRLEN false = Ok (String ":" (String c rest)) /\ c <> ":"%char.
Proof.
  intros H6 E Hz Hg. pose proof (leading_zero_text a pre g post E Hz Hg) as Hx.
  destruct (ip_text_short a false) as (s & Es & _). unfold ci_get_ip_str, CI_INET6_ADDRSTRLEN. rewrite Es.
  unfold ip_text in Es. rewrite H6 in Es. destruct (fold_left _ _ _) as [[b z] y]. cbn [fst] in Hx.
  assert (Hx' : ext (":" ++ conv_x (CI_BSWAP_BE16 (u16_of a g))) (if z then append_to 48 b ":" else b))
    by (destruct z; [by apply ext_append|done]).
  rewrite Es in Hx'. destruct Hx' as [r ->].
  destruct (hex_head 8 (u32 (CI_BSWAP_BE16 (u16_of a g))) "") as (d & r' & Hd & Eh); [lia|].
  exists (hexdig d), (r' ++ r). split; [|by apply hexdig_colon]. unfold conv_x. rewrite Eh. done.
Qed.

Lemma ip_str_leading_zero_witness :
  exists c rest, ci_get_ip_str ip6_addr_loop CI_INET6_ADDRSTRLEN false = Ok (String ":" (String c rest)) /\ c <> ":"%char.
Proof.
  exact (ip_str_leading_zero ip6_addr_loop [1; 2; 3; 4; 5; 6] 7 [] eq_refl eq_refl
    ltac:(repeat constructor) ltac:(by vm_compute)).
Defined.

(** ** Prefixes and masks *)

Lemma top_bit x : Z.land x 0x80000000 =? 0 = negb (Z.testbit x 31).
Proof. change 0x80000000 with (2 ^ 31). rewrite land_pow2 by lia. by destruct (Z.testbit x 31). Qed.

Lemma shifted_bit m k : 0 <= k <= 31 -> Z.testbit (u32 (Z.shiftl m k)) 31 = Z.testbit m (31 - k).
Proof. intros Hk. unfold wrap. rewrite Z.mod_pow2_bits_low by lia. by rewrite Z.shiftl_spec by lia. Qed.

Lemma shift_again m k : 0 <= k -> u32 (Z.shiftl (u32 (Z.shiftl m k)) 1) = u32 (Z.shiftl m (k + 1)).
Proof.
  intros Hk. rewrite !Z.shiftl_mul_pow2 by lia. unfold wrap. rewrite Zmult_mod_idemp_l. f_equal.
  rewrite Z.pow_add_r by lia. lia.
Qed.

Lemma mask2prefix_run fuel m k : 0 <= k <= 32 -> 32 - k < Z.of_nat fuel ->
  exists p, mask2prefix_loop fuel (u32 (Z.shiftl m k)) k = Some p /\ k <= p <= 32 /\
    (forall i, 32 - p <= i < 32 - k -> Z.testbit m i = true) /\ (p < 32 -> Z.testbit m (31 - p) = false).
Proof.
  revert k. induction fuel as [|fuel IH]; intros k Hk Hf; [lia|]. cbn [mask2prefix_loop]. rewrite top_bit.
  destruct (decide (k = 32)) as [->|Hne].
  { assert (E : Z.testbit (u32 (Z.shiftl m 32)) 31 = false).
    { unfold wrap. rewrite Z.mod_pow2_bits_low by lia. by rewrite Z.shiftl_spec_low by lia. }
    rewrite E. exists 32. split; [done|]. split; [lia|]. split; [lia|lia]. }
  rewrite shifted_bit by lia. destruct (Z.testbit m (31 - k)) eqn:Eb; cbn [negb].
  - rewrite shift_again, (wrap_small 32 (k + 1)) by lia. destruct (IH (k + 1)) as (p & E & Hp & H1 & H2); [lia|lia|].
    exists p. split; [done|]. split; [lia|]. split; [|done]. intros i Hi.
    destruct (decide (i = 31 - k)) as [->|]; [done|apply H1; lia].
  - exists k. split; [done|]. split; [lia|]. split; [lia|done].
Qed.

(** Converting a mask to a prefix terminates on every 32-bit mask with the
    number of its leading ones, and undoes the conversion of every prefix of 0
    to 32 bits to a mask. *)
Lemma mask2prefix_counts m p : 0 <= m < 2 ^ 32 -> 0 <= p <= 32 ->
  (exists q, ci_ip_mask2prefix m = Some q /\ 0 <= q <= 32 /\
     (forall i, 32 - q <= i < 32 -> Z.testbit m i = true) /\ (q < 32 -> Z.testbit m (31 - q) = false)) /\
  (ci_ip_prefix2mask p ≫= ci_ip_mask2prefix) = Some p.
Proof.
  intros Hm Hp. split.
  - destruct (mask2prefix_run 33 m 0) as (q & E & Hq & H1 & H2); [lia|lia|].
    rewrite Z.shiftl_0_r, wrap_small in E by done. exists q. split; [exact E|]. split; [lia|]. split; [|done].
    intros i Hi. apply H1. lia.
  - assert (H : forallb (fun p => bool_decide (ci_ip_prefix2mask p ≫= ci_ip_mask2prefix = Some p)) (seqZ 0 33) = true)
      by by vm_compute.
    rewrite forallb_forall in H. specialize (H p). rewrite <- list_elem_of_In, elem_of_seqZ in H.
    apply bool_decide_eq_true in H; [done|lia].
Qed.

Lemma mask2prefix_counts_witness : (exists q, ci_ip_mask2prefix 0xff00ff00 = Some q) /\
  (ci_ip_prefix2mask 24 ≫= ci_ip_mask2prefix) = Some 24.
Proof.
  destruct (mask2prefix_counts 0xff00ff00 24 ltac:(lia) ltac:(lia)) as [(q & E & _) H].
  split; [exists q; exact E|exact H].
Defined.

(** ** Fragments *)

Lemma land_lor_zero v m n : Z.land v (Z.lor m n) = 0 <-> Z.land v m = 0 /\ Z.land v n = 0.
Proof. by rewrite Z.land_lor_distr_r, Z.lor_eq_0_iff. Qed.

(** On an IPv4 header [ci_ipx_is_frag] also holds when only the reserved bit is
    set, where [CI_IP4_IS_UNFRAG] calls the packet whole. *)
Lemma is_frag_reserved hdr v : rd ip_frag_off_be16 hdr = Some v ->
  ci_ipx_is_frag AF_INET hdr = Some true <->
  CI_IP4_IS_UNFRAG hdr = Some false \/ Z.land v (CI_BSWAP_16 0x8000) <> 0.
Proof.
  intros E. unfold ci_ipx_is_frag, CI_IP4_IS_UNFRAG. cbn [IS_AF_INET6]. rewrite E. cbn [mbind option_bind].
  pose proof (load_le_range _ _ _ _ E) as Hv. change (8 * Z.of_nat (f_len ip_frag_off_be16)) with 16 in Hv.
  assert (Hw : Z.land v (Z.lnot CI_IP4_FRAG_DONT) =
    Z.land v (Z.lor (Z.lor CI_IP4_FRAG_MORE CI_IP4_OFFSET_MASK) (CI_BSWAP_16 0x8000))).
  { rewrite <- (Z.mod_small v (2 ^ 16)) by lia. rewrite <- Z.land_ones by lia. rewrite <- !Z.land_assoc. done. }
  rewrite Hw. pose proof (land_lor_zero v (Z.lor CI_IP4_FRAG_MORE CI_IP4_OFFSET_MASK) (CI_BSWAP_16 0x8000)) as Hz.
  destruct (Z.eqb_spec (Z.land v (Z.lor (Z.lor CI_IP4_FRAG_MORE CI_IP4_OFFSET_MASK) (CI_BSWAP_16 0x8000))) 0);
    destruct (Z.eqb_spec (Z.land v (Z.lor CI_IP4_FRAG_MORE CI_IP4_OFFSET_MASK)) 0); cbn [negb];
    (split; [intros|intros [|]]); try done; try tauto; simplify_eq.
Qed.
