(* ===== verification/Hash.v ===== *)
(** * Hash: the hashes of the filter tables ([onload/hash.h])

    The header states, and argues in comments, that the local port can be
    recovered from a hash and the rest of the tuple.  The hashes are
    modelled on 32-bit numbers, and those statements are proved. *)

From Stdlib Require Import ZArith Lia Bool Btauto Znumtheory Zpow_facts.
From S2P Require Import Prelude Bytes BitField IpAddr.

Definition onload_addr_xor (addr : ci_addr_t) : Z :=
  fold_left (fun acc i => Z.lxor acc (u32_of addr i)) [0; 1; 2; 3] 0.

Definition mix (h : Z) : Z :=
  let h := Z.lxor h (Z.shiftr h 16) in
  Z.lxor h (Z.shiftr h 8).

(** The value of [h] before it is mixed. *)
Definition hash3_init (laddr lport raddr rport protocol : Z) : Z :=
  Z.lxor (Z.lxor (Z.lxor (CI_BSWAP_BE32 raddr) (CI_BSWAP_LE32 laddr)) (Z.lor (u32 (Z.shiftl rport 16)) lport)) protocol.
Definition onload_hash3_ (laddr lport raddr rport protocol : Z) : Z := mix (hash3_init laddr lport raddr rport protocol).
Definition onload_hash3 (laddr : ci_addr_t) (lport : Z) (raddr : ci_addr_t) (rport protocol : Z) : Z :=
  onload_hash3_ (onload_addr_xor laddr) lport (onload_addr_xor raddr) rport protocol.

Definition CI_IS_POW2 (x : Z) : bool := negb (x =? 0) && (Z.land x (x - 1) =? 0).

(** The assertion on the mask fails as [None]. *)
Definition onload_hash1_ (size_mask laddr lport raddr rport protocol : Z) : option Z :=
  if CI_IS_POW2 (u32 (size_mask + 1)) then Some (Z.land (onload_hash3_ laddr lport raddr rport protocol) size_mask)
  else None.
Definition onload_hash1 (size_mask : Z) (laddr : ci_addr_t) (lport : Z) (raddr : ci_addr_t) (rport protocol : Z) : option Z :=
  onload_hash1_ size_mask (onload_addr_xor laddr) lport (onload_addr_xor raddr) rport protocol.

Definition onload_hash2_ (laddr lport raddr rport protocol : Z) : Z :=
  Z.lor (Z.lxor (Z.lxor (CI_BSWAP_LE32 (Z.lxor laddr raddr)) (Z.lor (u32 (Z.shiftl lport 16)) rport)) protocol) 1.
Definition onload_hash2 (laddr : ci_addr_t) (lport : Z) (raddr : ci_addr_t) (rport protocol : Z) : Z :=
  onload_hash2_ (onload_addr_xor laddr) lport (onload_addr_xor raddr) rport protocol.

Definition cplane_hash2 (laddr : ci_addr_t) (ifindex : Z) (raddr : ci_addr_t) (tos iif_ifindex : Z) : Z :=
  let laddr_xor := onload_addr_xor laddr in
  let raddr_xor := onload_addr_xor raddr in
  let h := Z.lxor (Z.lxor (CI_BSWAP_LE32 raddr_xor) (CI_BSWAP_BE32 (u32 (laddr_xor + raddr_xor))))
             (Z.lor (u32 (Z.shiftl ifindex 16)) (u32 (iif_ifindex + tos))) in
  Z.lor (mix h) 1.

(** ** The mixing step *)

(** Lemma 2 of the header: shifted right by 8 and combined with itself, the
    mixed value gives the value before. *)
Definition unmix (h : Z) : Z := Z.lxor h (Z.shiftr h 8).

Lemma shiftr_high x n : 0 <= x < 2 ^ 32 -> 32 <= n -> Z.shiftr x n = 0.
Proof.
  intros Hx Hn. rewrite Z.shiftr_div_pow2 by lia. apply Z.div_small. split; [lia|].
  assert (2 ^ 32 <= 2 ^ n) by (apply Z.pow_le_mono_r; lia). lia.
Qed.

Lemma mix_terms h : mix h = Z.lxor (Z.lxor h (Z.shiftr h 8)) (Z.lxor (Z.shiftr h 16) (Z.shiftr h 24)).
Proof.
  unfold mix. rewrite Z.shiftr_lxor, Z.shiftr_shiftr by lia. apply Z.bits_inj'. intros i Hi.
  rewrite !Z.lxor_spec. change (16 + 8) with 24. btauto.
Qed.

Lemma unmix_mix h : 0 <= h < 2 ^ 32 -> unmix (mix h) = h.
Proof.
  intros Hh. unfold unmix. rewrite mix_terms, !Z.shiftr_lxor, !Z.shiftr_shiftr by lia.
  change (8 + 8) with 16. change (16 + 8) with 24. change (24 + 8) with 32.
  rewrite (shiftr_high h 32) by lia. apply Z.bits_inj'. intros i Hi. rewrite !Z.lxor_spec, Z.bits_0. btauto.
Qed.

(** ** Ranges *)

Definition port_ok (p : Z) : Prop := 0 <= p < 2 ^ 16.
Definition word_ok (x : Z) : Prop := 0 <= x < 2 ^ 32.

Lemma word_bits x : 0 <= x -> word_ok x <-> forall i, 32 <= i -> Z.testbit x i = false.
Proof.
  intros Hx. split.
  - intros [_ H] i Hi. by apply (testbit_small x 32).
  - intros H. split; [done|]. replace x with (Z.land x (Z.ones 32)).
    + rewrite Z.land_ones by lia. apply Z.mod_pos_bound. lia.
    + apply Z.bits_inj'. intros i Hi. rewrite Z.land_spec. destruct (Z.ltb_spec i 32).
      * rewrite Z.ones_spec_low by lia. apply andb_true_r.
      * rewrite Z.ones_spec_high, andb_false_r by lia. symmetry. by apply H.
Qed.

Lemma word_lxor x y : word_ok x -> word_ok y -> word_ok (Z.lxor x y).
Proof.
  intros Hx Hy. assert (0 <= Z.lxor x y) by (apply Z.lxor_nonneg; destruct Hx, Hy; tauto).
  apply word_bits; [done|]. intros i Hi. rewrite Z.lxor_spec.
  rewrite (proj1 (word_bits x (proj1 Hx)) Hx), (proj1 (word_bits y (proj1 Hy)) Hy) by done. done.
Qed.

Lemma word_lor x y : word_ok x -> word_ok y -> word_ok (Z.lor x y).
Proof.
  intros Hx Hy. assert (0 <= Z.lor x y) by (apply Z.lor_nonneg; destruct Hx, Hy; tauto).
  apply word_bits; [done|]. intros i Hi. rewrite Z.lor_spec.
  rewrite (proj1 (word_bits x (proj1 Hx)) Hx), (proj1 (word_bits y (proj1 Hy)) Hy) by done. done.
Qed.

Lemma word_shiftr x n : word_ok x -> 0 <= n -> word_ok (Z.shiftr x n).
Proof.
  intros Hx Hn. assert (0 <= Z.shiftr x n) by (apply Z.shiftr_nonneg, Hx).
  apply word_bits; [done|]. intros i Hi. rewrite Z.shiftr_spec by lia.
  apply (proj1 (word_bits x (proj1 Hx)) Hx). lia.
Qed.

Lemma word_u32 x : word_ok (u32 x).
Proof. apply wrap_range. lia. Qed.

Lemma word_byte x n : word_ok (Z.shiftl (Z.land x 255) n) \/ n > 24 \/ n < 0.
Proof.
  destruct (Z_le_gt_dec n 24); [|auto]. destruct (Z_lt_le_dec n 0); [auto|]. left.
  rewrite land_255, Z.shiftl_mul_pow2 by lia. pose proof (Z.mod_pos_bound x 256 ltac:(lia)).
  assert (2 ^ n <= 2 ^ 24) by (apply Z.pow_le_mono_r; lia). assert (0 < 2 ^ n) by lia. unfold word_ok. nia.
Qed.

Lemma word_bswap x : word_ok (CI_BSWAP_BE32 x).
Proof.
  unfold CI_BSWAP_BE32, CI_BSWAP_32, ntohl. pose proof (word_u32 x) as Hx.
  repeat apply word_lor; try (apply word_shiftr; [done|lia]);
    match goal with |- word_ok (Z.shiftl (Z.land ?a 255) ?n) => destruct (word_byte a n) as [|[]]; [done|lia|lia] end.
Qed.

Create HintDb word.
#[export] Hint Resolve word_lxor word_lor word_u32 word_bswap word_shiftr : word.

Lemma port_word p : port_ok p -> word_ok p.
Proof. unfold port_ok, word_ok. lia. Qed.

Lemma word_mix h : word_ok h -> word_ok (mix h).
Proof. intros H. unfold mix. auto using word_lxor, word_shiftr with lia. Qed.

(** ** Recovering the local port *)

Lemma mix_lxor a b : mix (Z.lxor a b) = Z.lxor (mix a) (mix b).
Proof. rewrite !mix_terms, !Z.shiftr_lxor. apply Z.bits_inj'. intros i Hi. rewrite !Z.lxor_spec. btauto. Qed.

(** The ports lie in different halves of the word. *)
Lemma ports_lxor rport lport : port_ok lport -> Z.lor (u32 (Z.shiftl rport 16)) lport = Z.lxor (u32 (Z.shiftl rport 16)) lport.
Proof.
  intros Hl. assert (E : u32 (Z.shiftl rport 16) = Z.shiftl (rport mod 2 ^ 16) 16).
  { rewrite !Z.shiftl_mul_pow2 by lia. unfold wrap. change (2 ^ 32) with (2 ^ 16 * 2 ^ 16).
    rewrite Z.mul_mod_distr_r by lia. done. }
  rewrite E. symmetry. apply Z.lxor_lor. apply land_shiftl_low; [lia|done].
Qed.

Lemma hash3_difference laddr l1 l2 raddr rport protocol : port_ok l1 -> port_ok l2 ->
  Z.lxor (onload_hash3_ laddr l1 raddr rport protocol) (onload_hash3_ laddr l2 raddr rport protocol) = mix (Z.lxor l1 l2).
Proof.
  intros H1 H2. unfold onload_hash3_. rewrite <- mix_lxor. f_equal. unfold hash3_init. rewrite !ports_lxor by done.
  apply Z.bits_inj'. intros i Hi. rewrite !Z.lxor_spec. btauto.
Qed.

Lemma port_lxor a b : port_ok a -> port_ok b -> port_ok (Z.lxor a b).
Proof.
  intros Ha Hb. assert (0 <= Z.lxor a b) by (apply Z.lxor_nonneg; destruct Ha, Hb; tauto). split; [done|].
  replace (Z.lxor a b) with (Z.land (Z.lxor a b) (Z.ones 16)).
  - rewrite Z.land_ones by lia. apply Z.mod_pos_bound. lia.
  - apply Z.bits_inj'. intros i Hi. rewrite Z.land_spec, Z.lxor_spec. destruct (Z.ltb_spec i 16).
    + rewrite Z.ones_spec_low by lia. apply andb_true_r.
    + rewrite (testbit_small a 16), (testbit_small b 16) by (done || lia). done.
Qed.

Lemma port_shiftr p n : port_ok p -> 0 <= n -> port_ok (Z.shiftr p n).
Proof.
  intros [H0 H1] Hn. rewrite Z.shiftr_div_pow2 by lia. assert (0 < 2 ^ n) by lia. split; [apply Z.div_pos; lia|].
  apply Z.le_lt_trans with p; [apply Z.div_le_upper_bound; nia|done].
Qed.

(** Mixing keeps a 16-bit value within 16 bits. *)
Lemma mix_port x : port_ok x -> port_ok (mix x).
Proof. intros H. unfold mix. auto using port_lxor, port_shiftr with lia. Qed.

Lemma mix_zero x : port_ok x -> mix x = 0 -> x = 0.
Proof. intros Hx E. rewrite <- (unmix_mix x) by (by apply port_word). by rewrite E. Qed.

Lemma mask_pow2 n : 0 <= n < 32 -> CI_IS_POW2 (u32 (Z.ones n + 1)) = true.
Proof.
  intros Hn. rewrite Z.ones_equiv. replace (Z.pred (2 ^ n) + 1) with (2 ^ n) by lia.
  assert (0 < 2 ^ n < 2 ^ 32) by (split; [lia|apply Z.pow_lt_mono_r; lia]).
  rewrite wrap_small by lia. unfold CI_IS_POW2. rewrite (proj2 (Z.eqb_neq _ _)) by lia. cbn [negb andb].
  apply Z.eqb_eq. replace (2 ^ n - 1) with (Z.ones n) by (rewrite Z.ones_equiv; lia).
  rewrite Z.land_ones by lia. apply Z_mod_same_full.
Qed.

(** The local port recovery property that the header claims.  With
    the other parts of the tuple fixed, [__onload_hash3] has the same upper 16
    bits for every local port and separates any two local ports, and so does
    [__onload_hash1] for every table of at least 2^16 entries; the mixing step is
    undone by one more shift and exclusive or. *)
Lemma hash_recovers_port laddr l1 l2 raddr rport protocol n h :
  port_ok l1 -> port_ok l2 -> 16 <= n < 32 -> word_ok h ->
  unmix (mix h) = h /\
  Z.shiftr (onload_hash3_ laddr l1 raddr rport protocol) 16 = Z.shiftr (onload_hash3_ laddr l2 raddr rport protocol) 16 /\
  (onload_hash3_ laddr l1 raddr rport protocol = onload_hash3_ laddr l2 raddr rport protocol <-> l1 = l2) /\
  is_Some (onload_hash1_ (Z.ones n) laddr l1 raddr rport protocol) /\
  (onload_hash1_ (Z.ones n) laddr l1 raddr rport protocol = onload_hash1_ (Z.ones n) laddr l2 raddr rport protocol <-> l1 = l2).
Proof.
  intros H1 H2 Hn Hh. pose proof (hash3_difference laddr l1 l2 raddr rport protocol H1 H2) as Hd.
  pose proof (port_lxor l1 l2 H1 H2) as Hx. pose proof (mix_port _ Hx) as Hm.
  split; [by apply unmix_mix|]. split; [|split; [|split]].
  - apply Z.lxor_eq_0_iff. rewrite <- Z.shiftr_lxor, Hd, Z.shiftr_div_pow2 by lia. by apply Z.div_small.
  - split; [|by intros ->]. intros E. rewrite E, Z.lxor_nilpotent in Hd.
    apply Z.lxor_eq_0_iff, mix_zero; [done|congruence].
  - unfold onload_hash1_. rewrite mask_pow2 by lia. by eexists.
  - split; [|by intros ->]. unfold onload_hash1_. rewrite mask_pow2 by lia. intros [= E].
    apply Z.lxor_eq_0_iff, mix_zero; [done|]. rewrite <- Hd.
    assert (E' : Z.land (mix (Z.lxor l1 l2)) (Z.ones n) = 0).
    { rewrite <- Hd. apply Z.lxor_eq_0_iff in E. rewrite <- E. apply Z.bits_inj'. intros i Hi.
      rewrite ?Z.land_spec, ?Z.lxor_spec, ?Z.land_spec. btauto. }
    assert (2 ^ 16 <= 2 ^ n) by (apply Z.pow_le_mono_r; lia). unfold port_ok in Hm.
    rewrite Z.land_ones, Z.mod_small in E' by lia.
    congruence.
Qed.

Lemma hash_recovers_port_witness :
  onload_hash1_ (Z.ones 16) 0x0100007f 80 0x0200007f 4000 6 <> onload_hash1_ (Z.ones 16) 0x0100007f 81 0x0200007f 4000 6.
Proof.
  intros E. apply (hash_recovers_port 0x0100007f 80 81 0x0200007f 4000 6 16 0) in E; [done|unfold port_ok, word_ok; lia..].
Defined.

(** ** Probing *)

(** The [i]-th place of double hashing in a table of [mask + 1] entries. *)
Definition probe (mask h1 h2 i : Z) : Z := Z.land (u32 (h1 + i * h2)) mask.

Lemma lor_1_odd x : Z.odd (Z.lor x 1) = true.
Proof. rewrite <- Z.bit0_odd, Z.lor_spec. apply orb_true_r. Qed.

Lemma hash2_odd laddr lport raddr rport protocol : Z.odd (onload_hash2 laddr lport raddr rport protocol) = true.
Proof. apply lor_1_odd. Qed.

Lemma cplane_hash2_odd laddr ifindex raddr tos iif : Z.odd (cplane_hash2 laddr ifindex raddr tos iif) = true.
Proof. apply lor_1_odd. Qed.

Lemma odd_inverse h n : Z.odd h = true -> 0 <= n -> exists u, (u * h) mod 2 ^ n = 1 mod 2 ^ n.
Proof.
  intros Ho Hn. assert (Hr : rel_prime h (2 ^ n)).
  { apply rel_prime_Zpower_r; [done|]. apply rel_prime_sym, prime_rel_prime; [apply prime_2|].
    intros Hd. apply Zodd_bool_iff in Ho. apply Z.mod_divide in Hd; [|lia]. apply Zodd_ex in Ho as [k ->].
    rewrite Z.add_comm, Z.mul_comm, Z_mod_plus_full in Hd. done. }
  destruct (rel_prime_bezout _ _ Hr) as [u v E]. exists u.
  rewrite <- E. symmetry. apply Z_mod_plus_full.
Qed.

Lemma mask_u32 n x : 0 <= n <= 32 -> Z.land (u32 x) (Z.ones n) = x mod 2 ^ n.
Proof.
  intros Hn. rewrite Z.land_ones by lia. unfold wrap. apply Z.mod_mod_divide.
  exists (2 ^ (32 - n)). rewrite <- Z.pow_add_r by lia. f_equal. lia.
Qed.

Lemma probe_mod n h1 h2 i : 0 <= n <= 32 -> probe (Z.ones n) h1 h2 i = (h1 + i * h2) mod 2 ^ n.
Proof. apply mask_u32. Qed.

Lemma probe_reaches n h1 h2 s : 0 <= n <= 32 -> Z.odd h2 = true -> 0 <= s < 2 ^ n ->
  exists i, 0 <= i < 2 ^ n /\ probe (Z.ones n) h1 h2 i = s.
Proof.
  intros Hn Ho Hs. destruct (odd_inverse h2 n Ho ltac:(lia)) as [u Hu].
  exists (((s - h1) * u) mod 2 ^ n). split; [apply Z.mod_pos_bound; lia|]. rewrite probe_mod by done.
  rewrite <- Zplus_mod_idemp_r, Zmult_mod_idemp_l, <- Z.mul_assoc, <- Zmult_mod_idemp_r, Hu, Zmult_mod_idemp_r.
  rewrite Zplus_mod_idemp_r. replace (h1 + (s - h1) * 1) with s by lia. by apply Z.mod_small.
Qed.

(** C15: both second hashes are odd, so double hashing in a table of 2^n entries
    reaches every entry within 2^n probes, whatever the first hash: an
    insertion into a table with a free entry finds one. *)
Theorem double_hash_reaches_every_entry n h1 s laddr lport raddr rport protocol ifindex tos iif :
  0 <= n <= 32 -> 0 <= s < 2 ^ n ->
  (exists i, 0 <= i < 2 ^ n /\ probe (Z.ones n) h1 (onload_hash2 laddr lport raddr rport protocol) i = s) /\
  (exists i, 0 <= i < 2 ^ n /\ probe (Z.ones n) h1 (cplane_hash2 laddr ifindex raddr tos iif) i = s).
Proof.
  intros Hn Hs. split; apply probe_reaches; auto using hash2_odd, cplane_hash2_odd.
Qed.

Lemma double_hash_reaches_every_entry_witness :
  exists i, 0 <= i < 2 ^ 4 /\ probe (Z.ones 4) 7 (onload_hash2 (CI_ADDR_FROM_IP4 0x0100007f) 80 (CI_ADDR_FROM_IP4 0x0200007f) 4000 6) i = 3.
Proof.
  exact (proj1 (double_hash_reaches_every_entry 4 7 3 (CI_ADDR_FROM_IP4 0x0100007f) 80 (CI_ADDR_FROM_IP4 0x0200007f) 4000 6 0 0 0
    ltac:(lia) ltac:(lia))).
Defined.
