(* ===== verification/IpCsum.v ===== *)
(** * IpCsum: the Internet checksum ([ci/tools/ipcsum.h])

    A pointer into the data is the bytes from it on; the copying routines carry
    the destination and the offset they write at; [None] is an access outside the
    objects or a failed assertion.  A length of type [size_t] is a [nat], one of type
    [int] a number cut to its 32 bits.  The sums are compared, modulo 65535, with the
    sum of the 16-bit words that the checksum is defined by. *)

From Stdlib Require Import ZArith Lia Strings.Byte Setoid Morphisms.
From S2P Require Import Prelude Bytes IpAddr Hash.

(** [addl; adcl $0]: the carry of the addition is added to the sum. *)
Definition ci_add_carry32 (sum v : Z) : Z := u32 (u32 (sum + v) + (sum + v) / 2 ^ 32).

Definition ci_ip_csum_fold (sum : Z) : Z := u32 (Z.shiftr sum 16 + Z.land sum 0xffff).

Definition ci_udp_csum_finish (sum : Z) : Z :=
  let sum := u32 (Z.shiftr sum 16 + Z.land sum 0xffff) in
  let sum := u32 (sum + Z.shiftr sum 16) in
  let sum := Z.land (Z.lnot sum) 0xffff in
  if sum =? 0 then 0xffff else sum.

(** The loop over 32-bit words: [k] of them from [s4] on. *)
Fixpoint sum_words (k : nat) (s4 : list byte) (csum : Z) : option (list byte * Z) :=
  match k with
  | O => Some (s4, csum)
  | S k' => v ← load32 0 s4; sum_words k' (drop 4 s4) (ci_add_carry32 csum v)
  end.

Definition ci_ip_csum_aligned_c (data : list byte) (n : nat) (csum : Z) : option Z :=
  '(s4, csum) ← sum_words (n / 4) data csum;
  let n := (n mod 4)%nat in
  if (n =? 0)%nat then Some csum
  else
    csum ← (if (2 <=? n)%nat then v ← load16 0 s4; Some (ci_add_carry32 csum v) else Some csum);
    if (n =? 1)%nat || (n =? 3)%nat then
      let s := if (n =? 3)%nat then drop 2 s4 else s4 in
      v ← load8 0 s;
      Some (ci_add_carry32 csum v)
    else Some csum.

(** The copying loop: the destination, the offset in it, and the sum. *)
Fixpoint copy_words (k : nat) (dest : list byte) (d : nat) (s4 : list byte) (sum : Z) :
    option (list byte * nat * list byte * Z) :=
  match k with
  | O => Some (dest, d, s4, sum)
  | S k' =>
      v ← load32 0 s4;
      dest ← store d (le_encode 4 v) dest;
      copy_words k' dest (d + 4) (drop 4 s4) (ci_add_carry32 sum v)
  end.

(** [len] is the argument [int n]; the pointers are not null. *)
Definition ci_ip_csum_copy_aligned_c (dest : list byte) (d : nat) (src : list byte) (len sum : Z) :
    option (list byte * Z) :=
  if len <? 0 then None else
  let n := Z.to_nat len in
  '(dest, d4, s4, sum) ← copy_words (n / 4) dest d src sum;
  let n := (n mod 4)%nat in
  if (n =? 0)%nat then Some (dest, sum)
  else
    '(dest, sum) ← (if (2 <=? n)%nat then
        v ← load16 0 s4; dest ← store d4 (le_encode 2 v) dest; Some (dest, ci_add_carry32 sum v)
      else Some (dest, sum));
    if (n =? 1)%nat || (n =? 3)%nat then
      let s := if (n =? 3)%nat then drop 2 s4 else s4 in
      let d := (if n =? 3 then d4 + 2 else d4)%nat in
      w ← load8 0 s;
      dest ← store d (le_encode 1 w) dest;
      Some (dest, ci_add_carry32 sum w)
    else Some (dest, sum).

Definition ci_ip_csum_c (data : list byte) (n : nat) (start_not_aligned : bool) (csum : Z) : option Z :=
  if start_not_aligned && negb (n =? 0)%nat then
    v ← load8 0 data;
    ci_ip_csum_aligned_c (drop 1 data) (n - 1) (ci_add_carry32 csum (CI_BSWAP_BE16 v))
  else ci_ip_csum_aligned_c data n csum.

(** The [size_t] is converted to the [int] of the routine called. *)
Definition ci_ip_csum_copy_c (dst : list byte) (d : nat) (src : list byte) (n : nat) (start_not_aligned : bool) (csum : Z) :
    option (list byte * Z) :=
  if start_not_aligned && negb (n =? 0)%nat then
    v ← load8 0 src;
    dst ← store d (le_encode 1 v) dst;
    ci_ip_csum_copy_aligned_c dst (d + 1) (drop 1 src) (i32 (Z.of_nat (n - 1))) (ci_add_carry32 csum (CI_BSWAP_BE16 v))
  else ci_ip_csum_copy_aligned_c dst d src (i32 (Z.of_nat n)) csum.

(** ** The sum of the 16-bit words *)

(** A byte at an odd place is the upper byte of its word; a word cut at either
    end is filled with zero. *)
Fixpoint wsum (odd : bool) (bs : list byte) : Z :=
  match bs with
  | [] => 0
  | b :: bs' => (if odd then 256 * b2z b else b2z b) + wsum (negb odd) bs'
  end.

Definition flips (n : nat) (odd : bool) : bool := if Nat.even n then odd else negb odd.

Lemma wsum_app odd a b : wsum odd (a ++ b) = wsum odd a + wsum (flips (length a) odd) b.
Proof.
  revert odd. induction a as [|x a IH]; intros odd; [done|].
  cbn [app wsum length]. rewrite IH. unfold flips. rewrite Nat.even_succ, <- Nat.negb_even.
  destruct (Nat.even (length a)), odd; cbn [negb]; lia.
Qed.

(** ** Arithmetic modulo 65535 *)

Definition ones_eq (a b : Z) : Prop := a mod 65535 = b mod 65535.
Infix "≡₁" := ones_eq (at level 70) : c_scope.

#[export] Instance ones_eq_equiv : Equivalence ones_eq.
Proof. unfold ones_eq. split; [done|by intros ??|intros ???; congruence]. Qed.

#[export] Instance ones_eq_add : Proper (ones_eq ==> ones_eq ==> ones_eq) Z.add.
Proof. unfold ones_eq. intros a a' Ha b b' Hb. by rewrite Zplus_mod, Ha, Hb, <- Zplus_mod. Qed.

#[export] Instance ones_eq_mul : Proper (ones_eq ==> ones_eq ==> ones_eq) Z.mul.
Proof. unfold ones_eq. intros a a' Ha b b' Hb. by rewrite Zmult_mod, Ha, Hb, <- Zmult_mod. Qed.

(** The carry out of the top of a 32-bit word counts as one. *)
Lemma add_carry_cases s v : word_ok s -> word_ok v ->
  ci_add_carry32 s v = s + v /\ s + v < 2 ^ 32 \/ ci_add_carry32 s v = s + v - 2 ^ 32 + 1 /\ 2 ^ 32 <= s + v.
Proof.
  intros Hs Hv. unfold word_ok in *. unfold ci_add_carry32, wrap. destruct (Z.lt_ge_cases (s + v) (2 ^ 32)).
  - left. rewrite (Z.mod_small (s + v)), Z.div_small, Z.add_0_r, Z.mod_small by lia. lia.
  - right. rewrite <- (Z.mod_unique (s + v) (2 ^ 32) 1 (s + v - 2 ^ 32)) by lia.
    rewrite <- (Z.div_unique (s + v) (2 ^ 32) 1 (s + v - 2 ^ 32)) by lia. rewrite Z.mod_small by lia. lia.
Qed.

Lemma add_carry_spec s v : word_ok s -> word_ok v ->
  word_ok (ci_add_carry32 s v) /\ ci_add_carry32 s v ≡₁ s + v /\ (ci_add_carry32 s v = 0 <-> s = 0 /\ v = 0).
Proof.
  intros Hs Hv. destruct (add_carry_cases s v Hs Hv) as [[-> H]|[-> H]]; unfold word_ok in *.
  - repeat split; lia.
  - split; [lia|]. split; [|lia]. unfold ones_eq.
    replace (s + v) with (s + v - 2 ^ 32 + 1 + 65537 * 65535) at 2 by lia. symmetry. apply Z_mod_plus_full.
Qed.

Lemma load_small off n buf v : (n <= 4)%nat -> load_le off n buf = Some v -> word_ok v.
Proof.
  intros Hn H. pose proof (load_le_range _ _ _ _ H). unfold word_ok.
  assert (2 ^ (8 * Z.of_nat n) <= 2 ^ 32) by (apply Z.pow_le_mono_r; lia). lia.
Qed.

(** A little-endian load of at most four bytes is the sum of its words. *)
Lemma wsum_load n s v : (n <= 4)%nat -> load_le 0 n s = Some v -> v ≡₁ wsum false (take n s) /\ (n <= length s)%nat.
Proof.
  intros Hn. unfold load_le, load. destruct (decide (0 + n <= length s)%nat) as [Hl|]; [|done].
  rewrite drop_0. intros [= <-]. split; [|lia].
  assert (Ht : length (take n s) = n) by (rewrite length_take; lia).
  destruct (take n s) as [|b0 [|b1 [|b2 [|b3 [|? ?]]]]]; simpl in Ht; try lia; cbn [le_decode wsum negb]; unfold ones_eq.
  - done.
  - f_equal; lia.
  - f_equal; lia.
  - replace (b2z b0 + 256 * (b2z b1 + 256 * (b2z b2 + 256 * 0))) with
      (b2z b0 + (256 * b2z b1 + (b2z b2 + 0)) + b2z b2 * 65535) by lia. apply Z_mod_plus_full.
  - replace (b2z b0 + 256 * (b2z b1 + 256 * (b2z b2 + 256 * (b2z b3 + 256 * 0)))) with
      (b2z b0 + (256 * b2z b1 + (b2z b2 + (256 * b2z b3 + 0))) + (b2z b2 + 256 * b2z b3) * 65535) by lia.
    apply Z_mod_plus_full.
Qed.

(** [r] is a sum that started at [c] and took in the bytes [bs]. *)
Definition sums (c : Z) (odd : bool) (bs : list byte) (r : Z) : Prop := word_ok r /\ r ≡₁ c + wsum odd bs.

Lemma sums_step c odd bs r v odd' bs' : sums c odd bs r -> word_ok v -> v ≡₁ wsum odd' bs' ->
  odd' = flips (length bs) odd -> sums c odd (bs ++ bs') (ci_add_carry32 r v).
Proof.
  intros [Hr E] Hv Ev ->. destruct (add_carry_spec r v Hr Hv) as (Hw & E' & _). split; [done|].
  rewrite E', E, Ev, wsum_app. by rewrite Z.add_assoc.
Qed.

Lemma sums_refl c : word_ok c -> forall odd, sums c odd [] c.
Proof. intros Hc odd. split; [done|]. simpl. by rewrite Z.add_0_r. Qed.

(** ** The routines *)

Lemma sum_words_ok k s4 c : (4 * k <= length s4)%nat -> word_ok c -> exists r,
  sum_words k s4 c = Some (drop (4 * k) s4, r) /\ sums c false (take (4 * k) s4) r.
Proof.
  revert s4 c. induction k as [|k IH]; intros s4 c Hl Hc.
  { exists c. split; [done|by apply sums_refl]. }
  cbn [sum_words]. destruct (load_le_Some 0 4 s4) as [v Hv]; [lia|]. rewrite Hv. cbn [mbind option_bind].
  destruct (wsum_load 4 s4 v) as [Ev _]; [lia|done|]. pose proof (load_small 0 4 s4 v ltac:(lia) Hv) as Wv.
  destruct (add_carry_spec c v Hc Wv) as (Hc' & E' & _).
  destruct (IH (drop 4 s4) (ci_add_carry32 c v)) as (r & E & Wr & Er); [rewrite length_drop; lia|done|].
  exists r. rewrite E, drop_drop. replace (4 + 4 * k)%nat with (4 * S k)%nat by lia. split; [done|]. split; [done|].
  replace (take (4 * S k) s4) with (take 4 s4 ++ take (4 * k) (drop 4 s4)).
  - rewrite wsum_app, length_take, Nat.min_l by lia. change (flips 4 false) with false.
    rewrite Er, E', Ev. by rewrite Z.add_assoc.
  - rewrite take_take_drop. f_equal. lia.
Qed.

(** The one to three bytes behind the words. *)
Definition csum_rest (s4 : list byte) (n : nat) (csum : Z) : option Z :=
  if (n =? 0)%nat then Some csum
  else
    csum ← (if (2 <=? n)%nat then v ← load16 0 s4; Some (ci_add_carry32 csum v) else Some csum);
    if (n =? 1)%nat || (n =? 3)%nat then
      v ← load8 0 (if (n =? 3)%nat then drop 2 s4 else s4);
      Some (ci_add_carry32 csum v)
    else Some csum.

Lemma load_word n s : (n <= 4)%nat -> (n <= length s)%nat -> exists v,
  load_le 0 n s = Some v /\ word_ok v /\ v ≡₁ wsum false (take n s).
Proof.
  intros Hn Hl. destruct (load_le_Some 0 n s) as [v Hv]; [lia|]. exists v.
  destruct (wsum_load n s v Hn Hv) as [Ev _]. eauto using load_small.
Qed.

Lemma csum_rest_ok s4 n c0 bs c : (n < 4)%nat -> (n <= length s4)%nat -> Nat.even (length bs) = true ->
  sums c0 false bs c -> exists r, csum_rest s4 n c = Some r /\ sums c0 false (bs ++ take n s4) r.
Proof.
  intros Hn Hl Hev Hs. unfold csum_rest.
  assert (Hf : forall odd, flips (length bs) odd = odd) by (intros odd; unfold flips; by rewrite Hev).
  assert (n = 0 \/ n = 1 \/ n = 2 \/ n = 3)%nat as [->|[->|[->| ->]]] by lia; cbn [Nat.eqb Nat.leb orb].
  - exists c. rewrite take_0, app_nil_r. done.
  - destruct (load_word 1 s4) as (v & E & Wv & Ev); [lia|lia|]. cbn [mbind option_bind]. rewrite E. cbn [mbind option_bind].
    eexists. split; [done|]. by eapply sums_step.
  - destruct (load_word 2 s4) as (v & E & Wv & Ev); [lia|lia|]. rewrite E. cbn [mbind option_bind].
    eexists. split; [done|]. by eapply sums_step.
  - destruct (load_word 2 s4) as (v & E & Wv & Ev); [lia|lia|]. rewrite E. cbn [mbind option_bind].
    destruct (load_word 1 (drop 2 s4)) as (v' & E' & Wv' & Ev'); [lia|rewrite length_drop; lia|].
    rewrite E'. cbn [mbind option_bind]. eexists. split; [done|].
    replace (take 3 s4) with (take 2 s4 ++ take 1 (drop 2 s4)) by apply (take_take_drop s4 2 1).
    rewrite app_assoc. eapply sums_step; [by eapply sums_step|done|done|].
    rewrite length_app, length_take, Nat.min_l by lia. unfold flips. rewrite Nat.even_add, Hev. done.
Qed.

Lemma csum_aligned_ok data n c : (n <= length data)%nat -> word_ok c ->
  exists r, ci_ip_csum_aligned_c data n c = Some r /\ sums c false (take n data) r.
Proof.
  intros Hn Hc. pose proof (Nat.div_mod_eq n 4) as En. pose proof (Nat.mod_upper_bound n 4 ltac:(lia)) as Hm.
  unfold ci_ip_csum_aligned_c. destruct (sum_words_ok (n / 4) data c) as (r & E & Hs); [lia|done|].
  rewrite E. cbn [mbind option_bind].
  destruct (csum_rest_ok (drop (4 * (n / 4)) data) (n mod 4) c (take (4 * (n / 4)) data) r Hm) as (r' & E' & Hs');
    [rewrite length_drop; lia| |exact Hs|].
  { rewrite length_take, Nat.min_l by lia. rewrite Nat.even_mul. done. }
  exists r'. split; [exact E'|]. replace (take n data) with
    (take (4 * (n / 4)) data ++ take (n mod 4) (drop (4 * (n / 4)) data)); [done|].
  by rewrite take_take_drop, <- En.
Qed.

Lemma csum_ok data n odd c : (n <= length data)%nat -> word_ok c ->
  exists r, ci_ip_csum_c data n odd c = Some r /\ sums c odd (take n data) r.
Proof.
  intros Hn Hc. unfold ci_ip_csum_c. destruct odd; cbn [andb]; [|by apply csum_aligned_ok].
  destruct n as [|n]; cbn [Nat.eqb negb].
  { destruct (csum_aligned_ok data 0 c) as (r & E & Hs); [lia|done|]. exists r. split; [done|]. exact Hs. }
  destruct data as [|b data]; [simpl in Hn; lia|]. simpl in Hn.
  assert (E : load8 0 (b :: data) = Some (b2z b)).
  { unfold load_le, load. rewrite decide_True by (simpl; lia). simpl. f_equal. lia. }
  rewrite E. cbn [mbind option_bind drop]. rewrite drop_0. replace (S n - 1)%nat with n by lia.
  pose proof (b2z_range b) as Hb.
  assert (Eb : CI_BSWAP_BE16 (b2z b) = 256 * b2z b).
  { unfold CI_BSWAP_BE16, CI_BSWAP_16. rewrite wrap_small by lia.
    replace (b2z b) with (b2z b + 256 * 0) at 1 by lia. rewrite ntohs_bytes by lia. lia. }
  rewrite Eb. destruct (add_carry_spec c (256 * b2z b) Hc) as (Hc' & E' & _); [unfold word_ok; lia|].
  destruct (csum_aligned_ok data n _ ltac:(lia) Hc') as (r & Er & Wr & Hr). exists r. split; [exact Er|]. split; [done|].
  rewrite Hr, E'. cbn [take wsum negb]. by rewrite Z.add_assoc.
Qed.

(** ** The final step *)

Lemma lnot_low x : Z.land (Z.lnot x) 0xffff = 65535 - x mod 65536.
Proof.
  change (Z.land (Z.lnot x) (Z.ones 16) = 65535 - x mod 65536).
  rewrite Z.land_ones by lia. change (2 ^ 16) with 65536. unfold Z.lnot.
  pose proof (Z.div_mod x 65536 ltac:(lia)). pose proof (Z.mod_pos_bound x 65536 ltac:(lia)).
  symmetry. apply (Z.mod_unique _ _ (- (x / 65536) - 1)); lia.
Qed.

(** Folding a word twice leaves a 16-bit value that counts the same. *)
Lemma fold_spec r : word_ok r -> exists m q, 0 <= m < 65536 /\ 0 <= q <= 1 /\ (q = 1 -> m <= 65534) /\
  u32 (Z.shiftr r 16 + Z.land r 0xffff) = m + 65536 * q /\ r ≡₁ m + q.
Proof.
  intros [H0 H1]. change 0xffff with (Z.ones 16). rewrite Z.land_ones, Z.shiftr_div_pow2 by lia. change (2 ^ 16) with 65536.
  pose proof (Z.div_mod r 65536 ltac:(lia)) as E. pose proof (Z.mod_pos_bound r 65536 ltac:(lia)).
  assert (0 <= r / 65536 < 65536) by (split; [apply Z.div_pos; lia|apply Z.div_lt_upper_bound; lia]).
  set (s := r / 65536 + r mod 65536) in *. exists (s mod 65536), (s / 65536).
  pose proof (Z.div_mod s 65536 ltac:(lia)) as Es. pose proof (Z.mod_pos_bound s 65536 ltac:(lia)).
  assert (0 <= s / 65536 < 2) by (split; [apply Z.div_pos; lia|apply Z.div_lt_upper_bound; lia]).
  rewrite wrap_small by lia. repeat split; try lia.
  unfold ones_eq. replace r with (s mod 65536 + s / 65536 + (r / 65536 + s / 65536) * 65535) at 1 by lia.
  apply Z_mod_plus_full.
Qed.

Lemma finish_spec r : word_ok r -> 1 <= ci_udp_csum_finish r <= 0xffff /\ ci_udp_csum_finish r + r ≡₁ 0.
Proof.
  intros Hr. destruct (fold_spec r Hr) as (m & q & Hm & Hq & Hmq & E & Er). unfold ci_udp_csum_finish. rewrite E.
  rewrite Z.shiftr_div_pow2 by lia. change (2 ^ 16) with 65536.
  rewrite <- (Z.div_unique (m + 65536 * q) 65536 q m) by lia. rewrite wrap_small, lnot_low by lia.
  assert (Elow : (m + 65536 * q + q) mod 65536 = m + q) by (symmetry; apply (Z.mod_unique _ _ q); lia).
  rewrite Elow. rewrite Er. destruct (Z.eqb_spec (65535 - (m + q)) 0); (split; [lia|]); unfold ones_eq.
  - replace (0xffff + (m + q)) with (0 + 2 * 65535) by lia. apply Z_mod_plus_full.
  - replace (65535 - (m + q) + (m + q)) with (0 + 1 * 65535) by lia. apply Z_mod_plus_full.
Qed.

(** ** Copying *)

Definition splice (d : nat) (bs dest : list byte) : list byte := take d dest ++ bs ++ drop (d + length bs) dest.

Lemma splice_length d bs dest : (d + length bs <= length dest)%nat -> length (splice d bs dest) = length dest.
Proof. intros H. unfold splice. rewrite !length_app, length_take, length_drop. lia. Qed.

Lemma splice_nil d dest : splice d [] dest = dest.
Proof. unfold splice. rewrite Nat.add_0_r. apply take_drop. Qed.

Lemma splice_splice d a b dest : (d + length a + length b <= length dest)%nat ->
  splice (d + length a) b (splice d a dest) = splice d (a ++ b) dest.
Proof.
  intros H. unfold splice at 1.
  assert (E1 : take (d + length a) (splice d a dest) = take d dest ++ a).
  { unfold splice. rewrite app_assoc, take_app_le, take_ge by (rewrite length_app, length_take; lia). done. }
  assert (E2 : drop (d + length a + length b) (splice d a dest) = drop (d + length a + length b) dest).
  { unfold splice. rewrite app_assoc. rewrite drop_app_ge by (rewrite length_app, length_take; lia).
    rewrite drop_drop, length_app, length_take. f_equal. lia. }
  rewrite E1, E2. unfold splice. rewrite length_app, <- !app_assoc. do 4 f_equal. lia.
Qed.

Lemma copy_step n s v d dest : load_le 0 n s = Some v -> (d + n <= length dest)%nat ->
  store d (le_encode n v) dest = Some (splice d (take n s) dest) /\ length (take n s) = n.
Proof.
  unfold load_le, load. destruct (decide (0 + n <= length s)%nat); [|done]. rewrite drop_0. intros [= <-] Hd.
  assert (Hl : length (take n s) = n) by (rewrite length_take; lia).
  pose proof (le_encode_decode (take n s)) as E. rewrite Hl in E. unfold store. rewrite E, decide_True by lia. done.
Qed.

Lemma copy_words_eq k dest d s4 c : (d + 4 * k <= length dest)%nat -> (4 * k <= length s4)%nat ->
  copy_words k dest d s4 c =
  '(s, r) ← sum_words k s4 c; Some (splice d (take (4 * k) s4) dest, (d + 4 * k)%nat, s, r).
Proof.
  revert dest d s4 c. induction k as [|k IH]; intros dest d s4 c Hd Hl; cbn [copy_words sum_words].
  { cbn [mbind option_bind]. rewrite Nat.mul_0_r, take_0, splice_nil, Nat.add_0_r. done. }
  destruct (load32 0 s4) as [v|] eqn:Ev; [|done]. cbn [mbind option_bind].
  destruct (copy_step 4 s4 v d dest Ev) as [-> Ht]; [lia|]. cbn [mbind option_bind].
  rewrite IH by (rewrite ?splice_length, ?length_drop, ?Ht; lia).
  assert (Es : splice (d + 4) (take (4 * k) (drop 4 s4)) (splice d (take 4 s4) dest) = splice d (take (4 * S k) s4) dest).
  { replace (d + 4)%nat with (d + length (take 4 s4))%nat by lia.
    rewrite splice_splice by (rewrite Ht, length_take, length_drop; lia).
    rewrite take_take_drop. f_equal. f_equal. lia. }
  rewrite Es. by replace (d + 4 + 4 * k)%nat with (d + 4 * S k)%nat by lia.
Qed.

(** The one to three bytes behind the words, copied. *)
Definition copy_rest (dest : list byte) (d4 : nat) (s4 : list byte) (n : nat) (sum : Z) : option (list byte * Z) :=
  if (n =? 0)%nat then Some (dest, sum)
  else
    '(dest, sum) ← (if (2 <=? n)%nat then
        v ← load16 0 s4; dest ← store d4 (le_encode 2 v) dest; Some (dest, ci_add_carry32 sum v)
      else Some (dest, sum));
    if (n =? 1)%nat || (n =? 3)%nat then
      let s := if (n =? 3)%nat then drop 2 s4 else s4 in
      let d := (if n =? 3 then d4 + 2 else d4)%nat in
      w ← load8 0 s;
      dest ← store d (le_encode 1 w) dest;
      Some (dest, ci_add_carry32 sum w)
    else Some (dest, sum).

Lemma copy_rest_eq dest d s n c : (n < 4)%nat -> (d + n <= length dest)%nat -> (n <= length s)%nat ->
  copy_rest dest d s n c = r ← csum_rest s n c; Some (splice d (take n s) dest, r).
Proof.
  intros Hn Hd Hl. unfold copy_rest, csum_rest.
  assert (n = 0 \/ n = 1 \/ n = 2 \/ n = 3)%nat as [->|[->|[->| ->]]] by lia; cbn [Nat.eqb Nat.leb orb mbind option_bind].
  - by rewrite take_0, splice_nil.
  - destruct (load_le_Some 0 1 s) as [v Ev]; [lia|]. rewrite Ev. cbn [mbind option_bind].
    by destruct (copy_step 1 s v d dest Ev) as [-> _].
  - destruct (load_le_Some 0 2 s) as [v Ev]; [lia|]. rewrite Ev. cbn [mbind option_bind].
    destruct (copy_step 2 s v d dest Ev) as [-> _]; [lia|]. done.
  - destruct (load_le_Some 0 2 s) as [v Ev]; [lia|]. rewrite Ev. cbn [mbind option_bind].
    destruct (copy_step 2 s v d dest Ev) as [-> Ht]; [lia|]. cbn [mbind option_bind].
    destruct (load_le_Some 0 1 (drop 2 s)) as [w Ew]; [rewrite length_drop; lia|]. rewrite Ew. cbn [mbind option_bind].
    destruct (copy_step 1 (drop 2 s) w (d + 2) (splice d (take 2 s) dest) Ew) as [-> _]; [rewrite splice_length; lia|].
    cbn [mbind option_bind]. replace (d + 2)%nat with (d + length (take 2 s))%nat by lia.
    rewrite splice_splice by (rewrite Ht, length_take, length_drop; lia).
    by rewrite (take_take_drop s 2 1).
Qed.

Lemma sum_words_rest k src c s r : sum_words k src c = Some (s, r) -> s = drop (4 * k) src.
Proof.
  revert src c. induction k as [|k IH]; intros src c E; cbn [sum_words] in E; [by simplify_eq|].
  destruct (load32 0 src); [|done]. cbn [mbind option_bind] in E. apply IH in E. rewrite E, drop_drop. f_equal. lia.
Qed.

Lemma copy_aligned_eq dest d src n c : (d + n <= length dest)%nat -> (n <= length src)%nat ->
  ci_ip_csum_copy_aligned_c dest d src (Z.of_nat n) c =
  r ← ci_ip_csum_aligned_c src n c; Some (splice d (take n src) dest, r).
Proof.
  intros Hd Hl. pose proof (Nat.div_mod_eq n 4) as En. pose proof (Nat.mod_upper_bound n 4 ltac:(lia)) as Hm.
  unfold ci_ip_csum_copy_aligned_c, ci_ip_csum_aligned_c. rewrite (proj2 (Z.ltb_ge _ _)), Nat2Z.id by lia. cbv zeta. rewrite copy_words_eq by lia.
  destruct (sum_words (n / 4) src c) as [[s r]|] eqn:E; [|done]. cbn [mbind option_bind].
  apply sum_words_rest in E as ->. set (k := (4 * (n / 4))%nat) in *.
  assert (Hk : length (take k src) = k) by (rewrite length_take; lia).
  change (copy_rest (splice d (take k src) dest) (d + k) (drop k src) (n mod 4) r =
    r ← csum_rest (drop k src) (n mod 4) r; Some (splice d (take n src) dest, r)).
  rewrite copy_rest_eq by (rewrite ?splice_length, ?length_drop; lia).
  replace (splice (d + k) (take (n mod 4) (drop k src)) (splice d (take k src) dest)) with (splice d (take n src) dest); [done|].
  replace (d + k)%nat with (d + length (take k src))%nat by lia.
  rewrite splice_splice by (rewrite Hk, length_take, length_drop; lia). by rewrite take_take_drop, <- En.
Qed.

Lemma int_small n : Z.of_nat n < 2 ^ 31 -> i32 (Z.of_nat n) = Z.of_nat n.
Proof. intros H. apply swrap_small; simpl; lia. Qed.

Lemma int_large n : 2 ^ 31 <= Z.of_nat n < 2 ^ 32 -> i32 (Z.of_nat n) < 0.
Proof. intros H. unfold swrap. rewrite wrap_small by (simpl in *; lia). rewrite (proj2 (Z.ltb_ge _ _)) by (simpl in *; lia). simpl in *. lia. Qed.

Lemma copy_eq dest d src n odd c : Z.of_nat n < 2 ^ 31 -> (d + n <= length dest)%nat -> (n <= length src)%nat ->
  ci_ip_csum_copy_c dest d src n odd c = r ← ci_ip_csum_c src n odd c; Some (splice d (take n src) dest, r).
Proof.
  intros Hn Hd Hl. unfold ci_ip_csum_copy_c, ci_ip_csum_c.
  destruct (odd && negb (n =? 0)%nat) eqn:Eo; [|rewrite int_small by done; by apply copy_aligned_eq].
  destruct n as [|n]; [by rewrite andb_false_r in Eo|].
  destruct (load_le_Some 0 1 src) as [v Ev]; [lia|]. rewrite Ev. cbn [mbind option_bind].
  destruct (copy_step 1 src v d dest Ev) as [-> Ht]; [lia|]. cbn [mbind option_bind].
  replace (S n - 1)%nat with n by lia. rewrite int_small by lia.
  rewrite copy_aligned_eq by (rewrite ?splice_length, ?length_drop; lia).
  replace (splice (d + 1) (take n (drop 1 src)) (splice d (take 1 src) dest)) with (splice d (take (S n) src) dest); [done|].
  replace (d + 1)%nat with (d + length (take 1 src))%nat by lia.
  rewrite splice_splice by (rewrite Ht, length_take, length_drop; lia). by rewrite (take_take_drop src 1 n).
Qed.

(** ** The theorems *)

(** The bytes left for the aligned routine. *)
Definition aligned_len (n : nat) (odd : bool) : nat := if odd && negb (n =? 0)%nat then (n - 1)%nat else n.

(** C17: the checksum routines compute the Internet checksum.  From a
    partial sum [c], the loop over 32-bit words with its tail of one to three
    bytes, and the swapped first byte of data that starts at an odd place, give
    modulo 65535 the sum of the 16-bit words of the data; the final step gives
    the nonzero complement, which makes the whole sum to zero; the copying
    routine gives the same sum and has copied exactly the bytes, for fewer than
    [2^31] bytes.  It hands its length to an [int]: from [2^31] on, below [2^32], it
    fails its assertion whatever the data. *)
Theorem csum_exact data n odd c dest d : (n <= length data)%nat -> word_ok c -> (d + n <= length dest)%nat ->
  exists r, ci_ip_csum_c data n odd c = Some r /\ word_ok r /\ r ≡₁ c + wsum odd (take n data) /\
    1 <= ci_udp_csum_finish r <= 0xffff /\ ci_udp_csum_finish r + (c + wsum odd (take n data)) ≡₁ 0 /\
    (Z.of_nat n < 2 ^ 31 -> ci_ip_csum_copy_c dest d data n odd c = Some (splice d (take n data) dest, r)) /\
    (2 ^ 31 <= Z.of_nat (aligned_len n odd) < 2 ^ 32 -> ci_ip_csum_copy_c dest d data n odd c = None).
Proof.
  intros Hn Hc Hd. destruct (csum_ok data n odd c Hn Hc) as (r & E & Wr & Er). exists r.
  destruct (finish_spec r Wr) as [F1 F2]. split_and!; try done; try apply F1.
  { etransitivity; [|exact F2]. apply ones_eq_add; [done|by symmetry]. }
  { intros Hs. rewrite copy_eq by done. by rewrite E. }
  unfold aligned_len, ci_ip_csum_copy_c, ci_ip_csum_copy_aligned_c. intros Hl.
  destruct (odd && negb (n =? 0)%nat); pose proof (int_large _ Hl) as Hneg; [|by rewrite (proj2 (Z.ltb_lt _ _) Hneg)].
  destruct (load8 0 data) as [v|]; [|done]. cbn [mbind option_bind]. destruct (store d (le_encode 1 v) dest); [|done]. cbn [mbind option_bind]. by rewrite (proj2 (Z.ltb_lt _ _) Hneg).
Qed.

Lemma csum_exact_witness : exists r,
  ci_ip_csum_c [x01; x02; x03; x04; xff; xfe; x07] 7 true 5 = Some r /\ r ≡₁ 5 + wsum true [x01; x02; x03; x04; xff; xfe; x07] /\
  ci_ip_csum_copy_c (zeros 9) 1 [x01; x02; x03; x04; xff; xfe; x07] 7 true 5
  = Some ([x00; x01; x02; x03; x04; xff; xfe; x07; x00], r).
Proof.
  destruct (csum_exact [x01; x02; x03; x04; xff; xfe; x07] 7 true 5 (zeros 9) 1) as (r & E1 & _ & E2 & _ & _ & E3 & _);
    [simpl; lia|unfold word_ok; lia|simpl; lia|].
  exists r. split; [exact E1|]. split; [exact E2|apply E3; simpl; lia].
Defined.
