(* ===== verification/Fifo.v ===== *)
(** * Fifo: the ring buffers of [ci/tools/fifo.h]

    Two kinds: indices kept below the buffer size, with one slot unused, and
    free-running 32-bit indices with a mask.  Both are instances of one
    interface, a bounded queue, against which runs of operations are proved. *)

From Stdlib Require Import ZArith Lia Bool.
From S2P Require Import Prelude Hash.

Section Fifos.
Context {A : Type}.

(** ** Fifos of any size *)

Record fifo := Fifo { fifo_size : Z; fifo_rd_i : Z; fifo_wr_i : Z; fifo_buf : list A }.

Definition CI_FIFO_M (f : fifo) (x : Z) : Z := u32 x mod fifo_size f.

Definition ci_fifo_valid (f : fifo) : bool :=
  (1 <? fifo_size f) && (fifo_rd_i f <? fifo_size f) && (fifo_wr_i f <? fifo_size f).

Definition ci_fifo_init (f : fifo) (cap : Z) : fifo := Fifo (u32 (cap + 1)) 0 0 (fifo_buf f).

(** [ci_fifo_ctor]: the memory that the allocator gave, or null; the return code
    goes to [*prc].  A failed assertion is [None]. *)
Definition ci_fifo_ctor (cap : Z) (mem : option (list A)) : option (fifo * Z) :=
  let f := ci_fifo_init (Fifo 0 0 0 (default [] mem)) cap in
  match mem with
  | Some _ => if ci_fifo_valid f then Some (f, 0) else None
  | None => Some (f, -12)
  end.

Definition ci_fifo_is_empty (f : fifo) : bool := fifo_rd_i f =? fifo_wr_i f.
Definition ci_fifo_not_empty (f : fifo) : bool := negb (fifo_rd_i f =? fifo_wr_i f).
Definition ci_fifo_is_full (f : fifo) : bool := CI_FIFO_M f (fifo_wr_i f + 1) =? fifo_rd_i f.
Definition ci_fifo_not_full (f : fifo) : bool := negb (CI_FIFO_M f (fifo_wr_i f + 1) =? fifo_rd_i f).

Definition ci_fifo_num (f : fifo) : Z := CI_FIFO_M f (fifo_wr_i f + fifo_size f - fifo_rd_i f).
Definition ci_fifo_space (f : fifo) : Z := CI_FIFO_M f (fifo_rd_i f + fifo_size f - fifo_wr_i f - 1).
Definition ci_fifo_buf_size (f : fifo) : Z := fifo_size f.
Definition ci_fifo_capacity (f : fifo) : Z := u32 (fifo_size f - 1).

Definition ci_fifo_peek (f : fifo) : option A := fifo_buf f !! Z.to_nat (fifo_rd_i f).
Definition ci_fifo_peek_i (f : fifo) (i : Z) : option A := fifo_buf f !! Z.to_nat (CI_FIFO_M f (fifo_rd_i f + i)).
(** The assignment [ci_fifo_poke(f) = v]. *)
Definition ci_fifo_poke (f : fifo) (v : A) : option fifo :=
  if decide (Z.to_nat (fifo_wr_i f) < length (fifo_buf f))%nat then
    Some (Fifo (fifo_size f) (fifo_rd_i f) (fifo_wr_i f) (<[Z.to_nat (fifo_wr_i f) := v]> (fifo_buf f)))
  else None.

Definition ci_fifo_rd_next (f : fifo) : fifo := Fifo (fifo_size f) (CI_FIFO_M f (fifo_rd_i f + 1)) (fifo_wr_i f) (fifo_buf f).
Definition ci_fifo_wr_next (f : fifo) : fifo := Fifo (fifo_size f) (fifo_rd_i f) (CI_FIFO_M f (fifo_wr_i f + 1)) (fifo_buf f).
Definition ci_fifo_rd_adv (f : fifo) (n : Z) : fifo := Fifo (fifo_size f) (CI_FIFO_M f (fifo_rd_i f + n)) (fifo_wr_i f) (fifo_buf f).
Definition ci_fifo_wr_adv (f : fifo) (n : Z) : fifo := Fifo (fifo_size f) (fifo_rd_i f) (CI_FIFO_M f (fifo_wr_i f + n)) (fifo_buf f).
Definition ci_fifo_wr_retreat (f : fifo) (n : Z) : fifo :=
  Fifo (fifo_size f) (fifo_rd_i f) (CI_FIFO_M f (fifo_wr_i f + fifo_size f - n)) (fifo_buf f).

Definition ci_fifo_put (f : fifo) (v : A) : option fifo := f ← ci_fifo_poke f v; Some (ci_fifo_wr_next f).
Definition ci_fifo_get (f : fifo) : option (A * fifo) := v ← ci_fifo_peek f; Some (v, ci_fifo_rd_next f).

Definition ci_fifo_contig_num (f : fifo) : Z :=
  if fifo_rd_i f <=? fifo_wr_i f then u32 (fifo_wr_i f - fifo_rd_i f) else u32 (fifo_size f - fifo_rd_i f).
Definition ci_fifo_contig_space (f : fifo) : Z :=
  if fifo_wr_i f <? fifo_rd_i f then u32 (fifo_rd_i f - fifo_wr_i f - 1)
  else u32 (fifo_size f - fifo_wr_i f - (if fifo_rd_i f =? 0 then 1 else 0)).

(** ** Fifos of a power of two *)

Record fifo2 := Fifo2 { fifo_mask : Z; fifo2_rd : Z; fifo2_wr : Z; fifo2_buf : list A }.

Definition CI_FIFO2_M (f : fifo2) (x : Z) : Z := Z.land (u32 x) (fifo_mask f).
Definition ci_fifo2_rd_i (f : fifo2) : Z := CI_FIFO2_M f (fifo2_rd f).
Definition ci_fifo2_wr_i (f : fifo2) : Z := CI_FIFO2_M f (fifo2_wr f).

Definition ci_fifo2_num (f : fifo2) : Z := u32 (fifo2_wr f - fifo2_rd f).
Definition ci_fifo2_capacity (f : fifo2) : Z := u32 (fifo_mask f + 1).
Definition ci_fifo2_buf_size (f : fifo2) : Z := u32 (fifo_mask f + 1).
Definition ci_fifo2_space (f : fifo2) : Z := u32 (ci_fifo2_capacity f - ci_fifo2_num f).

(** The comparison of an [int] with an [unsigned] is unsigned. *)
Definition ci_fifo2_valid (f : fifo2) : bool :=
  CI_IS_POW2 (u32 (fifo_mask f + 1)) && (0 <=? i32 (ci_fifo2_num f)) && (u32 (i32 (ci_fifo2_num f)) <=? ci_fifo2_capacity f).

Definition ci_fifo2_init (f : fifo2) (cap : Z) : option fifo2 :=
  if CI_IS_POW2 cap then Some (Fifo2 (u32 (cap - 1)) 0 0 (fifo2_buf f)) else None.
Definition ci_fifo2_ctor (cap : Z) (mem : option (list A)) : option (fifo2 * Z) :=
  f ← ci_fifo2_init (Fifo2 0 0 0 (default [] mem)) cap;
  match mem with
  | Some _ => if ci_fifo2_valid f then Some (f, 0) else None
  | None => Some (f, -12)
  end.

Definition ci_fifo2_is_empty (f : fifo2) : bool := fifo2_rd f =? fifo2_wr f.
Definition ci_fifo2_not_empty (f : fifo2) : bool := negb (fifo2_rd f =? fifo2_wr f).
Definition ci_fifo2_is_full (f : fifo2) : bool := ci_fifo2_num f =? ci_fifo2_capacity f.
Definition ci_fifo2_not_full (f : fifo2) : bool := negb (ci_fifo2_num f =? ci_fifo2_capacity f).

Definition ci_fifo2_peek (f : fifo2) : option A := fifo2_buf f !! Z.to_nat (ci_fifo2_rd_i f).
Definition ci_fifo2_peek_i (f : fifo2) (i : Z) : option A := fifo2_buf f !! Z.to_nat (CI_FIFO2_M f (fifo2_rd f + i)).
Definition ci_fifo2_poke (f : fifo2) (v : A) : option fifo2 :=
  if decide (Z.to_nat (ci_fifo2_wr_i f) < length (fifo2_buf f))%nat then
    Some (Fifo2 (fifo_mask f) (fifo2_rd f) (fifo2_wr f) (<[Z.to_nat (ci_fifo2_wr_i f) := v]> (fifo2_buf f)))
  else None.

Definition ci_fifo2_rd_next (f : fifo2) : fifo2 := Fifo2 (fifo_mask f) (u32 (fifo2_rd f + 1)) (fifo2_wr f) (fifo2_buf f).
Definition ci_fifo2_wr_next (f : fifo2) : fifo2 := Fifo2 (fifo_mask f) (fifo2_rd f) (u32 (fifo2_wr f + 1)) (fifo2_buf f).
Definition ci_fifo2_rd_adv (f : fifo2) (n : Z) : fifo2 := Fifo2 (fifo_mask f) (u32 (fifo2_rd f + n)) (fifo2_wr f) (fifo2_buf f).
Definition ci_fifo2_wr_adv (f : fifo2) (n : Z) : fifo2 := Fifo2 (fifo_mask f) (fifo2_rd f) (u32 (fifo2_wr f + n)) (fifo2_buf f).

Definition ci_fifo2_put (f : fifo2) (v : A) : option fifo2 := f ← ci_fifo2_poke f v; Some (ci_fifo2_wr_next f).
Definition ci_fifo2_get (f : fifo2) : option (A * fifo2) := v ← ci_fifo2_peek f; Some (v, ci_fifo2_rd_next f).

Definition ci_fifo_min (a b : Z) : Z := if a <? b then a else b.
Definition ci_fifo2_contig_num (f : fifo2) : Z := ci_fifo_min (ci_fifo2_num f) (u32 (fifo_mask f + 1 - ci_fifo2_rd_i f)).
Definition ci_fifo2_contig_space (f : fifo2) : Z := ci_fifo_min (ci_fifo2_space f) (u32 (fifo_mask f + 1 - ci_fifo2_wr_i f)).

(** ** A queue in a ring *)

(** The elements [l] lie in the buffer from place [s] on, around its end. *)
Definition slots (buf : list A) (size s : Z) (l : list A) : Prop :=
  Z.of_nat (length buf) = size /\ forall i x, l !! i = Some x -> buf !! Z.to_nat ((s + Z.of_nat i) mod size) = Some x.

Lemma slots_empty buf size s : Z.of_nat (length buf) = size -> slots buf size s [].
Proof. intros H. split; [done|]. intros i x Hi. by rewrite lookup_nil in Hi. Qed.

Lemma slots_put buf size s l v : slots buf size s l -> Z.of_nat (length l) < size ->
  slots (<[Z.to_nat ((s + Z.of_nat (length l)) mod size) := v]> buf) size s (l ++ [v]).
Proof.
  intros [Hb H] Hl. assert (Hsz : 0 < size) by lia. split; [by rewrite length_insert|]. intros i x Hi.
  pose proof (Z.mod_pos_bound (s + Z.of_nat (length l)) size Hsz) as Hw.
  pose proof (Z.mod_pos_bound (s + Z.of_nat i) size Hsz) as Hr.
  destruct (decide (i < length l)%nat) as [Hlt|Hge].
  - rewrite lookup_app_l in Hi by done. rewrite list_lookup_insert_ne; [by apply H|]. intros E.
    apply Z2Nat.inj in E; [|lia|lia].
    assert (Hd : (Z.of_nat (length l) - Z.of_nat i) mod size = 0).
    { replace (Z.of_nat (length l) - Z.of_nat i) with ((s + Z.of_nat (length l)) - (s + Z.of_nat i)) by lia.
      rewrite Zminus_mod, E, Z.sub_diag. by apply Zmod_0_l. }
    rewrite Z.mod_small in Hd by lia. lia.
  - rewrite lookup_app_r in Hi by lia. destruct (i - length l)%nat as [|k] eqn:Ek; [|by destruct k].
    simpl in Hi. injection Hi as <-. replace i with (length l) by lia.
    rewrite list_lookup_insert_eq; [done|]. apply Nat2Z.inj_lt. rewrite Z2Nat.id by lia. lia.
Qed.

Lemma slots_get buf size s x l : slots buf size s (x :: l) ->
  buf !! Z.to_nat (s mod size) = Some x /\ slots buf size (s + 1) l.
Proof.
  intros [Hb H]. split.
  - rewrite <- (H 0%nat x eq_refl). by rewrite Z.add_0_r.
  - split; [done|]. intros i y Hi. specialize (H (S i) y Hi). rewrite <- H. do 3 f_equal. lia.
Qed.

(** Only the place within the ring matters. *)
Lemma slots_start buf size s s' l : s mod size = s' mod size -> slots buf size s l -> slots buf size s' l.
Proof.
  intros E [Hb H]. split; [done|]. intros i x Hi. rewrite <- (H i x Hi). by rewrite Zplus_mod, <- E, <- Zplus_mod.
Qed.
End Fifos.
Arguments fifo : clear implicits.
Arguments fifo2 : clear implicits.

(** ** The interface of a bounded queue *)

Class BoundedQueue (A F : Type) := {
  q_cap : F -> Z;
  q_num : F -> Z;
  q_space : F -> Z;
  q_is_empty : F -> bool;
  q_is_full : F -> bool;
  q_put : F -> A -> option F;
  q_get : F -> option (A * F);
  (** The elements that a state holds. *)
  q_holds : F -> list A -> Prop;
  q_num_ok f l : q_holds f l -> q_num f = Z.of_nat (length l) /\ q_space f = q_cap f - Z.of_nat (length l) /\
    0 <= Z.of_nat (length l) <= q_cap f;
  q_empty_ok f l : q_holds f l -> q_is_empty f = true <-> l = [];
  q_full_ok f l : q_holds f l -> q_is_full f = true <-> Z.of_nat (length l) = q_cap f;
  q_put_ok f l v : q_holds f l -> Z.of_nat (length l) < q_cap f ->
    exists f', q_put f v = Some f' /\ q_holds f' (l ++ [v]) /\ q_cap f' = q_cap f;
  q_get_ok f x l : q_holds f (x :: l) -> exists f', q_get f = Some (x, f') /\ q_holds f' l /\ q_cap f' = q_cap f
}.

Section FifoInstance.
Context {A : Type}.

Definition fifo_holds (f : fifo A) (l : list A) : Prop :=
  1 < fifo_size f <= 2 ^ 31 /\ 0 <= fifo_rd_i f < fifo_size f /\ Z.of_nat (length l) < fifo_size f /\
  fifo_wr_i f = (fifo_rd_i f + Z.of_nat (length l)) mod fifo_size f /\
  slots (fifo_buf f) (fifo_size f) (fifo_rd_i f) l.

(** Where the writer is: before or behind the end of the buffer. *)
Lemma fifo_wr_cases f l : fifo_holds f l -> let n := Z.of_nat (length l) in
  fifo_wr_i f = fifo_rd_i f + n /\ fifo_rd_i f + n < fifo_size f \/
  fifo_wr_i f = fifo_rd_i f + n - fifo_size f /\ fifo_size f <= fifo_rd_i f + n.
Proof.
  intros (H1 & H2 & H3 & -> & _) n. destruct (Z.lt_ge_cases (fifo_rd_i f + n) (fifo_size f)).
  - left. by rewrite Z.mod_small by lia.
  - right. split; [|done]. symmetry. apply (Z.mod_unique _ _ 1); lia.
Qed.

Lemma fifo_M_at (f : fifo A) x y q : y = x + q * fifo_size f -> 1 < fifo_size f <= 2 ^ 31 -> 0 <= x < fifo_size f ->
  0 <= q <= 1 -> CI_FIFO_M f y = x.
Proof. intros -> Hs Hx Hq. unfold CI_FIFO_M. rewrite wrap_small by nia. rewrite Z_mod_plus_full. by apply Z.mod_small. Qed.

Lemma fifo_num_ok f l : fifo_holds f l -> ci_fifo_num f = Z.of_nat (length l) /\
  ci_fifo_space f = ci_fifo_capacity f - Z.of_nat (length l) /\ 0 <= Z.of_nat (length l) <= ci_fifo_capacity f.
Proof.
  intros H. pose proof (fifo_wr_cases f l H) as Hw. cbv zeta in Hw. destruct H as (H1 & H2 & H3 & _ & _).
  unfold ci_fifo_num, ci_fifo_space, ci_fifo_capacity. rewrite (wrap_small 32 (fifo_size f - 1)) by lia.
  destruct Hw as [[-> Hw]|[-> Hw]]; (split; [|split; [|lia]]).
  - apply (fifo_M_at f _ _ 1); lia.
  - apply (fifo_M_at f _ _ 0); lia.
  - apply (fifo_M_at f _ _ 0); lia.
  - apply (fifo_M_at f _ _ 1); lia.
Qed.

Lemma length_zero (l : list A) : Z.of_nat (length l) = 0 <-> l = [].
Proof. destruct l; simpl; split; try done; lia. Qed.

Lemma fifo_empty_ok f l : fifo_holds f l -> ci_fifo_is_empty f = true <-> l = [].
Proof.
  intros H. pose proof (fifo_wr_cases f l H) as Hw. cbv zeta in Hw. destruct H as (H1 & H2 & H3 & _ & _).
  unfold ci_fifo_is_empty. rewrite Z.eqb_eq, <- length_zero. lia.
Qed.

(** The next place of the writer. *)
Lemma fifo_wr_step f l : fifo_holds f l ->
  CI_FIFO_M f (fifo_wr_i f + 1) = (fifo_rd_i f + Z.of_nat (length l) + 1) mod fifo_size f.
Proof.
  intros (H1 & H2 & H3 & E & _). pose proof (Z.mod_pos_bound (fifo_rd_i f + Z.of_nat (length l)) (fifo_size f)).
  unfold CI_FIFO_M. rewrite wrap_small by lia. by rewrite E, Zplus_mod_idemp_l.
Qed.

Lemma fifo_full_ok f l : fifo_holds f l -> ci_fifo_is_full f = true <-> Z.of_nat (length l) = ci_fifo_capacity f.
Proof.
  intros H. unfold ci_fifo_is_full. rewrite Z.eqb_eq, (fifo_wr_step f l H).
  destruct H as (H1 & H2 & H3 & _ & _). unfold ci_fifo_capacity. rewrite wrap_small by lia.
  set (n := Z.of_nat (length l)) in *. assert (0 <= n) by lia.
  destruct (Z.lt_ge_cases (fifo_rd_i f + n + 1) (fifo_size f)).
  - rewrite Z.mod_small by lia. lia.
  - rewrite <- (Z.mod_unique _ (fifo_size f) 1 (fifo_rd_i f + n + 1 - fifo_size f)) by lia. lia.
Qed.

Lemma fifo_put_ok f l v : fifo_holds f l -> Z.of_nat (length l) < ci_fifo_capacity f ->
  exists f', ci_fifo_put f v = Some f' /\ fifo_holds f' (l ++ [v]) /\ ci_fifo_capacity f' = ci_fifo_capacity f.
Proof.
  intros H Hc. pose proof (fifo_wr_step f l H) as Ew. destruct H as (H1 & H2 & H3 & E & Hs).
  unfold ci_fifo_capacity in *. rewrite wrap_small in Hc by lia.
  pose proof (Z.mod_pos_bound (fifo_rd_i f + Z.of_nat (length l)) (fifo_size f) ltac:(lia)) as Hb.
  unfold ci_fifo_put, ci_fifo_poke. rewrite decide_True.
  2: { destruct Hs as [Hb' _]. rewrite E. apply Nat2Z.inj_lt. rewrite Z2Nat.id by lia. lia. }
  eexists. split; [reflexivity|]. split; [|done]. unfold fifo_holds, ci_fifo_wr_next. cbn.
  rewrite length_app, Nat2Z.inj_add. change (Z.of_nat (length [v])) with 1.
  split; [done|]. split; [done|]. split; [lia|]. split.
  - unfold CI_FIFO_M in *. cbn. rewrite Ew. f_equal. lia.
  - rewrite E. by apply slots_put.
Qed.

Lemma fifo_get_ok f x l : fifo_holds f (x :: l) ->
  exists f', ci_fifo_get f = Some (x, f') /\ fifo_holds f' l /\ ci_fifo_capacity f' = ci_fifo_capacity f.
Proof.
  intros (H1 & H2 & H3 & E & Hs). apply slots_get in Hs as [Hx Hs]. rewrite Z.mod_small in Hx by lia.
  unfold ci_fifo_get, ci_fifo_peek. rewrite Hx. cbn [mbind option_bind]. eexists. split; [reflexivity|]. split; [|done].
  cbn [length] in *. rewrite Nat2Z.inj_succ in *.
  assert (Er : CI_FIFO_M f (fifo_rd_i f + 1) = (fifo_rd_i f + 1) mod fifo_size f) by (unfold CI_FIFO_M; by rewrite wrap_small by lia).
  unfold fifo_holds, ci_fifo_rd_next. cbn. rewrite Er. split; [done|]. split; [apply Z.mod_pos_bound; lia|].
  split; [lia|]. split; [rewrite E, Zplus_mod_idemp_l; f_equal; lia|].
  eapply slots_start; [|exact Hs]. symmetry. apply Z.mod_mod. lia.
Qed.

#[export] Instance fifo_queue : BoundedQueue A (fifo A) := {
  q_cap := ci_fifo_capacity; q_num := ci_fifo_num; q_space := ci_fifo_space;
  q_is_empty := ci_fifo_is_empty; q_is_full := ci_fifo_is_full; q_put := ci_fifo_put; q_get := ci_fifo_get;
  q_holds := fifo_holds; q_num_ok := fifo_num_ok; q_empty_ok := fifo_empty_ok; q_full_ok := fifo_full_ok;
  q_put_ok := fifo_put_ok; q_get_ok := fifo_get_ok
}.
End FifoInstance.

Section Fifo2Instance.
Context {A : Type}.

Definition fifo2_holds (f : fifo2 A) (l : list A) : Prop := exists k,
  0 <= k <= 31 /\ fifo_mask f = Z.ones k /\ 0 <= fifo2_rd f < 2 ^ 32 /\ Z.of_nat (length l) <= 2 ^ k /\
  fifo2_wr f = u32 (fifo2_rd f + Z.of_nat (length l)) /\ slots (fifo2_buf f) (2 ^ k) (fifo2_rd f) l.

Lemma pow_31 k : 0 <= k <= 31 -> 0 < 2 ^ k <= 2 ^ 31.
Proof. intros H. split; [lia|]. apply Z.pow_le_mono_r; lia. Qed.

Lemma fifo2_cap (f : fifo2 A) k : 0 <= k <= 31 -> fifo_mask f = Z.ones k -> ci_fifo2_capacity f = 2 ^ k.
Proof.
  intros Hk E. pose proof (pow_31 k Hk). unfold ci_fifo2_capacity. rewrite E, Z.ones_equiv, wrap_small; lia.
Qed.

Lemma fifo2_num_len (f : fifo2 A) l : fifo2_holds f l -> ci_fifo2_num f = Z.of_nat (length l).
Proof.
  intros (k & Hk & _ & _ & Hl & E & _). pose proof (pow_31 k Hk). unfold ci_fifo2_num. rewrite E, wrap_sub_l.
  replace (fifo2_rd f + Z.of_nat (length l) - fifo2_rd f) with (Z.of_nat (length l)) by lia. apply wrap_small. lia.
Qed.

Lemma fifo2_num_ok f l : fifo2_holds f l -> ci_fifo2_num f = Z.of_nat (length l) /\
  ci_fifo2_space f = ci_fifo2_capacity f - Z.of_nat (length l) /\ 0 <= Z.of_nat (length l) <= ci_fifo2_capacity f.
Proof.
  intros H. pose proof (fifo2_num_len f l H) as En. destruct H as (k & Hk & Em & _ & Hl & _ & _).
  unfold ci_fifo2_space. rewrite En, (fifo2_cap f k Hk Em). pose proof (pow_31 k Hk).
  split; [done|]. split; [apply wrap_small; lia|lia].
Qed.

Lemma fifo2_empty_ok f l : fifo2_holds f l -> ci_fifo2_is_empty f = true <-> l = [].
Proof.
  intros H. pose proof (fifo2_num_len f l H) as En. destruct H as (k & Hk & Em & Hr & Hl & E & _).
  unfold ci_fifo2_is_empty. rewrite Z.eqb_eq, <- (length_zero l), <- En. unfold ci_fifo2_num. split.
  - intros ->. by rewrite Z.sub_diag.
  - intros H0. unfold ci_fifo2_num in En. rewrite H0 in En. rewrite E, <- En, Z.add_0_r. symmetry. by apply wrap_small.
Qed.

Lemma fifo2_full_ok f l : fifo2_holds f l -> ci_fifo2_is_full f = true <-> Z.of_nat (length l) = ci_fifo2_capacity f.
Proof. intros H. unfold ci_fifo2_is_full. by rewrite Z.eqb_eq, (fifo2_num_len f l H). Qed.

Lemma fifo2_put_ok f l v : fifo2_holds f l -> Z.of_nat (length l) < ci_fifo2_capacity f ->
  exists f', ci_fifo2_put f v = Some f' /\ fifo2_holds f' (l ++ [v]) /\ ci_fifo2_capacity f' = ci_fifo2_capacity f.
Proof.
  intros (k & Hk & Em & Hr & Hl & E & Hs) Hc. rewrite (fifo2_cap f k Hk Em) in Hc. pose proof (pow_31 k Hk).
  assert (Ei : ci_fifo2_wr_i f = (fifo2_rd f + Z.of_nat (length l)) mod 2 ^ k).
  { unfold ci_fifo2_wr_i, CI_FIFO2_M. rewrite Em, E, wrap_wrap. apply mask_u32. lia. }
  pose proof (Z.mod_pos_bound (fifo2_rd f + Z.of_nat (length l)) (2 ^ k) ltac:(lia)) as Hb.
  unfold ci_fifo2_put, ci_fifo2_poke. rewrite decide_True.
  2: { destruct Hs as [Hb' _]. rewrite Ei. apply Nat2Z.inj_lt. rewrite Z2Nat.id by lia. lia. }
  eexists. split; [reflexivity|]. split; [|done]. exists k. cbn.
  rewrite length_app, Nat2Z.inj_add. change (Z.of_nat (length [v])) with 1.
  split; [done|]. split; [done|]. split; [done|]. split; [lia|]. split.
  - rewrite E, wrap_add_l. f_equal. lia.
  - rewrite Ei. by apply slots_put.
Qed.

Lemma fifo2_get_ok f x l : fifo2_holds f (x :: l) ->
  exists f', ci_fifo2_get f = Some (x, f') /\ fifo2_holds f' l /\ ci_fifo2_capacity f' = ci_fifo2_capacity f.
Proof.
  intros (k & Hk & Em & Hr & Hl & E & Hs). apply slots_get in Hs as [Hx Hs].
  assert (Ei : ci_fifo2_rd_i f = fifo2_rd f mod 2 ^ k) by (unfold ci_fifo2_rd_i, CI_FIFO2_M; rewrite Em; apply mask_u32; lia).
  unfold ci_fifo2_get, ci_fifo2_peek. rewrite Ei, Hx. cbn [mbind option_bind]. eexists. split; [reflexivity|]. split; [|done].
  cbn [length] in *. rewrite Nat2Z.inj_succ in *. exists k. cbn.
  split; [done|]. split; [done|]. split; [apply wrap_range; lia|]. split; [lia|]. split.
  - rewrite E, wrap_add_l. f_equal. lia.
  - eapply slots_start; [|exact Hs]. unfold wrap. symmetry. apply Z.mod_mod_divide.
    exists (2 ^ (32 - k)). rewrite <- Z.pow_add_r by lia. f_equal. lia.
Qed.

#[export] Instance fifo2_queue : BoundedQueue A (fifo2 A) := {
  q_cap := ci_fifo2_capacity; q_num := ci_fifo2_num; q_space := ci_fifo2_space;
  q_is_empty := ci_fifo2_is_empty; q_is_full := ci_fifo2_is_full; q_put := ci_fifo2_put; q_get := ci_fifo2_get;
  q_holds := fifo2_holds; q_num_ok := fifo2_num_ok; q_empty_ok := fifo2_empty_ok; q_full_ok := fifo2_full_ok;
  q_put_ok := fifo2_put_ok; q_get_ok := fifo2_get_ok
}.
End Fifo2Instance.

(** ** Runs of operations *)

Section Client.
Context {A F : Type} `{BoundedQueue A F}.

(** A producer and a consumer that test before they act. *)
Inductive qop := QPut (v : A) | QGet.

Definition q_step (f : F) (o : qop) : option (F * option A) :=
  match o with
  | QPut v => if q_is_full f then Some (f, None) else f' ← q_put f v; Some (f', None)
  | QGet => if q_is_empty f then Some (f, None) else '(x, f') ← q_get f; Some (f', Some x)
  end.

Fixpoint q_run (f : F) (os : list qop) : option (F * list (option A)) :=
  match os with
  | [] => Some (f, [])
  | o :: os' => '(f', r) ← q_step f o; '(f'', rs) ← q_run f' os'; Some (f'', r :: rs)
  end.

(** The same on a list that holds at most [cap] elements. *)
Definition spec_step (cap : Z) (l : list A) (o : qop) : list A * option A :=
  match o with
  | QPut v => if Z.of_nat (length l) =? cap then (l, None) else (l ++ [v], None)
  | QGet => match l with [] => ([], None) | x :: l' => (l', Some x) end
  end.

Fixpoint spec_run (cap : Z) (l : list A) (os : list qop) : list A * list (option A) :=
  match os with
  | [] => (l, [])
  | o :: os' => let '(l', r) := spec_step cap l o in let '(l'', rs) := spec_run cap l' os' in (l'', r :: rs)
  end.

Lemma q_step_ok f l o : q_holds f l -> exists f', q_step f o = Some (f', (spec_step (q_cap f) l o).2) /\
  q_holds f' (spec_step (q_cap f) l o).1 /\ q_cap f' = q_cap f.
Proof.
  intros Hh. destruct (q_num_ok f l Hh) as (_ & _ & Hn). destruct o as [v|]; cbn [q_step spec_step].
  - destruct (q_is_full f) eqn:Ef.
    + apply (q_full_ok f l Hh) in Ef. rewrite Ef, Z.eqb_refl. by exists f.
    + assert (Hne : Z.of_nat (length l) <> q_cap f) by (intros E; apply (q_full_ok f l Hh) in E; congruence).
      rewrite (proj2 (Z.eqb_neq _ _) Hne). destruct (q_put_ok f l v Hh) as (f' & E & Hh' & Hc); [lia|].
      exists f'. by rewrite E.
  - destruct l as [|x l].
    + rewrite (proj2 (q_empty_ok f [] Hh) eq_refl). by exists f.
    + destruct (q_is_empty f) eqn:Ee; [by apply (q_empty_ok f _ Hh) in Ee|].
      destruct (q_get_ok f x l Hh) as (f' & E & Hh' & Hc). exists f'. by rewrite E.
Qed.

Lemma q_run_ok f l os : q_holds f l -> exists f', q_run f os = Some (f', (spec_run (q_cap f) l os).2) /\
  q_holds f' (spec_run (q_cap f) l os).1.
Proof.
  revert f l. induction os as [|o os IH]; intros f l Hh; [by exists f|]. cbn [q_run spec_run].
  destruct (q_step_ok f l o Hh) as (f1 & E & Hh1 & Hc). rewrite E. cbn [mbind option_bind].
  destruct (spec_step (q_cap f) l o) as [l1 r]. cbn [fst snd] in *.
  destruct (IH f1 l1 Hh1) as (f2 & E2 & Hh2). rewrite E2, Hc in *. cbn [mbind option_bind].
  destruct (spec_run (q_cap f) l1 os) as [l2 rs]. cbn [fst snd] in *. by exists f2.
Qed.
End Client.
Arguments qop : clear implicits.

Lemma fifo_ctor_ok {A} (mem : list A) cap : 1 <= cap < 2 ^ 31 -> Z.of_nat (length mem) = cap + 1 ->
  exists f, ci_fifo_ctor cap (Some mem) = Some (f, 0) /\ fifo_holds f [] /\ ci_fifo_capacity f = cap.
Proof.
  intros Hc Hm. unfold ci_fifo_ctor, ci_fifo_init. rewrite wrap_small by lia. cbn [default].
  assert (Hv : ci_fifo_valid (Fifo (cap + 1) 0 0 mem) = true).
  { unfold ci_fifo_valid. cbn. rewrite !andb_true_iff, !Z.ltb_lt. lia. }
  cbn in *. rewrite Hv. eexists. split; [done|]. unfold fifo_holds, ci_fifo_capacity. cbn. split.
  - split; [lia|]. split; [lia|]. split; [lia|]. split; [by rewrite Z.mod_0_l by lia|]. by apply slots_empty.
  - rewrite wrap_small by lia. lia.
Qed.

Lemma fifo2_ctor_ok {A} (mem : list A) k : 0 <= k <= 31 -> Z.of_nat (length mem) = 2 ^ k ->
  exists f, ci_fifo2_ctor (2 ^ k) (Some mem) = Some (f, 0) /\ fifo2_holds f [] /\ ci_fifo2_capacity f = 2 ^ k.
Proof.
  intros Hk Hm. pose proof (pow_31 k Hk). unfold ci_fifo2_ctor, ci_fifo2_init.
  assert (Hp : CI_IS_POW2 (2 ^ k) = true).
  { pose proof (mask_pow2 k ltac:(lia)) as Hp. rewrite Z.ones_equiv, wrap_small in Hp by lia.
    by replace (Z.pred (2 ^ k) + 1) with (2 ^ k) in Hp by lia. }
  rewrite Hp, wrap_small by lia. replace (2 ^ k - 1) with (Z.ones k) by (rewrite Z.ones_equiv; lia).
  set (f := Fifo2 (Z.ones k) 0 0 mem).
  change (exists f', (if ci_fifo2_valid f then Some (f, 0) else None) = Some (f', 0) /\ fifo2_holds f' [] /\ ci_fifo2_capacity f' = 2 ^ k).
  assert (Hh : fifo2_holds f []).
  { exists k. cbn. split; [done|]. split; [done|]. split; [lia|]. split; [lia|]. split; [done|]. by apply slots_empty. }
  pose proof (fifo2_cap f k Hk eq_refl) as Hc. assert (Hv : ci_fifo2_valid f = true).
  { unfold ci_fifo2_valid. rewrite (fifo2_num_len f [] Hh), Hc. change (fifo_mask f) with (Z.ones k).
    rewrite mask_pow2 by lia. change (u32 (i32 (Z.of_nat (length [])))) with 0. apply Z.leb_le. lia. }
  rewrite Hv. by exists f.
Qed.

(** C18: both ring buffers are bounded queues.  From the constructor on, any
    sequence of guarded puts and gets returns what a list bounded by the
    capacity returns, across any number of wrap-arounds of the indices, and
    never leaves the buffer; the first kind holds [cap] elements in a buffer of
    [cap + 1], the power-of-two kind all [2^k] of its buffer. *)
Theorem fifos_are_bounded_queues {A} (mem mem2 : list A) cap k os : 1 <= cap < 2 ^ 31 -> 0 <= k <= 31 ->
  Z.of_nat (length mem) = cap + 1 -> Z.of_nat (length mem2) = 2 ^ k ->
  (exists f f', ci_fifo_ctor cap (Some mem) = Some (f, 0) /\ q_run f os = Some (f', (spec_run cap [] os).2) /\
     ci_fifo_num f' = Z.of_nat (length (spec_run cap [] os).1)) /\
  (exists f f', ci_fifo2_ctor (2 ^ k) (Some mem2) = Some (f, 0) /\ q_run f os = Some (f', (spec_run (2 ^ k) [] os).2) /\
     ci_fifo2_num f' = Z.of_nat (length (spec_run (2 ^ k) [] os).1)).
Proof.
  intros Hc Hk Hm Hm2. split.
  - destruct (fifo_ctor_ok mem cap Hc Hm) as (f & E & Hh & Hcap). destruct (@q_run_ok A (fifo A) fifo_queue f [] os Hh) as (f' & R & Hh').
    cbn [q_cap fifo_queue] in *. rewrite Hcap in *. exists f, f'. split; [done|]. split; [done|].
    by apply fifo_num_ok in Hh' as [? _].
  - destruct (fifo2_ctor_ok mem2 k Hk Hm2) as (f & E & Hh & Hcap). destruct (@q_run_ok A (fifo2 A) fifo2_queue f [] os Hh) as (f' & R & Hh').
    cbn [q_cap fifo2_queue] in *. rewrite Hcap in *. exists f, f'. split; [done|]. split; [done|].
    by apply fifo2_num_ok in Hh' as [? _].
Qed.

Lemma fifos_are_bounded_queues_witness :
  exists f f', ci_fifo2_ctor (2 ^ 1) (Some [0; 0]) = Some (f, 0) /\
    q_run f [QPut 7; QPut 8; QPut 9; QGet; QPut 10; QGet; QGet; QGet]
    = Some (f', [None; None; None; Some 7; None; Some 8; Some 10; None]).
Proof.
  destruct (fifos_are_bounded_queues [0; 0; 0] [0; 0] 2 1 [QPut 7; QPut 8; QPut 9; QGet; QPut 10; QGet; QGet; QGet])
    as [_ (f & f' & E & R & _)]; [lia|lia|done|done|].
  exists f, f'. split; [exact E|exact R].
Defined.
