(* ===== verification/Owords.v ===== *)
(** * Owords: bit-fields of 32, 64 and 128-bit words (ci/tools/bitfield.h)

    The descriptors and events of the adapter are words of 32, 64 or 128 bits with
    fields named by their lowest bit and their width.  A word is the number of its
    bits on a little-endian host, the alternatives [u32] and [u64] of the unions
    are views of it.  Every shift is checked: a count that is negative or not below
    the width of the shifted type is undefined behaviour, [None]. *)

From Stdlib Require Import ZArith Lia.
From S2P Require Import Prelude BitField IpAddr.

(** ** Shifts, complement and views of C *)

Definition c_shl (w x n : Z) : option Z :=
  if (0 <=? n) && (n <? w) then Some (wrap w (Z.shiftl x n)) else None.

Definition c_shr (w x n : Z) : option Z :=
  if (0 <=? n) && (n <? w) then Some (Z.shiftr x n) else None.

Definition c_not (w x : Z) : Z := wrap w (Z.lnot x).

(** [x] with the [w] bits from bit [o] replaced by those of [v]. *)
Definition setbits (o w v x : Z) : Z :=
  Z.lor (Z.ldiff x (Z.shiftl (Z.ones w) o)) (Z.shiftl (Z.land v (Z.ones w)) o).

(** Member [i] of the view of a word as an array of [u]-bit integers, and a store
    to it. *)
Definition word (u i x : Z) : Z := getbits (u * i) u x.
Definition set_word (u i e x : Z) : Z := setbits (u * i) u e x.

(** The inclusive or of expressions, undefined when one of them is. *)
Fixpoint ors (l : list (option Z)) : option Z :=
  match l with
  | [] => Some 0
  | e :: l' => x ← e; y ← ors l'; Some (Z.lor x y)
  end.

(** ** Fields *)

Record field := Field { LBN : Z; WIDTH : Z }.

Definition CI_DUMMY_FIELD : field := Field 0 0.

Definition CI_BYTE_0 : field := Field 0 8.
Definition CI_BYTE_1 : field := Field 8 8.
Definition CI_BYTE_2 : field := Field 16 8.
Definition CI_BYTE_3 : field := Field 24 8.
Definition CI_DWORD_0 : field := Field 0 32.
Definition CI_DWORD_1 : field := Field 32 32.
Definition CI_DWORD_2 : field := Field 64 32.
Definition CI_DWORD_3 : field := Field 96 32.
Definition CI_QWORD_0 : field := Field 0 64.
Definition CI_QWORD_1 : field := Field 64 64.

Definition CI_BITFIELD_LOW_BIT (f : field) : Z := LBN f.
Definition CI_BITFIELD_WIDTH (f : field) : Z := WIDTH f.
Definition CI_BITFIELD_HIGH_BIT (f : field) : Z :=
  CI_BITFIELD_LOW_BIT f + CI_BITFIELD_WIDTH f - 1.

Definition CI_BITFIELD_MASK64 (_width : Z) : option Z :=
  if _width =? 64 then Some (c_not 64 0) else x ← c_shl 64 1 _width; Some (u64 (x - 1)).

Definition CI_BITFIELD_MASK32 (_width : Z) : option Z :=
  if _width =? 32 then Some (c_not 32 0) else x ← c_shl 32 1 _width; Some (u32 (x - 1)).

(** ** Extraction

    The first argument of the three macros on elements is the width of the type of
    [_element], in which C evaluates the shift. *)

Definition CI_BITFIELD_EXTRACT_NATIVE (w _element _min _max _low _high : Z) : option Z :=
  if (_max <? _low) || (_high <? _min) then Some 0
  else if _min <? _low then c_shr w _element (_low - _min)
  else c_shl w _element (_min - _low).

Definition CI_BITFIELD_EXTRACT64 (w _element _min _max _low _high : Z) : option Z :=
  CI_BITFIELD_EXTRACT_NATIVE w (CI_BSWAP_LE64 _element) _min _max _low _high.

Definition CI_BITFIELD_EXTRACT32 (w _element _min _max _low _high : Z) : option Z :=
  CI_BITFIELD_EXTRACT_NATIVE w (CI_BSWAP_LE32 _element) _min _max _low _high.

Definition CI_EXTRACT_OWORD64 (_oword _low _high : Z) : option Z :=
  e ← ors [CI_BITFIELD_EXTRACT64 64 (word 64 0 _oword) 0 63 _low _high;
           CI_BITFIELD_EXTRACT64 64 (word 64 1 _oword) 64 127 _low _high];
  m ← CI_BITFIELD_MASK64 (_high + 1 - _low);
  Some (Z.land e m).

Definition CI_EXTRACT_QWORD64 (_qword _low _high : Z) : option Z :=
  e ← CI_BITFIELD_EXTRACT64 64 (word 64 0 _qword) 0 63 _low _high;
  m ← CI_BITFIELD_MASK64 (_high + 1 - _low);
  Some (Z.land e m).

Definition CI_EXTRACT_OWORD32 (_oword _low _high : Z) : option Z :=
  e ← ors [CI_BITFIELD_EXTRACT64 32 (word 32 0 _oword) 0 31 _low _high;
           CI_BITFIELD_EXTRACT64 32 (word 32 1 _oword) 32 63 _low _high;
           CI_BITFIELD_EXTRACT64 32 (word 32 2 _oword) 64 95 _low _high;
           CI_BITFIELD_EXTRACT64 32 (word 32 3 _oword) 96 127 _low _high];
  m ← CI_BITFIELD_MASK32 (_high + 1 - _low);
  Some (Z.land e m).

Definition CI_EXTRACT_QWORD32 (_qword _low _high : Z) : option Z :=
  e ← ors [CI_BITFIELD_EXTRACT64 32 (word 32 0 _qword) 0 31 _low _high;
           CI_BITFIELD_EXTRACT64 32 (word 32 1 _qword) 32 63 _low _high];
  m ← CI_BITFIELD_MASK32 (_high + 1 - _low);
  Some (Z.land e m).

Definition CI_EXTRACT_DWORD (_dword _low _high : Z) : option Z :=
  e ← CI_BITFIELD_EXTRACT32 32 (word 32 0 _dword) 0 31 _low _high;
  m ← CI_BITFIELD_MASK32 (_high + 1 - _low);
  Some (Z.land e m).

Definition CI_OWORD_FIELD64 (_oword : Z) (_field : field) : option Z :=
  CI_EXTRACT_OWORD64 _oword (CI_BITFIELD_LOW_BIT _field) (CI_BITFIELD_HIGH_BIT _field).

Definition CI_QWORD_FIELD64 (_qword : Z) (_field : field) : option Z :=
  CI_EXTRACT_QWORD64 _qword (CI_BITFIELD_LOW_BIT _field) (CI_BITFIELD_HIGH_BIT _field).

Definition CI_OWORD_FIELD32 (_oword : Z) (_field : field) : option Z :=
  CI_EXTRACT_OWORD32 _oword (CI_BITFIELD_LOW_BIT _field) (CI_BITFIELD_HIGH_BIT _field).

Definition CI_QWORD_FIELD32 (_qword : Z) (_field : field) : option Z :=
  CI_EXTRACT_QWORD32 _qword (CI_BITFIELD_LOW_BIT _field) (CI_BITFIELD_HIGH_BIT _field).

Definition CI_DWORD_FIELD (_dword : Z) (_field : field) : option Z :=
  CI_EXTRACT_DWORD _dword (CI_BITFIELD_LOW_BIT _field) (CI_BITFIELD_HIGH_BIT _field).

(** ** Tests of a whole word *)

Definition CI_OWORD_IS_ZERO64 (_oword : Z) : bool :=
  Z.lor (word 64 0 _oword) (word 64 1 _oword) =? 0.

Definition CI_QWORD_IS_ZERO64 (_qword : Z) : bool := word 64 0 _qword =? 0.

Definition CI_OWORD_IS_ALL_ONES64 (_oword : Z) : bool :=
  Z.land (word 64 0 _oword) (word 64 1 _oword) =? c_not 64 0.

Definition CI_QWORD_IS_ALL_ONES64 (_qword : Z) : bool := word 64 0 _qword =? c_not 64 0.

Definition CI_OWORD_IS_ZERO32 (_oword : Z) : bool :=
  Z.lor (Z.lor (Z.lor (word 32 0 _oword) (word 32 1 _oword)) (word 32 2 _oword))
    (word 32 3 _oword) =? 0.

Definition CI_QWORD_IS_ZERO32 (_qword : Z) : bool :=
  Z.lor (word 32 0 _qword) (word 32 1 _qword) =? 0.

Definition CI_OWORD_IS_ALL_ONES32 (_oword : Z) : bool :=
  Z.land (Z.land (Z.land (word 32 0 _oword) (word 32 1 _oword)) (word 32 2 _oword))
    (word 32 3 _oword) =? c_not 32 0.

Definition CI_QWORD_IS_ALL_ONES32 (_qword : Z) : bool :=
  Z.lor (word 32 0 _qword) (word 32 1 _qword) =? c_not 64 0.

(** ** Construction *)

Definition CI_BITFIELD_INSERT_NATIVE64 (_min _max _low _high _value : Z) : option Z :=
  if (_max <? _low) || (_low <? _min) then Some 0
  else if _min <? _low then c_shl 64 (u64 _value) (_low - _min)
  else c_shr 64 (u64 _value) (_min - _low).

Definition CI_BITFIELD_INSERT_NATIVE32 (_min _max _low _high _value : Z) : option Z :=
  if (_max <? _low) || (_low <? _min) then Some 0
  else if _min <? _low then c_shl 32 (u32 _value) (_low - _min)
  else c_shr 32 (u32 _value) (_min - _low).

(** The number of bytes of the host's word chooses between the 64-bit and the
    32-bit macros. *)
Section host.
Context (CI_WORD_SIZE : Z).

Definition CI_OWORD_FIELD := if CI_WORD_SIZE =? 8 then CI_OWORD_FIELD64 else CI_OWORD_FIELD32.
Definition CI_QWORD_FIELD := if CI_WORD_SIZE =? 8 then CI_QWORD_FIELD64 else CI_QWORD_FIELD32.
Definition CI_OWORD_IS_ZERO := if CI_WORD_SIZE =? 8 then CI_OWORD_IS_ZERO64 else CI_OWORD_IS_ZERO32.
Definition CI_QWORD_IS_ZERO := if CI_WORD_SIZE =? 8 then CI_QWORD_IS_ZERO64 else CI_QWORD_IS_ZERO32.
Definition CI_OWORD_IS_ALL_ONES :=
  if CI_WORD_SIZE =? 8 then CI_OWORD_IS_ALL_ONES64 else CI_OWORD_IS_ALL_ONES32.
Definition CI_QWORD_IS_ALL_ONES :=
  if CI_WORD_SIZE =? 8 then CI_QWORD_IS_ALL_ONES64 else CI_QWORD_IS_ALL_ONES32.

Definition CI_BITFIELD_INSERT_NATIVE :=
  if CI_WORD_SIZE =? 8 then CI_BITFIELD_INSERT_NATIVE64 else CI_BITFIELD_INSERT_NATIVE32.

(** The width of the type of an insertion. *)
Definition native_bits : Z := if CI_WORD_SIZE =? 8 then 64 else 32.

Definition CI_BITFIELD_INSERT_FIELD_NATIVE (_min _max : Z) (_field : field) (_value : Z) : option Z :=
  CI_BITFIELD_INSERT_NATIVE _min _max (CI_BITFIELD_LOW_BIT _field)
    (CI_BITFIELD_HIGH_BIT _field) _value.

(** The arguments [_field1, _value1, ...] of a macro are a list of pairs; their
    number is part of the name of the macro (eleven where it has none). *)
Definition CI_BITFIELD_INSERT_FIELDS_NATIVE (_min _max : Z) (args : list (field * Z)) : option Z :=
  ors (map (fun '(f, v) => CI_BITFIELD_INSERT_FIELD_NATIVE _min _max f v) args).

Definition CI_BITFIELD_INSERT_FIELDS64 (_min _max : Z) (args : list (field * Z)) : option Z :=
  CI_BSWAP_LE64 <$> CI_BITFIELD_INSERT_FIELDS_NATIVE _min _max args.

Definition CI_BITFIELD_INSERT_FIELDS32 (_min _max : Z) (args : list (field * Z)) : option Z :=
  CI_BSWAP_LE32 <$> CI_BITFIELD_INSERT_FIELDS_NATIVE _min _max args.

Definition CI_POPULATE_OWORD64 (_oword : Z) (args : list (field * Z)) : option Z :=
  e ← CI_BITFIELD_INSERT_FIELDS64 0 63 args;
  let _oword := set_word 64 0 e _oword in
  e ← CI_BITFIELD_INSERT_FIELDS64 64 127 args;
  Some (set_word 64 1 e _oword).

Definition CI_POPULATE_QWORD64 (_qword : Z) (args : list (field * Z)) : option Z :=
  e ← CI_BITFIELD_INSERT_FIELDS64 0 63 args;
  Some (set_word 64 0 e _qword).

Definition CI_POPULATE_OWORD32 (_oword : Z) (args : list (field * Z)) : option Z :=
  e ← CI_BITFIELD_INSERT_FIELDS32 0 31 args;
  let _oword := set_word 32 0 e _oword in
  e ← CI_BITFIELD_INSERT_FIELDS32 32 63 args;
  let _oword := set_word 32 1 e _oword in
  e ← CI_BITFIELD_INSERT_FIELDS32 64 95 args;
  let _oword := set_word 32 2 e _oword in
  e ← CI_BITFIELD_INSERT_FIELDS32 96 127 args;
  Some (set_word 32 3 e _oword).

Definition CI_POPULATE_QWORD32 (_qword : Z) (args : list (field * Z)) : option Z :=
  e ← CI_BITFIELD_INSERT_FIELDS64 0 31 args;
  let _qword := set_word 32 0 e _qword in
  e ← CI_BITFIELD_INSERT_FIELDS64 32 63 args;
  Some (set_word 32 1 e _qword).

Definition CI_POPULATE_DWORD (_dword : Z) (args : list (field * Z)) : option Z :=
  e ← CI_BITFIELD_INSERT_FIELDS32 0 31 args;
  Some (set_word 32 0 e _dword).

Definition CI_POPULATE_OWORD := if CI_WORD_SIZE =? 8 then CI_POPULATE_OWORD64 else CI_POPULATE_OWORD32.
Definition CI_POPULATE_QWORD := if CI_WORD_SIZE =? 8 then CI_POPULATE_QWORD64 else CI_POPULATE_QWORD32.

Definition CI_POPULATE_OWORD_11 := CI_POPULATE_OWORD.
Definition CI_POPULATE_OWORD_10 (_oword : Z) (args : list (field * Z)) : option Z :=
  CI_POPULATE_OWORD_11 _oword ((CI_DUMMY_FIELD, 0) :: args).
Definition CI_POPULATE_OWORD_9 (_oword : Z) (args : list (field * Z)) : option Z :=
  CI_POPULATE_OWORD_10 _oword ((CI_DUMMY_FIELD, 0) :: args).
Definition CI_POPULATE_OWORD_8 (_oword : Z) (args : list (field * Z)) : option Z :=
  CI_POPULATE_OWORD_9 _oword ((CI_DUMMY_FIELD, 0) :: args).
Definition CI_POPULATE_OWORD_7 (_oword : Z) (args : list (field * Z)) : option Z :=
  CI_POPULATE_OWORD_8 _oword ((CI_DUMMY_FIELD, 0) :: args).
Definition CI_POPULATE_OWORD_6 (_oword : Z) (args : list (field * Z)) : option Z :=
  CI_POPULATE_OWORD_7 _oword ((CI_DUMMY_FIELD, 0) :: args).
Definition CI_POPULATE_OWORD_5 (_oword : Z) (args : list (field * Z)) : option Z :=
  CI_POPULATE_OWORD_6 _oword ((CI_DUMMY_FIELD, 0) :: args).
Definition CI_POPULATE_OWORD_4 (_oword : Z) (args : list (field * Z)) : option Z :=
  CI_POPULATE_OWORD_5 _oword ((CI_DUMMY_FIELD, 0) :: args).
Definition CI_POPULATE_OWORD_3 (_oword : Z) (args : list (field * Z)) : option Z :=
  CI_POPULATE_OWORD_4 _oword ((CI_DUMMY_FIELD, 0) :: args).
Definition CI_POPULATE_OWORD_2 (_oword : Z) (args : list (field * Z)) : option Z :=
  CI_POPULATE_OWORD_3 _oword ((CI_DUMMY_FIELD, 0) :: args).
Definition CI_POPULATE_OWORD_1 (_oword : Z) (args : list (field * Z)) : option Z :=
  CI_POPULATE_OWORD_2 _oword ((CI_DUMMY_FIELD, 0) :: args).

Definition CI_POPULATE_QWORD_11 := CI_POPULATE_QWORD.
Definition CI_POPULATE_QWORD_10 (_qword : Z) (args : list (field * Z)) : option Z :=
  CI_POPULATE_QWORD_11 _qword ((CI_DUMMY_FIELD, 0) :: args).
Definition CI_POPULATE_QWORD_9 (_qword : Z) (args : list (field * Z)) : option Z :=
  CI_POPULATE_QWORD_10 _qword ((CI_DUMMY_FIELD, 0) :: args).
Definition CI_POPULATE_QWORD_8 (_qword : Z) (args : list (field * Z)) : option Z :=
  CI_POPULATE_QWORD_9 _qword ((CI_DUMMY_FIELD, 0) :: args).
Definition CI_POPULATE_QWORD_7 (_qword : Z) (args : list (field * Z)) : option Z :=
  CI_POPULATE_QWORD_8 _qword ((CI_DUMMY_FIELD, 0) :: args).
Definition CI_POPULATE_QWORD_6 (_qword : Z) (args : list (field * Z)) : option Z :=
  CI_POPULATE_QWORD_7 _qword ((CI_DUMMY_FIELD, 0) :: args).
Definition CI_POPULATE_QWORD_5 (_qword : Z) (args : list (field * Z)) : option Z :=
  CI_POPULATE_QWORD_6 _qword ((CI_DUMMY_FIELD, 0) :: args).
Definition CI_POPULATE_QWORD_4 (_qword : Z) (args : list (field * Z)) : option Z :=
  CI_POPULATE_QWORD_5 _qword ((CI_DUMMY_FIELD, 0) :: args).
Definition CI_POPULATE_QWORD_3 (_qword : Z) (args : list (field * Z)) : option Z :=
  CI_POPULATE_QWORD_4 _qword ((CI_DUMMY_FIELD, 0) :: args).
Definition CI_POPULATE_QWORD_2 (_qword : Z) (args : list (field * Z)) : option Z :=
  CI_POPULATE_QWORD_3 _qword ((CI_DUMMY_FIELD, 0) :: args).
Definition CI_POPULATE_QWORD_1 (_qword : Z) (args : list (field * Z)) : option Z :=
  CI_POPULATE_QWORD_2 _qword ((CI_DUMMY_FIELD, 0) :: args).

Definition CI_POPULATE_DWORD_11 := CI_POPULATE_DWORD.
Definition CI_POPULATE_DWORD_10 (_dword : Z) (args : list (field * Z)) : option Z :=
  CI_POPULATE_DWORD_11 _dword ((CI_DUMMY_FIELD, 0) :: args).
Definition CI_POPULATE_DWORD_9 (_dword : Z) (args : list (field * Z)) : option Z :=
  CI_POPULATE_DWORD_10 _dword ((CI_DUMMY_FIELD, 0) :: args).
Definition CI_POPULATE_DWORD_8 (_dword : Z) (args : list (field * Z)) : option Z :=
  CI_POPULATE_DWORD_9 _dword ((CI_DUMMY_FIELD, 0) :: args).
Definition CI_POPULATE_DWORD_7 (_dword : Z) (args : list (field * Z)) : option Z :=
  CI_POPULATE_DWORD_8 _dword ((CI_DUMMY_FIELD, 0) :: args).
Definition CI_POPULATE_DWORD_6 (_dword : Z) (args : list (field * Z)) : option Z :=
  CI_POPULATE_DWORD_7 _dword ((CI_DUMMY_FIELD, 0) :: args).
Definition CI_POPULATE_DWORD_5 (_dword : Z) (args : list (field * Z)) : option Z :=
  CI_POPULATE_DWORD_6 _dword ((CI_DUMMY_FIELD, 0) :: args).
Definition CI_POPULATE_DWORD_4 (_dword : Z) (args : list (field * Z)) : option Z :=
  CI_POPULATE_DWORD_5 _dword ((CI_DUMMY_FIELD, 0) :: args).
Definition CI_POPULATE_DWORD_3 (_dword : Z) (args : list (field * Z)) : option Z :=
  CI_POPULATE_DWORD_4 _dword ((CI_DUMMY_FIELD, 0) :: args).
Definition CI_POPULATE_DWORD_2 (_dword : Z) (args : list (field * Z)) : option Z :=
  CI_POPULATE_DWORD_3 _dword ((CI_DUMMY_FIELD, 0) :: args).
Definition CI_POPULATE_DWORD_1 (_dword : Z) (args : list (field * Z)) : option Z :=
  CI_POPULATE_DWORD_2 _dword ((CI_DUMMY_FIELD, 0) :: args).

Definition CI_ZERO_OWORD (_oword : Z) : option Z := CI_POPULATE_OWORD_1 _oword [(CI_DUMMY_FIELD, 0)].
Definition CI_ZERO_QWORD (_qword : Z) : option Z := CI_POPULATE_QWORD_1 _qword [(CI_DUMMY_FIELD, 0)].
Definition CI_ZERO_DWORD (_dword : Z) : option Z := CI_POPULATE_DWORD_1 _dword [(CI_DUMMY_FIELD, 0)].

Definition CI_SET_OWORD (_oword : Z) : Z :=
  let _oword := set_word 32 0 (c_not 32 0) _oword in
  let _oword := set_word 32 1 (c_not 32 0) _oword in
  let _oword := set_word 32 2 (c_not 32 0) _oword in
  set_word 32 3 (c_not 32 0) _oword.

Definition CI_SET_QWORD (_qword : Z) : Z :=
  let _qword := set_word 32 0 (c_not 32 0) _qword in
  set_word 32 1 (c_not 32 0) _qword.

Definition CI_SET_DWORD (_dword : Z) : Z :=
  set_word 32 0 (c_not 32 0) _dword.

(** ** Changing a word in place *)

Definition CI_BITFIELD_INSERT64 (_min _max _low _high _value : Z) : option Z :=
  CI_BSWAP_LE64 <$> CI_BITFIELD_INSERT_NATIVE _min _max _low _high _value.

Definition CI_BITFIELD_INSERT32 (_min _max _low _high _value : Z) : option Z :=
  CI_BSWAP_LE32 <$> CI_BITFIELD_INSERT_NATIVE _min _max _low _high _value.

Definition CI_BITFIELD_INPLACE_MASK64 (_min _max _low _high : Z) : option Z :=
  m ← CI_BITFIELD_MASK64 (_high + 1 - _low);
  CI_BITFIELD_INSERT64 _min _max _low _high m.

Definition CI_BITFIELD_INPLACE_MASK32 (_min _max _low _high : Z) : option Z :=
  m ← CI_BITFIELD_MASK32 (_high + 1 - _low);
  CI_BITFIELD_INSERT32 _min _max _low _high m.

Definition CI_SET_OWORD64 (_oword _low _high _value : Z) : option Z :=
  m ← CI_BITFIELD_INPLACE_MASK64 0 63 _low _high;
  e ← CI_BITFIELD_INSERT64 0 63 _low _high _value;
  let _oword := set_word 64 0 (Z.lor (Z.land (word 64 0 _oword) (c_not native_bits m)) e) _oword in
  m ← CI_BITFIELD_INPLACE_MASK64 64 127 _low _high;
  e ← CI_BITFIELD_INSERT64 64 127 _low _high _value;
  Some (set_word 64 1 (Z.lor (Z.land (word 64 1 _oword) (c_not native_bits m)) e) _oword).

Definition CI_SET_QWORD64 (_qword _low _high _value : Z) : option Z :=
  m ← CI_BITFIELD_INPLACE_MASK64 0 63 _low _high;
  e ← CI_BITFIELD_INSERT64 0 63 _low _high _value;
  Some (set_word 64 0 (Z.lor (Z.land (word 64 0 _qword) (c_not native_bits m)) e) _qword).

Definition CI_SET_OWORD32 (_oword _low _high _value : Z) : option Z :=
  m ← CI_BITFIELD_INPLACE_MASK32 0 31 _low _high;
  e ← CI_BITFIELD_INSERT32 0 31 _low _high _value;
  let _oword := set_word 32 0 (Z.lor (Z.land (word 32 0 _oword) (c_not native_bits m)) e) _oword in
  m ← CI_BITFIELD_INPLACE_MASK32 32 63 _low _high;
  e ← CI_BITFIELD_INSERT32 32 63 _low _high _value;
  let _oword := set_word 32 1 (Z.lor (Z.land (word 32 1 _oword) (c_not native_bits m)) e) _oword in
  m ← CI_BITFIELD_INPLACE_MASK32 64 95 _low _high;
  e ← CI_BITFIELD_INSERT32 64 95 _low _high _value;
  let _oword := set_word 32 2 (Z.lor (Z.land (word 32 2 _oword) (c_not native_bits m)) e) _oword in
  m ← CI_BITFIELD_INPLACE_MASK32 96 127 _low _high;
  e ← CI_BITFIELD_INSERT32 96 127 _low _high _value;
  Some (set_word 32 3 (Z.lor (Z.land (word 32 3 _oword) (c_not native_bits m)) e) _oword).

Definition CI_SET_QWORD32 (_qword _low _high _value : Z) : option Z :=
  m ← CI_BITFIELD_INPLACE_MASK32 0 31 _low _high;
  e ← CI_BITFIELD_INSERT32 0 31 _low _high _value;
  let _qword := set_word 32 0 (Z.lor (Z.land (word 32 0 _qword) (c_not native_bits m)) e) _qword in
  m ← CI_BITFIELD_INPLACE_MASK32 32 63 _low _high;
  e ← CI_BITFIELD_INSERT32 32 63 _low _high _value;
  Some (set_word 32 1 (Z.lor (Z.land (word 32 1 _qword) (c_not native_bits m)) e) _qword).

Definition CI_SET_DWORD32 (_dword _low _high _value : Z) : option Z :=
  m ← CI_BITFIELD_INPLACE_MASK32 0 31 _low _high;
  e ← CI_BITFIELD_INSERT32 0 31 _low _high _value;
  Some (set_word 32 0 (Z.lor (Z.land (word 32 0 _dword) (c_not native_bits m)) e) _dword).

Definition CI_SET_OWORD64_BIT (_oword _bit : Z) : option Z :=
  m ← CI_BITFIELD_INPLACE_MASK64 0 63 _bit _bit;
  let _oword := set_word 64 0 (Z.lor (word 64 0 _oword) m) _oword in
  m ← CI_BITFIELD_INPLACE_MASK64 64 127 _bit _bit;
  Some (set_word 64 1 (Z.lor (word 64 1 _oword) m) _oword).

Definition CI_CLEAR_OWORD64_BIT (_oword _bit : Z) : option Z :=
  m ← CI_BITFIELD_INPLACE_MASK64 0 63 _bit _bit;
  let _oword := set_word 64 0 (Z.land (word 64 0 _oword) (c_not native_bits m)) _oword in
  m ← CI_BITFIELD_INPLACE_MASK64 64 127 _bit _bit;
  Some (set_word 64 1 (Z.land (word 64 1 _oword) (c_not native_bits m)) _oword).

Definition CI_SET_QWORD64_BIT (_qword _bit : Z) : option Z :=
  m ← CI_BITFIELD_INPLACE_MASK64 0 63 _bit _bit;
  Some (set_word 64 0 (Z.lor (word 64 0 _qword) m) _qword).

Definition CI_CLEAR_QWORD64_BIT (_qword _bit : Z) : option Z :=
  m ← CI_BITFIELD_INPLACE_MASK64 0 63 _bit _bit;
  Some (set_word 64 0 (Z.land (word 64 0 _qword) (c_not native_bits m)) _qword).

Definition CI_SET_OWORD32_BIT (_oword _bit : Z) : option Z :=
  m ← CI_BITFIELD_INPLACE_MASK32 0 31 _bit _bit;
  let _oword := set_word 32 0 (Z.lor (word 32 0 _oword) m) _oword in
  m ← CI_BITFIELD_INPLACE_MASK32 32 63 _bit _bit;
  let _oword := set_word 32 1 (Z.lor (word 32 1 _oword) m) _oword in
  m ← CI_BITFIELD_INPLACE_MASK32 64 95 _bit _bit;
  let _oword := set_word 32 2 (Z.lor (word 32 2 _oword) m) _oword in
  m ← CI_BITFIELD_INPLACE_MASK32 96 127 _bit _bit;
  Some (set_word 32 3 (Z.lor (word 32 3 _oword) m) _oword).

Definition CI_CLEAR_OWORD32_BIT (_oword _bit : Z) : option Z :=
  m ← CI_BITFIELD_INPLACE_MASK32 0 31 _bit _bit;
  let _oword := set_word 32 0 (Z.land (word 32 0 _oword) (c_not native_bits m)) _oword in
  m ← CI_BITFIELD_INPLACE_MASK32 32 63 _bit _bit;
  let _oword := set_word 32 1 (Z.land (word 32 1 _oword) (c_not native_bits m)) _oword in
  m ← CI_BITFIELD_INPLACE_MASK32 64 95 _bit _bit;
  let _oword := set_word 32 2 (Z.land (word 32 2 _oword) (c_not native_bits m)) _oword in
  m ← CI_BITFIELD_INPLACE_MASK32 96 127 _bit _bit;
  Some (set_word 32 3 (Z.land (word 32 3 _oword) (c_not native_bits m)) _oword).

Definition CI_SET_QWORD32_BIT (_qword _bit : Z) : option Z :=
  m ← CI_BITFIELD_INPLACE_MASK32 0 31 _bit _bit;
  let _qword := set_word 32 0 (Z.lor (word 32 0 _qword) m) _qword in
  m ← CI_BITFIELD_INPLACE_MASK32 32 63 _bit _bit;
  Some (set_word 32 1 (Z.lor (word 32 1 _qword) m) _qword).

Definition CI_CLEAR_QWORD32_BIT (_qword _bit : Z) : option Z :=
  m ← CI_BITFIELD_INPLACE_MASK32 0 31 _bit _bit;
  let _qword := set_word 32 0 (Z.land (word 32 0 _qword) (c_not native_bits m)) _qword in
  m ← CI_BITFIELD_INPLACE_MASK32 32 63 _bit _bit;
  Some (set_word 32 1 (Z.land (word 32 1 _qword) (c_not native_bits m)) _qword).

Definition CI_SET_DWORD_BIT (_dword _bit : Z) : option Z :=
  m ← CI_BITFIELD_INPLACE_MASK32 0 31 _bit _bit;
  Some (set_word 32 0 (Z.lor (word 32 0 _dword) m) _dword).

Definition CI_CLEAR_DWORD_BIT (_dword _bit : Z) : option Z :=
  m ← CI_BITFIELD_INPLACE_MASK32 0 31 _bit _bit;
  Some (set_word 32 0 (Z.land (word 32 0 _dword) (c_not native_bits m)) _dword).

Definition CI_SET_OWORD_FIELD64 (_oword : Z) (_field : field) (_value : Z) : option Z :=
  CI_SET_OWORD64 _oword (CI_BITFIELD_LOW_BIT _field) (CI_BITFIELD_HIGH_BIT _field) _value.

Definition CI_SET_QWORD_FIELD64 (_qword : Z) (_field : field) (_value : Z) : option Z :=
  CI_SET_QWORD64 _qword (CI_BITFIELD_LOW_BIT _field) (CI_BITFIELD_HIGH_BIT _field) _value.

Definition CI_SET_OWORD_FIELD32 (_oword : Z) (_field : field) (_value : Z) : option Z :=
  CI_SET_OWORD32 _oword (CI_BITFIELD_LOW_BIT _field) (CI_BITFIELD_HIGH_BIT _field) _value.

Definition CI_SET_QWORD_FIELD32 (_qword : Z) (_field : field) (_value : Z) : option Z :=
  CI_SET_QWORD32 _qword (CI_BITFIELD_LOW_BIT _field) (CI_BITFIELD_HIGH_BIT _field) _value.

Definition CI_SET_DWORD_FIELD (_dword : Z) (_field : field) (_value : Z) : option Z :=
  CI_SET_DWORD32 _dword (CI_BITFIELD_LOW_BIT _field) (CI_BITFIELD_HIGH_BIT _field) _value.

Definition CI_SET_DWORD_BIT_FIELD (_dword : Z) (_field : field) : option Z :=
  CI_SET_DWORD_BIT _dword (CI_BITFIELD_LOW_BIT _field).

Definition CI_CLEAR_DWORD_BIT_FIELD (_dword : Z) (_field : field) : option Z :=
  CI_CLEAR_DWORD_BIT _dword (CI_BITFIELD_LOW_BIT _field).

Definition CI_SET_OWORD_FIELD := if CI_WORD_SIZE =? 8 then CI_SET_OWORD_FIELD64 else CI_SET_OWORD_FIELD32.
Definition CI_SET_QWORD_FIELD := if CI_WORD_SIZE =? 8 then CI_SET_QWORD_FIELD64 else CI_SET_QWORD_FIELD32.

End host.

(** ** Bits *)

Lemma getbits_spec o w x k : 0 <= o -> 0 <= w -> 0 <= k ->
  Z.testbit (getbits o w x) k = (k <? w) && Z.testbit x (k + o).
Proof.
  intros. unfold getbits. rewrite Z.land_spec, Z.shiftr_spec by lia. rewrite andb_comm. f_equal.
  destruct (Z.ltb_spec k w); [by apply Z.ones_spec_low|by apply Z.ones_spec_high].
Qed.

Lemma setbits_spec o w v x k : 0 <= o -> 0 <= w -> 0 <= k ->
  Z.testbit (setbits o w v x) k =
    if (o <=? k) && (k <? o + w) then Z.testbit v (k - o) else Z.testbit x k.
Proof.
  intros. unfold setbits. rewrite Z.lor_spec, Z.ldiff_spec, !Z.shiftl_spec by lia.
  destruct (Z.leb_spec o k); simpl.
  2:{ rewrite !(Z.testbit_neg_r _ (k - o)) by lia. by rewrite andb_true_r, orb_false_r. }
  rewrite Z.land_spec. destruct (Z.ltb_spec k (o + w)).
  - rewrite Z.ones_spec_low by lia. by rewrite andb_false_r, andb_true_r.
  - rewrite Z.ones_spec_high by lia. by rewrite andb_true_r, andb_false_r, orb_false_r.
Qed.

Lemma c_not_spec w x k : 0 <= w -> 0 <= k -> Z.testbit (c_not w x) k = (k <? w) && negb (Z.testbit x k).
Proof. intros. unfold c_not. by rewrite wrap_spec, Z.lnot_spec. Qed.

Lemma ones_spec w k : 0 <= w -> 0 <= k -> Z.testbit (Z.ones w) k = (k <? w).
Proof.
  intros. destruct (Z.ltb_spec k w); [by apply Z.ones_spec_low|by apply Z.ones_spec_high].
Qed.

(** Bit [k] of a word lies in its member [k / u], at [k mod u]. *)
Lemma word_spec u i x k : 0 < u -> 0 <= i -> 0 <= k -> k / u = i ->
  Z.testbit (word u i x) (k mod u) = Z.testbit x k.
Proof.
  intros Hu Hi Hk Hd. pose proof (Z.mod_pos_bound k u Hu). unfold word.
  rewrite getbits_spec by nia. rewrite (proj2 (Z.ltb_lt _ _)) by lia. simpl. f_equal.
  rewrite (Z.div_mod k u) at 2 by lia. rewrite Hd. lia.
Qed.

Lemma set_word_spec u i e x k : 0 < u -> 0 <= i -> 0 <= k ->
  Z.testbit (set_word u i e x) k =
    if k / u =? i then Z.testbit e (k mod u) else Z.testbit x k.
Proof.
  intros Hu Hi Hk. unfold set_word. rewrite setbits_spec by nia.
  pose proof (Z.mod_pos_bound k u Hu). pose proof (Z.div_mod k u ltac:(lia)).
  destruct (Z.eqb_spec (k / u) i) as [E|E].
  - rewrite E in *. rewrite (proj2 (Z.leb_le _ _)), (proj2 (Z.ltb_lt _ _)) by lia. simpl.
    f_equal. lia.
  - destruct (Z.leb_spec (u * i) k), (Z.ltb_spec k (u * i + u)); simpl; try done. nia.
Qed.

(** A store to a member leaves the others alone. *)
Lemma word_set_word_ne u i j e x : 0 < u -> 0 <= i -> 0 <= j -> i <> j ->
  word u i (set_word u j e x) = word u i x.
Proof.
  intros. unfold word. apply Z.bits_inj'. intros k Hk. rewrite !getbits_spec by nia.
  destruct (Z.ltb_spec k u); [|done]. simpl. rewrite set_word_spec by nia.
  replace ((k + u * i) / u) with i; [by rewrite (proj2 (Z.eqb_neq i j))|].
  rewrite Z.mul_comm, Z_div_plus_full by lia. rewrite Z.div_small by lia. lia.
Qed.

Lemma mask64_ok w : 0 <= w <= 64 -> CI_BITFIELD_MASK64 w = Some (Z.ones w).
Proof.
  intros. unfold CI_BITFIELD_MASK64. destruct (Z.eqb_spec w 64) as [->|]; [done|].
  unfold c_shl. rewrite (proj2 (Z.leb_le _ _)), (proj2 (Z.ltb_lt _ _)) by lia. simpl.
  pose proof (Z.pow_lt_mono_r 2 w 64). pose proof (Z.pow_pos_nonneg 2 w).
  rewrite Z.shiftl_1_l, !wrap_small; [|lia|rewrite wrap_small; lia].
  by rewrite Z.ones_equiv, Z.sub_1_r.
Qed.

Lemma mask32_ok w : 0 <= w <= 32 -> CI_BITFIELD_MASK32 w = Some (Z.ones w).
Proof.
  intros. unfold CI_BITFIELD_MASK32. destruct (Z.eqb_spec w 32) as [->|]; [done|].
  unfold c_shl. rewrite (proj2 (Z.leb_le _ _)), (proj2 (Z.ltb_lt _ _)) by lia. simpl.
  pose proof (Z.pow_lt_mono_r 2 w 32). pose proof (Z.pow_pos_nonneg 2 w).
  rewrite Z.shiftl_1_l, !wrap_small; [|lia|rewrite wrap_small; lia].
  by rewrite Z.ones_equiv, Z.sub_1_r.
Qed.

(** ** Extraction is exact *)

(** What one member contributes to a field: the bits of the field it holds, at
    their place in the field; garbage only above the field's width. *)
Lemma extract_word u i x low high :
  0 < u -> 0 <= i -> 0 <= low <= high + 1 -> high + 1 - low <= u ->
  exists e, CI_BITFIELD_EXTRACT_NATIVE u (word u i x) (u * i) (u * i + u - 1) low high = Some e /\
    forall k, 0 <= k <= high - low ->
      Z.testbit e k = ((k + low) / u =? i) && Z.testbit x (k + low).
Proof.
  intros Hu Hi Hl Hw. unfold CI_BITFIELD_EXTRACT_NATIVE, c_shl, c_shr.
  assert (forall k, ((k + low) / u =? i) = (u * i <=? k + low) && (k + low <? u * i + u)) as Hin.
  { intros k. pose proof (Z.div_mod (k + low) u ltac:(lia)). pose proof (Z.mod_pos_bound (k + low) u Hu).
    destruct (Z.eqb_spec ((k + low) / u) i), (Z.leb_spec (u * i) (k + low)),
      (Z.ltb_spec (k + low) (u * i + u)); simpl; try done; nia. }
  setoid_rewrite Hin. clear Hin. unfold word.
  destruct (Z.ltb_spec (u * i + u - 1) low); simpl;
    [|destruct (Z.ltb_spec high (u * i)); simpl; [|destruct (Z.ltb_spec (u * i) low)]].
  - eexists; split; [done|]. intros k Hk. rewrite Z.bits_0.
    destruct (Z.ltb_spec (k + low) (u * i + u)); [lia|]. by rewrite andb_false_r.
  - eexists; split; [done|]. intros k Hk. rewrite Z.bits_0.
    by destruct (Z.leb_spec (u * i) (k + low)); [lia|].
  - rewrite (proj2 (Z.leb_le _ _)), (proj2 (Z.ltb_lt _ _)) by lia. simpl.
    eexists; split; [done|]. intros k Hk. rewrite Z.shiftr_spec, getbits_spec by nia.
    replace (k + (low - u * i) + u * i) with (k + low) by lia.
    rewrite (proj2 (Z.leb_le (u * i) _)) by lia. simpl. f_equal.
    destruct (Z.ltb_spec (k + (low - u * i)) u), (Z.ltb_spec (k + low) (u * i + u)); lia.
  - rewrite (proj2 (Z.leb_le _ _)), (proj2 (Z.ltb_lt _ _)) by lia. simpl.
    eexists; split; [done|]. intros k Hk. rewrite wrap_spec, Z.shiftl_spec by lia.
    rewrite (proj2 (Z.ltb_lt k u)), (proj2 (Z.ltb_lt (k + low) _)), andb_true_r by lia. simpl.
    destruct (Z.leb_spec (u * i) (k + low)).
    + rewrite getbits_spec, (proj2 (Z.ltb_lt _ u)) by nia. simpl. f_equal. lia.
    + rewrite Z.testbit_neg_r by lia. done.
Qed.

Lemma land_ones_getbits low w x e : 0 <= low -> 0 <= w ->
  (forall k, 0 <= k < w -> Z.testbit e k = Z.testbit x (k + low)) ->
  Z.land e (Z.ones w) = getbits low w x.
Proof.
  intros Hl Hw He. apply Z.bits_inj'. intros k Hk.
  rewrite Z.land_spec, getbits_spec, ones_spec by lia. rewrite andb_comm.
  destruct (Z.ltb_spec k w); [|done]. by rewrite He.
Qed.

(** A bit of an [n]-member word lies in one of its members. *)
Lemma member_range u n k : 0 < u -> 0 <= k < u * n -> 0 <= k / u < n.
Proof. intros. split; [by apply Z.div_pos; lia|by apply Z.div_lt_upper_bound; lia]. Qed.

Ltac extract_member u i x low high e E H :=
  let X := fresh in
  pose proof (extract_word u i x low high ltac:(lia) ltac:(lia) ltac:(lia) ltac:(lia)) as X;
  let m := eval vm_compute in (u * i) in let n := eval vm_compute in (u * i + u - 1) in
  change (u * i + u - 1) with n in X; change (u * i) with m in X; destruct X as (e & E & H).

Ltac extract_bits := intros k Hk; rewrite ?Z.lor_spec, ?Z.bits_0, ?orb_false_r.

Lemma extract_oword64 x low high : 0 <= low <= high + 1 -> high < 128 -> high + 1 - low <= 64 ->
  CI_EXTRACT_OWORD64 x low high = Some (getbits low (high + 1 - low) x).
Proof.
  intros. extract_member 64 0 x low high e0 E0 H0'. extract_member 64 1 x low high e1 E1 H1'.
  unfold CI_EXTRACT_OWORD64, CI_BITFIELD_EXTRACT64, CI_BSWAP_LE64. cbn [ors].
  rewrite E0, E1. simpl. rewrite mask64_ok by lia. simpl. f_equal.
  apply land_ones_getbits; [lia..|]. extract_bits. rewrite H0', H1' by lia.
  pose proof (member_range 64 2 (k + low)).
  destruct (Z.eqb_spec ((k + low) / 64) 0), (Z.eqb_spec ((k + low) / 64) 1); simpl; try lia;
    by rewrite ?orb_false_r.
Qed.

Lemma extract_qword64 x low high : 0 <= low <= high + 1 -> high < 64 ->
  CI_EXTRACT_QWORD64 x low high = Some (getbits low (high + 1 - low) x).
Proof.
  intros. extract_member 64 0 x low high e0 E0 H0'.
  unfold CI_EXTRACT_QWORD64, CI_BITFIELD_EXTRACT64, CI_BSWAP_LE64.
  rewrite E0. simpl. rewrite mask64_ok by lia. simpl. f_equal.
  apply land_ones_getbits; [lia..|]. extract_bits. rewrite H0' by lia.
  by rewrite (Z.div_small (k + low) 64) by lia.
Qed.

Lemma extract_oword32 x low high : 0 <= low <= high + 1 -> high < 128 -> high + 1 - low <= 32 ->
  CI_EXTRACT_OWORD32 x low high = Some (getbits low (high + 1 - low) x).
Proof.
  intros. extract_member 32 0 x low high e0 E0 H0'. extract_member 32 1 x low high e1 E1 H1'.
  extract_member 32 2 x low high e2 E2 H2'. extract_member 32 3 x low high e3 E3 H3'.
  unfold CI_EXTRACT_OWORD32, CI_BITFIELD_EXTRACT64, CI_BSWAP_LE64. cbn [ors].
  rewrite E0, E1, E2, E3. simpl. rewrite mask32_ok by lia. simpl. f_equal.
  apply land_ones_getbits; [lia..|]. extract_bits. rewrite H0', H1', H2', H3' by lia.
  pose proof (member_range 32 4 (k + low)).
  assert ((k + low) / 32 = 0 \/ (k + low) / 32 = 1 \/ (k + low) / 32 = 2 \/ (k + low) / 32 = 3)
    as [-> | [-> | [-> | ->]]] by lia; simpl; by rewrite ?orb_false_r.
Qed.

Lemma extract_qword32 x low high : 0 <= low <= high + 1 -> high < 64 -> high + 1 - low <= 32 ->
  CI_EXTRACT_QWORD32 x low high = Some (getbits low (high + 1 - low) x).
Proof.
  intros. extract_member 32 0 x low high e0 E0 H0'. extract_member 32 1 x low high e1 E1 H1'.
  unfold CI_EXTRACT_QWORD32, CI_BITFIELD_EXTRACT64, CI_BSWAP_LE64. cbn [ors].
  rewrite E0, E1. simpl. rewrite mask32_ok by lia. simpl. f_equal.
  apply land_ones_getbits; [lia..|]. extract_bits. rewrite H0', H1' by lia.
  pose proof (member_range 32 2 (k + low)).
  assert ((k + low) / 32 = 0 \/ (k + low) / 32 = 1) as [-> | ->] by lia; simpl; by rewrite ?orb_false_r.
Qed.

Lemma extract_dword x low high : 0 <= low <= high + 1 -> high < 32 ->
  CI_EXTRACT_DWORD x low high = Some (getbits low (high + 1 - low) x).
Proof.
  intros. extract_member 32 0 x low high e0 E0 H0'.
  unfold CI_EXTRACT_DWORD, CI_BITFIELD_EXTRACT32, CI_BSWAP_LE32.
  rewrite E0. simpl. rewrite mask32_ok by lia. simpl. f_equal.
  apply land_ones_getbits; [lia..|]. extract_bits. rewrite H0' by lia.
  by rewrite (Z.div_small (k + low) 32) by lia.
Qed.

(** ** Construction is exact *)

(** The fields of a list of arguments, each value at its place. *)
Fixpoint packed (args : list (field * Z)) : Z :=
  match args with
  | [] => 0
  | (f, v) :: args' => Z.lor (Z.shiftl v (LBN f)) (packed args')
  end.

(** A field inside one [u]-bit member of a word of [n] bits, and a value that fits. *)
Definition fits (u n : Z) (fv : field * Z) : Prop :=
  0 <= LBN (fst fv) /\ 0 <= WIDTH (fst fv) /\ LBN (fst fv) mod u + WIDTH (fst fv) <= u /\
  LBN (fst fv) + WIDTH (fst fv) <= n /\ 0 <= snd fv < 2 ^ WIDTH (fst fv).

Definition disjoint_fields (f g : field) : Prop :=
  LBN f + WIDTH f <= LBN g \/ LBN g + WIDTH g <= LBN f.

(** Fields that do not overlap. *)
Fixpoint separate (args : list (field * Z)) : Prop :=
  match args with
  | [] => True
  | (f, _) :: args' => Forall (fun gv => disjoint_fields f (fst gv)) args' /\ separate args'
  end.

Lemma field_bit u n f v k : 0 < u -> fits u n (f, v) -> 0 <= k ->
  Z.testbit (Z.shiftl v (LBN f)) k = true -> LBN f <= k < LBN f + WIDTH f /\ k / u = LBN f / u.
Proof.
  intros Hu (Hl & Hw & Hm & _ & Hv) Hk. simpl in *. rewrite Z.shiftl_spec by lia. intros Hb.
  assert (LBN f <= k < LBN f + WIDTH f) as Hr.
  { destruct (decide (LBN f <= k)); [|rewrite Z.testbit_neg_r in Hb by lia; done].
    destruct (decide (k < LBN f + WIDTH f)); [lia|].
    rewrite (testbit_small v (WIDTH f)) in Hb by lia. done. }
  split; [done|]. pose proof (Z.mod_pos_bound (LBN f) u Hu). pose proof (Z.div_mod (LBN f) u ltac:(lia)).
  symmetry. apply (Z.div_unique_pos _ _ _ (k - u * (LBN f / u))); lia.
Qed.

Section inserting.
Context (CI_WORD_SIZE : Z).

Abbreviation W := (native_bits CI_WORD_SIZE).

Lemma native_bits_cases : W = 64 \/ W = 32.
Proof. unfold native_bits. destruct (_ =? _); auto. Qed.

(** Only the member that holds the lowest bit of a field receives the value. *)
Lemma insert_native_word u i low high v : 0 < u <= W -> 0 <= i -> 0 <= low ->
  CI_BITFIELD_INSERT_NATIVE CI_WORD_SIZE (u * i) (u * i + u - 1) low high v =
    Some (if low / u =? i then wrap W (Z.shiftl v (low mod u)) else 0).
Proof.
  intros Hu Hi Hl. pose proof (Z.div_mod low u ltac:(lia)). pose proof (Z.mod_pos_bound low u ltac:(lia)).
  assert (forall w, 0 < u <= w -> (if (u * i + u - 1 <? low) || (low <? u * i) then Some 0
    else if u * i <? low then c_shl w (wrap w v) (low - u * i) else c_shr w (wrap w v) (u * i - low)) =
    Some (if low / u =? i then wrap w (Z.shiftl v (low mod u)) else 0)) as HI.
  { clear Hu. intros w Hu. destruct (Z.eqb_spec (low / u) i) as [E|E].
    - rewrite E in *. rewrite (proj2 (Z.ltb_ge _ low)), (proj2 (Z.ltb_ge low _)) by lia. simpl.
      unfold c_shl, c_shr. destruct (Z.ltb_spec (u * i) low).
      + rewrite (proj2 (Z.leb_le _ _)), (proj2 (Z.ltb_lt _ w)) by lia. simpl. f_equal.
        rewrite !Z.shiftl_mul_pow2 by lia. unfold wrap. rewrite Zmult_mod_idemp_l. do 3 f_equal. lia.
      + replace (u * i - low) with 0 by lia. replace (low mod u) with 0 by lia.
        rewrite (proj2 (Z.leb_le _ _)), (proj2 (Z.ltb_lt _ w)) by lia. simpl.
        by rewrite Z.shiftr_0_r, Z.shiftl_0_r.
    - destruct (Z.ltb_spec (u * i + u - 1) low), (Z.ltb_spec low (u * i)); simpl; try done. nia. }
  unfold CI_BITFIELD_INSERT_NATIVE, native_bits in *.
  destruct (CI_WORD_SIZE =? 8); by apply HI.
Qed.

(** A list of arguments gives each member its bits of the packed fields. *)
Lemma insert_fields_word u n i args : 0 < u <= W -> 0 <= i -> Forall (fits u n) args ->
  exists e, CI_BITFIELD_INSERT_FIELDS_NATIVE CI_WORD_SIZE (u * i) (u * i + u - 1) args = Some e /\
    forall k, 0 <= k -> k / u = i -> Z.testbit e (k mod u) = Z.testbit (packed args) k.
Proof.
  intros Hu Hi HF. unfold CI_BITFIELD_INSERT_FIELDS_NATIVE.
  induction HF as [|[f v] args Hf _ (e & IH & He)]; cbn [map ors packed].
  { exists 0. split; [done|]. intros. by rewrite !Z.bits_0. }
  rewrite IH. unfold CI_BITFIELD_INSERT_FIELD_NATIVE, CI_BITFIELD_LOW_BIT.
  pose proof Hf as (Hl & _ & Hm & _). simpl in Hl, Hm.
  rewrite (insert_native_word u i) by lia. simpl. eexists; split; [done|]. intros k Hk Hd.
  pose proof (Z.mod_pos_bound k u ltac:(lia)). rewrite !Z.lor_spec, He by done. f_equal.
  pose proof (Z.div_mod k u ltac:(lia)). pose proof (Z.div_mod (LBN f) u ltac:(lia)).
  destruct (Z.eqb_spec (LBN f / u) i) as [E|E].
  - rewrite wrap_spec, (proj2 (Z.ltb_lt _ _)), !Z.shiftl_spec by lia. simpl. f_equal. rewrite E, Hd in *. lia.
  - rewrite Z.bits_0. symmetry. apply not_true_iff_false. intros Hb.
    destruct (field_bit u n f v k) as [_ Hq]; try done; lia.
Qed.

End inserting.

Lemma packed_bound u n args k : 0 < u -> Forall (fits u n) args -> n <= k -> 0 <= k ->
  Z.testbit (packed args) k = false.
Proof.
  intros Hu HF Hk Hk'. induction HF as [|[f v] args Hf _ IH]; cbn [packed]; [apply Z.bits_0|].
  rewrite Z.lor_spec, IH, orb_false_r. apply not_true_iff_false. intros Hb.
  destruct (field_bit u n f v k) as [Hr _]; try done. destruct Hf as (_ & _ & _ & Hn & _). simpl in Hn. lia.
Qed.

(** Every field of the packed word reads back its value. *)
Lemma packed_roundtrip u n args : 0 < u -> Forall (fits u n) args -> separate args ->
  Forall (fun fv => getbits (LBN (fst fv)) (WIDTH (fst fv)) (packed args) = snd fv) args.
Proof.
  intros Hu HF HS. apply Forall_forall. intros [f v] Hin. simpl.
  induction HF as [|[g w] args Hg HF IH]; [by apply not_elem_of_nil in Hin|].
  destruct HS as [Hd HS]. pose proof Hg as (Hl & Hw & _ & _ & Hv). simpl in Hl, Hw, Hv.
  apply Z.bits_inj'. intros k Hk. cbn [packed].
  apply elem_of_cons in Hin as [E|Hin].
  - simplify_eq. rewrite getbits_spec, Z.lor_spec, Z.shiftl_spec by lia.
    destruct (Z.ltb_spec k (WIDTH g)); [|symmetry; by apply (testbit_small w (WIDTH g))]. simpl.
    replace (k + LBN g - LBN g) with k by lia.
    assert (Z.testbit (packed args) (k + LBN g) = false) as ->; [|by rewrite orb_false_r].
    clear IH HS. induction HF as [|[h z] args Hh HF IH]; cbn [packed]; [apply Z.bits_0|].
    apply Forall_cons in Hd as [Hd1 Hd2]. rewrite Z.lor_spec, IH, orb_false_r by done.
    apply not_true_iff_false. intros Hb. destruct (field_bit u n h z (k + LBN g)) as [Hr _]; try done; [lia|].
    unfold disjoint_fields in Hd1. simpl in Hd1. lia.
  - assert (fits u n (f, v)) as (Hl' & Hw' & _) by (by apply (proj1 (Forall_forall _ _) HF)). simpl in Hl', Hw'.
    rewrite <- (IH HS Hin) at 1. rewrite !getbits_spec by lia.
    destruct (Z.ltb_spec k (WIDTH f)); [|done]. simpl. rewrite Z.lor_spec.
    destruct (Z.testbit (Z.shiftl w (LBN g)) (k + LBN f)) eqn:Hb; [|done].
    destruct (field_bit u n g w (k + LBN f)) as [Hr _]; try done; [lia|].
    apply (proj1 (Forall_forall _ _) Hd) in Hin. unfold disjoint_fields in Hin. simpl in Hin. lia.
Qed.

(** Two words that agree member by member agree. *)
Lemma words_ext u n x y : 0 < u -> 0 <= x < 2 ^ (u * n) -> 0 <= y < 2 ^ (u * n) ->
  (forall k, 0 <= k -> k / u < n -> Z.testbit x k = Z.testbit y k) -> x = y.
Proof.
  intros Hu Hx Hy H. apply Z.bits_inj'. intros k Hk.
  destruct (decide (k / u < n)); [by apply H|].
  assert (u * n <= k) by (pose proof (Z.mul_div_le k u Hu); nia).
  by rewrite (testbit_small x (u * n)), (testbit_small y (u * n)).
Qed.

Lemma setbits_nonneg o w v x : 0 <= o -> 0 <= w -> 0 <= x -> 0 <= setbits o w v x.
Proof.
  intros. unfold setbits. apply Z.lor_nonneg. split; [apply Z.ldiff_nonneg; auto|].
  apply Z.shiftl_nonneg, Z.land_nonneg. right. rewrite Z.ones_equiv.
  pose proof (Z.pow_pos_nonneg 2 w). lia.
Qed.

Lemma setbits_range o w v x n : 0 <= o -> 0 <= w -> o + w <= n -> 0 <= x < 2 ^ n ->
  0 <= setbits o w v x < 2 ^ n.
Proof.
  intros Ho Hw Hn Hx. apply bits_range; [lia|by apply setbits_nonneg; lia|]. intros k Hk.
  rewrite setbits_spec by lia. rewrite (proj2 (Z.ltb_ge k (o + w))), andb_false_r by lia.
  by apply (testbit_small x n).
Qed.

Lemma set_word_range u i n e x : 0 < u -> 0 <= i < n -> 0 <= x < 2 ^ (u * n) ->
  0 <= set_word u i e x < 2 ^ (u * n).
Proof. intros. apply setbits_range; nia. Qed.

Lemma packed_range u n args : 0 < u -> 0 <= n -> Forall (fits u n) args -> 0 <= packed args < 2 ^ n.
Proof.
  intros Hu Hn HF. apply bits_range; [done| |intros; by apply (packed_bound u n); [..|lia]].
  induction HF as [|[f v] args (Hl & _ & _ & _ & Hv) _ IH]; simpl in *; [lia|].
  apply Z.lor_nonneg. split; [|done]. apply Z.shiftl_nonneg. lia.
Qed.

(** ** The three kinds of word *)

Inductive kind := KOword | KQword | KDword.

Definition kbits (kd : kind) : Z := match kd with KOword => 128 | KQword => 64 | KDword => 32 end.

Section kinds.
Context (ws : Z).

(** The members the macros of a kind work on. *)
Definition kunit (kd : kind) : Z := match kd with KDword => 32 | _ => native_bits ws end.

(** The macros [CI_POPULATE_..._1] to [CI_POPULATE_..._11], in this order. *)
Definition kpopulate (kd : kind) : list (Z -> list (field * Z) -> option Z) :=
  match kd with
  | KOword => [CI_POPULATE_OWORD_1 ws; CI_POPULATE_OWORD_2 ws; CI_POPULATE_OWORD_3 ws;
      CI_POPULATE_OWORD_4 ws; CI_POPULATE_OWORD_5 ws; CI_POPULATE_OWORD_6 ws; CI_POPULATE_OWORD_7 ws;
      CI_POPULATE_OWORD_8 ws; CI_POPULATE_OWORD_9 ws; CI_POPULATE_OWORD_10 ws; CI_POPULATE_OWORD_11 ws]
  | KQword => [CI_POPULATE_QWORD_1 ws; CI_POPULATE_QWORD_2 ws; CI_POPULATE_QWORD_3 ws;
      CI_POPULATE_QWORD_4 ws; CI_POPULATE_QWORD_5 ws; CI_POPULATE_QWORD_6 ws; CI_POPULATE_QWORD_7 ws;
      CI_POPULATE_QWORD_8 ws; CI_POPULATE_QWORD_9 ws; CI_POPULATE_QWORD_10 ws; CI_POPULATE_QWORD_11 ws]
  | KDword => [CI_POPULATE_DWORD_1 ws; CI_POPULATE_DWORD_2 ws; CI_POPULATE_DWORD_3 ws;
      CI_POPULATE_DWORD_4 ws; CI_POPULATE_DWORD_5 ws; CI_POPULATE_DWORD_6 ws; CI_POPULATE_DWORD_7 ws;
      CI_POPULATE_DWORD_8 ws; CI_POPULATE_DWORD_9 ws; CI_POPULATE_DWORD_10 ws; CI_POPULATE_DWORD_11 ws]
  end.

Definition kfield (kd : kind) : Z -> field -> option Z :=
  match kd with KOword => CI_OWORD_FIELD ws | KQword => CI_QWORD_FIELD ws | KDword => CI_DWORD_FIELD end.

Definition kzero (kd : kind) : Z -> option Z :=
  match kd with KOword => CI_ZERO_OWORD ws | KQword => CI_ZERO_QWORD ws | KDword => CI_ZERO_DWORD ws end.

Lemma kfield_exact kd x f : 0 <= LBN f -> 0 <= WIDTH f <= kunit kd -> LBN f + WIDTH f <= kbits kd ->
  kfield kd x f = Some (getbits (LBN f) (WIDTH f) x).
Proof.
  unfold kunit, native_bits, kfield, CI_OWORD_FIELD, CI_QWORD_FIELD, CI_OWORD_FIELD64, CI_OWORD_FIELD32,
    CI_QWORD_FIELD64, CI_QWORD_FIELD32, CI_DWORD_FIELD, CI_BITFIELD_HIGH_BIT, CI_BITFIELD_LOW_BIT,
    CI_BITFIELD_WIDTH. intros Hl Hw Hn.
  destruct kd, (ws =? 8); simpl in *;
    rewrite ?extract_oword64, ?extract_oword32, ?extract_qword64, ?extract_qword32, ?extract_dword by lia;
    do 2 f_equal; lia.
Qed.

Ltac insert_member u n i HF e E H :=
  let X := fresh in
  pose proof (insert_fields_word ws u n i _ ltac:(lia) ltac:(lia) HF) as X;
  let m := eval vm_compute in (u * i) in let n := eval vm_compute in (u * i + u - 1) in
  change (u * i + u - 1) with n in X; change (u * i) with m in X; destruct X as (e & E & H).

(** Proves that a word whose members were stored one by one is the packed word. *)
Ltac by_members u n :=
  apply (words_ext u n);
    [lia|repeat (apply (set_word_range u _ n); [lia..|]); done|by apply (packed_range u)|];
  let k := fresh "k" in let Hk := fresh "Hk" in let Hd := fresh "Hd" in
  intros k Hk Hd; pose proof (Z.div_pos k u Hk ltac:(lia)); rewrite !set_word_spec by lia;
  repeat (case Z.eqb_spec; intros); eauto; lia.

(** The macros without a number give the packed fields. *)
Lemma populate_oword x args : 0 <= x < 2 ^ 128 -> Forall (fits (kunit KOword) 128) args ->
  CI_POPULATE_OWORD ws x args = Some (packed args).
Proof.
  intros Hx HF. unfold CI_POPULATE_OWORD, kunit, native_bits in *. destruct (ws =? 8) eqn:Hws.
  - assert (native_bits ws = 64) by (unfold native_bits; by rewrite Hws).
    insert_member 64 128 0 HF e0 E0 H0'. insert_member 64 128 1 HF e1 E1 H1'.
    unfold CI_POPULATE_OWORD64, CI_BITFIELD_INSERT_FIELDS64, CI_BSWAP_LE64. rewrite E0, E1. simpl. f_equal.
    by_members 64 2.
  - assert (native_bits ws = 32) by (unfold native_bits; by rewrite Hws).
    insert_member 32 128 0 HF e0 E0 H0'. insert_member 32 128 1 HF e1 E1 H1'.
    insert_member 32 128 2 HF e2 E2 H2'. insert_member 32 128 3 HF e3 E3 H3'.
    unfold CI_POPULATE_OWORD32, CI_BITFIELD_INSERT_FIELDS32, CI_BSWAP_LE32. rewrite E0, E1, E2, E3. simpl.
    f_equal. by_members 32 4.
Qed.

Lemma populate_qword x args : 0 <= x < 2 ^ 64 -> Forall (fits (kunit KQword) 64) args ->
  CI_POPULATE_QWORD ws x args = Some (packed args).
Proof.
  intros Hx HF. unfold CI_POPULATE_QWORD, kunit, native_bits in *. destruct (ws =? 8) eqn:Hws.
  - assert (native_bits ws = 64) by (unfold native_bits; by rewrite Hws).
    insert_member 64 64 0 HF e0 E0 H0'.
    unfold CI_POPULATE_QWORD64, CI_BITFIELD_INSERT_FIELDS64, CI_BSWAP_LE64. rewrite E0. simpl. f_equal.
    by_members 64 1.
  - assert (native_bits ws = 32) by (unfold native_bits; by rewrite Hws).
    insert_member 32 64 0 HF e0 E0 H0'. insert_member 32 64 1 HF e1 E1 H1'.
    unfold CI_POPULATE_QWORD32, CI_BITFIELD_INSERT_FIELDS64, CI_BSWAP_LE64. rewrite E0, E1. simpl.
    f_equal. by_members 32 2.
Qed.

Lemma populate_dword x args : 0 <= x < 2 ^ 32 -> Forall (fits 32 32) args ->
  CI_POPULATE_DWORD ws x args = Some (packed args).
Proof.
  intros Hx HF. pose proof (native_bits_cases ws). insert_member 32 32 0 HF e0 E0 H0'.
  unfold CI_POPULATE_DWORD, CI_BITFIELD_INSERT_FIELDS32, CI_BSWAP_LE32. rewrite E0. simpl. f_equal.
  by_members 32 1.
Qed.

(** The dummy fields in front change nothing. *)
Lemma packed_dummies n args : packed (repeat (CI_DUMMY_FIELD, 0) n ++ args) = packed args.
Proof. induction n as [|n IH]; [done|]. simpl. by rewrite IH. Qed.

Lemma fits_dummies u m n args : 0 < u -> 0 <= m -> Forall (fits u m) args ->
  Forall (fits u m) (repeat (CI_DUMMY_FIELD, 0) n ++ args).
Proof.
  intros. apply Forall_app. split; [|done]. apply Forall_forall. intros fv ->%list_elem_of_In%repeat_spec.
  unfold fits. simpl. rewrite Z.mod_0_l by lia. lia.
Qed.

Lemma kunit_pos kd : 0 < kunit kd.
Proof. unfold kunit. destruct (native_bits_cases ws), kd; lia. Qed.

Lemma kpopulate_packed kd n P x args : kpopulate kd !! n = Some P -> 0 <= x < 2 ^ kbits kd ->
  Forall (fits (kunit kd) (kbits kd)) args -> P x args = Some (packed args).
Proof.
  intros HP Hx HF. rewrite <- (packed_dummies (10 - n) args).
  pose proof (fits_dummies (kunit kd) (kbits kd) (10 - n) _ (kunit_pos kd) ltac:(destruct kd; simpl; lia) HF) as HF'.
  destruct kd;
    [rewrite <- (populate_oword x) by done|rewrite <- (populate_qword x) by done
    |rewrite <- (populate_dword x) by done];
    do 11 (destruct n as [|n]; [injection HP as <-; reflexivity|]); done.
Qed.

End kinds.

(** ** Changing a field *)

(** The macros that change a field in place, by the members they work on. *)
Inductive layout := OW64 | QW64 | OW32 | QW32 | DW32.

Definition lunit (l : layout) : Z := match l with OW64 | QW64 => 64 | _ => 32 end.
Definition lbits (l : layout) : Z := match l with OW64 | OW32 => 128 | QW64 | QW32 => 64 | DW32 => 32 end.

Definition lset (ws : Z) (l : layout) : Z -> field -> Z -> option Z :=
  match l with
  | OW64 => CI_SET_OWORD_FIELD64 ws | QW64 => CI_SET_QWORD_FIELD64 ws
  | OW32 => CI_SET_OWORD_FIELD32 ws | QW32 => CI_SET_QWORD_FIELD32 ws | DW32 => CI_SET_DWORD_FIELD ws
  end.

Definition lfield (l : layout) : Z -> field -> option Z :=
  match l with
  | OW64 => CI_OWORD_FIELD64 | QW64 => CI_QWORD_FIELD64 | OW32 => CI_OWORD_FIELD32
  | QW32 => CI_QWORD_FIELD32 | DW32 => CI_DWORD_FIELD
  end.

Definition lset_bit (ws : Z) (l : layout) : Z -> Z -> option Z :=
  match l with
  | OW64 => CI_SET_OWORD64_BIT ws | QW64 => CI_SET_QWORD64_BIT ws | OW32 => CI_SET_OWORD32_BIT ws
  | QW32 => CI_SET_QWORD32_BIT ws | DW32 => CI_SET_DWORD_BIT ws
  end.

Definition lclear_bit (ws : Z) (l : layout) : Z -> Z -> option Z :=
  match l with
  | OW64 => CI_CLEAR_OWORD64_BIT ws | QW64 => CI_CLEAR_QWORD64_BIT ws | OW32 => CI_CLEAR_OWORD32_BIT ws
  | QW32 => CI_CLEAR_QWORD32_BIT ws | DW32 => CI_CLEAR_DWORD_BIT ws
  end.

Lemma lfield_exact l x f : 0 <= LBN f -> 0 <= WIDTH f <= lunit l -> LBN f + WIDTH f <= lbits l ->
  lfield l x f = Some (getbits (LBN f) (WIDTH f) x).
Proof.
  unfold lfield, CI_OWORD_FIELD64, CI_OWORD_FIELD32, CI_QWORD_FIELD64, CI_QWORD_FIELD32, CI_DWORD_FIELD,
    CI_BITFIELD_HIGH_BIT, CI_BITFIELD_LOW_BIT, CI_BITFIELD_WIDTH. intros Hl Hw Hn.
  destruct l; simpl in *;
    rewrite ?extract_oword64, ?extract_oword32, ?extract_qword64, ?extract_qword32, ?extract_dword by lia;
    do 2 f_equal; lia.
Qed.

(** The part of a field of [w] bits from bit [low] inside the member of its lowest
    bit. *)
Definition inside (u low w : Z) : Z := Z.min w (u - low mod u).

Section changing.
Context (ws : Z).

Abbreviation W := (native_bits ws).

(** What an insertion puts into member [i]. *)
Definition placed (u i low v : Z) : Z := if low / u =? i then wrap W (Z.shiftl v (low mod u)) else 0.

Lemma placed_spec u i low v k : 0 < u <= W -> 0 <= low -> 0 <= k -> k / u = i ->
  Z.testbit (placed u i low v) (k mod u) = (low / u =? i) && Z.testbit v (k - low).
Proof.
  intros Hu Hl Hk Hd. unfold placed. destruct (Z.eqb_spec (low / u) i) as [E|E]; [|apply Z.bits_0].
  pose proof (Z.mod_pos_bound k u ltac:(lia)). pose proof (Z.div_mod k u ltac:(lia)).
  pose proof (Z.div_mod low u ltac:(lia)).
  rewrite wrap_spec, (proj2 (Z.ltb_lt _ _)), Z.shiftl_spec by lia. simpl. f_equal. rewrite E, Hd in *. lia.
Qed.

(** A member after clearing the mask and inserting the value: the bits of the word
    with the field replaced. *)
Lemma patch_spec u i low w v x k :
  0 < u <= W -> 0 <= low -> 0 <= w -> 0 <= v < 2 ^ w -> 0 <= k -> k / u = i ->
  Z.testbit (Z.lor (Z.land (word u i x) (c_not W (placed u i low (Z.ones w)))) (placed u i low v)) (k mod u) =
    Z.testbit (setbits low (inside u low w) v x) k.
Proof.
  intros Hu Hl Hw Hv Hk Hd. pose proof (Z.mod_pos_bound k u ltac:(lia)).
  pose proof (Z.mod_pos_bound low u ltac:(lia)).
  assert (0 <= i) by (rewrite <- Hd; apply Z.div_pos; lia).
  assert (0 <= inside u low w) by (unfold inside; lia).
  rewrite Z.lor_spec, Z.land_spec, word_spec, c_not_spec, !placed_spec, setbits_spec by lia.
  rewrite (proj2 (Z.ltb_lt (k mod u) W)) by lia. simpl.
  pose proof (Z.div_mod k u ltac:(lia)). pose proof (Z.div_mod low u ltac:(lia)). rewrite Hd in *.
  destruct (Z.leb_spec low k); simpl.
  2:{ rewrite !(Z.testbit_neg_r _ (k - low)) by lia.
      by rewrite !andb_false_r, andb_true_r, orb_false_r. }
  rewrite ones_spec by lia. unfold inside.
  destruct (Z.eqb_spec (low / u) i) as [E|E]; simpl.
  - rewrite E in *. destruct (Z.ltb_spec (k - low) w); simpl.
    + rewrite (proj2 (Z.ltb_lt k _)) by lia. by rewrite andb_false_r.
    + rewrite (proj2 (Z.ltb_ge k _)) by lia. rewrite (testbit_small v w) by lia.
      by rewrite andb_true_r, orb_false_r.
  - rewrite (proj2 (Z.ltb_ge k _)) by nia. by rewrite andb_true_r, orb_false_r.
Qed.

Lemma insert64_ok i _min _max low high v : _min = 64 * i -> _max = 64 * i + 63 -> 64 <= W -> 0 <= i ->
  0 <= low -> CI_BITFIELD_INSERT64 ws _min _max low high v = Some (placed 64 i low v).
Proof.
  intros -> -> HW Hi Hl. unfold CI_BITFIELD_INSERT64, CI_BSWAP_LE64.
  replace (64 * i + 63) with (64 * i + 64 - 1) by lia. by rewrite (insert_native_word ws 64 i) by lia.
Qed.

Lemma insert32_ok i _min _max low high v : _min = 32 * i -> _max = 32 * i + 31 -> 0 <= i ->
  0 <= low -> CI_BITFIELD_INSERT32 ws _min _max low high v = Some (placed 32 i low v).
Proof.
  intros -> -> Hi Hl. unfold CI_BITFIELD_INSERT32, CI_BSWAP_LE32. pose proof (native_bits_cases ws).
  replace (32 * i + 31) with (32 * i + 32 - 1) by lia. by rewrite (insert_native_word ws 32 i) by lia.
Qed.

Lemma mask64_inplace i _min _max low high : _min = 64 * i -> _max = 64 * i + 63 -> 64 <= W -> 0 <= i ->
  0 <= low -> 0 <= high + 1 - low <= 64 ->
  CI_BITFIELD_INPLACE_MASK64 ws _min _max low high = Some (placed 64 i low (Z.ones (high + 1 - low))).
Proof.
  intros. unfold CI_BITFIELD_INPLACE_MASK64. rewrite mask64_ok by done. by apply insert64_ok.
Qed.

Lemma mask32_inplace i _min _max low high : _min = 32 * i -> _max = 32 * i + 31 -> 0 <= i ->
  0 <= low -> 0 <= high + 1 - low <= 32 ->
  CI_BITFIELD_INPLACE_MASK32 ws _min _max low high = Some (placed 32 i low (Z.ones (high + 1 - low))).
Proof.
  intros. unfold CI_BITFIELD_INPLACE_MASK32. rewrite mask32_ok by done. by apply insert32_ok.
Qed.

(** Proves that a word whose members were patched one by one is the word with the
    field replaced. *)
Ltac by_patches u n spec :=
  rewrite ?word_set_word_ne by lia; apply (words_ext u n);
    [lia|repeat (apply (set_word_range u _ n); [lia..|]); done|apply setbits_range; (done || unfold inside in *; lia)|];
  let k := fresh "k" in let Hk := fresh "Hk" in let Hd := fresh "Hd" in
  intros k Hk Hd; pose proof (Z.div_pos k u Hk ltac:(lia)); rewrite !set_word_spec by lia;
  repeat (case Z.eqb_spec; intros); solve [by apply spec; lia|lia].

Section one_field.
Context (x low high v : Z) (Hlow : 0 <= low) (Hv : 0 <= v < 2 ^ (high + 1 - low)).

Lemma set_oword64_ok : 64 <= W -> 0 <= x < 2 ^ 128 -> 0 <= high + 1 - low <= 64 -> high < 128 ->
  CI_SET_OWORD64 ws x low high v = Some (setbits low (inside 64 low (high + 1 - low)) v x).
Proof.
  intros. unfold CI_SET_OWORD64. rewrite (mask64_inplace 0 0 63), (mask64_inplace 1 64 127) by lia. simpl.
  rewrite (insert64_ok 0 0 63), (insert64_ok 1 64 127) by lia. simpl. f_equal.
  pose proof (Z.mod_pos_bound low 64 ltac:(lia)). by_patches 64 2 patch_spec.
Qed.

Lemma set_qword64_ok : 64 <= W -> 0 <= x < 2 ^ 64 -> 0 <= high + 1 - low -> high < 64 ->
  CI_SET_QWORD64 ws x low high v = Some (setbits low (inside 64 low (high + 1 - low)) v x).
Proof.
  intros. unfold CI_SET_QWORD64. rewrite (mask64_inplace 0 0 63) by lia. simpl.
  rewrite (insert64_ok 0 0 63) by lia. simpl. f_equal.
  pose proof (Z.mod_pos_bound low 64 ltac:(lia)). by_patches 64 1 patch_spec.
Qed.

Lemma set_oword32_ok : 0 <= x < 2 ^ 128 -> 0 <= high + 1 - low <= 32 -> high < 128 ->
  CI_SET_OWORD32 ws x low high v = Some (setbits low (inside 32 low (high + 1 - low)) v x).
Proof.
  intros. unfold CI_SET_OWORD32. pose proof (native_bits_cases ws).
  rewrite (mask32_inplace 0 0 31), (mask32_inplace 1 32 63), (mask32_inplace 2 64 95), (mask32_inplace 3 96 127) by lia. simpl.
  rewrite (insert32_ok 0 0 31), (insert32_ok 1 32 63), (insert32_ok 2 64 95), (insert32_ok 3 96 127) by lia. simpl. f_equal.
  pose proof (Z.mod_pos_bound low 32 ltac:(lia)). by_patches 32 4 patch_spec.
Qed.

Lemma set_qword32_ok : 0 <= x < 2 ^ 64 -> 0 <= high + 1 - low <= 32 -> high < 64 ->
  CI_SET_QWORD32 ws x low high v = Some (setbits low (inside 32 low (high + 1 - low)) v x).
Proof.
  intros. unfold CI_SET_QWORD32. pose proof (native_bits_cases ws).
  rewrite (mask32_inplace 0 0 31), (mask32_inplace 1 32 63) by lia. simpl.
  rewrite (insert32_ok 0 0 31), (insert32_ok 1 32 63) by lia. simpl. f_equal.
  pose proof (Z.mod_pos_bound low 32 ltac:(lia)). by_patches 32 2 patch_spec.
Qed.

Lemma set_dword32_ok : 0 <= x < 2 ^ 32 -> 0 <= high + 1 - low -> high < 32 ->
  CI_SET_DWORD32 ws x low high v = Some (setbits low (inside 32 low (high + 1 - low)) v x).
Proof.
  intros. unfold CI_SET_DWORD32. pose proof (native_bits_cases ws).
  rewrite (mask32_inplace 0 0 31) by lia. simpl. rewrite (insert32_ok 0 0 31) by lia. simpl. f_equal.
  pose proof (Z.mod_pos_bound low 32 ltac:(lia)). by_patches 32 1 patch_spec.
Qed.

End one_field.

Lemma lset_exact l x f v : lunit l <= W -> 0 <= x < 2 ^ lbits l ->
  0 <= LBN f -> 0 <= WIDTH f <= lunit l -> LBN f + WIDTH f <= lbits l -> 0 <= v < 2 ^ WIDTH f ->
  lset ws l x f v = Some (setbits (LBN f) (inside (lunit l) (LBN f) (WIDTH f)) v x).
Proof.
  intros HW Hx Hl Hw Hn Hv.
  unfold lset, CI_SET_OWORD_FIELD64, CI_SET_OWORD_FIELD32, CI_SET_QWORD_FIELD64, CI_SET_QWORD_FIELD32,
    CI_SET_DWORD_FIELD, CI_BITFIELD_HIGH_BIT, CI_BITFIELD_LOW_BIT, CI_BITFIELD_WIDTH.
  assert (LBN f + WIDTH f - 1 + 1 - LBN f = WIDTH f) as Hh by lia.
  destruct l; simpl in *;
    [rewrite set_oword64_ok|rewrite set_qword64_ok|rewrite set_oword32_ok|rewrite set_qword32_ok
    |rewrite set_dword32_ok]; rewrite ?Hh; try done; lia.
Qed.

(** A member with one bit set or cleared is a patch with the values 1 and 0. *)
Lemma set_bit_spec u i b x k : 0 < u <= W -> 0 <= b -> 0 <= k -> k / u = i ->
  Z.testbit (Z.lor (word u i x) (placed u i b (Z.ones 1))) (k mod u) = Z.testbit (setbits b 1 1 x) k.
Proof.
  intros Hu Hb Hk Hd. pose proof (Z.mod_pos_bound k u ltac:(lia)). pose proof (Z.mod_pos_bound b u ltac:(lia)).
  rewrite <- (Z.min_l 1 (u - b mod u)) at 2 by lia. fold (inside u b 1).
  rewrite <- (patch_spec u i) by lia. change (Z.ones 1) with 1.
  rewrite !Z.lor_spec, Z.land_spec, c_not_spec, (proj2 (Z.ltb_lt _ W)) by lia. simpl.
  destruct (Z.testbit (placed _ _ _ _) _); [by rewrite !orb_true_r|]. by rewrite andb_true_r.
Qed.

Lemma clear_bit_spec u i b x k : 0 < u <= W -> 0 <= b -> 0 <= k -> k / u = i ->
  Z.testbit (Z.land (word u i x) (c_not W (placed u i b (Z.ones 1)))) (k mod u) =
    Z.testbit (setbits b 1 0 x) k.
Proof.
  intros Hu Hb Hk Hd. pose proof (Z.mod_pos_bound b u ltac:(lia)).
  rewrite <- (Z.min_l 1 (u - b mod u)) at 2 by lia. fold (inside u b 1).
  rewrite <- (patch_spec u i) by lia. rewrite Z.lor_spec.
  assert (placed u i b 0 = 0) as ->; [|by rewrite Z.bits_0, orb_false_r].
  unfold placed. rewrite Z.shiftl_0_l. destruct (_ =? _); [|done].
  by destruct (native_bits_cases ws) as [-> | ->].
Qed.

Lemma lbit_exact l x b : lunit l <= W -> 0 <= x < 2 ^ lbits l -> 0 <= b < lbits l ->
  lset_bit ws l x b = Some (setbits b 1 1 x) /\ lclear_bit ws l x b = Some (setbits b 1 0 x).
Proof.
  intros HW Hx Hb. pose proof (native_bits_cases ws). assert (b + 1 - b = 1) as Hw by lia.
  destruct l; simpl in *;
    unfold CI_SET_OWORD64_BIT, CI_CLEAR_OWORD64_BIT, CI_SET_QWORD64_BIT, CI_CLEAR_QWORD64_BIT,
      CI_SET_OWORD32_BIT, CI_CLEAR_OWORD32_BIT, CI_SET_QWORD32_BIT, CI_CLEAR_QWORD32_BIT,
      CI_SET_DWORD_BIT, CI_CLEAR_DWORD_BIT.
  - rewrite (mask64_inplace 0 0 63), (mask64_inplace 1 64 127) by lia. simpl. rewrite Hw.
    split; f_equal; [by_patches 64 2 set_bit_spec|by_patches 64 2 clear_bit_spec].
  - rewrite (mask64_inplace 0 0 63) by lia. simpl. rewrite Hw.
    split; f_equal; [by_patches 64 1 set_bit_spec|by_patches 64 1 clear_bit_spec].
  - rewrite (mask32_inplace 0 0 31), (mask32_inplace 1 32 63), (mask32_inplace 2 64 95), (mask32_inplace 3 96 127) by lia.
    simpl. rewrite Hw. split; f_equal; [by_patches 32 4 set_bit_spec|by_patches 32 4 clear_bit_spec].
  - rewrite (mask32_inplace 0 0 31), (mask32_inplace 1 32 63) by lia. simpl. rewrite Hw.
    split; f_equal; [by_patches 32 2 set_bit_spec|by_patches 32 2 clear_bit_spec].
  - rewrite (mask32_inplace 0 0 31) by lia. simpl. rewrite Hw.
    split; f_equal; [by_patches 32 1 set_bit_spec|by_patches 32 1 clear_bit_spec].
Qed.

End changing.

(** ** Correctness *)

(** Bits outside the fields of a packed word are clear. *)
Lemma packed_outside u n args k : 0 < u -> Forall (fits u n) args -> 0 <= k ->
  Forall (fun fv => ~ LBN (fst fv) <= k < LBN (fst fv) + WIDTH (fst fv)) args ->
  Z.testbit (packed args) k = false.
Proof.
  intros Hu HF Hk HO. induction HF as [|[f v] args Hf _ IH]; cbn [packed]; [apply Z.bits_0|].
  apply Forall_cons in HO as [Ho HO]. simpl in Ho. rewrite Z.lor_spec, IH, orb_false_r by done.
  apply not_true_iff_false. intros Hb. by destruct (field_bit u n f v k) as [Hr _].
Qed.

(** On hosts of either word size, each of the 33 macros that populate a word
    (128, 64 or 32 bits, with 1 to 11 fields) is defined, whatever the word held
    before; when the fields do not overlap, lie each inside one machine word of the
    host and the values fit, every field then reads back its value and all other
    bits are clear. *)
Lemma populate_roundtrip ws kd n P x args :
  kpopulate ws kd !! n = Some P -> length args = S n -> 0 <= x < 2 ^ kbits kd ->
  Forall (fits (kunit ws kd) (kbits kd)) args -> separate args ->
  exists y, P x args = Some y /\ 0 <= y < 2 ^ kbits kd /\
    Forall (fun fv => kfield ws kd y (fst fv) = Some (snd fv)) args /\
    (forall k, 0 <= k -> Forall (fun fv => ~ LBN (fst fv) <= k < LBN (fst fv) + WIDTH (fst fv)) args ->
       Z.testbit y k = false).
Proof.
  intros HP _ Hx HF HS. pose proof (kunit_pos ws kd) as Hu.
  pose proof (packed_range _ (kbits kd) args Hu ltac:(by destruct kd) HF).
  exists (packed args). split_and!; [by eapply kpopulate_packed|lia|lia| |].
  - pose proof (packed_roundtrip _ _ _ Hu HF HS) as HR. rewrite Forall_forall in HF, HR |- *.
    intros fv Hin. destruct (HF fv Hin) as (Hl & Hw & Hm & Hn & _).
    pose proof (Z.mod_pos_bound (LBN (fst fv)) _ Hu). rewrite kfield_exact, HR by (done || lia). done.
  - intros k Hk HO. by eapply packed_outside.
Qed.

(** Reading a field of which only the low [n] bits were stored. *)
Lemma getbits_setbits o w n v x : 0 <= o -> 0 <= n <= w -> 0 <= v < 2 ^ w ->
  getbits o w (setbits o n v x) = v <-> getbits (o + n) (w - n) x = Z.shiftr v n.
Proof.
  intros Ho Hn Hv. split; intros H; apply Z.bits_inj'; intros k Hk.
  - rewrite getbits_spec, Z.shiftr_spec by lia. rewrite <- H, getbits_spec, setbits_spec by lia.
    rewrite (proj2 (Z.ltb_ge _ (o + n))), andb_false_r by lia.
    replace (k + n <? w) with (k <? w - n) by (apply eq_true_iff_eq; rewrite !Z.ltb_lt; lia).
    do 2 f_equal. lia.
  - rewrite getbits_spec, setbits_spec by lia. rewrite (proj2 (Z.leb_le o _)) by lia. simpl.
    destruct (Z.ltb_spec k w); [|symmetry; by apply (testbit_small v w)]. simpl.
    destruct (Z.ltb_spec (k + o) (o + n)); [f_equal; lia|].
    replace k with (k - n + n) at 2 by lia. rewrite <- (Z.shiftr_spec v n (k - n)), <- H, getbits_spec by lia.
    rewrite (proj2 (Z.ltb_lt _ (w - n))) by lia. simpl. f_equal. lia.
Qed.

(** Setting and clearing one bit. *)
Lemma setbits_setbit b x : 0 <= b -> setbits b 1 1 x = Z.setbit x b.
Proof.
  intros Hb. apply Z.bits_inj'. intros k Hk. rewrite setbits_spec, Z.setbit_eqb by lia.
  destruct (Z.eqb_spec b k) as [->|]; simpl.
  - by rewrite Z.leb_refl, (proj2 (Z.ltb_lt _ _)), Z.sub_diag by lia.
  - destruct (Z.leb_spec b k), (Z.ltb_spec k (b + 1)); simpl; (lia || done).
Qed.

Lemma setbits_clearbit b x : 0 <= b -> setbits b 1 0 x = Z.clearbit x b.
Proof.
  intros Hb. apply Z.bits_inj'. intros k Hk. rewrite setbits_spec, Z.clearbit_eqb, Z.bits_0 by lia.
  destruct (Z.eqb_spec b k) as [->|]; simpl.
  - by rewrite Z.leb_refl, (proj2 (Z.ltb_lt _ _)), andb_false_r by lia.
  - rewrite andb_true_r. destruct (Z.leb_spec b k), (Z.ltb_spec k (b + 1)); simpl; (lia || done).
Qed.

(** The five macros that set a field in place, on a host whose word is at least
    as wide as the members they work on, change exactly the part of the field that
    lies in the member of its lowest bit.  The field reads back its new value when
    it does not cross into the next member; when it does, the upper part of the
    value is dropped, and it reads back only if the word happened to hold that part
    already.  The macros that set or clear one bit do that and nothing else. *)
Lemma set_field_exact ws l x f v :
  lunit l <= native_bits ws -> 0 <= x < 2 ^ lbits l -> 0 <= LBN f -> 0 <= WIDTH f <= lunit l ->
  LBN f + WIDTH f <= lbits l -> 0 <= v < 2 ^ WIDTH f ->
  let n := inside (lunit l) (LBN f) (WIDTH f) in
  (exists y, lset ws l x f v = Some y /\ 0 <= y < 2 ^ lbits l /\
     (forall k, 0 <= k -> Z.testbit y k =
        if (LBN f <=? k) && (k <? LBN f + n) then Z.testbit v (k - LBN f) else Z.testbit x k) /\
     (LBN f mod lunit l + WIDTH f <= lunit l -> lfield l y f = Some v) /\
     (lfield l y f = Some v <-> getbits (LBN f + n) (WIDTH f - n) x = Z.shiftr v n)) /\
  (forall b, 0 <= b < lbits l ->
     lset_bit ws l x b = Some (Z.setbit x b) /\ lclear_bit ws l x b = Some (Z.clearbit x b)).
Proof.
  intros HW Hx Hl Hw Hn Hv n. assert (0 < lunit l) as Hu by (by destruct l).
  pose proof (Z.mod_pos_bound (LBN f) _ Hu).
  assert (0 <= n <= WIDTH f) by (unfold n, inside; lia). split.
  - exists (setbits (LBN f) n v x). rewrite lset_exact, lfield_exact by done.
    pose proof (setbits_range (LBN f) n v x (lbits l) ltac:(lia) ltac:(lia) ltac:(lia) Hx).
    split_and!; [done|lia|lia| | |].
    + intros k Hk. apply setbits_spec; lia.
    + intros Hm. f_equal. apply getbits_setbits; [lia..|].
      replace n with (WIDTH f) by (unfold n, inside; lia). rewrite Z.sub_diag, Z.shiftr_div_pow2 by lia.
      unfold getbits. rewrite Z.div_small by lia. apply Z.land_0_r.
    + rewrite <- (getbits_setbits (LBN f) (WIDTH f) n) by lia. split; [by intros [= ->]|by intros ->].
  - intros b Hb. destruct (lbit_exact ws l x b HW Hx Hb) as [-> ->].
    by rewrite setbits_setbit, setbits_clearbit by lia.
Qed.

#[export] Instance fits_dec u n fv : Decision (fits u n fv).
Proof. unfold fits. apply _. Defined.

#[export] Instance separate_dec args : Decision (separate args).
Proof. induction args as [|[f v] args IH]; simpl; unfold disjoint_fields; apply _. Defined.

(** Three fields of a 128-bit word, populated over garbage. *)
Lemma populate_roundtrip_witness : exists y,
  CI_POPULATE_OWORD_3 8 12345 [(Field 4 12, 0xabc); (CI_DWORD_1, 77); (CI_QWORD_1, 2 ^ 64 - 1)] = Some y /\
  Forall (fun fv => CI_OWORD_FIELD 8 y (fst fv) = Some (snd fv))
    [(Field 4 12, 0xabc); (CI_DWORD_1, 77); (CI_QWORD_1, 2 ^ 64 - 1)].
Proof.
  destruct (populate_roundtrip 8 KOword 2 (CI_POPULATE_OWORD_3 8) 12345
    [(Field 4 12, 0xabc); (CI_DWORD_1, 77); (CI_QWORD_1, 2 ^ 64 - 1)]) as (y & Hy & _ & HF & _).
  - reflexivity.
  - reflexivity.
  - split; [lia|reflexivity].
  - apply (bool_decide_unpack _). vm_compute. exact I.
  - apply (bool_decide_unpack _). vm_compute. exact I.
  - exists y. split; [exact Hy|exact HF].
Defined.

(** An eight-bit field at bit 60 of a 128-bit word of zeros: only the low four bits
    of the value are stored. *)
Lemma set_field_exact_witness : exists y,
  CI_SET_OWORD_FIELD64 8 0 (Field 60 8) 0xff = Some y /\ y = Z.shiftl 0xf 60 /\
  CI_OWORD_FIELD64 y (Field 60 8) <> Some 0xff.
Proof.
  destruct (set_field_exact 8 OW64 0 (Field 60 8) 0xff) as [(y & Hy & _ & _ & _ & Hr) _];
    [vm_compute; congruence|split; [lia|reflexivity]|simpl; lia|simpl; lia|simpl; lia|split; [lia|reflexivity]|].
  exists y. split; [exact Hy|]. assert (y = Z.shiftl 0xf 60) as -> by (vm_compute in Hy; by injection Hy as <-).
  split; [reflexivity|]. intros E. apply Hr in E. vm_compute in E. discriminate.
Defined.

Lemma word_zero u i x : 0 < u -> 0 <= i -> word u i x = 0 <->
  forall k, 0 <= k -> k / u = i -> Z.testbit x k = false.
Proof.
  intros Hu Hi. split.
  - intros H k Hk Hd. rewrite <- (word_spec u i) by done. by rewrite H, Z.bits_0.
  - intros H. unfold word. apply Z.bits_inj'. intros k Hk. rewrite getbits_spec, Z.bits_0 by nia.
    destruct (Z.ltb_spec k u); [|done]. simpl. apply H; [nia|].
    rewrite Z.mul_comm, Z_div_plus_full, Z.div_small by lia. lia.
Qed.

(** The tests of an octword decide what their names say. *)
Lemma oword_is_zero_exact ws x : 0 <= x < 2 ^ 128 -> CI_OWORD_IS_ZERO ws x = true <-> x = 0.
Proof.
  intros Hx. unfold CI_OWORD_IS_ZERO, CI_OWORD_IS_ZERO64, CI_OWORD_IS_ZERO32.
  destruct (ws =? 8); rewrite Z.eqb_eq, !Z.lor_eq_0_iff, !word_zero by lia; split;
    try (by intros ->; split_and!; intros; apply Z.bits_0).
  - intros [H0 H1]. apply (words_ext 64 2); [lia|done|done|]. intros k Hk Hd. rewrite Z.bits_0.
    pose proof (Z.div_pos k 64 Hk ltac:(lia)).
    assert (k / 64 = 0 \/ k / 64 = 1) as [E|E] by lia; auto.
  - intros [[[H0 H1] H2] H3]. apply (words_ext 32 4); [lia|done|done|]. intros k Hk Hd. rewrite Z.bits_0.
    pose proof (Z.div_pos k 32 Hk ltac:(lia)).
    assert (k / 32 = 0 \/ k / 32 = 1 \/ k / 32 = 2 \/ k / 32 = 3) as [E|[E|[E|E]]] by lia; auto.
Qed.

Lemma land_all_ones u a b : 0 <= u -> 0 <= a < 2 ^ u -> 0 <= b < 2 ^ u ->
  Z.land a b = Z.ones u <-> a = Z.ones u /\ b = Z.ones u.
Proof.
  intros Hu Ha Hb. split; [|by intros [-> ->]; apply Z.land_diag]. intros H.
  assert (forall k, 0 <= k < u -> Z.testbit a k && Z.testbit b k = true) as Hk.
  { intros k Hk. rewrite <- Z.land_spec, H. apply Z.ones_spec_low. lia. }
  split; apply Z.bits_inj'; intros k Hk0; rewrite ones_spec by done; destruct (Z.ltb_spec k u);
    [by specialize (Hk k ltac:(lia)); apply andb_prop in Hk as [-> _]|by apply (testbit_small _ u)
    |by specialize (Hk k ltac:(lia)); apply andb_prop in Hk as [_ ->]|by apply (testbit_small _ u)].
Qed.

Lemma oword_is_all_ones_exact ws x : 0 <= x < 2 ^ 128 ->
  CI_OWORD_IS_ALL_ONES ws x = true <-> x = Z.ones 128.
Proof.
  intros Hx. unfold CI_OWORD_IS_ALL_ONES, CI_OWORD_IS_ALL_ONES64, CI_OWORD_IS_ALL_ONES32.
  assert (forall u i, 0 < u -> 0 <= word u i x < 2 ^ u) as Hw by (intros; apply getbits_range; lia).
  assert (forall u i k, 0 < u -> 0 <= i -> 0 <= k -> k / u = i -> word u i x = Z.ones u ->
    Z.testbit x k = true) as Hb.
  { intros u i k Hu Hi Hk Hd E. rewrite <- (word_spec u i), E by done.
    pose proof (Z.mod_pos_bound k u Hu). by apply Z.ones_spec_low. }
  assert (forall a b u, 0 <= a < 2 ^ u -> 0 <= b < 2 ^ u -> 0 <= u -> 0 <= Z.land a b < 2 ^ u) as Hl.
  { intros a b u Ha Hb' Hu. apply bits_range; [done|apply Z.land_nonneg; lia|].
    intros k Hk. by rewrite Z.land_spec, (testbit_small a u). }
  change (c_not 64 0) with (Z.ones 64). change (c_not 32 0) with (Z.ones 32).
  destruct (ws =? 8); rewrite Z.eqb_eq, !land_all_ones by (repeat first [lia|by apply Hw|apply Hl]);
    (split; [|by intros ->]).
  - intros [H0 H1]. apply (words_ext 64 2); [lia|done|done|]. intros k Hk Hd.
    pose proof (Z.div_pos k 64 Hk ltac:(lia)). pose proof (Z.mod_pos_bound k 64 ltac:(lia)).
    pose proof (Z.div_mod k 64 ltac:(lia)). rewrite ones_spec, (proj2 (Z.ltb_lt k 128)) by lia.
    assert (k / 64 = 0 \/ k / 64 = 1) as [E|E] by lia;
      [by apply (Hb 64 0)|by apply (Hb 64 1)].
  - intros [[[H0 H1] H2] H3]. apply (words_ext 32 4); [lia|done|done|]. intros k Hk Hd.
    pose proof (Z.div_pos k 32 Hk ltac:(lia)). pose proof (Z.mod_pos_bound k 32 ltac:(lia)).
    pose proof (Z.div_mod k 32 ltac:(lia)). rewrite ones_spec, (proj2 (Z.ltb_lt k 128)) by lia.
    assert (k / 32 = 0 \/ k / 32 = 1 \/ k / 32 = 2 \/ k / 32 = 3) as [E|[E|[E|E]]] by lia;
      [by apply (Hb 32 0)|by apply (Hb 32 1)|by apply (Hb 32 2)|by apply (Hb 32 3)].
Qed.

(** A word set to all ones passes the test, on either host. *)
Lemma set_oword_all_ones ws x : 0 <= x < 2 ^ 128 -> CI_OWORD_IS_ALL_ONES ws (CI_SET_OWORD x) = true.
Proof.
  intros Hx. assert (CI_SET_OWORD x = Z.ones 128) as E.
  { unfold CI_SET_OWORD. apply (words_ext 32 4);
      [lia|repeat (apply (set_word_range 32 _ 4); [lia..|]); done|done|].
    intros k Hk Hd. pose proof (Z.div_pos k 32 Hk ltac:(lia)). rewrite !set_word_spec by lia.
    pose proof (Z.mod_pos_bound k 32 ltac:(lia)). pose proof (Z.div_mod k 32 ltac:(lia)).
    change (c_not 32 0) with (Z.ones 32).
    rewrite !ones_spec, (proj2 (Z.ltb_lt _ 32)), (proj2 (Z.ltb_lt k 128)) by lia.
    repeat (case Z.eqb_spec; intros); lia || done. }
  by apply oword_is_all_ones_exact; rewrite E.
Qed.

(** The 32-bit test of a quadword for all ones takes the inclusive or of two 32-bit
    numbers and compares it with a 64-bit constant: it never holds. *)
Lemma qword_all_ones32_never x : CI_QWORD_IS_ALL_ONES32 x = false.
Proof.
  unfold CI_QWORD_IS_ALL_ONES32. apply Z.eqb_neq. intros E.
  assert (Z.testbit (Z.lor (word 32 0 x) (word 32 1 x)) 40 = true) as H by (by rewrite E).
  revert H. rewrite Z.lor_spec. unfold word. by rewrite !getbits_spec by lia.
Qed.
