(* ===== verification/DistQ.v ===== *)
(** * DistQ: the distributed message queue of [ci/tools/distq.h]

    A ring buffer between two processes.  The transmitter keeps the write index and
    reads the receiver's index through a pointer, the receiver the other way round;
    each publishes its own index with a sync.  The memory that both can reach is a
    map from addresses; the model is the build with retransmission and
    acknowledgements ([CI_DISTQ_ACK]), the plain build has the same operations
    without the members [ack_i] and [rt_q]. *)

From Stdlib Require Import ZArith Lia Bool.
From stdpp Require Import gmap.
From S2P Require Import Prelude Fifo.

Section Distq.
Context {A : Type}.

(** ** Memory and structures *)

Record mem := Mem { m_u32 : gmap Z Z; m_mbr : gmap Z (list A) }.

Definition load (m : mem) (p : Z) : option Z := m_u32 m !! p.
Definition store (m : mem) (p v : Z) : option mem :=
  _ ← m_u32 m !! p; Some (Mem (<[p := u32 v]> (m_u32 m)) (m_mbr m)).

(** Element [i] of the array at [q]; an index outside the array is undefined. *)
Definition mbr_get (m : mem) (q i : Z) : option A :=
  l ← m_mbr m !! q; if 0 <=? i then l !! Z.to_nat i else None.
Definition mbr_set (m : mem) (q i : Z) (v : A) : option mem :=
  l ← m_mbr m !! q;
  if (0 <=? i) && (i <? Z.of_nat (length l)) then
    Some (Mem (m_u32 m) (<[q := <[Z.to_nat i := v]> l]> (m_mbr m)))
  else None.

Record rx := Rx { rx_size : Z; rd_i : Z; r_rd_i : Z; p_wr_i : Z; pr_rd_i : Z; rx_q : Z }.

(** [r_wr_i] is indeterminate until the first sync. *)
Record tx := Tx { tx_size : Z; wr_i : Z; r_wr_i : option Z; p_rd_i : Z; pr_wr_i : Z; tx_q : Z;
                  ack_i : Z; rt_q : Z }.

Definition set_rd_i (q : rx) (v : Z) : rx :=
  Rx (rx_size q) v (r_rd_i q) (p_wr_i q) (pr_rd_i q) (rx_q q).
Definition set_wr_i (q : tx) (v : Z) : tx :=
  Tx (tx_size q) v (r_wr_i q) (p_rd_i q) (pr_wr_i q) (tx_q q) (ack_i q) (rt_q q).
Definition set_ack_i (q : tx) (v : Z) : tx :=
  Tx (tx_size q) (wr_i q) (r_wr_i q) (p_rd_i q) (pr_wr_i q) (tx_q q) v (rt_q q).

(** ** Both sides *)

(** A remainder of unsigned numbers; division by zero is undefined. *)
Definition CI_DISTQ_M (size x : Z) : option Z := if size =? 0 then None else Some (u32 x mod size).

Definition ci_distq_capacity (size : Z) : Z := u32 (size - 1).

(** ** Receive *)

Definition ci_distq_is_empty (q : rx) (m : mem) : option bool :=
  w ← load m (p_wr_i q); Some (rd_i q =? w).
Definition ci_distq_not_empty (q : rx) (m : mem) : option bool :=
  w ← load m (p_wr_i q); Some (negb (rd_i q =? w)).
Definition ci_distq_peek (q : rx) (m : mem) : option A := mbr_get m (rx_q q) (rd_i q).
Definition ci_distq_rd_sync_needed (q : rx) : bool := negb (rd_i q =? r_rd_i q).
Definition ci_distq_num (q : rx) (m : mem) : option Z :=
  w ← load m (p_wr_i q); CI_DISTQ_M (rx_size q) (w + rx_size q - rd_i q).
Definition ci_distq_rd_next (q : rx) : option rx :=
  i ← CI_DISTQ_M (rx_size q) (rd_i q + 1); Some (set_rd_i q i).
Definition ci_distq_rd_adv (q : rx) (n : Z) : option rx :=
  i ← CI_DISTQ_M (rx_size q) (rd_i q + n); Some (set_rd_i q i).
Definition ci_distq_rd_sync (q : rx) (m : mem) : option (rx * mem) :=
  m ← store m (pr_rd_i q) (rd_i q);
  Some (Rx (rx_size q) (rd_i q) (rd_i q) (p_wr_i q) (pr_rd_i q) (rx_q q), m).
Definition ci_distq_get (q : rx) (m : mem) : option (A * rx) :=
  v ← ci_distq_peek q m; q ← ci_distq_rd_next q; Some (v, q).

(** ** Transmit *)

Definition ci_distq_is_full (q : tx) (m : mem) : option bool :=
  i ← CI_DISTQ_M (tx_size q) (wr_i q + 1); r ← load m (p_rd_i q); Some (i =? r).
Definition ci_distq_not_full (q : tx) (m : mem) : option bool :=
  i ← CI_DISTQ_M (tx_size q) (wr_i q + 1); r ← load m (p_rd_i q); Some (negb (i =? r)).
(** The assignment [ci_distq_poke(tx) = v]. *)
Definition ci_distq_poke (q : tx) (m : mem) (v : A) : option mem := mbr_set m (tx_q q) (wr_i q) v.
Definition ci_distq_wr_reset (q : tx) (m : mem) : option tx :=
  r ← load m (p_rd_i q); Some (set_wr_i q r).
Definition ci_distq_wr_sync_needed (q : tx) : option bool :=
  r ← r_wr_i q; Some (negb (wr_i q =? r)).
Definition ci_distq_space (q : tx) (m : mem) : option Z :=
  r ← load m (p_rd_i q); CI_DISTQ_M (tx_size q) (r + tx_size q - wr_i q - 1).
Definition ci_distq_wr_next (q : tx) : option tx :=
  i ← CI_DISTQ_M (tx_size q) (wr_i q + 1); Some (set_wr_i q i).
Definition ci_distq_wr_adv (q : tx) (n : Z) : option tx :=
  i ← CI_DISTQ_M (tx_size q) (wr_i q + n); Some (set_wr_i q i).
Definition ci_distq_wr_sync (q : tx) (m : mem) : option (tx * mem) :=
  m ← store m (pr_wr_i q) (wr_i q);
  Some (Tx (tx_size q) (wr_i q) (Some (wr_i q)) (p_rd_i q) (pr_wr_i q) (tx_q q) (ack_i q) (rt_q q), m).
Definition ci_distq_unsent (q : tx) : option Z :=
  r ← r_wr_i q; CI_DISTQ_M (tx_size q) (wr_i q + tx_size q - r).
Definition ci_distq_unacked (q : tx) (m : mem) : option Z :=
  r ← load m (p_rd_i q); CI_DISTQ_M (tx_size q) (wr_i q + tx_size q - r).
Definition ci_distq_put (q : tx) (m : mem) (v : A) : option (tx * mem) :=
  m ← ci_distq_poke q m v; q ← ci_distq_wr_next q; Some (q, m).

(** ** Retransmission *)

Definition ci_distq_ack_wr_reset (q : tx) : tx := set_wr_i q (ack_i q).
Definition ci_distq_ack_is_full (q : tx) : option bool :=
  i ← CI_DISTQ_M (tx_size q) (wr_i q + 1); Some (i =? ack_i q).
Definition ci_distq_ack_not_full (q : tx) : option bool :=
  i ← CI_DISTQ_M (tx_size q) (wr_i q + 1); Some (negb (i =? ack_i q)).
Definition ci_distq_ack_space (q : tx) : option Z :=
  CI_DISTQ_M (tx_size q) (ack_i q + tx_size q - wr_i q - 1).
Definition ci_distq_acked (q : tx) (m : mem) : option bool :=
  r ← load m (p_rd_i q); Some (negb (ack_i q =? r)).
Definition ci_distq_ack_peek (q : tx) (m : mem) : option A := mbr_get m (rt_q q) (ack_i q).
Definition ci_distq_ack_next (q : tx) : option tx :=
  i ← CI_DISTQ_M (tx_size q) (ack_i q + 1); Some (set_ack_i q i).
(** The assignment [ci_distq_rt_poke_rt(tx) = v]. *)
Definition ci_distq_rt_poke_rt (q : tx) (m : mem) (v : A) : option mem := mbr_set m (rt_q q) (wr_i q) v.
Definition ci_distq_rt_put (q : tx) (m : mem) (v : A) : option (tx * mem) :=
  m ← ci_distq_rt_poke_rt q m v; ci_distq_put q m v.
Definition ci_distq_rt_poke (q : tx) (m : mem) (v : A) : option mem :=
  m ← ci_distq_rt_poke_rt q m v; ci_distq_poke q m v.

(** ** The functions of an instance *)

Definition ci_distq_rx_init (size p_wr_i pr_rd_i q_data : Z) (m : mem) : option (rx * mem) :=
  m ← store m p_wr_i 0; Some (Rx size 0 0 p_wr_i pr_rd_i q_data, m).

Definition ci_distq_rx_contig_num (q : rx) (m : mem) : option Z :=
  w ← load m (p_wr_i q);
  if rd_i q <? w then i32 <$> CI_DISTQ_M (rx_size q) (w - rd_i q)
  else Some (i32 (rx_size q - rd_i q)).

Definition ci_distq_rx_free_space (q : rx) (m : mem) : option Z :=
  w ← load m (p_wr_i q); i32 <$> CI_DISTQ_M (rx_size q) (rd_i q + rx_size q - w - 1).

Definition ci_distq_rx_get (q : rx) (m : mem) : option (A * rx) :=
  tmp ← mbr_get m (rx_q q) (rd_i q);
  i ← CI_DISTQ_M (rx_size q) (rd_i q + 1);
  Some (tmp, set_rd_i q i).

(** [old] is what [r_wr_i] held: the function does not set it. *)
Definition ci_distq_tx_init (old : option Z) (size p_rd_i pr_wr_i q_data rt_q_data : Z) (m : mem)
    : option (tx * mem) :=
  m ← store m p_rd_i 0;
  Some (Tx size (u32 (size - 1)) old p_rd_i pr_wr_i q_data 0 rt_q_data, m).

Definition ci_distq_tx_space (q : tx) (m : mem) : option Z :=
  r ← load m (p_rd_i q); i32 <$> CI_DISTQ_M (tx_size q) (r + tx_size q - wr_i q - 1).

Definition ci_distq_tx_contig_space (q : tx) (m : mem) : option Z :=
  r ← load m (p_rd_i q);
  if wr_i q <? r then i32 <$> CI_DISTQ_M (tx_size q) (r - wr_i q - 1)
  else Some (i32 (tx_size q - wr_i q - Z.b2z (r =? 0))).

Definition ci_distq_tx_unacked (q : tx) (m : mem) : option Z :=
  r ← load m (p_rd_i q); i32 <$> CI_DISTQ_M (tx_size q) (wr_i q + tx_size q - r).

Definition ci_distq_tx_put (q : tx) (m : mem) (v : A) : option (tx * mem) :=
  m ← mbr_set m (tx_q q) (wr_i q) v;
  i ← CI_DISTQ_M (tx_size q) (wr_i q + 1);
  Some (set_wr_i q i, m).

(** ** Two processes *)

(** The transmitter puts messages, publishes them and, with retransmission, retires
    the acknowledged ones; the receiver gets messages and acknowledges them.  Each
    step reads or writes at most one of the shared indices, so that a sequence of
    steps is an interleaving of the two processes. *)
Inductive op := OPut (v : A) | OSend | OGet | OAck | ORetire.
Inductive result := Done | Refused | Item (x : A).

Record sys := Sys { s_rx : rx; s_tx : tx; s_mem : mem }.

Definition run_op (rt : bool) (s : sys) (o : op) : option (sys * result) :=
  let '(Sys r t m) := s in
  match o with
  | OPut v =>
      full ← (if rt then ci_distq_ack_is_full t else ci_distq_is_full t m);
      if full : bool then Some (s, Refused)
      else '(t, m) ← (if rt then ci_distq_rt_put t m v else ci_distq_put t m v); Some (Sys r t m, Done)
  | OSend => '(t, m) ← ci_distq_wr_sync t m; Some (Sys r t m, Done)
  | OGet =>
      empty ← ci_distq_is_empty r m;
      if empty : bool then Some (s, Refused)
      else '(x, r) ← ci_distq_get r m; Some (Sys r t m, Item x)
  | OAck => '(r, m) ← ci_distq_rd_sync r m; Some (Sys r t m, Done)
  | ORetire =>
      if negb rt then Some (s, Refused) else
      a ← ci_distq_acked t m;
      if negb a then Some (s, Refused)
      else x ← ci_distq_ack_peek t m; t ← ci_distq_ack_next t; Some (Sys r t m, Item x)
  end.

Fixpoint run (rt : bool) (s : sys) (os : list op) : option (sys * list result) :=
  match os with
  | [] => Some (s, [])
  | o :: os' => '(s', x) ← run_op rt s o; '(s'', xs) ← run rt s' os'; Some (s'', x :: xs)
  end.

(** Both ends set up on cells [pw] and [pr] and arrays [qa] and [ra], and the write
    index brought to the receiver's. *)
Definition connect (old : option Z) (size pw pr qa ra : Z) (m : mem) : option sys :=
  '(r, m) ← ci_distq_rx_init size pw pr qa m;
  '(t, m) ← ci_distq_tx_init old size pr pw qa ra m;
  t ← ci_distq_wr_reset t m;
  Some (Sys r t m).

(** ** The channel they implement *)

(** Messages by how far they got: acknowledged but not retired, received but not
    acknowledged, sent but not received, put but not sent. *)
Record chan := Chan { acks : list A; held : list A; flight : list A; unsent : list A }.

Definition outstanding (c : chan) : list A := acks c ++ held c ++ flight c ++ unsent c.

Definition chan_op (rt : bool) (cap : Z) (c : chan) (o : op) : chan * result :=
  match o with
  | OPut v =>
      if Z.of_nat (length (outstanding c)) =? cap then (c, Refused)
      else (Chan (acks c) (held c) (flight c) (unsent c ++ [v]), Done)
  | OSend => (Chan (acks c) (held c) (flight c ++ unsent c) [], Done)
  | OGet =>
      match flight c with
      | [] => (c, Refused)
      | x :: f => (Chan (acks c) (held c ++ [x]) f (unsent c), Item x)
      end
  | OAck => (Chan (if rt then acks c ++ held c else []) [] (flight c) (unsent c), Done)
  | ORetire =>
      match acks c with
      | [] => (c, Refused)
      | x :: a => (Chan a (held c) (flight c) (unsent c), Item x)
      end
  end.

Fixpoint chan_run (rt : bool) (cap : Z) (c : chan) (os : list op) : chan * list result :=
  match os with
  | [] => (c, [])
  | o :: os' =>
      let '(c', x) := chan_op rt cap c o in
      let '(c'', xs) := chan_run rt cap c' os' in (c'', x :: xs)
  end.

End Distq.
Arguments mem : clear implicits.
Arguments op : clear implicits.
Arguments result : clear implicits.
Arguments sys : clear implicits.
Arguments chan : clear implicits.

(** ** Indices around the ring *)

Lemma ring_inj n a i j : 0 < n -> - n < i - j < n -> (a + i) mod n = (a + j) mod n -> i = j.
Proof.
  intros Hn Hij E. assert ((i - j) mod n = 0) as H0.
  { replace (i - j) with ((a + i) - (a + j)) by lia. rewrite Zminus_mod, E, Z.sub_diag. apply Zmod_0_l. }
  apply Z.mod_divide in H0 as [q Hq]; [|lia]. assert (q = 0) by nia. lia.
Qed.

Lemma ring_eqb n a i j : 0 < n -> - n < i - j < n ->
  ((a + i) mod n =? (a + j) mod n) = (i =? j).
Proof.
  intros Hn Hij. destruct (Z.eqb_spec i j) as [->|Hne]; [apply Z.eqb_refl|].
  apply Z.eqb_neq. intros E. by apply ring_inj in E.
Qed.

Lemma M_ok n x : 1 <= n <= 2 ^ 31 -> 0 <= x < 2 ^ 32 -> CI_DISTQ_M n x = Some (x mod n).
Proof. intros Hn Hx. unfold CI_DISTQ_M. rewrite (proj2 (Z.eqb_neq n 0)), wrap_small by lia. done. Qed.

(** The distance of two places, [d] further back. *)
Lemma M_diff n a i j d : 1 <= n <= 2 ^ 31 -> 0 <= d <= 1 -> d <= i - j + n -> 0 <= (i - j - d) + n ->
  CI_DISTQ_M n ((a + i) mod n + n - (a + j) mod n - d) = Some ((i - j - d) mod n).
Proof.
  intros Hn Hd Hij Hij'. pose proof (Z.mod_pos_bound (a + i) n ltac:(lia)).
  pose proof (Z.mod_pos_bound (a + j) n ltac:(lia)). rewrite M_ok by lia. f_equal.
  replace ((a + i) mod n + n - (a + j) mod n - d) with ((a + i) mod n - (a + j) mod n - d + 1 * n) by lia.
  rewrite Z_mod_plus_full, Zminus_mod, <- Zminus_mod, Zminus_mod, <- (Zminus_mod (a + i)), <- Zminus_mod.
  f_equal. lia.
Qed.

Lemma M_next n a i : 1 <= n <= 2 ^ 31 -> CI_DISTQ_M n ((a + i) mod n + 1) = Some ((a + (i + 1)) mod n).
Proof.
  intros Hn. pose proof (Z.mod_pos_bound (a + i) n ltac:(lia)). rewrite M_ok by lia. f_equal.
  rewrite Zplus_mod_idemp_l. f_equal. lia.
Qed.

Section Invariant.
Context {A : Type} (rt : bool) (n : Z).

Abbreviation len l := (Z.of_nat (length l)).

(** The state [s] of the two ends carries the channel [c]; [a] counts the messages
    that left the channel. *)
Record carries (a : Z) (s : sys A) (c : chan A) : Prop := {
  h_size : 1 <= n <= 2 ^ 31 /\ rx_size (s_rx s) = n /\ tx_size (s_tx s) = n;
  h_ptrs : p_wr_i (s_rx s) = pr_wr_i (s_tx s) /\ pr_rd_i (s_rx s) = p_rd_i (s_tx s) /\
    pr_wr_i (s_tx s) <> p_rd_i (s_tx s) /\ rx_q (s_rx s) = tx_q (s_tx s);
  h_rd_cell : load (s_mem s) (p_rd_i (s_tx s)) = Some ((a + len (acks c)) mod n);
  h_rd : rd_i (s_rx s) = (a + len (acks c ++ held c)) mod n;
  h_wr_cell : load (s_mem s) (pr_wr_i (s_tx s)) = Some ((a + len (acks c ++ held c ++ flight c)) mod n);
  h_wr : wr_i (s_tx s) = (a + len (outstanding c)) mod n;
  h_cap : len (outstanding c) < n;
  h_ring : exists l, m_mbr (s_mem s) !! tx_q (s_tx s) = Some l /\
    slots l n (a + len (acks c ++ held c)) (flight c ++ unsent c);
  h_rt : if rt then rt_q (s_tx s) <> tx_q (s_tx s) /\ ack_i (s_tx s) = a mod n /\
      exists l, m_mbr (s_mem s) !! rt_q (s_tx s) = Some l /\ slots l n a (outstanding c)
    else acks c = []
}.

Lemma mod_add_0 a : (a + 0) mod n = a mod n.
Proof. by rewrite Z.add_0_r. Qed.

(** A store to an element of an array of [n] at a place within the ring. *)
Lemma mbr_set_ok (m : mem A) q l i v : m_mbr m !! q = Some l -> Z.of_nat (length l) = n -> 0 < n ->
  mbr_set m q (i mod n) v = Some (Mem (m_u32 m) (<[q := <[Z.to_nat (i mod n) := v]> l]> (m_mbr m))).
Proof.
  intros Hl Hn Hp. pose proof (Z.mod_pos_bound i n Hp). unfold mbr_set. rewrite Hl. simpl.
  by rewrite (proj2 (Z.leb_le _ _)), (proj2 (Z.ltb_lt _ _)) by lia.
Qed.

Lemma mbr_get_ok (m : mem A) q l i x : m_mbr m !! q = Some l -> 0 < n ->
  l !! Z.to_nat (i mod n) = Some x -> mbr_get m q (i mod n) = Some x.
Proof.
  intros Hl Hp Hx. pose proof (Z.mod_pos_bound i n Hp). unfold mbr_get. rewrite Hl. simpl.
  by rewrite (proj2 (Z.leb_le _ _)) by lia.
Qed.

Lemma store_ok (m : mem A) p v w : load m p = Some w -> 0 <= v < 2 ^ 32 ->
  store m p v = Some (Mem (<[p := v]> (m_u32 m)) (m_mbr m)).
Proof. unfold load, store. intros -> Hv. simpl. by rewrite wrap_small. Qed.

Ltac lens := unfold outstanding in *; cbn [acks held flight unsent length] in *;
  rewrite ?length_app, ?Nat2Z.inj_add in *; cbn [length] in *; rewrite ?Nat2Z.inj_succ, ?Nat2Z.inj_add in *.

Lemma ring_full a k : 0 < k <= n -> ((a + k) mod n =? a mod n) = (k =? n).
Proof.
  intros Hk. destruct (Z.eqb_spec k n) as [->|Hne].
  - replace (a + n) with (a + 1 * n) by lia. rewrite Z_mod_plus_full. apply Z.eqb_refl.
  - rewrite <- (mod_add_0 a), ring_eqb by lia. apply Z.eqb_neq. lia.
Qed.

(** The test for room that each build makes before a put. *)
Lemma full_ok a s c : carries a s c ->
  (if rt then ci_distq_ack_is_full (s_tx s) else ci_distq_is_full (s_tx s) (s_mem s)) =
    Some (len (outstanding c) =? n - 1).
Proof.
  intros H. destruct H as [(Hn & _ & Ht) _ Hrc _ _ Hw Hc _ Hrt].
  unfold ci_distq_ack_is_full, ci_distq_is_full. rewrite Ht, Hw, M_next by done. simpl.
  assert (forall r, r = a mod n ->
    Some ((a + (len (outstanding c) + 1)) mod n =? r) = Some (len (outstanding c) =? n - 1)) as HE.
  { intros r ->. rewrite ring_full by lia. f_equal. apply eq_true_iff_eq. rewrite !Z.eqb_eq. lia. }
  destruct rt; [by apply HE; destruct Hrt as (_ & -> & _)|].
  rewrite Hrc. simpl. apply HE. rewrite Hrt. apply mod_add_0.
Qed.

Lemma put_ok a s c v : carries a s c -> len (outstanding c) < n - 1 ->
  exists t m, (if rt then ci_distq_rt_put (s_tx s) (s_mem s) v else ci_distq_put (s_tx s) (s_mem s) v) = Some (t, m) /\
    carries a (Sys (s_rx s) t m) (Chan (acks c) (held c) (flight c) (unsent c ++ [v])).
Proof.
  intros H Hlt. destruct H as [(Hn & Hr & Ht) (P1 & P2 & P3 & P4) Hrc Hrd Hwc Hw Hc (l & Hl & Hs) Hrt].
  destruct s as [r t m]. simpl in *.
  assert (outstanding (Chan (acks c) (held c) (flight c) (unsent c ++ [v])) = outstanding c ++ [v]) as Eo.
  { unfold outstanding. simpl. by rewrite <- !app_assoc. }
  assert (slots (<[Z.to_nat (wr_i t) := v]> l) n (a + len (acks c ++ held c)) (flight c ++ unsent c ++ [v])) as Hs'.
  { rewrite app_assoc. replace (wr_i t) with ((a + len (acks c ++ held c) + len (flight c ++ unsent c)) mod n).
    - apply slots_put; [done|]. lens. lia.
    - rewrite Hw. f_equal. lens. lia. }
  assert (forall m' l', (if rt then m_mbr m' !! rt_q t = Some l' /\ slots l' n a (outstanding c ++ [v])
      /\ rt_q t <> tx_q t else m' = m) -> m_u32 m' = m_u32 m -> m_mbr m' !! tx_q t = Some l ->
    exists t1 m1, ci_distq_put t m' v = Some (t1, m1) /\
      carries a (Sys r t1 m1) (Chan (acks c) (held c) (flight c) (unsent c ++ [v]))) as HP.
  { intros m' l' Hm' Hu Hm'q. unfold ci_distq_put, ci_distq_poke. rewrite Hw.
    rewrite (mbr_set_ok m' (tx_q t) l) by (done || apply Hs || lia). simpl.
    unfold ci_distq_wr_next. rewrite Ht, Hw, M_next by done. simpl. do 2 eexists. split; [done|].
    rewrite <- Hw. split; simpl; try rewrite Eo; unfold load; cbn; rewrite ?Hu; try done.
    - rewrite length_app, Nat2Z.inj_add. by cbn.
    - rewrite length_app, Nat2Z.inj_add. cbn. lia.
    - eexists. rewrite lookup_insert_eq. by split.
    - destruct rt; [|done]. destruct Hm' as (Hm1 & Hm2 & Hm3). split; [done|].
      split; [by destruct Hrt as (_ & ? & _)|]. exists l'. by rewrite lookup_insert_ne. }
  destruct rt; [|by apply (HP m [])].
  destruct Hrt as (Hne & Ha & l2 & Hl2 & Hs2). unfold ci_distq_rt_put, ci_distq_rt_poke_rt. rewrite Hw.
  rewrite (mbr_set_ok m (rt_q t) l2) by (done || apply Hs2 || lia). cbn [mbind option_bind].
  eapply HP; cbn; [|done|by rewrite lookup_insert_ne].
  split_and!; [by rewrite lookup_insert_eq|apply slots_put; [done|lia]|done].
Qed.

Lemma send_ok a s c : carries a s c ->
  exists t m, ci_distq_wr_sync (s_tx s) (s_mem s) = Some (t, m) /\
    carries a (Sys (s_rx s) t m) (Chan (acks c) (held c) (flight c ++ unsent c) []).
Proof.
  intros H. destruct H as [(Hn & Hr & Ht) (P1 & P2 & P3 & P4) Hrc Hrd Hwc Hw Hc (l & Hl & Hs) Hrt].
  destruct s as [r t m]. simpl in *. pose proof (Z.mod_pos_bound (a + len (outstanding c)) n ltac:(lia)).
  assert (outstanding (Chan (acks c) (held c) (flight c ++ unsent c) []) = outstanding c) as Eo.
  { unfold outstanding. simpl. by rewrite app_nil_r. }
  unfold ci_distq_wr_sync. rewrite (store_ok m _ _ _ Hwc) by lia. simpl. do 2 eexists. split; [done|].
  split; simpl; try rewrite Eo; unfold load; cbn; rewrite ?app_nil_r; try done.
  - by rewrite lookup_insert_ne.
  - by rewrite lookup_insert_eq, Hw.
  - by exists l.
Qed.

Lemma empty_ok a s c : carries a s c ->
  ci_distq_is_empty (s_rx s) (s_mem s) = Some (bool_decide (flight c = [])).
Proof.
  intros H. destruct H as [(Hn & Hr & Ht) (P1 & _) _ Hrd Hwc _ Hc _ _].
  unfold ci_distq_is_empty. rewrite P1, Hwc. simpl. f_equal. lens.
  rewrite Hrd, ring_eqb by lia. apply eq_true_iff_eq. rewrite Z.eqb_eq, bool_decide_eq_true.
  rewrite <- (length_zero (flight c)). lia.
Qed.

Lemma get_ok a s c x f : carries a s c -> flight c = x :: f ->
  exists r, ci_distq_get (s_rx s) (s_mem s) = Some (x, r) /\
    carries a (Sys r (s_tx s) (s_mem s)) (Chan (acks c) (held c ++ [x]) f (unsent c)).
Proof.
  intros H Hf. destruct H as [(Hn & Hr & Ht) (P1 & P2 & P3 & P4) Hrc Hrd Hwc Hw Hc (l & Hl & Hs) Hrt].
  destruct s as [r t m]. simpl in *.
  assert (outstanding (Chan (acks c) (held c ++ [x]) f (unsent c)) = outstanding c) as Eo.
  { unfold outstanding. simpl. by rewrite Hf, <- !app_assoc. }
  rewrite Hf in Hs. simpl in Hs. apply slots_get in Hs as [Hx Hs].
  unfold ci_distq_get, ci_distq_peek. rewrite P4, Hrd, (mbr_get_ok m (tx_q t) l _ x) by (done || lia).
  simpl. unfold ci_distq_rd_next. rewrite Hr, Hrd, M_next by done. simpl. eexists. split; [done|].
  split; simpl; try rewrite Eo; try done.
  - do 2 f_equal. lens. lia.
  - rewrite Hwc, Hf. do 3 f_equal. lens. lia.
  - exists l. split; [done|]. eapply slots_start; [|exact Hs]. f_equal. lens. lia.
Qed.

Lemma ack_ok a s c : carries a s c ->
  exists r m a', ci_distq_rd_sync (s_rx s) (s_mem s) = Some (r, m) /\
    carries a' (Sys r (s_tx s) m) (Chan (if rt then acks c ++ held c else []) [] (flight c) (unsent c)).
Proof.
  intros H. destruct H as [(Hn & Hr & Ht) (P1 & P2 & P3 & P4) Hrc Hrd Hwc Hw Hc (l & Hl & Hs) Hrt].
  destruct s as [r t m]. simpl in *. pose proof (Z.mod_pos_bound (a + len (acks c ++ held c)) n ltac:(lia)).
  unfold ci_distq_rd_sync. rewrite P2, (store_ok m _ _ _ Hrc) by lia. simpl.
  do 2 eexists. exists (if rt then a else a + len (held c)). split; [done|].
  destruct rt eqn:Ert.
  - assert (outstanding (Chan (acks c ++ held c) [] (flight c) (unsent c)) = outstanding c) as Eo.
    { unfold outstanding. simpl. by rewrite <- app_assoc. }
    split; simpl; try rewrite Eo; unfold load; cbn; rewrite ?app_nil_r, <- ?app_assoc; try done.
    + by rewrite lookup_insert_eq, Hrd.
    + by rewrite lookup_insert_ne.
    + by exists l.
    + by rewrite Ert.
  - unfold outstanding in *. rewrite Hrt in *. simpl in *.
    split; simpl; unfold load, outstanding; cbn; try done.
    + by rewrite lookup_insert_eq, Hrd, mod_add_0.
    + by rewrite Hrd, mod_add_0.
    + rewrite lookup_insert_ne by done. etransitivity; [exact Hwc|]. do 2 f_equal. lens. lia.
    + rewrite Hw. f_equal. lens. lia.
    + lens. lia.
    + exists l. by rewrite Z.add_0_r.
    + by rewrite Ert.
Qed.

Lemma retire_ok a s c : rt = true -> carries a s c ->
  ci_distq_acked (s_tx s) (s_mem s) = Some (negb (bool_decide (acks c = []))) /\
  forall x l, acks c = x :: l ->
    exists t, ci_distq_ack_peek (s_tx s) (s_mem s) = Some x /\ ci_distq_ack_next (s_tx s) = Some t /\
      carries (a + 1) (Sys (s_rx s) t (s_mem s)) (Chan l (held c) (flight c) (unsent c)).
Proof.
  intros Ert H. destruct H as [(Hn & Hr & Ht) (P1 & P2 & P3 & P4) Hrc Hrd Hwc Hw Hc (q & Hq & Hs) Hrt].
  rewrite Ert in Hrt. destruct s as [r t m]. simpl in *. destruct Hrt as (Hne & Ha & l2 & Hl2 & Hs2). split.
  - unfold ci_distq_acked. rewrite Hrc, Ha. simpl. do 2 f_equal. rewrite <- (mod_add_0 a). lens.
    rewrite ring_eqb by lia. apply eq_true_iff_eq. rewrite Z.eqb_eq, bool_decide_eq_true.
    rewrite <- (length_zero (acks c)). lia.
  - intros x l Hx.
    assert (outstanding c = x :: outstanding (Chan l (held c) (flight c) (unsent c))) as Eo.
    { unfold outstanding. by rewrite Hx. }
    rewrite Eo in Hs2. apply slots_get in Hs2 as [Hg Hs2].
    unfold ci_distq_ack_peek, ci_distq_ack_next. rewrite Ha, (mbr_get_ok m (rt_q t) l2 _ x) by (done || lia).
    rewrite Ht, <- (mod_add_0 a), M_next by done. simpl. eexists. split; [done|]. split; [done|].
    rewrite Eo in Hw, Hc. rewrite Hx in Hrc, Hrd, Hwc, Hs.
    split; simpl; try done.
    + rewrite Hrc. do 2 f_equal. lens. lia.
    + rewrite Hrd. f_equal. lens. lia.
    + rewrite Hwc. do 2 f_equal. lens. lia.
    + rewrite Hw. f_equal. lens. lia.
    + lens. lia.
    + exists q. split; [done|]. eapply slots_start; [|exact Hs]. f_equal. lens. lia.
    + rewrite Ert. split_and!; [done|done|]. by exists l2.
Qed.

Lemma op_ok a s c o : carries a s c ->
  exists s' a', run_op rt s o = Some (s', snd (chan_op rt (n - 1) c o)) /\
    carries a' s' (fst (chan_op rt (n - 1) c o)).
Proof.
  intros H. destruct o as [v| | | |]; destruct s as [r t m] eqn:Es; rewrite <- Es in H.
  - pose proof (full_ok _ _ _ H) as Ef. rewrite Es in Ef. simpl in Ef. cbn [run_op chan_op]. rewrite Ef. simpl.
    destruct (Z.eqb_spec (len (outstanding c)) (n - 1)) as [E|E]; [exists s, a; by rewrite Es in *|].
    pose proof (h_cap _ _ _ H). destruct (put_ok a s c v H) as (t' & m' & E' & H'); [lia|].
    rewrite Es in E', H'. simpl in E', H'. rewrite E'. simpl. eauto.
  - destruct (send_ok a s c H) as (t' & m' & E' & H'). rewrite Es in E', H'. simpl in *. rewrite E'. simpl. eauto.
  - pose proof (empty_ok _ _ _ H) as Ee. rewrite Es in Ee. simpl in Ee. cbn [run_op chan_op]. rewrite Ee. simpl.
    destruct (flight c) as [|x f] eqn:Ef; simpl; [exists s, a; by rewrite Es in *|].
    destruct (get_ok a s c x f H Ef) as (r' & E' & H'). rewrite Es in E', H'. simpl in E', H'.
    rewrite E'. simpl. eauto.
  - destruct (ack_ok a s c H) as (r' & m' & a' & E' & H'). rewrite Es in E', H'. simpl in *. rewrite E'. simpl. eauto.
  - cbn [run_op chan_op]. destruct rt eqn:Ert; simpl.
    2:{ pose proof (h_rt _ _ _ H) as Hr. rewrite Ert in Hr. rewrite Hr. exists s, a. by rewrite Es in *. }
    destruct (retire_ok a s c Ert H) as [Ea Hn]. rewrite Es in Ea, Hn. simpl in Ea, Hn. rewrite Ea. simpl.
    destruct (acks c) as [|x l] eqn:El; simpl; [exists s, a; by rewrite Es in *|].
    destruct (Hn x l eq_refl) as (t' & E1 & E2 & H'). rewrite E1. simpl. rewrite E2. simpl. eauto.
Qed.

Lemma run_ok a s c os : carries a s c ->
  exists s' a', run rt s os = Some (s', snd (chan_run rt (n - 1) c os)) /\
    carries a' s' (fst (chan_run rt (n - 1) c os)).
Proof.
  revert a s c. induction os as [|o os IH]; intros a s c H; cbn [run chan_run]; [by exists s, a|].
  destruct (op_ok a s c o H) as (s1 & a1 & E1 & H1). rewrite E1. simpl.
  destruct (chan_op rt (n - 1) c o) as [c1 x]. simpl in *.
  destruct (IH a1 s1 c1 H1) as (s2 & a2 & E2 & H2). rewrite E2. simpl.
  destruct (chan_run rt (n - 1) c1 os) as [c2 xs]. simpl in *. eauto.
Qed.

(** What the counting macros return. *)
Lemma counts_ok a s c : carries a s c ->
  ci_distq_num (s_rx s) (s_mem s) = Some (len (flight c)) /\
  ci_distq_unacked (s_tx s) (s_mem s) = Some (len (held c ++ flight c ++ unsent c)) /\
  ci_distq_space (s_tx s) (s_mem s) = Some (n - 1 - len (held c ++ flight c ++ unsent c)) /\
  (rt = true -> ci_distq_ack_space (s_tx s) = Some (n - 1 - len (outstanding c))).
Proof.
  intros H. destruct H as [(Hn & Hr & Ht) (P1 & P2 & _) Hrc Hrd Hwc Hw Hc _ Hrt].
  unfold ci_distq_num, ci_distq_unacked, ci_distq_space, ci_distq_ack_space.
  rewrite P1, Hwc, Hrc, Hr, Ht, Hrd, Hw. simpl.
  assert (forall i j, 0 <= i - j < n -> CI_DISTQ_M n ((a + i) mod n + n - (a + j) mod n) = Some (i - j)) as HD.
  { intros i j Hij. pose proof (M_diff n a i j 0 Hn ltac:(lia) ltac:(lia) ltac:(lia)) as HM.
    rewrite !Z.sub_0_r in HM. rewrite HM. by rewrite Z.mod_small. }
  assert (forall i j, 0 <= i - j < n -> CI_DISTQ_M n ((a + j) mod n + n - (a + i) mod n - 1) = Some (n - 1 - (i - j))) as HS.
  { intros i j Hij. rewrite M_diff by lia. f_equal. symmetry. apply (Z.mod_unique _ _ (-1)); lia. }
  lens. rewrite !HD, !HS by lia. split_and!; [f_equal; lia|f_equal; lia|f_equal; lia|].
  intros E. rewrite E in Hrt. destruct Hrt as (_ & -> & _). rewrite <- (mod_add_0 a), HS by lia. f_equal. lia.
Qed.

End Invariant.

(** Setting up both ends on distinct cells and arrays of the right length gives an
    empty channel. *)
Lemma connect_ok {A} rt n old pw pr qa ra (m : mem A) w r l l2 :
  1 <= n <= 2 ^ 31 -> pw <> pr -> qa <> ra -> load m pw = Some w -> load m pr = Some r ->
  m_mbr m !! qa = Some l -> m_mbr m !! ra = Some l2 ->
  Z.of_nat (length l) = n -> Z.of_nat (length l2) = n ->
  exists s, connect old n pw pr qa ra m = Some s /\ carries rt n 0 s (Chan [] [] [] []).
Proof.
  intros Hn Hp Hq Hw Hr Hl Hl2 El El2. unfold connect, ci_distq_rx_init.
  rewrite (store_ok m pw 0 w) by (done || lia). simpl.
  unfold ci_distq_tx_init. rewrite (store_ok _ pr 0 r);
    [|unfold load; simpl; by rewrite lookup_insert_ne|lia]. simpl.
  unfold ci_distq_wr_reset, load. simpl. rewrite lookup_insert_eq. simpl. eexists. split; [done|].
  split; unfold load; simpl; rewrite ?lookup_insert_eq, ?(lookup_insert_ne _ pr pw) by done;
    rewrite ?lookup_insert_eq, ?Z.mod_0_l by lia; try done; try lia.
  - exists l. split; [done|by apply slots_empty].
  - destruct rt; [|done]. split_and!; [done|done|]. exists l2. split; [done|by apply slots_empty].
Qed.

(** The messages that were accepted, and the ones that were received. *)
Fixpoint accepted {A} (os : list (op A)) (rs : list (result A)) : list A :=
  match os, rs with
  | OPut v :: os', Done :: rs' => v :: accepted os' rs'
  | _ :: os', _ :: rs' => accepted os' rs'
  | _, _ => []
  end.

Fixpoint received {A} (os : list (op A)) (rs : list (result A)) : list A :=
  match os, rs with
  | OGet :: os', Item x :: rs' => x :: received os' rs'
  | _ :: os', _ :: rs' => received os' rs'
  | _, _ => []
  end.

(** The channel delivers what it accepted, in order, and holds the rest. *)
Lemma chan_in_order {A} rt cap (c : chan A) os :
  flight c ++ unsent c ++ accepted os (snd (chan_run rt cap c os)) =
  received os (snd (chan_run rt cap c os)) ++ flight (fst (chan_run rt cap c os)) ++
    unsent (fst (chan_run rt cap c os)).
Proof.
  revert c. induction os as [|o os IH]; intros c; cbn [chan_run].
  { simpl. by rewrite app_nil_r. }
  destruct (chan_op rt cap c o) as [c1 x] eqn:E1. specialize (IH c1).
  destruct (chan_run rt cap c1 os) as [c2 xs]. simpl in *. destruct o as [v| | | |]; simpl in E1.
  - destruct (_ =? _); simplify_eq; simpl in *; [done|]. by rewrite <- IH, <- !app_assoc.
  - simplify_eq. simpl in *. by rewrite app_assoc, IH.
  - destruct (flight c) as [|y f] eqn:Ef; simplify_eq; simpl in *; [by rewrite Ef in IH|by rewrite IH].
  - by simplify_eq.
  - destruct (acks c) as [|y l]; by simplify_eq.
Qed.

(** C19: two processes connected by a distributed queue of [n] slots (set up, and the
    write index brought to the receiver's), with or without retransmission, in any
    interleaving of puts, sends, gets, acknowledgements and retirements: no step
    leaves the arrays or divides by zero, every step returns what the channel of
    capacity [n - 1] returns, the counting macros count its parts, and the messages
    accepted are, in order and without loss or repetition, the ones received, then
    the ones in flight, then the ones not yet sent. *)
Theorem distq_refines {A} rt n old pw pr qa ra (m : mem A) w r l l2 os :
  1 <= n <= 2 ^ 31 -> pw <> pr -> qa <> ra -> load m pw = Some w -> load m pr = Some r ->
  m_mbr m !! qa = Some l -> m_mbr m !! ra = Some l2 ->
  Z.of_nat (length l) = n -> Z.of_nat (length l2) = n ->
  let c := fst (chan_run rt (n - 1) (Chan [] [] [] []) os) in
  let rs := snd (chan_run rt (n - 1) (Chan [] [] [] []) os) in
  exists s s', connect old n pw pr qa ra m = Some s /\ run rt s os = Some (s', rs) /\
    accepted os rs = received os rs ++ flight c ++ unsent c /\
    ci_distq_num (s_rx s') (s_mem s') = Some (Z.of_nat (length (flight c))) /\
    ci_distq_unacked (s_tx s') (s_mem s') = Some (Z.of_nat (length (held c ++ flight c ++ unsent c))) /\
    ci_distq_space (s_tx s') (s_mem s') = Some (n - 1 - Z.of_nat (length (held c ++ flight c ++ unsent c))) /\
    (rt = true -> ci_distq_ack_space (s_tx s') = Some (n - 1 - Z.of_nat (length (outstanding c)))).
Proof.
  intros Hn Hp Hq Hw Hr Hl Hl2 El El2 c rs.
  destruct (connect_ok rt n old pw pr qa ra m w r l l2) as (s & Es & Hs); try done.
  destruct (run_ok rt n 0 s _ os Hs) as (s' & a' & Er & Hs').
  exists s, s'. split; [done|]. split; [done|]. split; [exact (chan_in_order rt (n - 1) (Chan [] [] [] []) os)|].
  by apply (counts_ok rt n a' s' c).
Qed.

(** A queue of three slots that carries two messages at a time. *)
Lemma distq_refines_witness : exists s s',
  connect None 3 100 104 1000 2000
    (Mem (<[100 := 9]> (<[104 := 9]> ∅)) (<[1000 := [0; 0; 0]]> (<[2000 := [0; 0; 0]]> ∅))) = Some s /\
  run true s [OPut 7; OPut 8; OPut 9; OGet; OSend; OGet; OAck; ORetire; OPut 9; OSend; OGet; OGet; ORetire]
  = Some (s', [Done; Done; Refused; Refused; Done; Item 7; Done; Item 7; Done; Done; Item 8; Item 9; Refused]).
Proof.
  destruct (distq_refines true 3 None 100 104 1000 2000
    (Mem (<[100 := 9]> (<[104 := 9]> ∅)) (<[1000 := [0; 0; 0]]> (<[2000 := [0; 0; 0]]> ∅))) 9 9 [0; 0; 0] [0; 0; 0]
    [OPut 7; OPut 8; OPut 9; OGet; OSend; OGet; OAck; ORetire; OPut 9; OSend; OGet; OGet; ORetire])
    as (s & s' & E & R & _); [lia|lia|lia|reflexivity..|].
  exists s, s'. split; [exact E|exact R].
Defined.

(** Without the reset the transmitter starts full: [tx_init] puts the write index one
    before the receiver's, so there is no room for a single message. *)
Lemma distq_starts_full {A} n old pw pr qa ra (m : mem A) r : 1 <= n <= 2 ^ 31 -> load m pr = Some r ->
  exists t m', ci_distq_tx_init old n pr pw qa ra m = Some (t, m') /\
    ci_distq_is_full t m' = Some true /\ ci_distq_space t m' = Some 0 /\
    ci_distq_ack_is_full t = Some true /\ ci_distq_unsent t = (r' ← old; CI_DISTQ_M n (n - 1 + n - r')).
Proof.
  intros Hn Hr. unfold ci_distq_tx_init. rewrite (store_ok m pr 0 r) by (done || lia). simpl.
  do 2 eexists. split; [done|]. rewrite (wrap_small 32 (n - 1)) by lia.
  unfold ci_distq_is_full, ci_distq_space, ci_distq_ack_is_full, ci_distq_unsent, load. simpl.
  rewrite lookup_insert_eq. simpl. replace (n - 1 + 1) with n by lia. replace (0 + n - (n - 1) - 1) with 0 by lia.
  rewrite !M_ok by lia. simpl. by rewrite Z_mod_same_full, Z.mod_0_l by lia.
Qed.

(** The number of messages up to the end of the array: right unless the queue is
    empty, when it is the rest of the array instead of 0. *)
Lemma rx_contig_num_ok {A} rt n a (s : sys A) c : carries rt n a s c -> n < 2 ^ 31 ->
  ci_distq_rx_contig_num (s_rx s) (s_mem s) =
    Some (if decide (flight c = []) then n - rd_i (s_rx s)
          else Z.min (Z.of_nat (length (flight c))) (n - rd_i (s_rx s))).
Proof.
  intros H Hn31. pose proof (counts_ok rt n a s c H) as (Hnum & _). pose proof (empty_ok rt n a s c H) as He.
  destruct H as [(Hn & Hr & Ht) (P1 & _) _ Hrd Hwc _ Hc _ _].
  unfold ci_distq_num, ci_distq_is_empty, ci_distq_rx_contig_num in *. rewrite P1, Hwc, Hr in *. simpl in *.
  pose proof (Z.mod_pos_bound (a + Z.of_nat (length (acks c ++ held c))) n ltac:(lia)).
  set (w := (a + Z.of_nat (length (acks c ++ held c ++ flight c))) mod n) in *.
  assert (0 <= w < n) by (apply Z.mod_pos_bound; lia). rewrite <- Hrd in *. set (d := rd_i (s_rx s)) in *.
  rewrite M_ok in Hnum by lia. injection Hnum as Hnum. injection He as He.
  destruct (Z.ltb_spec d w).
  - rewrite M_ok by lia. simpl. rewrite Z.mod_small by lia. rewrite swrap_small by lia.
    replace (w + n - d) with (w - d + 1 * n) in Hnum by lia. rewrite Z_mod_plus_full, Z.mod_small in Hnum by lia.
    case_decide as E; [rewrite E in Hnum; simpl in Hnum; lia|]. f_equal. lia.
  - rewrite swrap_small by lia. case_decide as E; [done|]. f_equal.
    destruct (Z.eq_dec d w) as [Ed|Ed].
    { rewrite Ed, Z.eqb_refl in He. symmetry in He. by apply bool_decide_eq_true in He. }
    rewrite Z.mod_small in Hnum by lia. lia.
Qed.
