(* ===== verification/Atomic.v ===== *)
(** * Atomic: programs of atomic actions and their interleavings

    The code that threads run on shared memory without a lock: a program is a tree
    of atomic actions (a read, a compare-and-swap, a store), a do-while loop repeats
    its body until it gives a value.  Threads are interleaved action by action.
    [linearizable] is the theorem the clients use: when every action of every
    operation respects the operation's specification, each run is explained by the
    log of the operations in the order in which they took effect, and no assertion
    fails. *)

From Stdlib Require Import ZArith Lia.
From stdpp Require Import gmap relations.
From S2P Require Import Prelude.

(** A program over shared memory of type [S]; [Fail] is a failed assertion. *)
Inductive act (S A : Type) : Type :=
  | Ret (a : A)
  | Do (f : S -> S * Z) (k : Z -> act S A)
  | Fail.
Arguments Ret {S A} a.
Arguments Do {S A} f k.
Arguments Fail {S A}.

Fixpoint abind {S A B} (p : act S A) (k : A -> act S B) : act S B :=
  match p with
  | Ret a => k a
  | Do f h => Do f (fun x => abind (h x) k)
  | Fail => Fail
  end.

Notation "'alet' x ':=' p 'in' k" := (abind p (fun x => k))
  (at level 10, x name, p at level 100, k at level 200) : c_scope.

(** An atomic load, and the compare-and-swap of [ci_cas64u_succeed] and
    [ci_cas_uintptr_succeed]: 1 when the swap happened. *)
Definition aread {S} (get : S -> Z) : act S Z := Do (fun s => (s, get s)) Ret.
Definition acas {S} (get : S -> Z) (set : Z -> S -> S) (old new : Z) : act S Z :=
  Do (fun s => if get s =? old then (set new s, 1) else (s, 0)) Ret.
Definition awrite {S} (f : S -> S) : act S Z := Do (fun s => (f s, 0)) Ret.

(** [ci_assert(b)]. *)
Definition aassert {S A} (b : bool) (p : act S A) : act S A := if b then p else Fail.

Section Linearizable.
Context {S O B G Y : Type}.

(** The body of each operation: [Ret None] repeats it, [Ret (Some b)] returns [b]. *)
Context (body : O -> act S (option B)).

(** The specification: the ghost state [G] after the operation of a thread took
    effect with a given result, [None] when the result is not allowed; the calls
    the contract allows; and how the ghost state describes the memory. *)
Context (spec : G -> nat -> O -> B -> option G) (allowed : G -> nat -> O -> Prop) (R : G -> S -> Prop).

(** The part of the memory that only thread [t] changes. *)
Context (own : nat -> S -> Y).

Definition event : Type := nat * O * B.

Record conf := Conf { mem : S; pcs : gmap nat (O * act S (option B)); log : list event }.

(** The ghost state after a log. *)
Fixpoint replay (g : G) (l : list event) : option G :=
  match l with
  | [] => Some g
  | (t, o, b) :: l' => g' ← spec g t o b; replay g' l'
  end.

Definition resume (o : O) (p : act S (option B)) : act S (option B) :=
  match p with Ret None => body o | _ => p end.

Definition effect (t : nat) (o : O) (p : act S (option B)) : list event :=
  match p with Ret (Some b) => [(t, o, b)] | _ => [] end.

(** One thread calls an operation that the contract allows, does one atomic action,
    or returns.  An operation takes effect with its last action. *)
Inductive step (g0 : G) : conf -> conf -> Prop :=
  | step_call c t o : pcs c !! t = None ->
      (forall g, replay g0 (log c) = Some g -> allowed g t o) ->
      step g0 c (Conf (mem c) (<[t := (o, body o)]> (pcs c)) (log c))
  | step_do c t o f k : pcs c !! t = Some (o, Do f k) ->
      step g0 c (Conf (fst (f (mem c)))
        (<[t := (o, resume o (k (snd (f (mem c)))))]> (pcs c))
        (log c ++ effect t o (k (snd (f (mem c))))))
  | step_return c t o b : pcs c !! t = Some (o, Ret (Some b)) ->
      step g0 c (Conf (mem c) (delete t (pcs c)) (log c)).

Definition steps (g0 : G) : relation conf := rtc (step g0).

(** Every action of [p] respects the specification, whatever the other threads do in
    between: the last one is an allowed effect, the others change nothing that the
    ghost state describes; no action changes what other threads own, and no assertion
    fails.  [y] is what the thread owns when [p] starts. *)
Fixpoint respects (t : nat) (o : O) (p : act S (option B)) (y : Y) : Prop :=
  match p with
  | Ret None => True
  | Ret (Some _) => False
  | Fail => False
  | Do f k => forall g s, R g s -> allowed g t o -> own t s = y ->
      (forall t', t' <> t -> own t' (fst (f s)) = own t' s) /\
      match k (snd (f s)) with
      | Ret (Some b) => exists g', spec g t o b = Some g' /\ R g' (fst (f s))
      | _ => R g (fst (f s)) /\ respects t o (k (snd (f s))) (own t (fst (f s)))
      end
  end.

(** What must hold after an action that leaves the memory [s] and the program [p]. *)
Definition after (t : nat) (o : O) (g : G) (s : S) (p : act S (option B)) : Prop :=
  match p with
  | Ret (Some b) => exists g', spec g t o b = Some g' /\ R g' s
  | _ => R g s /\ respects t o p (own t s)
  end.

Lemma respects_do t o f k y :
  (forall g s, R g s -> allowed g t o -> own t s = y ->
     (forall t', t' <> t -> own t' (fst (f s)) = own t' s) /\ after t o g (fst (f s)) (k (snd (f s)))) ->
  respects t o (Do f k) y.
Proof. done. Qed.

Lemma after_ret t o g s b g' : spec g t o b = Some g' -> R g' s -> after t o g s (Ret (Some b)).
Proof. intros. by exists g'. Qed.

(** A program that goes on does so without effect so far. *)
Lemma after_go t o g s p : R g s -> respects t o p (own t s) -> after t o g s p.
Proof. intros HR Hp. by destruct p as [[b|]| |]. Qed.

Lemma respects_read t o (get : S -> Z) k y :
  (forall g s, R g s -> allowed g t o -> own t s = y -> after t o g s (k (get s))) ->
  respects t o (abind (aread get) k) y.
Proof. intros H. apply respects_do. intros g s HR Ha Hy. split; [done|]. by apply H. Qed.

Lemma respects_cas t o (get : S -> Z) set old new k y :
  (forall s t', own t' (set new s) = own t' s) ->
  (forall g s, R g s -> allowed g t o -> own t s = y -> get s = old -> after t o g (set new s) (k 1)) ->
  (forall g s, R g s -> allowed g t o -> own t s = y -> get s <> old -> after t o g s (k 0)) ->
  respects t o (abind (acas get set old new) k) y.
Proof.
  intros Ho H1 H0. apply respects_do. intros g s HR Ha Hy.
  destruct (Z.eqb_spec (get s) old); simpl; auto.
Qed.

(** The contract of a running call is not broken by the other threads. *)
Definition stable : Prop := forall g g' t o t' o' b,
  t <> t' -> allowed g t o -> allowed g t' o' -> spec g t' o' b = Some g' -> allowed g' t o.

Context (Hbody : forall g t o y, allowed g t o -> respects t o (body o) y) (Hstable : stable).

Definition thread_ok (g : G) (s : S) (l : list event) (t : nat) (op : O * act S (option B)) : Prop :=
  (exists b, snd op = Ret (Some b) /\ (t, fst op, b) ∈ l) \/
  (respects t (fst op) (snd op) (own t s) /\ snd op <> Ret None /\ allowed g t (fst op)).

(** Every run is explained by its log. *)
Definition explained (g0 : G) (c : conf) : Prop :=
  exists g, replay g0 (log c) = Some g /\ R g (mem c) /\
    forall t op, pcs c !! t = Some op -> thread_ok g (mem c) (log c) t op.

Lemma replay_app g l l' : replay g (l ++ l') = (g' ← replay g l; replay g' l').
Proof.
  revert g. induction l as [|[[t o] b] l IH]; intros g; simpl; [done|].
  destruct (spec g t o b); simpl; auto.
Qed.

Context (Hloop : forall o, body o <> Ret None).

(** A thread stays in order while another one acts. *)
Lemma thread_ok_other g g' s s' l l' t op : thread_ok g s l t op -> own t s' = own t s ->
  (allowed g t (fst op) -> allowed g' t (fst op)) -> thread_ok g' s' (l ++ l') t op.
Proof.
  intros [(b & Eb & Hin)|(Hr & Hn & Ha)] Ho Hal.
  - left. exists b. split; [done|]. set_solver.
  - right. rewrite Ho. auto.
Qed.

Lemma step_explained g0 c c' : explained g0 c -> step g0 c c' -> explained g0 c'.
Proof.
  intros (g & Hg & HR & Hpcs) Hstep. destruct Hstep as [c t o Hn Ha|c t o f k Hp|c t o b Hp].
  - exists g. split; [done|]. split; [done|]. intros t' op. simpl. rewrite lookup_insert.
    case_decide as E; [|by apply Hpcs]. intros [= <-]. subst t'. right. simpl.
    split; [by apply (Hbody g), Ha|]. split; [apply Hloop|by apply Ha].
  - destruct (Hpcs t _ Hp) as [(b & Eb & _)|(Hr & _ & Ha)]; [done|]. simpl in Hr, Ha.
    destruct (Hr g (mem c) HR Ha eq_refl) as [Ho Hk].
    assert (forall g' l', (forall t' o', t' <> t -> allowed g t' o' -> allowed g' t' o') ->
      forall t' op, t' <> t -> pcs c !! t' = Some op -> thread_ok g' (fst (f (mem c))) (log c ++ l') t' op) as Hoth.
    { intros g' l' Hal t' op Hne Ht'. eapply thread_ok_other; [by apply Hpcs|by apply Ho|by apply Hal]. }
    destruct (k (snd (f (mem c)))) as [[b|]|f' k'|] eqn:Ek; cbn [effect resume] in *.
    + destruct Hk as (g' & Hs & HR'). exists g'. simpl. rewrite replay_app, Hg. simpl. rewrite Hs.
      split; [done|]. split; [done|]. intros t' op. rewrite lookup_insert. case_decide as E.
      * intros [= <-]. subst t'. left. exists b. split; [done|]. simpl. set_solver.
      * apply Hoth; [|done]. intros t2 o2 Hne Ha2. by eapply (Hstable g g' t2 o2 t o).
    + destruct Hk as [HR' _]. exists g. simpl. rewrite app_nil_r. split; [done|]. split; [done|].
      intros t' op. rewrite lookup_insert. case_decide as E; [|rewrite <- (app_nil_r (log c)); by apply Hoth].
      intros [= <-]. subst t'. right. simpl. split; [by apply (Hbody g)|]. split; [apply Hloop|done].
    + destruct Hk as [HR' Hr']. exists g. simpl. rewrite app_nil_r. split; [done|]. split; [done|].
      intros t' op. rewrite lookup_insert. case_decide as E; [|rewrite <- (app_nil_r (log c)); by apply Hoth].
      intros [= <-]. subst t'. right. by simpl.
    + by destruct Hk.
  - exists g. split; [done|]. split; [done|]. intros t' op. simpl. rewrite lookup_delete.
    case_decide; [done|]. by apply Hpcs.
Qed.

Lemma linearizable g0 s0 c : R g0 s0 -> steps g0 (Conf s0 ∅ []) c -> explained g0 c.
Proof.
  intros HR Hs. assert (explained g0 (Conf s0 ∅ [])) as H0.
  { exists g0. split; [done|]. split; [done|]. intros t op. simpl. by rewrite lookup_empty. }
  revert H0. induction Hs as [|c1 c2 c3 H12 _ IH]; [done|]. intros H1. apply IH. by eapply step_explained.
Qed.

(** No assertion fails in a run that is explained. *)
Lemma explained_no_fail g0 c t o : explained g0 c -> pcs c !! t <> Some (o, Fail).
Proof.
  intros (g & _ & _ & Hp) E. destruct (Hp t _ E) as [(b & Eb & _)|(Hr & _)]; [done|]. by simpl in Hr.
Qed.

(** What a call returns is the result it is logged with. *)
Lemma explained_returns g0 c t o b : explained g0 c -> pcs c !! t = Some (o, Ret (Some b)) -> (t, o, b) ∈ log c.
Proof.
  intros (g & _ & _ & Hp) E. destruct (Hp t _ E) as [(b' & Eb & Hin)|(Hr & _)]; [|by simpl in Hr].
  simpl in *. by simplify_eq.
Qed.

(** ** Schedules

    A schedule says which thread goes next; [exec] runs it. *)
Inductive cmd := Call (t : nat) (o : O) | Act (t : nat) | Return (t : nat).

Context (allowed_b : G -> nat -> O -> bool) (Hdec : forall g t o, allowed_b g t o = true -> allowed g t o).

Definition exec_cmd (g0 : G) (c : conf) (m : cmd) : option conf :=
  match m with
  | Call t o =>
      g ← replay g0 (log c);
      match pcs c !! t with
      | None => if allowed_b g t o then Some (Conf (mem c) (<[t := (o, body o)]> (pcs c)) (log c)) else None
      | Some _ => None
      end
  | Act t =>
      match pcs c !! t with
      | Some (o, Do f k) => Some (Conf (fst (f (mem c)))
          (<[t := (o, resume o (k (snd (f (mem c)))))]> (pcs c)) (log c ++ effect t o (k (snd (f (mem c))))))
      | _ => None
      end
  | Return t =>
      match pcs c !! t with
      | Some (o, Ret (Some b)) => Some (Conf (mem c) (delete t (pcs c)) (log c))
      | _ => None
      end
  end.

Fixpoint exec (g0 : G) (c : conf) (ms : list cmd) : option conf :=
  match ms with [] => Some c | m :: ms' => c' ← exec_cmd g0 c m; exec g0 c' ms' end.

Lemma exec_cmd_step g0 c m c' : exec_cmd g0 c m = Some c' -> step g0 c c'.
Proof.
  destruct m as [t o|t|t]; simpl.
  - destruct (replay g0 (log c)) as [g|] eqn:Eg; simpl; [|done]. destruct (pcs c !! t) eqn:Ep; [done|].
    destruct (allowed_b g t o) eqn:Ea; [|done]. intros [= <-]. apply step_call; [done|].
    intros g' Hg'. rewrite Eg in Hg'. simplify_eq. by apply Hdec.
  - destruct (pcs c !! t) as [[o [?|f k|]]|] eqn:Ep; try done. intros [= <-]. by apply step_do.
  - destruct (pcs c !! t) as [[o [[b|]|f k|]]|] eqn:Ep; try done. intros [= <-]. by eapply step_return.
Qed.

Lemma exec_steps g0 c ms c' : exec g0 c ms = Some c' -> steps g0 c c'.
Proof.
  revert c. induction ms as [|m ms IH]; intros c; simpl; [by intros [= <-]; apply rtc_refl|].
  destruct (exec_cmd g0 c m) as [c1|] eqn:E; simpl; [|done]. intros H.
  eapply rtc_l; [by eapply exec_cmd_step|by apply IH].
Qed.

End Linearizable.
Arguments Call {O} t o.
Arguments Act {O} t.
Arguments Return {O} t.
