(* ===== verification/EpLock.v ===== *)
(** * EpLock: the lock of a stack and its flags (onload/eplock.h)

    One 64-bit word holds the lock bit, a bit that says that somebody waits, and
    flags by which threads leave work to the holder.  Every function is a program
    of atomic actions on the word ([Atomic]); the theorems are about all
    interleavings of any number of threads. *)

From Stdlib Require Import ZArith Lia Bool.
From stdpp Require Import gmap relations.
From S2P Require Import Prelude BitField Atomic.

(** ** The word (ci/internal/ip_shared_types.h) *)

Definition CI_EPLOCK_LOCKED : Z := 0x20000000.
Definition CI_EPLOCK_FL_NEED_WAKE : Z := 0x40000000.
Definition CI_EPLOCK_LOCK_FLAGS : Z := 0x70000000.
Definition CI_EPLOCK_CALLBACK_FLAGS : Z := 0xffffffff8fffffff.
Definition CI_EPLOCK_NETIF_SOCKET_LIST : Z := 0x001fffff.
Definition CI_EPLOCK_NETIF_IS_PKT_WAITER : Z := 0x80000000.
Definition CI_EPLOCK_NETIF_NEED_PRIME : Z := 0x1000000000000000.
Definition CI_EPLOCK_NETIF_NEED_POLL : Z := 0x2000000000000000.
Definition CI_EPLOCK_NETIF_CLOSE_ENDPOINT : Z := 0x4000000000000000.
Definition CI_EPLOCK_NETIF_NEED_WAKE : Z := 0x8000000000000000.
Definition CI_EPLOCK_NETIF_PKT_WAKE : Z := 0x0100000000000000.
Definition CI_EPLOCK_NETIF_SWF_UPDATE : Z := 0x0200000000000000.
Definition CI_EPLOCK_NETIF_MERGE_ATOMIC_COUNTERS : Z := 0x0400000000000000.
Definition CI_EPLOCK_NETIF_NEED_PKT_SET : Z := 0x0800000000000000.
Definition CI_EPLOCK_NETIF_PURGE_TXQS : Z := 0x0010000000000000.
Definition CI_EPLOCK_NETIF_KERNEL_PACKETS : Z := 0x0020000000000000.
Definition CI_EPLOCK_NETIF_FREE_READY_LIST : Z := 0x0008000000000000.
Definition CI_EPLOCK_NETIF_HAS_DEFERRED_PKTS : Z := 0x0004000000000000.
Definition CI_EPLOCK_NETIF_HANDLE_ICMP : Z := 0x0001000000000000.
Definition CI_EPLOCK_NETIF_NEED_SOCK_BUFS : Z := 0x0002000000000000.
Definition CI_EPLOCK_NETIF_PRIME_IF_IDLE : Z := 0x0000800000000000.
Definition CI_EPLOCK_NETIF_UNLOCK_FLAGS : Z := 0xff3b800000000000.

(** The flags with a bit of their own. *)
Definition netif_flags : list Z := [
  CI_EPLOCK_NETIF_IS_PKT_WAITER; CI_EPLOCK_NETIF_NEED_PRIME; CI_EPLOCK_NETIF_NEED_POLL;
  CI_EPLOCK_NETIF_CLOSE_ENDPOINT; CI_EPLOCK_NETIF_NEED_WAKE; CI_EPLOCK_NETIF_PKT_WAKE;
  CI_EPLOCK_NETIF_SWF_UPDATE; CI_EPLOCK_NETIF_MERGE_ATOMIC_COUNTERS; CI_EPLOCK_NETIF_NEED_PKT_SET;
  CI_EPLOCK_NETIF_PURGE_TXQS; CI_EPLOCK_NETIF_KERNEL_PACKETS; CI_EPLOCK_NETIF_FREE_READY_LIST;
  CI_EPLOCK_NETIF_HAS_DEFERRED_PKTS; CI_EPLOCK_NETIF_HANDLE_ICMP; CI_EPLOCK_NETIF_NEED_SOCK_BUFS;
  CI_EPLOCK_NETIF_PRIME_IF_IDLE].

(** Each is one bit, no two share it, none is a bit of the lock itself or of the list
    of sockets; the mask of those to handle before unlocking leaves out the two that
    its comments say may stay. *)
Lemma netif_flags_ok :
  (forall f, f ∈ netif_flags -> exists i, 0 <= i < 64 /\ f = 2 ^ i) /\ NoDup netif_flags /\
  Forall (fun f => Z.land f CI_EPLOCK_LOCK_FLAGS = 0 /\ Z.land f CI_EPLOCK_NETIF_SOCKET_LIST = 0 /\
    Z.land f CI_EPLOCK_CALLBACK_FLAGS = f) netif_flags /\
  CI_EPLOCK_NETIF_UNLOCK_FLAGS = fold_right Z.lor 0 (filter (fun f =>
    f <> CI_EPLOCK_NETIF_IS_PKT_WAITER /\ f <> CI_EPLOCK_NETIF_HAS_DEFERRED_PKTS) netif_flags) /\
  CI_EPLOCK_CALLBACK_FLAGS = Z.lxor CI_EPLOCK_LOCK_FLAGS (Z.ones 64).
Proof.
  split_and!; [|apply (bool_decide_unpack _); by vm_compute|apply (bool_decide_unpack _); by vm_compute|done..].
  intros f Hf. exists (Z.log2 f). revert f Hf. apply Forall_forall. apply (bool_decide_unpack _). by vm_compute.
Qed.

(** ** The functions *)

(** What a call gives back: a return value, and for [ef_eplock_try_unlock] what it
    stored in [*lock_val_out]. *)
Inductive res := RInt (rc : Z) | RVal (v : Z) | RUnlock (rc lock_val : Z).

Definition prog : Type := act Z (option res).

Definition lock_read : act Z Z := aread id.
Definition cas_lock (old new : Z) : act Z Z := acas id (fun v _ => v) old new.
Definition has (v flags : Z) : bool := negb (Z.land v flags =? 0).

(** [while( ci_cas64u_fail(&l->lock, v, new_v) )] at the end of a loop, then [r]. *)
Definition cas_or_repeat (v new_v : Z) (r : res) : prog :=
  alet x := cas_lock v new_v in Ret (if x =? 1 then Some r else None).

Definition ef_eplock_trylock : prog :=
  alet v := lock_read in
  if has v CI_EPLOCK_LOCKED then Ret (Some (RInt 0))
  else alet x := cas_lock v (Z.lor v CI_EPLOCK_LOCKED) in Ret (Some (RInt x)).

Definition ef_eplock_holder_set_flag (flag : Z) : prog :=
  aassert (Z.land flag CI_EPLOCK_LOCK_FLAGS =? 0) (
    alet v := lock_read in
    aassert (has v CI_EPLOCK_LOCKED) (
      if has v flag then Ret (Some (RInt 0)) else cas_or_repeat v (Z.lor v flag) (RInt 0))).

Definition ef_eplock_holder_set_flags (flags : Z) : prog :=
  aassert (Z.land flags CI_EPLOCK_LOCK_FLAGS =? 0) (
    alet v := lock_read in
    aassert (has v CI_EPLOCK_LOCKED) (
      if Z.land v flags =? flags then Ret (Some (RInt 0)) else cas_or_repeat v (Z.lor v flags) (RInt 0))).

(** The flags that may not be cleared depend on the build. *)
Definition ef_eplock_clear_flags (ul_interrupt_helper : bool) (flags : Z) : prog :=
  aassert (Z.land flags (if ul_interrupt_helper
             then Z.ldiff CI_EPLOCK_LOCK_FLAGS CI_EPLOCK_FL_NEED_WAKE else CI_EPLOCK_LOCK_FLAGS) =? 0) (
    alet v := lock_read in cas_or_repeat v (Z.ldiff v flags) (RVal v)).

Definition ef_eplock_set_flag_if_locked (flag : Z) : prog :=
  aassert (Z.land flag CI_EPLOCK_LOCK_FLAGS =? 0) (
    alet v := lock_read in
    if negb (has v CI_EPLOCK_LOCKED) then Ret (Some (RInt 0))
    else if has v flag then Ret (Some (RInt 1)) else cas_or_repeat v (Z.lor v flag) (RInt 1)).

Definition ef_eplock_set_flags_if_locked (flags : Z) : prog :=
  aassert (Z.land flags CI_EPLOCK_LOCK_FLAGS =? 0) (
    alet v := lock_read in
    if negb (has v CI_EPLOCK_LOCKED) then Ret (Some (RInt 0))
    else if Z.land v flags =? flags then Ret (Some (RInt 1)) else cas_or_repeat v (Z.lor v flags) (RInt 1)).

Definition ef_eplock_trylock_and_set_flags (flags : Z) : prog :=
  alet v := lock_read in
  cas_or_repeat v (Z.lor (Z.lor v CI_EPLOCK_LOCKED) flags) (RInt (Z.b2z (negb (has v CI_EPLOCK_LOCKED)))).

Definition ef_eplock_lock_or_set_flag (flag : Z) : prog :=
  aassert (Z.land flag CI_EPLOCK_LOCK_FLAGS =? 0) (
    alet v := lock_read in
    if negb (has v CI_EPLOCK_LOCKED) then cas_or_repeat v (Z.lor v CI_EPLOCK_LOCKED) (RInt 1)
    else if has v flag then Ret (Some (RInt 0))
    else cas_or_repeat v (Z.lor v flag) (RInt 0)).

Definition ef_eplock_lock_or_set_flags (flags : Z) : prog :=
  aassert (Z.land flags CI_EPLOCK_LOCK_FLAGS =? 0) (
    alet v := lock_read in
    if negb (has v CI_EPLOCK_LOCKED) then cas_or_repeat v (Z.lor v CI_EPLOCK_LOCKED) (RInt 1)
    else if Z.land v flags =? flags then Ret (Some (RInt 0))
    else cas_or_repeat v (Z.lor v flags) (RInt 0)).

Definition ef_eplock_try_unlock (flag_mask : Z) : prog :=
  alet lv := lock_read in
  let unlock := Z.ldiff lv (Z.lor CI_EPLOCK_LOCKED CI_EPLOCK_FL_NEED_WAKE) in
  if has lv flag_mask then Ret (Some (RUnlock 0 lv))
  else alet x := cas_lock lv unlock in Ret (Some (RUnlock x lv)).

Definition ef_eplock_flags : prog :=
  alet v := lock_read in Ret (Some (RVal (Z.land v (Z.lor CI_EPLOCK_FL_NEED_WAKE CI_EPLOCK_CALLBACK_FLAGS)))).

Definition ef_eplock_is_locked : prog :=
  alet v := lock_read in Ret (Some (RInt (Z.b2z (has v CI_EPLOCK_LOCKED)))).

(** The blocking lock: its slow path [__ef_eplock_lock_slow] is in the library.  The
    program [lock_slow] stands for one round of it. *)
Definition ef_eplock_lock (lock_slow : prog) : prog :=
  alet x := cas_lock 0 CI_EPLOCK_LOCKED in
  if x =? 1 then Ret (Some (RInt 0)) else lock_slow.

Inductive op :=
  | OTrylock | OLock
  | OHolderSetFlag (flag : Z) | OHolderSetFlags (flags : Z) | OClearFlags (flags : Z)
  | OSetFlagIfLocked (flag : Z) | OSetFlagsIfLocked (flags : Z)
  | OTrylockAndSetFlags (flags : Z) | OLockOrSetFlag (flag : Z) | OLockOrSetFlags (flags : Z)
  | OTryUnlock (flag_mask : Z) | OFlags | OIsLocked.

Definition code (helper : bool) (lock_slow : prog) (o : op) : prog :=
  match o with
  | OTrylock => ef_eplock_trylock
  | OLock => ef_eplock_lock lock_slow
  | OHolderSetFlag f => ef_eplock_holder_set_flag f
  | OHolderSetFlags f => ef_eplock_holder_set_flags f
  | OClearFlags f => ef_eplock_clear_flags helper f
  | OSetFlagIfLocked f => ef_eplock_set_flag_if_locked f
  | OSetFlagsIfLocked f => ef_eplock_set_flags_if_locked f
  | OTrylockAndSetFlags f => ef_eplock_trylock_and_set_flags f
  | OLockOrSetFlag f => ef_eplock_lock_or_set_flag f
  | OLockOrSetFlags f => ef_eplock_lock_or_set_flags f
  | OTryUnlock m => ef_eplock_try_unlock m
  | OFlags => ef_eplock_flags
  | OIsLocked => ef_eplock_is_locked
  end.

(** ** The specification *)

(** The word without the waiting bit, which waiting threads set at any time, and the
    thread that holds the lock. *)
Record ghost := Ghost { gword : Z; holder : option nat }.

Definition with_flags (g : ghost) (f : Z) : ghost := Ghost (Z.lor (gword g) f) (holder g).
Definition acquired (g : ghost) (t : nat) : ghost := Ghost (Z.lor (gword g) CI_EPLOCK_LOCKED) (Some t).
Definition no_wake (v : Z) : Z := Z.ldiff v CI_EPLOCK_FL_NEED_WAKE.

(** The effect of each operation and the results it may have with it. *)
Definition lock_spec (g : ghost) (t : nat) (o : op) (b : res) : option ghost :=
  match o, b with
  | OTrylock, RInt r =>
      if r =? 0 then Some g else if decide (holder g = None) then Some (acquired g t) else None
  | OLock, RInt _ => if decide (holder g = None) then Some (acquired g t) else None
  | (OHolderSetFlag f | OHolderSetFlags f), RInt _ => Some (with_flags g f)
  | OClearFlags f, RVal v =>
      if no_wake v =? gword g then Some (Ghost (Z.ldiff (gword g) f) (holder g)) else None
  | (OSetFlagIfLocked f | OSetFlagsIfLocked f), RInt r =>
      if r =? 0 then if decide (holder g = None) then Some g else None
      else if decide (holder g = None) then None else Some (with_flags g f)
  | OTrylockAndSetFlags f, RInt r =>
      if r =? 0 then if decide (holder g = None) then None else Some (with_flags g f)
      else if decide (holder g = None) then Some (with_flags (acquired g t) f) else None
  | (OLockOrSetFlag f | OLockOrSetFlags f), RInt r =>
      if r =? 0 then if decide (holder g = None) then None else Some (with_flags g f)
      else if decide (holder g = None) then Some (acquired g t) else None
  | OTryUnlock m, RUnlock r lv =>
      if r =? 0 then Some g
      else if decide (holder g = Some t /\ no_wake lv = gword g /\ Z.land lv m = 0)
        then Some (Ghost (Z.ldiff (gword g) CI_EPLOCK_LOCKED) None) else None
  | OFlags, RVal v => if no_wake v =? Z.land (gword g) CI_EPLOCK_CALLBACK_FLAGS then Some g else None
  | OIsLocked, RInt r => if r =? Z.b2z (bool_decide (holder g <> None)) then Some g else None
  | _, _ => None
  end.

Definition flags_ok (f : Z) : Prop := 0 <= f < 2 ^ 64 /\ Z.land f CI_EPLOCK_LOCK_FLAGS = 0.

(** The contract in the comments: flags are not bits of the lock, a single flag has one
    bit, and the functions for the holder are called by the holder. *)
Definition lock_allowed (helper : bool) (g : ghost) (t : nat) (o : op) : Prop :=
  match o with
  | OClearFlags f => 0 <= f < 2 ^ 64 /\ Z.land f (if helper
      then Z.ldiff CI_EPLOCK_LOCK_FLAGS CI_EPLOCK_FL_NEED_WAKE else CI_EPLOCK_LOCK_FLAGS) = 0
  | OHolderSetFlag f => holder g = Some t /\ flags_ok f /\ exists i, 0 <= i /\ f = 2 ^ i
  | OHolderSetFlags f => holder g = Some t /\ flags_ok f
  | OSetFlagIfLocked f | OLockOrSetFlag f => flags_ok f /\ exists i, 0 <= i /\ f = 2 ^ i
  | OSetFlagsIfLocked f | OTrylockAndSetFlags f | OLockOrSetFlags f => flags_ok f
  | OTryUnlock m => holder g = Some t
  | OTrylock | OLock | OFlags | OIsLocked => True
  end.

(** The word that a ghost state describes. *)
Definition describes (g : ghost) (s : Z) : Prop :=
  0 <= s < 2 ^ 64 /\ gword g = no_wake s /\ (has s CI_EPLOCK_LOCKED = true <-> holder g <> None).

(** ** Bits of the word *)

Lemma has_bit s i : 0 <= i -> has s (2 ^ i) = Z.testbit s i.
Proof.
  intros Hi. unfold has. destruct (Z.testbit s i) eqn:E.
  - apply negb_true_iff, Z.eqb_neq. intros H0. assert (Z.testbit (Z.land s (2 ^ i)) i = true) as H.
    { rewrite Z.land_spec, E, Z.pow2_bits_true; done. }
    by rewrite H0, Z.bits_0 in H.
  - apply negb_false_iff, Z.eqb_eq. apply Z.bits_inj'. intros k Hk. rewrite Z.land_spec, Z.bits_0.
    destruct (Z.eq_dec k i) as [->|Hne]; [by rewrite E|]. rewrite (Z.pow2_bits_false i k), andb_false_r; done.
Qed.

Lemma has_locked s : has s CI_EPLOCK_LOCKED = Z.testbit s 29.
Proof. apply (has_bit s 29). lia. Qed.

Lemma land_bit f m i : Z.land f m = 0 -> Z.testbit m i = true -> Z.testbit f i = false.
Proof.
  intros H Hm. apply (f_equal (fun z => Z.testbit z i)) in H. rewrite Z.land_spec, Hm, andb_true_r, Z.bits_0 in H. done.
Qed.

Lemma lor_range f s : 0 <= f < 2 ^ 64 -> 0 <= s < 2 ^ 64 -> 0 <= Z.lor s f < 2 ^ 64.
Proof.
  intros Hf Hs. apply bits_range; [lia|apply Z.lor_nonneg; lia|]. intros k Hk.
  by rewrite Z.lor_spec, (testbit_small s 64), (testbit_small f 64).
Qed.

Lemma ldiff_range f s : 0 <= s < 2 ^ 64 -> 0 <= Z.ldiff s f < 2 ^ 64.
Proof.
  intros Hs. apply bits_range; [lia|apply Z.ldiff_nonneg; lia|]. intros k Hk.
  by rewrite Z.ldiff_spec, (testbit_small s 64).
Qed.

Lemma no_wake_lor s f : Z.testbit f 30 = false -> no_wake (Z.lor s f) = Z.lor (no_wake s) f.
Proof.
  intros Hf. unfold no_wake. apply Z.bits_inj'. intros k Hk. rewrite !Z.ldiff_spec, !Z.lor_spec, Z.ldiff_spec.
  change CI_EPLOCK_FL_NEED_WAKE with (2 ^ 30). destruct (Z.eq_dec k 30) as [->|Hne].
  - by rewrite Hf, Z.pow2_bits_true, !andb_false_r.
  - by rewrite Z.pow2_bits_false, !andb_true_r.
Qed.

Lemma no_wake_ldiff s f : no_wake (Z.ldiff s f) = Z.ldiff (no_wake s) f.
Proof.
  unfold no_wake. apply Z.bits_inj'. intros k Hk. rewrite !Z.ldiff_spec.
  destruct (Z.testbit s k), (Z.testbit f k), (Z.testbit CI_EPLOCK_FL_NEED_WAKE k); done.
Qed.

Lemma lor_absorb v f : Z.land v f = f -> Z.lor v f = v.
Proof. intros <-. apply Z.bits_inj'. intros k Hk. rewrite Z.lor_spec, Z.land_spec. by destruct (Z.testbit v k), (Z.testbit f k). Qed.

Lemma land_single v i : 0 <= i -> has v (2 ^ i) = true -> Z.land v (2 ^ i) = 2 ^ i.
Proof.
  intros Hi H. rewrite has_bit in H by done. apply Z.bits_inj'. intros k Hk. rewrite Z.land_spec.
  destruct (Z.eq_dec k i) as [->|Hne]; [by rewrite H, Z.pow2_bits_true|].
  by rewrite (Z.pow2_bits_false i k), andb_false_r by done.
Qed.

(** ** What the actions do to the description *)

Lemma flags_ok_bits f : flags_ok f -> 0 <= f < 2 ^ 64 /\ Z.testbit f 29 = false /\ Z.testbit f 30 = false.
Proof. intros [Hr Hl]. split; [done|]. split; by eapply land_bit. Qed.

Lemma describes_flags g s f : describes g s -> flags_ok f -> describes (with_flags g f) (Z.lor s f).
Proof.
  intros (Hs & Hw & Hl) (Hr & H29 & H30)%flags_ok_bits. split; [by apply lor_range|]. simpl.
  rewrite Hw, no_wake_lor by done. split; [done|]. rewrite has_locked in *. by rewrite Z.lor_spec, H29, orb_false_r.
Qed.

Lemma describes_flags_set g s f : describes g s -> flags_ok f -> Z.land s f = f -> describes (with_flags g f) s.
Proof. intros Hd Hf He. rewrite <- (lor_absorb s f He) at 1. by apply describes_flags. Qed.

Lemma describes_acquired g s t : describes g s -> describes (acquired g t) (Z.lor s CI_EPLOCK_LOCKED).
Proof.
  intros (Hs & Hw & Hl). split; [by apply lor_range|]. simpl. rewrite Hw, no_wake_lor by done. split; [done|].
  rewrite has_locked, Z.lor_spec. change (Z.testbit CI_EPLOCK_LOCKED 29) with true. rewrite orb_true_r. done.
Qed.

Lemma describes_free g s : describes g s -> has s CI_EPLOCK_LOCKED = false <-> holder g = None.
Proof.
  intros (_ & _ & Hl). rewrite <- not_true_iff_false, Hl. destruct (holder g); naive_solver.
Qed.

Lemma describes_held g s : describes g s -> has s CI_EPLOCK_LOCKED = true <-> holder g <> None.
Proof. by intros (_ & _ & Hl). Qed.

Lemma describes_cleared g s f : describes g s -> Z.testbit f 29 = false ->
  describes (Ghost (Z.ldiff (gword g) f) (holder g)) (Z.ldiff s f).
Proof.
  intros (Hs & Hw & Hl) Hf. split; [by apply ldiff_range|]. simpl. rewrite Hw, no_wake_ldiff. split; [done|].
  rewrite has_locked in *. by rewrite Z.ldiff_spec, Hf, andb_true_r.
Qed.

Lemma describes_unlocked g s : describes g s ->
  describes (Ghost (Z.ldiff (gword g) CI_EPLOCK_LOCKED) None)
    (Z.ldiff s (Z.lor CI_EPLOCK_LOCKED CI_EPLOCK_FL_NEED_WAKE)).
Proof.
  intros (Hs & Hw & Hl). split; [by apply ldiff_range|]. simpl. rewrite Hw, no_wake_ldiff. split.
  - unfold no_wake. apply Z.bits_inj'. intros k Hk. rewrite !Z.ldiff_spec, Z.lor_spec.
    destruct (Z.testbit s k), (Z.testbit CI_EPLOCK_LOCKED k), (Z.testbit CI_EPLOCK_FL_NEED_WAKE k); done.
  - rewrite has_locked, Z.ldiff_spec.
    change (Z.testbit (Z.lor CI_EPLOCK_LOCKED CI_EPLOCK_FL_NEED_WAKE) 29) with true. by rewrite andb_false_r.
Qed.

(** ** The functions respect the specification *)

(** The word belongs to no thread. *)
Definition no_own (t : nat) (s : Z) : unit := tt.

Section Respects.
Context (helper : bool).

Abbreviation resp t o p := (respects lock_spec (lock_allowed helper) describes no_own t o p tt).
Abbreviation aft := (after lock_spec (lock_allowed helper) describes no_own).

Lemma read_respects t o k :
  (forall g v, describes g v -> lock_allowed helper g t o -> aft t o g v (k v)) ->
  resp t o (alet v := lock_read in k v).
Proof. intros H. apply respects_read. intros g s Hd Ha _. by apply H. Qed.

Lemma swap_respects t o old new k :
  (forall g, describes g old -> lock_allowed helper g t o -> aft t o g new (k 1)) ->
  (forall g v, describes g v -> lock_allowed helper g t o -> aft t o g v (k 0)) ->
  resp t o (alet x := cas_lock old new in k x).
Proof.
  intros H1 H0. apply respects_cas; [done| |intros g s Hd Ha _ _; by apply H0].
  intros g s Hd Ha _ E. unfold id in E. subst s. by apply H1.
Qed.

Lemma cas_respects t o v new r :
  (forall g, describes g v -> lock_allowed helper g t o ->
     exists g', lock_spec g t o r = Some g' /\ describes g' new) ->
  resp t o (cas_or_repeat v new r).
Proof.
  intros H. apply swap_respects.
  - intros g Hd Ha. by apply H.
  - intros g s Hd Ha. by apply after_go.
Qed.

Lemma trylock_respects t : resp t OTrylock ef_eplock_trylock.
Proof.
  apply read_respects. intros g s Hd _. destruct (has s CI_EPLOCK_LOCKED) eqn:El.
  { by eapply after_ret. }
  apply after_go; [done|]. apply swap_respects.
  - intros g2 Hd2 _. apply after_ret with (acquired g2 t); [|by apply describes_acquired].
    simpl. by rewrite decide_True by (by apply (describes_free g2 s)).
  - intros g2 s2 Hd2 _. by apply after_ret with g2.
Qed.

Lemma flag_ok_assert f : flags_ok f -> (Z.land f CI_EPLOCK_LOCK_FLAGS =? 0) = true.
Proof. intros [_ H]. by apply Z.eqb_eq. Qed.

(** The loops that set flags of a locked word and give [r]. *)
Lemma set_loop_respects t o f r (test : Z -> bool) :
  flags_ok f -> (forall v, test v = true -> Z.land v f = f) ->
  (forall g, holder g <> None -> lock_spec g t o r = Some (with_flags g f)) ->
  forall g v, describes g v -> has v CI_EPLOCK_LOCKED = true ->
  aft t o g v (if test v then Ret (Some r) else cas_or_repeat v (Z.lor v f) r).
Proof.
  intros Hf Ht Hs g v Hd Hl. destruct (test v) eqn:E.
  - apply after_ret with (with_flags g f); [apply Hs; by eapply describes_held|].
    apply describes_flags_set; eauto.
  - apply after_go; [done|]. apply cas_respects. intros g2 Hd2 Ha2. exists (with_flags g2 f).
    split; [apply Hs; by eapply describes_held|]. apply describes_flags; eauto.
Qed.

Lemma single_test f : (exists i, 0 <= i /\ f = 2 ^ i) -> forall v, has v f = true -> Z.land v f = f.
Proof. intros (i & Hi & ->) v. by apply land_single. Qed.

Lemma multi_test f v : (Z.land v f =? f) = true -> Z.land v f = f.
Proof. apply Z.eqb_eq. Qed.

Lemma acquire_loop_respects t o r v :
  (forall g, holder g = None -> lock_spec g t o r = Some (acquired g t)) ->
  has v CI_EPLOCK_LOCKED = false -> resp t o (cas_or_repeat v (Z.lor v CI_EPLOCK_LOCKED) r).
Proof.
  intros Hs Hl. apply cas_respects. intros g Hd _. exists (acquired g t).
  split; [apply Hs; by apply (describes_free g v)|by apply describes_acquired].
Qed.

Lemma holder_locked g s t : describes g s -> holder g = Some t -> has s CI_EPLOCK_LOCKED = true.
Proof. intros Hd Hh. apply (describes_held g s Hd). by rewrite Hh. Qed.

Ltac enter Hf := unfold aassert; rewrite (flag_ok_assert _ Hf).
Ltac by_spec := intros; simpl; by rewrite ?decide_True, ?decide_False by done.

Lemma holder_set_flag_respects t f : flags_ok f -> (exists i, 0 <= i /\ f = 2 ^ i) ->
  resp t (OHolderSetFlag f) (ef_eplock_holder_set_flag f).
Proof.
  intros Hf Hi. unfold ef_eplock_holder_set_flag. enter Hf. apply read_respects. intros g v Hd Ha.
  pose proof (holder_locked g v t Hd (proj1 Ha)) as Hl. rewrite Hl.
  by apply (set_loop_respects t _ f (RInt 0) (fun v => has v f)); eauto using single_test.
Qed.

Lemma holder_set_flags_respects t f : flags_ok f ->
  resp t (OHolderSetFlags f) (ef_eplock_holder_set_flags f).
Proof.
  intros Hf. unfold ef_eplock_holder_set_flags. enter Hf. apply read_respects. intros g v Hd Ha.
  pose proof (holder_locked g v t Hd (proj1 Ha)) as Hl. rewrite Hl.
  by apply (set_loop_respects t _ f (RInt 0) (fun v => Z.land v f =? f)); eauto using multi_test.
Qed.

Lemma set_flag_if_locked_respects t f : flags_ok f -> (exists i, 0 <= i /\ f = 2 ^ i) ->
  resp t (OSetFlagIfLocked f) (ef_eplock_set_flag_if_locked f).
Proof.
  intros Hf Hi. unfold ef_eplock_set_flag_if_locked. enter Hf. apply read_respects. intros g v Hd Ha.
  destruct (has v CI_EPLOCK_LOCKED) eqn:Hl; simpl negb.
  - apply (set_loop_respects t _ f (RInt 1) (fun v => has v f)); eauto using single_test. by_spec.
  - apply after_ret with g; [|done]. simpl. by rewrite decide_True by (by apply (describes_free g v)).
Qed.

Lemma set_flags_if_locked_respects t f : flags_ok f ->
  resp t (OSetFlagsIfLocked f) (ef_eplock_set_flags_if_locked f).
Proof.
  intros Hf. unfold ef_eplock_set_flags_if_locked. enter Hf. apply read_respects. intros g v Hd Ha.
  destruct (has v CI_EPLOCK_LOCKED) eqn:Hl; simpl negb.
  - apply (set_loop_respects t _ f (RInt 1) (fun v => Z.land v f =? f)); eauto using multi_test. by_spec.
  - apply after_ret with g; [|done]. simpl. by rewrite decide_True by (by apply (describes_free g v)).
Qed.

Lemma lock_or_set_flag_respects t f : flags_ok f -> (exists i, 0 <= i /\ f = 2 ^ i) ->
  resp t (OLockOrSetFlag f) (ef_eplock_lock_or_set_flag f).
Proof.
  intros Hf Hi. unfold ef_eplock_lock_or_set_flag. enter Hf. apply read_respects. intros g v Hd Ha.
  destruct (has v CI_EPLOCK_LOCKED) eqn:Hl; simpl negb.
  - apply (set_loop_respects t _ f (RInt 0) (fun v => has v f)); eauto using single_test. by_spec.
  - apply after_go; [done|]. apply acquire_loop_respects; [by_spec|done].
Qed.

Lemma lock_or_set_flags_respects t f : flags_ok f ->
  resp t (OLockOrSetFlags f) (ef_eplock_lock_or_set_flags f).
Proof.
  intros Hf. unfold ef_eplock_lock_or_set_flags. enter Hf. apply read_respects. intros g v Hd Ha.
  destruct (has v CI_EPLOCK_LOCKED) eqn:Hl; simpl negb.
  - apply (set_loop_respects t _ f (RInt 0) (fun v => Z.land v f =? f)); eauto using multi_test. by_spec.
  - apply after_go; [done|]. apply acquire_loop_respects; [by_spec|done].
Qed.

Lemma trylock_and_set_flags_respects t f : flags_ok f ->
  resp t (OTrylockAndSetFlags f) (ef_eplock_trylock_and_set_flags f).
Proof.
  intros Hf. apply read_respects. intros g v Hd Ha. apply after_go; [done|].
  apply cas_respects. intros g2 Hd2 _. destruct (has v CI_EPLOCK_LOCKED) eqn:Hl; simpl.
  - exists (with_flags g2 f). rewrite decide_False by (by eapply describes_held). split; [done|].
    rewrite (lor_absorb v CI_EPLOCK_LOCKED); [by apply describes_flags|].
    rewrite has_locked in Hl. apply (land_single v 29); [lia|]. by rewrite has_bit.
  - exists (with_flags (acquired g2 t) f). rewrite decide_True by (by apply (describes_free g2 v)).
    split; [done|]. apply describes_flags; [by apply describes_acquired|done].
Qed.

Lemma clear_mask_bit f : Z.land f (if helper then Z.ldiff CI_EPLOCK_LOCK_FLAGS CI_EPLOCK_FL_NEED_WAKE
    else CI_EPLOCK_LOCK_FLAGS) = 0 -> Z.testbit f 29 = false.
Proof. intros H. eapply land_bit; [exact H|]. by destruct helper. Qed.

Lemma clear_flags_respects g t f : lock_allowed helper g t (OClearFlags f) ->
  resp t (OClearFlags f) (ef_eplock_clear_flags helper f).
Proof.
  intros [_ Hm]. unfold ef_eplock_clear_flags, aassert. rewrite (proj2 (Z.eqb_eq _ _) Hm).
  apply read_respects. intros g1 v Hd1 _. apply after_go; [done|].
  apply cas_respects. intros g2 Hd2 _. simpl. pose proof Hd2 as (_ & Hw & _). rewrite Hw, Z.eqb_refl, <- Hw.
  eexists. split; [done|]. apply describes_cleared; [done|by apply clear_mask_bit].
Qed.

Lemma try_unlock_respects t m : resp t (OTryUnlock m) (ef_eplock_try_unlock m).
Proof.
  apply read_respects. intros g v Hd Ha. destruct (has v m) eqn:Em.
  { by eapply after_ret. }
  apply after_go; [done|]. apply swap_respects.
  - intros g2 Hd2 Ha2. eapply after_ret; [|by apply describes_unlocked]. simpl.
    pose proof Hd2 as (_ & Hw & _). rewrite decide_True; [done|]. split_and!; [done|done|].
    unfold has in Em. by apply negb_false_iff, Z.eqb_eq in Em.
  - intros g2 s2 Hd2 _. by apply after_ret with g2.
Qed.

Lemma flags_respects t : resp t OFlags ef_eplock_flags.
Proof.
  apply read_respects. intros g v Hd _. apply after_ret with g; [|done]. simpl.
  pose proof Hd as (_ & Hw & _). rewrite Hw.
  assert (no_wake (Z.land v (Z.lor CI_EPLOCK_FL_NEED_WAKE CI_EPLOCK_CALLBACK_FLAGS)) =
    Z.land (no_wake v) CI_EPLOCK_CALLBACK_FLAGS) as ->; [|by rewrite Z.eqb_refl].
  unfold no_wake. apply Z.bits_inj'. intros k Hk. rewrite Z.ldiff_spec, !Z.land_spec, Z.lor_spec, Z.ldiff_spec.
  destruct (Z.testbit v k), (Z.testbit CI_EPLOCK_FL_NEED_WAKE k), (Z.testbit CI_EPLOCK_CALLBACK_FLAGS k); done.
Qed.

Lemma is_locked_respects t : resp t OIsLocked ef_eplock_is_locked.
Proof.
  apply read_respects. intros g v Hd _. apply after_ret with g; [|done]. simpl.
  replace (has v CI_EPLOCK_LOCKED) with (bool_decide (holder g <> None)); [by rewrite Z.eqb_refl|].
  apply eq_true_iff_eq. rewrite bool_decide_eq_true. symmetry. by apply describes_held.
Qed.

Context (lock_slow : prog) (Hslow : forall t, resp t OLock lock_slow).

Lemma lock_respects t : resp t OLock (ef_eplock_lock lock_slow).
Proof.
  apply swap_respects; simpl Z.eqb.
  - intros g Hd _. apply after_ret with (acquired g t); [|by apply (describes_acquired g 0)].
    simpl. by rewrite decide_True by (by apply (describes_free g 0)).
  - intros g s Hd _. by apply after_go.
Qed.

Lemma code_respects g t o : lock_allowed helper g t o -> resp t o (code helper lock_slow o).
Proof.
  destruct o; simpl code; intros Ha; try (simpl in Ha).
  - apply trylock_respects.
  - apply lock_respects.
  - apply holder_set_flag_respects; apply Ha.
  - apply holder_set_flags_respects; apply Ha.
  - by eapply (clear_flags_respects g).
  - apply set_flag_if_locked_respects; apply Ha.
  - by apply set_flags_if_locked_respects.
  - by apply trylock_and_set_flags_respects.
  - apply lock_or_set_flag_respects; apply Ha.
  - by apply lock_or_set_flags_respects.
  - apply try_unlock_respects.
  - apply flags_respects.
  - apply is_locked_respects.
Qed.

Lemma code_loops o : code helper lock_slow o <> Ret None.
Proof.
  assert (forall b p, p <> Ret None -> aassert (S := Z) (A := option res) b p <> Ret None) as HA.
  { intros [] p Hp; done. }
  destruct o; simpl; try done; by apply HA.
Qed.

End Respects.

(** ** Who holds the lock, and which flags are up *)

Definition eplock_event : Type := nat * op * res.

(** The events by which a thread gets the lock, and by which it gives it up. *)
Definition acquires (t : nat) (e : eplock_event) : Prop :=
  match e with
  | (t', OLock, RInt _) => t' = t
  | (t', (OTrylock | OTrylockAndSetFlags _ | OLockOrSetFlag _ | OLockOrSetFlags _), RInt r) => t' = t /\ r <> 0
  | _ => False
  end.
Definition releases (t : nat) (e : eplock_event) : Prop :=
  match e with (t', OTryUnlock _, RUnlock r _) => t' = t /\ r <> 0 | _ => False end.

(** The events that leave flag [i] to the holder, and that clear it. *)
Definition raises (i : Z) (e : eplock_event) : Prop :=
  match e with
  | (_, (OHolderSetFlag f | OHolderSetFlags f | OTrylockAndSetFlags f), RInt _) => Z.testbit f i = true
  | (_, (OSetFlagIfLocked f | OSetFlagsIfLocked f), RInt r) => Z.testbit f i = true /\ r <> 0
  | (_, (OLockOrSetFlag f | OLockOrSetFlags f), RInt r) => Z.testbit f i = true /\ r = 0
  | _ => False
  end.
Definition clears (i : Z) (e : eplock_event) : Prop :=
  match e with (_, OClearFlags f, RVal _) => Z.testbit f i = true | _ => False end.

Ltac spec_cases H :=
  simpl in H; repeat (match type of H with context [match ?x with _ => _ end] => destruct x eqn:? end);
  simplify_eq; simpl in *.

(** The holder changes only by these events. *)
Lemma spec_holder g t o b g' : lock_spec g t o b = Some g' ->
  (acquires t (t, o, b) /\ holder g = None /\ holder g' = Some t) \/
  (releases t (t, o, b) /\ holder g = Some t /\ holder g' = None) \/
  ((forall t', ~ acquires t' (t, o, b)) /\ (forall t', ~ releases t' (t, o, b)) /\ holder g' = holder g).
Proof.
  intros H. destruct o, b; spec_cases H; zbool; subst; try naive_solver lia.
Qed.

Lemma lock_stable helper : stable lock_spec (lock_allowed helper).
Proof.
  intros g g' t o t' o' b Hne Ha Ha' Hs.
  assert (holder g = Some t -> holder g' = Some t) as Hh.
  { intros Hg. destruct (spec_holder _ _ _ _ _ Hs) as [(_ & H & _)|[(_ & H & _)|(_ & _ & H)]]; congruence. }
  destruct o; simpl in *; naive_solver.
Qed.

(** A flag that is up stays up until it is cleared. *)
Lemma spec_keeps g t o b g' i : lock_spec g t o b = Some g' -> 0 <= i -> i <> 29 ->
  Z.testbit (gword g) i = true -> clears i (t, o, b) \/ Z.testbit (gword g') i = true.
Proof.
  intros H Hi H29 Hb. assert (Z.testbit CI_EPLOCK_LOCKED i = false) as HL by (by apply (Z.pow2_bits_false 29)).
  destruct o, b; spec_cases H; unfold with_flags, acquired; simpl;
    rewrite ?Z.lor_spec, ?Z.ldiff_spec, ?HL, ?Hb, ?andb_true_r; auto.
  destruct (Z.testbit flags i); auto.
Qed.

Lemma spec_raises g t o b g' i : lock_spec g t o b = Some g' -> raises i (t, o, b) ->
  Z.testbit (gword g') i = true.
Proof.
  intros H Hr. destruct o, b; spec_cases H; zbool; unfold with_flags, acquired; simpl;
    rewrite ?Z.lor_spec; destruct_and?; try done;
    repeat match goal with E : Z.testbit _ _ = true |- _ => rewrite E end; rewrite ?orb_true_r; done.
Qed.

(** A release finds the flags of its mask down. *)
Lemma spec_release_flags g t m r lv g' i : lock_spec g t (OTryUnlock m) (RUnlock r lv) = Some g' -> r <> 0 ->
  0 <= i -> i <> 30 -> Z.testbit m i = true -> Z.testbit (gword g) i = false.
Proof.
  intros H Hr Hi H30 Hm. simpl in H. rewrite (proj2 (Z.eqb_neq _ _) Hr) in H. case_decide as Hd; [|done].
  destruct Hd as (_ & <- & Hl). unfold no_wake. rewrite Z.ldiff_spec, (land_bit lv m i Hl Hm). done.
Qed.

Abbreviation lreplay := (replay lock_spec).

Lemma replay_split g l1 e l2 g' : lreplay g (l1 ++ e :: l2) = Some g' ->
  exists g1 g2, lreplay g l1 = Some g1 /\ lock_spec g1 (fst (fst e)) (snd (fst e)) (snd e) = Some g2 /\
    lreplay g2 l2 = Some g'.
Proof.
  rewrite replay_app. destruct e as [[t o] b]. simpl. intros H.
  destruct (lreplay g l1) as [g1|]; simpl in H; [|done].
  destruct (lock_spec g1 t o b) as [g2|] eqn:E; simpl in H; [|done]. by exists g1, g2.
Qed.

Lemma replay_holder g l g' t : lreplay g l = Some g' -> holder g = Some t ->
  (forall e, e ∈ l -> ~ releases t e) -> holder g' = Some t.
Proof.
  revert g. induction l as [|[[t1 o] b] l IH]; intros g H Hh Hn; simpl in H; [by simplify_eq|].
  destruct (lock_spec g t1 o b) as [g1|] eqn:E; simpl in H; [|done].
  assert (~ releases t (t1, o, b)) as Hn1 by (apply Hn; set_solver).
  apply (IH g1 H); [|intros e He; apply Hn; set_solver].
  destruct (spec_holder _ _ _ _ _ E) as [(_ & Hg & _)|[(Hr & Hg & _)|(_ & _ & ->)]]; [congruence| |done].
  rewrite Hh in Hg. by simplify_eq.
Qed.

Lemma replay_flag g l g' i : lreplay g l = Some g' -> 0 <= i -> i <> 29 -> Z.testbit (gword g) i = true ->
  (forall e, e ∈ l -> ~ clears i e) -> Z.testbit (gword g') i = true.
Proof.
  intros H Hi H29. revert g H. induction l as [|[[t1 o] b] l IH]; intros g H Hb Hn; simpl in H; [by simplify_eq|].
  destruct (lock_spec g t1 o b) as [g1|] eqn:E; simpl in H; [|done].
  assert (~ clears i (t1, o, b)) as Hn1 by (apply Hn; set_solver).
  apply (IH g1 H); [|intros e He; apply Hn; set_solver].
  by destruct (spec_keeps _ _ _ _ _ i E Hi H29 Hb).
Qed.

Lemma acquires_holder g t e g' : lock_spec g (fst (fst e)) (snd (fst e)) (snd e) = Some g' -> acquires t e ->
  holder g = None /\ holder g' = Some t.
Proof.
  destruct e as [[t1 o] b]. simpl fst. simpl snd. intros H Ha.
  assert (t1 = t) as -> by (destruct o, b; simpl in Ha; naive_solver).
  destruct (spec_holder _ _ _ _ _ H) as [(_ & ? & ?)|[(Hr & _)|(Hn & _)]]; [done| |by destruct (Hn t)].
  destruct o, b; simpl in *; done.
Qed.

#[export] Instance releases_dec t e : Decision (releases t e).
Proof. destruct e as [[t1 o] b]. destruct o, b; simpl; apply _. Defined.

#[export] Instance clears_dec i e : Decision (clears i e).
Proof. destruct e as [[t1 o] b]. destruct o, b; simpl; apply _. Defined.

(** ** All interleavings *)

Section Runs.
Context (helper : bool) (lock_slow : prog) (w0 : Z).
Context (Hslow : forall t, respects lock_spec (lock_allowed helper) describes no_own t OLock lock_slow tt).
Context (Hw0 : 0 <= w0 < 2 ^ 64) (Hfree : has w0 CI_EPLOCK_LOCKED = false).

Definition g0 : ghost := Ghost (no_wake w0) None.
Definition run_to : conf -> Prop :=
  steps (code helper lock_slow) lock_spec (lock_allowed helper) g0 (Conf w0 ∅ []).

Lemma runs_explained c : run_to c -> explained lock_spec (lock_allowed helper) describes no_own g0 c.
Proof.
  apply linearizable.
  - intros g t o [] Ha. by apply (code_respects helper lock_slow Hslow g).
  - apply lock_stable.
  - intros o. apply code_loops.
  - split; [done|]. split; [done|]. rewrite Hfree. by split.
Qed.
End Runs.

(** C20: in every interleaving of any number of threads that call the functions of the
    lock within their contract, from an unlocked word, every call takes effect at one
    point between its start and its return: the log of these effects is a run of the
    specification that ends in a state that describes the word, each result returned is
    the one in the log, and no assertion of the code fails. *)
Theorem eplock_linearizable helper lock_slow w0 c :
  (forall t, respects lock_spec (lock_allowed helper) describes no_own t OLock lock_slow tt) ->
  0 <= w0 < 2 ^ 64 -> has w0 CI_EPLOCK_LOCKED = false -> run_to helper lock_slow w0 c ->
  (exists g, replay lock_spec (g0 w0) (log c) = Some g /\ describes g (mem c)) /\
  (forall t o, pcs c !! t <> Some (o, Fail)) /\
  (forall t o b, pcs c !! t = Some (o, Ret (Some b)) -> (t, o, b) ∈ log c).
Proof.
  intros Hslow Hw0 Hfree Hrun. pose proof (runs_explained helper lock_slow w0 Hslow Hw0 Hfree c Hrun) as He.
  split; [|split].
  - destruct He as (g & Hg & HR & _). by exists g.
  - intros t o. by eapply explained_no_fail.
  - intros t o b. by eapply explained_returns.
Qed.

(** C21: mutual exclusion and delivery of flags, in every interleaving.  Between two
    acquisitions of the lock the thread of the first one has released it; and between
    raising a flag for the holder and a release whose mask has the flag, somebody has
    cleared it: no flag that must be handled before unlocking is lost. *)
Theorem eplock_exclusive_and_no_flag_lost helper lock_slow w0 c :
  (forall t, respects lock_spec (lock_allowed helper) describes no_own t OLock lock_slow tt) ->
  0 <= w0 < 2 ^ 64 -> has w0 CI_EPLOCK_LOCKED = false -> run_to helper lock_slow w0 c ->
  (forall l1 l2 l3 e e' t t', log c = l1 ++ e :: l2 ++ e' :: l3 -> acquires t e -> acquires t' e' ->
     exists r, r ∈ l2 /\ releases t r) /\
  (forall l1 l2 l3 e t m r lv i, log c = l1 ++ e :: l2 ++ (t, OTryUnlock m, RUnlock r lv) :: l3 -> r <> 0 ->
     raises i e -> 0 <= i -> i <> 29 -> i <> 30 -> Z.testbit m i = true -> exists e', e' ∈ l2 /\ clears i e').
Proof.
  intros Hslow Hw0 Hfree Hrun.
  destruct (runs_explained helper lock_slow w0 Hslow Hw0 Hfree c Hrun) as (g & Hg & _). split.
  - intros l1 l2 l3 e e' t t' El Ha Ha'. rewrite El in Hg.
    destruct (replay_split _ _ _ _ _ Hg) as (g1 & g2 & _ & Hs & H2).
    destruct (replay_split _ _ _ _ _ H2) as (g3 & g4 & H3 & Hs' & _).
    destruct (acquires_holder _ _ _ _ Hs Ha) as [_ Hh]. destruct (acquires_holder _ _ _ _ Hs' Ha') as [Hh' _].
    destruct (decide (Exists (releases t) l2)) as [Hex|Hno]; [by apply Exists_exists in Hex|].
    rewrite (replay_holder _ _ _ t H3 Hh) in Hh'; [done|]. intros r Hr Hrel. apply Hno, Exists_exists. eauto.
  - intros l1 l2 l3 e t m r lv i El Hr Hra Hi H29 H30 Hm. rewrite El in Hg.
    destruct (replay_split _ _ _ _ _ Hg) as (g1 & g2 & _ & Hs & H2).
    destruct (replay_split _ _ _ _ _ H2) as (g3 & g4 & H3 & Hs' & _). simpl in Hs'.
    destruct e as [[te oe] be]. simpl in Hs. pose proof (spec_raises _ _ _ _ _ i Hs Hra) as Hup.
    destruct (decide (Exists (clears i) l2)) as [Hex|Hno]; [by apply Exists_exists in Hex|].
    assert (Z.testbit (gword g3) i = true) as H4.
    { apply (replay_flag _ _ _ i H3); [done..|]. intros x Hx Hc. apply Hno, Exists_exists. eauto. }
    by rewrite (spec_release_flags _ _ _ _ _ _ i Hs' Hr Hi H30 Hm) in H4.
Qed.

(** ** A run *)

(** The contract as a test. *)
Definition flags_ok_b (f : Z) : bool := (0 <=? f) && (f <? 2 ^ 64) && (Z.land f CI_EPLOCK_LOCK_FLAGS =? 0).
Definition single_b (f : Z) : bool := (0 <=? Z.log2 f) && (f =? 2 ^ Z.log2 f).
Definition held_b (g : ghost) (t : nat) : bool := bool_decide (holder g = Some t).
Definition lock_allowed_b (g : ghost) (t : nat) (o : op) : bool :=
  match o with
  | OHolderSetFlag f => held_b g t && flags_ok_b f && single_b f
  | OHolderSetFlags f => held_b g t && flags_ok_b f
  | OSetFlagIfLocked f | OLockOrSetFlag f => flags_ok_b f && single_b f
  | OClearFlags f | OSetFlagsIfLocked f | OTrylockAndSetFlags f | OLockOrSetFlags f => flags_ok_b f
  | OTryUnlock m => held_b g t
  | OTrylock | OLock | OFlags | OIsLocked => true
  end.

Lemma lock_allowed_b_ok g t o : lock_allowed_b g t o = true -> lock_allowed false g t o.
Proof.
  assert (forall f, flags_ok_b f = true -> flags_ok f) as Hf.
  { unfold flags_ok_b, flags_ok. intros f H. zbool. lia. }
  assert (forall f, single_b f = true -> exists i, 0 <= i /\ f = 2 ^ i) as Hs.
  { unfold single_b. intros f H. zbool. eauto. }
  assert (held_b g t = true -> holder g = Some t) as Hh by (by intros H%bool_decide_eq_true).
  destruct o; simpl; intros H; zbool; auto; by apply Hf.
Qed.

(** A slow path that says that it waits, and spins. *)
Definition spin_slow : prog :=
  alet v := lock_read in
  if has v CI_EPLOCK_LOCKED
  then alet x := cas_lock v (Z.lor v CI_EPLOCK_FL_NEED_WAKE) in Ret None
  else cas_or_repeat v (Z.lor v CI_EPLOCK_LOCKED) (RInt 0).

Lemma describes_wake g s : describes g s -> describes g (Z.lor s CI_EPLOCK_FL_NEED_WAKE).
Proof.
  intros (Hs & Hw & Hl). split; [by apply lor_range|]. split.
  - rewrite Hw. unfold no_wake. apply Z.bits_inj'. intros k Hk. rewrite !Z.ldiff_spec, Z.lor_spec.
    by destruct (Z.testbit s k), (Z.testbit CI_EPLOCK_FL_NEED_WAKE k).
  - rewrite has_locked in *. rewrite Z.lor_spec. change (Z.testbit CI_EPLOCK_FL_NEED_WAKE 29) with false.
    by rewrite orb_false_r.
Qed.

Lemma spin_slow_respects helper t : respects lock_spec (lock_allowed helper) describes no_own t OLock spin_slow tt.
Proof.
  apply read_respects. intros g v Hd _. apply after_go; [done|].
  destruct (has v CI_EPLOCK_LOCKED) eqn:Hl.
  - apply swap_respects.
    + intros g2 Hd2 _. apply after_go; [by apply describes_wake|done].
    + intros g2 s2 Hd2 _. by apply after_go.
  - apply acquire_loop_respects; [|done]. intros g2 Hn. simpl. by rewrite decide_True.
Qed.

(** Thread 1 takes the lock; thread 2 leaves it a poll to do and thread 3 waits; the
    first unlock finds the flag, the second one succeeds after it was cleared, and
    thread 3 gets the lock. *)
Definition demo_schedule : list (cmd (O := op)) := [
  Call 1 OTrylock; Call 2 (OLockOrSetFlag CI_EPLOCK_NETIF_NEED_POLL); Act 2; Act 1; Act 1; Return 1;
  Act 2; Act 2; Call 3 OLock; Act 3; Act 3; Act 2; Act 3; Return 2;
  Call 1 (OTryUnlock CI_EPLOCK_NETIF_UNLOCK_FLAGS); Act 1; Return 1;
  Call 1 (OClearFlags CI_EPLOCK_NETIF_NEED_POLL); Act 1; Act 1; Return 1;
  Call 1 (OTryUnlock CI_EPLOCK_NETIF_UNLOCK_FLAGS); Act 1; Act 1; Return 1; Act 3].

Definition demo_conf : conf (S := Z) (O := op) (B := res) :=
  default (Conf 0 ∅ [])
    (exec (code false spin_slow) lock_spec lock_allowed_b (g0 0) (Conf 0 ∅ []) demo_schedule).

Lemma demo_run : run_to false spin_slow 0 demo_conf.
Proof.
  apply (exec_steps _ _ _ lock_allowed_b lock_allowed_b_ok (g0 0) (Conf 0 ∅ []) demo_schedule).
  unfold demo_conf.
  assert (is_Some (exec (code false spin_slow) lock_spec lock_allowed_b (g0 0) (Conf 0 ∅ []) demo_schedule))
    as [c ->] by (vm_compute; eauto).
  done.
Qed.

Lemma eplock_linearizable_witness : exists g,
  replay lock_spec (g0 0) [
    (1%nat, OTrylock, RInt 1); (2%nat, OLockOrSetFlag CI_EPLOCK_NETIF_NEED_POLL, RInt 0);
    (1%nat, OTryUnlock CI_EPLOCK_NETIF_UNLOCK_FLAGS, RUnlock 0 0x2000000020000000);
    (1%nat, OClearFlags CI_EPLOCK_NETIF_NEED_POLL, RVal 0x2000000020000000);
    (1%nat, OTryUnlock CI_EPLOCK_NETIF_UNLOCK_FLAGS, RUnlock 1 0x20000000); (3%nat, OLock, RInt 0)] = Some g /\
  describes g 0x20000000.
Proof.
  destruct (eplock_linearizable false spin_slow 0 demo_conf) as [(g & Hg & Hd) _];
    [apply spin_slow_respects|lia|reflexivity|apply demo_run|].
  vm_compute in Hg. exists g. split; [vm_compute; exact Hg|]. exact Hd.
Defined.

Lemma eplock_exclusive_and_no_flag_lost_witness :
  exists e', e' ∈ [(1%nat, OTryUnlock CI_EPLOCK_NETIF_UNLOCK_FLAGS, RUnlock 0 0x2000000020000000);
      (1%nat, OClearFlags CI_EPLOCK_NETIF_NEED_POLL, RVal 0x2000000020000000)] /\ clears 61 e'.
Proof.
  destruct (eplock_exclusive_and_no_flag_lost false spin_slow 0 demo_conf) as [_ H];
    [apply spin_slow_respects|lia|reflexivity|apply demo_run|].
  apply (H [(1%nat, OTrylock, RInt 1)] _ [(3%nat, OLock, RInt 0)]
    (2%nat, OLockOrSetFlag CI_EPLOCK_NETIF_NEED_POLL, RInt 0) 1%nat CI_EPLOCK_NETIF_UNLOCK_FLAGS 1 0x20000000 61);
    [vm_compute; reflexivity|lia|split; reflexivity|lia|lia|lia|reflexivity].
Defined.
