(* ===== verification/Snapshot.v ===== *)
(** * Snapshot: reading shared memory that somebody else changes

    A reader runs a program of atomic actions ([Atomic]) while the environment takes
    steps of its own.  A counter selects the part of the memory that holds the valid
    copy; the environment changes other parts and then moves the counter.  When the
    counter is the same before and after, the reader has seen one copy. *)

From Stdlib Require Import ZArith Lia.
From stdpp Require Import relations.
From S2P Require Import Prelude Atomic.

Section Run.
Context {S : Type}.

(** The program alone: [None] is a failed assertion or an access outside an array. *)
Fixpoint run {A} (p : act S A) (s : S) : option (S * A) :=
  match p with
  | Ret a => Some (s, a)
  | Do f k => run (k (snd (f s))) (fst (f s))
  | Fail => None
  end.

Lemma run_bind {A B} (p : act S A) (k : A -> act S B) s :
  run (abind p k) s = (r ← run p s; run (k (snd r)) (fst r)).
Proof. revert s. induction p as [a|f h IH|]; intros s; simpl; auto. Qed.

Lemma run_read (get : S -> Z) s : run (aread get) s = Some (s, get s).
Proof. done. Qed.

(** The program in an environment that takes the steps [E] at any time. *)
Context (E : S -> S -> Prop).

Inductive irun {A} : act S A -> S -> A -> S -> Prop :=
  | irun_ret a s : irun (Ret a) s a s
  | irun_do f k s a s' : irun (k (snd (f s))) (fst (f s)) a s' -> irun (Do f k) s a s'
  | irun_env p s s1 a s' : E s s1 -> irun p s1 a s' -> irun p s a s'.

Lemma irun_bind {A B} (p : act S A) (k : A -> act S B) s b s' :
  irun (abind p k) s b s' -> exists a s1, irun p s a s1 /\ irun (k a) s1 b s'.
Proof.
  remember (abind p k) as q eqn:Eq. intros H. revert p Eq.
  induction H as [b s|f h s b s' H IH|q s s1 b s' HE H IH]; intros p Eq.
  - destruct p as [a| |]; simplify_eq/=. exists a, s. split; [constructor|]. rewrite <- Eq. constructor.
  - destruct p as [a|f' k'|]; simplify_eq/=.
    + exists a, s. split; [constructor|]. rewrite <- Eq. by constructor.
    + destruct (IH _ eq_refl) as (a & s1 & H1 & H2). exists a, s1. split; [by constructor|done].
  - destruct (IH p Eq) as (a & s2 & H1 & H2). exists a, s2. split; [by eapply irun_env|done].
Qed.

(** A run without interference is one of the runs. *)
Lemma irun_alone {A} (p : act S A) s s' a : run p s = Some (s', a) -> irun p s a s'.
Proof.
  revert s. induction p as [a'|f k IH|]; intros s; simpl; [by intros [= <- <-]; constructor| |done].
  intros H. constructor. by apply IH.
Qed.

(** The first action of a program happens after some steps of the environment. *)
Lemma irun_first {A} (f : S -> S * Z) (k : Z -> act S A) s a s' : irun (Do f k) s a s' ->
  exists t, rtc E s t /\ irun (k (snd (f t))) (fst (f t)) a s'.
Proof.
  remember (Do f k) as p eqn:Ep. intros H. induction H as [|f' k' s a s' H _|p s s1 a s' Hs _ IH]; [done| |].
  - simplify_eq. exists s. split; [apply rtc_refl|done].
  - destruct (IH Ep) as (t & Ht & Hk). exists t. split; [by eapply rtc_l|done].
Qed.

Lemma irun_ret_inv {A} (a a' : A) s s' : irun (Ret a) s a' s' -> a' = a /\ rtc E s s'.
Proof.
  remember (Ret a) as p eqn:Ep. intros H. induction H as [| |p s s1 a' s' Hs _ IH]; [by simplify_eq|done|].
  destruct (IH Ep) as [-> H1]. split; [done|by eapply rtc_l].
Qed.

(** The actions of the program are steps that the environment may take, too. *)
Fixpoint within {A} (p : act S A) : Prop :=
  match p with
  | Ret _ | Fail => True
  | Do f k => (forall s, rtc E s (fst (f s))) /\ forall x, within (k x)
  end.

Lemma within_bind {A B} (p : act S A) (k : A -> act S B) : within p -> (forall a, within (k a)) -> within (abind p k).
Proof. intros Hp Hk. induction p as [a|f h IH|]; simpl in *; [done| |done]. destruct Hp. auto. Qed.

Lemma within_aread (get : S -> Z) : within (aread get).
Proof. split; [intros; apply rtc_refl|done]. Qed.

Lemma within_assert {A} b (p : act S A) : within p -> within (aassert b p).
Proof. by destruct b. Qed.

Lemma irun_within {A} (p : act S A) s a s' : within p -> irun p s a s' -> rtc E s s'.
Proof.
  intros Hp H. revert Hp. induction H as [|f k s a s' _ IH|p s s1 a s' Hs _ IH]; simpl; intros Hp.
  - apply rtc_refl.
  - destruct Hp as [Hf Hk]. etrans; [apply Hf|by apply IH].
  - eapply rtc_l; [done|by apply IH].
Qed.

Lemma run_within {A} (p : act S A) s s' a : within p -> run p s = Some (s', a) -> rtc E s s'.
Proof. intros Hp H. by eapply irun_within, irun_alone. Qed.

Lemma irun_fail {A} (a : A) s s' : ~ irun Fail s a s'.
Proof. remember Fail as p eqn:Ep. induction 1; simplify_eq; auto. Qed.

(** Runs with the steps of the environment given: one, or none, before each action. *)
Fixpoint run_env {A} (p : act S A) (s : S) (envs : list (S -> S)) : option (S * A) :=
  match p with
  | Ret a => Some (s, a)
  | Fail => None
  | Do f k => let s1 := match envs with g :: _ => g s | [] => s end in run_env (k (snd (f s1))) (fst (f s1)) (tail envs)
  end.

Lemma irun_rtc {A} (p : act S A) s s1 a s' : rtc E s s1 -> irun p s1 a s' -> irun p s a s'.
Proof. induction 1; [done|]. intros. eapply irun_env; eauto. Qed.

Lemma run_env_irun {A} (p : act S A) s envs s' a : Forall (fun g => forall s, rtc E s (g s)) envs ->
  run_env p s envs = Some (s', a) -> irun p s a s'.
Proof.
  revert s envs. induction p as [b|f k IH|]; intros s envs Hg; simpl; [intros [= <- <-]; constructor| |done].
  intros H. destruct envs as [|g envs]; [constructor; by eapply IH|]. apply Forall_cons in Hg as [Hg Hgs].
  apply (irun_rtc _ _ (g s)); [apply Hg|]. constructor. by eapply IH.
Qed.

End Run.

Section Snapshot.
Context {S V : Type}.

(** The counter, and the part of the memory that a value of it selects. *)
Context (ver : S -> Z) (view : Z -> S -> V).

(** The actions of the reader neither move the counter nor change the copy [v]; what
    they return depends on the copy only. *)
Fixpoint reads {A} (v : Z) (p : act S A) : Prop :=
  match p with
  | Ret _ | Fail => True
  | Do f k => (forall s, ver (fst (f s)) = ver s /\ view v (fst (f s)) = view v s) /\
      (forall s t, view v s = view v t -> snd (f s) = snd (f t)) /\
      forall x, reads v (k x)
  end.

Lemma reads_bind {A B} v (p : act S A) (k : A -> act S B) :
  reads v p -> (forall a, reads v (k a)) -> reads v (abind p k).
Proof. intros Hp Hk. induction p as [a|f h IH|]; simpl in *; [done| |done]. destruct Hp as (? & ? & ?). auto. Qed.

Lemma reads_aread v (get : S -> Z) : (forall s t, view v s = view v t -> get s = get t) -> reads v (aread get).
Proof. intros H. simpl. auto. Qed.

Lemma reads_assert {A} v b (p : act S A) : reads v p -> reads v (aassert b p).
Proof. by destruct b. Qed.

(** Programs that only look: they change nothing. *)
Fixpoint looks {A} (v : Z) (p : act S A) : Prop :=
  match p with
  | Ret _ | Fail => True
  | Do f k => (forall s, fst (f s) = s) /\ (forall s t, view v s = view v t -> snd (f s) = snd (f t)) /\
      forall x, looks v (k x)
  end.

Lemma looks_bind {A B} v (p : act S A) (k : A -> act S B) :
  looks v p -> (forall a, looks v (k a)) -> looks v (abind p k).
Proof. intros Hp Hk. induction p as [a|f h IH|]; simpl in *; [done| |done]. destruct Hp as (? & ? & ?). auto. Qed.

Lemma looks_aread v (get : S -> Z) : (forall s t, view v s = view v t -> get s = get t) -> looks v (aread get).
Proof. intros H. simpl. auto. Qed.

Lemma looks_assert {A} v b (p : act S A) : looks v p -> looks v (aassert b p).
Proof. by destruct b. Qed.

Lemma looks_reads {A} v (p : act S A) : looks v p -> reads v p.
Proof. induction p as [|f k IH|]; simpl; [done| |done]. intros (H1 & H2 & H3). split_and!; [|done|auto]. intros s. by rewrite H1. Qed.

Lemma looks_within {A} v (p : act S A) E : looks v p -> within E p.
Proof. induction p as [|f k IH|]; simpl; [done| |done]. intros (H1 & _ & H3). split; [intros s; rewrite H1; apply rtc_refl|auto]. Qed.

Lemma looks_run {A} v (p : act S A) s s' a : looks v p -> run p s = Some (s', a) -> s' = s.
Proof.
  intros Hp. revert s. induction p as [|f k IH|]; simpl in *; intros s; [congruence| |done].
  destruct Hp as (H1 & _ & H3). rewrite H1. by apply IH.
Qed.

Definition protocol (E : S -> S -> Prop) : Prop := forall s s', E s s' ->
  ver s <= ver s' /\ (ver s' = ver s -> view (ver s) s' = view (ver s) s).

Context (E : S -> S -> Prop) (HE : protocol E).

Lemma rtc_ver s s' : rtc E s s' -> ver s <= ver s'.
Proof. induction 1 as [|s s1 s2 H1 _ IH]; [lia|]. apply HE in H1. lia. Qed.

Lemma rtc_frozen s s' : rtc E s s' -> ver s' = ver s -> view (ver s) s' = view (ver s) s.
Proof.
  induction 1 as [|s s1 s2 H1 H2 IH]; [done|]. intros Heq. apply rtc_ver in H2. destruct (HE _ _ H1) as [L Hv].
  rewrite <- Hv by lia. assert (ver s1 = ver s) as Es by lia. rewrite <- Es at 1 2. apply IH. lia.
Qed.

(** The snapshot: with the counter at [v] at both ends, the copy did not change, and
    the reader's result is what it would be alone in any memory with this copy. *)
Lemma irun_snapshot {A} (p : act S A) s a s' v : irun E p s a s' -> reads v p -> within E p -> ver s = v -> ver s' = v ->
  view v s' = view v s /\ forall t, view v t = view v s -> exists t', run p t = Some (t', a) /\ view v t' = view v s.
Proof.
  intros H. induction H as [a s|f k s a s' H IH|p s s1 a s' Hs H IH]; intros Hp Hw Es Es'.
  - eauto.
  - destruct Hp as (Hf & Hr & Hk), Hw as [_ Hwk]. destruct (Hf s) as [Ev Ew].
    destruct (IH (Hk _) (Hwk _) ltac:(lia) Es') as [H1 H2]. split; [by rewrite H1|]. intros t Ht.
    destruct (H2 (fst (f t))) as (t' & Ht' & Hv). { by rewrite Ew, (proj2 (Hf t)). }
    exists t'. simpl. rewrite (Hr t s Ht). rewrite Hv, Ew. done.
  - destruct (HE s s1 Hs) as [Hle Heq]. pose proof (rtc_ver _ _ (irun_within E p s1 a s' Hw H)).
    assert (ver s1 = ver s) as E1 by lia. rewrite Es in Heq.
    destruct (IH Hp Hw ltac:(lia) Es') as [H1 H2]. rewrite H1, (Heq ltac:(lia)). split; [done|].
    intros t Ht. rewrite <- (Heq ltac:(lia)). apply H2. by rewrite (Heq ltac:(lia)).
Qed.

(** A loop that reads the counter (as a word of 32 bits), runs a pass over the copy it
    selects, reads the counter again and repeats when it moved.  The local variables
    [l] are those of the function: a pass starts with what the last one left.  The
    fuel is the number of passes. *)
Fixpoint verlock {L} (fuel : nat) (body : Z -> L -> act S L) (l : L) : act S L :=
  match fuel with
  | O => Fail
  | Datatypes.S fuel' =>
      alet v := aread (fun s => u32 (ver s)) in
      alet l' := body v l in
      alet v' := aread (fun s => u32 (ver s)) in
      if v =? v' then Ret l' else verlock fuel' body l'
  end.

Context {L : Type} (body : Z -> L -> act S L).
Context (Hbody : forall v l, reads v (body v l)) (Hwithin : forall v l, within E (body v l)).
Context (Hview : forall v s, view (u32 v) s = view v s).

Lemma reads_word {A} v (p : act S A) : reads (u32 v) p -> reads v p.
Proof.
  induction p as [|f k IH|]; simpl; [done| |done]. intros (H1 & H2 & H3). split_and!; [|intros s t Hst; apply H2; by rewrite !Hview|auto].
  intros s. specialize (H1 s). by rewrite !Hview in H1.
Qed.

Lemma verlock_within fuel l : within E (verlock fuel body l).
Proof.
  revert l. induction fuel as [|fuel IH]; intros l; [done|]. cbn [verlock]. apply within_bind; [apply within_aread|].
  intros v. apply within_bind; [done|]. intros l'. apply within_bind; [apply within_aread|]. intros v'.
  by destruct (v =? v').
Qed.

(** The values that local variables can have when a pass starts: those of the start,
    and what a pass in interference leaves of them. *)
Inductive left_by (l0 : L) : L -> Prop :=
  | left_start : left_by l0 l0
  | left_pass l l' v s s' : left_by l0 l -> irun E (body v l) s l' s' -> left_by l0 l'.

Lemma left_by_pass l v s l' s' l1 : irun E (body v l) s l' s' -> left_by l' l1 -> left_by l l1.
Proof. intros H Hl. induction Hl as [|]; [eapply left_pass; [constructor|done]|by eapply left_pass]. Qed.

(** The word is the same only when the counter is, when it moves less than 2^32 times. *)
Lemma word_same s t : ver s <= ver t < ver s + 2 ^ 32 -> u32 (ver s) = u32 (ver t) -> ver s = ver t.
Proof.
  unfold wrap. intros Hle Ev. pose proof (Z.div_mod (ver s) (2 ^ 32) ltac:(lia)).
  pose proof (Z.div_mod (ver t) (2 ^ 32) ltac:(lia)). lia.
Qed.

(** The result of the loop is that of a pass that ran, in effect, alone at one moment. *)
Lemma verlock_last fuel l s a s' : irun E (verlock fuel body l) s a s' -> ver s' < ver s + 2 ^ 32 ->
  exists l1 t t', left_by l l1 /\ (ver s' = ver s -> l1 = l) /\ rtc E s t /\ rtc E t s' /\ run (body (u32 (ver t)) l1) t = Some (t', a).
Proof.
  revert l s. induction fuel as [|fuel IH]; intros l s; cbn [verlock]; [by intros H%irun_fail|].
  intros H Hfew. apply irun_first in H as (t & Ht & H). cbn [fst snd] in H.
  apply irun_bind in H as (l' & s2 & H2 & H). pose proof (irun_within _ _ _ _ _ (Hwithin _ _) H2) as W2.
  apply irun_first in H as (t2 & Ht2 & H). cbn [fst snd] in H.
  pose proof (rtc_ver _ _ Ht). pose proof (rtc_ver _ _ W2). pose proof (rtc_ver _ _ Ht2).
  destruct (u32 (ver t) =? u32 (ver t2)) eqn:Ev.
  - apply irun_ret_inv in H as [-> W3]. pose proof (rtc_ver _ _ W3). apply Z.eqb_eq, word_same in Ev; [|lia].
    destruct (irun_snapshot _ _ _ _ (ver t) H2 (reads_word _ _ (Hbody _ _)) (Hwithin _ _) eq_refl ltac:(lia)) as [_ Hrun].
    destruct (Hrun t eq_refl) as (t' & Hr & _). exists l, t, t'. split_and!; [constructor|done|done| |done].
    do 2 (etrans; [done|]). done.
  - pose proof (rtc_ver _ _ (irun_within _ _ _ _ _ (verlock_within _ _) H)).
    destruct (IH l' t2 H ltac:(lia)) as (l1 & t1 & t1' & Hl & _ & Hs1 & Hs2 & Hr).
    exists l1, t1, t1'. split_and!; [by eapply left_by_pass| | |done|done].
    { intros Heq. apply Z.eqb_neq in Ev. destruct Ev. f_equal. lia. }
    do 3 (etrans; [done|]). done.
Qed.

(** With nobody moving the counter one pass is enough. *)
Lemma verlock_quiet l s s' a : run (body (u32 (ver s)) l) s = Some (s', a) -> ver s' = ver s ->
  run (verlock 1 body l) s = Some (s', a).
Proof.
  intros H Hv. cbn [verlock]. rewrite run_bind, run_read. simpl. rewrite run_bind, H. simpl.
  by rewrite Hv, Z.eqb_refl.
Qed.

End Snapshot.
