(* ===== verification/Cplane.v ===== *)
(** * Cplane: the tables of the control plane ([cplane/mib.h])

    The control-plane server keeps tables of interfaces, addresses and routes in
    memory that its clients read while the server changes it.  Pure functions on
    addresses, prefixes and masks are functions; whatever reads the shared tables is
    a program of atomic reads ([Atomic], [Snapshot]), so that the same definition is
    run alone or in interference.  An access outside a table, a failed assertion and
    undefined arithmetic have no result. *)

From Stdlib Require Import ZArith Lia Bool String Strings.Byte.
From S2P Require Import Prelude Bytes BitField IpAddr Hash Atomic Snapshot.

(** ** Identifiers and masks *)

Definition CICP_ROWID_BAD : Z := -1.
Definition CICP_ROWID_IS_VALID (id : Z) : bool := 0 <=? swrap 16 id.
Definition CICP_MAC_ROWID_BAD : Z := -1.
Definition CICP_MAC_ROWID_IS_VALID (id : Z) : bool := 0 <=? i32 id.
Definition CI_HWPORT_ID_BAD : Z := u8 (-1).
Definition CI_IFID_BAD : Z := 0.
Definition CI_IFID_LOOP : Z := 1.
Definition CI_IP_PREFIXLEN_BAD : Z := 0xff.
Definition IPTOS_TOS_MASK : Z := 0x1E.
Definition IPTOS_RT_MASK : Z := Z.ldiff IPTOS_TOS_MASK 3.

Definition CICP_LLAP_TYPE_VLAN : Z := 0x1.
Definition CICP_LLAP_TYPE_SLAVE : Z := 0x4.
Definition CICP_LLAP_TYPE_XMIT_HASH_LAYER2 : Z := 0x8.
Definition CICP_LLAP_TYPE_XMIT_HASH_LAYER34 : Z := 0x10.
Definition CICP_LLAP_TYPE_XMIT_HASH_LAYER23 : Z := 0x20.
Definition CICP_LLAP_TYPE_USES_HASH : Z :=
  Z.lor (Z.lor CICP_LLAP_TYPE_XMIT_HASH_LAYER34 CICP_LLAP_TYPE_XMIT_HASH_LAYER2) CICP_LLAP_TYPE_XMIT_HASH_LAYER23.

(** [ffs] of the C library: the number of the lowest set bit, from 1; 0 for none. *)
Fixpoint ffs_from (n : nat) (i x : Z) : Z :=
  match n with
  | O => 0
  | S n' => if Z.testbit x i then i + 1 else ffs_from n' (i + 1) x
  end.
Definition ffs (x : Z) : Z := ffs_from 32 0 x.

Definition cp_hwport_mask_first (mask : Z) : Z := u8 (ffs mask - 1).
Definition cp_hwport_make_mask (hwport : Z) : Z := if 16 <=? hwport then 0 else u16 (Z.shiftl 1 hwport).

(** ** Prefixes *)

Definition CI_BSWAP_64 (v : Z) : Z := le_decode (rev (le_encode 8 v)).
Definition CI_BSWAP_BE64 (v : Z) : Z := CI_BSWAP_64 v.

(** [1 << n] of type int is undefined when the result is not an int. *)
Definition one_shl_int (n : Z) : option Z := if (0 <=? n) && (n <? 31) then Some (Z.shiftl 1 n) else None.

Definition cp_prefixlen2bitmask (len : Z) : option Z :=
  low ← (if len =? 0 then Some 0xffffffff else b ← one_shl_int (32 - len); Some (b - 1));
  Some (CI_BSWAP_BE32 (Z.lnot low)).

Definition cp_ip_prefix_match (ip1 ip2 len : Z) : option bool :=
  m ← cp_prefixlen2bitmask len; Some (Z.land (Z.lxor ip1 ip2) m =? 0).

(** A store to an array of words. *)
Definition set_at (i : nat) (v : Z) (m : list Z) : option (list Z) :=
  if decide (i < length m)%nat then Some (<[i := v]> m) else None.

Fixpoint pfx2mask_loop (fuel : nat) (m : list Z) (i : nat) (pfx : Z) : option (list Z) :=
  match fuel with
  | O => None
  | S fuel' =>
      if 64 <? pfx then m' ← set_at i 0xffffffffffffffff m; pfx2mask_loop fuel' m' (S i) (u8 (pfx - 64))
      else if negb (pfx =? 0) then set_at i (CI_BSWAP_BE64 (u64 (Z.shiftl 0xffffffffffffffff (64 - pfx)))) m
      else Some m
  end.

(** A prefix has 8 bits: the loop ends in its fourth pass at the latest. *)
Definition cp_ip6_pfx2mask (pfx : Z) : option ci_addr_t :=
  if pfx <=? 128 then
    m ← pfx2mask_loop 4 [0; 0] 0 pfx;
    match m with [w0; w1] => Some (from_u64 w0 w1) | _ => None end
  else None.

Definition cp_addr_apply_pfx (a : ci_addr_t) (pfx : Z) : option ci_addr_t :=
  m ← cp_ip6_pfx2mask pfx;
  Some (from_u64 (Z.land (u64_of a 0) (u64_of m 0)) (Z.land (u64_of a 1) (u64_of m 1))).

Definition cp_ip6_pfx_match (a b : ci_addr_t) (pfx : Z) : option bool :=
  m ← cp_ip6_pfx2mask pfx; Some (ci_ipx_addr_sh_masked_eq a b m).

(** ** Sets of prefix lengths: three words, most significant first *)

Definition ci_ip6_pfx_t : Type := list Z.

Definition bw_not_192 (x : ci_ip6_pfx_t) : ci_ip6_pfx_t := map (fun w => u64 (Z.lnot w)) x.
Definition bw_and_192 (x y : ci_ip6_pfx_t) : ci_ip6_pfx_t := zip_with Z.land x y.
Definition bw_or_192 (x y : ci_ip6_pfx_t) : ci_ip6_pfx_t := zip_with Z.lor x y.
Definition bw_shift_bit_192 (shift : Z) : option ci_ip6_pfx_t :=
  let i := 2 - shift / 64 in
  if 0 <=? i then set_at (Z.to_nat i) (u64 (Z.shiftl 1 (shift mod 64))) [0; 0; 0] else None.

(** [__builtin_clzll] of a nonzero word. *)
Definition clzll (v : Z) : Z := 63 - Z.log2 v.

Fixpoint clz192_loop (res : Z) (x : ci_ip6_pfx_t) : Z :=
  match x with
  | [] => 191
  | val :: x' => if val =? 0 then clz192_loop (res + 64) x' else res + clzll val
  end.
Definition ci_clz192 (x : ci_ip6_pfx_t) : Z := clz192_loop 0 x.

Definition cp_ip6_get_largest_prefix (prefix_bitmask : ci_ip6_pfx_t) : Z := u8 (191 - ci_clz192 prefix_bitmask).
Definition cp_get_largest_prefix (prefix_bitmask : ci_ip6_pfx_t) : Z := cp_ip6_get_largest_prefix prefix_bitmask.

(** [memcmp] of the words, as a test for difference. *)
Definition cp_get_fwd_pfx_cmp (a b : ci_ip6_pfx_t) : bool := negb (bool_decide (a = b)).

(** ** Rows *)

Record cicp_encap_t := { enc_type : Z; enc_vlan_id : Z; enc_link_ifindex : Z }.

Record cicp_llap_row := {
  ll_ifindex : Z; ll_mtu : Z; ll_flags : Z; ll_name : string; ll_mac : list Z; ll_encap : cicp_encap_t;
  ll_tx_hwports : Z; ll_rx_hwports : Z; ll_xdp_prog_id : Z; ll_iif_fwd_table_id : Z }.

Record cp_hwport_row := { hw_flags : Z; hw_nic_flags : Z; hw_xdp_prog_id : Z }.
Definition CP_HWPORT_ROW_IN_USE : Z := 0x200.

Record cicp_ipif_row := { if_net_ip : Z; if_net_ipset : Z; if_ifindex : Z; if_bcast_ip : Z; if_scope : Z }.
Record cicp_ip6if_row := { if6_net_ip6 : ci_addr_t; if6_net_ipset : Z; if6_ifindex : Z; if6_scope : Z }.

Record cp_fwd_key := { k_src : ci_addr_t; k_dst : ci_addr_t; k_ifindex : Z; k_tos : Z; k_iif_ifindex : Z; k_flag : Z }.
Definition CP_FWD_KEY_TRANSPARENT : Z := 0x20.
Definition fwd_key2af (key : cp_fwd_key) : af := if CI_IS_ADDR_SH_IP6 (k_dst key) then AF_INET6 else AF_INET.

Record cp_fwd_multipath_weight := { w_end : Z; w_val : Z; w_flag : Z }.
Definition CP_FWD_MULTIPATH_FLAG_LAST : Z := 1.
Definition CP_FWD_MULTIPATH_WEIGHT_NONE : Z := u32 (-1).

Definition cp_fwd_weight_match (val : Z) (w : cp_fwd_multipath_weight) : bool :=
  if val =? CP_FWD_MULTIPATH_WEIGHT_NONE
  then (w_end w =? 0) || negb (Z.land (w_flag w) CP_FWD_MULTIPATH_FLAG_LAST =? 0)
  else (val <? w_end w) && (u32 (w_end w - w_val w) <=? val).

Record cp_fwd_data := {
  fd_src : ci_addr_t; fd_next_hop : ci_addr_t; fd_mtu : Z; fd_ifindex : Z; fd_hop_limit : Z; fd_flags : Z;
  fd_src_mac : Z; fd_hwports : Z; fd_dst_mac : Z; fd_encap : cicp_encap_t; fd_weight : cp_fwd_multipath_weight }.
Definition CICP_FWD_DATA_FLAG_ARP_VALID : Z := 1.

(** The versions are counters of which memory holds the low 32 bits. *)
Record cp_fwd_row := {
  fw_key : cp_fwd_key; fw_src_prefix : Z; fw_dst_prefix : Z; fw_data0 : cp_fwd_data; fw_data1 : cp_fwd_data;
  fw_use : Z; fw_version : Z; fw_flags : Z; fw_frc_stale : Z }.
Definition CICP_FWD_FLAG_STALE : Z := 0x1.
Definition CICP_FWD_FLAG_OCCUPIED : Z := 0x80.

Record cp_fwd_rw_row := { rw_frc_used : Z; rw_flags : Z }.
Definition CICP_FWD_RW_FLAG_ARP_NEED_REFRESH : Z := 0x1.

Definition cicp_llap_row_is_free (ifindex : Z) : bool := ifindex =? CI_IFID_BAD.
Definition cicp_hwport_row_is_free (flags : Z) : bool := Z.land flags CP_HWPORT_ROW_IN_USE =? 0.
Definition cicp_ipif_row_is_free (net_ipset : Z) : bool := net_ipset =? CI_IP_PREFIXLEN_BAD.
Definition cicp_ip6if_row_is_free (net_ipset : Z) : bool := net_ipset =? CI_IP_PREFIXLEN_BAD.

Definition cp_fwd_key_match (fwd : cp_fwd_row) (key : cp_fwd_key) : option bool :=
  let real_fwd_tos := Z.land (k_tos (fw_key fwd)) IPTOS_RT_MASK in
  let real_key_tos := Z.land (k_tos key) IPTOS_RT_MASK in
  src_mask ← cp_ip6_pfx2mask (fw_src_prefix fwd);
  dst_mask ← cp_ip6_pfx2mask (fw_dst_prefix fwd);
  let addr_match := ci_ipx_addr_sh_masked_eq (k_src (fw_key fwd)) (k_src key) src_mask &&
                    ci_ipx_addr_sh_masked_eq (k_dst (fw_key fwd)) (k_dst key) dst_mask in
  Some (negb (Z.land (fw_flags fwd) CICP_FWD_FLAG_OCCUPIED =? 0) && addr_match &&
        (k_ifindex (fw_key fwd) =? k_ifindex key) && (real_fwd_tos =? real_key_tos) &&
        (k_iif_ifindex (fw_key fwd) =? k_iif_ifindex key) &&
        (Z.land (Z.lxor (k_flag (fw_key fwd)) (k_flag key)) CP_FWD_KEY_TRANSPARENT =? 0)).

(** ** The shared memory *)

(** The sizes that the functions below use; the server's signal and process numbers and
    the version counters of its subsystems are left out. *)
Record cp_tables_dim := {
  hwport_max : Z; llap_max : Z; ipif_max : Z; ip6if_max : Z; svc_arrays_max : Z; svc_ep_max : Z;
  fwd_ln2 : Z; fwd_mask : Z }.

Record cp_fwd_table := {
  ft_mask : Z; ft_rows : list cp_fwd_row; ft_prefix_src : ci_ip6_pfx_t; ft_prefix_dst : ci_ip6_pfx_t;
  ft_rw_rows : list cp_fwd_rw_row }.

(** One of the two frames with the tables of a version; the tables of services, which
    only the server and the kernel read, are left out. *)
Record cp_mibs := {
  hwport : list cp_hwport_row; llap : list cicp_llap_row; ipif : list cicp_ipif_row; ip6if : list cicp_ip6if_row }.

(** What a client maps: the version that both frames point to, the dimensions, the
    two frames and the table of routes. *)
Record cplane := {
  cversion : Z; dim : cp_tables_dim; mib0 : cp_mibs; mib1 : cp_mibs; fwd_table : cp_fwd_table }.

Definition mib (i : Z) (s : cplane) : cp_mibs := if i =? 0 then mib0 s else mib1 s.

(** A read of a field of row [i] of a table, which must be inside the table. *)
Definition cell {A} (l : cplane -> list A) (i : Z) (get : A -> Z) : act cplane Z :=
  alet ok := aread (fun s => Z.b2z ((0 <=? i) && (i <? Z.of_nat (length (l s))))) in
  aassert (ok =? 1) (aread (fun s => match l s !! Z.to_nat i with Some r => get r | None => 0 end)).

#[global] Arguments cell : simpl never.

(** [for( i = 0; i < max; i++ )] with a row identifier of 16 bits and a body that says
    whether to leave the loop. *)
Fixpoint for_rows {D} (fuel : nat) (max : cplane -> Z) (body : D -> Z -> act cplane (D * bool)) (d : D) (i : Z)
    : act cplane D :=
  match fuel with
  | O => Fail
  | S fuel' =>
      alet m := aread max in
      if i <? m then
        alet r := body d i in
        if snd r then Ret (fst r) else for_rows fuel' max body (fst r) (swrap 16 (i + 1))
      else Ret d
  end.

(** An identifier has 2^15 values from 0 on; the next one is outside every table. *)
Definition rowids : nat := Z.to_nat 32769.
#[global] Arguments rowids : simpl never.

Section Tables.
Variable m : Z.

(** The body of the loop of [cp_llap_find_row]. *)
Definition find_row_pass (ifindex d i : Z) : act cplane (Z * bool) :=
  alet x := cell (fun s => llap (mib m s)) i ll_ifindex in
  if x =? ifindex then Ret (i, true)
  else
    alet y := cell (fun s => llap (mib m s)) i ll_ifindex in
    if cicp_llap_row_is_free y then Ret (CICP_ROWID_BAD, true) else Ret (d, false).

Definition cp_llap_find_row (ifindex : Z) : act cplane Z :=
  aassert (negb (ifindex =? CI_IFID_BAD))
    (for_rows rowids (fun s => llap_max (dim s)) (find_row_pass ifindex) CICP_ROWID_BAD 0).

Definition cp_llap_by_ifname (ifname : string) : act cplane Z :=
  for_rows rowids (fun s => llap_max (dim s)) (fun d i =>
    alet differ := cell (fun s => llap (mib m s)) i (fun r => Z.b2z (negb (String.eqb (ll_name r) ifname))) in
    if differ =? 0 then Ret (i, true)
    else
      alet y := cell (fun s => llap (mib m s)) i ll_ifindex in
      if cicp_llap_row_is_free y then Ret (CICP_ROWID_BAD, true) else Ret (d, false))
    CICP_ROWID_BAD 0.

Definition cp_ipif_any_row_by_ifindex (ifindex : Z) : act cplane Z :=
  for_rows rowids (fun s => ipif_max (dim s)) (fun d i =>
    alet x := cell (fun s => ipif (mib m s)) i if_ifindex in
    if x =? ifindex then Ret (i, true)
    else
      alet y := cell (fun s => ipif (mib m s)) i if_net_ipset in
      if cicp_ipif_row_is_free y then Ret (CICP_ROWID_BAD, true) else Ret (d, false))
    CICP_ROWID_BAD 0.

Fixpoint hwports_loop (fuel : nat) (all_hwports hwports : Z) : act cplane Z :=
  match fuel with
  | O => Fail
  | S fuel' =>
      if hwports =? 0 then Ret all_hwports
      else
        let id := cp_hwport_mask_first hwports in
        alet flags := cell (fun s => hwport (mib m s)) id hw_flags in
        hwports_loop fuel'
          (if cicp_hwport_row_is_free flags then all_hwports else Z.lor all_hwports (cp_hwport_make_mask id))
          (Z.land hwports (hwports - 1))
  end.

(** A mask has 16 bits and every pass clears one. *)
Definition cp_get_hwports (hwports : Z) : act cplane Z := hwports_loop 17 0 hwports.

End Tables.

(** ** The table of routes *)

Record cicp_verinfo_t := { vi_id : Z; vi_version : Z }.

Definition cp_get_fwd_by_id (id : Z) : act cplane Z :=
  aassert (negb (id =? CICP_MAC_ROWID_BAD)) (aassert (CICP_MAC_ROWID_IS_VALID id) (
    alet mask := aread (fun s => ft_mask (fwd_table s)) in aassert (id <=? mask) (Ret id))).
Definition cp_get_fwd (ver : cicp_verinfo_t) : act cplane Z := cp_get_fwd_by_id (vi_id ver).

(** The copy of the data that a version selects. *)
Definition cp_fwd_data_at (version : Z) (r : cp_fwd_row) : cp_fwd_data :=
  if Z.land version 1 =? 0 then fw_data0 r else fw_data1 r.
(** A field of the data that [cp_get_fwd_data] points to. *)
Definition cp_get_fwd_data (ver : cicp_verinfo_t) (get : cp_fwd_data -> Z) : act cplane Z :=
  alet id := cp_get_fwd ver in
  cell (fun s => ft_rows (fwd_table s)) id (fun r => get (cp_fwd_data_at (vi_version ver) r)).
Definition cp_fwd_version (id : Z) : act cplane Z :=
  cell (fun s => ft_rows (fwd_table s)) id (fun r => u32 (fw_version r)).
Definition cp_get_fwd_data_current (r : cp_fwd_row) : cp_fwd_data := cp_fwd_data_at (u32 (fw_version r)) r.

Definition cp_get_fwd_rw (ver : cicp_verinfo_t) : act cplane Z :=
  aassert (negb (vi_id ver =? CICP_MAC_ROWID_BAD)) (aassert (CICP_MAC_ROWID_IS_VALID (vi_id ver)) (Ret (vi_id ver))).

Definition set_rw (id : Z) (f : cp_fwd_rw_row -> cp_fwd_rw_row) (s : cplane) : cplane :=
  {| cversion := cversion s; dim := dim s; mib0 := mib0 s; mib1 := mib1 s;
     fwd_table := {| ft_mask := ft_mask (fwd_table s); ft_rows := ft_rows (fwd_table s);
       ft_prefix_src := ft_prefix_src (fwd_table s); ft_prefix_dst := ft_prefix_dst (fwd_table s);
       ft_rw_rows := alter f (Z.to_nat id) (ft_rw_rows (fwd_table s)) |} |}.

(** A store to a writable row, which must be inside the table. *)
Definition rw_write (id : Z) (f : cp_fwd_rw_row -> cp_fwd_rw_row) : act cplane Z :=
  alet ok := aread (fun s => Z.b2z ((0 <=? id) && (id <? Z.of_nat (length (ft_rw_rows (fwd_table s)))))) in
  aassert (ok =? 1) (awrite (set_rw id f)).
Definition set_frc_used (frc : Z) (r : cp_fwd_rw_row) : cp_fwd_rw_row :=
  {| rw_frc_used := frc; rw_flags := rw_flags r |}.

(** [frc] is the cycle counter when it is read. *)
Definition cp_fwd_version_matches (frc : Z) (ver : cicp_verinfo_t) : act cplane Z :=
  aassert (negb (vi_id ver =? CICP_MAC_ROWID_BAD)) (aassert (CICP_MAC_ROWID_IS_VALID (vi_id ver)) (
    alet fwd := cp_get_fwd ver in
    alet v := cp_fwd_version fwd in
    if vi_version ver =? v then
      alet flags := cell (fun s => ft_rows (fwd_table s)) fwd fw_flags in
      if negb (Z.land flags CICP_FWD_FLAG_STALE =? 0) then
        alet rw := cp_get_fwd_rw ver in
        alet used := cell (fun s => ft_rw_rows (fwd_table s)) rw rw_frc_used in
        alet stale := cell (fun s => ft_rows (fwd_table s)) fwd fw_frc_stale in
        if swrap 64 (used - stale) <? 0 then alet x := rw_write rw (set_frc_used frc) in Ret 1
        else Ret 1
      else Ret 1
    else Ret 0)).

Definition ci_frc64_after (old_frc new_frc : Z) : bool := 0 <? swrap 64 (new_frc - old_frc).
Definition CP_REHASH_LIMIT (mask : Z) : Z := Z.shiftr mask 2.
Definition cp_fwd_find_row_found_perfect_match (id : Z) : bool := negb (id =? CICP_MAC_ROWID_BAD).

(** ** Prefixes: bits in the order of the network *)

(** The place in memory of bit [i] of an address, counted from the first bit sent. *)
Definition bit_place (i : Z) : Z := 8 * (i / 8) + (7 - i mod 8).
Definition net_bit (a i : Z) : bool := Z.testbit a (bit_place i).
Definition agree (n a b : Z) : Prop := forall i, 0 <= i < n -> net_bit a i = net_bit b i.

Lemma bit_place_ok n i : 0 <= n -> 0 <= i < 8 * n -> 0 <= bit_place i < 8 * n /\ bit_place (bit_place i) = i.
Proof. unfold bit_place. intros. Z.to_euclidean_division_equations. lia. Qed.

Lemma net_bit_place n a k : 0 <= n -> 0 <= k < 8 * n -> Z.testbit a k = net_bit a (bit_place k).
Proof. intros Hn Hk. unfold net_bit. by rewrite (proj2 (bit_place_ok n k Hn Hk)). Qed.

(** The first [p] bits of [m] are set, among [n]. *)
Definition leading_ones (n p m : Z) : bool :=
  (0 <=? m) && (m <? 2 ^ n) && forallb (fun i => Bool.eqb (net_bit m i) (i <? p)) (seqZ 0 n).

Lemma leading_ones_spec n p m : leading_ones n p m = true ->
  0 <= m < 2 ^ n /\ forall i, 0 <= i < n -> net_bit m i = (i <? p).
Proof.
  unfold leading_ones. rewrite !andb_true_iff, forallb_forall. intros [[H1 H2] H3]. split; [lia|].
  intros i Hi. apply eqb_prop, H3, list_elem_of_In, elem_of_seqZ. lia.
Qed.

Lemma pfx2mask_all : forallb (fun p => match cp_ip6_pfx2mask p with
  | Some m => leading_ones 128 p m | None => false end) (seqZ 0 129) = true.
Proof. by vm_compute. Qed.

Lemma pfx2mask_spec p : 0 <= p <= 128 -> exists m, cp_ip6_pfx2mask p = Some m /\ addr_ok m /\
  forall i, 0 <= i < 128 -> net_bit m i = (i <? p).
Proof.
  intros Hp. pose proof pfx2mask_all as H. rewrite forallb_forall in H.
  specialize (H p ltac:(apply list_elem_of_In, elem_of_seqZ; lia)).
  destruct (cp_ip6_pfx2mask p) as [m|]; [|done]. exists m. split; [done|]. by apply leading_ones_spec.
Qed.

Lemma land_agree a b m p n : 0 <= n -> p <= 8 * n -> (forall i, 0 <= i < 8 * n -> net_bit m i = (i <? p)) ->
  (forall k, 8 * n <= k -> Z.testbit m k = false) -> Z.land a m = Z.land b m <-> agree p a b.
Proof.
  intros Hn Hp Hm Hhi. split.
  - intros E i Hi. apply (f_equal (fun z => net_bit z i)) in E. specialize (Hm i ltac:(lia)). unfold net_bit in *.
    rewrite !Z.land_spec, Hm in E. rewrite (proj2 (Z.ltb_lt i p)) in E by lia.
    by rewrite !andb_true_r in E.
  - intros Ha. apply Z.bits_inj'. intros k Hk. rewrite !Z.land_spec.
    destruct (Z.lt_ge_cases k (8 * n)) as [Hlt|Hge]; [|by rewrite Hhi, !andb_false_r by lia].
    rewrite !(net_bit_place n _ k) by lia. destruct (bit_place_ok n k Hn ltac:(lia)) as [Hr _].
    rewrite Hm by lia. destruct (Z.ltb_spec (bit_place k) p); [|by rewrite !andb_false_r].
    f_equal. apply Ha. lia.
Qed.

Lemma land_lxor a b m : Z.lxor (Z.land a m) (Z.land b m) = Z.land (Z.lxor a b) m.
Proof.
  apply Z.bits_inj'. intros k Hk. rewrite Z.lxor_spec, !Z.land_spec, Z.lxor_spec.
  by destruct (Z.testbit a k), (Z.testbit b k), (Z.testbit m k).
Qed.

Lemma high_clear m n : 0 <= m < 2 ^ n -> forall k, n <= k -> Z.testbit m k = false.
Proof. intros Hm k Hk. by apply (testbit_small m n). Qed.

Lemma pfx_match_spec a b p : 0 <= p <= 128 -> exists r,
  cp_ip6_pfx_match a b p = Some r /\ (r = true <-> agree p a b).
Proof.
  intros Hp. destruct (pfx2mask_spec p Hp) as (m & E & Hm & Hb). unfold cp_ip6_pfx_match. rewrite E.
  exists (ci_ipx_addr_sh_masked_eq a b m). split; [done|].
  change (ci_ipx_addr_sh_masked_eq a b m) with (ci_ipx_addr_masked_eq a b m). rewrite masked_eq_spec by done.
  apply (land_agree _ _ _ _ 16); [lia|lia|done|]. apply (high_clear m 128), Hm.
Qed.

Lemma from_u64_of x : addr_ok x -> from_u64 (u64_of x 0) (u64_of x 1) = x.
Proof.
  intros Hx. pose proof (getbits_range 0 64 x ltac:(lia)). pose proof (getbits_range 64 64 x ltac:(lia)).
  rewrite from_u64_add by done. rewrite u64_lo, u64_hi by done. pose proof (Z.div_mod x (2 ^ 64) ltac:(lia)). lia.
Qed.

Lemma apply_pfx_spec a p : addr_ok a -> 0 <= p <= 128 -> exists a', cp_addr_apply_pfx a p = Some a' /\ addr_ok a' /\
  forall i, 0 <= i < 128 -> net_bit a' i = (i <? p) && net_bit a i.
Proof.
  intros Ha Hp. destruct (pfx2mask_spec p Hp) as (m & E & Hm & Hb). unfold cp_addr_apply_pfx. rewrite E.
  exists (Z.land a m). simpl. unfold u64_of. rewrite <- !getbits_land.
  pose proof (land_ok a m Hm) as Hl. split; [f_equal; by apply (from_u64_of (Z.land a m))|]. split; [done|].
  intros i Hi. unfold net_bit. rewrite Z.land_spec. fold (net_bit m i). rewrite Hb by done. apply andb_comm.
Qed.

Definition bitmask_defined (l : Z) : bool := (l =? 0) || ((2 <=? l) && (l <=? 32)).

Lemma bitmask_all : forallb (fun l => match cp_prefixlen2bitmask l with
  | Some m => bitmask_defined l && leading_ones 32 l m
  | None => negb (bitmask_defined l) end) (seqZ 0 256) = true.
Proof. by vm_compute. Qed.

Lemma ip4_net_bit ip i : 0 <= ip < 2 ^ 32 -> 0 <= i < 32 -> net_bit (CI_ADDR_SH_FROM_IP4 ip) (96 + i) = net_bit ip i.
Proof.
  intros Hip Hi. unfold net_bit. replace (bit_place (96 + i)) with (96 + bit_place i).
  2:{ unfold bit_place. Z.to_euclidean_division_equations. lia. }
  destruct (bit_place_ok 4 i ltac:(lia) Hi) as [Hr _].
  change (CI_ADDR_SH_FROM_IP4 ip) with (CI_ADDR_FROM_IP4 ip). rewrite from_ip4_add by done.
  replace (2 ^ 64 * (0xffff0000 + 2 ^ 32 * ip)) with (ip * 2 ^ 96 + 0xffff0000 * 2 ^ 64) by lia.
  rewrite (Z.add_comm 96), <- (Z.div_pow2_bits _ 96) by lia. f_equal. rewrite Z.div_add_l by lia.
  change (0xffff0000 * 2 ^ 64 / 2 ^ 96) with 0. lia.
Qed.

Lemma ip4_mapped_low ip1 ip2 : 0 <= ip1 < 2 ^ 32 -> 0 <= ip2 < 2 ^ 32 ->
  agree 96 (CI_ADDR_SH_FROM_IP4 ip1) (CI_ADDR_SH_FROM_IP4 ip2).
Proof.
  intros H1 H2 i Hi. unfold net_bit. destruct (bit_place_ok 12 i ltac:(lia) ltac:(lia)) as [Hr _].
  change CI_ADDR_SH_FROM_IP4 with CI_ADDR_FROM_IP4. rewrite !from_ip4_add by done.
  rewrite <- (Z.mod_pow2_bits_low _ 96) by lia. symmetry. rewrite <- (Z.mod_pow2_bits_low _ 96) by lia. f_equal.
  replace (2 ^ 64 * (0xffff0000 + 2 ^ 32 * ip1)) with (0xffff0000 * 2 ^ 64 + ip1 * 2 ^ 96) by lia.
  replace (2 ^ 64 * (0xffff0000 + 2 ^ 32 * ip2)) with (0xffff0000 * 2 ^ 64 + ip2 * 2 ^ 96) by lia.
  by rewrite !Z.mod_add by lia.
Qed.

(** The prefixes of IPv4 addresses agree with those of the mapped addresses, where
    the mask of an IPv4 prefix is defined. *)
Lemma ip4_prefix_match_spec ip1 ip2 len : 0 <= ip1 < 2 ^ 32 -> 0 <= ip2 < 2 ^ 32 -> 0 <= len < 256 ->
  cp_ip_prefix_match ip1 ip2 len = if decide (len = 0 \/ 2 <= len <= 32)
    then cp_ip6_pfx_match (CI_ADDR_SH_FROM_IP4 ip1) (CI_ADDR_SH_FROM_IP4 ip2) (96 + len) else None.
Proof.
  intros H1 H2 Hl. pose proof bitmask_all as H. rewrite forallb_forall in H.
  specialize (H len ltac:(apply list_elem_of_In, elem_of_seqZ; lia)).
  unfold cp_ip_prefix_match. destruct (cp_prefixlen2bitmask len) as [m|].
  2:{ rewrite decide_False; [done|]. unfold bitmask_defined in H. lia. }
  apply andb_prop in H as [Hd [Hm Hb]%leading_ones_spec]. unfold bitmask_defined in Hd.
  rewrite decide_True by lia.
  destruct (pfx_match_spec (CI_ADDR_SH_FROM_IP4 ip1) (CI_ADDR_SH_FROM_IP4 ip2) (96 + len) ltac:(lia)) as (r & -> & Hr).
  simpl. f_equal. apply eq_bool_prop_intro. rewrite !Is_true_true, Hr, Z.eqb_eq.
  transitivity (Z.land ip1 m = Z.land ip2 m).
  { rewrite <- (Z.lxor_eq_0_iff (Z.land ip1 m)). by rewrite land_lxor. }
  rewrite (land_agree ip1 ip2 m len 4); [|lia|lia| |].
  - split.
    + intros Ha i Hi. destruct (Z.lt_ge_cases i 96); [apply ip4_mapped_low; lia|].
      replace i with (96 + (i - 96)) by lia. rewrite !ip4_net_bit by lia. apply Ha. lia.
    + intros Ha i Hi. rewrite <- (ip4_net_bit ip1), <- (ip4_net_bit ip2) by lia. apply Ha. lia.
  - intros i Hi. by apply Hb.
  - apply (high_clear m 32), Hm.
Qed.

(** C22: prefix tests are exact.  For every prefix length up to 128 two addresses match
    exactly when their first bits, in the order of the network, agree, and applying a
    prefix clears exactly the other bits.  The test on IPv4 addresses is the test on
    the mapped addresses at 96 more bits, for the lengths 0 and 2 to 32; for length 1
    and for more than 32 the shift in the mask is undefined. *)
Theorem prefix_matching_exact a b p ip1 ip2 len : addr_ok a -> addr_ok b -> 0 <= p <= 128 ->
  0 <= ip1 < 2 ^ 32 -> 0 <= ip2 < 2 ^ 32 -> 0 <= len < 256 ->
  (exists r, cp_ip6_pfx_match a b p = Some r /\ (r = true <-> agree p a b)) /\
  (exists a', cp_addr_apply_pfx a p = Some a' /\ addr_ok a' /\
     forall i, 0 <= i < 128 -> net_bit a' i = (i <? p) && net_bit a i) /\
  cp_ip_prefix_match ip1 ip2 len = (if decide (len = 0 \/ 2 <= len <= 32)
    then cp_ip6_pfx_match (CI_ADDR_SH_FROM_IP4 ip1) (CI_ADDR_SH_FROM_IP4 ip2) (96 + len) else None).
Proof. intros. split_and!; [by apply pfx_match_spec|by apply apply_pfx_spec|by apply ip4_prefix_match_spec]. Qed.

(** 10.1.2.3 and 10.1.200.9 agree in 16 bits and not in 17. *)
Lemma prefix_matching_exact_witness :
  cp_ip_prefix_match 0x0302010a 0x09c8010a 16 = Some true /\ cp_ip_prefix_match 0x0302010a 0x09c8010a 17 = Some false /\
  cp_ip_prefix_match 0x0302010a 0x09c8010a 1 = None /\
  (exists a', cp_addr_apply_pfx ip6_addr_loop 127 = Some a' /\ addr_ok a' /\
     forall i, 0 <= i < 128 -> net_bit a' i = (i <? 127) && net_bit ip6_addr_loop i).
Proof.
  split_and!; [vm_compute; reflexivity..|].
  apply (prefix_matching_exact ip6_addr_loop 0 127 0 0 0); vm_compute; intuition discriminate.
Defined.

(** ** Sets of prefix lengths *)

Definition words_ok (x : ci_ip6_pfx_t) : Prop := length x = 3%nat /\ Forall (fun w => 0 <= w < 2 ^ 64) x.

(** The set as one number, and membership. *)
Definition pfx_val (x : ci_ip6_pfx_t) : Z := fold_left (fun acc w => acc * 2 ^ 64 + w) x 0.
Definition pfx_in (p : Z) (x : ci_ip6_pfx_t) : bool := Z.testbit (pfx_val x) p.

(** Membership looks at one word. *)
Lemma pfx_in_word x0 x1 x2 p : 0 <= x0 < 2 ^ 64 -> 0 <= x1 < 2 ^ 64 -> 0 <= x2 < 2 ^ 64 -> 0 <= p < 192 ->
  pfx_in p [x0; x1; x2] = if p <? 64 then Z.testbit x2 p
    else if p <? 128 then Z.testbit x1 (p - 64) else Z.testbit x0 (p - 128).
Proof.
  intros H0 H1 H2 Hp. unfold pfx_in, pfx_val. cbn [fold_left].
  assert (forall h l k, 0 <= l < 2 ^ 64 -> 0 <= k -> Z.testbit (h * 2 ^ 64 + l) k =
    if k <? 64 then Z.testbit l k else Z.testbit h (k - 64)) as Hbit.
  { intros h l k Hl Hk. destruct (Z.ltb_spec k 64).
    - rewrite <- (Z.mod_pow2_bits_low _ 64) by lia. rewrite Z.add_comm, Z.mod_add, Z.mod_small by lia. done.
    - replace k with (k - 64 + 64) at 1 by lia. rewrite <- Z.div_pow2_bits by lia.
      rewrite Z.div_add_l, Z.div_small by lia. f_equal; lia. }
  rewrite Hbit by lia. destruct (Z.ltb_spec p 64); [done|]. rewrite Hbit by lia.
  destruct (Z.ltb_spec (p - 64) 64), (Z.ltb_spec p 128); try lia; [done|]. f_equal; lia.
Qed.

(** Operations word by word are operations on the set. *)
Lemma pfx_in_map (f : Z -> Z) (g : bool -> bool) x p : words_ok x -> 0 <= p < 192 ->
  (forall w, 0 <= w < 2 ^ 64 -> 0 <= f w < 2 ^ 64 /\ forall k, 0 <= k < 64 -> Z.testbit (f w) k = g (Z.testbit w k)) ->
  words_ok (map f x) /\ pfx_in p (map f x) = g (pfx_in p x).
Proof.
  intros [Hl Hx] Hp Hf. destruct x as [|x0 [|x1 [|x2 []]]]; try done.
  rewrite !Forall_cons in Hx. destruct Hx as (H0 & H1 & H2 & _).
  destruct (Hf x0 H0) as [R0 B0], (Hf x1 H1) as [R1 B1], (Hf x2 H2) as [R2 B2].
  split; [split; [done|]; simpl; rewrite !Forall_cons; auto|]. cbn [map]. rewrite !pfx_in_word by done.
  repeat case_match; zbool; rewrite ?B0, ?B1, ?B2 by lia; done.
Qed.

Lemma pfx_in_zip (f : Z -> Z -> Z) (g : bool -> bool -> bool) x y p : words_ok x -> words_ok y -> 0 <= p < 192 ->
  (forall a b, 0 <= a < 2 ^ 64 -> 0 <= b < 2 ^ 64 -> 0 <= f a b < 2 ^ 64 /\
     forall k, 0 <= k < 64 -> Z.testbit (f a b) k = g (Z.testbit a k) (Z.testbit b k)) ->
  words_ok (zip_with f x y) /\ pfx_in p (zip_with f x y) = g (pfx_in p x) (pfx_in p y).
Proof.
  intros [Hl Hx] [Hl' Hy] Hp Hf. destruct x as [|x0 [|x1 [|x2 []]]]; try done.
  destruct y as [|y0 [|y1 [|y2 []]]]; try done.
  rewrite !Forall_cons in Hx, Hy. destruct Hx as (H0 & H1 & H2 & _), Hy as (K0 & K1 & K2 & _).
  destruct (Hf x0 y0 H0 K0) as [R0 B0], (Hf x1 y1 H1 K1) as [R1 B1], (Hf x2 y2 H2 K2) as [R2 B2].
  split; [split; [done|]; simpl; rewrite !Forall_cons; auto|]. cbn [zip_with]. rewrite !pfx_in_word by done.
  repeat case_match; zbool; rewrite ?B0, ?B1, ?B2 by lia; done.
Qed.

Lemma shift_bit_all : forallb (fun p => match bw_shift_bit_192 p with
  | Some x => (length x =? 3)%nat && forallb (fun w => (0 <=? w) && (w <? 2 ^ 64)) x && (pfx_val x =? 2 ^ p)
  | None => 192 <=? p end) (seqZ 0 256) = true.
Proof. by vm_compute. Qed.

Lemma shift_bit_spec p : 0 <= p < 192 -> exists x, bw_shift_bit_192 p = Some x /\ words_ok x /\
  forall q, 0 <= q -> pfx_in q x = (q =? p).
Proof.
  intros Hp. pose proof shift_bit_all as H. rewrite forallb_forall in H.
  specialize (H p ltac:(apply list_elem_of_In, elem_of_seqZ; lia)).
  destruct (bw_shift_bit_192 p) as [x|]; [|lia]. rewrite !andb_true_iff, forallb_forall in H. destruct H as [[H1 H2] H3].
  exists x. split; [done|]. split; [split; [by apply Nat.eqb_eq|]|].
  - apply Forall_forall. intros w Hw%list_elem_of_In%H2. lia.
  - intros q Hq. unfold pfx_in. apply Z.eqb_eq in H3 as ->. destruct (Z.eqb_spec q p) as [->|Hne].
    + apply Z.pow2_bits_true. lia.
    + by apply Z.pow2_bits_false.
Qed.

Lemma clz192_spec x : words_ok x -> ci_clz192 x = if pfx_val x =? 0 then 191 else 191 - Z.log2 (pfx_val x).
Proof.
  intros [Hl Hx]. destruct x as [|x0 [|x1 [|x2 []]]]; try done.
  rewrite !Forall_cons in Hx. destruct Hx as (H0 & H1 & H2 & _).
  assert (forall h l n, 0 < h < 2 ^ 64 -> 0 <= n -> 0 <= l < 2 ^ n -> Z.log2 (h * 2 ^ n + l) = Z.log2 h + n) as Hlog.
  { intros h l n Hh Hn Hln. destruct (Z.log2_spec h ltac:(lia)) as [L1 L2].
    pose proof (Z.log2_nonneg h). apply Z.log2_unique; [lia|]. rewrite <- Z.add_succ_l, !Z.pow_add_r by lia. nia. }
  unfold ci_clz192, pfx_val. cbn [clz192_loop fold_left]. unfold clzll.
  destruct (Z.eqb_spec x0 0) as [->|N0]; [destruct (Z.eqb_spec x1 0) as [->|N1];
    [destruct (Z.eqb_spec x2 0) as [->|N2]|]|].
  - done.
  - replace (((0 * 2 ^ 64 + 0) * 2 ^ 64 + 0) * 2 ^ 64 + x2) with x2 by lia. destruct (Z.eqb_spec x2 0); lia.
  - destruct (Z.eqb_spec (((0 * 2 ^ 64 + 0) * 2 ^ 64 + x1) * 2 ^ 64 + x2) 0); [lia|].
    replace (((0 * 2 ^ 64 + 0) * 2 ^ 64 + x1) * 2 ^ 64 + x2) with (x1 * 2 ^ 64 + x2) by lia.
    rewrite Hlog by lia. lia.
  - destruct (Z.eqb_spec (((0 * 2 ^ 64 + x0) * 2 ^ 64 + x1) * 2 ^ 64 + x2) 0); [lia|].
    replace (((0 * 2 ^ 64 + x0) * 2 ^ 64 + x1) * 2 ^ 64 + x2) with (x0 * 2 ^ 128 + (x1 * 2 ^ 64 + x2)) by lia.
    rewrite Hlog by lia. lia.
Qed.

Lemma pfx_val_range x : words_ok x -> 0 <= pfx_val x < 2 ^ 192.
Proof.
  intros [Hl Hx]. destruct x as [|x0 [|x1 [|x2 []]]]; try done.
  rewrite !Forall_cons in Hx. unfold pfx_val. cbn [fold_left]. lia.
Qed.

Lemma largest_prefix_spec x : words_ok x ->
  (forall p, 0 <= p -> pfx_in p x = true -> p <= cp_get_largest_prefix x /\ pfx_in (cp_get_largest_prefix x) x = true) /\
  ((forall p, 0 <= p -> pfx_in p x = false) -> cp_get_largest_prefix x = 0).
Proof.
  intros Hx. pose proof (pfx_val_range x Hx) as Hr. unfold cp_get_largest_prefix, cp_ip6_get_largest_prefix.
  rewrite clz192_spec by done. destruct (Z.eqb_spec (pfx_val x) 0) as [E|N].
  - split; [|done]. intros p Hp. unfold pfx_in. by rewrite E, Z.bits_0.
  - assert (0 <= Z.log2 (pfx_val x) < 192) as Hlog.
    { split; [apply Z.log2_nonneg|]. apply Z.log2_lt_pow2; lia. }
    rewrite wrap_small by lia. replace (191 - (191 - Z.log2 (pfx_val x))) with (Z.log2 (pfx_val x)) by lia.
    unfold pfx_in. split.
    + intros p Hp Hb. split; [|apply Z.bit_log2; lia]. apply Z.nlt_ge. intros Hlt.
      by rewrite Z.bits_above_log2 in Hb by lia.
    + intros Hn. pose proof (Hn (Z.log2 (pfx_val x)) ltac:(lia)) as Hf. rewrite Z.bit_log2 in Hf by lia. done.
Qed.

(** Sets of prefix lengths.  The words of a set hold one bit per length: a single
    bit is set for every length below 192, complement, intersection and union act on
    the members, and the largest prefix is the greatest member, 0 for the empty set. *)
Lemma prefix_sets_exact x y p : words_ok x -> words_ok y -> 0 <= p < 192 ->
  (exists z, bw_shift_bit_192 p = Some z /\ words_ok z /\ forall q, 0 <= q -> pfx_in q z = (q =? p)) /\
  (words_ok (bw_not_192 x) /\ pfx_in p (bw_not_192 x) = negb (pfx_in p x)) /\
  (words_ok (bw_and_192 x y) /\ pfx_in p (bw_and_192 x y) = pfx_in p x && pfx_in p y) /\
  (words_ok (bw_or_192 x y) /\ pfx_in p (bw_or_192 x y) = pfx_in p x || pfx_in p y) /\
  (pfx_in p x = true -> p <= cp_get_largest_prefix x /\ pfx_in (cp_get_largest_prefix x) x = true) /\
  ((forall q, 0 <= q -> pfx_in q x = false) -> cp_get_largest_prefix x = 0).
Proof.
  intros Hx Hy Hp. split; [by apply shift_bit_spec|]. split; [|split; [|split]].
  - apply (pfx_in_map _ negb); [done|done|]. intros w Hw. split; [apply wrap_range; lia|].
    intros k Hk. rewrite wrap_spec, Z.lnot_spec by lia. by rewrite (proj2 (Z.ltb_lt k 64)) by lia.
  - apply (pfx_in_zip _ andb); [done..|]. intros a b Ha Hb. split; [|intros k _; apply Z.land_spec].
    apply bits_range; [lia|apply Z.land_nonneg; lia|]. intros k Hk. by rewrite Z.land_spec, (testbit_small a 64).
  - apply (pfx_in_zip _ orb); [done..|]. intros a b Ha Hb. split; [|intros k _; apply Z.lor_spec].
    apply bits_range; [lia|apply Z.lor_nonneg; lia|]. intros k Hk.
    by rewrite Z.lor_spec, (testbit_small a 64), (testbit_small b 64).
  - destruct (largest_prefix_spec x Hx) as [H1 H2]. split; [|done]. apply H1. lia.
Qed.

Lemma prefix_sets_exact_witness :
  (exists z, bw_shift_bit_192 128 = Some z /\ words_ok z /\ forall q, 0 <= q -> pfx_in q z = (q =? 128)) /\
  cp_get_largest_prefix (bw_or_192 [1; 0; 0] [0; 0; 2 ^ 24]) = 128.
Proof.
  split; [|vm_compute; reflexivity].
  apply (prefix_sets_exact [0; 0; 0] [0; 0; 0] 128); [split; [reflexivity|]; repeat constructor; lia..|lia].
Defined.

(** ** Weights of paths *)

(** The paths of a route as the comment has them: consecutive ranges from [start] on,
    the last path marked. *)
Fixpoint paths_from (start : Z) (ws : list cp_fwd_multipath_weight) : Prop :=
  match ws with
  | [] => True
  | w :: ws' => 1 <= w_val w /\ w_end w = start + w_val w /\ 0 <= w_flag w /\
      (Z.testbit (w_flag w) 0 = true <-> ws' = []) /\ paths_from (w_end w) ws'
  end.
Definition total_weight (start : Z) (ws : list cp_fwd_multipath_weight) : Z := fold_left (fun _ w => w_end w) ws start.

Lemma total_weight_ge start ws : paths_from start ws -> start <= total_weight start ws /\ (ws <> [] -> start < total_weight start ws).
Proof.
  revert start. induction ws as [|w ws IH]; intros start; simpl; [intros _; split; [done|done]|].
  intros (H1 & H2 & _ & _ & H5). destruct (IH _ H5) as [L _]. unfold total_weight in *. simpl. lia.
Qed.

Lemma weight_none : CP_FWD_MULTIPATH_WEIGHT_NONE = 2 ^ 32 - 1.
Proof. done. Qed.

Lemma weight_match_range v w start : v <> CP_FWD_MULTIPATH_WEIGHT_NONE -> 0 <= start -> w_end w = start + w_val w ->
  1 <= w_val w -> w_end w < 2 ^ 32 -> cp_fwd_weight_match v w = true <-> start <= v < w_end w.
Proof.
  intros Hv Hs He Hw Hlt. unfold cp_fwd_weight_match. rewrite (proj2 (Z.eqb_neq _ _) Hv).
  rewrite wrap_small by lia. lia.
Qed.

Lemma last_flag w : cp_fwd_weight_match CP_FWD_MULTIPATH_WEIGHT_NONE w = (w_end w =? 0) || Z.testbit (w_flag w) 0.
Proof.
  unfold cp_fwd_weight_match. rewrite Z.eqb_refl. f_equal. unfold CP_FWD_MULTIPATH_FLAG_LAST.
  rewrite (Z.land_ones _ 1) by lia. rewrite <- Z.bit0_mod. by destruct (Z.testbit (w_flag w) 0).
Qed.

(** Exactly one member of the list satisfies [f]. *)
Definition exactly_one {A} (f : A -> bool) (l : list A) : Prop :=
  exists i x, l !! i = Some x /\ f x = true /\ forall j y, l !! j = Some y -> f y = true -> j = i.

Lemma exactly_one_cons {A} (f : A -> bool) x l :
  (f x = true /\ Forall (fun y => f y = false) l) \/ (f x = false /\ exactly_one f l) -> exactly_one f (x :: l).
Proof.
  intros [[Hx Hl]|[Hx (i & y & Hi & Hy & Hu)]].
  - exists 0%nat, x. split_and!; [done|done|]. intros [|j] z Hj Hz; [done|]. simpl in Hj.
    rewrite (Forall_lookup_1 _ _ _ _ Hl Hj) in Hz. done.
  - exists (S i), y. split_and!; [done|done|]. intros [|j] z Hj Hz; simpl in Hj; [congruence|]. f_equal. eauto.
Qed.

Lemma paths_below start ws v : paths_from start ws -> 0 <= v < start -> total_weight start ws < 2 ^ 32 ->
  Forall (fun w => cp_fwd_weight_match v w = false) ws.
Proof.
  revert start. induction ws as [|w ws IH]; intros start Hp Hv Ht; [constructor|]. simpl in Hp.
  destruct Hp as (H1 & H2 & _ & _ & H5). destruct (total_weight_ge _ _ H5) as [L _].
  change (total_weight start (w :: ws)) with (total_weight (w_end w) ws) in Ht.
  constructor; [|apply (IH (w_end w)); auto; lia]. apply not_true_is_false. intros Hm.
  apply (weight_match_range _ _ start) in Hm; try lia. rewrite weight_none. lia.
Qed.

Lemma paths_serve start ws v : paths_from start ws -> 0 <= start <= v -> v < total_weight start ws < 2 ^ 32 ->
  exactly_one (cp_fwd_weight_match v) ws.
Proof.
  revert start. induction ws as [|w ws IH]; intros start Hp Hv Ht; [unfold total_weight in Ht; simpl in Ht; lia|].
  simpl in Hp. destruct Hp as (H1 & H2 & _ & _ & H5). destruct (total_weight_ge _ _ H5) as [L _].
  change (total_weight start (w :: ws)) with (total_weight (w_end w) ws) in Ht.
  assert (v <> CP_FWD_MULTIPATH_WEIGHT_NONE) as Hn by (rewrite weight_none; lia).
  pose proof (weight_match_range v w start Hn ltac:(lia) H2 H1 ltac:(lia)) as Hm. apply exactly_one_cons.
  destruct (Z.lt_ge_cases v (w_end w)).
  - left. split; [apply Hm; lia|]. apply (paths_below (w_end w)); auto; lia.
  - right. split; [|apply (IH (w_end w)); auto; lia]. apply not_true_is_false. intros E%Hm. lia.
Qed.

Lemma paths_last start ws : paths_from start ws -> 0 <= start -> ws <> [] ->
  exactly_one (cp_fwd_weight_match CP_FWD_MULTIPATH_WEIGHT_NONE) ws.
Proof.
  revert start. induction ws as [|w ws IH]; intros start Hp Hs Hne; [done|]. simpl in Hp.
  destruct Hp as (H1 & H2 & _ & H4 & H5). apply exactly_one_cons. rewrite last_flag.
  rewrite (proj2 (Z.eqb_neq (w_end w) 0)) by lia. simpl. destruct ws as [|w' ws].
  - left. split; [by apply H4|constructor].
  - right. split; [apply not_true_is_false; intros E; by apply H4 in E|]. apply (IH (w_end w)); [done|lia|done].
Qed.

(** The weights of a route share the traffic out.  With the ranges of the paths one
    after the other, every weight below the total is served by exactly one path, and
    a request without a weight by exactly one, the last. *)
Lemma weights_partition ws v : paths_from 0 ws -> ws <> [] -> total_weight 0 ws < 2 ^ 32 ->
  (0 <= v < total_weight 0 ws -> exactly_one (cp_fwd_weight_match v) ws) /\
  (total_weight 0 ws <= v < CP_FWD_MULTIPATH_WEIGHT_NONE -> Forall (fun w => cp_fwd_weight_match v w = false) ws) /\
  exactly_one (cp_fwd_weight_match CP_FWD_MULTIPATH_WEIGHT_NONE) ws.
Proof.
  intros Hp Hne Ht. split_and!; [intros; by apply (paths_serve 0); auto; lia| |by apply (paths_last 0)].
  intros [Hge Hn]. assert (forall start, 0 <= start -> paths_from start ws -> total_weight start ws <= v ->
    total_weight start ws < 2 ^ 32 -> Forall (fun w => cp_fwd_weight_match v w = false) ws) as H; [|by apply (H 0)].
  clear Hp Ht Hge Hne. induction ws as [|w ws IH]; intros start Hs Hp Hge Ht; [constructor|]. simpl in Hp.
  destruct Hp as (H1 & H2 & _ & _ & H5). destruct (total_weight_ge _ _ H5) as [L _].
  change (total_weight start (w :: ws)) with (total_weight (w_end w) ws) in Ht, Hge.
  constructor; [|apply (IH (w_end w)); auto; lia]. apply not_true_is_false. intros Hm.
  apply (weight_match_range _ _ start) in Hm; lia.
Qed.

Definition two_paths : list cp_fwd_multipath_weight :=
  [{| w_end := 3; w_val := 3; w_flag := 0 |}; {| w_end := 4; w_val := 1; w_flag := 1 |}].

Lemma weights_partition_witness :
  map (fun v => map (cp_fwd_weight_match v) two_paths) [0; 2; 3; 4; CP_FWD_MULTIPATH_WEIGHT_NONE] =
    [[true; false]; [true; false]; [false; true]; [false; false]; [false; true]] /\
  exactly_one (cp_fwd_weight_match 2) two_paths.
Proof.
  split; [vm_compute; reflexivity|]. apply (weights_partition two_paths 2); vm_compute; intuition discriminate.
Defined.

(** ** Keys of routes *)

Definition key_fields_agree (a b : cp_fwd_key) : Prop :=
  k_ifindex a = k_ifindex b /\ Z.land (k_tos a) IPTOS_RT_MASK = Z.land (k_tos b) IPTOS_RT_MASK /\
  k_iif_ifindex a = k_iif_ifindex b /\ Z.testbit (k_flag a) 5 = Z.testbit (k_flag b) 5.

Definition occupied (r : cp_fwd_row) : Prop := Z.testbit (fw_flags r) 7 = true.
Definition prefixes_ok (r : cp_fwd_row) : Prop := 0 <= fw_src_prefix r <= 128 /\ 0 <= fw_dst_prefix r <= 128.

(** Two rows serve a common key. *)
Definition overlap (r1 r2 : cp_fwd_row) : Prop :=
  agree (Z.min (fw_src_prefix r1) (fw_src_prefix r2)) (k_src (fw_key r1)) (k_src (fw_key r2)) /\
  agree (Z.min (fw_dst_prefix r1) (fw_dst_prefix r2)) (k_dst (fw_key r1)) (k_dst (fw_key r2)) /\
  key_fields_agree (fw_key r1) (fw_key r2).

Lemma land_bit_zero x n : 0 <= n -> (Z.land x (2 ^ n) =? 0) = negb (Z.testbit x n).
Proof.
  intros Hn. rewrite land_pow2 by done. destruct (Z.testbit x n); [|done].
  apply Z.eqb_neq. pose proof (Z.pow_pos_nonneg 2 n). lia.
Qed.

Lemma key_match_spec r key : prefixes_ok r -> exists b, cp_fwd_key_match r key = Some b /\
  (b = true <-> occupied r /\ agree (fw_src_prefix r) (k_src (fw_key r)) (k_src key) /\
     agree (fw_dst_prefix r) (k_dst (fw_key r)) (k_dst key) /\ key_fields_agree (fw_key r) key).
Proof.
  intros [Hs Hd]. destruct (pfx_match_spec (k_src (fw_key r)) (k_src key) _ Hs) as (rs & Es & Hrs).
  destruct (pfx_match_spec (k_dst (fw_key r)) (k_dst key) _ Hd) as (rd & Ed & Hrd).
  unfold cp_ip6_pfx_match in Es, Ed. unfold cp_fwd_key_match.
  destruct (cp_ip6_pfx2mask (fw_src_prefix r)) as [ms|]; [|done].
  destruct (cp_ip6_pfx2mask (fw_dst_prefix r)) as [md|]; [|done]. cbn [mbind option_bind] in *. simplify_eq.
  eexists. split; [done|]. rewrite !andb_true_iff, Hrs, Hrd, !Z.eqb_eq.
  change CICP_FWD_FLAG_OCCUPIED with (2 ^ 7). rewrite land_bit_zero, negb_involutive by lia.
  unfold occupied, key_fields_agree. rewrite <- Z.eqb_eq with (m := 0).
  change CP_FWD_KEY_TRANSPARENT with (2 ^ 5). rewrite land_bit_zero, Z.lxor_spec by lia.
  destruct (Z.testbit (k_flag (fw_key r)) 5), (Z.testbit (k_flag key) 5); simpl; intuition discriminate.
Qed.

Lemma agree_trans_min n1 n2 a b c : agree n1 a c -> agree n2 b c -> agree (Z.min n1 n2) a b.
Proof. intros H1 H2 i Hi. rewrite H1, H2 by lia. done. Qed.

(** Which row of the route table serves a key.  A row matches exactly the keys that
    agree with it in its prefixes, the interface, the routing bits of the type of
    service, the incoming interface and the transparent flag; in a table without
    overlapping rows, which the comment promises, at most one row matches. *)
Lemma fwd_match_unique rows key : Forall prefixes_ok rows ->
  (forall r, r ∈ rows -> exists b, cp_fwd_key_match r key = Some b /\
     (b = true <-> occupied r /\ agree (fw_src_prefix r) (k_src (fw_key r)) (k_src key) /\
        agree (fw_dst_prefix r) (k_dst (fw_key r)) (k_dst key) /\ key_fields_agree (fw_key r) key)) /\
  ((forall i j r1 r2, rows !! i = Some r1 -> rows !! j = Some r2 -> i <> j -> occupied r1 -> occupied r2 ->
      ~ overlap r1 r2) ->
   forall i j r1 r2, rows !! i = Some r1 -> rows !! j = Some r2 ->
     cp_fwd_key_match r1 key = Some true -> cp_fwd_key_match r2 key = Some true -> i = j).
Proof.
  intros Hok. split; [intros r Hr; apply key_match_spec; by eapply Forall_forall|].
  intros Hno i j r1 r2 H1 H2 M1 M2. destruct (decide (i = j)) as [|Hne]; [done|]. exfalso.
  destruct (key_match_spec r1 key (Forall_lookup_1 _ _ _ _ Hok H1)) as (b1 & E1 & B1).
  destruct (key_match_spec r2 key (Forall_lookup_1 _ _ _ _ Hok H2)) as (b2 & E2 & B2).
  rewrite E1 in M1. rewrite E2 in M2. simplify_eq.
  destruct (proj1 B1 eq_refl) as (O1 & S1 & D1 & (K11 & K12 & K13 & K14)).
  destruct (proj1 B2 eq_refl) as (O2 & S2 & D2 & (K21 & K22 & K23 & K24)).
  apply (Hno i j r1 r2); try done. split_and!; [by eapply agree_trans_min..|]. unfold key_fields_agree. split_and!; congruence.
Qed.

Definition route (dst : Z) (pfx : Z) : cp_fwd_row :=
  let d := {| fd_src := 0; fd_next_hop := 0; fd_mtu := 1500; fd_ifindex := 2; fd_hop_limit := 64; fd_flags := 0;
    fd_src_mac := 0; fd_hwports := 1; fd_dst_mac := 0;
    fd_encap := {| enc_type := 0; enc_vlan_id := 0; enc_link_ifindex := 0 |};
    fd_weight := {| w_end := 0; w_val := 0; w_flag := 0 |} |} in
  {| fw_key := {| k_src := 0; k_dst := CI_ADDR_SH_FROM_IP4 dst; k_ifindex := 0; k_tos := 0; k_iif_ifindex := 0; k_flag := 0 |};
     fw_src_prefix := 0; fw_dst_prefix := 96 + pfx; fw_data0 := d; fw_data1 := d; fw_use := 1; fw_version := 0;
     fw_flags := CICP_FWD_FLAG_OCCUPIED; fw_frc_stale := 0 |}.

(** 10.0.0.0/8 and 11.0.0.0/8 do not overlap; 10.1.2.3 is served by the first. *)
Lemma fwd_match_unique_witness :
  let key := fw_key (route 0x0302010a 0) in
  map (fun r => cp_fwd_key_match r key) [route 0x0a 8; route 0x0b 8] = [Some true; Some false] /\
  forall i j r1 r2, [route 0x0a 8; route 0x0b 8] !! i = Some r1 -> [route 0x0a 8; route 0x0b 8] !! j = Some r2 ->
    cp_fwd_key_match r1 key = Some true -> cp_fwd_key_match r2 key = Some true -> i = j.
Proof.
  split; [vm_compute; reflexivity|].
  apply (fwd_match_unique [route 0x0a 8; route 0x0b 8] (fw_key (route 0x0302010a 0))).
  - repeat constructor; vm_compute; discriminate.
  - intros [|[|i]] [|[|j]] r1 r2 H1 H2 Hne _ _ (_ & Hd & _); try done; injection H1 as <-; injection H2 as <-;
      specialize (Hd 103 ltac:(vm_compute; intuition discriminate)); vm_compute in Hd; discriminate.
Defined.

(** ** Searching the tables *)

(** The loop over rows as a fold that can stop. *)
Fixpoint scan {D} (f : D -> Z -> D * bool) (d : D) (l : list Z) : D :=
  match l with [] => d | j :: l' => if snd (f d j) then fst (f d j) else scan f (fst (f d j)) l' end.

Lemma run_for_rows {D} fuel max (body : D -> Z -> act cplane (D * bool)) f d i n s :
  max s = i + Z.of_nat n -> 0 <= i -> max s <= 32767 -> (n < fuel)%nat ->
  (forall d j, i <= j < max s -> run (body d j) s = Some (s, f d j)) ->
  run (for_rows fuel max body d i) s = Some (s, scan f d (seqZ i (Z.of_nat n))).
Proof.
  revert fuel d i. induction n as [|n IH]; intros fuel d i Hm Hi Hmax Hf Hb;
    (destruct fuel as [|fuel]; [lia|]); cbn [for_rows]; rewrite run_bind, run_read; simpl.
  - rewrite (proj2 (Z.ltb_ge i (max s))) by lia. done.
  - rewrite (proj2 (Z.ltb_lt i (max s))) by lia. rewrite run_bind, Hb by lia. simpl.
    replace (Z.of_nat (S n)) with (Z.succ (Z.of_nat n)) by lia. rewrite seqZ_cons by lia. simpl.
    destruct (snd (f d i)); [done|]. rewrite swrap_small by (change (2 ^ (16 - 1)) with 32768; lia).
    replace (Z.pred (Z.succ (Z.of_nat n))) with (Z.of_nat n) by lia.
    replace (Z.succ i) with (i + 1) by lia. apply IH; try lia. intros. apply Hb. lia.
Qed.

Lemma run_cell {A} (l : cplane -> list A) i (get : A -> Z) s r : 0 <= i -> l s !! Z.to_nat i = Some r ->
  run (cell l i get) s = Some (s, get r).
Proof.
  intros Hi Hr. unfold cell. rewrite run_bind, run_read. simpl.
  apply lookup_lt_Some in Hr as Hlt. rewrite (proj2 (Z.leb_le 0 i)), (proj2 (Z.ltb_lt _ _)) by lia. simpl.
  by rewrite Hr.
Qed.

(** The next action reads a field of the row [x]. *)
Ltac cell_of x := rewrite run_bind, (run_cell _ _ _ _ x) by done; cbn [mbind option_bind fst snd].

Lemma run_cell_out {A} (l : cplane -> list A) i (get : A -> Z) s : i < 0 \/ Z.of_nat (length (l s)) <= i ->
  run (cell l i get) s = None.
Proof.
  intros Hi. unfold cell. rewrite run_bind, run_read. simpl.
  destruct (Z.leb_spec 0 i), (Z.ltb_spec i (Z.of_nat (length (l s)))); simpl; done || lia.
Qed.

(** What a search that stops at the first hit or the first free row finds. *)
Definition found {A} (rows : list A) (max : Z) (hit free : A -> bool) (r : Z) : Prop :=
  (r = CICP_ROWID_BAD /\ forall j x, Z.of_nat j < max -> rows !! j = Some x -> hit x = true ->
     exists k y, (k < j)%nat /\ rows !! k = Some y /\ free y = true) \/
  (0 <= r < max /\ exists x, rows !! Z.to_nat r = Some x /\ hit x = true /\
     forall k y, (k < Z.to_nat r)%nat -> rows !! k = Some y -> hit y = false /\ free y = false).

Section Search.
Context {A : Type} (rows : list A) (hit free : A -> bool).

Definition search_step (d j : Z) : Z * bool :=
  match rows !! Z.to_nat j with
  | Some x => if hit x then (j, true) else if free x then (CICP_ROWID_BAD, true) else (d, false)
  | None => (d, false)
  end.

Lemma search_found i n max : 0 <= i -> i + Z.of_nat n = max -> max <= Z.of_nat (length rows) ->
  (forall k y, Z.of_nat k < i -> rows !! k = Some y -> hit y = false /\ free y = false) ->
  found rows max hit free (scan search_step CICP_ROWID_BAD (seqZ i (Z.of_nat n))).
Proof.
  revert i. induction n as [|n IH]; intros i Hi Hn Hmax Hpre.
  - left. simpl. split; [done|]. intros j x Hj Hx Hh. destruct (Hpre j x ltac:(lia) Hx) as [E _]. congruence.
  - replace (Z.of_nat (S n)) with (Z.succ (Z.of_nat n)) by lia. rewrite seqZ_cons by lia. cbn [scan].
    replace (Z.pred (Z.succ (Z.of_nat n))) with (Z.of_nat n) by lia. replace (Z.succ i) with (i + 1) by lia.
    destruct (lookup_lt_is_Some_2 rows (Z.to_nat i) ltac:(lia)) as [x Hx].
    assert (search_step CICP_ROWID_BAD i = if hit x then (i, true) else (CICP_ROWID_BAD, free x)) as ->.
    { unfold search_step. rewrite Hx. by destruct (hit x), (free x). }
    destruct (hit x) eqn:Eh; [|destruct (free x) eqn:Ef]; cbn [fst snd].
    + right. split; [lia|]. exists x. split_and!; [done|done|]. intros k y Hk. apply Hpre. lia.
    + left. split; [done|]. intros j y Hj Hy Hh. exists (Z.to_nat i), x. split_and!; try done.
      destruct (Z.lt_total (Z.of_nat j) i) as [Hlt|[Heq|Hgt]]; [|subst i|lia].
      * destruct (Hpre j y Hlt Hy). congruence.
      * rewrite Nat2Z.id in Hx. congruence.
    + apply (IH (i + 1)); try lia. intros k y Hk Hy. destruct (Z.eq_dec (Z.of_nat k) i) as [E|].
      * subst i. rewrite Nat2Z.id in Hx. simplify_eq. done.
      * apply (Hpre k); [lia|done].
Qed.

(** The search as one of the loops over a table of the shared memory. *)
Lemma run_search (l : cplane -> list A) max (body : Z -> Z -> act cplane (Z * bool)) s :
  l s = rows -> 0 <= max s <= 32767 -> max s <= Z.of_nat (length rows) ->
  (forall d j x, 0 <= j -> rows !! Z.to_nat j = Some x -> run (body d j) s =
     Some (s, if hit x then (j, true) else if free x then (CICP_ROWID_BAD, true) else (d, false))) ->
  exists r, run (for_rows rowids max body CICP_ROWID_BAD 0) s = Some (s, r) /\ found rows (max s) hit free r.
Proof.
  intros Hl Hm Hlen Hb. eexists. split.
  - apply (run_for_rows rowids max body search_step CICP_ROWID_BAD 0 (Z.to_nat (max s)) s); try (unfold rowids; lia).
    intros d j Hj. destruct (lookup_lt_is_Some_2 rows (Z.to_nat j) ltac:(lia)) as [x Hx].
    rewrite (Hb d j x) by (lia || done). unfold search_step. by rewrite Hx.
  - apply search_found; lia.
Qed.

End Search.

(** The bits of a port mask, and the loop that takes them one by one. *)
Definition mask_step_ok (h : Z) : bool :=
  let t := cp_hwport_mask_first h in
  (0 <=? t) && (t <? 16) && Z.testbit h t && (Z.land h (h - 1) =? h - 2 ^ t) && (Z.land h (Z.ones t) =? 0) &&
  (cp_hwport_make_mask t =? 2 ^ t).

(** [f] holds of the [n] numbers from [z] on. *)
Fixpoint all_from (f : Z -> bool) (n : nat) (z : Z) : bool :=
  match n with O => true | S n' => f z && all_from f n' (z + 1) end.

Lemma all_from_spec f n z k : all_from f n z = true -> z <= k < z + Z.of_nat n -> f k = true.
Proof.
  revert z. induction n as [|n IH]; intros z; simpl; [lia|]. intros [H1 H2]%andb_prop Hk.
  destruct (Z.eq_dec k z) as [->|]; [done|]. apply (IH (z + 1)); [done|lia].
Qed.

Lemma mask_step_all : all_from mask_step_ok (Z.to_nat 65535) 1 = true.
Proof. by vm_compute. Qed.

(** The first port of a mask is its lowest bit, and the step of the loops clears it. *)
Lemma mask_step h : 0 < h < 2 ^ 16 -> let t := cp_hwport_mask_first h in
  0 <= t < 16 /\ Z.testbit h t = true /\ (forall k, 0 <= k < t -> Z.testbit h k = false) /\
  0 <= Z.land h (h - 1) < 2 ^ 16 /\ (forall k, 0 <= k -> Z.testbit (Z.land h (h - 1)) k = Z.testbit h k && negb (k =? t)) /\
  cp_hwport_make_mask t = 2 ^ t.
Proof.
  intros Hh t. pose proof (all_from_spec _ _ _ h mask_step_all ltac:(lia)) as H. unfold mask_step_ok in H. fold t in H.
  rewrite !andb_true_iff, !Z.eqb_eq in H. destruct H as [[[[[H1 H2] H3] H4] H5] H6].
  assert (Z.land h (h - 1) = Z.ldiff h (2 ^ t)) as E.
  { rewrite H4. apply Z.sub_nocarry_ldiff. apply Z.bits_inj'. intros k Hk. rewrite Z.ldiff_spec, Z.bits_0.
    destruct (Z.eq_dec k t) as [->|Hne]; [by rewrite H3, andb_false_r|]. by rewrite Z.pow2_bits_false. }
  assert (0 <= 2 ^ t <= h) as Hle.
  { split; [lia|]. apply Z.log2_le_pow2; [lia|]. apply Z.nlt_ge. intros Hlt. by rewrite Z.bits_above_log2 in H3 by lia. }
  split_and!; [lia|lia|done| |lia|lia| |done].
  - intros k Hk. apply (f_equal (fun z => Z.testbit z k)) in H5. rewrite Z.land_spec, Z.ones_spec_low, Z.bits_0 in H5 by lia.
    by rewrite andb_true_r in H5.
  - intros k Hk. rewrite E, Z.ldiff_spec. f_equal. f_equal. destruct (Z.eqb_spec k t) as [->|Hne].
    + apply Z.pow2_bits_true. lia.
    + by apply Z.pow2_bits_false.
Qed.

Definition in_use (rows : list cp_hwport_row) (k : Z) : bool :=
  match rows !! Z.to_nat k with Some r => negb (cicp_hwport_row_is_free (hw_flags r)) | None => false end.

Lemma run_hwports m s fuel p all h : 0 <= h < 2 ^ 16 -> 0 <= p <= 16 -> 16 - p < Z.of_nat fuel ->
  (forall k, 0 <= k < p -> Z.testbit h k = false) ->
  (forall k, 0 <= k -> Z.testbit h k = true -> k < Z.of_nat (length (hwport (mib m s)))) ->
  exists r, run (hwports_loop m fuel all h) s = Some (s, r) /\
    forall k, 0 <= k -> Z.testbit r k = Z.testbit all k || (Z.testbit h k && in_use (hwport (mib m s)) k).
Proof.
  revert p all h. induction fuel as [|fuel IH]; intros p all h Hh Hp Hf Hlow Hrows; [lia|].
  cbn [hwports_loop]. destruct (Z.eqb_spec h 0) as [->|Hne].
  { exists all. split; [done|]. intros k Hk. by rewrite Z.bits_0, orb_false_r. }
  destruct (mask_step h ltac:(lia)) as (Ht & Hb & Hl & Hn & Hbits & Hmk). set (t := cp_hwport_mask_first h) in *.
  assert (p <= t). { apply Z.nlt_ge. intros Hlt. rewrite Hlow in Hb by lia. done. }
  destruct (lookup_lt_is_Some_2 (hwport (mib m s)) (Z.to_nat t)) as [r Hr].
  { specialize (Hrows t ltac:(lia) Hb). lia. }
  rewrite run_bind, (run_cell (fun s => hwport (mib m s)) t hw_flags s r) by (lia || done). cbn [mbind option_bind fst snd].
  destruct (IH (t + 1) (if cicp_hwport_row_is_free (hw_flags r) then all else Z.lor all (cp_hwport_make_mask t))
    (Z.land h (h - 1))) as (res & Hrun & Hres); [done|lia|lia| | |].
  { intros k Hk. rewrite Hbits by lia. destruct (Z.eq_dec k t) as [->|]; [by rewrite Z.eqb_refl, andb_false_r|].
    by rewrite Hl by lia. }
  { intros k Hk E. rewrite Hbits in E by lia. apply andb_prop in E as [E _]. by apply Hrows. }
  exists res. split; [done|]. intros k Hk. rewrite Hres, Hbits by lia. unfold in_use. rewrite Hmk.
  destruct (Z.eqb_spec k t) as [->|Hkt].
  - rewrite Hr, Hb. destruct (cicp_hwport_row_is_free (hw_flags r)); simpl; rewrite ?orb_false_r; [done|].
    by rewrite Z.lor_spec, Z.pow2_bits_true by lia.
  - rewrite andb_true_r. destruct (cicp_hwport_row_is_free (hw_flags r)); [done|].
    by rewrite Z.lor_spec, (Z.pow2_bits_false t k), orb_false_r by lia.
Qed.

(** The dimensions say how many rows the tables of a frame have, and identifiers can
    count them. *)
Definition tables_ok (m : Z) (s : cplane) : Prop :=
  0 <= llap_max (dim s) <= 32767 /\ llap_max (dim s) <= Z.of_nat (length (llap (mib m s))) /\
  0 <= ipif_max (dim s) <= 32767 /\ ipif_max (dim s) <= Z.of_nat (length (ipif (mib m s))) /\
  0 <= ip6if_max (dim s) <= 32767 /\ ip6if_max (dim s) <= Z.of_nat (length (ip6if (mib m s))).

Definition has_ifindex (ifindex : Z) (r : cicp_llap_row) : bool := ll_ifindex r =? ifindex.
Definition llap_free (r : cicp_llap_row) : bool := cicp_llap_row_is_free (ll_ifindex r).

Lemma run_find_pass m ifindex s d j x : 0 <= j -> llap (mib m s) !! Z.to_nat j = Some x ->
  run (find_row_pass m ifindex d j) s =
    Some (s, if has_ifindex ifindex x then (j, true) else if llap_free x then (CICP_ROWID_BAD, true) else (d, false)).
Proof.
  intros Hj Hx. unfold find_row_pass. cell_of x. fold (has_ifindex ifindex x).
  destruct (has_ifindex ifindex x); [done|]. cell_of x. fold (llap_free x). by destruct (llap_free x).
Qed.

Lemma run_find_row m ifindex s : tables_ok m s -> ifindex <> CI_IFID_BAD -> exists r,
  run (cp_llap_find_row m ifindex) s = Some (s, r) /\
  found (llap (mib m s)) (llap_max (dim s)) (has_ifindex ifindex) llap_free r.
Proof.
  intros (H1 & H2 & _) Hne. unfold cp_llap_find_row. rewrite (proj2 (Z.eqb_neq _ _) Hne). cbn [negb aassert].
  apply (run_search _ _ _ (fun s => llap (mib m s))); [reflexivity|lia|lia|]. intros. by apply run_find_pass.
Qed.

(** Searching the tables.  In tables whose sizes an identifier can count, the three
    searches end inside the table with the first row that matches, unless a free row
    comes before it; the ports of a mask that are in use are found exactly. *)
Lemma searches_exact m s ifindex ifname hwports : tables_ok m s -> ifindex <> CI_IFID_BAD -> 0 <= hwports < 2 ^ 16 ->
  (forall k, 0 <= k -> Z.testbit hwports k = true -> k < Z.of_nat (length (hwport (mib m s)))) ->
  (exists r, run (cp_llap_find_row m ifindex) s = Some (s, r) /\
     found (llap (mib m s)) (llap_max (dim s)) (has_ifindex ifindex) llap_free r) /\
  (exists r, run (cp_llap_by_ifname m ifname) s = Some (s, r) /\
     found (llap (mib m s)) (llap_max (dim s)) (fun x => String.eqb (ll_name x) ifname) llap_free r) /\
  (exists r, run (cp_ipif_any_row_by_ifindex m ifindex) s = Some (s, r) /\
     found (ipif (mib m s)) (ipif_max (dim s)) (fun x => if_ifindex x =? ifindex)
       (fun x => cicp_ipif_row_is_free (if_net_ipset x)) r) /\
  (exists r, run (cp_get_hwports m hwports) s = Some (s, r) /\
     forall k, 0 <= k -> Z.testbit r k = Z.testbit hwports k && in_use (hwport (mib m s)) k).
Proof.
  intros Hok Hne Hh Hrows. pose proof Hok as (H1 & H2 & H3 & H4 & _). split_and!; [by apply run_find_row| | |].
  - unfold cp_llap_by_ifname. apply (run_search _ _ _ (fun s => llap (mib m s))); [reflexivity|lia|lia|]. intros d j x Hj Hx.
    cell_of x. destruct (String.eqb (ll_name x) ifname); [done|].
    cbn [negb Z.b2z Z.eqb]. cell_of x. fold (llap_free x). by destruct (llap_free x).
  - unfold cp_ipif_any_row_by_ifindex. apply (run_search _ _ _ (fun s => ipif (mib m s))); [reflexivity|lia|lia|]. intros d j x Hj Hx.
    cell_of x. destruct (if_ifindex x =? ifindex); [done|].
    cell_of x. by destruct (cicp_ipif_row_is_free (if_net_ipset x)).
  - destruct (run_hwports m s 17 0 0 hwports Hh ltac:(lia) ltac:(lia) ltac:(lia) Hrows) as (r & E & Hr).
    exists r. split; [done|]. intros k Hk. rewrite Hr by done. by rewrite Z.bits_0.
Qed.

(** A small control plane: interface 2 on port 0 and interface 5 on ports 1 and 2 in
    one frame, only interface 2 in the other. *)
Definition llap_sample (ifindex : Z) (name : string) (ports : Z) : cicp_llap_row :=
  {| ll_ifindex := ifindex; ll_mtu := 1500; ll_flags := 1; ll_name := name; ll_mac := [0; 0xf; 0x53; 0; 0; ifindex];
     ll_encap := {| enc_type := 0; enc_vlan_id := 0; enc_link_ifindex := 0 |};
     ll_tx_hwports := ports; ll_rx_hwports := ports; ll_xdp_prog_id := 0; ll_iif_fwd_table_id := 4096 |}.
Definition hwport_sample (flags : Z) : cp_hwport_row := {| hw_flags := flags; hw_nic_flags := 0; hw_xdp_prog_id := 0 |}.
Definition ipif_sample (ip ifindex pfx : Z) : cicp_ipif_row :=
  {| if_net_ip := ip; if_net_ipset := pfx; if_ifindex := ifindex; if_bcast_ip := 0; if_scope := 0 |}.
Definition mib_sample (rows : list cicp_llap_row) : cp_mibs :=
  {| hwport := map hwport_sample [0x200; 0x201; 0; 0x200]; llap := rows;
     ipif := [ipif_sample 0x0100000a 2 24; ipif_sample 0x0200000a 5 24; ipif_sample 0 0 0xff]; ip6if := [] |}.
Definition free_llap : cicp_llap_row := llap_sample 0 "" 0.
Definition cplane_sample : cplane :=
  {| cversion := 0;
     dim := {| hwport_max := 4; llap_max := 3; ipif_max := 3; ip6if_max := 0; svc_arrays_max := 0; svc_ep_max := 0;
               fwd_ln2 := 1; fwd_mask := 1 |};
     mib0 := mib_sample [llap_sample 2 "eth0" 1; llap_sample 5 "eth1" 6; free_llap];
     mib1 := mib_sample [llap_sample 2 "eth0" 1; free_llap; free_llap];
     fwd_table := {| ft_mask := 1; ft_rows := [route 0x0a 8; route 0x0b 8]; ft_prefix_src := [0; 0; 1];
       ft_prefix_dst := [0; 2 ^ 40; 0]; ft_rw_rows := [{| rw_frc_used := 5; rw_flags := 0 |}; {| rw_frc_used := 5; rw_flags := 1 |}] |} |}.

Lemma searches_exact_witness :
  run (cp_llap_find_row 0 5) cplane_sample = Some (cplane_sample, 1) /\
  run (cp_llap_find_row 1 5) cplane_sample = Some (cplane_sample, CICP_ROWID_BAD) /\
  (exists r, run (cp_get_hwports 0 7) cplane_sample = Some (cplane_sample, r) /\
     forall k, 0 <= k -> Z.testbit r k = Z.testbit 7 k && in_use (hwport (mib 0 cplane_sample)) k).
Proof.
  split; [vm_compute; reflexivity|]. split; [vm_compute; reflexivity|].
  apply (searches_exact 0 cplane_sample 5 "eth1" 7); [vm_compute; intuition discriminate|discriminate|lia|].
  intros k Hk Hb. change (Z.of_nat (length (hwport (mib 0 cplane_sample)))) with 4. apply Z.nle_gt. intros Hge.
  rewrite Z.bits_above_log2 in Hb; [discriminate|lia|]. change (Z.log2 7) with 2. lia.
Defined.

(** A table of more rows than an identifier counts is read outside when it has no hit
    and no free row: the identifier turns negative. *)
Lemma search_overruns m s ifindex : 32767 < llap_max (dim s) -> ifindex <> CI_IFID_BAD ->
  (forall j, Z.of_nat j <= 32767 -> exists x, llap (mib m s) !! j = Some x /\ has_ifindex ifindex x = false /\ llap_free x = false) ->
  run (cp_llap_find_row m ifindex) s = None.
Proof.
  intros Hmax Hne Hrows. unfold cp_llap_find_row. rewrite (proj2 (Z.eqb_neq _ _) Hne). cbn [negb aassert].
  set (max := fun s : cplane => llap_max (dim s)).
  assert (forall n fuel d i, 0 <= i <= 32767 -> Z.of_nat n = 32767 - i ->
    run (for_rows fuel max (find_row_pass m ifindex) d i) s = None) as H; [|apply (H (Z.to_nat 32767)); lia].
  induction n as [|n IH]; intros fuel d i Hi Hn; (destruct fuel as [|fuel]; [done|]); cbn [for_rows];
    rewrite run_bind, run_read; cbn [mbind option_bind fst snd]; rewrite (proj2 (Z.ltb_lt i (max s))) by (unfold max; lia);
    destruct (Hrows (Z.to_nat i) ltac:(lia)) as (x & Hx & Hh & Hf);
    rewrite run_bind, (run_find_pass _ _ _ _ _ x), Hh, Hf by (lia || done); cbn [mbind option_bind fst snd].
  - assert (i = 32767) as -> by lia. change (swrap 16 (32767 + 1)) with (-32768). destruct fuel as [|fuel]; [done|].
    cbn [for_rows]. rewrite run_bind, run_read. cbn [mbind option_bind fst snd].
    rewrite (proj2 (Z.ltb_lt _ (max s))) by (unfold max; lia). unfold find_row_pass at 1.
    by rewrite !run_bind, run_cell_out by lia.
  - rewrite swrap_small by (change (2 ^ (16 - 1)) with 32768; lia). apply IH; lia.
Qed.
