(* ===== verification/CpClient.v ===== *)
(** * CpClient: reading the control plane ([cplane/cplane.h], [cplane/hash.h],
    [cplane/mmap.h])

    The functions by which a client looks up interfaces, addresses and routes in the
    tables of [Cplane], under the version lock, while the server goes on; the choice
    of a port of a bond; the hashes of a route and the offsets of the mappings. *)

From Stdlib Require Import ZArith Lia Bool String.
From stdpp Require Import relations.
From S2P Require Import Prelude Bytes BitField IpAddr Hash Atomic Snapshot Cplane.

(** ** System calls *)

(** [cp_ioctl] with what the system call returned and left in [errno]: the result, and
    [errno] after it. *)
Definition cp_ioctl (rc errno_after saved_errno : Z) : Z * Z :=
  if rc =? 0 then (0, errno_after) else (- errno_after, saved_errno).

Definition ENOENT : Z := 2.

(** ** The version lock *)

Definition CP_VERLOCK {L} (fuel : nat) (body : Z -> L -> act cplane L) (l : L) : act cplane L :=
  verlock cversion fuel (fun version => body (Z.land version 1)) l.

(** ** Comparing memory *)

(** [memcmp(field of row i, bs, n) == 0]: byte by byte, up to the first difference. *)
Fixpoint bytes_equal {A} (l : cplane -> list A) (i : Z) (get : A -> Z -> Z) (k : Z) (bs : list Z) : act cplane Z :=
  match bs with
  | [] => Ret 1
  | b :: bs' => alet x := cell l i (fun r => get r k) in if x =? b then bytes_equal l i get (k + 1) bs' else Ret 0
  end.

Definition mac_byte (r : cicp_llap_row) (k : Z) : Z := default 0 (ll_mac r !! Z.to_nat k).
Definition ip6_byte (r : cicp_ip6if_row) (k : Z) : Z := ip6_of (if6_net_ip6 r) k.
Definition ip6_bytes (a : ci_addr_t) : list Z := map (ip6_of a) (seqZ 0 16).

(** ** Routes *)

Definition oo_cp_verinfo_init (verinfo : cicp_verinfo_t) : cicp_verinfo_t :=
  {| vi_id := CICP_MAC_ROWID_BAD; vi_version := vi_version verinfo |}.

(** The frc arguments are what the cycle counter reads. *)
Definition oo_cp_verinfo_is_valid (frc : Z) (verinfo : cicp_verinfo_t) : act cplane Z :=
  if CICP_MAC_ROWID_IS_VALID (vi_id verinfo) then cp_fwd_version_matches frc verinfo else Ret 0.

Definition clear_need_refresh (r : cp_fwd_rw_row) : cp_fwd_rw_row :=
  {| rw_frc_used := rw_frc_used r; rw_flags := Z.ldiff (rw_flags r) CICP_FWD_RW_FLAG_ARP_NEED_REFRESH |}.

(** 1 when the server is told. *)
Definition oo_cp_arp_confirm (frc : Z) (verinfo : cicp_verinfo_t) : act cplane Z :=
  alet ok := oo_cp_verinfo_is_valid frc verinfo in
  if ok =? 0 then Ret 0
  else
    alet rw := cp_get_fwd_rw verinfo in
    alet flags := cell (fun s => ft_rw_rows (fwd_table s)) rw rw_flags in
    if Z.land flags CICP_FWD_RW_FLAG_ARP_NEED_REFRESH =? 0 then Ret 0
    else alet x := rw_write rw clear_need_refresh in Ret 1.

(** The build with assertions; 1 when the server is asked. *)
Definition oo_cp_arp_resolve (frc : Z) (verinfo : cicp_verinfo_t) : act cplane Z :=
  aassert (CICP_MAC_ROWID_IS_VALID (vi_id verinfo)) (
    alet i1 := cp_get_fwd_data verinfo fd_ifindex in
    alet i2 := (if i1 =? CI_IFID_BAD then Ret 1 else
                  alet i := cp_get_fwd_data verinfo fd_ifindex in Ret (Z.b2z (i =? CI_IFID_LOOP))) in
    alet changed := (if i2 =? 0 then Ret 1 else
                       alet id := cp_get_fwd verinfo in
                       alet v := cp_fwd_version id in Ret (Z.b2z (negb (vi_version verinfo =? v)))) in
    aassert (changed =? 1) (
      alet flags := cp_get_fwd_data verinfo fd_flags in
      if negb (Z.land flags CICP_FWD_DATA_FLAG_ARP_VALID =? 0) then Ret 0
      else cp_fwd_version_matches frc verinfo)).

(** The fields of the data in the order of the structure; [memcpy] reads them one by
    one. *)
Definition fwd_data_fields : list (cp_fwd_data -> Z) :=
  [fun d => u64_of (fd_src d) 0; fun d => u64_of (fd_src d) 1; fun d => u64_of (fd_next_hop d) 0;
   fun d => u64_of (fd_next_hop d) 1; fd_mtu; fd_ifindex; fd_hop_limit; fd_flags; fd_src_mac; fd_hwports; fd_dst_mac;
   fun d => enc_type (fd_encap d); fun d => enc_vlan_id (fd_encap d); fun d => enc_link_ifindex (fd_encap d);
   fun d => w_end (fd_weight d); fun d => w_val (fd_weight d); fun d => w_flag (fd_weight d)].

Fixpoint copy_data (verinfo : cicp_verinfo_t) (id : Z) (gets : list (cp_fwd_data -> Z)) : act cplane (list Z) :=
  match gets with
  | [] => Ret []
  | g :: gets' =>
      alet x := cell (fun s => ft_rows (fwd_table s)) id (fun r => g (cp_fwd_data_at (vi_version verinfo) r)) in
      alet xs := copy_data verinfo id gets' in
      Ret (x :: xs)
  end.

(** What the function returns: 1 with the data it copied, or what the library's slow
    path [__oo_cp_route_resolve] returns. *)
Inductive resolved := Cached (data : list Z) | Slow (rc : Z).

Definition oo_cp_route_resolve (frc : Z) (slow : act cplane Z) (verinfo : cicp_verinfo_t) : act cplane resolved :=
  alet ok := oo_cp_verinfo_is_valid frc verinfo in
  alet r := (if ok =? 0 then Ret None else
    alet rw := cp_get_fwd_rw verinfo in
    alet x := rw_write rw (set_frc_used frc) in
    alet id := cp_get_fwd verinfo in
    alet data := copy_data verinfo id fwd_data_fields in
    alet still := cp_fwd_version_matches frc verinfo in
    Ret (if still =? 0 then None else Some data)) in
  match r with
  | Some data => Ret (Cached data)
  | None => alet rc := slow in Ret (Slow rc)
  end.

(** ** Interfaces *)

Section Lookups.
Variable m : Z.

(** The test of row [i]. *)
Definition oo_cp_llap_params_check (i hwport vlan_id : Z) (mac : option (list Z)) : act cplane Z :=
  let llaps := fun s => llap (mib m s) in
  alet rx := cell llaps i ll_rx_hwports in
  if Z.land rx (cp_hwport_make_mask hwport) =? 0 then Ret 0
  else
    alet t1 := cell llaps i (fun r => enc_type (ll_encap r)) in
    if negb (Z.land t1 CICP_LLAP_TYPE_SLAVE =? 0) then Ret 0
    else
      alet t2 := cell llaps i (fun r => enc_type (ll_encap r)) in
      if negb (Z.land t2 CICP_LLAP_TYPE_VLAN =? Z.b2z (negb (vlan_id =? 0))) then Ret 0
      else
        alet t3 := cell llaps i (fun r => enc_type (ll_encap r)) in
        alet v := (if Z.land t3 CICP_LLAP_TYPE_VLAN =? 0 then Ret 1 else
                     alet v := cell llaps i (fun r => enc_vlan_id (ll_encap r)) in Ret (Z.b2z (v =? vlan_id))) in
        if v =? 0 then Ret 0
        else match mac with None => Ret 1 | Some bs => bytes_equal llaps i mac_byte 0 bs end.

(** A pass of [oo_cp_hwport_vlan_to_ifindex]; [ifindex] is its local variable. *)
Definition vlan_to_ifindex_pass (hwport vlan_id : Z) (mac : option (list Z)) (ifindex : Z) : act cplane Z :=
  for_rows rowids (fun s => llap_max (dim s)) (fun d i =>
    alet c := oo_cp_llap_params_check i hwport vlan_id mac in
    if negb (c =? 0) then
      alet x := cell (fun s => llap (mib m s)) i ll_ifindex in Ret (x, true)
    else
      alet y := cell (fun s => llap (mib m s)) i ll_ifindex in Ret (d, cicp_llap_row_is_free y))
    ifindex 0.

(** The callbacks of the caller: a program that reads the tables, with data of its own. *)
Section Callbacks.
Context {D : Type} (check : Z -> D -> act cplane (bool * D)).

(** A pass of [oo_cp_find_ipif_by_ip] with its local variable [rc] and the data. *)
Definition find_ipif_by_ip_pass (ip : Z) (l : Z * D) : act cplane (Z * D) :=
  for_rows rowids (fun s => ipif_max (dim s)) (fun d id =>
    alet free := cell (fun s => ipif (mib m s)) id if_net_ipset in
    if cicp_ipif_row_is_free free then Ret (d, true)
    else
      alet a := cell (fun s => ipif (mib m s)) id if_net_ip in
      if a =? ip then
        alet x := cell (fun s => ipif (mib m s)) id if_ifindex in
        alet r := check x (snd d) in
        if fst r then Ret ((1, snd r), true) else Ret ((fst d, snd r), false)
      else Ret (d, false)) l 0.

Definition find_ipif_by_ip6_pass (ip : ci_addr_t) (l : Z * D) : act cplane (Z * D) :=
  for_rows rowids (fun s => ip6if_max (dim s)) (fun d id =>
    alet free := cell (fun s => ip6if (mib m s)) id if6_net_ipset in
    if cicp_ip6if_row_is_free free then Ret (d, true)
    else
      alet eq := bytes_equal (fun s => ip6if (mib m s)) id ip6_byte 0 (ip6_bytes ip) in
      if negb (eq =? 0) then
        alet x := cell (fun s => ip6if (mib m s)) id if6_ifindex in
        alet r := check x (snd d) in
        if fst r then Ret ((1, snd r), true) else Ret ((fst d, snd r), false)
      else Ret (d, false)) l 0.

(** The callback is given the row of the interface. *)
Definition find_llap_by_ip_pass (ip : Z) (l : Z * D) : act cplane (Z * D) :=
  for_rows rowids (fun s => ipif_max (dim s)) (fun d id =>
    alet free := cell (fun s => ipif (mib m s)) id if_net_ipset in
    if cicp_ipif_row_is_free free then Ret (d, true)
    else
      alet a := cell (fun s => ipif (mib m s)) id if_net_ip in
      if a =? ip then
        alet x := cell (fun s => ipif (mib m s)) id if_ifindex in
        alet llap_id := cp_llap_find_row m x in
        if llap_id =? CICP_ROWID_BAD then Ret (d, false)
        else
          alet r := check llap_id (snd d) in
          if fst r then Ret ((1, snd r), true) else Ret ((fst d, snd r), false)
      else Ret (d, false)) l 0.

Definition find_llap_by_ip6_pass (ip6 : ci_addr_t) (l : Z * D) : act cplane (Z * D) :=
  for_rows rowids (fun s => ip6if_max (dim s)) (fun d id =>
    alet free := cell (fun s => ip6if (mib m s)) id if6_net_ipset in
    if cicp_ip6if_row_is_free free then Ret (d, true)
    else
      alet eq := bytes_equal (fun s => ip6if (mib m s)) id ip6_byte 0 (ip6_bytes ip6) in
      if negb (eq =? 0) then
        alet x := cell (fun s => ip6if (mib m s)) id if6_ifindex in
        alet llap_id := cp_llap_find_row m x in
        if llap_id =? CICP_ROWID_BAD then Ret (d, false)
        else
          alet r := check llap_id (snd d) in
          if fst r then Ret ((1, snd r), true) else Ret ((fst d, snd r), false)
      else Ret (d, false)) l 0.

End Callbacks.

Definition ifindex_to_ip_pass (ifindex ip : Z) : act cplane Z :=
  for_rows rowids (fun s => ipif_max (dim s)) (fun d id =>
    alet free := cell (fun s => ipif (mib m s)) id if_net_ipset in
    if cicp_ipif_row_is_free free then Ret (d, true)
    else
      alet x := cell (fun s => ipif (mib m s)) id if_ifindex in
      if x =? ifindex then alet a := cell (fun s => ipif (mib m s)) id if_net_ip in Ret (a, true)
      else Ret (d, false)) ip 0.

(** The results of [oo_cp_find_llap]: its return value and what the pointers given to it
    point to. *)
Record llap_out := {
  o_rc : Z; o_mtu : Z; o_hwports : Z; o_rx_hwports : Z; o_mac : list Z; o_type : Z; o_vlan_id : Z; o_link : Z }.
(** Which pointers are not null. *)
Record llap_want := { want_mtu : bool; want_hwports : bool; want_rx : bool; want_mac : bool; want_encap : bool }.

Fixpoint read_mac (i k : Z) (n : nat) : act cplane (list Z) :=
  match n with
  | O => Ret []
  | S n' =>
      alet b := cell (fun s => llap (mib m s)) i (fun r => mac_byte r k) in
      alet bs := read_mac i (k + 1) n' in Ret (b :: bs)
  end.

Definition read_if {A} (want : bool) (p : act cplane A) (old : A) : act cplane A := if want then p else Ret old.

Definition find_llap_pass (want : llap_want) (ifindex : Z) (o : llap_out) : act cplane llap_out :=
  let llaps := fun s => llap (mib m s) in
  alet id := cp_llap_find_row m ifindex in
  if id =? CICP_ROWID_BAD then
    Ret {| o_rc := - ENOENT; o_mtu := o_mtu o; o_hwports := o_hwports o; o_rx_hwports := o_rx_hwports o;
           o_mac := o_mac o; o_type := o_type o; o_vlan_id := o_vlan_id o; o_link := o_link o |}
  else
    alet mtu := read_if (want_mtu want) (cell llaps id ll_mtu) (o_mtu o) in
    alet tx := read_if (want_hwports want) (cell llaps id ll_tx_hwports) (o_hwports o) in
    alet rx := read_if (want_rx want) (cell llaps id ll_rx_hwports) (o_rx_hwports o) in
    alet mac := read_if (want_mac want) (read_mac id 0 6) (o_mac o) in
    alet t := read_if (want_encap want) (cell llaps id (fun r => enc_type (ll_encap r))) (o_type o) in
    alet v := read_if (want_encap want) (cell llaps id (fun r => enc_vlan_id (ll_encap r))) (o_vlan_id o) in
    alet l := read_if (want_encap want) (cell llaps id (fun r => enc_link_ifindex (ll_encap r))) (o_link o) in
    Ret {| o_rc := o_rc o; o_mtu := mtu; o_hwports := tx; o_rx_hwports := rx; o_mac := mac;
           o_type := t; o_vlan_id := v; o_link := l |}.

End Lookups.

(** The functions: the passes under the version lock.  A local variable gets its first
    value before the lock, once. *)
Definition oo_cp_hwport_vlan_to_ifindex (fuel : nat) (hwport vlan_id : Z) (mac : option (list Z)) : act cplane Z :=
  aassert (negb (hwport =? CI_HWPORT_ID_BAD)) (
    alet max := aread (fun s => hwport_max (dim s)) in
    aassert (hwport <? max) (CP_VERLOCK fuel (fun m => vlan_to_ifindex_pass m hwport vlan_id mac) 0)).

Definition oo_cp_find_ipif_by_ip {D} (fuel : nat) (check : Z -> D -> act cplane (bool * D)) (ip : Z) (data : D) :=
  CP_VERLOCK fuel (fun m => find_ipif_by_ip_pass m check ip) (0, data).
Definition oo_cp_find_ipif_by_ip6 {D} (fuel : nat) (check : Z -> D -> act cplane (bool * D)) (ip : ci_addr_t) (data : D) :=
  CP_VERLOCK fuel (fun m => find_ipif_by_ip6_pass m check ip) (0, data).
Definition oo_cp_find_llap_by_ip {D} (fuel : nat) (check : Z -> D -> act cplane (bool * D)) (ip : Z) (data : D) :=
  CP_VERLOCK fuel (fun m => find_llap_by_ip_pass m check ip) (0, data).
Definition oo_cp_find_llap_by_ip6 {D} (fuel : nat) (check : Z -> D -> act cplane (bool * D)) (ip6 : ci_addr_t) (data : D) :=
  CP_VERLOCK fuel (fun m => find_llap_by_ip6_pass m check ip6) (0, data).

Definition oo_cp_find_llap (fuel : nat) (want : llap_want) (ifindex : Z) (o : llap_out) : act cplane llap_out :=
  CP_VERLOCK fuel (fun m => find_llap_pass m want ifindex)
    {| o_rc := 0; o_mtu := o_mtu o; o_hwports := o_hwports o; o_rx_hwports := o_rx_hwports o; o_mac := o_mac o;
       o_type := o_type o; o_vlan_id := o_vlan_id o; o_link := o_link o |}.

Definition INADDR_ANY : Z := 0.
Definition oo_cp_ifindex_to_ip (fuel : nat) (ifindex : Z) : act cplane Z :=
  CP_VERLOCK fuel (fun m => ifindex_to_ip_pass m ifindex) INADDR_ANY.

(** ** Bonds *)

Record cicp_hash_state := {
  hs_flags : Z; hs_src_mac5 : Z; hs_dst_mac5 : Z; src_addr_be32 : Z; dst_addr_be32 : Z; src_port_be16 : Z; dst_port_be16 : Z }.
Definition CICP_HASH_STATE_FLAGS_IS_IP : Z := 0x1.
Definition CICP_HASH_STATE_FLAGS_IS_TCP_UDP : Z := 0x2.
Definition CICP_HASH_STATE_FLAGS_IS_FRAG : Z := 0x4.
Definition hs_has (hs : cicp_hash_state) (flag : Z) : bool := negb (Z.land (hs_flags hs) flag =? 0).

Definition cicp_layer2_hash (hs : cicp_hash_state) (num_slaves : Z) : Z :=
  Z.lxor (hs_src_mac5 hs) (hs_dst_mac5 hs) mod num_slaves.

Definition cicp_layer23_hash (hs : cicp_hash_state) (num_slaves : Z) : Z :=
  if hs_has hs CICP_HASH_STATE_FLAGS_IS_IP
  then Z.lxor (Z.land (CI_BSWAP_BE32 (Z.lxor (src_addr_be32 hs) (dst_addr_be32 hs))) 0xffff)
         (Z.lxor (hs_src_mac5 hs) (hs_dst_mac5 hs)) mod num_slaves
  else cicp_layer2_hash hs num_slaves.

Section Bond.

(** What a signed product outside of int gives: nothing in the language, a value with a
    compiler that defines it. *)
Variable overflow : Z -> option Z.

Definition int_mul (a b : Z) : option Z := if (- 2 ^ 31 <=? a * b) && (a * b <? 2 ^ 31) then Some (a * b) else overflow (a * b).

Definition cicp_layer34_hash (hs : cicp_hash_state) (num_slaves : Z) : option Z :=
  if hs_has hs CICP_HASH_STATE_FLAGS_IS_IP then
    let addrs := CI_BSWAP_BE32 (Z.lxor (src_addr_be32 hs) (dst_addr_be32 hs)) in
    if negb (hs_has hs CICP_HASH_STATE_FLAGS_IS_FRAG) && hs_has hs CICP_HASH_STATE_FLAGS_IS_TCP_UDP then
      let ports := CI_BSWAP_BE16 (Z.lxor (src_port_be16 hs) (dst_port_be16 hs)) in
      p ← int_mul ports 16777619;
      Some (u16 (Z.lxor (u32 (Z.shiftr p 8)) addrs) mod u16 num_slaves)
    else Some (u16 addrs mod u16 num_slaves)
  else Some (cicp_layer2_hash hs num_slaves).

Definition oo_cp_hwport_hash (encap : Z) (hs : cicp_hash_state) (slaves : Z) : option Z :=
  if CI_IS_POW2 (Z.land encap CICP_LLAP_TYPE_USES_HASH) then
    if negb (Z.land encap CICP_LLAP_TYPE_XMIT_HASH_LAYER34 =? 0) then cicp_layer34_hash hs slaves
    else if negb (Z.land encap CICP_LLAP_TYPE_XMIT_HASH_LAYER23 =? 0) then Some (cicp_layer23_hash hs slaves)
    else Some (cicp_layer2_hash hs slaves)
  else None.

(** The ports of the mask in the array, as far as the loop fills it. *)
Fixpoint bond_ports (fuel : nat) (hwports : Z) : list Z :=
  match fuel with
  | O => []
  | S fuel' => if hwports =? 0 then [] else cp_hwport_mask_first hwports :: bond_ports fuel' (Z.land hwports (hwports - 1))
  end.

(** An element of the array that the loop did not fill has no value. *)
Definition oo_cp_hwport_bond_get (encap hwports : Z) (hs : cicp_hash_state) : option Z :=
  if hwports =? 0 then Some CI_HWPORT_ID_BAD
  else
    let ports := bond_ports 17 hwports in
    h ← oo_cp_hwport_hash encap hs (Z.of_nat (length ports));
    if 0 <=? h then ports !! Z.to_nat h else None.

End Bond.

(** ** Hashes ([cplane/hash.h]) and mappings ([cplane/mmap.h]) *)

Definition cp_calc_hash (size_mask : Z) (laddr raddr : ci_addr_t) (ifindex tos iif_ifindex : Z) : option (Z * Z) :=
  let real_tos := Z.land tos IPTOS_RT_MASK in
  h1 ← onload_hash1 size_mask laddr ifindex raddr real_tos iif_ifindex;
  Some (h1, cplane_hash2 laddr ifindex raddr real_tos iif_ifindex).
Definition cp_calc_fwd_hash (mask : Z) (key : cp_fwd_key) : option (Z * Z) :=
  cp_calc_hash mask (k_src key) (k_dst key) (k_ifindex key) (k_tos key) (k_iif_ifindex key).
Definition cp_calc_svc_hash (size_mask : Z) (addr : ci_addr_t) (port : Z) : option (Z * Z) :=
  cp_calc_hash size_mask addr addr_any port 0 0.

Definition CP_MMAP_TYPE_WIDTH : Z := 4.
Definition CP_MMAP_PARAM_WIDTH : Z := 32.
Definition CP_MMAP_PARAM_SHIFT : Z := CP_MMAP_TYPE_WIDTH.
Definition CP_MMAP_TYPE_MASK : Z := Z.shiftl 1 CP_MMAP_TYPE_WIDTH - 1.
Definition CP_MMAP_PARAM_MASK : Z := Z.shiftl 1 CP_MMAP_PARAM_WIDTH - 1.
Definition CP_MMAP_TYPE (oo_mmap_type : Z) : Z := Z.land oo_mmap_type CP_MMAP_TYPE_MASK.
Definition CP_MMAP_PARAM (oo_mmap_type : Z) : Z := Z.land (Z.shiftr oo_mmap_type CP_MMAP_PARAM_SHIFT) CP_MMAP_PARAM_MASK.
Definition CP_MAKE_MMAP_ID (map_type param : Z) : Z := Z.lor map_type (u64 (Z.shiftl param CP_MMAP_PARAM_SHIFT)).

(** Offsets of mappings ([onload/mmap_base.h]), with pages of 4096 bytes. *)
Definition CI_PAGE_SHIFT : Z := 12.
Definition OO_MMAP_TYPE_CPLANE : Z := 1.
Definition OO_MMAP_TYPE_MASK : Z := 0x3.
Definition OO_MMAP_TYPE_WIDTH : Z := 2.
Definition OO_MMAP_TYPE_SHIFT : Z := CI_PAGE_SHIFT.
Definition OO_MMAP_ID_SHIFT : Z := OO_MMAP_TYPE_WIDTH + OO_MMAP_TYPE_SHIFT.
Definition OO_MMAP_TYPE (offset : Z) : Z := Z.land (Z.shiftr offset OO_MMAP_TYPE_SHIFT) OO_MMAP_TYPE_MASK.
Definition OO_MMAP_OFFSET_TO_MAP_ID (offset : Z) : Z := Z.shiftr (u64 offset) OO_MMAP_ID_SHIFT.
Definition OO_MMAP_MAKE_OFFSET (map_type map_id : Z) : Z :=
  Z.lor (swrap 64 (Z.shiftl map_id OO_MMAP_ID_SHIFT)) (Z.shiftl map_type OO_MMAP_TYPE_SHIFT).
Definition OO_MMAP_CPLANE_ID_FWD : Z := 1.
Definition OO_MMAP_CPLANE_ID_FWD_RW : Z := 2.
Definition CP_MMAP_MAKE_FWD_OFFSET (fwd_table_id : Z) : Z :=
  Z.lor (Z.shiftl OO_MMAP_TYPE_CPLANE OO_MMAP_TYPE_SHIFT)
    (u64 (Z.shiftl (CP_MAKE_MMAP_ID OO_MMAP_CPLANE_ID_FWD fwd_table_id) OO_MMAP_ID_SHIFT)).
Definition CP_MMAP_MAKE_FWD_RW_OFFSET (fwd_table_id : Z) : Z :=
  Z.lor (Z.shiftl OO_MMAP_TYPE_CPLANE OO_MMAP_TYPE_SHIFT)
    (u64 (Z.shiftl (CP_MAKE_MMAP_ID OO_MMAP_CPLANE_ID_FWD_RW fwd_table_id) OO_MMAP_ID_SHIFT)).

(** ** Programs that look at the tables of a version *)

Definition cp_view (v : Z) (s : cplane) : cp_tables_dim * cp_mibs := (dim s, mib (Z.land v 1) s).

Lemma cp_view_word v s : cp_view (u32 v) s = cp_view v s.
Proof.
  unfold cp_view. do 2 f_equal. apply Z.bits_inj'. intros k Hk. rewrite !Z.land_spec, wrap_spec by lia.
  destruct (Z.eq_dec k 0) as [->|Hne]; [done|]. rewrite (Z.bits_above_log2 1 k), !andb_false_r; [done|lia|]. simpl. lia.
Qed.

(** The programs of this file that look, whatever the copy: [tlooks m] for frame [m]. *)
Section Looking.
Context (v : Z).
Local Notation looks := (looks cp_view v).
Local Notation m := (Z.land v 1).

Lemma looks_cell {A} (l : cplane -> list A) i (get : A -> Z) :
  (forall s t, cp_view v s = cp_view v t -> l s = l t) -> looks (cell l i get).
Proof.
  intros Hl. unfold cell. apply looks_bind; [|intros ok; apply looks_assert]; apply looks_aread; intros s t H; by rewrite (Hl s t H).
Qed.

Lemma looks_for_rows {D} fuel max (body : D -> Z -> act cplane (D * bool)) d i :
  (forall s t, cp_view v s = cp_view v t -> max s = max t) -> (forall d j, looks (body d j)) ->
  looks (for_rows fuel max body d i).
Proof.
  intros Hm Hb. revert d i. induction fuel as [|fuel IH]; intros d i; [done|]. cbn [for_rows].
  apply looks_bind; [by apply looks_aread|]. intros n. destruct (i <? n); [|done].
  apply looks_bind; [done|]. intros r. by destruct (snd r).
Qed.

Lemma same_dim {A} (f : cp_tables_dim -> A) s t : cp_view v s = cp_view v t -> f (dim s) = f (dim t).
Proof. unfold cp_view. by intros [= -> _]. Qed.
Lemma same_mib {A} (f : cp_mibs -> A) s t : cp_view v s = cp_view v t -> f (mib m s) = f (mib m t).
Proof. unfold cp_view. by intros [= _ ->]. Qed.

Lemma looks_bytes_equal {A} (l : cplane -> list A) i get k bs :
  (forall s t, cp_view v s = cp_view v t -> l s = l t) -> looks (bytes_equal l i get k bs).
Proof.
  intros Hl. revert k. induction bs as [|b bs IH]; intros k; [done|]. cbn [bytes_equal].
  apply looks_bind; [by apply looks_cell|]. intros x. by destruct (x =? b).
Qed.
End Looking.

(** Follows the structure of a program that looks. *)
Ltac looking :=
  repeat match goal with
  | |- looks _ _ (abind _ _) => apply looks_bind; [|intros ?]
  | |- looks _ _ (cell _ _ _) => apply looks_cell
  | |- looks _ _ (for_rows _ _ _ _ _) => apply looks_for_rows; [|intros ? ?]
  | |- looks _ _ (bytes_equal _ _ _ _ _) => apply looks_bytes_equal
  | |- looks _ _ (aassert _ _) => apply looks_assert
  | |- looks _ _ (aread _) => apply looks_aread
  | |- looks _ _ (Ret _) => exact I
  | |- looks _ _ (if ?b then _ else _) => destruct b
  | |- looks _ _ (match ?b with _ => _ end) => destruct b
  | |- forall s t, cp_view _ s = cp_view _ t -> ?f (dim s) = ?f (dim t) => apply (same_dim _ f)
  | |- forall s t, cp_view ?v s = cp_view _ t -> ?f (mib _ s) = ?f (mib _ t) => apply (same_mib v f)
  end.

Lemma looks_find_row v ifindex : looks cp_view v (cp_llap_find_row (Z.land v 1) ifindex).
Proof. unfold cp_llap_find_row, find_row_pass. looking. Qed.

Lemma looks_vlan_pass v hwport vlan_id mac l : looks cp_view v (vlan_to_ifindex_pass (Z.land v 1) hwport vlan_id mac l).
Proof. unfold vlan_to_ifindex_pass, oo_cp_llap_params_check. looking. Qed.

Lemma looks_read_mac v i k n : looks cp_view v (read_mac (Z.land v 1) i k n).
Proof. revert k. induction n as [|n IH]; intros k; [done|]. cbn [read_mac]. looking. apply IH. Qed.

Lemma looks_find_llap_pass v want ifindex o : looks cp_view v (find_llap_pass (Z.land v 1) want ifindex o).
Proof. unfold find_llap_pass, read_if. looking; apply looks_find_row || apply looks_read_mac. Qed.

(** ** What a finished look-up has seen *)

Lemma land1_word v : Z.land (u32 v) 1 = Z.land v 1.
Proof.
  apply Z.bits_inj'. intros k Hk. rewrite !Z.land_spec, wrap_spec by lia.
  destruct (Z.eq_dec k 0) as [->|Hne]; [done|]. rewrite (Z.bits_above_log2 1 k), !andb_false_r; [done|lia|]. simpl. lia.
Qed.

(** The frame that the version selects. *)
Definition current (s : cplane) : Z := Z.land (cversion s) 1.

Section Verlock.
Context (E : cplane -> cplane -> Prop) (HE : protocol cversion cp_view E).
Context {L : Type} (body : Z -> L -> act cplane L) (Hlook : forall v l, looks cp_view v (body (Z.land v 1) l)).

(** The result is that of a pass over the frame that was current at one moment [t]; the
    local variables are those that earlier passes left, the first ones when the
    version has not moved. *)
Lemma cp_verlock_last fuel l s a s' : irun E (CP_VERLOCK fuel body l) s a s' -> cversion s' < cversion s + 2 ^ 32 ->
  exists l1 t, (cversion s' = cversion s -> l1 = l) /\ rtc E s t /\ rtc E t s' /\ run (body (current t) l1) t = Some (t, a).
Proof.
  intros Hr Hfew. destruct (verlock_last cversion cp_view E HE (fun v => body (Z.land v 1))
    (fun v l => looks_reads _ _ _ _ (Hlook v l)) (fun v l => looks_within _ _ _ E (Hlook v l)) cp_view_word
    fuel l s a s' Hr Hfew) as (l1 & t & t' & _ & Hl & H1 & H2 & Hrun).
  rewrite land1_word in Hrun. pose proof (looks_run _ _ _ _ _ _ (Hlook (cversion t) l1) Hrun) as ->. by exists l1, t.
Qed.

(** Without the server one pass gives the answer of the current frame. *)
Lemma cp_verlock_quiet fuel l s a : (0 < fuel)%nat -> run (body (current s) l) s = Some (s, a) ->
  run (CP_VERLOCK fuel body l) s = Some (s, a).
Proof.
  intros Hf Hr. destruct fuel as [|fuel]; [lia|]. unfold CP_VERLOCK. cbn [verlock].
  rewrite run_bind, run_read. cbn [mbind option_bind fst snd]. rewrite land1_word. fold (current s).
  by rewrite run_bind, Hr; cbn [mbind option_bind fst snd]; rewrite run_bind, run_read; cbn [mbind option_bind fst snd]; rewrite Z.eqb_refl.
Qed.

End Verlock.

(** ** Inverting runs *)

Lemma cell_inv {A B} (l : cplane -> list A) i (get : A -> Z) (k : Z -> act cplane B) s r :
  run (abind (cell l i get) k) s = Some r -> exists x, 0 <= i /\ l s !! Z.to_nat i = Some x /\ run (k (get x)) s = Some r.
Proof.
  rewrite run_bind. destruct (decide (0 <= i < Z.of_nat (length (l s)))) as [Hi|Hi].
  - destruct (lookup_lt_is_Some_2 (l s) (Z.to_nat i) ltac:(lia)) as [x Hx]. rewrite (run_cell _ _ _ _ x) by (lia || done).
    intros Hr. exists x. split_and!; [lia|done|done].
  - rewrite run_cell_out by lia. done.
Qed.

Lemma for_rows_inv {D} (P : D -> Prop) fuel max (body : D -> Z -> act cplane (D * bool)) d i s s' d' :
  P d -> (forall d j r s', P d -> run (body d j) s = Some (s', r) -> s' = s /\ P (fst r)) ->
  run (for_rows fuel max body d i) s = Some (s', d') -> s' = s /\ P d'.
Proof.
  intros Hd Hb. revert d i Hd. induction fuel as [|fuel IH]; intros d i Hd; [done|]. cbn [for_rows].
  rewrite run_bind, run_read. cbn [mbind option_bind fst snd]. destruct (i <? max s); [|by intros [= <- <-]].
  rewrite run_bind. destruct (run (body d i) s) as [[s1 r]|] eqn:Er; [|done]. cbn [mbind option_bind fst snd].
  destruct (Hb d i r s1 Hd Er) as [-> Hr]. destruct (snd r); [by intros [= <- <-]|]. by apply IH.
Qed.

(** A row that the search returns has the interface asked for. *)
Lemma find_row_hit m ifindex s s' id : run (cp_llap_find_row m ifindex) s = Some (s', id) ->
  s' = s /\ (id = CICP_ROWID_BAD \/ exists x, llap (mib m s) !! Z.to_nat id = Some x /\ 0 <= id /\ ll_ifindex x = ifindex).
Proof.
  unfold cp_llap_find_row. destruct (negb (ifindex =? CI_IFID_BAD)); [|done]. cbn [aassert].
  apply (for_rows_inv (fun id => id = CICP_ROWID_BAD \/ exists x, llap (mib m s) !! Z.to_nat id = Some x /\ 0 <= id /\ ll_ifindex x = ifindex));
    [by left|].
  intros d j r s1 Hd Hr. unfold find_row_pass in Hr. apply cell_inv in Hr as (x & Hj & Hx & Hr).
  destruct (ll_ifindex x =? ifindex) eqn:E1; [apply Z.eqb_eq in E1; simplify_eq/=; eauto 8|].
  apply cell_inv in Hr as (y & _ & _ & Hr).
  destruct (cicp_llap_row_is_free (ll_ifindex y)); simplify_eq/=; auto.
Qed.

(** The row [x] answers what was asked for. *)
Definition answers (want : llap_want) (x : cicp_llap_row) (o : llap_out) : Prop :=
  (want_mtu want = true -> o_mtu o = ll_mtu x) /\ (want_hwports want = true -> o_hwports o = ll_tx_hwports x) /\
  (want_rx want = true -> o_rx_hwports o = ll_rx_hwports x) /\
  (want_mac want = true -> o_mac o = map (mac_byte x) [0; 1; 2; 3; 4; 5]) /\
  (want_encap want = true -> o_type o = enc_type (ll_encap x) /\ o_vlan_id o = enc_vlan_id (ll_encap x) /\
     o_link o = enc_link_ifindex (ll_encap x)).

Lemma run_read_mac m i k n s x : 0 <= i -> llap (mib m s) !! Z.to_nat i = Some x ->
  run (read_mac m i k n) s = Some (s, map (fun j => mac_byte x (k + Z.of_nat j)) (seq 0 n)).
Proof.
  intros Hi Hx. revert k. induction n as [|n IH]; intros k; [done|]. cbn [read_mac]. cell_of x.
  rewrite run_bind, IH. cbn [mbind option_bind fst snd run seq map]. rewrite Z.add_0_r, <- seq_shift, map_map.
  do 3 f_equal. apply map_ext. intros j. f_equal. lia.
Qed.

Lemma run_read_if {A B} want (p : act cplane A) old (k : A -> act cplane B) s a :
  run p s = Some (s, a) -> run (abind (read_if want p old) k) s = run (k (if want then a else old)) s.
Proof. intros Hp. unfold read_if. rewrite run_bind. destruct want; [by rewrite Hp|done]. Qed.

Lemma run_find_llap m want ifindex o s o' : run (find_llap_pass m want ifindex o) s = Some (s, o') ->
  o_rc o' = - ENOENT \/
  (o_rc o' = o_rc o /\ exists x, x ∈ llap (mib m s) /\ ll_ifindex x = ifindex /\ answers want x o').
Proof.
  unfold find_llap_pass. rewrite run_bind. destruct (run (cp_llap_find_row m ifindex) s) as [[s1 id]|] eqn:Er; [|done].
  cbn [mbind option_bind fst snd]. destruct (find_row_hit _ _ _ _ _ Er) as [-> Hhit]. clear Er.
  destruct (Z.eqb_spec id CICP_ROWID_BAD); [intros [= <-]; by left|]. destruct Hhit as [|(x & Hx & Hid & Hif)]; [done|].
  do 3 (erewrite run_read_if by (by apply (run_cell _ _ _ _ x))).
  erewrite run_read_if by (by apply (run_read_mac _ _ _ _ _ x)).
  do 3 (erewrite run_read_if by (by apply (run_cell _ _ _ _ x))).
  intros [= <-]. right. split; [done|]. exists x. split; [by eapply list_elem_of_lookup_2|]. split; [done|].
  unfold answers; cbn; split_and!; intros Hw; by rewrite ?Hw.
Qed.

(** ** Interfaces and addresses of the current tables *)

(** The first row that is a hit, unless a free row comes before it. *)
Fixpoint walk {A} (hit free : A -> bool) (get : A -> Z) (d : Z) (rows : list A) : Z :=
  match rows with
  | [] => d
  | x :: rows' => if hit x then get x else if free x then d else walk hit free get d rows'
  end.

Lemma walk_scan {A} (hit free : A -> bool) get d rows (f : Z -> Z -> Z * bool) n i :
  (i + n <= length rows)%nat ->
  (forall d j x, rows !! j = Some x -> (i <= j < i + n)%nat ->
     f d (Z.of_nat j) = if hit x then (get x, true) else (d, free x)) ->
  scan f d (seqZ (Z.of_nat i) (Z.of_nat n)) = walk hit free get d (take n (drop i rows)).
Proof.
  revert i d. induction n as [|n IH]; intros i d Hlen Hf; [done|].
  destruct (lookup_lt_is_Some_2 rows i ltac:(lia)) as [x Hx]. rewrite (drop_S _ _ _ Hx).
  rewrite seqZ_cons by lia. cbn [scan take walk]. rewrite (Hf d i x Hx) by lia. destruct (hit x); [done|]. cbn [fst snd].
  destruct (free x); [done|]. replace (Z.pred (Z.of_nat (S n))) with (Z.of_nat n) by lia.
  replace (Z.succ (Z.of_nat i)) with (Z.of_nat (S i)) by lia. apply IH; [lia|]. intros. by apply Hf; try lia.
Qed.

Lemma run_walk {A} (l : cplane -> list A) (hit free : A -> bool) get max (body : Z -> Z -> act cplane (Z * bool)) d s :
  0 <= max s <= 32767 -> max s <= Z.of_nat (length (l s)) ->
  (forall d j x, 0 <= j -> l s !! Z.to_nat j = Some x -> run (body d j) s =
     Some (s, if hit x then (get x, true) else (d, free x))) ->
  run (for_rows rowids max body d 0) s = Some (s, walk hit free get d (take (Z.to_nat (max s)) (l s))).
Proof.
  intros Hm Hlen Hb.
  set (f := fun (d j : Z) => match l s !! Z.to_nat j with
    | Some x => if hit x then (get x, true) else (d, free x) | None => (d, false) end).
  rewrite (run_for_rows rowids max body f d 0 (Z.to_nat (max s)) s); try (unfold rowids; lia).
  - do 2 f_equal. etrans; [apply (walk_scan hit free get d (l s) f (Z.to_nat (max s)) 0)|by rewrite drop_0]; [lia|].
    intros d' j x Hx _. unfold f. by rewrite Nat2Z.id, Hx.
  - intros d' j Hj. destruct (lookup_lt_is_Some_2 (l s) (Z.to_nat j) ltac:(lia)) as [x Hx].
    rewrite (Hb d' j x) by (lia || done). unfold f. by rewrite Hx.
Qed.

Fixpoint bytes_match (get : Z -> Z) (k : Z) (bs : list Z) : bool :=
  match bs with [] => true | b :: bs' => (get k =? b) && bytes_match get (k + 1) bs' end.

(** The interface takes the packets of the port with the VLAN and, if given, the
    address. *)
Definition llap_serves (hwport vlan_id : Z) (mac : option (list Z)) (x : cicp_llap_row) : bool :=
  let t := enc_type (ll_encap x) in
  negb (Z.land (ll_rx_hwports x) (cp_hwport_make_mask hwport) =? 0) && (Z.land t CICP_LLAP_TYPE_SLAVE =? 0) &&
  (Z.land t CICP_LLAP_TYPE_VLAN =? Z.b2z (negb (vlan_id =? 0))) &&
  ((Z.land t CICP_LLAP_TYPE_VLAN =? 0) || (enc_vlan_id (ll_encap x) =? vlan_id)) &&
  match mac with None => true | Some bs => bytes_match (mac_byte x) 0 bs end.

Lemma run_bytes_equal {A} (l : cplane -> list A) i (get : A -> Z -> Z) k bs s x : 0 <= i -> l s !! Z.to_nat i = Some x ->
  run (bytes_equal l i get k bs) s = Some (s, Z.b2z (bytes_match (get x) k bs)).
Proof.
  intros Hi Hx. revert k. induction bs as [|b bs IH]; intros k; [done|]. cbn [bytes_equal bytes_match]. cell_of x.
  destruct (get x k =? b); [apply IH|done].
Qed.

Lemma run_params_check m i hwport vlan_id mac s x : 0 <= i -> llap (mib m s) !! Z.to_nat i = Some x ->
  run (oo_cp_llap_params_check m i hwport vlan_id mac) s = Some (s, Z.b2z (llap_serves hwport vlan_id mac x)).
Proof.
  intros Hi Hx. unfold oo_cp_llap_params_check, llap_serves. cbv zeta. cell_of x.
  destruct (Z.land (ll_rx_hwports x) _ =? 0); [done|]. cell_of x. destruct (Z.land _ CICP_LLAP_TYPE_SLAVE =? 0); [|done].
  cbn [negb andb]. cell_of x. destruct (Z.land _ CICP_LLAP_TYPE_VLAN =? Z.b2z _); [|done]. cbn [negb andb]. cell_of x.
  rewrite run_bind. destruct (Z.land _ CICP_LLAP_TYPE_VLAN =? 0); cbn [run mbind option_bind fst snd orb].
  - change (1 =? 0) with false. destruct mac as [bs|]; [|done]. by apply (run_bytes_equal _ _ _ _ _ _ x).
  - cell_of x. destruct (enc_vlan_id (ll_encap x) =? vlan_id); [|done]. cbn [Z.b2z run fst snd].
    change (1 =? 0) with false. destruct mac as [bs|]; [|done]. by apply (run_bytes_equal _ _ _ _ _ _ x).
Qed.

Lemma run_vlan_pass m hwport vlan_id mac d s : tables_ok m s ->
  run (vlan_to_ifindex_pass m hwport vlan_id mac d) s =
    Some (s, walk (llap_serves hwport vlan_id mac) llap_free ll_ifindex d (take (Z.to_nat (llap_max (dim s))) (llap (mib m s)))).
Proof.
  intros (H1 & H2 & _). unfold vlan_to_ifindex_pass. apply (run_walk (fun s => llap (mib m s))); [done|done|].
  intros d' j x Hj Hx. rewrite run_bind, (run_params_check _ _ _ _ _ _ x) by done. cbn [mbind option_bind fst snd].
  destruct (llap_serves hwport vlan_id mac x); cbn [Z.b2z Z.eqb negb]; by cell_of x.
Qed.

Definition ipif_hit (ifindex : Z) (x : cicp_ipif_row) : bool :=
  negb (cicp_ipif_row_is_free (if_net_ipset x)) && (if_ifindex x =? ifindex).

Lemma run_ip_pass m ifindex d s : tables_ok m s ->
  run (ifindex_to_ip_pass m ifindex d) s =
    Some (s, walk (ipif_hit ifindex) (fun x => cicp_ipif_row_is_free (if_net_ipset x)) if_net_ip d
      (take (Z.to_nat (ipif_max (dim s))) (ipif (mib m s)))).
Proof.
  intros (_ & _ & H1 & H2 & _). unfold ifindex_to_ip_pass. apply (run_walk (fun s => ipif (mib m s))); [done|done|].
  intros d' j x Hj Hx. unfold ipif_hit. cell_of x. destruct (cicp_ipif_row_is_free (if_net_ipset x)); [done|].
  cell_of x. cbn [negb andb]. destruct (if_ifindex x =? ifindex); [by cell_of x|done].
Qed.

(** ** The look-ups while the server runs *)

Section Server.
Context (E : cplane -> cplane -> Prop) (HE : protocol cversion cp_view E).

(** A call during which the version stays where it is sees the tables of its start. *)
Lemma verlock_stable {L} (body : Z -> L -> act cplane L) fuel l s a s' :
  (forall v l, looks cp_view v (body (Z.land v 1) l)) -> irun E (CP_VERLOCK fuel body l) s a s' ->
  cversion s' = cversion s -> exists t, dim t = dim s /\ mib (current s) t = mib (current s) s /\
    run (body (current s) l) t = Some (t, a).
Proof.
  intros Hlook Hr Hv. destruct (cp_verlock_last E HE body Hlook fuel l s a s' Hr ltac:(lia)) as (l1 & t & Hl & H1 & H2 & Hrun).
  pose proof (rtc_ver cversion cp_view E HE _ _ H1). pose proof (rtc_ver cversion cp_view E HE _ _ H2).
  pose proof (rtc_frozen cversion cp_view E HE _ _ H1 ltac:(lia)) as [= Hd Hm]. exists t.
  rewrite Hl in Hrun by done. unfold current in *. replace (cversion t) with (cversion s) in Hrun by lia. done.
Qed.

Lemma tables_ok_same m s t : dim t = dim s -> mib m t = mib m s -> tables_ok m s -> tables_ok m t.
Proof. unfold tables_ok. by intros -> ->. Qed.

(** The port and the VLAN of a packet. *)
Definition interface_of (s : cplane) (hwport vlan_id : Z) (mac : option (list Z)) : Z :=
  walk (llap_serves hwport vlan_id mac) llap_free ll_ifindex 0 (take (Z.to_nat (llap_max (dim s))) (llap (mib (current s) s))).
Definition address_of (s : cplane) (ifindex : Z) : Z :=
  walk (ipif_hit ifindex) (fun x => cicp_ipif_row_is_free (if_net_ipset x)) if_net_ip INADDR_ANY
    (take (Z.to_nat (ipif_max (dim s))) (ipif (mib (current s) s))).

Lemma vlan_lookup_stable fuel hwport vlan_id mac s r s' : tables_ok (current s) s ->
  irun E (oo_cp_hwport_vlan_to_ifindex fuel hwport vlan_id mac) s r s' -> cversion s' = cversion s ->
  r = interface_of s hwport vlan_id mac.
Proof.
  intros Hok Hr Hv. unfold oo_cp_hwport_vlan_to_ifindex in Hr.
  destruct (negb (hwport =? CI_HWPORT_ID_BAD)); [|by apply irun_fail in Hr]. cbn [aassert] in Hr.
  apply irun_first in Hr as (t0 & Ht0 & Hr). cbn [fst snd] in Hr.
  destruct (hwport <? hwport_max (dim t0)); [|by apply irun_fail in Hr]. cbn [aassert] in Hr.
  pose proof (rtc_ver cversion cp_view E HE _ _ Ht0) as L0.
  assert (cversion t0 <= cversion s') as L1.
  { apply (rtc_ver cversion cp_view E HE). eapply irun_within; [|exact Hr]. apply verlock_within.
    intros v l. eapply looks_within, looks_vlan_pass. }
  destruct (verlock_stable _ _ _ _ _ _ (fun v l => looks_vlan_pass v hwport vlan_id mac l) Hr ltac:(lia)) as (t & Hd & Hm & Hrun).
  pose proof (rtc_frozen cversion cp_view E HE _ _ Ht0 ltac:(lia)) as [= Hd0 Hm0].
  assert (current t0 = current s) as Ec by (unfold current; f_equal; lia). rewrite Ec in *. fold (current s) in Hm0.
  assert (dim t = dim s) as Hd' by congruence. assert (mib (current s) t = mib (current s) s) as Hm' by congruence.
  rewrite run_vlan_pass in Hrun by (by apply (tables_ok_same _ s)). rewrite Hd', Hm' in Hrun. by injection Hrun as <-.
Qed.

Lemma ip_lookup_stable fuel ifindex s r s' : tables_ok (current s) s ->
  irun E (oo_cp_ifindex_to_ip fuel ifindex) s r s' -> cversion s' = cversion s -> r = address_of s ifindex.
Proof.
  intros Hok Hr Hv. destruct (verlock_stable (fun m => ifindex_to_ip_pass m ifindex) fuel INADDR_ANY s r s') as (t & Hd & Hm & Hrun);
    [intros v l; unfold ifindex_to_ip_pass; looking|done|done|].
  rewrite run_ip_pass in Hrun by (by apply (tables_ok_same _ s)). rewrite Hd, Hm in Hrun. by injection Hrun as <-.
Qed.

End Server.

(** Look-ups in the tables while their version stays.  With a server that writes only
    to the frame that is not current and then moves the version, a call during which
    the version does not move returns exactly what the current tables say: the first
    interface that serves the port, VLAN and address, or the address of the interface;
    and without interference the calls return, after one pass. *)
Lemma lookups_exact_while_stable E fuel hwport vlan_id mac ifindex s : protocol cversion cp_view E ->
  tables_ok (current s) s ->
  (forall r s', irun E (oo_cp_hwport_vlan_to_ifindex fuel hwport vlan_id mac) s r s' -> cversion s' = cversion s ->
     r = interface_of s hwport vlan_id mac) /\
  (forall r s', irun E (oo_cp_ifindex_to_ip fuel ifindex) s r s' -> cversion s' = cversion s -> r = address_of s ifindex) /\
  (hwport <> CI_HWPORT_ID_BAD -> hwport < hwport_max (dim s) ->
     run (oo_cp_hwport_vlan_to_ifindex 1 hwport vlan_id mac) s = Some (s, interface_of s hwport vlan_id mac)) /\
  run (oo_cp_ifindex_to_ip 1 ifindex) s = Some (s, address_of s ifindex).
Proof.
  intros HE Hok. split_and!.
  - intros r s' Hr Hv. by eapply vlan_lookup_stable.
  - intros r s' Hr Hv. by eapply ip_lookup_stable.
  - intros Hne Hlt. unfold oo_cp_hwport_vlan_to_ifindex. rewrite (proj2 (Z.eqb_neq _ _) Hne). cbn [negb aassert].
    rewrite run_bind, run_read. cbn [mbind option_bind fst snd]. rewrite (proj2 (Z.ltb_lt _ _) Hlt). cbn [aassert].
    apply cp_verlock_quiet; [lia|by apply run_vlan_pass].
  - apply cp_verlock_quiet; [lia|by apply run_ip_pass].
Qed.

(** A server that publishes the other frame. *)
Definition publish (s : cplane) : cplane :=
  {| cversion := cversion s + 1; dim := dim s; mib0 := mib0 s; mib1 := mib1 s; fwd_table := fwd_table s |}.
Definition publishes (s s' : cplane) : Prop := s' = publish s.

Lemma publishes_protocol : protocol cversion cp_view publishes.
Proof. intros s s' ->. simpl. split; [lia|]. intros H. lia. Qed.

Lemma lookups_exact_while_stable_witness :
  interface_of cplane_sample 1 0 None = 5 /\
  run (oo_cp_ifindex_to_ip 1 5) cplane_sample = Some (cplane_sample, 0x0200000a) /\
  forall r s', irun publishes (oo_cp_hwport_vlan_to_ifindex 3 1 0 None) cplane_sample r s' -> cversion s' = 0 -> r = 5.
Proof.
  split; [vm_compute; reflexivity|].
  destruct (lookups_exact_while_stable publishes 3 1 0 None 5 cplane_sample publishes_protocol
    ltac:(vm_compute; intuition discriminate)) as (H1 & _ & _ & H4).
  split; [rewrite H4; vm_compute; reflexivity|]. intros r s' Hr Hv. rewrite (H1 r s' Hr Hv). vm_compute. reflexivity.
Defined.

(** A successful look-up of an interface is consistent.  However often the server
    publishes new tables during the call (less than 2^32 times), when [oo_cp_find_llap]
    returns 0 the values behind all the pointers are those of one row, of the interface
    asked for, in the tables that were current at one moment of the call. *)
Lemma find_llap_snapshot E fuel want ifindex o0 s o s' : protocol cversion cp_view E ->
  irun E (oo_cp_find_llap fuel want ifindex o0) s o s' -> cversion s' < cversion s + 2 ^ 32 -> o_rc o = 0 ->
  exists t x, rtc E s t /\ rtc E t s' /\ x ∈ llap (mib (current t) t) /\ ll_ifindex x = ifindex /\ answers want x o.
Proof.
  intros HE Hr Hfew Hrc. destruct (cp_verlock_last E HE (fun m => find_llap_pass m want ifindex)
    (fun v l => looks_find_llap_pass v want ifindex l) fuel _ s o s' Hr Hfew) as (l1 & t & _ & H1 & H2 & Hrun).
  destruct (run_find_llap _ _ _ _ _ _ Hrun) as [Hbad|(_ & x & Hx & Hi & Ha)]; [rewrite Hrc in Hbad; done|].
  by exists t, x.
Qed.

Definition want_all : llap_want :=
  {| want_mtu := true; want_hwports := true; want_rx := true; want_mac := true; want_encap := true |}.
Definition no_out : llap_out :=
  {| o_rc := 0; o_mtu := 0; o_hwports := 0; o_rx_hwports := 0; o_mac := []; o_type := 0; o_vlan_id := 0; o_link := 0 |}.

(** The steps of a server that publishes before the action number [n]. *)
Definition publish_before (n : nat) : list (cplane -> cplane) := replicate n id ++ [publish].

Lemma publish_before_ok n : Forall (fun g => forall s, rtc publishes s (g s)) (publish_before n).
Proof.
  apply Forall_app. split; [apply Forall_replicate; intros s; apply rtc_refl|].
  constructor; [|constructor]. intros s. by apply rtc_once.
Qed.

(** Tables are published in the middle of the call, which repeats its pass. *)
Lemma find_llap_snapshot_witness :
  exists o, run_env (oo_cp_find_llap 2 want_all 2 no_out) cplane_sample (publish_before 3) = Some (publish cplane_sample, o) /\
  exists t x, rtc publishes cplane_sample t /\ rtc publishes t (publish cplane_sample) /\
    x ∈ llap (mib (current t) t) /\ ll_ifindex x = 2 /\ answers want_all x o.
Proof.
  eexists. split; [vm_compute; reflexivity|].
  eapply (find_llap_snapshot publishes 2 want_all 2 no_out cplane_sample); [exact publishes_protocol| |vm_compute; reflexivity|reflexivity].
  eapply run_env_irun; [apply (publish_before_ok 3)|]. vm_compute. reflexivity.
Defined.

(** C24: the local variables of the look-ups are set before the version lock and not when a
    pass is repeated, so that a publication during the call can make the result wrong:
    the port of an interface that is in no row any more is still answered with it,
    where the tables of the end of the call say none; and [oo_cp_find_llap] fails for
    an interface that the same pass has found. *)
Theorem lookups_stale_after_retry :
  (exists s s', irun publishes (oo_cp_hwport_vlan_to_ifindex 2 1 0 None) s 5 s' /\
     s' = publish s /\ interface_of s' 1 0 None = 0 /\
     run (oo_cp_hwport_vlan_to_ifindex 1 1 0 None) s' = Some (s', 0)) /\
  (exists s o s' o', irun publishes (oo_cp_find_llap 2 want_all 5 no_out) s o s' /\ s' = publish s /\
     o_rc o = - ENOENT /\ o_mtu o = 1500 /\
     run (oo_cp_find_llap 1 want_all 5 no_out) s' = Some (s', o') /\ o_rc o' = 0).
Proof.
  split.
  - exists cplane_sample, (publish cplane_sample). split; [|split; [reflexivity|split; vm_compute; reflexivity]].
    eapply run_env_irun; [apply (publish_before_ok 10)|]. vm_compute. reflexivity.
  - eexists (publish cplane_sample), _, _, _. split; [|split; [reflexivity|]].
    + eapply run_env_irun; [apply (publish_before_ok 10)|]. vm_compute. reflexivity.
    + split_and!; vm_compute; reflexivity.
Qed.

(** ** The data of a route *)

(** The copy to be read at a version, as the comment on the rows has it: the first for
    even versions, the second for odd ones. *)
Definition copy_at (v : Z) (r : cp_fwd_row) : cp_fwd_data := if Z.even v then fw_data0 r else fw_data1 r.

(** The version of row [id], and what it selects. *)
Definition row_ver (id : Z) (s : cplane) : Z := match ft_rows (fwd_table s) !! Z.to_nat id with Some r => fw_version r | None => 0 end.
Definition row_view (id v : Z) (s : cplane) : nat * option cp_fwd_data :=
  (length (ft_rows (fwd_table s)), copy_at v <$> ft_rows (fwd_table s) !! Z.to_nat id).

(** Every process may write to the writable rows. *)
Definition clients_write (E : cplane -> cplane -> Prop) : Prop := forall id f s, E s (set_rw id f s).

Section Resolve.
Context (E : cplane -> cplane -> Prop) (Hw : clients_write E).

Lemma within_cell {A} (l : cplane -> list A) i (get : A -> Z) : within E (cell l i get).
Proof. apply within_bind; [apply within_aread|]. intros ok. apply within_assert, within_aread. Qed.

Lemma within_rw_write id f : within E (rw_write id f).
Proof.
  apply within_bind; [apply within_aread|]. intros ok. apply within_assert. split; [|done]. intros s. apply rtc_once, Hw.
Qed.

Lemma within_get_fwd ver : within E (cp_get_fwd ver).
Proof. unfold cp_get_fwd, cp_get_fwd_by_id. do 2 apply within_assert. apply within_bind; [apply within_aread|]. intros. by apply within_assert. Qed.

Lemma within_get_fwd_rw ver : within E (cp_get_fwd_rw ver).
Proof. unfold cp_get_fwd_rw. by do 2 apply within_assert. Qed.
End Resolve.

Ltac staying :=
  repeat match goal with
  | |- within _ (abind _ _) => apply within_bind; [|intros ?]
  | |- within _ (cell _ _ _) => apply within_cell
  | |- within _ (rw_write _ _) => apply within_rw_write; assumption
  | |- within _ (cp_get_fwd _) => apply within_get_fwd
  | |- within _ (cp_get_fwd_rw _) => apply within_get_fwd_rw
  | |- within _ (cp_fwd_version _) => apply within_cell
  | |- within _ (aassert _ _) => apply within_assert
  | |- within _ (Ret _) => exact I
  | |- within _ (if ?b then _ else _) => destruct b
  end.

Section Resolve.
Context (E : cplane -> cplane -> Prop) (Hw : clients_write E) (id : Z) (HE : protocol (row_ver id) (row_view id) E).

Lemma within_version_matches frc ver : within E (cp_fwd_version_matches frc ver).
Proof. unfold cp_fwd_version_matches. staying. Qed.

Lemma within_copy_data ver i gets : within E (copy_data ver i gets).
Proof. induction gets as [|g gets IH]; [done|]. cbn [copy_data]. staying. done. Qed.

Lemma irun_assert {A} b (p : act cplane A) s a s' : irun E (aassert b p) s a s' -> b = true /\ irun E p s a s'.
Proof. destruct b; [done|]. by intros H%irun_fail. Qed.

(** The row that [cp_get_fwd] gives is the one asked for. *)
Lemma get_fwd_inv {B} ver (k : Z -> act cplane B) s b s' : irun E (abind (cp_get_fwd ver) k) s b s' ->
  exists t, rtc E s t /\ irun E (k (vi_id ver)) t b s'.
Proof.
  intros (a & s1 & H1 & H2)%irun_bind. unfold cp_get_fwd, cp_get_fwd_by_id in H1.
  apply irun_assert in H1 as [_ H1]. apply irun_assert in H1 as [_ H1].
  apply irun_first in H1 as (t & Ht & H1). cbn [fst snd] in H1. apply irun_assert in H1 as [_ H1].
  apply irun_ret_inv in H1 as [-> H1]. exists s1. split; [by etrans|done].
Qed.

Lemma cell_irun {A B} (l : cplane -> list A) i (get : A -> Z) (k : Z -> act cplane B) s b s' :
  irun E (abind (cell l i get) k) s b s' ->
  exists t, rtc E s t /\ irun E (k (match l t !! Z.to_nat i with Some r => get r | None => 0 end)) t b s'.
Proof.
  intros (a & s1 & H1 & H2)%irun_bind. apply irun_first in H1 as (t & Ht & H1). cbn [fst snd] in H1.
  apply irun_assert in H1 as [_ H1]. apply irun_first in H1 as (t1 & Ht1 & H1). cbn [fst snd] in H1.
  apply irun_ret_inv in H1 as [-> H1]. exists t1. split; [by etrans|]. by eapply irun_rtc.
Qed.

(** The version was the one known at a moment of a successful check. *)
Lemma version_matches_inv frc ver s r s' : vi_id ver = id -> irun E (cp_fwd_version_matches frc ver) s r s' -> r <> 0 ->
  exists t, rtc E s t /\ rtc E t s' /\ u32 (row_ver id t) = vi_version ver.
Proof.
  intros Hid H Hr. unfold cp_fwd_version_matches in H. apply irun_assert in H as [_ H]. apply irun_assert in H as [_ H].
  apply get_fwd_inv in H as (t0 & H0 & H). rewrite Hid in H. apply cell_irun in H as (t & Ht & H).
  replace (match ft_rows (fwd_table t) !! Z.to_nat id with Some r => u32 (fw_version r) | None => 0 end)
    with (u32 (row_ver id t)) in H by (unfold row_ver; by destruct (ft_rows (fwd_table t) !! Z.to_nat id)).
  destruct (Z.eqb_spec (vi_version ver) (u32 (row_ver id t))) as [Ev|_].
  - exists t. split; [by etrans|]. split; [|done]. eapply irun_within; [|exact H]. staying.
  - apply irun_ret_inv in H as [-> _]. done.
Qed.

Lemma data_at_word v r : cp_fwd_data_at (u32 v) r = copy_at v r.
Proof.
  unfold cp_fwd_data_at, copy_at. rewrite land1_word.
  assert (Z.land v 1 = v mod 2) as -> by (apply (Z.land_ones v 1); lia). rewrite Zmod_even. by destruct (Z.even v).
Qed.

Lemma looks_copy_data ver v gets : vi_version ver = u32 v -> looks (row_view id) v (copy_data ver id gets).
Proof.
  intros Ev. induction gets as [|g gets IH]; [done|]. cbn [copy_data]. apply looks_bind.
  - apply looks_bind; [|intros ok; apply looks_assert]; apply looks_aread; intros s t [= Hl Hd]; [by rewrite Hl|].
    rewrite Ev. destruct (ft_rows (fwd_table s) !! Z.to_nat id) as [rs|], (ft_rows (fwd_table t) !! Z.to_nat id) as [rt|];
      simplify_eq/=; [|done]. rewrite !data_at_word. congruence.
  - intros x. apply looks_bind; [done|]. done.
Qed.

Lemma run_copy_data ver gets s r data s' : run (copy_data ver id gets) s = Some (s', data) ->
  ft_rows (fwd_table s) !! Z.to_nat id = Some r -> data = map (fun g => g (cp_fwd_data_at (vi_version ver) r)) gets.
Proof.
  intros H Hr. revert data s' H. induction gets as [|g gets IH]; intros data s' H; cbn [copy_data] in H; [by simplify_eq/=|].
  apply cell_inv in H as (x & _ & Hx & H). simplify_eq. rewrite run_bind in H.
  destruct (run (copy_data ver id gets) s) as [[s1 xs]|] eqn:Ec; [|done]. cbn in H. simplify_eq. simpl. f_equal. by eapply IH.
Qed.

(** A call that answers from the cache: the version is checked at [t1], the data copied
    between [sc] and [sd], the version checked at [t2]. *)
Lemma route_cached_inv frc slow ver s data s' : vi_id ver = id ->
  irun E (oo_cp_route_resolve frc slow ver) s (Cached data) s' -> exists t1 sc sd t2,
    rtc E s t1 /\ u32 (row_ver id t1) = vi_version ver /\ rtc E t1 sc /\
    irun E (copy_data ver id fwd_data_fields) sc data sd /\
    rtc E sd t2 /\ u32 (row_ver id t2) = vi_version ver /\ rtc E t2 s'.
Proof.
  intros Hid H. unfold oo_cp_route_resolve in H.
  apply irun_bind in H as (ok & s1 & H1 & H). apply irun_bind in H as (res & s2 & H2 & H).
  destruct res as [d|]; [|apply irun_bind in H as (rc & s3 & _ & H); apply irun_ret_inv in H as [[=] _]].
  apply irun_ret_inv in H as [[= ->] H3]. destruct (Z.eqb_spec ok 0) as [->|Hok]; [apply irun_ret_inv in H2 as [[=] _]|].
  unfold oo_cp_verinfo_is_valid in H1. destruct (CICP_MAC_ROWID_IS_VALID (vi_id ver)); [|by apply irun_ret_inv in H1 as [-> _]].
  destruct (version_matches_inv frc ver s ok s1 Hid H1 Hok) as (t1 & A1 & A2 & V1).
  apply irun_bind in H2 as (rw & sa & B1 & H2). apply (irun_within E _ _ _ _ (within_get_fwd_rw E ver)) in B1.
  apply irun_bind in H2 as (x & sb & B2 & H2). apply (irun_within E _ _ _ _ (within_rw_write E Hw rw _)) in B2.
  apply get_fwd_inv in H2 as (sc & B3 & H2). rewrite Hid in H2. apply irun_bind in H2 as (dd & sd & C & H2).
  apply irun_bind in H2 as (st & se & D & H2). apply irun_ret_inv in H2 as [Hs H4].
  destruct (Z.eqb_spec st 0) as [|Hst]; [done|]. injection Hs as <-.
  destruct (version_matches_inv frc ver sd st se Hid D Hst) as (t2 & D1 & D2 & V2).
  exists t1, sc, sd, t2. split_and!; [done|done| |done|done|done|do 2 (etrans; [done|]); done].
  do 3 (etrans; [done|]). done.
Qed.

End Resolve.

(** C23: a route from the cache is one consistent copy.  With a server that writes the
    copy of the row's data that the version does not select and then moves the
    version, when [oo_cp_route_resolve] answers from the cache the data it copied, word
    by word, is the data that the row had at one moment of the call, and the row had
    then the version that the caller knew. *)
Theorem route_resolve_snapshot E frc slow ver s data s' : clients_write E ->
  protocol (row_ver (vi_id ver)) (row_view (vi_id ver)) E ->
  irun E (oo_cp_route_resolve frc slow ver) s (Cached data) s' ->
  row_ver (vi_id ver) s' < row_ver (vi_id ver) s + 2 ^ 32 ->
  exists t r, rtc E s t /\ rtc E t s' /\ ft_rows (fwd_table t) !! Z.to_nat (vi_id ver) = Some r /\
    u32 (fw_version r) = vi_version ver /\ data = map (fun g => g (copy_at (fw_version r) r)) fwd_data_fields.
Proof.
  intros Hw HE H Hfew.
  destruct (route_cached_inv E Hw (vi_id ver) frc slow ver s data s' eq_refl H) as (t1 & sc & sd & t2 & A1 & V1 & A2 & C & D1 & V2 & D2).
  set (id := vi_id ver) in *. pose proof (irun_within E _ _ _ _ (within_copy_data E ver _ _) C) as WC.
  pose proof (rtc_ver _ _ E HE _ _ A1). pose proof (rtc_ver _ _ E HE _ _ A2). pose proof (rtc_ver _ _ E HE _ _ WC).
  pose proof (rtc_ver _ _ E HE _ _ D1). pose proof (rtc_ver _ _ E HE _ _ D2).
  assert (row_ver id t1 = row_ver id t2) as Et by (apply word_same; [lia|congruence]).
  assert (vi_version ver = u32 (row_ver id sc)) as Ev by (rewrite <- V1; f_equal; lia).
  destruct (irun_snapshot (row_ver id) (row_view id) E HE _ _ _ _ (row_ver id sc) C
    (looks_reads _ _ _ _ (looks_copy_data id ver _ _ Ev)) (within_copy_data E ver _ _) eq_refl ltac:(lia)) as [_ Hrun].
  destruct (Hrun sc eq_refl) as (sc' & Hc & _).
  assert (exists r, ft_rows (fwd_table sc) !! Z.to_nat id = Some r) as [r Hr].
  { unfold fwd_data_fields in Hc. cbn [copy_data] in Hc. apply cell_inv in Hc as (r & _ & Hr & _). by exists r. }
  exists sc, r. split_and!; [by etrans|do 2 (etrans; [done|]); done|done| |].
  - rewrite Ev. unfold row_ver. by rewrite Hr.
  - rewrite (run_copy_data id ver _ _ r _ _ Hc Hr), Ev. unfold row_ver. rewrite Hr. by rewrite data_at_word.
Qed.

(** Clients write, and the server moves the version of the first row. *)
Definition bump (r : cp_fwd_row) : cp_fwd_row :=
  {| fw_key := fw_key r; fw_src_prefix := fw_src_prefix r; fw_dst_prefix := fw_dst_prefix r; fw_data0 := fw_data0 r;
     fw_data1 := fw_data1 r; fw_use := fw_use r; fw_version := fw_version r + 1; fw_flags := fw_flags r; fw_frc_stale := fw_frc_stale r |}.
Definition bump_row0 (s : cplane) : cplane :=
  {| cversion := cversion s; dim := dim s; mib0 := mib0 s; mib1 := mib1 s;
     fwd_table := {| ft_mask := ft_mask (fwd_table s); ft_rows := alter bump 0%nat (ft_rows (fwd_table s));
       ft_prefix_src := ft_prefix_src (fwd_table s); ft_prefix_dst := ft_prefix_dst (fwd_table s);
       ft_rw_rows := ft_rw_rows (fwd_table s) |} |}.
Inductive row_steps : cplane -> cplane -> Prop :=
  | row_write id f s : row_steps s (set_rw id f s)
  | row_bump s : row_steps s (bump_row0 s).

Lemma row_steps_protocol : protocol (row_ver 0) (row_view 0) row_steps.
Proof.
  intros s s' [id f t|t]; [split; [reflexivity|done]|].
  unfold row_ver, row_view, bump_row0. cbn [fwd_table ft_rows]. change (Z.to_nat 0) with 0%nat.
  rewrite list_lookup_alter, length_alter. destruct (ft_rows (fwd_table t) !! 0%nat); simpl; [|done]. split; [lia|]. intros. lia.
Qed.

Lemma route_resolve_snapshot_witness :
  let ver := {| vi_id := 0; vi_version := 0 |} in
  exists data s', run (oo_cp_route_resolve 100 (Ret 0) ver) cplane_sample = Some (s', Cached data) /\ nth 4 data 0 = 1500 /\
  exists t r, rtc row_steps cplane_sample t /\ rtc row_steps t s' /\ ft_rows (fwd_table t) !! 0%nat = Some r /\
    u32 (fw_version r) = 0 /\ data = map (fun g => g (copy_at (fw_version r) r)) fwd_data_fields.
Proof.
  intros ver. eexists _, _. split; [vm_compute; reflexivity|]. split; [reflexivity|].
  apply (route_resolve_snapshot row_steps 100 (Ret 0) ver); [by constructor|exact row_steps_protocol| |vm_compute; reflexivity].
  apply irun_alone. vm_compute. reflexivity.
Defined.

(** ** The port of a bond *)

Lemma bond_ports_in h fuel p : 0 <= h < 2 ^ 16 -> 0 <= p <= 16 -> 16 - p < Z.of_nat fuel ->
  (forall k, 0 <= k < p -> Z.testbit h k = false) ->
  (forall q, q ∈ bond_ports fuel h <-> 0 <= q /\ Z.testbit h q = true) /\ (length (bond_ports fuel h) <= 16 - Z.to_nat p)%nat.
Proof.
  revert h p. induction fuel as [|fuel IH]; intros h p Hh Hp Hf Hlow; [lia|]. cbn [bond_ports].
  destruct (Z.eqb_spec h 0) as [->|Hne].
  { split; [|simpl; lia]. intros q. rewrite Z.bits_0, list_elem_of_In. simpl. intuition discriminate. }
  destruct (mask_step h ltac:(lia)) as (Ht & Hb & Hl & Hn & Hbits & _). set (t := cp_hwport_mask_first h) in *.
  assert (p <= t) by (apply Z.nlt_ge; intros Hlt; rewrite Hlow in Hb by lia; done).
  destruct (IH (Z.land h (h - 1)) (t + 1) Hn ltac:(lia) ltac:(lia)) as [Hin Hlen].
  { intros k Hk. rewrite Hbits by lia. destruct (Z.eq_dec k t) as [->|]; [by rewrite Z.eqb_refl, andb_false_r|].
    by rewrite Hl by lia. }
  split; [|simpl; lia]. intros q. rewrite elem_of_cons, Hin. split.
  - intros [->|[Hq E]]; [split; [lia|done]|]. rewrite Hbits in E by done. apply andb_prop in E as [E _]. done.
  - intros [Hq E]. destruct (Z.eq_dec q t) as [|Hqt]; [by left|]. right. split; [done|]. rewrite Hbits, E by done.
    by rewrite (proj2 (Z.eqb_neq q t)).
Qed.

Lemma bond_hash_range overflow encap hs n h : 0 < n <= 16 -> oo_cp_hwport_hash overflow encap hs n = Some h -> 0 <= h < n.
Proof.
  intros Hn. unfold oo_cp_hwport_hash, cicp_layer34_hash, cicp_layer23_hash, cicp_layer2_hash.
  assert (u16 n = n) as -> by (apply wrap_small; lia). intros H.
  repeat (case_match; simplify_eq/=); try (apply Z.mod_pos_bound; lia).
  destruct (int_mul overflow _ 16777619); simplify_eq/=. apply Z.mod_pos_bound; lia.
Qed.

(** The product in the hash of ports is an int only for differences below 128. *)
Lemma port_product overflow p : 0 <= p < 2 ^ 16 ->
  int_mul overflow p 16777619 = if p <? 128 then Some (p * 16777619) else overflow (p * 16777619).
Proof. intros Hp. unfold int_mul. destruct (Z.ltb_spec p 128); repeat case_match; zbool; try done; lia. Qed.

Lemma bond_ports_spec h : 0 < h < 2 ^ 16 ->
  (forall q, q ∈ bond_ports 17 h <-> 0 <= q /\ Z.testbit h q = true) /\ 0 < Z.of_nat (length (bond_ports 17 h)) <= 16.
Proof.
  intros Hh. destruct (bond_ports_in h 17 0 ltac:(lia) ltac:(lia) ltac:(lia) ltac:(lia)) as [Hin Hlen]. split; [done|].
  destruct (mask_step h Hh) as (Ht & Hb & _). specialize (Hin (cp_hwport_mask_first h)).
  destruct (bond_ports 17 h) as [|p ps]; [|simpl in *; lia]. destruct (proj1 (list_elem_of_In _ _) (proj2 Hin (conj (proj1 Ht) Hb))).
Qed.

(** Whatever the hash, the port is one of the mask. *)
Lemma bond_get_ok overflow encap hwports hs h : 0 < hwports < 2 ^ 16 ->
  oo_cp_hwport_hash overflow encap hs (Z.of_nat (length (bond_ports 17 hwports))) = Some h ->
  exists p, oo_cp_hwport_bond_get overflow encap hwports hs = Some p /\ 0 <= p < 16 /\ Z.testbit hwports p = true.
Proof.
  intros Hh Eh. destruct (bond_ports_spec hwports Hh) as [Hin Hlen]. unfold oo_cp_hwport_bond_get.
  rewrite (proj2 (Z.eqb_neq hwports 0)), Eh by lia. cbn [mbind option_bind].
  apply bond_hash_range in Eh as Hr; [|done]. rewrite (proj2 (Z.leb_le 0 h)) by lia.
  destruct (lookup_lt_is_Some_2 (bond_ports 17 hwports) (Z.to_nat h) ltac:(lia)) as [p Hp]. exists p. split; [done|].
  apply list_elem_of_lookup_2, Hin in Hp as [Hp0 Hp]. split; [|done]. split; [done|]. apply Z.nle_gt. intros Hge.
  rewrite (testbit_small hwports 16) in Hp by lia. done.
Qed.

Lemma port_difference_range hs : 0 <= CI_BSWAP_BE16 (Z.lxor (src_port_be16 hs) (dst_port_be16 hs)) < 2 ^ 16.
Proof.
  unfold CI_BSWAP_BE16, CI_BSWAP_16. pose proof (wrap_range 16 (Z.lxor (src_port_be16 hs) (dst_port_be16 hs)) ltac:(lia)) as Hw.
  destruct (u16_split _ Hw) as (b0 & b1 & H0 & H1 & ->). rewrite ntohs_bytes by lia. lia.
Qed.

(** The hash of ports is undefined exactly for differences of 128 and more. *)
Lemma port_hash_undefined encap hs n : CI_IS_POW2 (Z.land encap CICP_LLAP_TYPE_USES_HASH) = true ->
  Z.land encap CICP_LLAP_TYPE_XMIT_HASH_LAYER34 <> 0 -> hs_has hs CICP_HASH_STATE_FLAGS_IS_IP = true ->
  hs_has hs CICP_HASH_STATE_FLAGS_IS_FRAG = false -> hs_has hs CICP_HASH_STATE_FLAGS_IS_TCP_UDP = true ->
  oo_cp_hwport_hash (fun _ => None) encap hs n = None <->
  128 <= CI_BSWAP_BE16 (Z.lxor (src_port_be16 hs) (dst_port_be16 hs)).
Proof.
  intros Hmode H34 Hip Hfr Htcp. unfold oo_cp_hwport_hash, cicp_layer34_hash.
  rewrite Hmode, (proj2 (Z.eqb_neq _ _) H34), Hip, Hfr, Htcp. cbn [negb andb].
  rewrite port_product by apply port_difference_range.
  destruct (Z.ltb_spec (CI_BSWAP_BE16 (Z.lxor (src_port_be16 hs) (dst_port_be16 hs))) 128); simpl; split; done || lia.
Qed.

(** A bond sends through one of its ports.  For a mask with ports and exactly one
    hash mode the port chosen is in the mask, for every packet, when the compiler
    defines the overflow of a signed product; an empty mask gives the invalid port.
    In the language as it is the choice is undefined for the hash of layers 3 and 4 on
    unfragmented TCP or UDP packets exactly when the difference of the ports reaches 128. *)
Lemma bond_port_in_mask encap hwports hs : 0 <= hwports < 2 ^ 16 ->
  CI_IS_POW2 (Z.land encap CICP_LLAP_TYPE_USES_HASH) = true ->
  (forall overflow, (forall z, is_Some (overflow z)) -> exists p, oo_cp_hwport_bond_get overflow encap hwports hs = Some p /\
     if hwports =? 0 then p = CI_HWPORT_ID_BAD else 0 <= p < 16 /\ Z.testbit hwports p = true) /\
  (hwports <> 0 -> Z.land encap CICP_LLAP_TYPE_XMIT_HASH_LAYER34 <> 0 -> hs_has hs CICP_HASH_STATE_FLAGS_IS_IP = true ->
   hs_has hs CICP_HASH_STATE_FLAGS_IS_FRAG = false -> hs_has hs CICP_HASH_STATE_FLAGS_IS_TCP_UDP = true ->
   oo_cp_hwport_bond_get (fun _ => None) encap hwports hs = None <->
   128 <= CI_BSWAP_BE16 (Z.lxor (src_port_be16 hs) (dst_port_be16 hs))).
Proof.
  intros Hh Hmode. split.
  - intros overflow Htot. destruct (Z.eqb_spec hwports 0) as [->|Hne]; [by exists CI_HWPORT_ID_BAD|].
    assert (is_Some (oo_cp_hwport_hash overflow encap hs (Z.of_nat (length (bond_ports 17 hwports))))) as [h Eh];
      [|apply (bond_get_ok overflow encap hwports hs h); [lia|done]].
    unfold oo_cp_hwport_hash, cicp_layer34_hash. rewrite Hmode. repeat case_match; eauto.
    rewrite port_product by apply port_difference_range. case_match; [by eexists|].
    destruct (Htot (CI_BSWAP_BE16 (Z.lxor (src_port_be16 hs) (dst_port_be16 hs)) * 16777619)) as [z ->]. by eexists.
  - intros Hne H34 Hip Hfr Htcp.
    pose proof (port_hash_undefined encap hs (Z.of_nat (length (bond_ports 17 hwports))) Hmode H34 Hip Hfr Htcp) as Hu. rewrite <- Hu.
    destruct (oo_cp_hwport_hash (fun _ => None) encap hs _) as [h|] eqn:Eh.
    + destruct (bond_get_ok (fun _ => None) encap hwports hs h ltac:(lia) Eh) as (p & Ep & _). by rewrite Ep.
    + split; [done|]. intros _. unfold oo_cp_hwport_bond_get. by rewrite (proj2 (Z.eqb_neq _ _) Hne), Eh.
Qed.

(** Ports 1 and 2, layers 3 and 4: a UDP packet from port 1000 to port 1001, and one
    from port 1000 to port 80. *)
Definition udp_packet (sport dport : Z) : cicp_hash_state :=
  {| hs_flags := 3; hs_src_mac5 := 1; hs_dst_mac5 := 2; src_addr_be32 := 0x0100000a; dst_addr_be32 := 0x0200000a;
     src_port_be16 := CI_BSWAP_BE16 sport; dst_port_be16 := CI_BSWAP_BE16 dport |}.

Lemma bond_port_in_mask_witness :
  oo_cp_hwport_bond_get (fun _ => None) 0x12 6 (udp_packet 1000 1001) = Some 1 /\
  oo_cp_hwport_bond_get (fun _ => None) 0x12 6 (udp_packet 1000 80) = None /\
  exists p, oo_cp_hwport_bond_get (fun z => Some (i32 z)) 0x12 6 (udp_packet 1000 80) = Some p /\ 0 <= p < 16 /\ Z.testbit 6 p = true.
Proof.
  split; [vm_compute; reflexivity|]. split; [vm_compute; reflexivity|].
  apply (bond_port_in_mask 0x12 6 (udp_packet 1000 80)); [lia|reflexivity|by eexists].
Defined.

(** ** Mappings *)

(** The table a client asks for is in the offset it maps, for the read-only and the
    writable rows, and the two never coincide. *)
Lemma fwd_offsets_decode id : 0 <= id < 2 ^ 32 ->
  OO_MMAP_TYPE (CP_MMAP_MAKE_FWD_OFFSET id) = OO_MMAP_TYPE_CPLANE /\
  CP_MMAP_TYPE (OO_MMAP_OFFSET_TO_MAP_ID (CP_MMAP_MAKE_FWD_OFFSET id)) = OO_MMAP_CPLANE_ID_FWD /\
  CP_MMAP_PARAM (OO_MMAP_OFFSET_TO_MAP_ID (CP_MMAP_MAKE_FWD_OFFSET id)) = id /\
  CP_MMAP_TYPE (OO_MMAP_OFFSET_TO_MAP_ID (CP_MMAP_MAKE_FWD_RW_OFFSET id)) = OO_MMAP_CPLANE_ID_FWD_RW /\
  CP_MMAP_PARAM (OO_MMAP_OFFSET_TO_MAP_ID (CP_MMAP_MAKE_FWD_RW_OFFSET id)) = id.
Proof.
  intros Hid. assert (forall t, 0 <= t < 16 ->
    let off := Z.lor (Z.shiftl OO_MMAP_TYPE_CPLANE OO_MMAP_TYPE_SHIFT) (u64 (Z.shiftl (CP_MAKE_MMAP_ID t id) OO_MMAP_ID_SHIFT)) in
    off = 2 ^ 12 + 2 ^ 14 * (t + 2 ^ 4 * id)) as Hoff.
  { intros t Ht off. assert (CP_MAKE_MMAP_ID t id = t + 2 ^ 4 * id) as Hmk.
    { unfold CP_MAKE_MMAP_ID. change CP_MMAP_PARAM_SHIFT with 4.
      rewrite wrap_small by (rewrite Z.shiftl_mul_pow2 by lia; lia). rewrite Z.lor_comm, lor_shiftl_add by lia. lia. }
    unfold off. rewrite Hmk. change OO_MMAP_ID_SHIFT with 14.
    change (Z.shiftl OO_MMAP_TYPE_CPLANE OO_MMAP_TYPE_SHIFT) with 4096.
    rewrite wrap_small by (rewrite Z.shiftl_mul_pow2 by lia; lia). rewrite Z.lor_comm, lor_shiftl_add by lia. lia. }
  unfold CP_MMAP_MAKE_FWD_OFFSET, CP_MMAP_MAKE_FWD_RW_OFFSET. cbv zeta in Hoff. rewrite !Hoff by (vm_compute; done).
  unfold OO_MMAP_TYPE, CP_MMAP_TYPE, CP_MMAP_PARAM, OO_MMAP_OFFSET_TO_MAP_ID.
  change OO_MMAP_TYPE_MASK with (Z.ones 2). change CP_MMAP_TYPE_MASK with (Z.ones 4). change CP_MMAP_PARAM_MASK with (Z.ones 32).
  change OO_MMAP_TYPE_SHIFT with 12. change OO_MMAP_ID_SHIFT with 14. change CP_MMAP_PARAM_SHIFT with 4.
  change OO_MMAP_CPLANE_ID_FWD with 1. change OO_MMAP_CPLANE_ID_FWD_RW with 2. change OO_MMAP_TYPE_CPLANE with 1.
  rewrite !Z.shiftr_div_pow2, !Z.land_ones by lia. rewrite !(wrap_small 64) by lia.
  split_and!; Z.to_euclidean_division_equations; lia.
Qed.
