(* ===== verification/PktQueue.v ===== *)
(** * PktQueue: queues of packet buffers and the receive reserve ([ci/internal/ip.h])

    The packet buffers of a stack are linked by identifiers in their headers; a queue
    ([ci_ip_pkt_queue]) is a head, a tail and a count, and lies in the state of a socket.
    TCP sockets reserve buffers for receiving, and the stack keeps the sum of what is
    reserved and not yet used.  The queues are in one memory with the packets, so that
    linking a packet into two queues, or moving a queue into itself, does what the
    code does. *)

From Stdlib Require Import ZArith Lia Bool.
From stdpp Require Import gmap.
From S2P Require Import Prelude.

(** ** Identifiers of packets ([onload/pkt_p.h]) *)

Definition OO_PP_NULL : Z := -1.
Definition OO_PP_IS_NULL (pp : Z) : bool := pp <? 0.
Definition OO_PP_NOT_NULL (pp : Z) : bool := 0 <=? pp.
Definition OO_PP_EQ (ppa ppb : Z) : bool := ppa =? ppb.

(** ** The memory of a stack *)

(** A packet ([ci_ip_pkt_fmt]): the link that queues use, and [p_rest] for the other
    fields, which they leave alone.  A pointer to a packet is its identifier. *)
Record pkt := Pkt { p_next : Z; p_rest : Z }.

Record ci_ip_pkt_queue := Queue { q_head : Z; q_tail : Z; q_num : Z }.

(** A pointer to a queue: the socket it lies in, and which of its queues. *)
Inductive qname := Recv1 | Recv2 | Rob | Send | Retrans.
#[export] Instance qname_eq_dec : EqDecision qname.
Proof. solve_decision. Defined.
#[export] Instance qname_countable : Countable qname.
Proof.
  refine (inj_countable' (fun n => match n with Recv1 => 0 | Recv2 => 1 | Rob => 2 | Send => 3 | Retrans => 4 end%nat)
    (fun n => match n with 0 => Recv1 | 1 => Recv2 | 2 => Rob | 3 => Send | _ => Retrans end%nat) _).
  by intros [].
Defined.
Definition qid : Type := Z * qname.

(** The parts of the stack's shared state and options that the functions below use;
    [account_pending] is the flag that debug builds keep. *)
Record netif := Netif {
  pkts : gmap Z pkt; queues : gmap qid ci_ip_pkt_queue;
  established : Z -> bool;          (** the state of a TCP socket is CI_TCP_ESTABLISHED *)
  reserved_pktbufs : Z; account_pending : bool; locked : bool;
  endpoint_packet_reserve : Z; max_rx_packets : Z }.

Definition set_pkts (m : gmap Z pkt) (s : netif) : netif :=
  Netif m (queues s) (established s) (reserved_pktbufs s) (account_pending s) (locked s)
    (endpoint_packet_reserve s) (max_rx_packets s).
Definition set_queues (m : gmap qid ci_ip_pkt_queue) (s : netif) : netif :=
  Netif (pkts s) m (established s) (reserved_pktbufs s) (account_pending s) (locked s)
    (endpoint_packet_reserve s) (max_rx_packets s).
Definition set_reserved (n : Z) (s : netif) : netif :=
  Netif (pkts s) (queues s) (established s) n (account_pending s) (locked s)
    (endpoint_packet_reserve s) (max_rx_packets s).
Definition set_pending (b : bool) (s : netif) : netif :=
  Netif (pkts s) (queues s) (established s) (reserved_pktbufs s) b (locked s)
    (endpoint_packet_reserve s) (max_rx_packets s).

Definition PKT (id : Z) : cm netif pkt := let! s := get in access (pkts s !! id).
Definition update_pkt (id : Z) (f : pkt -> pkt) : cm netif unit :=
  let! p := PKT id in let! s := get in modify (set_pkts (<[id := f p]> (pkts s))).
Definition with_next (v : Z) (p : pkt) : pkt := Pkt v (p_rest p).
Definition set_next (id v : Z) : cm netif unit := update_pkt id (with_next v).

Definition get_queue (qu : qid) : cm netif ci_ip_pkt_queue := let! s := get in access (queues s !! qu).
Definition put_queue (qu : qid) (q : ci_ip_pkt_queue) : cm netif unit :=
  let! s := get in modify (set_queues (<[qu := q]> (queues s))).

(** [ci_assert]: a failed assertion ends the process. *)
Definition ci_assert {S} (b : bool) : cm S unit := if b then ret tt else stop Abort.

(** ** Queues *)

Definition ci_ip_queue_init (qu : qid) : cm netif unit :=
  let! q := get_queue qu in put_queue qu (Queue OO_PP_NULL (q_tail q) 0).

Definition ci_ip_queue_is_empty (q : ci_ip_pkt_queue) : bool := q_num q =? 0.
Definition ci_ip_queue_not_empty (q : ci_ip_pkt_queue) : bool := negb (q_num q =? 0).

(** The identifier is in the range of the packets of the stack. *)
Definition IS_VALID_PKT_ID (pp : Z) : cm netif bool :=
  let! s := get in ret (bool_decide (is_Some (pkts s !! pp))).

Definition ci_ip_queue_is_valid (qu : qid) : cm netif bool :=
  let! q := get_queue qu in
  if q_num q =? 0 then ret (OO_PP_IS_NULL (q_head q))
  else
    let! h := IS_VALID_PKT_ID (q_head q) in
    if h then
      let! t := IS_VALID_PKT_ID (q_tail q) in
      if t then let! p := PKT (q_tail q) in ret (OO_PP_IS_NULL (p_next p)) else ret false
    else ret false.

Fixpoint valid_long_loop (fuel : nat) (tail id i : Z) (found_tail : bool) : cm netif (Z * bool) :=
  match fuel with
  | O => stop Undef
  | S fuel' =>
      if OO_PP_NOT_NULL id then
        let! p := PKT id in
        valid_long_loop fuel' tail (p_next p) (i + 1) (if OO_PP_EQ tail id then true else found_tail)
      else ret (i, found_tail)
  end.

Definition ci_ip_queue_is_valid_long (fuel : nat) (qu : qid) : cm netif bool :=
  let! ok := ci_ip_queue_is_valid qu in
  if ok then
    let! q := get_queue qu in
    let! r := valid_long_loop fuel (q_tail q) (q_head q) 0 false in
    ret ((fst r =? q_num q) && ((fst r =? 0) || snd r))
  else ret false.

Definition ci_ip_queue_enqueue_ (qu : qid) (pkt : Z) : cm netif unit :=
  let! q := get_queue qu in
  (if ci_ip_queue_is_empty q then
     ci_assert (OO_PP_IS_NULL (q_head q)) ;;; put_queue qu (Queue pkt (q_tail q) (q_num q))
   else
     ci_assert (OO_PP_NOT_NULL (q_head q)) ;;; set_next (q_tail q) pkt) ;;;
  let! q := get_queue qu in
  put_queue qu (Queue (q_head q) pkt (q_num q + 1)).

Definition ci_ip_queue_enqueue (qu : qid) (pkt : Z) : cm netif unit :=
  set_next pkt OO_PP_NULL ;;; ci_ip_queue_enqueue_ qu pkt.

Definition ci_ip_queue_dequeue (qu : qid) (head : Z) : cm netif unit :=
  let! q := get_queue qu in
  let! ok := IS_VALID_PKT_ID (q_head q) in
  ci_assert ok ;;;
  ci_assert (0 <? q_num q) ;;;
  ci_assert (q_head q =? head) ;;;
  let! p := PKT head in
  put_queue qu (Queue (p_next p) (q_tail q) (q_num q - 1)) ;;;
  let! q := get_queue qu in
  ci_assert (Bool.eqb (ci_ip_queue_not_empty q) (OO_PP_NOT_NULL (q_head q))).

Definition ci_ip_queue_move (from to : qid) (last num : Z) : cm netif unit :=
  ci_assert (negb (num =? 0)) ;;;
  let! f := get_queue from in
  ci_assert (num <=? q_num f) ;;;
  let originalfromhead := q_head f in
  let! l := PKT last in
  put_queue from (Queue (p_next l) (q_tail f) (q_num f - num)) ;;;
  set_next last OO_PP_NULL ;;;
  let! t := get_queue to in
  (if ci_ip_queue_is_empty t then put_queue to (Queue originalfromhead (q_tail t) (q_num t))
   else set_next (q_tail t) originalfromhead) ;;;
  let! t := get_queue to in
  put_queue to (Queue (q_head t) last (q_num t + num)).

Definition ci_ip_queue_move_all (from to : qid) : cm netif unit :=
  let! f := get_queue from in put_queue to f ;;; ci_ip_queue_init from.

(** ** The reserve for receiving *)

Definition ci_tcp_rx_buf_count_ (ts : Z) : cm netif Z :=
  let! q1 := get_queue (ts, Recv1) in let! q2 := get_queue (ts, Recv2) in let! q3 := get_queue (ts, Rob) in
  ret (q_num q1 + q_num q2 + q_num q3).

Definition ci_tcp_rx_reserved_bufs_ (ts allocated_pkts : Z) : cm netif Z :=
  let! s := get in
  let reserved_bufs := (if established s ts then endpoint_packet_reserve s else 0) - allocated_pkts in
  ret (Z.max 0 reserved_bufs).

Definition ci_tcp_rx_reserved_bufs (ts : Z) : cm netif Z :=
  let! n := ci_tcp_rx_buf_count_ ts in ci_tcp_rx_reserved_bufs_ ts n.

Definition is_rx_queue (n : qname) : bool := match n with Recv1 | Recv2 | Rob => true | _ => false end.

(** The queue is one of the socket: [q] is the pair of [ts] and its name. *)
Definition ci_tcp_rx_buf_adjust (ts : Z) (q : qname) (delta : Z) : cm netif unit :=
  ci_assert (is_rx_queue q) ;;;
  let! s := get in
  ci_assert (negb (account_pending s)) ;;;
  if negb (established s ts) then ret tt
  else
    let! m := ci_tcp_rx_reserved_bufs ts in
    let! c := ci_tcp_rx_buf_count_ ts in
    let! n := ci_tcp_rx_reserved_bufs_ ts (c + delta) in
    let! s := get in
    modify (set_reserved (reserved_pktbufs s + (n - m))) ;;;
    ci_assert (locked s).

Definition ci_tcp_rx_queue_enqueue_ (ts : Z) (qu : qname) (pkt : Z) : cm netif unit :=
  ci_tcp_rx_buf_adjust ts qu 1 ;;; ci_ip_queue_enqueue_ (ts, qu) pkt.

Definition ci_tcp_rx_queue_dequeue (ts : Z) (qu : qname) (head : Z) : cm netif unit :=
  ci_tcp_rx_buf_adjust ts qu (-1) ;;; ci_ip_queue_dequeue (ts, qu) head.

(** [ci_ip_queue_drop] is in the library: a parameter. *)
Definition ci_tcp_rx_queue_drop (ci_ip_queue_drop : qid -> cm netif unit) (ts : Z) (q : qname) : cm netif unit :=
  let! qu := get_queue (ts, q) in
  ci_tcp_rx_buf_adjust ts q (- q_num qu) ;;; ci_ip_queue_drop (ts, q).

Definition ci_tcp_rx_buf_account_begin (ts : Z) : cm netif unit :=
  let! s := get in
  ci_assert (locked s) ;;; ci_assert (negb (account_pending s)) ;;;
  modify (set_pending true) ;;;
  let! n := ci_tcp_rx_reserved_bufs ts in
  let! s := get in
  modify (set_reserved (reserved_pktbufs s - n)) ;;;
  ci_assert (0 <=? reserved_pktbufs s - n).

Definition ci_tcp_rx_buf_account_end (ts : Z) : cm netif unit :=
  let! s := get in
  ci_assert (locked s) ;;; ci_assert (account_pending s) ;;;
  modify (set_pending false) ;;;
  let! n := ci_tcp_rx_reserved_bufs ts in
  let! s := get in
  modify (set_reserved (reserved_pktbufs s + n)) ;;;
  ci_assert (reserved_pktbufs s + n <=? max_rx_packets s).

(** ** Running the operations *)

Lemma get_queue_ok qu q s : queues s !! qu = Some q -> get_queue qu s = (s, Ok q).
Proof. intros H. unfold get_queue. rewrite bind_get. unfold access. by rewrite H. Qed.

Lemma put_queue_ok qu q s : put_queue qu q s = (set_queues (<[qu := q]> (queues s)) s, Ok tt).
Proof. done. Qed.

Lemma PKT_ok id p s : pkts s !! id = Some p -> PKT id s = (s, Ok p).
Proof. intros H. unfold PKT. rewrite bind_get. unfold access. by rewrite H. Qed.

Lemma set_link_ok id v p s : pkts s !! id = Some p ->
  set_next id v s = (set_pkts (<[id := with_next v p]> (pkts s)) s, Ok tt).
Proof. intros H. unfold set_next, update_pkt. by rewrite (bind_Ok _ _ _ _ _ (PKT_ok _ _ _ H)). Qed.

Lemma assert_ok b s : b = true -> ci_assert (S := netif) b s = (s, Ok tt).
Proof. by intros ->. Qed.

Lemma valid_id_ok id p s : pkts s !! id = Some p -> IS_VALID_PKT_ID id s = (s, Ok true).
Proof. intros H. unfold IS_VALID_PKT_ID. rewrite bind_get. unfold ret. by rewrite H. Qed.

(** ** Chains of packets *)

(** From [h] the packets [l] follow one another, and the last one points to [e]. *)
Fixpoint seg (m : gmap Z pkt) (h : Z) (l : list Z) (e : Z) : Prop :=
  match l with
  | [] => h = e
  | p :: l' => h = p /\ 0 <= p /\ exists r, m !! p = Some r /\ seg m (p_next r) l' e
  end.

Lemma seg_app m h l1 l2 e : seg m h (l1 ++ l2) e <-> exists mid, seg m h l1 mid /\ seg m mid l2 e.
Proof.
  revert h. induction l1 as [|p l1 IH]; intros h; simpl.
  - split; [by eauto|]. by intros (mid & -> & H).
  - split.
    + intros (-> & Hp & r & Hr & Hs). apply IH in Hs as (mid & H1 & H2). exists mid. eauto 8.
    + intros (mid & (-> & Hp & r & Hr & H1) & H2). split; [done|]. split; [done|]. exists r. split; [done|]. apply IH. eauto.
Qed.

Lemma seg_ext m m' h l e : (forall p, p ∈ l -> m' !! p = m !! p) -> seg m h l e -> seg m' h l e.
Proof.
  revert h. induction l as [|p l IH]; intros h Hm; simpl; [done|]. intros (-> & Hp & r & Hr & Hs).
  split; [done|]. split; [done|]. exists r. split; [by rewrite Hm by set_solver|]. apply IH; [set_solver|done].
Qed.

Lemma seg_frame m h l e p r : p ∉ l -> seg m h l e -> seg (<[p := r]> m) h l e.
Proof. intros Hp. apply seg_ext. intros p' Hp'. rewrite lookup_insert_ne; set_solver. Qed.

(** Changing the link of the last packet. *)
Lemma seg_relink m h l t r e e' : NoDup (l ++ [t]) -> m !! t = Some r -> seg m h (l ++ [t]) e ->
  seg (<[t := with_next e' r]> m) h (l ++ [t]) e'.
Proof.
  intros Hnd Hr Hs. apply seg_app in Hs as (mid & H1 & H2). apply seg_app. exists mid. split.
  - apply seg_frame; [|done]. apply NoDup_app in Hnd as (_ & Hd & _). intros Hin. apply (Hd t Hin). set_solver.
  - simpl in *. destruct H2 as (-> & Ht & _). split; [done|]. split; [done|]. exists (with_next e' r).
    split; [by rewrite lookup_insert_eq|done].
Qed.

Lemma seg_in m h l e p : seg m h l e -> p ∈ l -> 0 <= p /\ is_Some (m !! p).
Proof.
  revert h. induction l as [|q l IH]; intros h Hs Hp; [set_solver|]. simpl in Hs. destruct Hs as (-> & Hq & r & Hr & Hs).
  apply elem_of_cons in Hp as [->|Hp]; [by eauto|by eapply IH].
Qed.

(** ** What queues stand for *)

Definition queue_is (m : gmap Z pkt) (q : ci_ip_pkt_queue) (l : list Z) : Prop :=
  seg m (q_head q) l OO_PP_NULL /\ q_num q = Z.of_nat (length l) /\ (l = [] \/ last l = Some (q_tail q)) /\ NoDup l.

(** The memory holds the queues [A], which share no packet.  Queues that are in the
    memory and not in [A] are not initialised. *)
Record Rep (s : netif) (A : gmap qid (list Z)) : Prop := {
  rep_dom : forall qu, is_Some (A !! qu) -> is_Some (queues s !! qu);
  rep_queue : forall qu l q, A !! qu = Some l -> queues s !! qu = Some q -> queue_is (pkts s) q l;
  rep_disjoint : forall qu1 qu2 l1 l2 p, A !! qu1 = Some l1 -> A !! qu2 = Some l2 -> p ∈ l1 -> p ∈ l2 -> qu1 = qu2 }.

Lemma rep_empty s : Rep s ∅.
Proof. split; [intros qu [? H]|intros qu l q H|intros ? ? ? ? ? H]; by rewrite lookup_empty in H. Qed.

Lemma rep_get s A qu l : Rep s A -> A !! qu = Some l -> exists q, queues s !! qu = Some q /\ queue_is (pkts s) q l.
Proof.
  intros HR Hl. destruct (rep_dom s A HR qu ltac:(eauto)) as [q Hq]. exists q. split; [done|]. by eapply rep_queue.
Qed.

(** What may change around the queues that an operation works on. *)
Lemma rep_update s s' A A' : Rep s A ->
  (forall qu, is_Some (A' !! qu) -> is_Some (queues s' !! qu)) ->
  (forall qu l q, A' !! qu = Some l -> queues s' !! qu = Some q ->
     queue_is (pkts s') q l \/
     (A !! qu = Some l /\ queues s !! qu = Some q /\ forall p, p ∈ l -> pkts s' !! p = pkts s !! p)) ->
  (forall qu1 qu2 l1 l2 p, A' !! qu1 = Some l1 -> A' !! qu2 = Some l2 -> p ∈ l1 -> p ∈ l2 -> qu1 = qu2) ->
  Rep s' A'.
Proof.
  intros HR Hdom Hq Hdis. split; [done| |done]. intros qu l q Hl Hqu.
  destruct (Hq qu l q Hl Hqu) as [H|(Hl0 & Hq0 & Hp)]; [done|].
  destruct (rep_queue s A HR qu l q Hl0 Hq0) as (H1 & H2 & H3 & H4). split; [by eapply seg_ext|done].
Qed.

(** The memory apart from packets and queues is as it was. *)
Definition rest_same (s s' : netif) : Prop :=
  established s' = established s /\ reserved_pktbufs s' = reserved_pktbufs s /\ account_pending s' = account_pending s /\
  locked s' = locked s /\ endpoint_packet_reserve s' = endpoint_packet_reserve s /\ max_rx_packets s' = max_rx_packets s /\
  dom (pkts s') = dom (pkts s) /\ dom (queues s) ⊆ dom (queues s').

Lemma dom_grows {B} (m : gmap qid B) k v : dom m ⊆ dom (<[k := v]> m).
Proof. rewrite dom_insert. apply union_subseteq_r. Qed.

Ltac same := unfold rest_same; simpl; split_and!; try done;
  repeat (first [apply dom_grows|etrans; [|apply dom_grows]]).

Lemma dom_relink (m : gmap Z pkt) id r r0 : m !! id = Some r0 -> dom (<[id := r]> m) = dom m.
Proof. intros H. apply dom_insert_lookup_L. eauto. Qed.

Lemma empty_queue q l m : queue_is m q l -> ci_ip_queue_is_empty q = bool_decide (l = []).
Proof.
  intros (_ & Hn & _). unfold ci_ip_queue_is_empty. rewrite Hn. by destruct l.
Qed.

Lemma head_null q l m : queue_is m q l -> OO_PP_IS_NULL (q_head q) = bool_decide (l = []) /\
  OO_PP_NOT_NULL (q_head q) = negb (bool_decide (l = [])).
Proof.
  intros (Hs & _). unfold OO_PP_IS_NULL, OO_PP_NOT_NULL. destruct l as [|p l]; simpl in Hs.
  - rewrite Hs. done.
  - destruct Hs as (-> & Hp & _). rewrite (proj2 (Z.ltb_ge _ _)), (proj2 (Z.leb_le _ _)) by lia. done.
Qed.

Lemma tail_split q l m : queue_is m q l -> l <> [] -> exists l0 r, l = l0 ++ [q_tail q] /\ m !! q_tail q = Some r /\ 0 <= q_tail q.
Proof.
  intros (Hs & _ & [->|Ht] & _) Hne; [done|]. apply last_Some in Ht as [l0 ->].
  destruct (seg_in _ _ _ _ (q_tail q) Hs) as [H0 [r Hr]]; [set_solver|]. by exists l0, r.
Qed.

(** One queue changes: its packets were its own or in no queue, and the packets of the
    other queues are left alone. *)
Lemma rep_change s s' A qu l' q' : Rep s A ->
  queues s' = <[qu := q']> (queues s) -> queue_is (pkts s') q' l' ->
  (forall p qu2 l2, p ∈ l' -> A !! qu2 = Some l2 -> p ∈ l2 -> qu2 = qu) ->
  (forall p qu2 l2, qu2 <> qu -> A !! qu2 = Some l2 -> p ∈ l2 -> pkts s' !! p = pkts s !! p) -> Rep s' (<[qu := l']> A).
Proof.
  intros HR Hqs Hq' Hnew Hpk. apply (rep_update s s' A); [done| | |].
  - intros qu2. rewrite Hqs, !lookup_insert. case_decide; [by eauto|]. apply (rep_dom _ _ HR).
  - intros qu2 l2 q2. rewrite Hqs, !lookup_insert. case_decide as E; [intros; simplify_eq; by left|].
    intros Hl2 Hq2. right. split_and!; [done|done|]. intros p Hp. eapply Hpk; [|done|done]. congruence.
  - intros qu1 qu2 l1 l2 p. rewrite !lookup_insert. case_decide as E1; case_decide as E2; intros H1 H2 Hp1 Hp2; simplify_eq; try done.
    + symmetry. by eapply Hnew.
    + by eapply Hnew.
    + by eapply (rep_disjoint _ _ HR).
Qed.

(** Symbolic execution: the next call of the sequence has the given outcome. *)
Ltac does H := rewrite (bind_Ok _ _ _ _ _ H).
Ltac asserts := erewrite (bind_Ok (ci_assert _)) by (apply assert_ok; first [done|lia]).

(** Writing a queue and reading it back. *)
Lemma put_get {B} qu q (k : ci_ip_pkt_queue -> cm netif B) s :
  (put_queue qu q ;;; let! q' := get_queue qu in k q') s = k q (set_queues (<[qu := q]> (queues s)) s).
Proof.
  rewrite (bind_Ok _ _ _ _ _ (put_queue_ok _ _ _)). apply bind_Ok, get_queue_ok. apply lookup_insert_eq.
Qed.

(** What [__ci_ip_queue_enqueue] computes. *)
Lemma enqueue_raw_run s qu q l p : queues s !! qu = Some q -> queue_is (pkts s) q l ->
  exists m, ci_ip_queue_enqueue_ qu p s =
    (set_queues (<[qu := Queue (if bool_decide (l = []) then p else q_head q) p (q_num q + 1)]> (queues s)) (set_pkts m s), Ok tt) /\
  (l = [] -> m = pkts s) /\
  (l <> [] -> exists r, pkts s !! q_tail q = Some r /\ m = <[q_tail q := with_next p r]> (pkts s)).
Proof.
  intros Hq Hqi. unfold ci_ip_queue_enqueue_. does (get_queue_ok _ _ _ Hq). rewrite (empty_queue _ _ _ Hqi).
  destruct (head_null _ _ _ Hqi) as [Hh1 Hh2]. case_bool_decide as Hne.
  - exists (pkts s). split; [|done]. rewrite bind_assoc, Hh1. asserts. rewrite put_get, put_queue_ok. unfold set_queues, set_pkts. simpl. by rewrite insert_insert_eq.
  - destruct (tail_split _ _ _ Hqi Hne) as (l0 & r & _ & Hr & H0). exists (<[q_tail q := with_next p r]> (pkts s)). split; [|split; [done|by eauto]].
    rewrite bind_assoc, Hh2. asserts. rewrite (bind_Ok _ _ _ _ _ (set_link_ok _ _ _ _ Hr)).
    erewrite (bind_Ok (get_queue _)) by (by apply get_queue_ok). by rewrite put_queue_ok.
Qed.

(** A chain of free packets is linked behind a queue. *)
Lemma queue_cat m m2 q lt h l t : queue_is m q lt -> seg m h (l ++ [t]) OO_PP_NULL -> NoDup (lt ++ l ++ [t]) ->
  (lt = [] -> m2 = m) -> (lt <> [] -> exists rt, m !! q_tail q = Some rt /\ m2 = <[q_tail q := with_next h rt]> m) ->
  queue_is m2 (Queue (if bool_decide (lt = []) then h else q_head q) t (q_num q + Z.of_nat (S (length l)))) (lt ++ l ++ [t]) /\
  dom m2 = dom m /\ forall x, x ∉ lt -> m2 !! x = m !! x.
Proof.
  intros Hqi Hs Hnd Hm1 Hm2. pose proof Hqi as (Hst & Hn & Ht & Hndt).
  assert (seg m2 (if bool_decide (lt = []) then h else q_head q) (lt ++ l ++ [t]) OO_PP_NULL /\ dom m2 = dom m /\
    forall x, x ∉ lt -> m2 !! x = m !! x) as (Hs' & Hdom & Hm).
  { case_bool_decide as Hne; [subst lt; by rewrite Hm1|].
    destruct (Hm2 Hne) as (rt & Hrt & ->). destruct (tail_split _ _ _ Hqi Hne) as (l0 & _ & El & _ & _).
    assert (q_tail q ∈ lt) as Hin by (rewrite El; set_solver). apply NoDup_app in Hnd as (_ & Hd & _).
    split_and!; [|by eapply dom_relink|intros x Hx; rewrite lookup_insert_ne; [done|by intros <-]].
    apply seg_app. exists h. split; [rewrite El in *; by eapply seg_relink|]. apply seg_frame; [by apply Hd|done]. }
  split; [|done]. split_and!; [done|simpl; rewrite !length_app; simpl; lia| |done].
  right. rewrite app_assoc. by rewrite last_snoc.
Qed.

Lemma enqueue_raw_ok s A qu l p r : Rep s A -> A !! qu = Some l -> 0 <= p -> pkts s !! p = Some r -> p_next r = OO_PP_NULL ->
  (forall qu' l', A !! qu' = Some l' -> p ∉ l') ->
  exists s', ci_ip_queue_enqueue_ qu p s = (s', Ok tt) /\ Rep s' (<[qu := l ++ [p]]> A) /\ rest_same s s'.
Proof.
  intros HR Hl Hp Hr Hnull Hfree. destruct (rep_get _ _ _ _ HR Hl) as (q & Hq & Hqi). pose proof Hqi as (_ & _ & _ & Hnd).
  destruct (enqueue_raw_run s qu q l p Hq Hqi) as (m & -> & Hm1 & Hm2). eexists. split; [done|].
  assert (p ∉ l) as Hpl by (by eapply Hfree).
  assert (NoDup (l ++ [p])) as Hnd' by (apply NoDup_app; split_and!; [done|set_solver|apply NoDup_singleton]).
  destruct (queue_cat (pkts s) m q l p [] p Hqi) as (Hq' & Hdom & Hm); [simpl; eauto 8|done|done|done|].
  split; [|by same].
  eapply (rep_change s _ A qu (l ++ [p])); [done|done|exact Hq'| |].
  - intros x qu2 l2 [Hx|Hx]%elem_of_app Hl2 Hx2; [by eapply (rep_disjoint _ _ HR)|].
    apply list_elem_of_singleton in Hx as ->. by destruct (Hfree qu2 l2 Hl2).
  - intros x qu2 l2 Hne Hl2 Hx2. simpl. apply Hm. intros Hx. apply Hne. by eapply (rep_disjoint _ _ HR).
Qed.

Lemma rest_same_trans s s1 s2 : rest_same s s1 -> rest_same s1 s2 -> rest_same s s2.
Proof. unfold rest_same. intros (?&?&?&?&?&?&?&?) (?&?&?&?&?&?&?&?). split_and!; try congruence. set_solver. Qed.

(** The link of a packet that is in no queue may change. *)
Lemma set_next_free s A p r v : Rep s A -> pkts s !! p = Some r -> (forall qu' l', A !! qu' = Some l' -> p ∉ l') ->
  let s' := set_pkts (<[p := with_next v r]> (pkts s)) s in Rep s' A /\ rest_same s s'.
Proof.
  intros HR Hr Hfree s'. split; [|same; by eapply dom_relink].
  apply (rep_update s s' A); [done|apply (rep_dom _ _ HR)| |apply (rep_disjoint _ _ HR)].
  intros qu l q Hl Hq. right. split_and!; [done|done|]. intros x Hx. simpl. rewrite lookup_insert_ne; [done|]. intros <-. by destruct (Hfree qu l Hl).
Qed.

Lemma enqueue_ok s A qu l p r : Rep s A -> A !! qu = Some l -> 0 <= p -> pkts s !! p = Some r ->
  (forall qu' l', A !! qu' = Some l' -> p ∉ l') ->
  exists s', ci_ip_queue_enqueue qu p s = (s', Ok tt) /\ Rep s' (<[qu := l ++ [p]]> A) /\ rest_same s s'.
Proof.
  intros HR Hl Hp Hr Hfree. unfold ci_ip_queue_enqueue. does (set_link_ok _ OO_PP_NULL _ _ Hr).
  destruct (set_next_free s A p r OO_PP_NULL HR Hr Hfree) as [HR' Hsame].
  destruct (enqueue_raw_ok _ A qu l p (with_next OO_PP_NULL r) HR' Hl Hp) as (s' & E & HR2 & Hs2);
    [apply lookup_insert_eq|done|done|]. exists s'. split_and!; [done|done|by eapply rest_same_trans].
Qed.

Lemma queue_is_tl m q p l r : queue_is m q (p :: l) -> m !! p = Some r -> queue_is m (Queue (p_next r) (q_tail q) (q_num q - 1)) l.
Proof.
  intros (Hs & Hn & Ht & Hnd) Hr. simpl in Hs. destruct Hs as (_ & _ & r' & Hr' & Hs). simplify_eq.
  split_and!; [done|simpl in *; lia| |by apply NoDup_cons in Hnd as [_ ?]].
  destruct l as [|x l]; [by left|right]. by destruct Ht.
Qed.

Lemma dequeue_ok s A qu p l : Rep s A -> A !! qu = Some (p :: l) ->
  exists s', ci_ip_queue_dequeue qu p s = (s', Ok tt) /\ Rep s' (<[qu := l]> A) /\ rest_same s s' /\ pkts s' = pkts s.
Proof.
  intros HR Hl. destruct (rep_get _ _ _ _ HR Hl) as (q & Hq & Hqi). pose proof Hqi as ((Hh & Hp & r & Hr & Hs) & Hn & _).
  pose proof (queue_is_tl _ _ _ _ _ Hqi Hr) as Htl.
  eexists. split; [|split].
  - unfold ci_ip_queue_dequeue. does (get_queue_ok _ _ _ Hq). rewrite <- Hh in Hr. does (valid_id_ok _ _ _ Hr). asserts.
    simpl length in Hn. asserts. asserts. rewrite Hh in Hr. does (PKT_ok _ _ _ Hr). rewrite put_get. apply assert_ok.
    unfold ci_ip_queue_not_empty. fold (ci_ip_queue_is_empty (Queue (p_next r) (q_tail q) (q_num q - 1))).
    rewrite (empty_queue _ _ _ Htl), (proj2 (head_null _ _ _ Htl)). by case_bool_decide.
  - eapply (rep_change s _ A qu l); [done|done|done| |done].
    intros x qu2 l2 Hx Hl2 Hx2. eapply (rep_disjoint _ _ HR); [done|done|done|set_solver].
  - split; [same|done].
Qed.

(** Moving the first packets of a queue behind another one. *)
Lemma last_link m h l t e r : seg m h (l ++ [t]) e -> m !! t = Some r -> p_next r = e /\ 0 <= t.
Proof. intros (mid & _ & Hs)%seg_app Hr. simpl in Hs. destruct Hs as (-> & Ht & r' & Hr' & <-). by simplify_eq. Qed.

(** A queue without its first packets. *)
Lemma queue_is_drop m q l1 t l2 r : queue_is m q ((l1 ++ [t]) ++ l2) -> m !! t = Some r ->
  queue_is m (Queue (p_next r) (q_tail q) (q_num q - Z.of_nat (S (length l1)))) l2.
Proof.
  intros (Hs & Hn & Ht & Hnd) Hr. apply seg_app in Hs as (mid & Hs1 & Hs2). destruct (last_link _ _ _ _ _ _ Hs1 Hr) as [-> _].
  rewrite !length_app in Hn. simpl in Hn. split_and!; [done|simpl; lia| |by apply NoDup_app in Hnd as (_ & _ & ?)].
  destruct Ht as [Ht|Ht]; [by destruct l1|]. destruct (last l2) as [x|] eqn:E; [|left; by apply last_None].
  right. rewrite last_app, E in Ht. by simplify_eq.
Qed.

(** What [ci_ip_queue_move] computes. *)
Lemma move_run s from to last num qf qt rl lt : from <> to -> queues s !! from = Some qf -> queues s !! to = Some qt ->
  pkts s !! last = Some rl -> num <> 0 -> num <= q_num qf ->
  let m1 := <[last := with_next OO_PP_NULL rl]> (pkts s) in queue_is m1 qt lt ->
  exists m2, ci_ip_queue_move from to last num s =
     (set_queues (<[to := Queue (if bool_decide (lt = []) then q_head qf else q_head qt) last (q_num qt + num)]>
        (<[from := Queue (p_next rl) (q_tail qf) (q_num qf - num)]> (queues s))) (set_pkts m2 s), Ok tt) /\
     (lt = [] -> m2 = m1) /\ (lt <> [] -> exists rt, m1 !! q_tail qt = Some rt /\ m2 = <[q_tail qt := with_next (q_head qf) rt]> m1).
Proof.
  intros Hft Hqf Hqt Hrl Hn0 Hn m1 Hqti. unfold ci_ip_queue_move. asserts. does (get_queue_ok _ _ _ Hqf). asserts.
  does (PKT_ok _ _ _ Hrl). erewrite (bind_Ok (put_queue _ _)) by apply put_queue_ok.
  erewrite (bind_Ok (set_next _ _)) by (by apply set_link_ok).
  erewrite (bind_Ok (get_queue to)) by (apply get_queue_ok; simpl; by rewrite lookup_insert_ne).
  rewrite (empty_queue _ _ _ Hqti). case_bool_decide as Hne.
  - exists m1. split; [|done]. rewrite put_get, put_queue_ok. unfold set_queues, set_pkts. simpl. by rewrite insert_insert_eq.
  - destruct (tail_split _ _ _ Hqti Hne) as (l0 & rt & _ & Hrt & _). exists (<[q_tail qt := with_next (q_head qf) rt]> m1).
    split; [|split; [done|by eauto]]. erewrite (bind_Ok (set_next _ _)) by (by apply set_link_ok).
    erewrite (bind_Ok (get_queue to)) by (apply get_queue_ok; simpl; by rewrite lookup_insert_ne). by rewrite put_queue_ok.
Qed.

Lemma move_ok s A from to l1 last l2 lt : Rep s A -> from <> to -> A !! from = Some ((l1 ++ [last]) ++ l2) -> A !! to = Some lt ->
  exists s', ci_ip_queue_move from to last (Z.of_nat (S (length l1))) s = (s', Ok tt) /\
    Rep s' (<[to := lt ++ l1 ++ [last]]> (<[from := l2]> A)) /\ rest_same s s'.
Proof.
  intros HR Hft Hlf Hlt. destruct (rep_get _ _ _ _ HR Hlf) as (qf & Hqf & Hqfi). destruct (rep_get _ _ _ _ HR Hlt) as (qt & Hqt & Hqti).
  pose proof Hqfi as (Hsf & Hnf & _ & Hndf). pose proof Hqti as (Hst & Hnt & Htt & Hndt). apply seg_app in Hsf as (mid & Hs1 & _).
  apply NoDup_app in Hndf as (Hnd1 & Hnd12 & _). destruct (seg_in _ _ _ _ last Hs1) as [Hlast [rl Hrl]]; [set_solver|].
  assert (forall x, x ∈ lt -> x ∉ (l1 ++ [last]) ++ l2) as Hdis by (intros x Hx Hx'; apply Hft; by eapply (rep_disjoint _ _ HR)).
  assert (queue_is (<[last := with_next OO_PP_NULL rl]> (pkts s)) qt lt) as Hqt1.
  { split_and!; [|done|done|done]. apply seg_frame; [|done]. intros Hin. apply (Hdis _ Hin). set_solver. }
  rewrite !length_app in Hnf. simpl length in Hnf.
  destruct (move_run s from to last (Z.of_nat (S (length l1))) qf qt rl lt) as (m2 & -> & Hm1 & Hm2); [done|done|done|done|lia|lia|done|].
  eexists. split; [done|].
  destruct (queue_cat _ m2 qt lt (q_head qf) l1 last Hqt1) as (Hq' & Hdom & Hm); [by eapply seg_relink| |done|done|].
  { apply NoDup_app. split_and!; [done| |done]. intros x Hx Hx'. apply (Hdis x Hx). set_solver. }
  split; [|same; rewrite Hdom; by eapply dom_relink].
  set (s1 := set_queues (<[from := Queue (p_next rl) (q_tail qf) (q_num qf - Z.of_nat (S (length l1)))]> (queues s)) s).
  assert (Rep s1 (<[from := l2]> A)) as HR1.
  { eapply (rep_change s _ A from l2); [done|done|by eapply queue_is_drop| |done].
    intros x qu2 l Hx Hl Hxl. eapply (rep_disjoint _ _ HR); [done|done|done|set_solver]. }
  assert (forall x qu2 l, x ∈ lt ++ l1 ++ [last] -> <[from := l2]> A !! qu2 = Some l -> x ∈ l -> qu2 = to) as Hown.
  { intros x qu2 l [Hx|Hx]%elem_of_app Hl Hxl.
    - apply (rep_disjoint _ _ HR1 qu2 to l lt x); [done| |done|done]. by rewrite lookup_insert_ne.
    - rewrite lookup_insert in Hl. case_decide as E; [simplify_eq; by destruct (Hnd12 x)|].
      destruct E. symmetry. eapply (rep_disjoint _ _ HR); [done|done|done|set_solver]. }
  eapply (rep_change s1 _ _ to); [done|done|exact Hq'|done|].
  intros x qu2 l Hne Hl Hxl. simpl. destruct (decide (x ∈ lt ++ l1 ++ [last])) as [Hin|Hin]; [by destruct Hne; eapply Hown|].
  rewrite Hm by set_solver. rewrite lookup_insert_ne; [done|set_solver].
Qed.

(** Moving a whole queue: [to] takes the place of [from], and what it held is in no queue. *)
Lemma move_all_ok s A from to l q0 : Rep s A -> from <> to -> A !! from = Some l -> queues s !! to = Some q0 ->
  exists s', ci_ip_queue_move_all from to s = (s', Ok tt) /\ Rep s' (<[from := []]> (<[to := l]> A)) /\ rest_same s s' /\ pkts s' = pkts s.
Proof.
  intros HR Hft Hl Hq0. destruct (rep_get _ _ _ _ HR Hl) as (q & Hq & Hqi).
  eexists. split; [|split].
  - unfold ci_ip_queue_move_all, ci_ip_queue_init. does (get_queue_ok _ _ _ Hq). erewrite (bind_Ok (put_queue _ _)) by apply put_queue_ok.
    erewrite (bind_Ok (get_queue _)) by (apply get_queue_ok; simpl; by rewrite lookup_insert_ne). by rewrite put_queue_ok.
  - apply (rep_update s _ A); [done| | |].
    + intros qu. simpl. rewrite !lookup_insert. repeat case_decide; try by eauto. apply (rep_dom _ _ HR).
    + intros qu l' q'. simpl. rewrite !lookup_insert. repeat case_decide; intros; simplify_eq.
      * left. split_and!; [done|done|by left|apply NoDup_nil_2].
      * by left.
      * by right.
    + pose proof (rep_disjoint _ _ HR) as D. intros qu1 qu2 l1 l2 p. rewrite !lookup_insert. intros E1 E2 Hp1 Hp2.
      repeat case_decide; simplify_eq; try done; try set_solver; naive_solver.
  - split; [same|done].
Qed.

(** ** What the checking functions answer *)

Lemma tail_null q l m : queue_is m q l -> l <> [] -> exists rh rt, m !! q_head q = Some rh /\ m !! q_tail q = Some rt /\ p_next rt = OO_PP_NULL.
Proof.
  intros Hqi Hne. destruct (tail_split _ _ _ Hqi Hne) as (l0 & rt & El & Hrt & _). pose proof Hqi as (Hs & _).
  destruct l as [|h l]; [done|]. pose proof Hs as (-> & _ & rh & Hrh & _). exists rh, rt. split_and!; [done|done|].
  rewrite El in Hs. by destruct (last_link _ _ _ _ _ _ Hs Hrt).
Qed.

Lemma is_valid_ok s A qu l : Rep s A -> A !! qu = Some l -> ci_ip_queue_is_valid qu s = (s, Ok true).
Proof.
  intros HR Hl. destruct (rep_get _ _ _ _ HR Hl) as (q & Hq & Hqi). unfold ci_ip_queue_is_valid. does (get_queue_ok _ _ _ Hq).
  pose proof (empty_queue _ _ _ Hqi) as He. unfold ci_ip_queue_is_empty in He. rewrite He. case_bool_decide as Hne.
  - unfold ret. by rewrite (proj1 (head_null _ _ _ Hqi)), bool_decide_true.
  - destruct (tail_null _ _ _ Hqi Hne) as (rh & rt & Hrh & Hrt & Hnx). does (valid_id_ok _ _ _ Hrh). does (valid_id_ok _ _ _ Hrt).
    does (PKT_ok _ _ _ Hrt). unfold ret. by rewrite Hnx.
Qed.

Lemma valid_long_step f t id i b : valid_long_loop (S f) t id i b =
  if OO_PP_NOT_NULL id then let! p := PKT id in valid_long_loop f t (p_next p) (i + 1) (if OO_PP_EQ t id then true else b)
  else ret (i, b).
Proof. done. Qed.

(** The walk of the checking loop takes one pass for each packet and one to stop. *)
Lemma valid_long_walk s t l : forall h i b, seg (pkts s) h l OO_PP_NULL ->
  valid_long_loop (S (length l)) t h i b s = (s, Ok (i + Z.of_nat (length l), bool_decide (t ∈ l) || b)).
Proof.
  induction l as [|p l IH]; intros h i b Hs; cbn [length].
  - simpl in Hs. subst h. cbn [valid_long_loop]. unfold OO_PP_NOT_NULL, OO_PP_NULL. simpl. unfold ret. by rewrite Z.add_0_r.
  - destruct Hs as (-> & Hp & r & Hr & Hs). rewrite valid_long_step. unfold OO_PP_NOT_NULL. rewrite (proj2 (Z.leb_le _ _)) by lia.
    does (PKT_ok _ _ _ Hr). rewrite (IH _ _ _ Hs). do 3 f_equal; [lia|]. unfold OO_PP_EQ.
    destruct (Z.eqb_spec t p) as [->|Hne].
    + rewrite (bool_decide_true (p ∈ p :: l)) by set_solver. apply orb_true_r.
    + f_equal. apply bool_decide_ext. set_solver.
Qed.

Lemma is_valid_long_ok s A qu l : Rep s A -> A !! qu = Some l -> ci_ip_queue_is_valid_long (S (length l)) qu s = (s, Ok true).
Proof.
  intros HR Hl. unfold ci_ip_queue_is_valid_long. does (is_valid_ok _ _ _ _ HR Hl).
  destruct (rep_get _ _ _ _ HR Hl) as (q & Hq & (Hs & Hn & Ht & _)). does (get_queue_ok _ _ _ Hq).
  does (valid_long_walk s (q_tail q) l (q_head q) 0 false Hs). unfold ret. cbn [fst snd]. do 2 f_equal.
  rewrite Hn, (proj2 (Z.eqb_eq _ _)) by lia. destruct Ht as [->|Ht]; [done|]. rewrite bool_decide_true, orb_true_r; [done|].
  apply last_Some in Ht as [l0 ->]. set_solver.
Qed.

Lemma queue_bounded s A qu l : Rep s A -> A !! qu = Some l -> (length l <= size (pkts s))%nat.
Proof.
  intros HR Hl. destruct (rep_get _ _ _ _ HR Hl) as (q & Hq & (Hs & _ & _ & Hnd)).
  rewrite <- size_dom, <- (size_list_to_set (C := gset Z) l Hnd). apply subseteq_size. intros p. rewrite elem_of_list_to_set, elem_of_dom.
  intros Hp. by destruct (seg_in _ _ _ _ p Hs Hp).
Qed.

(** ** Sequences of operations *)

Inductive qop :=
| OInit (qu : qid) | OEnqueue (qu : qid) (p : Z) | ODequeue (qu : qid) (p : Z)
| OMove (from to : qid) (last num : Z) | OMoveAll (from to : qid).

Definition q_code (o : qop) : cm netif unit :=
  match o with
  | OInit qu => ci_ip_queue_init qu
  | OEnqueue qu p => ci_ip_queue_enqueue qu p
  | ODequeue qu p => ci_ip_queue_dequeue qu p
  | OMove from to last num => ci_ip_queue_move from to last num
  | OMoveAll from to => ci_ip_queue_move_all from to
  end.

Section spec.
(** The packets of the stack and the queues in its memory. *)
Variables (pool : gset Z) (mem : gset qid).

(** The packet is one of the stack's and in no queue. *)
Definition free (A : gmap qid (list Z)) (p : Z) : bool :=
  bool_decide (p ∈ pool) && (0 <=? p) && bool_decide (map_Forall (fun _ l => p ∉ l) A).

(** The operations on lists of packets, with what their callers owe: a packet that is
    enqueued is in no queue, one that is dequeued is the first one, a part that is
    moved ends in [last], and packets move between two different queues. *)
Definition q_spec (o : qop) (A : gmap qid (list Z)) : option (gmap qid (list Z)) :=
  match o with
  | OInit qu => guard (qu ∈ mem) ;; Some (<[qu := []]> A)
  | OEnqueue qu p => l ← A !! qu; guard (free A p = true) ;; Some (<[qu := l ++ [p]]> A)
  | ODequeue qu p => l ← A !! qu; guard (head l = Some p) ;; Some (<[qu := tail l]> A)
  | OMove from to lst num =>
      lf ← A !! from; lt ← A !! to;
      guard (from <> to /\ 0 < num <= Z.of_nat (length lf) /\ last (take (Z.to_nat num) lf) = Some lst) ;;
      Some (<[to := lt ++ take (Z.to_nat num) lf]> (<[from := drop (Z.to_nat num) lf]> A))
  | OMoveAll from to => l ← A !! from; guard (from <> to /\ to ∈ mem) ;; Some (<[from := []]> (<[to := l]> A))
  end.

Lemma queue_init_ok s A qu : Rep s A -> qu ∈ dom (queues s) ->
  exists s', ci_ip_queue_init qu s = (s', Ok tt) /\ Rep s' (<[qu := []]> A) /\ rest_same s s'.
Proof.
  intros HR [q Hq]%elem_of_dom. unfold ci_ip_queue_init. does (get_queue_ok _ _ _ Hq). rewrite put_queue_ok. eexists. split; [done|].
  split; [|same]. eapply (rep_change s _ A qu []); [done|done| |set_solver|done]. split_and!; [done|done|by left|apply NoDup_nil_2].
Qed.

Lemma free_spec A p (s : netif) : pool ⊆ dom (pkts s) -> free A p = true ->
  0 <= p /\ is_Some (pkts s !! p) /\ forall qu l, A !! qu = Some l -> p ∉ l.
Proof.
  intros Hpool H. unfold free in H. apply andb_true_iff in H as [[Hp H0]%andb_true_iff Hf].
  apply bool_decide_eq_true in Hp, Hf. split_and!; [lia|apply elem_of_dom; set_solver|]. intros qu l. apply Hf.
Qed.

Lemma queue_op_ok o s A A' : Rep s A -> pool ⊆ dom (pkts s) -> mem ⊆ dom (queues s) -> q_spec o A = Some A' ->
  exists s', q_code o s = (s', Ok tt) /\ Rep s' A' /\ rest_same s s'.
Proof.
  intros HR Hpool Hmem. destruct o as [qu|qu p|qu p|from to lst num|from to]; cbn [q_spec q_code]; intros H; simplify_option_eq.
  - eapply queue_init_ok; [done|set_solver].
  - edestruct free_spec as (Hp0 & [r Hr] & Hf); [done|done|]. by eapply enqueue_ok.
  - match goal with H : A !! qu = Some ?l |- _ => destruct l as [|p' l']; simplify_eq/= end. edestruct dequeue_ok as (s' & E & HR' & Hs & _); [done|done|]. by exists s'.
  - match goal with H : _ /\ _ |- _ => destruct H as (Hft & Hn & Hl) end. apply last_Some in Hl as [l1 El]. rewrite El.
    assert (num = Z.of_nat (S (length l1))) as Hnum by (apply (f_equal length) in El; rewrite length_take, length_app in El; simpl in El; lia).
    rewrite Hnum. eapply move_ok; [done|done| |done]. rewrite <- Hnum, <- El, take_drop. done.
  - match goal with H : _ /\ _ |- _ => destruct H as (Hft & Hto) end. destruct (proj1 (elem_of_dom _ _) (Hmem to Hto)) as [q0 Hq0].
    edestruct move_all_ok as (s' & E & HR' & Hs & _); [done|done|done|done|]. by exists s'.
Qed.

Fixpoint q_codes (os : list qop) : cm netif unit :=
  match os with [] => ret tt | o :: os' => q_code o ;;; q_codes os' end.

Fixpoint q_specs (os : list qop) (A : gmap qid (list Z)) : option (gmap qid (list Z)) :=
  match os with [] => Some A | o :: os' => A1 ← q_spec o A; q_specs os' A1 end.

Lemma q_steps_ok os : forall s A A', Rep s A -> pool ⊆ dom (pkts s) -> mem ⊆ dom (queues s) -> q_specs os A = Some A' ->
  exists s', q_codes os s = (s', Ok tt) /\ Rep s' A' /\ rest_same s s'.
Proof.
  induction os as [|o os IH]; intros s A A' HR Hpool Hmem; cbn [q_specs q_codes]; intros H.
  - simplify_eq. exists s. split; [done|]. split; [done|]. by repeat split.
  - destruct (q_spec o A) as [A1|] eqn:E1; [|done]. simpl in H. destruct (queue_op_ok o s A A1 HR Hpool Hmem E1) as (s1 & Hc & HR1 & Hs1).
    pose proof Hs1 as (_ & _ & _ & _ & _ & _ & Hd1 & Hd2).
    destruct (IH s1 A1 A' HR1 ltac:(by rewrite Hd1) ltac:(by etrans) H) as (s' & Hc' & HR' & Hs').
    exists s'. split; [by rewrite (bind_Ok _ _ _ _ _ Hc)|]. split; [done|]. by eapply rest_same_trans.
Qed.
End spec.

(** C25: the packet queues of a stack ([ci_ip_queue_init], [_enqueue], [_dequeue],
    [_move], [_move_all]) implement lists of packets.  Whatever the memory holds at
    first, a sequence of operations whose callers keep to the rules of [q_spec] runs
    without a failed assertion and without an access outside the packets, and afterwards
    the heads, tails, counts and links are those of the lists the rules give: every
    queue has its packets in order, no packet is in two queues, both checking functions
    accept every queue (the long one within one pass for each packet and one more), no
    count is more than the number of packets of the stack, and the receive accounting
    is untouched. *)
Theorem pkt_queues_are_lists s os A' :
  q_specs (dom (pkts s)) (dom (queues s)) os ∅ = Some A' ->
  exists s', q_codes os s = (s', Ok tt) /\ Rep s' A' /\ rest_same s s' /\
    forall qu l, A' !! qu = Some l ->
      ci_ip_queue_is_valid qu s' = (s', Ok true) /\ ci_ip_queue_is_valid_long (S (length l)) qu s' = (s', Ok true) /\
      (length l <= size (pkts s))%nat.
Proof.
  intros H. destruct (q_steps_ok (dom (pkts s)) (dom (queues s)) os s ∅ A') as (s' & Hc & HR & Hs); [apply rep_empty|done|done|done|].
  exists s'. split_and!; [done|done|done|]. intros qu l Hl. split_and!; [by eapply is_valid_ok|by eapply is_valid_long_ok|].
  etrans; [by eapply queue_bounded|]. pose proof Hs as (_ & _ & _ & _ & _ & _ & Hd & _). by rewrite <- !size_dom, Hd.
Qed.

(** A memory of four packets and of the queues of two sockets, with nothing initialised. *)
Definition mem0 : netif :=
  let q := Queue 77 77 77 in let k := Pkt 99 5 in
  Netif (<[0 := k]> (<[1 := k]> (<[2 := k]> (<[3 := k]> ∅))))
    (<[(7, Recv1) := q]> (<[(7, Recv2) := q]> (<[(7, Rob) := q]> (<[(8, Recv1) := q]> (<[(8, Recv2) := q]> (<[(8, Rob) := q]> ∅))))))
    (fun ts => ts =? 7) 0 false true 2 10.

Definition ops0 : list qop :=
  [OInit (7, Recv1); OInit (7, Recv2); OEnqueue (7, Recv1) 2; OEnqueue (7, Recv1) 0; OEnqueue (7, Recv1) 3; OEnqueue (7, Recv2) 1;
   OMove (7, Recv1) (7, Recv2) 0 2; ODequeue (7, Recv2) 1; OMoveAll (7, Recv2) (7, Rob)].

Definition spec0 : option (gmap qid (list Z)) := q_specs (dom (pkts mem0)) (dom (queues mem0)) ops0 ∅.

Lemma pkt_queues_are_lists_witness : exists A' s', spec0 = Some A' /\ q_codes ops0 mem0 = (s', Ok tt) /\ Rep s' A' /\
  A' !! (7, Rob) = Some [2; 0] /\ A' !! (7, Recv1) = Some [3] /\ A' !! (7, Recv2) = Some [] /\
  ci_ip_queue_is_valid_long 3 (7, Rob) s' = (s', Ok true).
Proof.
  assert (Some [2; 0] = (spec0 ≫= lookup (7, Rob))) as E1 by (vm_compute; reflexivity).
  assert (Some [3] = (spec0 ≫= lookup (7, Recv1))) as E2 by (vm_compute; reflexivity).
  assert (Some [] = (spec0 ≫= lookup (7, Recv2))) as E3 by (vm_compute; reflexivity).
  destruct spec0 as [A'|] eqn:E; [|discriminate E1]. cbn [mbind option_bind] in E1, E2, E3.
  destruct (pkt_queues_are_lists mem0 ops0 A' E) as (s' & Hc & HR & _ & Hv). exists A', s'.
  split; [reflexivity|]. split; [exact Hc|]. split; [exact HR|]. split; [by symmetry|]. split; [by symmetry|]. split; [by symmetry|].
  apply (Hv (7, Rob) [2; 0]). by symmetry.
Defined.

(** ** The receive reserve *)

Definition len (A : gmap qid (list Z)) (ts : Z) (n : qname) : Z := Z.of_nat (length (default [] (A !! (ts, n)))).
Definition rx_count (A : gmap qid (list Z)) (ts : Z) : Z := len A ts Recv1 + len A ts Recv2 + len A ts Rob.

(** What a socket still has reserved: up to the reserve of an endpoint, less the
    packets in its receive queues. *)
Definition reserve (est : Z -> bool) (R : Z) (A : gmap qid (list Z)) (ts : Z) : Z :=
  Z.max 0 ((if est ts then R else 0) - rx_count A ts).

Definition sum (f : Z -> Z) (socks : list Z) : Z := foldr (fun ts n => f ts + n) 0 socks.

Lemma sum_same f g socks : (forall t, t ∈ socks -> f t = g t) -> sum f socks = sum g socks.
Proof. induction socks as [|t socks IH]; intros H; [done|]. simpl. rewrite H, IH; [done| |]; set_solver. Qed.

Lemma sum_change f g socks ts : NoDup socks -> ts ∈ socks -> (forall t, t <> ts -> f t = g t) ->
  sum f socks - f ts = sum g socks - g ts.
Proof.
  intros Hnd Hin H. induction Hnd as [|t socks Ht Hnd IH]; [set_solver|]. simpl. destruct (decide (t = ts)) as [->|Hne].
  - rewrite (sum_same f g socks); [lia|]. intros t Ht'. apply H. by intros ->.
  - rewrite (H t Hne). assert (sum f socks - f ts = sum g socks - g ts); [|lia]. apply IH. set_solver.
Qed.

Lemma sum_bounds f socks R : (forall t, 0 <= f t <= R) -> 0 <= sum f socks <= Z.of_nat (length socks) * R.
Proof. intros H. induction socks as [|t socks IH]; simpl; [lia|]. specialize (H t). lia. Qed.

Lemma sum_part f socks ts : NoDup socks -> ts ∈ socks -> (forall t, 0 <= f t) -> f ts <= sum f socks.
Proof.
  intros Hnd Hin Hf. assert (forall l, 0 <= sum f l) as H0 by (induction l as [|t l IH]; simpl; [lia|]; specialize (Hf t); lia).
  induction Hnd as [|t socks Ht Hnd IH]; [set_solver|]. simpl. specialize (H0 socks). apply elem_of_cons in Hin as [->|Hin]; [lia|].
  specialize (IH Hin). specialize (Hf t). lia.
Qed.

(** The receive queues of the socket are initialised. *)
Definition rx_ready (A : gmap qid (list Z)) (ts : Z) : Prop := forall n, is_rx_queue n = true -> is_Some (A !! (ts, n)).

Lemma get_num s A qu : Rep s A -> is_Some (A !! qu) -> exists q, get_queue qu s = (s, Ok q) /\ q_num q = Z.of_nat (length (default [] (A !! qu))).
Proof.
  intros HR [l Hl]. destruct (rep_get _ _ _ _ HR Hl) as (q & Hq & (_ & Hn & _)). exists q. rewrite Hl. split; [by apply get_queue_ok|done].
Qed.

Lemma buf_count_ok s A ts : Rep s A -> rx_ready A ts -> ci_tcp_rx_buf_count_ ts s = (s, Ok (rx_count A ts)).
Proof.
  intros HR Hr. unfold ci_tcp_rx_buf_count_.
  destruct (get_num s A (ts, Recv1) HR (Hr Recv1 eq_refl)) as (q1 & E1 & H1). does E1.
  destruct (get_num s A (ts, Recv2) HR (Hr Recv2 eq_refl)) as (q2 & E2 & H2). does E2.
  destruct (get_num s A (ts, Rob) HR (Hr Rob eq_refl)) as (q3 & E3 & H3). does E3. unfold ret. rewrite H1, H2, H3. done.
Qed.

Lemma reserved_bufs_ok s A ts : Rep s A -> rx_ready A ts ->
  ci_tcp_rx_reserved_bufs ts s = (s, Ok (reserve (established s) (endpoint_packet_reserve s) A ts)).
Proof. intros HR Hr. unfold ci_tcp_rx_reserved_bufs. does (buf_count_ok _ _ _ HR Hr). done. Qed.

Lemma rx_count_nonneg A ts : 0 <= rx_count A ts.
Proof. unfold rx_count, len. lia. Qed.

(** The adjustment that is made before a packet is added or removed. *)
Lemma buf_adjust_ok s A ts q d : Rep s A -> rx_ready A ts -> is_rx_queue q = true -> account_pending s = false -> locked s = true ->
  0 <= rx_count A ts + d ->
  exists s', ci_tcp_rx_buf_adjust ts q d s = (s', Ok tt) /\
    s' = set_reserved (reserved_pktbufs s - reserve (established s) (endpoint_packet_reserve s) A ts +
      Z.max 0 ((if established s ts then endpoint_packet_reserve s else 0) - (rx_count A ts + d))) s.
Proof.
  intros HR Hr Hq Hp Hlk Hd. eexists. split; [|done]. unfold ci_tcp_rx_buf_adjust. rewrite Hq. asserts. rewrite bind_get, Hp. asserts.
  pose proof (rx_count_nonneg A ts) as H0. unfold reserve. destruct (established s ts) eqn:E; cbn [negb].
  - does (reserved_bufs_ok _ _ _ HR Hr). does (buf_count_ok _ _ _ HR Hr).
    erewrite (bind_Ok (ci_tcp_rx_reserved_bufs_ _ _)) by (unfold ci_tcp_rx_reserved_bufs_; by rewrite bind_get). rewrite bind_get.
    rewrite bind_modify, Hlk. unfold ci_assert, ret, reserve. rewrite E. f_equal. f_equal. lia.
  - unfold ret. f_equal. destruct s. unfold set_reserved. simpl. f_equal. lia.
Qed.

(** *** The operations of the stack on receive queues *)

(** Between [Begin] and [End] of a socket its receive queues and its state may change in
    any way; [__ci_tcp_rx_queue_enqueue] is called with a packet whose link is cleared. *)
Inductive rop :=
| RQueue (o : qop) | RxEnqueue (ts : Z) (q : qname) (p : Z) | RxDequeue (ts : Z) (q : qname) (p : Z)
| Begin (ts : Z) | End (ts : Z) | SetState (ts : Z) (est : bool).

Definition set_est (ts : Z) (b : bool) (est : Z -> bool) : Z -> bool := fun t => if t =? ts then b else est t.
Definition set_established (est : Z -> bool) (s : netif) : netif :=
  Netif (pkts s) (queues s) est (reserved_pktbufs s) (account_pending s) (locked s) (endpoint_packet_reserve s) (max_rx_packets s).

Definition r_code (o : rop) : cm netif unit :=
  match o with
  | RQueue o => q_code o
  | RxEnqueue ts q p => set_next p OO_PP_NULL ;;; ci_tcp_rx_queue_enqueue_ ts q p
  | RxDequeue ts q p => ci_tcp_rx_queue_dequeue ts q p
  | Begin ts => ci_tcp_rx_buf_account_begin ts
  | End ts => ci_tcp_rx_buf_account_end ts
  | SetState ts b => let! s := get in modify (set_established (set_est ts b (established s)))
  end.

Definition touches (o : qop) : list qid :=
  match o with
  | OInit qu | OEnqueue qu _ | ODequeue qu _ => [qu]
  | OMove from to _ _ | OMoveAll from to => [from; to]
  end.

Record rstate := RState { r_q : gmap qid (list Z); r_est : Z -> bool; r_pend : option Z }.

(** A queue that may change without an adjustment of the reserve. *)
Definition unaccounted (pend : option Z) (qu : qid) : Prop := is_rx_queue (snd qu) = false \/ pend = Some (fst qu).
#[export] Instance unaccounted_dec pend qu : Decision (unaccounted pend qu).
Proof. unfold unaccounted. apply _. Defined.

Section reserve_spec.
Variables (pool : gset Z) (mem : gset qid) (socks : list Z).

Definition r_spec (o : rop) (st : rstate) : option rstate :=
  match o with
  | RQueue o =>
      guard (Forall (unaccounted (r_pend st)) (touches o)) ;;
      A ← q_spec pool mem o (r_q st); Some (RState A (r_est st) (r_pend st))
  | RxEnqueue ts q p =>
      guard (r_pend st = None /\ is_rx_queue q = true /\ ts ∈ socks) ;;
      A ← q_spec pool mem (OEnqueue (ts, q) p) (r_q st); Some (RState A (r_est st) None)
  | RxDequeue ts q p =>
      guard (r_pend st = None /\ is_rx_queue q = true /\ ts ∈ socks) ;;
      A ← q_spec pool mem (ODequeue (ts, q) p) (r_q st); Some (RState A (r_est st) None)
  | Begin ts => guard (r_pend st = None /\ ts ∈ socks) ;; Some (RState (r_q st) (r_est st) (Some ts))
  | End ts => guard (r_pend st = Some ts) ;; Some (RState (r_q st) (r_est st) None)
  | SetState ts b => guard (r_pend st = Some ts) ;; Some (RState (r_q st) (set_est ts b (r_est st)) (r_pend st))
  end.

(** The memory agrees with [st], and [reserved_pktbufs] is the sum of what the sockets
    have reserved, less the socket that is being worked on. *)
Record accounted (s : netif) (st : rstate) : Prop := {
  ac_rep : Rep s (r_q st);
  ac_ready : forall ts, ts ∈ socks -> rx_ready (r_q st) ts;
  ac_est : established s = r_est st;
  ac_pending : account_pending s = bool_decide (is_Some (r_pend st));
  ac_pend : forall ts, r_pend st = Some ts -> ts ∈ socks;
  ac_sum : reserved_pktbufs s = sum (reserve (r_est st) (endpoint_packet_reserve s) (r_q st)) socks -
    match r_pend st with Some ts => reserve (r_est st) (endpoint_packet_reserve s) (r_q st) ts | None => 0 end;
  ac_locked : locked s = true;
  ac_pool : pool ⊆ dom (pkts s); ac_mem : mem ⊆ dom (queues s);
  ac_limit : 0 <= endpoint_packet_reserve s /\ Z.of_nat (length socks) * endpoint_packet_reserve s <= max_rx_packets s }.

Lemma guarded P `{Decision P} {B} (k : option B) x : (guard P ;; k) = Some x -> P /\ k = Some x.
Proof. case_guard; [done|]. intros [=]. Qed.

Lemma q_spec_frame o A A' qu : q_spec pool mem o A = Some A' -> qu ∉ touches o -> A' !! qu = A !! qu.
Proof.
  intros H Hqu. destruct o; cbn [q_spec touches] in *; simplify_option_eq; rewrite ?not_elem_of_cons in Hqu; destruct_and?;
    rewrite ?lookup_insert_ne by congruence; done.
Qed.

Lemma q_spec_keeps o A A' qu : q_spec pool mem o A = Some A' -> is_Some (A !! qu) -> is_Some (A' !! qu).
Proof.
  intros H Hqu. destruct o; cbn [q_spec] in *; simplify_option_eq; rewrite ?lookup_insert; repeat case_decide; by eauto.
Qed.

Lemma reserve_other est R A A' t : (forall n, is_rx_queue n = true -> A' !! (t, n) = A !! (t, n)) -> reserve est R A' t = reserve est R A t.
Proof. intros H. unfold reserve, rx_count, len. by rewrite !H. Qed.

Lemma reserve_nonneg est R A t : 0 <= R -> 0 <= reserve est R A t <= R.
Proof. intros HR. unfold reserve. pose proof (rx_count_nonneg A t). destruct (est t); lia. Qed.

Lemma rx_count_change A ts q l l' : is_rx_queue q = true -> A !! (ts, q) = Some l ->
  rx_count (<[(ts, q) := l']> A) ts = rx_count A ts + Z.of_nat (length l') - Z.of_nat (length l).
Proof.
  intros Hq Hl. unfold rx_count, len. destruct q; try done; rewrite Hl, lookup_insert_eq, !lookup_insert_ne by congruence; simpl; lia.
Qed.

Lemma rep_fields s s' A : pkts s' = pkts s -> queues s' = queues s -> Rep s A -> Rep s' A.
Proof. intros Hp Hq HR. split; rewrite ?Hp, ?Hq; apply HR. Qed.

Lemma ready_step o A A' ts : q_spec pool mem o A = Some A' -> rx_ready A ts -> rx_ready A' ts.
Proof. intros H Hr n Hn. eapply q_spec_keeps; [done|]. by apply Hr. Qed.

Lemma accounted_same s s' st : accounted s st -> rest_same s s' -> Rep s' (r_q st) -> accounted s' st.
Proof.
  intros [H1 H2 H3 H4 H5 H6 H7 H8 H9 H10] (E1 & E2 & E3 & E4 & E5 & E6 & E7 & E8) HR.
  split; rewrite ?E1, ?E2, ?E3, ?E4, ?E5, ?E6, ?E7; try done. by etrans.
Qed.

(** A receive queue changes after the reserve has been adjusted. *)
Lemma rx_step_ok s s2 st ts q l l' :
  NoDup socks -> accounted s st -> r_pend st = None -> ts ∈ socks -> is_rx_queue q = true -> r_q st !! (ts, q) = Some l ->
  (let s1 := set_reserved (reserved_pktbufs s - reserve (established s) (endpoint_packet_reserve s) (r_q st) ts +
      Z.max 0 ((if established s ts then endpoint_packet_reserve s else 0) -
        (rx_count (r_q st) ts + (Z.of_nat (length l') - Z.of_nat (length l))))) s in
   rest_same s1 s2) -> Rep s2 (<[(ts, q) := l']> (r_q st)) ->
  accounted s2 (RState (<[(ts, q) := l']> (r_q st)) (r_est st) None).
Proof.
  intros Hnd Hac Hpe Hin Hq Hl (E1 & E2 & E3 & E4 & E5 & E6 & E7 & E8) HR2. simpl in *.
  split; simpl; [done| | | |done| | | | |].
  - intros t Ht n Hn. rewrite lookup_insert. case_decide; [by eauto|]. by apply (ac_ready _ _ Hac).
  - by rewrite E1, (ac_est _ _ Hac).
  - by rewrite E3, (ac_pending _ _ Hac), Hpe.
  - rewrite E2, E5, (ac_sum _ _ Hac), Hpe, (ac_est _ _ Hac).
    pose proof (sum_change (reserve (r_est st) (endpoint_packet_reserve s) (<[(ts, q) := l']> (r_q st)))
      (reserve (r_est st) (endpoint_packet_reserve s) (r_q st)) socks ts Hnd Hin) as Hs.
    assert (reserve (r_est st) (endpoint_packet_reserve s) (<[(ts, q) := l']> (r_q st)) ts = Z.max 0
      ((if r_est st ts then endpoint_packet_reserve s else 0) - (rx_count (r_q st) ts + (Z.of_nat (length l') - Z.of_nat (length l))))) as Hts
      by (unfold reserve; rewrite (rx_count_change _ _ _ _ _ Hq Hl); do 2 f_equal; lia).
    rewrite <- Hts. rewrite Z.sub_0_r in *. enough (forall t, t <> ts -> reserve (r_est st) (endpoint_packet_reserve s) (<[(ts, q):=l']> (r_q st)) t =
      reserve (r_est st) (endpoint_packet_reserve s) (r_q st) t) as Hoth by (specialize (Hs Hoth); lia).
    intros t Ht. apply reserve_other. intros n _. rewrite lookup_insert_ne; [done|congruence].
  - by rewrite E4, (ac_locked _ _ Hac).
  - rewrite E7. apply Hac.
  - etrans; [apply Hac|done].
  - rewrite E5, E6. apply Hac.
Qed.

(** The adjustment and what follows it. *)
Lemma rx_adjust_ok s st ts q d : accounted s st -> r_pend st = None -> is_rx_queue q = true -> ts ∈ socks -> 0 <= rx_count (r_q st) ts + d ->
  let s1 := set_reserved (reserved_pktbufs s - reserve (established s) (endpoint_packet_reserve s) (r_q st) ts +
      Z.max 0 ((if established s ts then endpoint_packet_reserve s else 0) - (rx_count (r_q st) ts + d))) s in
  ci_tcp_rx_buf_adjust ts q d s = (s1, Ok tt) /\ Rep s1 (r_q st).
Proof.
  intros Hac Hpe Hq Hin Hd s1. pose proof (ac_rep _ _ Hac) as HR. split; [|by apply (rep_fields s)].
  destruct (buf_adjust_ok s (r_q st) ts q d HR) as (s' & E & ->); try done; [by apply (ac_ready _ _ Hac)| |apply Hac].
  by rewrite (ac_pending _ _ Hac), Hpe.
Qed.

Lemma rx_enqueue_ok s st ts q p l : NoDup socks -> accounted s st -> r_pend st = None ->
  is_rx_queue q = true -> ts ∈ socks -> r_q st !! (ts, q) = Some l -> free pool (r_q st) p = true ->
  exists s', r_code (RxEnqueue ts q p) s = (s', Ok tt) /\ accounted s' (RState (<[(ts, q) := l ++ [p]]> (r_q st)) (r_est st) None).
Proof.
  intros Hnd Hac Hpe Hq Hin Hl Hf. destruct (free_spec _ _ _ _ (ac_pool _ _ Hac) Hf) as (H0 & [r Hr] & Hfree).
  cbn [r_code]. does (set_link_ok _ OO_PP_NULL _ _ Hr). unfold ci_tcp_rx_queue_enqueue_.
  destruct (set_next_free s _ p r OO_PP_NULL (ac_rep _ _ Hac) Hr Hfree) as [HR' Hsame].
  set (sa := set_pkts _ s) in *. assert (accounted sa st) as Haca by (by eapply accounted_same).
  destruct (rx_adjust_ok sa st ts q 1 Haca Hpe Hq Hin) as [E1 HR1]; [pose proof (rx_count_nonneg (r_q st) ts); lia|].
  does E1. destruct (enqueue_raw_ok _ (r_q st) (ts, q) l p (with_next OO_PP_NULL r) HR1 Hl H0) as (s2 & E2 & HR2 & Hs2);
    [apply lookup_insert_eq|done|done|].
  exists s2. split; [done|]. apply (rx_step_ok sa s2 st ts q l (l ++ [p])); try done.
  rewrite length_app. simpl length. by replace (Z.of_nat (length l + 1) - Z.of_nat (length l)) with 1 by lia.
Qed.

Lemma rx_dequeue_ok s st ts q p l : NoDup socks -> accounted s st -> r_pend st = None ->
  is_rx_queue q = true -> ts ∈ socks -> r_q st !! (ts, q) = Some (p :: l) ->
  exists s', r_code (RxDequeue ts q p) s = (s', Ok tt) /\ accounted s' (RState (<[(ts, q) := l]> (r_q st)) (r_est st) None).
Proof.
  intros Hnd Hac Hpe Hq Hin Hl. cbn [r_code]. unfold ci_tcp_rx_queue_dequeue.
  assert (0 <= rx_count (r_q st) ts + -1) as Hd
    by (pose proof (rx_count_change _ _ _ _ l Hq Hl); pose proof (rx_count_nonneg (<[(ts, q) := l]> (r_q st)) ts); simpl in *; lia).
  destruct (rx_adjust_ok s st ts q (-1) Hac Hpe Hq Hin Hd) as [E1 HR1].
  does E1. destruct (dequeue_ok _ (r_q st) (ts, q) p l HR1 Hl) as (s2 & E2 & HR2 & Hs2 & _).
  exists s2. split; [done|]. apply (rx_step_ok s s2 st ts q (p :: l) l); try done.
  simpl length. by replace (Z.of_nat (length l) - Z.of_nat (S (length l))) with (-1) by lia.
Qed.

Lemma begin_ok s st ts : NoDup socks -> accounted s st -> r_pend st = None -> ts ∈ socks ->
  exists s', ci_tcp_rx_buf_account_begin ts s = (s', Ok tt) /\ accounted s' (RState (r_q st) (r_est st) (Some ts)).
Proof.
  intros Hnd Hac Hpe Hin. unfold ci_tcp_rx_buf_account_begin. rewrite bind_get, (ac_locked _ _ Hac). asserts.
  rewrite (ac_pending _ _ Hac), Hpe. asserts. rewrite bind_modify.
  assert (Rep (set_pending true s) (r_q st)) as HR by (apply (rep_fields s); [done|done|apply Hac]).
  does (reserved_bufs_ok _ _ ts HR (ac_ready _ _ Hac _ Hin)). rewrite bind_get, bind_modify. simpl established. simpl endpoint_packet_reserve. simpl reserved_pktbufs.
  pose proof (ac_sum _ _ Hac) as Hs. rewrite Hpe in Hs. rewrite (ac_est _ _ Hac).
  pose proof (sum_part (reserve (r_est st) (endpoint_packet_reserve s) (r_q st)) socks ts Hnd Hin
    (fun t => proj1 (reserve_nonneg _ _ _ t (proj1 (ac_limit _ _ Hac))))) as Hle.
  eexists. split; [apply assert_ok; lia|].
  split; simpl; [by apply (rep_fields (set_pending true s))|apply Hac|apply Hac|done|by intros ? [= <-]|lia|apply Hac..].
Qed.

Lemma end_ok s st ts : NoDup socks -> accounted s st -> r_pend st = Some ts ->
  exists s', ci_tcp_rx_buf_account_end ts s = (s', Ok tt) /\ accounted s' (RState (r_q st) (r_est st) None).
Proof.
  intros Hnd Hac Hpe. pose proof (ac_pend _ _ Hac _ Hpe) as Hin. unfold ci_tcp_rx_buf_account_end. rewrite bind_get, (ac_locked _ _ Hac). asserts.
  rewrite (ac_pending _ _ Hac), Hpe. asserts. rewrite bind_modify.
  assert (Rep (set_pending false s) (r_q st)) as HR by (apply (rep_fields s); [done|done|apply Hac]).
  does (reserved_bufs_ok _ _ ts HR (ac_ready _ _ Hac _ Hin)). rewrite bind_get, bind_modify. simpl established. simpl endpoint_packet_reserve. simpl reserved_pktbufs.
  pose proof (ac_sum _ _ Hac) as Hs. rewrite Hpe in Hs. rewrite (ac_est _ _ Hac).
  destruct (ac_limit _ _ Hac) as [H0 Hmax].
  pose proof (sum_bounds (reserve (r_est st) (endpoint_packet_reserve s) (r_q st)) socks _ (fun t => reserve_nonneg _ _ _ t H0)) as Hle.
  eexists. split; [apply assert_ok; simpl; lia|].
  split; simpl; [by apply (rep_fields (set_pending false s))|apply Hac|apply Hac|done|done|lia|apply Hac..].
Qed.

Lemma set_state_ok s st ts b : NoDup socks -> accounted s st -> r_pend st = Some ts ->
  exists s', r_code (SetState ts b) s = (s', Ok tt) /\ accounted s' (RState (r_q st) (set_est ts b (r_est st)) (Some ts)).
Proof.
  intros Hnd Hac Hpe. pose proof (ac_pend _ _ Hac _ Hpe) as Hin. eexists. split; [done|].
  pose proof (ac_sum _ _ Hac) as Hs. rewrite Hpe in Hs.
  split; simpl; [apply (rep_fields s); [done|done|apply Hac]|apply Hac|by rewrite (ac_est _ _ Hac)| |by intros ? [= <-]| |apply Hac..].
  - by rewrite (ac_pending _ _ Hac), Hpe.
  - rewrite Hs. apply sum_change; [done|done|]. intros t Ht. unfold reserve, set_est. by rewrite (proj2 (Z.eqb_neq _ _) Ht).
Qed.

Lemma rqueue_ok s st o A' : NoDup socks -> accounted s st -> Forall (unaccounted (r_pend st)) (touches o) ->
  q_spec pool mem o (r_q st) = Some A' ->
  exists s', q_code o s = (s', Ok tt) /\ accounted s' (RState A' (r_est st) (r_pend st)).
Proof.
  intros Hnd Hac Htch Ho. destruct (queue_op_ok pool mem o s (r_q st) A' (ac_rep _ _ Hac) (ac_pool _ _ Hac) (ac_mem _ _ Hac) Ho) as (s' & E & HR & Hs).
  exists s'. split; [done|]. destruct Hs as (E1 & E2 & E3 & E4 & E5 & E6 & E7 & E8).
  assert (forall t, r_pend st <> Some t -> reserve (r_est st) (endpoint_packet_reserve s) A' t = reserve (r_est st) (endpoint_packet_reserve s) (r_q st) t) as Hoth.
  { intros t Ht. apply reserve_other. intros n Hn. eapply q_spec_frame; [done|]. intros Hin.
    rewrite Forall_forall in Htch. destruct (Htch _ Hin) as [H|H]; simpl in H; congruence. }
  split; simpl; rewrite ?E1, ?E2, ?E3, ?E4, ?E5, ?E6, ?E7; [done| |apply Hac..| |apply Hac|apply Hac| |apply Hac].
  - intros ts Hin. eapply ready_step; [done|]. by apply (ac_ready _ _ Hac).
  - rewrite (ac_sum _ _ Hac). pose proof (ac_pend _ _ Hac) as Hp. destruct (r_pend st) as [ts|].
    + symmetry. apply sum_change; [done|by apply Hp|]. intros t Ht. apply Hoth. congruence.
    + f_equal. symmetry. apply sum_same. intros t _. by apply Hoth.
  - etrans; [apply Hac|done].
Qed.

Lemma r_step_ok o s st st' : NoDup socks -> accounted s st -> r_spec o st = Some st' ->
  exists s', r_code o s = (s', Ok tt) /\ accounted s' st'.
Proof.
  intros Hnd Hac. destruct o as [o|ts q p|ts q p|ts|ts|ts b]; cbn [r_spec q_spec]; intros H.
  - apply guarded in H as [G H]. destruct (q_spec pool mem o (r_q st)) as [A'|] eqn:E; [|done]. simplify_eq/=. by apply rqueue_ok.
  - apply guarded in H as [(Hpe & Hq & Hin) H]. destruct (r_q st !! ((ts, q) : qid)) as [l|] eqn:E; [|done].
    cbn [mbind option_bind] in H. case_guard; [|done]. simplify_eq/=. by apply rx_enqueue_ok.
  - apply guarded in H as [(Hpe & Hq & Hin) H]. destruct (r_q st !! ((ts, q) : qid)) as [l|] eqn:E; [|done].
    cbn [mbind option_bind] in H. case_guard; [|done]. destruct l as [|p' l]; simplify_eq/=. by apply rx_dequeue_ok.
  - apply guarded in H as [(Hpe & Hin) H]. simplify_eq/=. by apply begin_ok.
  - apply guarded in H as [G H]. simplify_eq/=. by apply end_ok.
  - apply guarded in H as [G H]. simplify_eq/=. rewrite G. by apply set_state_ok.
Qed.

Fixpoint r_codes (os : list rop) : cm netif unit :=
  match os with [] => ret tt | o :: os' => r_code o ;;; r_codes os' end.

Fixpoint r_specs (os : list rop) (st : rstate) : option rstate :=
  match os with [] => Some st | o :: os' => st1 ← r_spec o st; r_specs os' st1 end.
End reserve_spec.

(** C26: the receive accounting of a stack.  Let the queues and the count of reserved
    buffers agree ([accounted]: the count is the sum, over the TCP sockets, of what an
    established one may still receive of its reserve, less the socket between [Begin] and
    [End]).  Then every sequence in which packets enter and leave receive queues through
    [__ci_tcp_rx_queue_enqueue] and [ci_tcp_rx_queue_dequeue], or, with the state of the
    socket, in any way between [ci_tcp_rx_buf_account_begin] and [_end], runs without a
    failed assertion, the one on [max_rx_packets] included when there is room for the
    reserves of all sockets, and leaves them in agreement.  Outside a section the count
    is exactly the sum.  [ci_tcp_rx_queue_drop], which ends in a function of the library, is not among
    the operations. *)
Theorem reserve_accounting_exact pool mem socks os s st st' :
  NoDup socks -> accounted pool mem socks s st -> r_specs pool mem socks os st = Some st' ->
  exists s', r_codes os s = (s', Ok tt) /\ accounted pool mem socks s' st' /\
    (r_pend st' = None -> reserved_pktbufs s' = sum (reserve (r_est st') (endpoint_packet_reserve s') (r_q st')) socks).
Proof.
  intros Hnd. revert s st. induction os as [|o os IH]; intros s st Hac; cbn [r_codes r_specs]; intros H.
  - simplify_eq. exists s. split_and!; [done|done|]. intros Hp. by rewrite (ac_sum _ _ _ _ _ Hac), Hp, Z.sub_0_r.
  - destruct (r_spec pool mem socks o st) as [st1|] eqn:E; [|done]. simpl in H.
    destruct (r_step_ok _ _ _ o s st st1 Hnd Hac E) as (s1 & E1 & Hac1). destruct (IH s1 st1 Hac1 H) as (s' & E' & R). exists s'.
    split; [by rewrite (bind_Ok _ _ _ _ _ E1)|done].
Qed.

Lemma rep_fresh s : map_Forall (fun _ q => q_head q = OO_PP_NULL /\ q_num q = 0) (queues s) -> Rep s ((fun _ => []) <$> queues s).
Proof.
  intros H. split.
  - intros qu. by rewrite lookup_fmap, fmap_is_Some.
  - intros qu l q. rewrite lookup_fmap. intros Hl Hq. rewrite Hq in Hl. simplify_eq/=. destruct (H _ _ Hq) as [Hh Hn].
    split_and!; [done|done|by left|apply NoDup_nil_2].
  - intros qu1 qu2 l1 l2 p. rewrite !lookup_fmap. destruct (queues s !! qu1); intros; simplify_eq/=. set_solver.
Qed.

(** Two sockets with empty receive queues; the first one is established. *)
Definition mem1 : netif :=
  let q := Queue OO_PP_NULL 77 0 in let k := Pkt 99 5 in
  Netif (<[0 := k]> (<[1 := k]> (<[2 := k]> (<[3 := k]> ∅))))
    (<[(7, Recv1) := q]> (<[(7, Recv2) := q]> (<[(7, Rob) := q]> (<[(8, Recv1) := q]> (<[(8, Recv2) := q]> (<[(8, Rob) := q]> ∅))))))
    (fun ts => ts =? 7) 2 false true 2 10.

Definition st1 : rstate := RState ((fun _ => []) <$> queues mem1) (fun ts => ts =? 7) None.

Definition ops1 : list rop :=
  [RxEnqueue 7 Recv1 0; RxEnqueue 7 Rob 1; RxEnqueue 7 Recv2 2; Begin 8; SetState 8 true; RQueue (OEnqueue (8, Rob) 3); End 8;
   RxDequeue 7 Rob 1; RxDequeue 7 Recv1 0].

Definition spec1 : option rstate := r_specs (dom (pkts mem1)) (dom (queues mem1)) [7; 8] ops1 st1.

Lemma accounted_mem1 : accounted (dom (pkts mem1)) (dom (queues mem1)) [7; 8] mem1 st1.
Proof.
  split; try done.
  - apply rep_fresh. apply (bool_decide_unpack _). by vm_compute.
  - intros ts Hts n Hn. rewrite !elem_of_cons in Hts. destruct Hts as [->|[->|Hts]]; [| |set_solver]; destruct n; try done; by eexists.
Qed.

Lemma reserve_accounting_exact_witness : exists st' s', spec1 = Some st' /\ r_codes ops1 mem1 = (s', Ok tt) /\
  reserved_pktbufs s' = sum (reserve (r_est st') (endpoint_packet_reserve s') (r_q st')) [7; 8] /\ reserved_pktbufs s' = 2.
Proof.
  assert (option_map r_pend spec1 = Some None) as E1 by (vm_compute; reflexivity).
  assert (reserved_pktbufs (fst (r_codes ops1 mem1)) = 2) as E2 by (vm_compute; reflexivity).
  destruct spec1 as [st'|] eqn:E; [|discriminate E1]. cbn [option_map] in E1.
  assert (NoDup [7; 8]) as Hnd by (apply (bool_decide_unpack _); vm_compute; exact I).
  destruct (reserve_accounting_exact _ _ _ ops1 mem1 st1 st' Hnd accounted_mem1 E) as (s' & Hc & _ & Hs).
  exists st', s'. rewrite Hc in E2. split; [reflexivity|]. split; [exact Hc|]. split; [|exact E2]. apply Hs. congruence.
Defined.
