(* ===== verification/Rely.v ===== *)
(** * Rely: proof outlines for threads on shared memory

    For lock-free code whose operations go on after they took effect, or rely on what
    they have read before: the programs of [Atomic], with an auxiliary history in the
    memory to which an operation appends its result in the action that makes it take
    effect.  Each action has an assertion before it that the other threads keep
    ([stable]); what a thread may do to the others is its guarantee.  [outlines_sound]
    then gives, for every interleaving of any number of threads: the invariant holds, no
    assertion of the code fails, and the results the calls have returned are, thread by
    thread, those of the history. *)

From Stdlib Require Import ZArith Lia.
From stdpp Require Import gmap relations.
From S2P Require Import Prelude Atomic.

Section Rely.
Context {S O B : Type}.

(** The program of an operation, and of the loop in it to which [Ret None] goes (the whole
    operation, where it is one loop); the history in the memory, what callers owe, and the
    states up to which runs are considered. *)
Context (code loop : nat -> O -> act S (option B)) (hist : S -> list (nat * O * B)).
Context (allowed : S -> nat -> O -> Prop) (within : S -> Prop).

Record rconf := RConf { shared : S; threads : gmap nat (O * act S (option B)); outs : list (nat * O * B) }.

Definition again (t : nat) (o : O) (p : act S (option B)) : act S (option B) :=
  match p with Ret None => loop t o | _ => p end.

Inductive rstep : rconf -> rconf -> Prop :=
  | rstep_call c t o : threads c !! t = None -> allowed (shared c) t o ->
      rstep c (RConf (shared c) (<[t := (o, code t o)]> (threads c)) (outs c))
  | rstep_do c t o f k : threads c !! t = Some (o, Do f k) -> within (fst (f (shared c))) ->
      rstep c (RConf (fst (f (shared c))) (<[t := (o, again t o (k (snd (f (shared c)))))]> (threads c)) (outs c))
  | rstep_return c t o b : threads c !! t = Some (o, Ret (Some b)) ->
      rstep c (RConf (shared c) (delete t (threads c)) (outs c ++ [(t, o, b)])).

(** The events of one thread. *)
Definition of_thread (t : nat) (l : list (nat * O * B)) : list (nat * O * B) := filter (fun e => fst (fst e) = t) l.

(** The invariant, what a thread may do to the others, what holds when a call starts and,
    for a call that started when the events of the thread were [h], before each round of
    its loop; and what a thread leaves behind when a call returns. *)
Context (I : S -> Prop) (guar : nat -> S -> S -> Prop) (pre : nat -> O -> S -> Prop).
Context (linv : nat -> O -> list (nat * O * B) -> S -> Prop) (idle : nat -> S -> Prop).

Definition stable (t : nat) (P : S -> Prop) : Prop :=
  forall t' s s', t' <> t -> I s -> I s' -> guar t' s s' -> P s -> P s'.

(** [P] holds before [p] runs, in a call that started when the events of the thread
    were [h]. *)
Fixpoint outline (t : nat) (o : O) (h : list (nat * O * B)) (p : act S (option B)) (P : S -> Prop) : Prop :=
  stable t P /\
  match p with
  | Ret None => forall s, I s -> P s -> linv t o h s
  | Ret (Some b) => forall s, I s -> P s -> of_thread t (hist s) = h ++ [(t, o, b)] /\ idle t s
  | Fail => forall s, I s -> P s -> False
  | Do f k => forall s, I s -> P s -> within (fst (f s)) ->
      I (fst (f s)) /\ guar t s (fst (f s)) /\ exists P', P' (fst (f s)) /\ outline t o h (k (snd (f s))) P'
  end.

Definition start (t : nat) (o : O) (h : list (nat * O * B)) (s : S) : Prop := of_thread t (hist s) = h /\ pre t o s.

(** ** Rules *)

Lemma outline_ret t o h b P : stable t P -> (forall s, I s -> P s -> of_thread t (hist s) = h ++ [(t, o, b)] /\ idle t s) ->
  outline t o h (Ret (Some b)) P.
Proof. done. Qed.

Lemma outline_again t o h P : stable t P -> (forall s, I s -> P s -> linv t o h s) -> outline t o h (Ret None) P.
Proof. done. Qed.

Lemma outline_do t o h f k P : stable t P ->
  (forall s, I s -> P s -> within (fst (f s)) ->
    I (fst (f s)) /\ guar t s (fst (f s)) /\ exists P', P' (fst (f s)) /\ outline t o h (k (snd (f s))) P') ->
  outline t o h (Do f k) P.
Proof. done. Qed.

Context (guar_refl : forall t s, guar t s s).

(** A read tells something about the memory it is made in. *)
Lemma outline_read t o h get k P : stable t P ->
  (forall s, I s -> P s -> exists P', P' s /\ outline t o h (k (get s)) P') -> outline t o h (abind (aread get) k) P.
Proof. intros Hst H. apply outline_do; [done|]. intros s HI HP _. simpl. split; [done|]. split; [done|]. by apply H. Qed.

Lemma outline_load t o h get k P : stable t P ->
  (forall s, I s -> P s -> exists P', P' s /\ outline t o h (k (get s)) P') -> outline t o h (Do (fun s => (s, get s)) k) P.
Proof. intros Hst H. by apply outline_read. Qed.

Lemma outline_store t o h f k P : stable t P ->
  (forall s, I s -> P s -> within (f s) -> I (f s) /\ guar t s (f s) /\ exists P', P' (f s) /\ outline t o h (k 0) P') ->
  outline t o h (Do (fun s => (f s, 0)) k) P.
Proof. intros Hst H. apply outline_do; [done|]. done. Qed.

Lemma outline_weaken t o h p (P P' : S -> Prop) : stable t P -> (forall s, I s -> P s -> P' s) -> outline t o h p P' -> outline t o h p P.
Proof. intros Hst H Hp. destruct p as [[b|]|f k|]; destruct Hp as [_ Hp]; split; try done; intros s HI HP; by specialize (Hp s HI (H s HI HP)). Qed.

(** A call that is not allowed. *)
Lemma outline_false t o h p (P : S -> Prop) : (forall s, P s -> False) -> outline t o h p P.
Proof.
  intros H. assert (stable t P) as Hst by (intros t' s s' _ _ _ _ HP; by destruct (H s)).
  destruct p as [[b|]|f k|]; split; try done; intros s _ HP; by destruct (H s).
Qed.

Lemma outline_assert t o h b p P : stable t P -> (forall s, I s -> P s -> b = true) -> outline t o h p P ->
  outline t o h (aassert b p) P.
Proof. intros Hst Hb Hp. destruct b; [done|]. split; [done|]. intros s HI HP. by specialize (Hb s HI HP). Qed.

(** ** Parts of a program

    [triple t p P Q]: the part [p] of an operation of thread [t] starts with [P] and ends
    with [Q] of its value. *)
Fixpoint triple {A} (t : nat) (p : act S A) (P : S -> Prop) (Q : A -> S -> Prop) : Prop :=
  stable t P /\
  match p with
  | Ret a => forall s, I s -> P s -> Q a s
  | Fail => forall s, I s -> P s -> False
  | Do f k => forall s, I s -> P s -> within (fst (f s)) ->
      I (fst (f s)) /\ guar t s (fst (f s)) /\ exists P', P' (fst (f s)) /\ triple t (k (snd (f s))) P' Q
  end.

Lemma triple_stable {A} t (p : act S A) P Q : triple t p P Q -> stable t P.
Proof. destruct p; by intros [H _]. Qed.

Lemma triple_ret {A} t (a : A) P Q : stable t P -> (forall s, I s -> P s -> Q a s) -> triple t (Ret a) P Q.
Proof. done. Qed.

Lemma triple_weaken {A} t (p : act S A) (P P' : S -> Prop) Q Q' : stable t P -> (forall s, I s -> P s -> P' s) ->
  (forall a s, I s -> Q' a s -> Q a s) -> triple t p P' Q' -> triple t p P Q.
Proof.
  intros Hst HP HQ. revert P P' Hst HP. induction p as [a|f k IH|]; intros P P' Hst HP [_ H]; split; try done; simpl.
  - intros s HI Hs. auto.
  - intros s HI Hs Hw. destruct (H s HI (HP s HI Hs) Hw) as (HI' & Hg & P2 & H2 & Hk). split; [done|]. split; [done|]. exists P2. split; [done|].
    apply (IH _ P2 P2); [by eapply triple_stable|done|done].
  - intros s HI Hs. by apply (H s HI (HP s HI Hs)).
Qed.

Lemma triple_bind {A B'} t (p : act S A) (k : A -> act S B') P Q R :
  triple t p P Q -> (forall a, triple t (k a) (Q a) R) -> triple t (abind p k) P R.
Proof.
  intros Hp Hk. revert P Hp. induction p as [a|f h IH|]; intros P Hp; simpl.
  - destruct Hp as [Hst H]. by apply (triple_weaken _ _ _ (Q a) _ R); [|apply H| |].
  - destruct Hp as [Hst H]. split; [done|]. intros s HI Hs Hw. destruct (H s HI Hs Hw) as (HI' & Hg & P2 & H2 & H3). eauto 6.
  - done.
Qed.

(** A read, with what it tells about the memory it is made in. *)
Lemma triple_read {A} t get (k : Z -> act S A) P Q : stable t P ->
  (forall s, I s -> P s -> within s -> exists P', P' s /\ triple t (k (get s)) P' Q) -> triple t (abind (aread get) k) P Q.
Proof. intros Hst H. split; [done|]. intros s HI HP Hw. split; [done|]. split; [done|]. by apply H. Qed.

Lemma triple_assert {A} t b (p : act S A) P Q : b = true -> triple t p P Q -> triple t (aassert b p) P Q.
Proof. by intros ->. Qed.

(** What the invariant and the assertion say together can be assumed. *)
Lemma triple_pure {A} t (p : act S A) P Q (phi : Prop) `{!Decision phi} : stable t P -> (forall s, I s -> P s -> phi) ->
  (phi -> triple t p P Q) -> triple t p P Q.
Proof.
  intros Hst H Hp. destruct (decide phi) as [Hphi|Hn]; [auto|]. assert (forall s, I s -> P s -> False) as Hf by eauto.
  destruct p; (split; [done|]); intros s HI HP; by destruct (Hf s).
Qed.

Lemma triple_do {A} t f (k : Z -> act S A) P Q : stable t P ->
  (forall s, I s -> P s -> within (fst (f s)) ->
    I (fst (f s)) /\ guar t s (fst (f s)) /\ exists P', P' (fst (f s)) /\ triple t (k (snd (f s))) P' Q) ->
  triple t (Do f k) P Q.
Proof. done. Qed.

(** What no thread destroys holds afterwards too. *)
Lemma triple_frame {A} t (p : act S A) P Q (F : S -> Prop) : (forall t' s s', guar t' s s' -> F s -> F s') ->
  triple t p P Q -> triple t p (fun s => P s /\ F s) (fun a s => Q a s /\ F s).
Proof.
  intros HF. assert (forall P, stable t P -> stable t (fun s => P s /\ F s)) as Hst.
  { intros P0 H t' s s' H1 H2 H3 H4 [HP Hf]. split; [by apply (H t' s s')|by apply (HF t' s)]. }
  revert P. induction p as [a|f k IH|]; intros P [H0 H]; split; auto; intros s HI [HP Hs].
  - auto.
  - intros Hw. destruct (H s HI HP Hw) as (HI' & Hg & P2 & H2 & Hk). split; [done|]. split; [done|]. exists (fun s => P2 s /\ F s). split; [|by apply IH].
    split; [done|by apply (HF t s)].
  - by apply (H s).
Qed.

(** The whole operation is a part and what follows it. *)
Lemma outline_bind {A} t o h (p : act S A) k P Q :
  triple t p P Q -> (forall a, outline t o h (k a) (Q a)) -> outline t o h (abind p k) P.
Proof.
  intros Hp Hk. revert P Hp. induction p as [a|f g IH|]; intros P Hp; simpl.
  - destruct Hp as [Hst H]. by apply (outline_weaken _ _ _ _ _ (Q a)).
  - destruct Hp as [Hst H]. split; [done|]. intros s HI Hs Hw. destruct (H s HI Hs Hw) as (HI' & Hg & P2 & H2 & H3). eauto 6.
  - done.
Qed.

(** ** Soundness *)

Context (Hcode : forall t o h, outline t o h (code t o) (start t o h)).
Context (Hloop : forall t o h, outline t o h (loop t o) (linv t o h)).
Context (Hcall : forall s t o, I s -> idle t s -> allowed s t o -> pre t o s).
Context (Hidle : forall t, stable t (idle t)).
Context (Hpre : forall t o, stable t (pre t o)).
Context (Hhist : forall t s s', guar t s s' -> forall t', t' <> t -> of_thread t' (hist s') = of_thread t' (hist s)).
Context (Hstart : forall t o, code t o <> Ret None) (Hround : forall t o, loop t o <> Ret None).

Definition good (c : rconf) : Prop :=
  I (shared c) /\
  (forall t, threads c !! t = None -> of_thread t (hist (shared c)) = of_thread t (outs c) /\ idle t (shared c)) /\
  (forall t o p, threads c !! t = Some (o, p) -> p <> Ret None /\ exists P, P (shared c) /\ outline t o (of_thread t (outs c)) p P).

Lemma of_thread_app t l l' : of_thread t (l ++ l') = of_thread t l ++ of_thread t l'.
Proof. apply filter_app. Qed.

Lemma of_thread_mine t o b : of_thread t [(t, o, b)] = [(t, o, b)].
Proof. unfold of_thread. by rewrite filter_cons_True. Qed.

Lemma of_thread_other t t' o b : t' <> t -> of_thread t' [(t, o, b)] = [].
Proof. intros H. unfold of_thread. by rewrite filter_cons_False. Qed.

Lemma outline_stable t o h p P : outline t o h p P -> stable t P.
Proof. destruct p as [[b|]| |]; by intros [H _]. Qed.

Lemma stable_start t o h : stable t (start t o h).
Proof.
  intros t' s s' Hne HI HI' Hg [Hh Hp]. split; [|by apply (Hpre t o t' s s')]. rewrite <- Hh. by apply (Hhist t').
Qed.

Lemma good_step c c' : good c -> rstep c c' -> good c'.
Proof.
  intros (HI & Hfree & Hrun) Hstep. destruct Hstep as [c t o Hn Ha|c t o f k Hp Hw|c t o b Hp].
  - split; [done|]. split; intros t'; simpl.
    + rewrite lookup_insert. case_decide; [done|]. apply Hfree.
    + intros o' p'. rewrite lookup_insert. case_decide as E; [|by apply Hrun]. intros [= <- <-]. subst t'. split; [apply Hstart|].
      exists (start t o (of_thread t (outs c))). split; [|apply Hcode]. destruct (Hfree t Hn) as [Hh Hi]. split; [done|by apply Hcall].
  - destruct (Hrun t o _ Hp) as (_ & P & HP & _ & HD). destruct (HD _ HI HP Hw) as (HI' & Hg & P' & HP' & Hk).
    split; [done|]. split; intros t'; simpl.
    + rewrite lookup_insert. case_decide as E; [done|]. intros Ht'. rewrite (Hhist t _ _ Hg) by done. destruct (Hfree t' Ht') as [Hh Hi].
      split; [done|]. by apply (Hidle t' t (shared c)).
    + intros o' p'. rewrite lookup_insert. case_decide as E.
      * intros [= <- <-]. subst t'. unfold again. destruct (k (snd (f (shared c)))) as [[b|]|f' k'|] eqn:Ek; try (split; [done|]; by exists P').
        split; [apply Hround|]. exists (linv t o (of_thread t (outs c))). split; [|apply Hloop]. by apply (proj2 Hk).
      * intros Ht'. destruct (Hrun t' o' p' Ht') as (Hne & P2 & HP2 & Ho2). split; [done|]. exists P2. split; [|done].
        apply (outline_stable _ _ _ _ _ Ho2 t (shared c)); [congruence|done..].
  - destruct (Hrun t o _ Hp) as (_ & P & HP & _ & HD). destruct (HD _ HI HP) as [Hh Hi]. split; [done|]. split; intros t'; simpl.
    + rewrite lookup_delete, of_thread_app. case_decide as E.
      * subst t'. intros _. by rewrite of_thread_mine.
      * intros Ht'. rewrite of_thread_other, app_nil_r by done. by apply Hfree.
    + intros o' p'. rewrite lookup_delete. case_decide as E; [done|]. intros Ht'. destruct (Hrun t' o' p' Ht') as (Hne & P2 & HP2 & Ho2).
      split; [done|]. exists P2. split; [done|]. by rewrite of_thread_app, of_thread_other, app_nil_r by done.
Qed.

Lemma outlines_sound s0 c : I s0 -> hist s0 = [] -> (forall t, idle t s0) -> rtc rstep (RConf s0 ∅ []) c -> good c.
Proof.
  intros HI Hh Hi Hs. assert (good (RConf s0 ∅ [])) as H0.
  { split; [done|]. split; intros t; simpl; [by rewrite Hh; split; [|apply Hi]|]. intros o p. by rewrite lookup_empty. }
  revert H0. induction Hs as [|c1 c2 c3 H12 _ IH]; [done|]. intros H1. apply IH. by eapply good_step.
Qed.

(** What a run shows of the code. *)
Lemma good_facts c : good c -> I (shared c) /\
  (forall t o, threads c !! t <> Some (o, Fail)) /\
  (forall t, threads c !! t = None -> of_thread t (hist (shared c)) = of_thread t (outs c)) /\
  (forall t o b, threads c !! t = Some (o, Ret (Some b)) -> of_thread t (hist (shared c)) = of_thread t (outs c) ++ [(t, o, b)]).
Proof.
  intros (HI & Hfree & Hrun). split; [done|]. split; [|split; [intros t Ht; by apply Hfree|]].
  - intros t o E. destruct (Hrun t o _ E) as (_ & P & HP & _ & HD). by apply (HD _ HI HP).
  - intros t o b E. destruct (Hrun t o _ E) as (_ & P & HP & _ & HD). by apply (HD _ HI HP).
Qed.

(** ** Schedules *)

Context (allowed_b : S -> nat -> O -> bool) (within_b : S -> bool).
Context (Hallowed : forall s t o, allowed_b s t o = true -> allowed s t o) (Hwithin : forall s, within_b s = true -> within s).

Definition rexec_cmd (c : rconf) (m : cmd) : option rconf :=
  match m with
  | Call t o =>
      match threads c !! t with
      | None => if allowed_b (shared c) t o then Some (RConf (shared c) (<[t := (o, code t o)]> (threads c)) (outs c)) else None
      | Some _ => None
      end
  | Act t =>
      match threads c !! t with
      | Some (o, Do f k) =>
          if within_b (fst (f (shared c))) then
            Some (RConf (fst (f (shared c))) (<[t := (o, again t o (k (snd (f (shared c)))))]> (threads c)) (outs c))
          else None
      | _ => None
      end
  | Return t =>
      match threads c !! t with
      | Some (o, Ret (Some b)) => Some (RConf (shared c) (delete t (threads c)) (outs c ++ [(t, o, b)]))
      | _ => None
      end
  end.

Fixpoint rexec (c : rconf) (ms : list cmd) : option rconf :=
  match ms with [] => Some c | m :: ms' => c' ← rexec_cmd c m; rexec c' ms' end.

Lemma rexec_steps c ms c' : rexec c ms = Some c' -> rtc rstep c c'.
Proof.
  revert c. induction ms as [|m ms IH]; intros c; simpl; [by intros [= <-]; apply rtc_refl|].
  destruct (rexec_cmd c m) as [c1|] eqn:E; simpl; [|done]. intros H. eapply rtc_l; [|by apply IH].
  destruct m as [t o|t|t]; simpl in E.
  - destruct (threads c !! t) eqn:Et; [done|]. destruct (allowed_b (shared c) t o) eqn:Ea; [|done]. simplify_eq. apply rstep_call; [done|by apply Hallowed].
  - destruct (threads c !! t) as [[o [?|f k|]]|] eqn:Et; try done. destruct (within_b _) eqn:Ew; [|done]. simplify_eq.
    apply rstep_do; [done|by apply Hwithin].
  - destruct (threads c !! t) as [[o [[b|]|f k|]]|] eqn:Et; try done. simplify_eq. by eapply rstep_return.
Qed.

End Rely.
