(* ===== verification/Chain.v ===== *)
(** * Chain: lists linked through a field

    Packets and sockets are linked by their identifiers: a field of each holds the next
    one's, [-1] at the end.  [follows] says that a list is linked this way, with the
    lemmas the queues share. *)

From Stdlib Require Import ZArith Lia.
From stdpp Require Import base list sets.
From S2P Require Import Prelude PktQueue.

Definition put (f : Z -> Z) (p v : Z) : Z -> Z := fun q => if q =? p then v else f q.

Definition first (l : list Z) : Z := match l with [] => OO_PP_NULL | p :: _ => p end.

(** The packets [l] follow one another from [h], and the last one's link is null. *)
Fixpoint follows (nx : Z -> Z) (h : Z) (l : list Z) : Prop :=
  match l with [] => h = OO_PP_NULL | p :: l' => h = p /\ 0 <= p /\ follows nx (nx p) l' end.

Lemma follows_unique nx l : forall h l', follows nx h l -> follows nx h l' -> l' = l.
Proof.
  induction l as [|p l IH]; intros h [|q l']; simpl; unfold OO_PP_NULL; [done|lia|lia|].
  intros (-> & Hp & H1) (-> & _ & H2). f_equal. by eapply IH.
Qed.

Lemma follows_ext nx nx' h l : (forall p, p ∈ l -> nx' p = nx p) -> follows nx h l -> follows nx' h l.
Proof.
  revert h. induction l as [|p l IH]; intros h Hx; simpl; [done|]. intros (-> & Hp & H). split_and!; [done|done|]. rewrite Hx by set_solver.
  apply IH; [set_solver|done].
Qed.

Lemma follows_first nx h l : follows nx h l -> h = first l.
Proof. destruct l; simpl; [done|]. by intros [-> _]. Qed.

Lemma follows_drop nx h l1 l2 : follows nx h (l1 ++ l2) -> follows nx (first l2) l2.
Proof.
  revert h. induction l1 as [|p l1 IH]; intros h; simpl.
  - intros H. by rewrite (follows_first _ _ _ H) in H.
  - intros (_ & _ & H). by eapply IH.
Qed.

Lemma follows_link nx h l p q : follows nx h (l ++ [p]) -> NoDup (l ++ [p]) -> q ∉ l ++ [p] -> 0 <= q -> nx q = OO_PP_NULL ->
  follows (put nx p q) h ((l ++ [p]) ++ [q]).
Proof.
  revert h. induction l as [|a l IH]; intros h; simpl.
  - intros (-> & Hp & _) _ Hq Hq0 Hn. do 2 (split; [done|]). assert (put nx p q p = q) as -> by (unfold put; by rewrite Z.eqb_refl). do 2 (split; [done|]).
    unfold put. rewrite (proj2 (Z.eqb_neq q p)); [done|]. set_solver.
  - intros (-> & Ha & H) [Hal Hnd]%NoDup_cons Hq Hq0 Hn. do 2 (split; [done|]). assert (a <> p) as Hap by set_solver.
    assert (put nx p q a = nx a) as -> by (unfold put; by rewrite (proj2 (Z.eqb_neq a p) Hap)). apply IH; [done|done|set_solver|done|done].
Qed.

Lemma follows_last nx h l p : follows nx h (l ++ [p]) -> nx p = OO_PP_NULL.
Proof. revert h. induction l as [|q l IH]; intros h; simpl; [by intros (_ & _ & ->)|]. intros (_ & _ & H). by eapply IH. Qed.

Lemma first_app l1 l2 : l1 <> [] -> first (l1 ++ l2) = first l1.
Proof. by destruct l1. Qed.

Lemma first_null l : (forall p, p ∈ l -> 0 <= p) -> first l = OO_PP_NULL -> l = [].
Proof. destruct l as [|p l]; [done|]. intros H E. specialize (H p ltac:(set_solver)). simpl in E. unfold OO_PP_NULL in E. lia. Qed.

Lemma first_in l : l <> [] -> first l ∈ l.
Proof. destruct l; [done|]. set_solver. Qed.

Lemma put_eq f p v : put f p v p = v.
Proof. unfold put. by rewrite Z.eqb_refl. Qed.

Lemma put_ne f p v q : q <> p -> put f p v q = f q.
Proof. intros H. unfold put. by rewrite (proj2 (Z.eqb_neq q p)). Qed.

(** Changing the field of something that is not in the list. *)
Lemma follows_put nx p v h l : p ∉ l -> follows nx h l -> follows (put nx p v) h l.
Proof. intros Hp. apply follows_ext. intros q Hq. apply put_ne. set_solver. Qed.

(** The head of a list that starts at an identifier. *)
Lemma follows_inv nx h l : 0 <= h -> follows nx h l -> exists l', l = h :: l' /\ follows nx (nx h) l'.
Proof. intros Hh. destruct l as [|p l]; simpl; [unfold OO_PP_NULL; lia|]. intros (-> & _ & H). by exists l. Qed.

Lemma follows_end nx h l : h < 0 -> follows nx h l -> l = [] /\ h = OO_PP_NULL.
Proof. intros Hh. destruct l as [|p l]; simpl; [done|]. lia. Qed.
