(* ===== verification/NonbPool.v ===== *)
(** * NonbPool: the pool of packets that threads share without a lock
      ([ci/internal/ip.h], [ci_netif_pkt_alloc_nonb], [ci_netif_pkt_free_nonb_list])

    The pool is a stack of packets, linked by their [next] fields; one word of 64 bits
    holds the first packet in its lower half and, in its upper half, a counter of the
    lists that were given back.  A thread takes a packet with a compare-and-swap after
    reading its link: between the two, others may have taken the packet, used it and
    given it back.  The theorem shows that the counter makes this harmless. *)

From Stdlib Require Import ZArith Lia Bool.
From stdpp Require Import gmap relations.
From S2P Require Import Prelude Bytes PktQueue Atomic Rely.

(** What threads do with packets: take one, give a list back, and write the link or
    the reference count of one they hold. *)
Inductive pop := OAlloc | OFree (l : list Z) | OSetNext (p v : Z) | OSetRef (p v : Z).

Abbreviation pevent := (nat * pop * Z)%type.

(** The shared memory: the word of the pool, the links and the reference counts of the
    packets.  [history] is auxiliary: the code does not read it. *)
Record pool := Pool { nonb_pkt_pool : Z; next : Z -> Z; refcount : Z -> Z; history : list pevent }.

Definition upd (f : Z -> Z) (p v : Z) : Z -> Z := fun q => if q =? p then v else f q.
Definition set_pool (v : Z) (s : pool) : pool := Pool v (next s) (refcount s) (history s).
Definition set_next (p v : Z) (s : pool) : pool := Pool (nonb_pkt_pool s) (upd (next s) p v) (refcount s) (history s).
Definition set_refcount (p v : Z) (s : pool) : pool := Pool (nonb_pkt_pool s) (next s) (upd (refcount s) p v) (history s).
Definition record (e : pevent) (s : pool) : pool := Pool (nonb_pkt_pool s) (next s) (refcount s) (history s ++ [e]).

Definition low (link : Z) : Z := Z.land link 0xffffffff.
Definition high (link : Z) : Z := Z.land link 0xffffffff00000000.

Definition ci_netif_pkt_nonb_pool_is_empty (s : pool) : bool := low (nonb_pkt_pool s) =? 0xffffffff.
Definition ci_netif_pkt_nonb_pool_not_empty (s : pool) : bool := negb (low (nonb_pkt_pool s) =? 0xffffffff).

Section Code.
(** The number of packets of the stack: [PKT] of an identifier outside is not defined. *)
Variable n_pkts : Z.

Definition PKT {A} (pp : Z) (k : act pool A) : act pool A := aassert ((0 <=? pp) && (pp <? n_pkts)) k.

(** [ci_cas64u_fail], negated; a successful swap makes the operation take effect. *)
Definition cas_pool (old new : Z) (e : pevent) : act pool Z :=
  Do (fun s => if nonb_pkt_pool s =? old then (record e (set_pool new s), 1) else (s, 0)) Ret.

(** The loads of the pool word: an empty pool is what [alloc] returns. *)
Definition load_pool (t : nat) : act pool Z :=
  Do (fun s => (if low (nonb_pkt_pool s) =? 0xffffffff then record (t, OAlloc, OO_PP_NULL) s else s, nonb_pkt_pool s)) Ret.

(** The packet, or [OO_PP_NULL] for the null pointer. *)
Definition ci_netif_pkt_alloc_nonb (t : nat) : act pool (option Z) :=
  alet link := load_pool t in
  let id := low link in
  if id =? 0xffffffff then Ret (Some OO_PP_NULL)
  else
    let pp := i32 id in
    PKT pp (
      alet nx := aread (fun s => next s pp) in
      let new_link := Z.lor (u32 nx) (high link) in
      alet ok := cas_pool link new_link (t, OAlloc, pp) in
      if ok =? 0 then Ret None
      else
        alet rc := aread (fun s => refcount s pp) in
        aassert (rc =? 0) (
          alet _x := awrite (set_refcount pp 1) in
          Ret (Some pp))).

(** [l] is the list whose first packet is [pkt_list] and whose last is [tail]. *)
Definition ci_netif_pkt_free_nonb_list (t : nat) (l : list Z) (pkt_list tail : Z) : act pool (option Z) :=
  alet rc := aread (fun s => refcount s tail) in
  aassert (rc =? 0) (
    alet link := aread nonb_pkt_pool in
    alet _x := awrite (set_next tail (i32 (low link))) in
    let new_link := Z.lor (u32 pkt_list) (high (u64 (link + 0x0000000100000000))) in
    alet ok := cas_pool link new_link (t, OFree l, 0) in
    if ok =? 0 then Ret None else Ret (Some 0)).

Definition pool_code (t : nat) (o : pop) : act pool (option Z) :=
  match o with
  | OAlloc => ci_netif_pkt_alloc_nonb t
  | OFree l => ci_netif_pkt_free_nonb_list t l (default OO_PP_NULL (head l)) (default OO_PP_NULL (last l))
  | OSetNext p v => alet _x := awrite (fun s => record (t, o, 0) (set_next p v s)) in Ret (Some 0)
  | OSetRef p v => alet _x := awrite (fun s => record (t, o, 0) (set_refcount p v s)) in Ret (Some 0)
  end.

(** ** What the operations do *)

(** The packets in the pool, who holds the others, and how many lists were given back. *)
Record ghost := Ghost { stk : list Z; own : gmap Z nat; pushes : Z }.

Definition pool_spec (g : ghost) (e : pevent) : option ghost :=
  let '(t, o, b) := e in
  match o with
  | OAlloc =>
      match stk g with
      | [] => guard (b = OO_PP_NULL) ;; Some g
      | p :: l => guard (b = p) ;; Some (Ghost l (<[p := t]> (own g)) (pushes g))
      end
  | OFree l => guard (NoDup l /\ Forall (fun p => own g !! p = Some t) l) ;;
      Some (Ghost (l ++ stk g) (foldr delete (own g) l) (pushes g + 1))
  | OSetNext p _ | OSetRef p _ => guard (own g !! p = Some t) ;; Some g
  end.

#[local] Arguments pool_spec : simpl never.

Fixpoint replay (g : ghost) (l : list pevent) : option ghost :=
  match l with [] => Some g | e :: l' => g' ← pool_spec g e; replay g' l' end.

(** The packets [l] follow one another from [h], and the last one's link is null. *)
Fixpoint chain (nx : Z -> Z) (h : Z) (l : list Z) : Prop :=
  match l with [] => h = OO_PP_NULL | p :: l' => h = p /\ chain nx (nx p) l' end.

(** Consecutive packets of a list are linked. *)
Fixpoint linked (nx : Z -> Z) (l : list Z) : Prop :=
  match l with
  | p :: l' => match l' with q :: _ => nx p = q /\ linked nx l' | [] => True end
  | [] => True
  end.

Context (g0 : ghost) (v0 : Z).

Definition view (s : pool) : option ghost := replay g0 (history s).

(** The memory holds the ghost state; [v0] is the counter at first. *)
Record holds (g : ghost) (s : pool) : Prop := {
  h_chain : exists h, chain (next s) h (stk g) /\ nonb_pkt_pool s = u32 h + 2 ^ 32 * ((v0 + pushes g) mod 2 ^ 32);
  h_nodup : NoDup (stk g);
  h_free : forall p, p ∈ stk g -> own g !! p = None /\ refcount s p = 0 /\ 0 <= p < n_pkts;
  h_own : forall p t, own g !! p = Some t -> 0 <= p < n_pkts;
  h_pushes : 0 <= pushes g }.

Definition pool_inv (s : pool) : Prop := exists g, view s = Some g /\ holds g s.

(** What the caller of an operation owes: to hold the packets, and for a list that it is
    linked and its counts are 0. *)
Definition pool_pre (t : nat) (o : pop) (s : pool) : Prop :=
  match o with
  | OAlloc => True
  | OFree l => l <> [] /\ NoDup l /\ linked (next s) l /\
      exists g, view s = Some g /\ forall p, p ∈ l -> own g !! p = Some t /\ refcount s p = 0
  | OSetNext p _ | OSetRef p _ => exists g, view s = Some g /\ own g !! p = Some t
  end.

(** Fewer than [2^32] lists have been given back. *)
Definition pool_within (s : pool) : Prop := forall g, view s = Some g -> pushes g < 2 ^ 32.

(** What a thread does to the others: it leaves the packets it does not hold alone, takes
    the first packet of the pool or gives back a list, and touches no other holding. *)
Definition pool_guar (t : nat) (s s' : pool) : Prop :=
  (exists e, history s' = history s ++ e /\ Forall (fun x => fst (fst x) = t) e) /\
  forall g, view s = Some g -> exists g', view s' = Some g' /\
    (forall p, own g !! p <> Some t -> next s' p = next s p /\ refcount s' p = refcount s p) /\
    (forall p t', t' <> t -> own g !! p = Some t' -> own g' !! p = Some t') /\
    ((pushes g' = pushes g /\ (stk g' = stk g \/ exists p, stk g = p :: stk g')) \/ pushes g' = pushes g + 1).

(** ** The word of the pool *)

Definition pool_word (h v : Z) : Z := u32 h + 2 ^ 32 * v.

Lemma u32_range z : 0 <= u32 z < 2 ^ 32.
Proof. unfold wrap. apply Z.mod_pos_bound. lia. Qed.

Lemma low_word h v : low (pool_word h v) = u32 h.
Proof.
  unfold low, pool_word. change 0xffffffff with (Z.ones 32). rewrite Z.land_ones by lia. rewrite Z.mul_comm, Z.mod_add by lia.
  apply Z.mod_small, u32_range.
Qed.

Lemma high_word h v : 0 <= v < 2 ^ 32 -> high (pool_word h v) = Z.shiftl v 32.
Proof.
  intros Hv. unfold high. change 0xffffffff00000000 with (Z.shiftl (Z.ones 32) 32).
  unfold pool_word. rewrite Z.add_comm, Z.mul_comm, <- lor_shiftl_add by (lia || apply u32_range).
  rewrite Z.land_lor_distr_l, (Z.land_comm (u32 h)), (land_shiftl_low (Z.ones 32) (u32 h) 32) by (lia || apply u32_range).
  rewrite Z.lor_0_r, <- Z.shiftl_land, Z.land_ones by lia. by rewrite Z.mod_small by lia.
Qed.

Lemma pool_word_lor nx v : 0 <= v < 2 ^ 32 -> Z.lor (u32 nx) (Z.shiftl v 32) = pool_word nx v.
Proof. intros Hv. rewrite Z.lor_comm, lor_shiftl_add by (lia || apply u32_range). unfold pool_word. lia. Qed.

Lemma word_next h v : 0 <= v < 2 ^ 32 -> u64 (pool_word h v + 0x0000000100000000) = pool_word h ((v + 1) mod 2 ^ 32).
Proof.
  intros Hv. unfold pool_word, wrap. pose proof (u32_range h) as Hh. unfold wrap in Hh.
  replace (h mod 2 ^ 32 + 2 ^ 32 * v + 0x0000000100000000) with (h mod 2 ^ 32 + 2 ^ 32 * (v + 1)) by lia.
  change (2 ^ 64) with (2 ^ 32 * 2 ^ 32). rewrite Z.rem_mul_r by lia.
  rewrite (Z.mul_comm (2 ^ 32) (v + 1)), Z.mod_add, Z.div_add by lia. rewrite (Z.div_small (h mod 2 ^ 32)), Z.add_0_l by lia.
  by rewrite Z.mod_mod by lia.
Qed.

Lemma word_inj h v h' v' : pool_word h v = pool_word h' v' -> u32 h = u32 h' /\ v = v'.
Proof. unfold pool_word. pose proof (u32_range h). pose proof (u32_range h'). lia. Qed.

(** An identifier of a packet, or none. *)
Definition id_ok (h : Z) : Prop := h = OO_PP_NULL \/ 0 <= h < 2 ^ 31.

Lemma u32_id h h' : id_ok h -> id_ok h' -> u32 h = u32 h' -> h = h'.
Proof.
  unfold id_ok, OO_PP_NULL, wrap. assert (-1 mod 2 ^ 32 = 2 ^ 32 - 1) as Hm by done.
  intros [->|H] [->|H'] E; try done; rewrite ?Hm, ?(Z.mod_small h), ?(Z.mod_small h') in E by lia; lia.
Qed.

Lemma i32_u32 h : id_ok h -> i32 (u32 h) = h.
Proof.
  intros [->|H]; [done|]. unfold swrap, wrap. rewrite !(Z.mod_small h) by lia. by rewrite (proj2 (Z.ltb_lt _ _)) by lia.
Qed.

Lemma u32_null h : id_ok h -> u32 h = 0xffffffff <-> h = OO_PP_NULL.
Proof. intros H. split; [|by intros ->]. intros E. apply u32_id; [done|by left|]. by rewrite E. Qed.

(** ** Histories *)

Lemma pool_replay_app g l l' : replay g (l ++ l') = (g' ← replay g l; replay g' l').
Proof. revert g. induction l as [|e l IH]; intros g; simpl; [done|]. destruct (pool_spec g e); simpl; auto. Qed.

Lemma view_record s g e : view s = Some g -> view (record e s) = pool_spec g e.
Proof. unfold view. simpl. rewrite pool_replay_app. intros ->. simpl. by destruct (pool_spec g e). Qed.

Lemma pushes_grow l g g' : replay g l = Some g' -> pushes g <= pushes g'.
Proof.
  revert g. induction l as [|[[t o] b] l IH]; intros g; simpl; [intros [= <-]; lia|].
  destruct (pool_spec g (t, o, b)) as [g1|] eqn:E; simpl; [|done]. intros H. apply IH in H. enough (pushes g <= pushes g1) by lia.
  destruct o; unfold pool_spec in E; [destruct (stk g)|..]; simplify_option_eq; simpl; lia.
Qed.

Lemma chain_ext nx nx' h l : (forall p, p ∈ l -> nx' p = nx p) -> chain nx h l -> chain nx' h l.
Proof.
  revert h. induction l as [|p l IH]; intros h Hx; simpl; [done|]. intros [-> H]. split; [done|]. rewrite Hx by set_solver.
  apply IH; [set_solver|done].
Qed.

Lemma chain_id nx h l : (forall p, p ∈ l -> 0 <= p < n_pkts) -> n_pkts <= 2 ^ 31 -> chain nx h l -> id_ok h.
Proof. intros Hl Hn. destruct l as [|p l]; simpl; [by left|]. intros [-> _]. right. specialize (Hl p ltac:(set_solver)). lia. Qed.

(** A linked list put before a chain. *)
Lemma chain_app nx l h l' : l <> [] -> linked nx l -> nx (default OO_PP_NULL (last l)) = h -> chain nx h l' ->
  chain nx (default OO_PP_NULL (head l)) (l ++ l').
Proof.
  intros Hne. induction l as [|p l IH]; [done|]. intros Hl Hh Hc. simpl. split; [done|]. destruct l as [|q l]; [simpl in *; by rewrite Hh|].
  destruct Hl as [-> Hl]. by apply IH.
Qed.

(** ** Stable assertions *)

Abbreviation keeps := (stable pool_inv pool_guar).

Lemma view_inv s g : pool_inv s -> view s = Some g -> holds g s.
Proof. intros (g' & Hv & Hh) Hg. by simplify_eq. Qed.

Lemma guar_history t s s' : pool_guar t s s' -> forall t', t' <> t -> of_thread t' (history s') = of_thread t' (history s).
Proof.
  intros ((e & -> & He) & _) t' Hne. rewrite of_thread_app. enough (of_thread t' e = []) as -> by apply app_nil_r.
  induction He as [|x e Hx He IH]; [done|]. unfold of_thread in *. rewrite filter_cons_False; [done|]. congruence.
Qed.

Lemma pool_guar_refl t s : pool_guar t s s.
Proof. split; [exists []; by rewrite app_nil_r|]. intros g Hg. exists g. split_and!; [done|done|done|]. left. auto. Qed.

Definition mine (t : nat) (h : list pevent) (s : pool) : Prop := of_thread t (history s) = h.

Lemma stable_mine t h : keeps t (mine t h).
Proof. intros t' s s' Hne _ _ Hg Hm. unfold mine. by rewrite (guar_history _ _ _ Hg) by done. Qed.

Lemma stable_and t (P Q : pool -> Prop) : keeps t P -> keeps t Q -> keeps t (fun s => P s /\ Q s).
Proof. intros HP HQ t' s s' Hne HI HI' Hg [H1 H2]. split; [by apply (HP t' s s')|by apply (HQ t' s s')]. Qed.

(** The packet [p] is held by [t], with the given link and count. *)
Definition held (t : nat) (p : Z) (Q : Z -> Z -> Prop) (s : pool) : Prop :=
  exists g, view s = Some g /\ own g !! p = Some t /\ Q (next s p) (refcount s p).

Lemma stable_held t p Q : keeps t (held t p Q).
Proof.
  intros t' s s' Hne _ _ (_ & Hg) (g & Hv & Ho & HQ). destruct (Hg g Hv) as (g' & Hv' & Hf & Hown & _).
  exists g'. split; [done|]. split; [by apply Hown|]. destruct (Hf p) as [-> ->]; [congruence|done].
Qed.

(** When no list has been given back since the counter was [c], a packet that was first
    then and is still in the pool is still first, and its link is the one read. *)
Definition first_since (a c : Z) (Q : Z -> Prop) (s : pool) : Prop :=
  exists g, view s = Some g /\ c <= pushes g /\ (pushes g = c -> a ∈ stk g -> head (stk g) = Some a /\ Q (next s a)).

Lemma stable_first t a c Q : keeps t (first_since a c Q).
Proof.
  intros t' s s' Hne HI _ (_ & Hg) (g & Hv & Hc & Ha). destruct (Hg g Hv) as (g' & Hv' & Hf & _ & Hst).
  pose proof (view_inv _ _ HI Hv) as Hh. exists g'. split; [done|]. split; [destruct Hst as [[-> _]| ->]; lia|].
  intros Hc' Hin. destruct Hst as [[Hp Hst]|Hp]; [|lia]. rewrite Hp in Hc'.
  assert (a ∈ stk g) as Hin0 by (destruct Hst as [E|[p E]]; rewrite E in *; set_solver).
  destruct (Ha Hc' Hin0) as [Hhd HQ]. destruct (Hf a) as [-> _]; [destruct (h_free _ _ Hh a Hin0) as [-> _]; done|].
  split; [|done]. destruct Hst as [->|[p E]]; [done|]. rewrite E in Hhd. simplify_eq/=.
  pose proof (h_nodup _ _ Hh) as Hnd. rewrite E in Hnd. by apply NoDup_cons in Hnd as [? _].
Qed.

Lemma linked_ext nx nx' l : (forall p, p ∈ l -> nx' p = nx p) -> linked nx l -> linked nx' l.
Proof.
  induction l as [|p l IH]; intros Hx; [done|]. destruct l as [|q l]; [done|]. intros [H1 H2]. split; [rewrite Hx by set_solver; done|].
  apply IH; [set_solver|done].
Qed.

Lemma stable_pre t o : keeps t (pool_pre t o).
Proof.
  intros t' s s' Hne HI HI' Hg. destruct o as [|l|p v|p v]; [done| | |].
  - intros (Hl & Hnd & Hlk & g & Hv & Ho). destruct Hg as [_ Hg]. destruct (Hg g Hv) as (g' & Hv' & Hf & Hown & _).
    assert (forall p, p ∈ l -> next s' p = next s p /\ refcount s' p = refcount s p) as Hsame.
    { intros p Hp. apply Hf. destruct (Ho p Hp) as [-> _]. congruence. }
    split_and!; [done|done|eapply linked_ext; [|done]; intros p Hp; by apply Hsame|]. exists g'. split; [done|].
    intros p Hp. destruct (Ho p Hp) as [Ho1 Ho2]. split; [by apply Hown|]. by rewrite (proj2 (Hsame p Hp)).
  - intros (g & Hv & Ho). destruct (stable_held t p (fun _ _ => True) t' s s' Hne HI HI' Hg) as (g' & ? & ? & _); [by exists g|]. by exists g'.
  - intros (g & Hv & Ho). destruct (stable_held t p (fun _ _ => True) t' s s' Hne HI HI' Hg) as (g' & ? & ? & _); [by exists g|]. by exists g'.
Qed.

(** ** What single actions keep *)

Lemma replay_same s s' g : history s' = history s -> view s = Some g -> view s' = Some g.
Proof. unfold view. by intros ->. Qed.

(** A write to a packet the thread holds. *)
Lemma own_write t p s s' g : pool_inv s -> view s = Some g -> own g !! p = Some t ->
  nonb_pkt_pool s' = nonb_pkt_pool s -> history s' = history s ->
  (forall q, q <> p -> next s' q = next s q /\ refcount s' q = refcount s q) ->
  pool_inv s' /\ pool_guar t s s'.
Proof.
  intros HI Hv Ho Hw Hh Hf. pose proof (view_inv _ _ HI Hv) as Hg.
  assert (forall q, q ∈ stk g -> q <> p) as Hqp by (intros q Hq ->; destruct (h_free _ _ Hg p Hq) as [E _]; congruence).
  pose proof (replay_same _ _ _ Hh Hv) as Hv'. split.
  - exists g. split; [done|]. destruct Hg as [(h & Hc & Hl) Hnd Hfr Hown Hp]. split; [|done| |done|done].
    + exists h. split; [|by rewrite Hw]. eapply chain_ext; [|done]. intros q Hq. by apply Hf, Hqp.
    + intros q Hq. rewrite (proj2 (Hf q (Hqp q Hq))). by apply Hfr.
  - split; [exists []; rewrite app_nil_r; by split|]. intros g1 Hg1. assert (g1 = g) as -> by congruence.
    exists g. split_and!; [done| |done|left; auto]. intros q Hq. apply Hf. congruence.
Qed.

(** An action that makes an operation take effect. *)
Lemma effect_guar t o b s s' g g' : view s = Some g -> pool_spec g (t, o, b) = Some g' -> history s' = history s ++ [(t, o, b)] ->
  (forall q, own g !! q <> Some t -> next s' q = next s q /\ refcount s' q = refcount s q) ->
  (forall q, stk g = q :: stk g' -> own g !! q = None) ->
  (forall h, mine t h s -> mine t (h ++ [(t, o, b)]) s') /\ view s' = Some g' /\ pool_guar t s s'.
Proof.
  intros Hv Hs Hh Hf Hhd. assert (view s' = Some g') as Hv' by (unfold view in *; rewrite Hh, pool_replay_app, Hv; simpl; by rewrite Hs).
  split; [|split; [done|]].
  - unfold mine. intros h <-. by rewrite Hh, of_thread_app, of_thread_mine.
  - split; [exists [(t, o, b)]; split; [done|by apply Forall_singleton]|]. intros g1 Hg1. assert (g1 = g) as -> by congruence.
    exists g'. split; [done|]. split; [done|]. destruct o as [|l|p v|p v]; unfold pool_spec in Hs.
    + destruct (stk g) as [|p l] eqn:E; simplify_option_eq; [by rewrite E; auto|]. simpl. split; [|left; eauto].
      intros q t' Hne Hq. rewrite lookup_insert_ne; [done|]. intros <-. rewrite Hhd in Hq; done.
    + simplify_option_eq. simpl. split; [|by right]. intros q t' Hne Hq.
      destruct (decide (q ∈ l)) as [Hin|Hin].
      * match goal with H : _ /\ Forall _ l |- _ => destruct H as [_ Hall] end. rewrite Forall_forall in Hall. specialize (Hall q Hin). simpl in Hall. congruence.
      * rewrite lookup_foldr_delete_not_elem_of by done. done.
    + simplify_option_eq. split; [done|auto].
    + simplify_option_eq. split; [done|auto].
Qed.

(** ** The outlines *)

Context (Hn : n_pkts <= 2 ^ 31).
Abbreviation starts := (start history pool_pre).
Abbreviation ol := (outline history pool_within pool_inv pool_guar starts (fun _ _ => True)).

Lemma stable_starts t o h : keeps t (starts t o h).
Proof. apply stable_start; [apply stable_pre|apply guar_history]. Qed.

Definition counter (g : ghost) : Z := (v0 + pushes g) mod 2 ^ 32.

Lemma counter_range g : 0 <= counter g < 2 ^ 32.
Proof. apply Z.mod_pos_bound. lia. Qed.

Lemma counter_eq g c : c <= pushes g -> pushes g < 2 ^ 32 -> 0 <= c -> counter g = (v0 + c) mod 2 ^ 32 -> pushes g = c.
Proof.
  unfold counter. intros H1 H2 H3 E. pose proof (Z.div_mod (v0 + pushes g) (2 ^ 32)). pose proof (Z.div_mod (v0 + c) (2 ^ 32)).
  assert ((v0 + pushes g) / 2 ^ 32 = (v0 + c) / 2 ^ 32); nia.
Qed.

(** The word of the pool names the first packet. *)
Lemma holds_word g s : holds g s -> exists h, nonb_pkt_pool s = pool_word h (counter g) /\ id_ok h /\ chain (next s) h (stk g) /\
  (h = OO_PP_NULL -> stk g = []) /\ (h <> OO_PP_NULL -> exists l, stk g = h :: l /\ 0 <= h < n_pkts).
Proof.
  intros Hg. destruct (h_chain _ _ Hg) as (h & Hc & Hl). exists h. split; [done|].
  assert (forall p, p ∈ stk g -> 0 <= p < n_pkts) as Hr by (intros p Hp; by apply (h_free _ _ Hg)).
  split; [by eapply chain_id|]. split; [done|]. destruct (stk g) as [|p l]; simpl in Hc; [done|]. destruct Hc as [-> _].
  specialize (Hr p ltac:(set_solver)). unfold OO_PP_NULL. split; [lia|]. intros _. by exists l.
Qed.

(** Taking the first packet keeps the invariant. *)
Lemma holds_pop g s a l t new e : holds g s -> stk g = a :: l -> new = pool_word (next s a) (counter g) ->
  holds (Ghost l (<[a := t]> (own g)) (pushes g)) (record e (set_pool new s)).
Proof.
  intros [(h & Hc & Hl) Hnd Hfr Hown Hp] E ->. rewrite E in *. destruct Hc as [-> Hc]. apply NoDup_cons in Hnd as [Ha Hnd].
  split; simpl; [by exists (next s a)|done| | |done].
  - intros p Hin. rewrite lookup_insert_ne by (intros <-; done). apply Hfr. set_solver.
  - intros p t'. rewrite lookup_insert. case_decide as E2; [subst p; intros _; apply Hfr; set_solver|apply Hown].
Qed.

(** A swap of the word as it was when the counter was [c] and [a] was first: [a] is first
    now, and with the link that was read since, when fewer than [2^32] lists came back. *)
Lemma swap_first g s a c : holds g s -> id_ok a -> nonb_pkt_pool s = pool_word a ((v0 + c) mod 2 ^ 32) ->
  chain (next s) a (stk g) /\ counter g = (v0 + c) mod 2 ^ 32 /\ (a <> OO_PP_NULL -> exists l, stk g = a :: l).
Proof.
  intros Hg Ha El. destruct (holds_word g s Hg) as (hd & Hl & Hid & Hc & _ & Hsome). rewrite Hl in El. apply word_inj in El as [E1 E2].
  apply u32_id in E1; [|done|done]. subst hd. split; [done|]. split; [done|]. intros H0. destruct (Hsome H0) as (l & Es & _). by exists l.
Qed.

Lemma swap_sees g s a c nx l : pushes g < 2 ^ 32 -> 0 <= c -> view s = Some g -> first_since a c (fun x => x = nx) s ->
  counter g = (v0 + c) mod 2 ^ 32 -> stk g = a :: l -> next s a = nx.
Proof.
  intros Hw Hc Hv (g' & Hv' & Hle & Hf) E Es. assert (g' = g) as -> by congruence.
  apply Hf; [by apply counter_eq|rewrite Es; set_solver].
Qed.

(** After the swap: the packet belongs to the thread. *)
Lemma alloc_tail t h a : ol t OAlloc h
  (alet rc := aread (fun s => refcount s a) in aassert (rc =? 0) (alet _x := awrite (set_refcount a 1) in Ret (Some a)))
  (fun s => mine t (h ++ [(t, OAlloc, a)]) s /\ held t a (fun _ r => r = 0) s).
Proof.
  assert (keeps t (fun s => mine t (h ++ [(t, OAlloc, a)]) s /\ held t a (fun _ r => r = 0) s)) as Hst
    by (apply stable_and; [apply stable_mine|apply stable_held]).
  apply outline_read; [apply pool_guar_refl|done|]. intros s _ [Hm Hh].
  exists (fun s => mine t (h ++ [(t, OAlloc, a)]) s /\ held t a (fun _ r => r = 0) s). split; [by split|].
  pose proof Hh as (g & _ & _ & Hr). apply outline_assert; [done|intros _ _ _; rewrite Hr; done|].
  apply outline_do; [done|]. clear s Hm Hh g Hr. intros s HI [Hm (g & Hv & Ho & _)] _. cbn [fst snd].
  destruct (own_write t a s (set_refcount a 1 s) g HI Hv Ho eq_refl eq_refl) as [HI' Hg'].
  { intros q Hq. simpl. unfold upd. by rewrite (proj2 (Z.eqb_neq _ _) Hq). }
  split; [done|]. split; [done|]. exists (mine t (h ++ [(t, OAlloc, a)])). split; [done|]. apply outline_ret; [apply stable_mine|done].
Qed.

(** The swap of an allocation that succeeds. *)
Lemma alloc_swap t h a c nx s : id_ok a -> a <> OO_PP_NULL -> 0 <= c -> pool_inv s -> mine t h s -> first_since a c (fun x => x = nx) s ->
  nonb_pkt_pool s = pool_word a ((v0 + c) mod 2 ^ 32) ->
  let s' := record (t, OAlloc, a) (set_pool (pool_word nx ((v0 + c) mod 2 ^ 32)) s) in pool_within s' ->
  pool_inv s' /\ pool_guar t s s' /\ mine t (h ++ [(t, OAlloc, a)]) s' /\ held t a (fun _ r => r = 0) s'.
Proof.
  intros Ha H0 Hc HI Hm Hf El s' Hw. pose proof HI as (g & Hv & Hg). destruct (swap_first g s a c Hg Ha El) as (_ & Ec & Hs). destruct (Hs H0) as [l Es].
  set (g' := Ghost l (<[a := t]> (own g)) (pushes g)). assert (a ∈ stk g) as Hin by (rewrite Es; set_solver).
  destruct (effect_guar t OAlloc a s s' g g') as (Hm' & Hv' & Hgu).
  { done. } { unfold pool_spec. rewrite Es. by rewrite option_guard_True. } { done. } { done. }
  { rewrite Es. intros q [= <-]. by apply (h_free _ _ Hg). }
  pose proof (swap_sees g s a c nx l (Hw g' Hv') Hc Hv Hf Ec Es) as Hnx.
  split; [exists g'; split; [done|]; apply holds_pop; [done|done|by rewrite Hnx, Ec]|]. split; [done|]. split; [by apply Hm'|].
  exists g'. split; [done|]. split; [apply lookup_insert_eq|]. by apply (h_free _ _ Hg).
Qed.

Lemma alloc_outline t h : ol t OAlloc h (ci_netif_pkt_alloc_nonb t) (starts t OAlloc h).
Proof.
  apply outline_do; [apply stable_starts|]. intros s HI [Hm _] Hw. pose proof HI as (g & Hv & Hg).
  destruct (holds_word g s Hg) as (hd & Hl & Hid & Hc & Hnull & Hsome). cbn [fst snd]. rewrite Hl, low_word.
  destruct (Z.eqb_spec (u32 hd) 0xffffffff) as [E|E].
  - apply u32_null in E; [|done]. specialize (Hnull E).
    destruct (effect_guar t OAlloc OO_PP_NULL s (record (t, OAlloc, OO_PP_NULL) s) g g) as (Hm' & Hv' & Hgu); try done.
    { unfold pool_spec. by rewrite Hnull. } { by rewrite Hnull. }
    split; [exists g; split; [done|]; by destruct Hg|]. split; [done|]. exists (mine t (h ++ [(t, OAlloc, OO_PP_NULL)])).
    split; [by apply Hm'|]. apply outline_ret; [apply stable_mine|done].
  - assert (hd <> OO_PP_NULL) as Hn0 by (intros ->; done). destruct (Hsome Hn0) as (l & Es & Hr).
    rewrite i32_u32 by done. split; [done|]. split; [apply pool_guar_refl|]. pose proof (h_pushes _ _ Hg) as Hc0.
    exists (fun s => mine t h s /\ first_since hd (pushes g) (fun _ => True) s).
    split; [split; [done|]; exists g; split; [done|]; rewrite Es; split; [lia|done]|].
    unfold PKT. rewrite (proj2 (Z.leb_le _ _)), (proj2 (Z.ltb_lt _ _)) by lia.
    change (counter g) with ((v0 + pushes g) mod 2 ^ 32). set (c := pushes g) in *. clearbody c.
    clear s g HI Hm Hw Hv Hg Hl Hc Hnull Hsome l Es.
    apply outline_read; [apply pool_guar_refl|apply stable_and; [apply stable_mine|apply stable_first]|].
    intros s HI [Hm (g & Hv & Hle & Hf)]. exists (fun s' => mine t h s' /\ first_since hd c (fun x => x = next s hd) s').
    split; [split; [done|]; exists g; split_and!; [done|done|]; intros E1 E2; split; [by apply Hf|done]|].
    set (nx := next s hd). clearbody nx. clear s g HI Hm Hv Hle Hf.
    apply outline_do; [apply stable_and; [apply stable_mine|apply stable_first]|]. intros s HI [Hm Hfs] Hw.
    assert (0 <= (v0 + c) mod 2 ^ 32 < 2 ^ 32) as Hcr by (apply Z.mod_pos_bound; lia).
    rewrite high_word, pool_word_lor in Hw by done. rewrite high_word, pool_word_lor by done. cbv zeta. destruct (Z.eqb_spec (nonb_pkt_pool s) (pool_word hd ((v0 + c) mod 2 ^ 32))) as [El|El].
    + cbn [fst snd] in *. destruct (alloc_swap t h hd c nx s Hid Hn0 Hc0 HI Hm Hfs El Hw) as (H1 & H2 & H3 & H4). split; [done|]. split; [done|].
      exists (fun s => mine t (h ++ [(t, OAlloc, hd)]) s /\ held t hd (fun _ r => r = 0) s). split; [by split|]. apply alloc_tail.
    + cbn [fst snd]. split; [done|]. split; [apply pool_guar_refl|]. exists (mine t h). split; [done|].
      apply outline_again; [apply stable_mine|]. intros s' _ Hm'. by split.
Qed.

Abbreviation first l := (default OO_PP_NULL (head l)).
Abbreviation tl l := (default OO_PP_NULL (last l)).

Lemma tl_in (l : list Z) : l <> [] -> tl l ∈ l.
Proof. intros H. destruct (last l) as [x|] eqn:E; [|by apply last_None in E]. apply last_Some in E as [l' ->]. set_solver. Qed.

(** The link of the last packet is not one of the list's own. *)
Lemma linked_tl nx l v : NoDup l -> linked nx l -> linked (upd nx (tl l) v) l.
Proof.
  induction l as [|p l IH]; [done|]. intros [Hp Hnd]%NoDup_cons. destruct l as [|q l]; [done|]. intros [H1 H2].
  split; [|by apply IH]. unfold upd. rewrite (proj2 (Z.eqb_neq _ _)); [done|]. intros E. apply Hp. rewrite E. by apply (tl_in (q :: l)).
Qed.

(** Giving back a list keeps the invariant. *)
Lemma holds_push g s l t e : holds g s -> l <> [] -> NoDup l -> linked (next s) l -> chain (next s) (next s (tl l)) (stk g) ->
  (forall p, p ∈ l -> own g !! p = Some t /\ refcount s p = 0) ->
  holds (Ghost (l ++ stk g) (foldr delete (own g) l) (pushes g + 1))
    (record e (set_pool (pool_word (first l) ((counter g + 1) mod 2 ^ 32)) s)).
Proof.
  intros Hg Hne Hnd Hl Hc Ho. split; simpl.
  - exists (first l). split; [by eapply chain_app|]. unfold pool_word, counter. do 2 f_equal. rewrite Zplus_mod_idemp_l. f_equal. lia.
  - apply NoDup_app. split_and!; [done| |apply Hg]. intros p Hp Hp'. destruct (Ho p Hp). destruct (h_free _ _ Hg p Hp'). congruence.
  - intros p [Hp|Hp]%elem_of_app.
    + destruct (Ho p Hp) as [Ho1 Ho2]. split; [by apply lookup_foldr_delete|]. split; [done|]. by eapply (h_own _ _ Hg).
    + destruct (h_free _ _ Hg p Hp) as (H1 & H2 & H3). split_and!; [|done|lia|lia].
      destruct (foldr delete (own g) l !! p) eqn:E; [|done]. apply lookup_foldr_delete_Some in E as [_ E]. congruence.
  - intros p t'. intros [_ E]%lookup_foldr_delete_Some. by eapply (h_own _ _ Hg).
  - pose proof (h_pushes _ _ Hg). lia.
Qed.

(** The swap of a release that succeeds. *)
Lemma free_swap t h l a c s : id_ok a -> pool_inv s -> mine t h s -> pool_pre t (OFree l) s -> next s (tl l) = a ->
  nonb_pkt_pool s = pool_word a ((v0 + c) mod 2 ^ 32) ->
  let s' := record (t, OFree l, 0) (set_pool (pool_word (first l) (((v0 + c) mod 2 ^ 32 + 1) mod 2 ^ 32)) s) in
  pool_inv s' /\ pool_guar t s s' /\ mine t (h ++ [(t, OFree l, 0)]) s'.
Proof.
  intros Ha HI Hm (Hne & Hnd & Hl & g & Hv & Ho) Htl El s'. pose proof (view_inv _ _ HI Hv) as Hg.
  destruct (swap_first g s a c Hg Ha El) as (Hc & Ec & _).
  set (g' := Ghost (l ++ stk g) (foldr delete (own g) l) (pushes g + 1)).
  destruct (effect_guar t (OFree l) 0 s s' g g') as (Hm' & Hv' & Hgu).
  { done. } { unfold pool_spec. rewrite option_guard_True; [done|]. split; [done|]. apply Forall_forall. intros p Hp. by apply Ho. } { done. } { done. }
  { intros q E. exfalso. apply (f_equal length) in E. simpl in E. rewrite length_app in E. lia. }
  split; [exists g'; split; [done|]|by auto]. unfold s'. rewrite <- Ec. apply (holds_push g s l t); try done. by rewrite Htl.
Qed.

Lemma free_outline t h l : ol t (OFree l) h (ci_netif_pkt_free_nonb_list t l (first l) (tl l)) (starts t (OFree l) h).
Proof.
  apply outline_read; [apply pool_guar_refl|apply stable_starts|]. intros s _ Hst. pose proof Hst as (_ & Hne & _ & _ & g & _ & Ho).
  rewrite (proj2 (Ho (tl l) (tl_in l Hne))). exists (starts t (OFree l) h). split; [done|]. cbn [aassert Z.eqb]. clear s Hst g Ho.
  apply outline_read; [apply pool_guar_refl|apply stable_starts|]. intros s (g & _ & Hg) Hst.
  destruct (holds_word g s Hg) as (a & -> & Ha & _). exists (starts t (OFree l) h). split; [done|].
  rewrite word_next, high_word, pool_word_lor, low_word, i32_u32 by (done || apply counter_range || apply Z.mod_pos_bound; lia).
  change (counter g) with ((v0 + pushes g) mod 2 ^ 32). set (c := pushes g). clearbody c. clear s g Hg Hst.
  apply outline_do; [apply stable_starts|]. intros s HI [Hm (_ & Hnd & Hl & g & Hv & Ho)] _. cbn [fst snd].
  destruct (own_write t (tl l) s (set_next (tl l) a s) g HI Hv) as [HI' Hgu]; [apply Ho, tl_in; done|done|done| |].
  { intros q Hq. simpl. unfold upd. by rewrite (proj2 (Z.eqb_neq _ _) Hq). }
  split; [done|]. split; [done|]. exists (fun s => starts t (OFree l) h s /\ held t (tl l) (fun nx _ => nx = a) s). split.
  { split; [split; [done|]; split_and!; [done|done|by apply linked_tl|by exists g]|]. exists g. split; [done|]. split; [apply Ho, tl_in; done|].
    simpl. unfold upd. by rewrite Z.eqb_refl. }
  clear s g HI Hm Hnd Hl Hv Ho HI' Hgu.
  apply outline_do; [apply stable_and; [apply stable_starts|apply stable_held]|]. intros s HI [[Hm Hp] (g & _ & _ & Htl)] _.
  destruct (Z.eqb_spec (nonb_pkt_pool s) (pool_word a ((v0 + c) mod 2 ^ 32))) as [El|El]; cbn [fst snd].
  - destruct (free_swap t h l a c s Ha HI Hm Hp Htl El) as (H1 & H2 & H3). split; [done|]. split; [done|].
    exists (mine t (h ++ [(t, OFree l, 0)])). split; [done|]. apply outline_ret; [apply stable_mine|done].
  - split; [done|]. split; [apply pool_guar_refl|]. exists (starts t (OFree l) h). split; [by split|].
    apply outline_again; [apply stable_starts|done].
Qed.

(** Writes to a packet of one's own. *)
Lemma write_outline t h o p f : (o = OSetNext p f \/ o = OSetRef p f) -> ol t o h (pool_code t o) (starts t o h).
Proof.
  intros Ho. set (w := match o with OSetNext _ _ => set_next p f | _ => set_refcount p f end).
  assert (pool_code t o = (alet _x := awrite (fun s => record (t, o, 0) (w s)) in Ret (Some 0))) as -> by (by destruct Ho as [->| ->]).
  apply outline_do; [apply stable_starts|]. intros s HI [Hm Hp] _. cbn [fst snd].
  assert (exists g, view s = Some g /\ own g !! p = Some t) as (g & Hv & Hown) by (by destruct Ho as [->| ->]).
  assert (forall q, q <> p -> next (w s) q = next s q /\ refcount (w s) q = refcount s q) as Hq.
  { intros q Hq. destruct Ho as [->| ->]; simpl; unfold upd; by rewrite (proj2 (Z.eqb_neq _ _) Hq). }
  assert (history (w s) = history s /\ nonb_pkt_pool (w s) = nonb_pkt_pool s) as [Hh Hw] by (by destruct Ho as [->| ->]).
  destruct (own_write t p s (w s) g HI Hv Hown Hw Hh Hq) as [(g1 & Hv1 & Hg1) _].
  assert (g1 = g) as -> by (unfold view in *; congruence).
  destruct (effect_guar t o 0 s (record (t, o, 0) (w s)) g g) as (Hm' & Hv' & Hgu).
  { done. } { destruct Ho as [->| ->]; unfold pool_spec; by rewrite option_guard_True. } { simpl. by rewrite Hh. }
  { intros q Hne. simpl. apply Hq. congruence. } { intros q E. exfalso. apply (f_equal length) in E. simpl in E. lia. }
  split; [exists g; split; [done|]; by destruct Hg1|]. split; [done|]. exists (mine t (h ++ [(t, o, 0)])). split; [by apply Hm'|].
  apply outline_ret; [apply stable_mine|done].
Qed.

Lemma pool_outline t o h : ol t o h (pool_code t o) (starts t o h).
Proof. destruct o as [|l|p v|p v]; [apply alloc_outline|apply free_outline|apply (write_outline t h _ p v); auto..]. Qed.
End Code.

(** ** Runs *)

Definition pool_step (n_pkts : Z) (g0 : ghost) : rconf -> rconf -> Prop :=
  rstep (pool_code n_pkts) (pool_code n_pkts) (fun s t o => pool_pre g0 t o s) (pool_within g0).

(** C27: the pool without a lock is a stack.  For any number of threads, in every
    interleaving of the loads, stores and compare-and-swaps of
    [ci_netif_pkt_alloc_nonb] and [ci_netif_pkt_free_nonb_list] with writes of the threads
    to packets they hold, as long as fewer than [2^32] lists are given back: no assertion
    fails and no identifier outside the packets is followed; the operations took effect
    one after the other, each between its call and its return, as operations on a stack,
    and every call has returned what it returns there; the links and the word of the
    pool are those of the stack, whose packets differ, have count 0 and are held by
    nobody.  So no packet is ever given to two threads, although a thread follows the
    link of a packet that others may have taken and given back meanwhile. *)
Theorem nonb_pool_linearizable n_pkts g0 v0 s0 c : n_pkts <= 2 ^ 31 -> holds n_pkts v0 g0 s0 -> pushes g0 = 0 -> history s0 = [] ->
  rtc (pool_step n_pkts g0) (RConf s0 ∅ []) c ->
  exists g, replay g0 (history (shared c)) = Some g /\ holds n_pkts v0 g (shared c) /\
    (ci_netif_pkt_nonb_pool_is_empty (shared c) = true <-> stk g = []) /\
    (forall t o, threads c !! t <> Some (o, Fail)) /\
    (forall t, threads c !! t = None -> of_thread t (history (shared c)) = of_thread t (outs c)) /\
    (forall t o b, threads c !! t = Some (o, Ret (Some b)) -> of_thread t (history (shared c)) = of_thread t (outs c) ++ [(t, o, b)]).
Proof.
  intros Hn H0 _ Hh Hs.
  destruct (good_facts history (pool_within g0) (pool_inv n_pkts g0 v0) (pool_guar g0) (start history (pool_pre g0)) (fun _ _ => True) c) as ((g & Hv & Hg) & H1 & H2 & H3).
  - apply (outlines_sound (pool_code n_pkts) (pool_code n_pkts) history (fun s t o => pool_pre g0 t o s) (pool_within g0)) with (s0 := s0) (pre := pool_pre g0);
      [intros; by apply pool_outline|intros; by apply pool_outline|done|done|apply guar_history|by intros t []|by intros t []| |done|done|exact Hs].
    exists g0. by unfold view; rewrite Hh.
  - exists g. split; [done|]. split; [done|]. split; [|done]. destruct (holds_word n_pkts v0 Hn g _ Hg) as (h & El & Hid & _ & Hnull & Hsome).
    unfold ci_netif_pkt_nonb_pool_is_empty. rewrite El, low_word, Z.eqb_eq, u32_null by done. split; [done|].
    intros E. destruct (decide (h = OO_PP_NULL)) as [|Hne]; [done|]. destruct (Hsome Hne) as (l & E' & _). congruence.
Qed.

(** The contract of the callers and the bound as tests, for schedules. *)
Definition pool_pre_b (g0 : ghost) (s : pool) (t : nat) (o : pop) : bool :=
  match view g0 s with
  | None => false
  | Some g =>
      match o with
      | OAlloc => true
      | OFree l => bool_decide (l <> [] /\ NoDup l /\ Forall (fun p => own g !! p = Some t /\ refcount s p = 0) l) &&
          bool_decide (Forall (fun i => option_map (next s) (l !! i) = l !! S i) (seq 0 (length l - 1)))
      | OSetNext p _ | OSetRef p _ => bool_decide (own g !! p = Some t)
      end
  end.

Lemma linked_by_index nx l : (forall i, (i < length l - 1)%nat -> option_map nx (l !! i) = l !! S i) -> linked nx l.
Proof.
  induction l as [|p l IH]; [done|]. intros H. destruct l as [|q l]; [done|]. split.
  - specialize (H 0%nat ltac:(simpl; lia)). simpl in H. congruence.
  - apply IH. intros i Hi. apply (H (S i)). simpl in *. lia.
Qed.

Lemma pool_pre_b_ok g0 s t o : pool_pre_b g0 s t o = true -> pool_pre g0 t o s.
Proof.
  unfold pool_pre_b. destruct (view g0 s) as [g|] eqn:Ev; [|done]. destruct o as [|l|p v|p v]; [done| |intros H; apply bool_decide_eq_true in H; by exists g..].
  intros [H1 H2]%andb_true_iff. apply bool_decide_eq_true in H1 as (Hne & Hnd & Hall). apply bool_decide_eq_true in H2.
  rewrite Forall_forall in Hall. rewrite Forall_forall in H2. split_and!; [done|done| |exists g; split; [done|]; intros p Hp; by apply Hall].
  apply linked_by_index. intros i Hi. apply H2. apply elem_of_seq. lia.
Qed.

Definition pool_within_b (g0 : ghost) (s : pool) : bool :=
  match view g0 s with Some g => pushes g <? 2 ^ 32 | None => true end.

Lemma pool_within_b_ok g0 s : pool_within_b g0 s = true -> pool_within g0 s.
Proof. unfold pool_within_b, pool_within. intros H g Hv. rewrite Hv in H. lia. Qed.

(** Three packets in the pool, in order; the counter is about to wrap around. *)
Definition ghost1 : ghost := Ghost [0; 1; 2] ∅ 0.
Definition pool1 : pool := Pool (pool_word 0 0xffffffff) (fun p => if p <? 2 then p + 1 else OO_PP_NULL) (fun _ => 0) [].

(** Thread 0 reads the first packet and its link.  Then thread 1 takes the first two
    packets and gives the first one back.  The swap of thread 0 would make the second
    packet, which thread 1 holds, the first of the pool; it fails, and thread 0 tries
    again. *)
Definition aba_schedule : list (@cmd pop) :=
  [Call 0 OAlloc; Act 0; Act 0; Call 1 OAlloc; Act 1; Act 1; Act 1; Act 1; Act 1; Return 1;
   Call 1 OAlloc; Act 1; Act 1; Act 1; Act 1; Act 1; Return 1;
   Call 1 (OSetRef 0%Z 0%Z); Act 1; Return 1; Call 1 (OFree [0%Z]); Act 1; Act 1; Act 1; Act 1; Return 1;
   Act 0; Act 0; Act 0; Act 0; Act 0; Act 0; Return 0]%nat.

Definition aba_run : option rconf :=
  rexec (pool_code 3) (pool_code 3) (pool_pre_b ghost1) (pool_within_b ghost1) (RConf pool1 ∅ []) aba_schedule.

Lemma holds_pool1 : holds 3 0xffffffff ghost1 pool1.
Proof.
  split; simpl; [exists 0; by split_and!|apply (bool_decide_unpack _); by vm_compute| |by intros p t ?%lookup_empty_Some|lia].
  intros p Hp. rewrite lookup_empty. rewrite !elem_of_cons in Hp. destruct Hp as [->|[->|[->|Hp]]]; [by split_and!..|set_solver].
Qed.

Lemma nonb_pool_linearizable_witness : exists c g, aba_run = Some c /\ replay ghost1 (history (shared c)) = Some g /\ holds 3 0xffffffff g (shared c) /\
  outs c = [(1%nat, OAlloc, 0); (1%nat, OAlloc, 1); (1%nat, OSetRef 0 0, 0); (1%nat, OFree [0], 0); (0%nat, OAlloc, 0)] /\ stk g = [2].
Proof.
  assert (option_map outs aba_run = Some [(1%nat, OAlloc, 0); (1%nat, OAlloc, 1); (1%nat, OSetRef 0 0, 0); (1%nat, OFree [0], 0); (0%nat, OAlloc, 0)]) as E1
    by (vm_compute; reflexivity).
  assert ((c ← aba_run; g ← replay ghost1 (history (shared c)); Some (stk g)) = Some [2]) as E2 by (vm_compute; reflexivity).
  destruct aba_run as [c|] eqn:E; [|discriminate E1]. cbn [option_map mbind option_bind] in E1, E2.
  destruct (nonb_pool_linearizable 3 ghost1 0xffffffff pool1 c) as (g & Hv & Hg & _); [lia|exact holds_pool1|reflexivity|reflexivity| |].
  - eapply rexec_steps; [|apply pool_within_b_ok|exact E]. intros s t o. apply pool_pre_b_ok.
  - exists c, g. split; [reflexivity|]. split; [exact Hv|]. split; [exact Hg|]. rewrite Hv in E2. cbn [mbind option_bind] in E2. split; congruence.
Defined.
