(* ===== verification/UdpRecvQ.v ===== *)
(** * UdpRecvQ: the receive queue of a UDP socket ([ci/internal/ip.h])

    One side puts packets under the lock of the stack, the other takes them under the
    lock of the socket, at the same time.  A packet is linked first and becomes visible
    when a counter of buffers is advanced.  The reader keeps a pointer to the packet it
    took last, so that it can find the next one when it comes; packets before that one
    are reclaimed by the writer.  The theorem shows for every interleaving that the
    reader gets the packets in order, each once. *)

From Stdlib Require Import ZArith Lia Bool.
From stdpp Require Import gmap relations.
From S2P Require Import Prelude PktQueue Chain Atomic Rely.

Inductive uop := OPending (p : Z) | OComplete (l : list Z) | OGet | ODeliver (p : Z) | ONext (p : Z).

Abbreviation uevent := (nat * uop * Z)%type.

(** [ci_udp_recv_q] with the fields of packets it uses.  [linking], [delivering] and
    [events] are auxiliary: a side is between two writes of an operation, and what has
    taken effect; the code does not read them. *)
Record recv_q := RecvQ {
  head : Z; tail : Z; pkts_added : Z; pkts_reaped : Z; extract : Z; pkts_delivered : Z;
  udp_rx_next : Z -> Z; rx_flags : Z -> Z; linking : bool; delivering : bool; events : list uevent }.

Definition CI_PKT_RX_FLAG_RECV_Q_CONSUMED : Z := 0x01.

Definition set_head v s := RecvQ v (tail s) (pkts_added s) (pkts_reaped s) (extract s) (pkts_delivered s) (udp_rx_next s) (rx_flags s) (linking s) (delivering s) (events s).
Definition set_tail v s := RecvQ (head s) v (pkts_added s) (pkts_reaped s) (extract s) (pkts_delivered s) (udp_rx_next s) (rx_flags s) (linking s) (delivering s) (events s).
Definition set_added v s := RecvQ (head s) (tail s) v (pkts_reaped s) (extract s) (pkts_delivered s) (udp_rx_next s) (rx_flags s) (linking s) (delivering s) (events s).
Definition set_reaped v s := RecvQ (head s) (tail s) (pkts_added s) v (extract s) (pkts_delivered s) (udp_rx_next s) (rx_flags s) (linking s) (delivering s) (events s).
Definition set_extract v s := RecvQ (head s) (tail s) (pkts_added s) (pkts_reaped s) v (pkts_delivered s) (udp_rx_next s) (rx_flags s) (linking s) (delivering s) (events s).
Definition set_delivered v s := RecvQ (head s) (tail s) (pkts_added s) (pkts_reaped s) (extract s) v (udp_rx_next s) (rx_flags s) (linking s) (delivering s) (events s).
Definition set_rx_next p v s := RecvQ (head s) (tail s) (pkts_added s) (pkts_reaped s) (extract s) (pkts_delivered s) (put (udp_rx_next s) p v) (rx_flags s) (linking s) (delivering s) (events s).
Definition set_flags p v s := RecvQ (head s) (tail s) (pkts_added s) (pkts_reaped s) (extract s) (pkts_delivered s) (udp_rx_next s) (put (rx_flags s) p v) (linking s) (delivering s) (events s).
Definition set_linking b s := RecvQ (head s) (tail s) (pkts_added s) (pkts_reaped s) (extract s) (pkts_delivered s) (udp_rx_next s) (rx_flags s) b (delivering s) (events s).
Definition set_delivering b s := RecvQ (head s) (tail s) (pkts_added s) (pkts_reaped s) (extract s) (pkts_delivered s) (udp_rx_next s) (rx_flags s) (linking s) b (events s).
Definition took_effect e s := RecvQ (head s) (tail s) (pkts_added s) (pkts_reaped s) (extract s) (pkts_delivered s) (udp_rx_next s) (rx_flags s) (linking s) (delivering s) (events s ++ [e]).

Definition ci_udp_recv_q_init (s : recv_q) : recv_q :=
  set_added 0 (set_delivered 0 (set_reaped 0 (set_extract OO_PP_NULL (set_head OO_PP_NULL s)))).
Definition ci_udp_recv_q_is_empty (s : recv_q) : bool := pkts_added s =? pkts_delivered s.
Definition ci_udp_recv_q_not_empty (s : recv_q) : bool := negb (pkts_added s =? pkts_delivered s).
Definition ci_udp_recv_q_pkts (s : recv_q) : Z := i32 (pkts_added s - pkts_delivered s).
Definition ci_udp_recv_q_reapable (s : recv_q) : Z := i32 (pkts_delivered s - pkts_reaped s).

(** The limit in bytes, [CI_CFG_PKT_BUF_SIZE] the size of a buffer. *)
Definition ci_udp_recv_q_bytes2packets (CI_CFG_PKT_BUF_SIZE bytes_limit : Z) : Z := Z.quot bytes_limit CI_CFG_PKT_BUF_SIZE + 1.

Definition consumed (f : Z) : bool := negb (Z.land f CI_PKT_RX_FLAG_RECV_Q_CONSUMED =? 0).

Section Code.
(** The number of packets of the stack; the buffers each one consists of, which do not
    change while it is in a queue; and [ci_udp_recv_q_reap], which is in the library. *)
Variables (n_pkts : Z) (n_buffers : Z -> Z) (ci_udp_recv_q_reap : recv_q -> recv_q).

Definition PKT_CHK {A} (pp : Z) (k : act recv_q A) : act recv_q A := aassert ((0 <=? pp) && (pp <? n_pkts)) k.

(** Under the lock of the stack. *)
Definition ci_udp_recv_q_put_pending (t : nat) (pkt : Z) : act recv_q (option Z) :=
  alet f := aread (fun s => rx_flags s pkt) in
  alet _x := (if consumed f then awrite (set_flags pkt (Z.ldiff f CI_PKT_RX_FLAG_RECV_Q_CONSUMED)) else Ret 0) in
  alet _x := awrite (set_rx_next pkt OO_PP_NULL) in
  alet h := aread head in
  alet _x :=
    (if OO_PP_NOT_NULL h then
       alet tl := aread tail in
       PKT_CHK tl (
         alet _x := awrite (fun s => took_effect (t, OPending pkt, 0) (set_linking true (set_rx_next tl pkt s))) in
         awrite ci_udp_recv_q_reap)
     else
       alet e := aread extract in
       aassert (OO_PP_IS_NULL e) (
         alet _x := awrite (fun s => took_effect (t, OPending pkt, 0) (set_linking true (set_extract pkt s))) in
         awrite (set_head pkt))) in
  alet _x := awrite (fun s => set_linking false (set_tail pkt s)) in
  Ret (Some 0).

Definition buffers (l : list Z) : Z := foldr (fun p n => n_buffers p + n) 0 l.

(** The writer alone changes [pkts_added]: the increment is one action. *)
Definition ci_udp_recv_q_put_complete (t : nat) (l : list Z) (n : Z) : act recv_q (option Z) :=
  alet _x := awrite (fun s => took_effect (t, OComplete l, 0) (set_added (u32 (pkts_added s + n)) s)) in
  Ret (Some 0).

Definition ci_udp_recv_q_put (t : nat) (pkt : Z) : act recv_q (option Z) :=
  alet _x := ci_udp_recv_q_put_pending t pkt in ci_udp_recv_q_put_complete t [pkt] (n_buffers pkt).

(** Under the lock of the socket: the packet, or [OO_PP_NULL] for the null pointer. *)
Definition ci_udp_recv_q_get (t : nat) : act recv_q (option Z) :=
  alet d := aread pkts_delivered in
  alet a := Do (fun s => (if pkts_added s =? d then took_effect (t, OGet, OO_PP_NULL) s else s, pkts_added s)) Ret in
  if a =? d then Ret (Some OO_PP_NULL)
  else
    alet e := aread extract in
    PKT_CHK e (
      alet f := Do (fun s => (if consumed (rx_flags s e) then s else took_effect (t, OGet, e) s, rx_flags s e)) Ret in
      if consumed f then
        alet nx := aread (fun s => udp_rx_next s e) in
        alet _x := awrite (fun s => took_effect (t, OGet, nx) (set_extract nx s)) in
        alet e' := aread extract in
        PKT_CHK e' (
          alet f' := aread (fun s => rx_flags s e') in
          aassert (negb (consumed f')) (Ret (Some e')))
      else Ret (Some e)).

Definition ci_udp_recv_q_deliver (t : nat) (pkt : Z) : act recv_q (option Z) :=
  alet _x := awrite (fun s => took_effect (t, ODeliver pkt, 0) (set_delivering true (set_delivered (u32 (pkts_delivered s + n_buffers pkt)) s))) in
  alet _x := awrite (fun s => set_delivering false (set_flags pkt (Z.lor (rx_flags s pkt) CI_PKT_RX_FLAG_RECV_Q_CONSUMED) s)) in
  Ret (Some 0).

Definition ci_udp_recv_q_next (t : nat) (pkt : Z) : act recv_q (option Z) :=
  alet f := aread (fun s => rx_flags s pkt) in
  aassert (negb (consumed f)) (
    alet nx := Do (fun s => (if OO_PP_IS_NULL (udp_rx_next s pkt) then took_effect (t, ONext pkt, OO_PP_NULL) s else s, udp_rx_next s pkt)) Ret in
    if OO_PP_IS_NULL nx then Ret (Some OO_PP_NULL)
    else
      alet nx' := Do (fun s => (took_effect (t, ONext pkt, udp_rx_next s pkt) s, udp_rx_next s pkt)) Ret in
      PKT_CHK nx' (Ret (Some nx'))).

Definition u_code (t : nat) (o : uop) : act recv_q (option Z) :=
  match o with
  | OPending p => ci_udp_recv_q_put_pending t p
  | OComplete l => ci_udp_recv_q_put_complete t l (buffers l)
  | OGet => ci_udp_recv_q_get t
  | ODeliver p => ci_udp_recv_q_deliver t p
  | ONext p => ci_udp_recv_q_next t p
  end.

(** ** What the operations do *)

(** The packets that were delivered, the visible ones, and the linked ones that are not
    visible yet, oldest first. *)
Record chan := Chan { dlv : list Z; vis : list Z; pend : list Z }.

(** What follows [p] in a list. *)
Fixpoint successor (p : Z) (l : list Z) : Z :=
  match l with [] => OO_PP_NULL | q :: l' => if q =? p then first l' else successor p l' end.

Definition u_spec (g : chan) (e : uevent) : option chan :=
  let '(_, o, b) := e in
  match o with
  | OPending p => guard (b = 0) ;; Some (Chan (dlv g) (vis g) (pend g ++ [p]))
  | OComplete l => guard (b = 0 /\ take (length l) (pend g) = l) ;; Some (Chan (dlv g) (vis g ++ l) (drop (length l) (pend g)))
  | OGet => guard (b = first (vis g)) ;; Some g
  | ODeliver p => guard (b = 0 /\ vis g <> [] /\ first (vis g) = p) ;; Some (Chan (dlv g ++ [p]) (list.tail (vis g)) (pend g))
  | ONext p => guard (p ∈ vis g ++ pend g /\ b = successor p (vis g ++ pend g)) ;; Some g
  end.

Fixpoint u_replay (g : chan) (l : list uevent) : option chan :=
  match l with [] => Some g | e :: l' => g' ← u_spec g e; u_replay g' l' end.

Definition chan0 : chan := Chan [] [] [].
Definition u_view (s : recv_q) : option chan := u_replay chan0 (events s).

(** The memory holds the queue.  Of the delivered packets [du] are still linked.  The
    writer may be between linking the first packet and setting [head]; the reader may be
    between counting a packet and marking it. *)
Record q_holds (g : chan) (du : list Z) (s : recv_q) : Prop := {
  uh_dlv : exists dr, dlv g = dr ++ du;
  uh_chain : follows (udp_rx_next s) (first (du ++ vis g ++ pend g)) (du ++ vis g ++ pend g);
  uh_nodup : NoDup (du ++ vis g ++ pend g);
  uh_range : forall p, p ∈ du ++ vis g ++ pend g -> 0 <= p < n_pkts;
  uh_head : head s = first (du ++ vis g ++ pend g) \/
    (linking s = true /\ head s = OO_PP_NULL /\ du = [] /\ vis g = [] /\ length (pend g) = 1%nat);
  uh_linked : linking s = false -> head s = first (du ++ vis g ++ pend g) /\
    (du ++ vis g ++ pend g = [] \/ last (du ++ vis g ++ pend g) = Some (tail s));
  uh_extract : (du ++ vis g ++ pend g = [] /\ extract s = OO_PP_NULL) \/ last du = Some (extract s) \/
    (vis g ++ pend g <> [] /\ extract s = first (vis g ++ pend g) /\ delivering s = false);
  uh_mid : delivering s = true -> last du = Some (extract s);
  uh_fresh : forall p, p ∈ vis g ++ pend g -> consumed (rx_flags s p) = false;
  uh_consumed : forall p, p ∈ du -> consumed (rx_flags s p) = true \/ (delivering s = true /\ last du = Some p);
  uh_added : pkts_added s = u32 (buffers (dlv g ++ vis g));
  uh_delivered : pkts_delivered s = u32 (buffers (dlv g));
  uh_room : buffers (vis g) < 2 ^ 32 }.

Definition q_inv (s : recv_q) : Prop := exists g du, u_view s = Some g /\ q_holds g du s.

(** The packet is not linked in the queue. *)
Definition absent (p : Z) (s : recv_q) : Prop := exists l, follows (udp_rx_next s) (head s) l /\ p ∉ l.

(** Thread 0 holds the lock of the stack, thread 1 the lock of the socket.  A packet that
    is put is not in the queue; what becomes visible is the first part of what is
    pending, and the buffers of visible packets stay below [2^32]; what is delivered is
    the packet that [ci_udp_recv_q_get] returned; the successor is asked of a packet that
    is not delivered. *)
Definition u_pre (t : nat) (o : uop) (s : recv_q) : Prop :=
  match o with
  | OPending p => t = 0%nat /\ linking s = false /\ 0 <= p < n_pkts /\ absent p s
  | OComplete l => t = 0%nat /\ linking s = false /\
      exists g, u_view s = Some g /\ take (length l) (pend g) = l /\ buffers (vis g) + buffers l < 2 ^ 32
  | OGet => t = 1%nat /\ delivering s = false
  | ODeliver p => t = 1%nat /\ delivering s = false /\ extract s = p /\ exists g, u_view s = Some g /\ vis g <> [] /\ first (vis g) = p
  | ONext p => t = 1%nat /\ delivering s = false /\ exists g, u_view s = Some g /\ p ∈ vis g ++ pend g
  end.

(** The writer leaves the reader's fields alone, and the packets the reader may look at,
    but for a null link; it appends to what is visible and linked. *)
Definition writer_does (s s' : recv_q) : Prop :=
  pkts_delivered s' = pkts_delivered s /\ delivering s' = delivering s /\
  (extract s <> OO_PP_NULL -> extract s' = extract s) /\
  forall g, u_view s = Some g -> exists g' v w, u_view s' = Some g' /\ dlv g' = dlv g /\ vis g' = vis g ++ v /\ vis g' ++ pend g' = (vis g ++ pend g) ++ w /\
    forall p, p = extract s \/ p ∈ vis g ++ pend g ->
      rx_flags s' p = rx_flags s p /\ (udp_rx_next s p <> OO_PP_NULL -> udp_rx_next s' p = udp_rx_next s p).

(** The reader leaves the writer's fields alone, links, and the flags of packets that are
    not in the queue; it takes from the front of what is visible. *)
Definition reader_does (s s' : recv_q) : Prop :=
  head s' = head s /\ tail s' = tail s /\ pkts_added s' = pkts_added s /\ linking s' = linking s /\ udp_rx_next s' = udp_rx_next s /\
  (forall p, absent p s -> rx_flags s' p = rx_flags s p) /\
  forall g, u_view s = Some g -> exists g', u_view s' = Some g' /\ pend g' = pend g /\ buffers (vis g') <= buffers (vis g).

Definition u_guar (t : nat) (s s' : recv_q) : Prop :=
  (exists e, events s' = events s ++ e /\ Forall (fun x => fst (fst x) = t) e) /\
  match t with 0%nat => writer_does s s' | 1%nat => reader_does s s' | _ => s' = s end.

(** ** Chains and counts *)

(** The link of a packet is the next one of the list. *)
Lemma follows_successor nx h l p : follows nx h l -> NoDup l -> p ∈ l -> nx p = successor p l.
Proof.
  revert h. induction l as [|q l IH]; intros h; simpl; [set_solver|]. intros (-> & _ & H) [Hq Hnd]%NoDup_cons Hp.
  destruct (Z.eqb_spec q p) as [->|Hne]; [by apply follows_first in H|]. eapply IH; [done|done|set_solver].
Qed.

Lemma last_in (l : list Z) p : last l = Some p -> p ∈ l.
Proof. intros [l' ->]%last_Some. set_solver. Qed.

Context (Hbuf : forall p, 1 <= n_buffers p).

Lemma buffers_app l l' : buffers (l ++ l') = buffers l + buffers l'.
Proof. unfold buffers. induction l as [|p l IH]; simpl; [done|]. rewrite IH. lia. Qed.

Lemma buffers_nonneg l : 0 <= buffers l /\ (buffers l = 0 -> l = []).
Proof. unfold buffers. induction l as [|p l [IH _]]; simpl; [done|]. specialize (Hbuf p). split; lia. Qed.

Lemma counts_differ g du s : q_holds g du s -> (pkts_added s =? pkts_delivered s) = bool_decide (vis g = []).
Proof.
  intros H. rewrite (uh_added _ _ _ H), (uh_delivered _ _ _ H), buffers_app. pose proof (buffers_nonneg (vis g)) as [H0 H1]. pose proof (uh_room _ _ _ H) as Hr.
  case_bool_decide as E; [rewrite E; simpl; rewrite Z.add_0_r; apply Z.eqb_refl|]. apply Z.eqb_neq. unfold wrap. intros Em.
  apply E, H1. pose proof (Z.div_mod (buffers (dlv g) + buffers (vis g)) (2 ^ 32)). pose proof (Z.div_mod (buffers (dlv g)) (2 ^ 32)). nia.
Qed.

(** Which packets are reclaimed: all before the one the reader is at. *)
Lemma reap_split l1 l2 du vw e : l1 ++ l2 = du ++ vw -> e ∉ l1 -> (last du = Some e \/ (vw <> [] /\ e = first vw)) ->
  exists du', du = l1 ++ du' /\ l2 = du' ++ vw /\ (last du = Some e -> last du' = Some e).
Proof.
  intros E He Hex. apply app_eq_app in E as (x & [[-> ->]|[-> ->]]).
  - destruct x as [|y x].
    + exists []. rewrite !app_nil_r in *. split_and!; [done|done|]. intros Hl. apply last_in in Hl. done.
    + exfalso. apply He. destruct Hex as [Hl|[_ ->]]; [apply last_in in Hl; set_solver|]. simpl. set_solver.
  - exists x. split_and!; [done|done|]. intros Hl. destruct x as [|y x]; [rewrite app_nil_r in Hl; by apply last_in in Hl|].
    rewrite last_app in Hl. by destruct (last (y :: x)) eqn:El; [|apply last_None in El].
Qed.

(** ** What the actions of the writer keep *)

Lemma u_replay_app g l l' : u_replay g (l ++ l') = (g' ← u_replay g l; u_replay g' l').
Proof. revert g. induction l as [|e l IH]; intros g; simpl; [done|]. destruct (u_spec g e); simpl; auto. Qed.

Lemma u_view_effect s s' g g' e : u_view s = Some g -> u_spec g e = Some g' -> events s' = events s ++ [e] -> u_view s' = Some g'.
Proof. unfold u_view. intros Hv Hs ->. rewrite u_replay_app, Hv. cbn [mbind option_bind u_replay]. by rewrite Hs. Qed.

Lemma absent_not_in g du s p : q_holds g du s -> linking s = false -> absent p s -> p ∉ du ++ vis g ++ pend g.
Proof.
  intros H Hl (l & Hc & Hp). destruct (uh_linked _ _ _ H Hl) as [E _]. rewrite E in Hc.
  by rewrite <- (follows_unique _ _ _ _ (uh_chain _ _ _ H) Hc).
Qed.

(** Fields of a packet that is not in the queue. *)
Lemma holds_private g du s s' p : q_holds g du s -> p ∉ du ++ vis g ++ pend g ->
  head s' = head s /\ tail s' = tail s /\ pkts_added s' = pkts_added s /\ extract s' = extract s /\ pkts_delivered s' = pkts_delivered s /\
  linking s' = linking s /\ delivering s' = delivering s ->
  (forall q, q <> p -> udp_rx_next s' q = udp_rx_next s q /\ rx_flags s' q = rx_flags s q) -> q_holds g du s'.
Proof.
  intros H Hp (E1 & E2 & E3 & E4 & E5 & E6 & E7) Hq.
  assert (forall q, q ∈ du ++ vis g ++ pend g -> udp_rx_next s' q = udp_rx_next s q /\ rx_flags s' q = rx_flags s q) as Hs
    by (intros q Hin; apply Hq; by intros ->).
  destruct H as [H1 H2 H3 H4 H5 H6 H7 H8 H9 H10 H11 H12 H13]. split; rewrite ?E1, ?E2, ?E3, ?E4, ?E5, ?E6, ?E7; try done.
  - eapply follows_ext; [|done]. intros q Hin. by apply Hs.
  - intros q Hin. rewrite (proj2 (Hs q ltac:(set_solver))). by apply H9.
  - intros q Hin. rewrite (proj2 (Hs q ltac:(set_solver))). by apply H10.
Qed.

(** A packet is linked behind the last one. *)
Lemma holds_link g du s p e : q_holds g du s -> linking s = false -> head s <> OO_PP_NULL -> p ∉ du ++ vis g ++ pend g -> 0 <= p < n_pkts ->
  udp_rx_next s p = OO_PP_NULL -> consumed (rx_flags s p) = false ->
  0 <= tail s < n_pkts /\ udp_rx_next s (tail s) = OO_PP_NULL /\
  q_holds (Chan (dlv g) (vis g) (pend g ++ [p])) du (took_effect e (set_linking true (set_rx_next (tail s) p s))).
Proof.
  intros H Hl Hh Hp Hr Hn Hf. destruct (uh_linked _ _ _ H Hl) as [Eh [E|Et]]; [rewrite E in Eh; done|].
  destruct H as [H1 H2 H3 H4 H5 H6 H7 H8 H9 H10 H11 H12 H13]. set (U := du ++ vis g ++ pend g) in *.
  assert (du ++ vis g ++ pend g ++ [p] = U ++ [p]) as EU by (unfold U; by rewrite !app_assoc).
  assert (U <> []) as HU by (intros E; rewrite E in Et; done). pose proof Et as [l El]%last_Some. pose proof (last_in _ _ Et) as Htin.
  split; [by apply H4|]. split; [rewrite El in H2; by eapply follows_last|]. split; simpl; rewrite ?EU, ?app_assoc; try done.
  - rewrite first_app by done. rewrite El in *. apply follows_link; [done|done|done|lia|done].
  - apply NoDup_app. split_and!; [done|set_solver|apply NoDup_singleton].
  - intros q [Hq|Hq]%elem_of_app; [by apply H4|]. apply list_elem_of_singleton in Hq as ->. lia.
  - left. by rewrite first_app by done.
  - destruct H7 as [[E _]|[?|(Hvw & Ee & Ed)]]; [done|by right; left|]. right; right. rewrite <- app_assoc. rewrite !app_assoc. 
    split_and!; [destruct (vis g ++ pend g); done|by rewrite first_app by done|done].
  - intros q Hq. rewrite <- app_assoc in Hq. rewrite app_assoc in Hq. apply elem_of_app in Hq as [Hq|Hq]; [by apply H9|]. by apply list_elem_of_singleton in Hq as ->.
Qed.

(** The reader is at a packet of the queue. *)
Lemma extract_in g du s : q_holds g du s -> du ++ vis g ++ pend g <> [] -> extract s ∈ du ++ vis g ++ pend g.
Proof.
  intros H Hne. destruct (uh_extract _ _ _ H) as [[E _]|[E|(E1 & E2 & _)]]; [done|apply last_in in E; set_solver|].
  rewrite E2. pose proof (first_in _ E1). set_solver.
Qed.

(** What the writer relies on of [ci_udp_recv_q_reap]: it unlinks packets from the front,
    none of them at or behind [extract], and counts them. *)
Context (Hreap : forall s l, follows (udp_rx_next s) (head s) l ->
  exists l1 l2 r, l = l1 ++ l2 /\ extract s ∉ l1 /\ ci_udp_recv_q_reap s = set_head (first l2) (set_reaped r s)).

Lemma holds_reap g du s : q_holds g du s -> linking s = true -> head s <> OO_PP_NULL ->
  exists h r du', ci_udp_recv_q_reap s = set_head h (set_reaped r s) /\ h <> OO_PP_NULL /\ q_holds g du' (ci_udp_recv_q_reap s).
Proof.
  intros H Hl Hh. assert (head s = first (du ++ vis g ++ pend g)) as Eh by (destruct (uh_head _ _ _ H) as [E|(_ & E & _)]; done).
  assert (du ++ vis g ++ pend g <> []) as HU by (intros E; by rewrite E in Eh).
  destruct (Hreap s (du ++ vis g ++ pend g)) as (l1 & l2 & r & E12 & Hex & ->); [rewrite Eh; apply H|]. pose proof (extract_in _ _ _ H HU) as Hexin.
  destruct (reap_split l1 l2 du (vis g ++ pend g) (extract s)) as (du' & Edu & El2 & Hlast); [done|done| |].
  { destruct (uh_extract _ _ _ H) as [[E _]|[E|(E1 & E2 & _)]]; [done|by left|by right]. }
  subst l2. rewrite E12 in Hexin. assert (extract s ∈ du' ++ vis g ++ pend g) as Hin by set_solver.
  exists (first (du' ++ vis g ++ pend g)), r, du'. split; [done|].
  destruct H as [[dr H1] H2 H3 H4 H5 H6 H7 H8 H9 H10 H11 H12 H13]. rewrite E12 in H2, H3, H4.
  split; [intros E; apply first_null in E; [by rewrite E in Hin; set_solver|intros p Hp; apply (H4 p); set_solver]|].
  split; simpl; try done.
  - exists (dr ++ l1). by rewrite <- app_assoc, <- Edu.
  - by eapply follows_drop.
  - by apply NoDup_app in H3 as (_ & _ & ?).
  - intros p Hp. apply H4. set_solver.
  - by left.
  - by rewrite Hl.
  - destruct H7 as [[E _]|[E|E]]; [done|right; left; by apply Hlast|by right; right].
  - intros Hd. by apply Hlast, H8.
  - intros p Hp. destruct (H10 p) as [|[Hd Hlp]]; [rewrite Edu; set_solver|by left|]. right. split; [done|].
    rewrite (H8 Hd) in Hlp. simplify_eq. by apply Hlast, H8.
Qed.

(** The first packet of all. *)
Lemma holds_first g du s p e : q_holds g du s -> linking s = false -> head s = OO_PP_NULL -> 0 <= p < n_pkts ->
  udp_rx_next s p = OO_PP_NULL -> consumed (rx_flags s p) = false ->
  extract s = OO_PP_NULL /\
  q_holds (Chan (dlv g) (vis g) (pend g ++ [p])) du (took_effect e (set_linking true (set_extract p s))).
Proof.
  intros H Hl Hh Hr Hn Hf. destruct (uh_linked _ _ _ H Hl) as [Eh _].
  assert (du ++ vis g ++ pend g = []) as HU by (apply first_null; [intros q Hq; by apply (uh_range _ _ _ H)|congruence]).
  destruct H as [H1 H2 H3 H4 H5 H6 H7 H8 H9 H10 H11 H12 H13]. apply app_eq_nil in HU as [-> [Ev Ep]%app_eq_nil]. rewrite Ev, Ep in *.
  assert (extract s = OO_PP_NULL) as Ee by (destruct H7 as [[_ ?]|[?|(? & _)]]; done).
  split; [done|]. split; simpl; rewrite ?Ev, ?Ep; simpl; try done.
  - split_and!; [done|lia|done].
  - apply NoDup_singleton.
  - intros q Hq. apply list_elem_of_singleton in Hq as ->. lia.
  - right. by split_and!.
  - right; right. split_and!; [done|done|]. destruct (delivering s) eqn:E; [by specialize (H8 eq_refl)|done].
  - intros Hd. by specialize (H8 Hd).
  - intros q Hq. by apply list_elem_of_singleton in Hq as ->.
Qed.

Lemma holds_set_head g du s p : q_holds g du s -> linking s = true -> head s = OO_PP_NULL -> last (pend g) = Some p -> q_holds g du (set_head p s).
Proof.
  intros H Hl Hh Hp. pose proof (uh_range _ _ _ H) as Hr. destruct (uh_head _ _ _ H) as [E|(_ & _ & -> & Ev & Ep)].
  - exfalso. apply last_in in Hp. assert (du ++ vis g ++ pend g = []) as HU by (apply first_null; [intros q Hq; by apply Hr|congruence]).
    assert (p ∈ du ++ vis g ++ pend g) as Hin by set_solver. rewrite HU in Hin. set_solver.
  - destruct (pend g) as [|q [|]] eqn:Epd; try done. simplify_eq/=. destruct H as [H1 H2 H3 H4 H5 H6 H7 H8 H9 H10 H11 H12 H13].
    rewrite Ev, Epd in *. split; rewrite ?Ev, ?Epd; simpl; try done. by left. by rewrite Hl.
Qed.

Lemma holds_finish g du s p : q_holds g du s -> head s <> OO_PP_NULL -> last (pend g) = Some p -> q_holds g du (set_linking false (set_tail p s)).
Proof.
  intros [H1 H2 H3 H4 H5 H6 H7 H8 H9 H10 H11 H12 H13] Hh Hp. split; simpl; try done.
  - left. by destruct H5 as [|(_ & ? & _)].
  - intros _. split; [by destruct H5 as [|(_ & ? & _)]|]. right. rewrite !last_app, Hp. done.
Qed.

Lemma holds_complete g du s l e : q_holds g du s -> linking s = false -> take (length l) (pend g) = l -> buffers (vis g) + buffers l < 2 ^ 32 ->
  q_holds (Chan (dlv g) (vis g ++ l) (drop (length l) (pend g))) du (took_effect e (set_added (u32 (pkts_added s + buffers l)) s)).
Proof.
  intros H Hln Hl Hb. assert ((vis g ++ l) ++ drop (length l) (pend g) = vis g ++ pend g) as E.
  { rewrite <- app_assoc. f_equal. rewrite <- Hl at 1. apply take_drop. }
  destruct H as [H1 H2 H3 H4 H5 H6 H7 H8 H9 H10 H11 H12 H13]. split; simpl; rewrite ?E; try done.
  - left. by apply H6.
  - rewrite H11, app_assoc. rewrite (buffers_app (dlv g ++ vis g) l). unfold wrap. by rewrite Zplus_mod_idemp_l.
  - rewrite buffers_app. lia.
Qed.

(** ** What the actions of the reader keep *)

Lemma app_cons_mid (l : list Z) p l' : (l ++ [p]) ++ l' = l ++ p :: l'.
Proof. by rewrite <- app_assoc. Qed.

Lemma holds_move g du s n e : q_holds g du s -> delivering s = false -> vis g <> [] -> first (vis g) = n ->
  q_holds g du (took_effect e (set_extract n s)).
Proof.
  intros [H1 H2 H3 H4 H5 H6 H7 H8 H9 H10 H11 H12 H13] Hd Hv Hn. split; simpl; try done.
  - right; right. split_and!; [by destruct (vis g)|by rewrite first_app|done].
  - by rewrite Hd.
Qed.

Lemma holds_count g du s p v e : q_holds g du s -> delivering s = false -> vis g = p :: v -> extract s = p ->
  q_holds (Chan (dlv g ++ [p]) v (pend g)) (du ++ [p])
    (took_effect e (set_delivering true (set_delivered (u32 (pkts_delivered s + n_buffers p)) s))).
Proof.
  intros [[dr H1] H2 H3 H4 H5 H6 H7 H8 H9 H10 H11 H12 H13] Hd Hv He. rewrite Hv in *. split; simpl; rewrite ?app_cons_mid; try done.
  - exists dr. by rewrite H1, <- app_assoc.
  - destruct H5 as [|(_ & _ & _ & ? & _)]; [by left|done].
  - right; left. by rewrite last_snoc, He.
  - intros _. by rewrite last_snoc, He.
  - intros q Hq. apply H9. simpl. set_solver.
  - intros q [Hq|Hq]%elem_of_app; [destruct (H10 q Hq) as [|[? _]]; [by left|congruence]|]. apply list_elem_of_singleton in Hq as ->.
    right. by rewrite last_snoc.
  - rewrite H12, (buffers_app (dlv g)). unfold wrap. rewrite Zplus_mod_idemp_l. f_equal. simpl. lia.
  - simpl in H13. specialize (Hbuf p). lia.
Qed.

Lemma consumed_set f : consumed (Z.lor f CI_PKT_RX_FLAG_RECV_Q_CONSUMED) = true.
Proof.
  unfold consumed, CI_PKT_RX_FLAG_RECV_Q_CONSUMED. apply negb_true_iff, Z.eqb_neq. intros E.
  assert (Z.testbit (Z.land (Z.lor f 1) 1) 0 = true) as Hb by (rewrite Z.land_spec, Z.lor_spec, !orb_true_r; done). by rewrite E in Hb.
Qed.

Lemma consumed_clear f : consumed (Z.ldiff f CI_PKT_RX_FLAG_RECV_Q_CONSUMED) = false.
Proof. unfold consumed. rewrite Z.land_ldiff. done. Qed.

Lemma holds_mark g du s p : q_holds g du s -> delivering s = true -> extract s = p ->
  p ∈ du /\ q_holds g du (set_delivering false (set_flags p (Z.lor (rx_flags s p) CI_PKT_RX_FLAG_RECV_Q_CONSUMED) s)).
Proof.
  intros [H1 H2 H3 H4 H5 H6 H7 H8 H9 H10 H11 H12 H13] Hd He. pose proof (H8 Hd) as Hl. rewrite He in Hl. pose proof (last_in _ _ Hl) as Hin.
  apply NoDup_app in H3 as H3'. destruct H3' as (_ & Hsep & _). split; [done|]. split; simpl; try done.
  - right; left. by rewrite He.
  - intros q Hq. unfold put. rewrite (proj2 (Z.eqb_neq q p)); [by apply H9|]. intros ->. by apply (Hsep p).
  - intros q Hq. left. unfold put. destruct (Z.eqb_spec q p) as [->|Hne]; [apply consumed_set|].
    destruct (H10 q Hq) as [|[_ Hlq]]; [done|congruence].
Qed.

(** Where the reader finds the next packet. *)
Lemma reader_at g du s : q_holds g du s -> delivering s = false -> vis g <> [] ->
  0 <= extract s < n_pkts /\ 0 <= first (vis g) < n_pkts /\
  (consumed (rx_flags s (extract s)) = false -> extract s = first (vis g)) /\
  (consumed (rx_flags s (extract s)) = true -> udp_rx_next s (extract s) = first (vis g)).
Proof.
  intros H Hd Hv. assert (du ++ vis g ++ pend g <> []) as HU by (destruct du, (vis g); done).
  assert (forall q, q ∈ vis g -> q ∈ du ++ vis g ++ pend g) as Hsub by set_solver.
  split; [by apply (uh_range _ _ _ H), extract_in|]. split; [apply (uh_range _ _ _ H), Hsub, first_in; done|].
  assert (first (vis g ++ pend g) = first (vis g)) as Ef by (by apply first_app).
  destruct (uh_extract _ _ _ H) as [[E _]|[E|(E1 & E2 & _)]]; [done| |].
  - split; intros Hc.
    + destruct (uh_consumed _ _ _ H (extract s) (last_in _ _ E)) as [Hc'|[Hd' _]]; congruence.
    + pose proof (uh_chain _ _ _ H) as Hch. apply last_Some in E as [l El]. rewrite El, <- app_assoc in Hch. apply follows_drop in Hch.
      simpl in Hch. destruct Hch as (_ & _ & Hch). by rewrite (follows_first _ _ _ Hch), Ef.
  - rewrite E2, Ef. split; [done|]. intros Hc. rewrite (uh_fresh _ _ _ H) in Hc; [done|]. pose proof (first_in _ Hv). set_solver.
Qed.

Lemma next_is_successor g du s p : q_holds g du s -> p ∈ vis g ++ pend g ->
  udp_rx_next s p = successor p (vis g ++ pend g) /\ (udp_rx_next s p = OO_PP_NULL \/ udp_rx_next s p ∈ vis g ++ pend g).
Proof.
  intros H Hp. assert (udp_rx_next s p = successor p (vis g ++ pend g)) as E.
  { eapply follows_successor; [eapply follows_drop, H|apply (proj2 (proj2 (proj1 (NoDup_app _ _) (uh_nodup _ _ _ H))))|done]. }
  split; [done|]. rewrite E. clear. induction (vis g ++ pend g) as [|q l IH]; simpl; [by left|].
  destruct (q =? p); [destruct l; [by left|right; simpl; set_solver]|]. destruct IH; [by left|right; set_solver].
Qed.

(** ** Stable assertions *)

Abbreviation keeps := (stable q_inv u_guar).
Abbreviation starts := (start events u_pre).
Abbreviation ol := (outline events (fun _ => True) q_inv u_guar starts (fun _ _ => True)).

Definition logged (t : nat) (h : list uevent) (s : recv_q) : Prop := of_thread t (events s) = h.

Lemma u_guar_events t s s' : u_guar t s s' -> forall t', t' <> t -> of_thread t' (events s') = of_thread t' (events s).
Proof.
  intros ((e & -> & He) & _) t' Hne. rewrite of_thread_app. enough (of_thread t' e = []) as -> by apply app_nil_r.
  induction He as [|x e Hx He IH]; [done|]. unfold of_thread in *. rewrite filter_cons_False; [done|]. congruence.
Qed.

Lemma writer_refl s : writer_does s s.
Proof. split_and!; try done. intros g Hv. exists g, [], []. by rewrite !app_nil_r. Qed.

Lemma writer_quiet s s' : pkts_delivered s' = pkts_delivered s -> delivering s' = delivering s -> extract s' = extract s -> events s' = events s ->
  rx_flags s' = rx_flags s -> udp_rx_next s' = udp_rx_next s -> u_guar 0 s s'.
Proof.
  intros E1 E2 E3 E4 E5 E6. split; [exists []; by rewrite app_nil_r|]. split_and!; [done|done|done|].
  intros g Hv. exists g, [], []. rewrite !app_nil_r, E5, E6. split_and!; [|done..]. unfold u_view in *. by rewrite E4.
Qed.

Lemma reader_refl s : reader_does s s.
Proof. split_and!; try done. intros g Hv. exists g. split_and!; done || lia. Qed.

Lemma u_guar_refl t s : u_guar t s s.
Proof. split; [exists []; by rewrite app_nil_r|]. destruct t as [|[|t]]; [apply writer_refl|apply reader_refl|done]. Qed.

Lemma stable_logged t h : keeps t (logged t h).
Proof. intros t' s s' Hne _ _ Hg Hm. unfold logged. by rewrite (u_guar_events _ _ _ Hg) by done. Qed.

(** What the writer knows is kept by the reader, and the other way round. *)
Lemma stable_writer h (P : recv_q -> Prop) : (forall s s', reader_does s s' -> P s -> P s') -> keeps 0%nat (fun s => logged 0 h s /\ P s).
Proof.
  intros HP t' s s' Hne HI HI' Hg [Hm H]. split; [by apply (stable_logged 0 h t' s s')|]. destruct Hg as [_ Hg].
  destruct t' as [|[|t']]; [done|by eapply HP|by subst].
Qed.

Lemma stable_reader h (P : recv_q -> Prop) : (forall s s', writer_does s s' -> P s -> P s') -> keeps 1%nat (fun s => logged 1 h s /\ P s).
Proof.
  intros HP t' s s' Hne HI HI' Hg [Hm H]. split; [by apply (stable_logged 1 h t' s s')|]. destruct Hg as [_ Hg].
  destruct t' as [|[|t']]; [by eapply HP|done|by subst].
Qed.

Lemma reader_keeps_absent p s s' : reader_does s s' -> absent p s -> absent p s' /\ rx_flags s' p = rx_flags s p /\ udp_rx_next s' p = udp_rx_next s p.
Proof.
  intros (E1 & _ & _ & _ & E2 & Hf & _) Ha. split; [|split; [by apply Hf|by rewrite E2]]. destruct Ha as (l & Hl & Hp). exists l. by rewrite E1, E2.
Qed.

(** A packet on its way into the queue, with its flag and its link. *)
Definition ready (p : Z) (Q : Z -> Z -> Prop) (s : recv_q) : Prop :=
  linking s = false /\ 0 <= p < n_pkts /\ absent p s /\ Q (rx_flags s p) (udp_rx_next s p).

Lemma reader_keeps_ready p Q s s' : reader_does s s' -> ready p Q s -> ready p Q s'.
Proof.
  intros Hr (Hl & Hp & Ha & HQ). destruct (reader_keeps_absent p s s' Hr Ha) as (Ha' & E1 & E2). pose proof Hr as (_ & _ & _ & El & _).
  unfold ready. by rewrite E1, E2, El.
Qed.

(** The packet has been linked, and [head] is as given. *)
Definition linked_last (p : Z) (Q : Z -> Prop) (s : recv_q) : Prop :=
  linking s = true /\ Q (head s) /\ exists g, u_view s = Some g /\ last (pend g) = Some p.

Lemma reader_keeps_linked p Q s s' : reader_does s s' -> linked_last p Q s -> linked_last p Q s'.
Proof.
  intros (E1 & _ & _ & El & _ & _ & Hg) (Hl & HQ & g & Hv & Hp). destruct (Hg g Hv) as (g' & Hv' & Ep & _).
  unfold linked_last. rewrite E1, El. split_and!; [done|done|]. exists g'. by rewrite Ep.
Qed.

(** The writer's private actions before the packet is linked. *)
Lemma private_step h p s s' : q_inv s -> logged 0 h s -> ready p (fun _ _ => True) s ->
  head s' = head s /\ tail s' = tail s /\ pkts_added s' = pkts_added s /\ extract s' = extract s /\ pkts_delivered s' = pkts_delivered s /\
  linking s' = linking s /\ delivering s' = delivering s -> events s' = events s ->
  (forall q, q <> p -> udp_rx_next s' q = udp_rx_next s q /\ rx_flags s' q = rx_flags s q) ->
  q_inv s' /\ u_guar 0 s s' /\ logged 0 h s' /\ ready p (fun _ _ => True) s'.
Proof.
  intros (g & du & Hv & Hq) Hm (Hl & Hp & Ha & _) E Ee Hoth. pose proof (absent_not_in _ _ _ _ Hq Hl Ha) as Hni.
  pose proof E as (E1 & E2 & E3 & E4 & E5 & E6 & E7). assert (u_view s' = Some g) as Hv' by (unfold u_view in *; by rewrite Ee).
  split; [exists g, du; split; [done|by eapply holds_private]|]. split; [|split].
  - split; [exists []; by rewrite app_nil_r|]. split_and!; [done|done|done|]. intros g1 Hv1. assert (g1 = g) as -> by congruence.
    exists g, [], []. rewrite !app_nil_r. split_and!; [done..|]. intros q Hqq. assert (q <> p) as Hne.
    { intros ->. destruct Hqq as [Heq|Hin]; [|set_solver]. destruct (decide (du ++ vis g ++ pend g = [])) as [HU|HU].
      - destruct (uh_extract _ _ _ Hq) as [[_ He]|[He|(He & _)]]; [unfold OO_PP_NULL in He; lia|apply last_in in He; set_solver|].
        apply app_eq_nil in HU as [_ HU]. done.
      - apply Hni. rewrite Heq. by eapply extract_in. }
    destruct (Hoth q Hne) as [-> ->]. done.
  - unfold logged in *. by rewrite Ee.
  - destruct Ha as (l & Hc & Hpl). split_and!; [congruence|lia|lia|exists l; rewrite E1; split; [|done]|done].
    eapply follows_ext; [|done]. intros q Hql. apply Hoth. by intros ->.
Qed.

(** An action that makes an operation of the writer take effect. *)
Lemma writer_effect h o s s' g g' du' v w : u_view s = Some g -> u_spec g (0%nat, o, 0) = Some g' -> events s' = events s ++ [(0%nat, o, 0)] ->
  logged 0 h s -> q_holds g' du' s' ->
  pkts_delivered s' = pkts_delivered s -> delivering s' = delivering s -> (extract s <> OO_PP_NULL -> extract s' = extract s) ->
  dlv g' = dlv g -> vis g' = vis g ++ v -> vis g' ++ pend g' = (vis g ++ pend g) ++ w -> rx_flags s' = rx_flags s ->
  (forall p, udp_rx_next s p <> OO_PP_NULL -> udp_rx_next s' p = udp_rx_next s p) ->
  q_inv s' /\ u_guar 0 s s' /\ logged 0 (h ++ [(0%nat, o, 0)]) s' /\ u_view s' = Some g'.
Proof.
  intros Hv Hs Ee Hm Hq Ed Edl Ex E1 E2 E3 Ef En. pose proof (u_view_effect _ _ _ _ _ Hv Hs Ee) as Hv'.
  split; [by exists g', du'|]. split; [|split; [|done]].
  - split; [exists [(0%nat, o, 0)]; split; [done|by apply Forall_singleton]|]. split_and!; [done|done|done|]. intros g1 Hv1. assert (g1 = g) as -> by congruence.
    exists g', v, w. split_and!; [done..|]. intros p _. rewrite Ef. split; [done|]. apply En.
  - unfold logged in *. by rewrite Ee, of_thread_app, Hm, of_thread_mine.
Qed.

(** The last write of [ci_udp_recv_q_put_pending]. *)
Lemma finish_outline o h p :
  ol 0%nat o h (Do (fun s => (set_linking false (set_tail p s), 0)) (fun _ => Ret (Some 0)))
    (fun s => logged 0 (h ++ [(0%nat, o, 0)]) s /\ linked_last p (fun hd => hd <> OO_PP_NULL) s).
Proof.
  apply outline_store; [apply stable_writer, reader_keeps_linked|]. intros s (g & du & Hv & Hq) [Hm (Hl & Hh & g1 & Hv1 & Hp)] _.
  assert (g1 = g) as -> by congruence. split; [exists g, du; split; [done|by apply holds_finish]|]. split.
  - by apply writer_quiet.
  - exists (logged 0 (h ++ [(0%nat, o, 0)])). split; [done|]. apply outline_ret; [apply stable_logged|done].
Qed.

(** Linking a packet behind others. *)
Lemma link_outline h p tl : 0 <= tl < n_pkts ->
  ol 0%nat (OPending p) h (Do (fun s => (took_effect (0%nat, OPending p, 0) (set_linking true (set_rx_next tl p s)), 0))
      (fun _ => Do (fun s => (ci_udp_recv_q_reap s, 0)) (fun _ => Do (fun s => (set_linking false (set_tail p s), 0)) (fun _ => Ret (Some 0)))))
    (fun s => logged 0 h s /\ (ready p (fun f nx => consumed f = false /\ nx = OO_PP_NULL) s /\ head s <> OO_PP_NULL /\ tail s = tl)).
Proof.
  intros Htl. apply outline_store; [apply stable_writer|].
  { intros s s' Hr (H1 & H2 & H3). split; [by eapply reader_keeps_ready|]. destruct Hr as (-> & -> & _). done. }
  intros s (g & du & Hv & Hq) [Hm ((Hl & Hp & Ha & Hf & Hn) & Hh & <-)] _. pose proof (absent_not_in _ _ _ _ Hq Hl Ha) as Hni.
  destruct (holds_link g du s p (0%nat, OPending p, 0) Hq Hl Hh Hni Hp Hn Hf) as (_ & Htn & Hq').
  edestruct (writer_effect h (OPending p) s) as (HI' & Hg' & Hm' & Hv'); [exact Hv|done| |exact Hm|exact Hq'|done|done|done|done|symmetry; apply app_nil_r| |done| |].
  { done. } { simpl. apply app_assoc. }
  { intros q Hnq. simpl. unfold put. destruct (Z.eqb_spec q (tail s)) as [->|]; [by destruct Hnq|done]. }
  split; [done|]. split; [done|]. exists (fun s => logged 0 (h ++ [(0%nat, OPending p, 0)]) s /\ linked_last p (fun hd => hd <> OO_PP_NULL) s).
  split; [split; [done|]; split_and!; [done|done|]; eexists; split; [exact Hv'|]; simpl; by rewrite last_snoc|].
  apply outline_store; [apply stable_writer, reader_keeps_linked|]. clear s g du Hv Hq Hm Hl Ha Hf Hn Hh Htl Hni Htn Hq' HI' Hg' Hm' Hv'.
  intros s (g & du & Hv & Hq) [Hm (Hl & Hh & Hlast)] _. destruct (holds_reap g du s Hq Hl Hh) as (h' & r & du' & E & Hh' & Hq').
  rewrite E in *. split; [by exists g, du'|]. split; [by apply writer_quiet|].
  exists (fun s => logged 0 (h ++ [(0%nat, OPending p, 0)]) s /\ linked_last p (fun hd => hd <> OO_PP_NULL) s).
  split; [done|]. apply finish_outline.
Qed.

(** The first packet of all. *)
Lemma first_outline h p :
  ol 0%nat (OPending p) h (Do (fun s => (took_effect (0%nat, OPending p, 0) (set_linking true (set_extract p s)), 0))
      (fun _ => Do (fun s => (set_head p s, 0)) (fun _ => Do (fun s => (set_linking false (set_tail p s), 0)) (fun _ => Ret (Some 0)))))
    (fun s => logged 0 h s /\ (ready p (fun f nx => consumed f = false /\ nx = OO_PP_NULL) s /\ head s = OO_PP_NULL)).
Proof.
  apply outline_store; [apply stable_writer|].
  { intros s s' Hr (H1 & H2). split; [by eapply reader_keeps_ready|]. by destruct Hr as (-> & _). }
  intros s (g & du & Hv & Hq) [Hm ((Hl & Hp & Ha & Hf & Hn) & Hh)] _.
  destruct (holds_first g du s p (0%nat, OPending p, 0) Hq Hl Hh Hp Hn Hf) as (Hex & Hq').
  edestruct (writer_effect h (OPending p) s) as (HI' & Hg' & Hm' & Hv'); [exact Hv|done| |exact Hm|exact Hq'|done|done|by rewrite Hex|done|symmetry; apply app_nil_r| |done|done|].
  { done. } { simpl. apply app_assoc. }
  split; [done|]. split; [done|]. exists (fun s => logged 0 (h ++ [(0%nat, OPending p, 0)]) s /\ linked_last p (fun hd => hd = OO_PP_NULL) s).
  split; [split; [done|]; split_and!; [done|done|]; eexists; split; [exact Hv'|]; simpl; by rewrite last_snoc|].
  apply outline_store; [apply stable_writer, reader_keeps_linked|]. clear s g du Hv Hq Hm Hl Ha Hf Hn Hh Hex Hq' HI' Hg' Hm' Hv'.
  intros s (g & du & Hv & Hq) [Hm (Hl & Hh & g1 & Hv1 & Hlast)] _. assert (g1 = g) as -> by congruence.
  split; [exists g, du; split; [done|by apply holds_set_head]|]. split; [by apply writer_quiet|].
  exists (fun s => logged 0 (h ++ [(0%nat, OPending p, 0)]) s /\ linked_last p (fun hd => hd <> OO_PP_NULL) s).
  split; [|apply finish_outline]. split; [done|]. split_and!; [done| |by exists g]. simpl. unfold OO_PP_NULL. lia.
Qed.

Lemma stable_ready h p Q : keeps 0%nat (fun s => logged 0 h s /\ ready p Q s).
Proof. apply stable_writer. intros s s'. apply reader_keeps_ready. Qed.

(** After the flag is clear. *)
Lemma cleared_outline h p :
  ol 0%nat (OPending p) h
    (alet _x := awrite (set_rx_next p OO_PP_NULL) in
     alet h := aread head in
     alet _x :=
       (if OO_PP_NOT_NULL h then
          alet tl := aread tail in
          PKT_CHK tl (
            alet _x := awrite (fun s => took_effect (0%nat, OPending p, 0) (set_linking true (set_rx_next tl p s))) in
            awrite ci_udp_recv_q_reap)
        else
          alet e := aread extract in
          aassert (OO_PP_IS_NULL e) (
            alet _x := awrite (fun s => took_effect (0%nat, OPending p, 0) (set_linking true (set_extract p s))) in
            awrite (set_head p))) in
     alet _x := awrite (fun s => set_linking false (set_tail p s)) in
     Ret (Some 0))
    (fun s => logged 0 h s /\ ready p (fun f _ => consumed f = false) s).
Proof.
  cbn [abind aread awrite]. apply outline_store; [apply stable_ready|]. intros s HI [Hm (Hl & Hp & Ha & Hf)] _.
  destruct (private_step h p s (set_rx_next p OO_PP_NULL s) HI Hm) as (HI' & Hg' & Hm' & (Hl' & _ & Ha' & _)); [done|done|done| |].
  { intros q Hne. simpl. unfold put. by rewrite (proj2 (Z.eqb_neq q p) Hne). }
  split; [done|]. split; [done|]. exists (fun s => logged 0 h s /\ ready p (fun f nx => consumed f = false /\ nx = OO_PP_NULL) s).
  split; [split; [done|]; split_and!; [done|lia|lia|done|done|]; simpl; unfold put; by rewrite Z.eqb_refl|].
  clear s HI Hm Hl Ha Hf HI' Hg' Hm' Hl' Ha'. apply outline_load; [apply u_guar_refl|apply stable_ready|]. intros s (g & du & Hv & Hq) [Hm Hr].
  pose proof Hr as (Hl & _). destruct (uh_linked _ _ _ Hq Hl) as [Eh Et]. unfold OO_PP_NOT_NULL.
  destruct (Z.leb_spec 0 (head s)) as [Hh|Hh]; cbn [abind].
  - exists (fun s => logged 0 h s /\ (ready p (fun f nx => consumed f = false /\ nx = OO_PP_NULL) s /\ head s <> OO_PP_NULL)).
    split; [split; [done|]; split; [done|]; unfold OO_PP_NULL; lia|]. clear s g du Hv Hq Hm Hr Hl Eh Et Hh.
    apply outline_load; [apply u_guar_refl|apply stable_writer; intros s s' Hrd (H1 & H2); split; [by eapply reader_keeps_ready|by destruct Hrd as (-> & _)]|].
    intros s (g & du & Hv & Hq) [Hm [(Hl & _ & Ha & Hf & Hn) Hh]].
    destruct (holds_link g du s p (0%nat, OPending p, 0) Hq Hl Hh (absent_not_in _ _ _ _ Hq Hl Ha) Hp Hn Hf) as (Htl & _ & _).
    unfold PKT_CHK. rewrite (proj2 (Z.leb_le _ _)), (proj2 (Z.ltb_lt _ _)) by lia. eexists. split; [|by apply (link_outline h p (tail s))].
    done.
  - assert (head s = OO_PP_NULL) as Eh0.
    { rewrite Eh in *. destruct (du ++ vis g ++ pend g) as [|q l] eqn:EU; [done|]. pose proof (uh_range _ _ _ Hq q) as Hrq. rewrite EU in Hrq.
      specialize (Hrq ltac:(set_solver)). simpl in Hh. lia. }
    exists (fun s => logged 0 h s /\ (ready p (fun f nx => consumed f = false /\ nx = OO_PP_NULL) s /\ head s = OO_PP_NULL)). split; [done|].
    clear s g du Hv Hq Hm Hr Hl Eh Et Hh Eh0.
    apply outline_load; [apply u_guar_refl|apply stable_writer; intros s s' Hrd (H1 & H2); split; [by eapply reader_keeps_ready|by destruct Hrd as (-> & _)]|].
    intros s (g & du & Hv & Hq) [Hm [Hr Hh]]. pose proof Hr as (Hl & _ & Ha & Hf & Hn).
    destruct (holds_first g du s p (0%nat, OPending p, 0) Hq Hl Hh Hp Hn Hf) as (-> & _). eexists. split; [|by apply (first_outline h p)]. done.
Qed.

Lemma stable_u_pre t o : keeps t (u_pre t o).
Proof.
  intros t' s s' Hne (g0 & du0 & Hv0 & Hq0) _ [_ Hg]. destruct o as [p|l| |p|p]; cbn [u_pre].
  - intros (-> & Hl & Hp & Ha). destruct t' as [|[|t']]; [done| |by subst]. destruct (reader_keeps_absent p s s' Hg Ha) as (Ha' & _).
    destruct Hg as (_ & _ & _ & -> & _). done.
  - intros (-> & Hl & g & Hv & Ht & Hb). destruct t' as [|[|t']]; [done| |subst; eauto 8]. destruct Hg as (_ & _ & _ & -> & _ & _ & Hg).
    destruct (Hg g Hv) as (g' & Hv' & Ep & Hb'). split_and!; [done|done|]. exists g'. rewrite Ep. split_and!; [done|done|lia].
  - intros (-> & Hd). destruct t' as [|[|t']]; [|done|by subst]. destruct Hg as (_ & -> & _). done.
  - intros (-> & Hd & He & g & Hv & Hn & Hf). destruct t' as [|[|t']]; [|done|subst; eauto 8]. destruct Hg as (_ & Ed & Hex & Hg).
    destruct (Hg g Hv) as (g' & v & w & Hv' & _ & Ev & _).
    assert (g0 = g) as -> by congruence. destruct (reader_at _ _ _ Hq0 Hd Hn) as (Hr & _). assert (extract s <> OO_PP_NULL) by (unfold OO_PP_NULL; lia).
    split_and!; [done|congruence|by rewrite Hex|]. exists g'. rewrite Ev, first_app by done. split_and!; [done|by destruct (vis g)|done].
  - intros (-> & Hd & g & Hv & Hp). destruct t' as [|[|t']]; [|done|subst; eauto 8]. destruct Hg as (_ & Ed & _ & Hg).
    destruct (Hg g Hv) as (g' & v & w & Hv' & _ & _ & Evw & _). split_and!; [done|congruence|]. exists g'. rewrite Evw. split; [done|set_solver].
Qed.

Lemma stable_u_starts t o h : keeps t (starts t o h).
Proof. apply stable_start; [apply stable_u_pre|apply u_guar_events]. Qed.

Lemma pending_outline h p : ol 0%nat (OPending p) h (ci_udp_recv_q_put_pending 0 p) (starts 0%nat (OPending p) h).
Proof.
  apply outline_read; [apply u_guar_refl|apply stable_u_starts|]. intros s _ (Hm & _ & Hl & Hp & Ha).
  exists (fun s' => logged 0 h s' /\ ready p (fun f _ => f = rx_flags s p) s'). split; [by split|].
  set (f := rx_flags s p). clearbody f. clear s Hm Hl Ha. destruct (consumed f) eqn:Ef.
  - apply outline_store; [apply stable_ready|]. intros s HI [Hm (Hl & _ & Ha & Hf)] _.
    set (v := Z.ldiff f CI_PKT_RX_FLAG_RECV_Q_CONSUMED). destruct (private_step h p s (set_flags p v s) HI Hm) as (HI' & Hg' & Hm' & (Hl' & _ & Ha' & _)); [done|done|done| |].
    { intros q Hne. simpl. unfold put. by rewrite (proj2 (Z.eqb_neq q p) Hne). }
    split; [done|]. split; [done|]. exists (fun s => logged 0 h s /\ ready p (fun f _ => consumed f = false) s).
    split; [|apply cleared_outline]. split; [done|]. split_and!; [done|lia|lia|done|]. simpl. unfold put. rewrite Z.eqb_refl. apply consumed_clear.
  - eapply outline_weaken; [apply stable_ready| |apply cleared_outline]. intros s _ [Hm (Hl & _ & Ha & Hf)].
    split; [done|]. split_and!; [done|lia|lia|done|]. by rewrite Hf.
Qed.

Lemma complete_outline h l : ol 0%nat (OComplete l) h (ci_udp_recv_q_put_complete 0 l (buffers l)) (starts 0%nat (OComplete l) h).
Proof.
  apply outline_store; [apply stable_u_starts|]. intros s (g & du & Hv & Hq) (Hm & _ & Hl & g1 & Hv1 & Ht & Hb) _. assert (g1 = g) as -> by congruence.
  pose proof (holds_complete g du s l (0%nat, OComplete l, 0) Hq Hl Ht Hb) as Hq'.
  edestruct (writer_effect h (OComplete l) s) as (HI' & Hg' & Hm' & _); [exact Hv| | |exact Hm|exact Hq'|done|done|done|done|done| |done|done|].
  { cbn [u_spec]. by rewrite option_guard_True. } { done. }
  { simpl. instantiate (1 := []). rewrite app_nil_r, <- app_assoc. f_equal. rewrite <- Ht at 1. apply take_drop. }
  split; [done|]. split; [done|]. exists (logged 0 (h ++ [(0%nat, OComplete l, 0)])). split; [done|]. apply outline_ret; [apply stable_logged|done].
Qed.

(** An action that makes an operation of the reader take effect. *)
Lemma reader_effect h o b s s' g g' du' : u_view s = Some g -> u_spec g (1%nat, o, b) = Some g' -> events s' = events s ++ [(1%nat, o, b)] ->
  logged 1 h s -> q_holds g' du' s' ->
  head s' = head s /\ tail s' = tail s /\ pkts_added s' = pkts_added s /\ linking s' = linking s /\ udp_rx_next s' = udp_rx_next s /\ rx_flags s' = rx_flags s ->
  pend g' = pend g -> buffers (vis g') <= buffers (vis g) ->
  q_inv s' /\ u_guar 1 s s' /\ logged 1 (h ++ [(1%nat, o, b)]) s' /\ u_view s' = Some g'.
Proof.
  intros Hv Hs Ee Hm Hq (E1 & E2 & E3 & E4 & E5 & E6) Ep Hb. pose proof (u_view_effect _ _ _ _ _ Hv Hs Ee) as Hv'.
  split; [by exists g', du'|]. split; [|split; [|done]].
  - split; [exists [(1%nat, o, b)]; split; [done|by apply Forall_singleton]|]. split_and!; try done; [intros p _; by rewrite E6|].
    intros g1 Hv1. assert (g1 = g) as -> by congruence. by exists g'.
  - unfold logged in *. by rewrite Ee, of_thread_app, Hm, of_thread_mine.
Qed.

(** Recording an event changes nothing else. *)
Lemma holds_event g du s e : q_holds g du s -> q_holds g du (took_effect e s).
Proof. by intros [H1 H2 H3 H4 H5 H6 H7 H8 H9 H10 H11 H12 H13]. Qed.

Lemma reader_notes h o b s g du : u_view s = Some g -> q_holds g du s -> u_spec g (1%nat, o, b) = Some g -> logged 1 h s ->
  let s' := took_effect (1%nat, o, b) s in q_inv s' /\ u_guar 1 s s' /\ logged 1 (h ++ [(1%nat, o, b)]) s' /\ u_view s' = Some g.
Proof. intros Hv Hq Hs Hm. eapply reader_effect; [exact Hv|exact Hs|done|done|by apply holds_event|done|done|lia]. Qed.

(** What the reader knows: there are visible packets, and where it is. *)
Definition sees (Q : Z -> Z -> Z -> Prop) (s : recv_q) : Prop :=
  delivering s = false /\ exists g, u_view s = Some g /\ vis g <> [] /\ extract s <> OO_PP_NULL /\
    Q (extract s) (first (vis g)) (rx_flags s (extract s)).

Lemma writer_keeps_sees Q s s' : writer_does s s' -> sees Q s -> sees Q s'.
Proof.
  intros (_ & Ed & Hex & Hg) (Hd & g & Hv & Hn & He & HQ). destruct (Hg g Hv) as (g' & v & w & Hv' & _ & Ev & _ & Hf).
  specialize (Hex He). split; [congruence|]. exists g'. rewrite Hex, Ev, first_app by done. split_and!; [done|by destruct (vis g)|done|].
  destruct (Hf (extract s)) as [-> _]; [by left|done].
Qed.

Lemma stable_sees h Q : keeps 1%nat (fun s => logged 1 h s /\ sees Q s).
Proof. apply stable_reader. intros s s'. apply writer_keeps_sees. Qed.

(** After the reader has moved on to a new packet. *)
Lemma moved_outline h nx : 0 <= nx < n_pkts ->
  ol 1%nat OGet h
    (alet e' := aread extract in
     PKT_CHK e' (
       alet f' := aread (fun s => rx_flags s e') in
       aassert (negb (consumed f')) (Ret (Some e'))))
    (fun s => logged 1 (h ++ [(1%nat, OGet, nx)]) s /\ sees (fun x _ f => x = nx /\ consumed f = false) s).
Proof.
  intros Hr. apply outline_read; [apply u_guar_refl|apply stable_sees|]. intros s _ [Hm (Hd & g & Hv & Hn & He & Hx & Hf)]. rewrite Hx.
  exists (fun s => logged 1 (h ++ [(1%nat, OGet, nx)]) s /\ sees (fun x _ f => x = nx /\ consumed f = false) s).
  split; [split; [done|]; split; [done|]; by exists g|]. unfold PKT_CHK. rewrite (proj2 (Z.leb_le _ _)), (proj2 (Z.ltb_lt _ _)) by lia. cbn [andb aassert].
  clear s Hm Hd g Hv Hn He Hx Hf. apply outline_read; [apply u_guar_refl|apply stable_sees|]. intros s _ [Hm (Hd & g & Hv & Hn & He & Hx & Hf)].
  assert (consumed (rx_flags s nx) = false) as -> by (by rewrite <- Hx). exists (logged 1 (h ++ [(1%nat, OGet, nx)])). split; [done|]. apply outline_ret; [apply stable_logged|done].
Qed.

(** The packet the reader is at was delivered before. *)
Lemma move_outline h e :
  ol 1%nat OGet h
    (alet nx := aread (fun s => udp_rx_next s e) in
     alet _x := awrite (fun s => took_effect (1%nat, OGet, nx) (set_extract nx s)) in
     alet e' := aread extract in
     PKT_CHK e' (
       alet f' := aread (fun s => rx_flags s e') in
       aassert (negb (consumed f')) (Ret (Some e'))))
    (fun s => logged 1 h s /\ sees (fun x _ f => x = e /\ consumed f = true) s).
Proof.
  apply outline_read; [apply u_guar_refl|apply stable_sees|]. intros s (g & du & Hv & Hq) [Hm (Hd & g1 & Hv1 & Hn & He & <- & Hf)].
  assert (g1 = g) as -> by congruence. destruct (reader_at _ _ _ Hq Hd Hn) as (_ & Hr & _ & Hnx). rewrite (Hnx Hf).
  exists (fun s => logged 1 h s /\ sees (fun _ fv _ => fv = first (vis g)) s). split; [split; [done|]; split; [done|]; by exists g|].
  set (nx := first (vis g)) in *. clearbody nx. clear s g du Hv Hq Hm Hd Hv1 Hn He Hf Hnx.
  apply outline_store; [apply stable_sees|]. intros s (g & du & Hv & Hq) [Hm (Hd & g1 & Hv1 & Hn & He & Hf)] _. assert (g1 = g) as -> by congruence.
  edestruct (reader_effect h OGet nx s) as (HI' & Hg' & Hm' & Hv'); [exact Hv| | |exact Hm|eapply (holds_move g du s nx); done|done|done|lia|].
  { cbn [u_spec]. by rewrite option_guard_True. } { done. }
  split; [done|]. split; [done|]. exists (fun s => logged 1 (h ++ [(1%nat, OGet, nx)]) s /\ sees (fun x _ f => x = nx /\ consumed f = false) s).
  split; [|by apply moved_outline]. split; [done|]. split; [done|]. exists g. split_and!; [done|done|simpl; unfold OO_PP_NULL; lia|done|].
  simpl. apply (uh_fresh _ _ _ Hq). rewrite <- Hf. pose proof (first_in _ Hn). set_solver.
Qed.

Lemma get_outline h : ol 1%nat OGet h (ci_udp_recv_q_get 1) (starts 1%nat OGet h).
Proof.
  apply outline_read; [apply u_guar_refl|apply stable_u_starts|]. intros s _ (Hm & _ & Hd).
  exists (fun s' => logged 1 h s' /\ (delivering s' = false /\ pkts_delivered s' = pkts_delivered s)). split; [done|].
  set (d := pkts_delivered s). clearbody d. clear s Hm Hd. apply outline_do; [apply stable_reader; by intros s s' (-> & -> & _)|].
  intros s (g & du & Hv & Hq) [Hm [Hd <-]] _. cbn [fst snd]. rewrite (counts_differ _ _ _ Hq). case_bool_decide as Hn.
  - destruct (reader_notes h OGet OO_PP_NULL s g du Hv Hq) as (H1 & H2 & H3 & _); [cbn [u_spec]; by rewrite Hn|done|].
    split; [done|]. split; [done|]. exists (logged 1 (h ++ [(1%nat, OGet, OO_PP_NULL)])). split; [done|]. apply outline_ret; [apply stable_logged|done].
  - split; [by exists g, du|]. split; [apply u_guar_refl|]. exists (fun s => logged 1 h s /\ sees (fun _ _ _ => True) s).
    split; [split; [done|]; split; [done|]; exists g; destruct (reader_at _ _ _ Hq Hd Hn) as (Hr & _); split_and!; try done; unfold OO_PP_NULL; lia|].
    clear s g du Hv Hq Hm Hd Hn. apply outline_load; [apply u_guar_refl|apply stable_sees|]. intros s (g & du & Hv & Hq) [Hm (Hd & g1 & Hv1 & Hn & He & _)].
    assert (g1 = g) as -> by congruence. destruct (reader_at _ _ _ Hq Hd Hn) as (Hr & _). unfold PKT_CHK.
    rewrite (proj2 (Z.leb_le _ _)), (proj2 (Z.ltb_lt _ _)) by lia. exists (fun s' => logged 1 h s' /\ sees (fun x _ _ => x = extract s) s').
    split; [split; [done|]; split; [done|]; by exists g|]. set (e := extract s) in *. clearbody e. clear s g du Hv Hq Hm Hd Hv1 Hn He Hr. cbn [andb aassert].
    apply outline_do; [apply stable_sees|]. intros s (g & du & Hv & Hq) [Hm (Hd & g1 & Hv1 & Hn & He & <-)] _. assert (g1 = g) as -> by congruence.
    cbn [fst snd]. destruct (reader_at _ _ _ Hq Hd Hn) as (_ & _ & Hfresh & _). destruct (consumed (rx_flags s (extract s))) eqn:Ef.
    + split; [by exists g, du|]. split; [apply u_guar_refl|]. eexists. split; [|apply move_outline]. split; [done|]. split; [done|]. by exists g.
    + destruct (reader_notes h OGet (extract s) s g du Hv Hq) as (H1 & H2 & H3 & _); [cbn [u_spec]; rewrite option_guard_True; [done|by apply Hfresh]|done|].
      split; [done|]. split; [done|]. exists (logged 1 (h ++ [(1%nat, OGet, extract s)])). split; [done|]. apply outline_ret; [apply stable_logged|done].
Qed.

Lemma deliver_outline h p : ol 1%nat (ODeliver p) h (ci_udp_recv_q_deliver 1 p) (starts 1%nat (ODeliver p) h).
Proof.
  apply outline_store; [apply stable_u_starts|]. intros s (g & du & Hv & Hq) (Hm & _ & Hd & He & g1 & Hv1 & Hn & Hf) _. assert (g1 = g) as -> by congruence.
  destruct (reader_at _ _ _ Hq Hd Hn) as (Hr & _). destruct (vis g) as [|p' v] eqn:Ev; [done|]. simpl in Hf. subst p'.
  pose proof (holds_count g du s p v (1%nat, ODeliver p, 0) Hq Hd Ev He) as Hq'.
  edestruct (reader_effect h (ODeliver p) 0 s) as (HI' & Hg' & Hm' & _); [exact Hv| | |exact Hm|exact Hq'|done|done| |].
  { cbn [u_spec]. by rewrite Ev, option_guard_True. } { done. } { rewrite Ev. unfold buffers. simpl. specialize (Hbuf p). lia. }
  split; [done|]. split; [done|]. rewrite He in Hr.
  exists (fun s => logged 1 (h ++ [(1%nat, ODeliver p, 0)]) s /\ (delivering s = true /\ extract s = p)). split; [done|].
  clear s g du Hv Hq Hm Hd He Hv1 Hn Ev v Hq' HI' Hg' Hm'. apply outline_store.
  { apply stable_reader. intros s s' (_ & -> & Hex & _) [Hd He]. split; [done|]. rewrite Hex; [done|]. unfold OO_PP_NULL. lia. }
  intros s (g & du & Hv & Hq) [Hm [Hd He]] _. destruct (holds_mark g du s p Hq Hd He) as [Hin Hq']. split; [by exists g, du|].
  split; [|exists (logged 1 (h ++ [(1%nat, ODeliver p, 0)])); split; [done|]; apply outline_ret; [apply stable_logged|done]].
  split; [exists []; by rewrite app_nil_r|]. split_and!; try done; [|intros g1 Hv1; exists g1; split_and!; [done|done|lia]].
  intros q (l & Hc & Hql). simpl. unfold put. rewrite (proj2 (Z.eqb_neq q p)); [done|]. intros ->. apply Hql.
  destruct (uh_head _ _ _ Hq) as [Eh|(_ & _ & -> & _)]; [|set_solver]. rewrite Eh in Hc. rewrite (follows_unique _ _ _ _ (uh_chain _ _ _ Hq) Hc). set_solver.
Qed.

(** The successor is known not to be null. *)
Lemma next_outline h p : ol 1%nat (ONext p) h (ci_udp_recv_q_next 1 p) (starts 1%nat (ONext p) h).
Proof.
  apply outline_read; [apply u_guar_refl|apply stable_u_starts|]. intros s (g & du & Hv & Hq) Hst. pose proof Hst as (_ & _ & _ & g1 & Hv1 & Hp).
  assert (g1 = g) as -> by congruence. rewrite (uh_fresh _ _ _ Hq p Hp). exists (starts 1%nat (ONext p) h). split; [done|]. cbn [negb aassert].
  clear s g du Hv Hq Hst Hv1 Hp. apply outline_do; [apply stable_u_starts|]. intros s (g & du & Hv & Hq) (Hm & _ & Hd & g1 & Hv1 & Hp) _.
  assert (g1 = g) as -> by congruence. cbn [fst snd]. destruct (next_is_successor _ _ _ _ Hq Hp) as [Es Hin].
  assert (forall q, q ∈ vis g ++ pend g -> 0 <= q < n_pkts) as Hr by (intros q Hq2; apply (uh_range _ _ _ Hq); set_solver).
  unfold OO_PP_IS_NULL. destruct (Z.ltb_spec (udp_rx_next s p) 0) as [H0|H0].
  - destruct Hin as [En|Hin]; [|apply Hr in Hin; lia].
    destruct (reader_notes h (ONext p) OO_PP_NULL s g du Hv Hq) as (H1 & H2 & H3 & _); [cbn [u_spec]; rewrite option_guard_True; [done|by rewrite <- Es]|done|].
    split; [done|]. split; [done|]. exists (logged 1 (h ++ [(1%nat, ONext p, OO_PP_NULL)])). split; [done|]. apply outline_ret; [apply stable_logged|done].
  - split; [by exists g, du|]. split; [apply u_guar_refl|].
    exists (fun s => logged 1 h s /\ (udp_rx_next s p <> OO_PP_NULL /\ exists g, u_view s = Some g /\ p ∈ vis g ++ pend g)).
    split; [split; [done|]; split; [unfold OO_PP_NULL; lia|by exists g]|]. clear s g du Hv Hq Hm Hd Hv1 Hp Es Hin Hr H0. apply outline_do.
    { apply stable_reader. intros s s' (_ & _ & _ & Hg) (Hn & g & Hv & Hp). destruct (Hg g Hv) as (g' & v & w & Hv' & _ & _ & Evw & Hf).
      destruct (Hf p) as [_ Hnx]; [by right|]. rewrite (Hnx Hn). split; [done|]. exists g'. rewrite Evw. split; [done|set_solver]. }
    intros s (g & du & Hv & Hq) [Hm (Hn & g1 & Hv1 & Hp)] _. assert (g1 = g) as -> by congruence. cbn [fst snd].
    destruct (next_is_successor _ _ _ _ Hq Hp) as [Es [Hin|Hin]]; [done|].
    assert (0 <= udp_rx_next s p < n_pkts) as Hr by (apply (uh_range _ _ _ Hq); set_solver).
    destruct (reader_notes h (ONext p) (udp_rx_next s p) s g du Hv Hq) as (H1 & H2 & H3 & _); [cbn [u_spec]; by rewrite option_guard_True|done|].
    split; [done|]. split; [done|]. exists (logged 1 (h ++ [(1%nat, ONext p, udp_rx_next s p)])). split; [done|]. unfold PKT_CHK.
    rewrite (proj2 (Z.leb_le _ _)), (proj2 (Z.ltb_lt _ _)) by lia. apply outline_ret; [apply stable_logged|done].
Qed.

Lemma u_outline t o h : ol t o h (u_code t o) (starts t o h).
Proof.
  destruct (decide (t = match o with OPending _ | OComplete _ => 0 | _ => 1 end)%nat) as [->|Hne].
  - destruct o; [apply pending_outline|apply complete_outline|apply get_outline|apply deliver_outline|apply next_outline].
  - apply outline_false. intros s [_ Hp]. by destruct o, Hp.
Qed.
End Code.

(** ** Runs *)

Definition u_step (n_pkts : Z) (n_buffers : Z -> Z) (reap : recv_q -> recv_q) : rconf -> rconf -> Prop :=
  rstep (u_code n_pkts n_buffers reap) (u_code n_pkts n_buffers reap) (fun s t o => u_pre n_pkts n_buffers t o s) (fun _ => True).

(** The packets that were put, in order. *)
Definition puts (l : list uevent) : list Z := omap (fun e => match snd (fst e) with OPending p => Some p | _ => None end) l.

Lemma replay_puts l g g' : u_replay g l = Some g' -> dlv g' ++ vis g' ++ pend g' = (dlv g ++ vis g ++ pend g) ++ puts l.
Proof.
  unfold puts. revert g. induction l as [|[[t o] b] l IH]; intros g; cbn [u_replay]; [intros [= <-]; by rewrite app_nil_r|].
  destruct (u_spec g (t, o, b)) as [g1|] eqn:E; [|done]. intros H. cbn [mbind option_bind] in H. rewrite (IH _ H). cbn [omap list_omap fst snd].
  destruct o as [p|l1| |p|p]; cbn [u_spec] in E; apply guarded in E as [G [= <-]]; simpl.
  - by rewrite !app_assoc, <- (app_assoc _ [p]).
  - destruct G as [_ Ht]. f_equal. f_equal. rewrite <- app_assoc. f_equal. rewrite <- Ht at 1. apply take_drop.
  - done.
  - destruct G as (_ & Hn & Hf). destruct (vis g) as [|q v]; [done|]. simpl in *. subst q. f_equal. by rewrite <- app_assoc.
  - done.
Qed.

(** What is documented of [ci_udp_recv_q_reap]: it takes packets from the front, up to the
    one the reader is at. *)
Definition reaps_before_extract (reap : recv_q -> recv_q) : Prop := forall s l, follows (udp_rx_next s) (head s) l ->
  exists l1 l2 r, l = l1 ++ l2 /\ extract s ∉ l1 /\ reap s = set_head (first l2) (set_reaped r s).

Lemma holds_init n_pkts n_buffers q : linking q = false -> delivering q = false -> q_holds n_pkts n_buffers chan0 [] (ci_udp_recv_q_init q).
Proof.
  intros Hl Hd. split; simpl; try done.
  - by exists [].
  - apply NoDup_nil_2.
  - intros p Hp. set_solver.
  - by left.
  - intros _. split; [done|by left].
  - by left.
  - by rewrite Hd.
  - intros p Hp. set_solver.
  - intros p Hp. set_solver.
Qed.

(** C28: the receive queue of a UDP socket between its two sides.  From a freshly
    initialised queue, in every interleaving of the loads and stores of the writer
    ([ci_udp_recv_q_put_pending], [_put_complete], under the lock of the stack) and the
    reader ([ci_udp_recv_q_get], [_deliver], [_next], under the lock of the socket), where the
    callers keep to the rules of [u_pre] and the library's reclaiming stops at the packet
    the reader is at: no assertion fails and no identifier outside the packets is
    followed; the operations took effect one after the other and returned what they
    return on lists; delivered, visible and pending packets together are the packets put,
    in order, so that none is lost, repeated or overtaken; and the queue says it is empty
    exactly when nothing is visible, with the number of visible buffers right across
    the wrap-around of the counters. *)
Theorem udp_recv_q_in_order n_pkts n_buffers reap q c : (forall p, 1 <= n_buffers p) -> reaps_before_extract reap ->
  linking q = false -> delivering q = false -> events q = [] ->
  rtc (u_step n_pkts n_buffers reap) (RConf (ci_udp_recv_q_init q) ∅ []) c ->
  exists g, u_replay chan0 (events (shared c)) = Some g /\ (exists du, q_holds n_pkts n_buffers g du (shared c)) /\
    dlv g ++ vis g ++ pend g = puts (events (shared c)) /\
    ci_udp_recv_q_is_empty (shared c) = bool_decide (vis g = []) /\
    (buffers n_buffers (vis g) < 2 ^ 31 -> ci_udp_recv_q_pkts (shared c) = buffers n_buffers (vis g)) /\
    (forall t o, threads c !! t <> Some (o, Fail)) /\
    (forall t, threads c !! t = None -> of_thread t (events (shared c)) = of_thread t (outs c)) /\
    (forall t o b, threads c !! t = Some (o, Ret (Some b)) -> of_thread t (events (shared c)) = of_thread t (outs c) ++ [(t, o, b)]).
Proof.
  intros Hbuf Hreap Hl Hd He Hs.
  destruct (good_facts events (fun _ => True) (q_inv n_pkts n_buffers) (u_guar n_buffers) (start events (u_pre n_pkts n_buffers)) (fun _ _ => True) c) as ((g & du & Hv & Hq) & H1 & H2 & H3).
  - apply (outlines_sound (u_code n_pkts n_buffers reap) (u_code n_pkts n_buffers reap) events (fun s t o => u_pre n_pkts n_buffers t o s) (fun _ => True)) with (s0 := ci_udp_recv_q_init q) (pre := u_pre n_pkts n_buffers);
      [intros; by apply u_outline|intros; by apply u_outline|done|done|apply u_guar_events|by intros t []|by intros t []| |done|done|exact Hs].
    exists chan0, []. split; [by unfold u_view; simpl; rewrite He|by apply holds_init].
  - exists g. split; [done|]. split; [by exists du|]. split; [apply (replay_puts _ chan0 g Hv)|]. split; [by eapply counts_differ|].
    split; [|done]. intros Hb. unfold ci_udp_recv_q_pkts. rewrite (uh_added _ _ _ _ _ Hq), (uh_delivered _ _ _ _ _ Hq), buffers_app.
    pose proof (buffers_nonneg n_buffers Hbuf (vis g)) as [H0 _].
    assert (u32 (u32 (buffers n_buffers (dlv g) + buffers n_buffers (vis g)) - u32 (buffers n_buffers (dlv g))) = buffers n_buffers (vis g)) as E.
    { unfold wrap. rewrite <- Zminus_mod. rewrite Z.mod_small; lia. }
    unfold swrap. rewrite E, (proj2 (Z.ltb_lt _ _)) by (simpl; lia). done.
Qed.

(** ** A run *)

(** Reclaiming that walks from the front to [extract], for stacks of up to ten packets. *)
Fixpoint skip_to (fuel : nat) (nx : Z -> Z) (e h : Z) : Z :=
  match fuel with O => h | S fuel' => if (h =? e) || (h <? 0) then h else skip_to fuel' nx e (nx h) end.

Definition demo_reap (s : recv_q) : recv_q := set_head (skip_to 10 (udp_rx_next s) (extract s) (head s)) s.

Lemma skip_to_ok fuel nx e l : forall h, follows nx h l -> exists l1 l2, l = l1 ++ l2 /\ e ∉ l1 /\ skip_to fuel nx e h = first l2.
Proof.
  revert l. induction fuel as [|fuel IH]; intros l h Hf; cbn [skip_to]; [exists [], l; split_and!; [done|set_solver|by apply follows_first in Hf]|].
  destruct (Z.eqb_spec h e) as [->|Hne]; [exists [], l; split_and!; [done|set_solver|by apply follows_first in Hf]|]. cbn [orb].
  destruct (Z.ltb_spec h 0) as [Hh|Hh]; [exists [], l; split_and!; [done|set_solver|by apply follows_first in Hf]|].
  destruct l as [|p l]; simpl in Hf; [unfold OO_PP_NULL in Hf; lia|]. destruct Hf as (-> & _ & Hf). destruct (IH l (nx p) Hf) as (l1 & l2 & -> & He & E).
  exists (p :: l1), l2. split_and!; [done|set_solver|done].
Qed.

Lemma demo_reap_ok : reaps_before_extract demo_reap.
Proof.
  intros s l Hf. destruct (skip_to_ok 10 _ (extract s) l _ Hf) as (l1 & l2 & -> & He & E). exists l1, l2, (pkts_reaped s).
  split_and!; [done|done|]. unfold demo_reap. by rewrite E.
Qed.

Fixpoint walk (fuel : nat) (nx : Z -> Z) (h : Z) : option (list Z) :=
  if h =? OO_PP_NULL then Some []
  else match fuel with O => None | S fuel' => if h <? 0 then None else l ← walk fuel' nx (nx h); Some (h :: l) end.

Lemma walk_follows fuel nx l : forall h, walk fuel nx h = Some l -> follows nx h l.
Proof.
  revert l. induction fuel as [|fuel IH]; intros l h; cbn [walk]; destruct (Z.eqb_spec h OO_PP_NULL) as [->|Hne]; try done; try (by intros [= <-]).
  destruct (Z.ltb_spec h 0); [done|]. destruct (walk fuel nx (nx h)) as [l'|] eqn:E; [|done]. intros [= <-]. simpl. split_and!; [done|done|by apply IH].
Qed.

(** The rules of the callers as a test. *)
Definition u_pre_b (n_pkts : Z) (n_buffers : Z -> Z) (s : recv_q) (t : nat) (o : uop) : bool :=
  match u_view s with
  | None => false
  | Some g =>
      match o with
      | OPending p => Nat.eqb t 0 && negb (linking s) && (0 <=? p) && (p <? n_pkts) &&
          match walk 10 (udp_rx_next s) (head s) with Some l => bool_decide (p ∉ l) | None => false end
      | OComplete l => Nat.eqb t 0 && negb (linking s) && bool_decide (take (length l) (pend g) = l) &&
          (buffers n_buffers (vis g) + buffers n_buffers l <? 2 ^ 32)
      | OGet => Nat.eqb t 1 && negb (delivering s)
      | ODeliver p => Nat.eqb t 1 && negb (delivering s) && (extract s =? p) && bool_decide (vis g <> []) && (first (vis g) =? p)
      | ONext p => Nat.eqb t 1 && negb (delivering s) && bool_decide (p ∈ vis g ++ pend g)
      end
  end.

Lemma u_pre_b_ok n_pkts n_buffers s t o : u_pre_b n_pkts n_buffers s t o = true -> u_pre n_pkts n_buffers t o s.
Proof.
  unfold u_pre_b. destruct (u_view s) as [g|] eqn:Ev; [|done]. destruct o as [p|l| |p|p]; cbn [u_pre]; intros H;
    repeat match goal with H : _ && _ = true |- _ => apply andb_true_iff in H as [H ?] end;
    match goal with H : Nat.eqb t _ = true |- _ => apply Nat.eqb_eq in H as -> end;
    repeat match goal with H : negb _ = true |- _ => apply negb_true_iff in H | H : bool_decide _ = true |- _ => apply bool_decide_eq_true in H end.
  - destruct (walk 10 (udp_rx_next s) (head s)) as [l|] eqn:E; [|done]. split_and!; [done|done|lia|lia|]. exists l. split; [by eapply walk_follows|].
    by match goal with H : bool_decide _ = true |- _ => apply bool_decide_eq_true in H end.
  - split_and!; [done|done|]. exists g. split_and!; [done|done|lia].
  - done.
  - split_and!; [done|done|lia|]. exists g. split_and!; [done|done|lia].
  - split_and!; [done|done|]. by exists g.
Qed.

(** A fresh queue; the packets were used before. *)
Definition old_q : recv_q := RecvQ 9 9 9 9 9 9 (fun _ => 9) (fun _ => 1) false false [].

(** The first packet is taken while the second one is linked and not visible; the third
    reclaims the first, which is then put again. *)
Definition udp_schedule : list (@cmd uop) :=
  let acts t n := repeat (Act t) n in
  [Call 0 (OPending 4)] ++ acts 0%nat 8%nat ++ [Return 0; Call 1 OGet] ++ acts 1%nat 2%nat ++ [Return 1; Call 0 (OComplete [4]); Act 0; Return 0; Call 1 OGet] ++
  acts 1%nat 4%nat ++ [Return 1; Call 0 (OPending 2)] ++ acts 0%nat 6%nat ++ [Call 1 (ODeliver 4); Act 1; Act 0; Act 1; Return 1; Call 1 OGet; Act 1; Act 0; Return 0; Act 1; Return 1] ++
  [Call 0 (OComplete [2]); Act 0; Return 0; Call 1 OGet] ++ acts 1%nat 8%nat ++ [Return 1; Call 0 (OPending 3)] ++ acts 0%nat 8%nat ++
  [Return 0; Call 1 (ONext 2)] ++ acts 1%nat 3%nat ++ [Return 1; Call 0 (OPending 4)] ++ acts 0%nat 8%nat ++ [Return 0].

Definition udp_run : option rconf :=
  rexec (u_code 5 (fun _ => 1) demo_reap) (u_code 5 (fun _ => 1) demo_reap) (u_pre_b 5 (fun _ => 1)) (fun _ => true) (RConf (ci_udp_recv_q_init old_q) ∅ []) udp_schedule.

Definition reader_results : list uevent :=
  let e o b := (1%nat, o, b) in [e OGet OO_PP_NULL; e OGet 4; e (ODeliver 4) 0; e OGet OO_PP_NULL; e OGet 2; e (ONext 2) 3].

Lemma udp_recv_q_in_order_witness : exists c g, udp_run = Some c /\ u_replay chan0 (events (shared c)) = Some g /\
  dlv g ++ vis g ++ pend g = puts (events (shared c)) /\ puts (events (shared c)) = [4; 2; 3; 4] /\ vis g = [2] /\
  ci_udp_recv_q_pkts (shared c) = 1 /\ of_thread 1%nat (outs c) = reader_results.
Proof.
  assert (option_map (fun c => (puts (events (shared c)), of_thread 1%nat (outs c))) udp_run = Some ([4; 2; 3; 4], reader_results)) as E1 by (vm_compute; reflexivity).
  assert ((c ← udp_run; g ← u_replay chan0 (events (shared c)); Some (vis g)) = Some [2]) as E2 by (vm_compute; reflexivity).
  destruct udp_run as [c|] eqn:E; [|discriminate E1]. cbn [option_map mbind option_bind] in E1, E2.
  destruct (udp_recv_q_in_order 5 (fun _ => 1) demo_reap old_q c) as (g & Hv & _ & Hp & _ & Hb & _);
    [intros p; lia|exact demo_reap_ok|reflexivity|reflexivity|reflexivity| |].
  - eapply rexec_steps; [|intros s _; exact I|exact E]. intros s t o. apply u_pre_b_ok.
  - exists c, g. rewrite Hv in E2. cbn [mbind option_bind] in E2. injection E1 as Ep Eo. injection E2 as Eg.
    rewrite Eg in Hb. split; [reflexivity|]. split; [exact Hv|]. split; [exact Hp|]. split; [exact Ep|]. split; [exact Eg|].
    split; [apply Hb; vm_compute; reflexivity|exact Eo].
Defined.
