(* ===== verification/AcceptQ.v ===== *)
(** * AcceptQ: the accept queue of a listening socket ([ci/internal/ip.h])

    Connections are put in the queue under the lock of the stack and taken from it under
    the lock of the listening socket, at the same time.  Puts push on a list with a
    compare-and-swap; whoever takes empties that list with another one and reverses it
    onto a list of its own.  The locks of sockets are part of the model: any number of
    threads compete for the lock, the one that has it takes connections and may put them
    back.  The theorem shows for every interleaving that the two lists are one queue. *)

From Stdlib Require Import ZArith Lia Bool.
From stdpp Require Import gmap relations.
From S2P Require Import Prelude PktQueue Chain Atomic Rely.

(** [OHand] is not code of the queue: a thread passes a socket that is not in the queue to
    another thread. *)
Inductive aop :=
  | OPut (w : Z) | OPutBackTail (w : Z) | OGet | OPeek | OPutBack (w : Z)
  | OTrylock | OLock | OLockOrSetFlag (flag : Z) | OSetFlag (flag : Z) | OClearFlag (flag : Z) | OUnlock
  | OHand (w : Z) (t : nat).

Abbreviation aevent := (nat * aop * Z)%type.

(** The queue and the lock word of a [ci_tcp_socket_listen]; the flags, the link and the
    state of the stack's lock that its operations look at.  The other fields are auxiliary
    and not read by the code: the rest of a list that is being reversed, the socket that is
    between two lists, what the counters are off by in the middle of an operation, and
    what has taken effect. *)
Record listen := Listen {
  acceptq_put : Z; acceptq_n_in : Z; acceptq_get : Z; acceptq_n_out : Z;
  wl_val : Z; sb_aflags : Z -> Z; wt_next : Z -> Z; ni_locked : bool;
  mv : Z; limbo : Z; adj : Z; late : Z; aevents : list aevent }.

Definition OO_SP_NULL : Z := -1.
Definition CI_ILL_END : Z := -1.
Definition OO_WAITABLE_LK_LOCKED : Z := 0x10000000.
Definition OO_WAITABLE_LK_NEED_WAKE : Z := 0x20000000.
Definition CI_SB_AFLAG_ORPHAN : Z := 0x1.
Definition CI_SB_AFLAG_TCP_IN_ACCEPTQ : Z := 0x2.

Definition OO_SP_IS_NULL (p : Z) : bool := p <? 0.
Definition OO_SP_NOT_NULL (p : Z) : bool := 0 <=? p.

Definition flagged (v f : Z) : bool := negb (Z.land v f =? 0).
Definition locked (l : Z) : bool := flagged l OO_WAITABLE_LK_LOCKED.

Definition set_aput v s := Listen v (acceptq_n_in s) (acceptq_get s) (acceptq_n_out s) (wl_val s) (sb_aflags s) (wt_next s) (ni_locked s) (mv s) (limbo s) (adj s) (late s) (aevents s).
Definition set_n_in v s := Listen (acceptq_put s) v (acceptq_get s) (acceptq_n_out s) (wl_val s) (sb_aflags s) (wt_next s) (ni_locked s) (mv s) (limbo s) (adj s) (late s) (aevents s).
Definition set_aget v s := Listen (acceptq_put s) (acceptq_n_in s) v (acceptq_n_out s) (wl_val s) (sb_aflags s) (wt_next s) (ni_locked s) (mv s) (limbo s) (adj s) (late s) (aevents s).
Definition set_n_out v s := Listen (acceptq_put s) (acceptq_n_in s) (acceptq_get s) v (wl_val s) (sb_aflags s) (wt_next s) (ni_locked s) (mv s) (limbo s) (adj s) (late s) (aevents s).
Definition set_wl v s := Listen (acceptq_put s) (acceptq_n_in s) (acceptq_get s) (acceptq_n_out s) v (sb_aflags s) (wt_next s) (ni_locked s) (mv s) (limbo s) (adj s) (late s) (aevents s).
Definition set_wt_next w v s := Listen (acceptq_put s) (acceptq_n_in s) (acceptq_get s) (acceptq_n_out s) (wl_val s) (sb_aflags s) (put (wt_next s) w v) (ni_locked s) (mv s) (limbo s) (adj s) (late s) (aevents s).
Definition set_mv v s := Listen (acceptq_put s) (acceptq_n_in s) (acceptq_get s) (acceptq_n_out s) (wl_val s) (sb_aflags s) (wt_next s) (ni_locked s) v (limbo s) (adj s) (late s) (aevents s).
Definition set_limbo v s := Listen (acceptq_put s) (acceptq_n_in s) (acceptq_get s) (acceptq_n_out s) (wl_val s) (sb_aflags s) (wt_next s) (ni_locked s) (mv s) v (adj s) (late s) (aevents s).
Definition set_adj v s := Listen (acceptq_put s) (acceptq_n_in s) (acceptq_get s) (acceptq_n_out s) (wl_val s) (sb_aflags s) (wt_next s) (ni_locked s) (mv s) (limbo s) v (late s) (aevents s).
Definition set_late v s := Listen (acceptq_put s) (acceptq_n_in s) (acceptq_get s) (acceptq_n_out s) (wl_val s) (sb_aflags s) (wt_next s) (ni_locked s) (mv s) (limbo s) (adj s) v (aevents s).
Definition done_a e s := Listen (acceptq_put s) (acceptq_n_in s) (acceptq_get s) (acceptq_n_out s) (wl_val s) (sb_aflags s) (wt_next s) (ni_locked s) (mv s) (limbo s) (adj s) (late s) (aevents s ++ [e]).

Definition ci_tcp_acceptq_n (s : listen) : Z := u32 (acceptq_n_in s - acceptq_n_out s).
Definition ci_tcp_acceptq_not_empty (s : listen) : bool := (0 <=? acceptq_put s) || OO_SP_NOT_NULL (acceptq_get s).

Section Code.
(** The number of sockets of the stack, the listening socket, and the parts of its lock
    that are in the library: what [ci_sock_unlock_slow] leaves in the lock word, and one
    round of [ci_sock_lock_slow], which says whether it got the lock. *)
Variables (n_ep_bufs tls : Z) (ci_sock_unlock_slow : Z -> Z) (ci_sock_lock_slow : Z -> Z * bool).

Definition TRUSTED_SOCK_ID {A} (id : Z) (k : act listen A) : act listen A := aassert (u32 id <? n_ep_bufs) k.

Definition ci_sock_is_locked : act listen Z := alet l := aread wl_val in Ret (Z.land l OO_WAITABLE_LK_LOCKED).

(** One round of the loop that pushes [w]: repeated when the compare-and-swap fails. *)
Definition acceptq_push (w : Z) (f : listen -> listen) (k : act listen (option Z)) : act listen (option Z) :=
  alet h := aread acceptq_put in
  alet _x := awrite (set_wt_next w h) in
  alet nx := aread (fun s => wt_next s w) in
  alet ok := Do (fun s => if acceptq_put s =? nx then (f (set_aput w s), 1) else (s, 0)) Ret in
  if ok =? 1 then k else Ret None.

Definition ci_tcp_acceptq_put (w : Z) : act listen (option Z) :=
  alet nx := aread (fun s => wt_next s w) in
  aassert (OO_SP_IS_NULL nx) (
    alet l := aread (fun s => Z.b2z (ni_locked s)) in
    aassert (negb (l =? 0)) (Ret None)).
Definition ci_tcp_acceptq_put_loop (t : nat) (w : Z) : act listen (option Z) :=
  acceptq_push w (fun s => done_a (t, OPut w, 0) (set_late 1 s)) (
    alet _x := awrite (fun s => set_late 0 (set_n_in (u32 (acceptq_n_in s + 1)) s)) in
    Ret (Some 0)).

Definition ci_tcp_acceptq_put_back_tail (w : Z) : act listen (option Z) :=
  alet nx := aread (fun s => wt_next s w) in
  aassert (OO_SP_IS_NULL nx) (
    alet l := ci_sock_is_locked in
    aassert (negb (l =? 0)) (
      alet f := aread (fun s => sb_aflags s w) in
      aassert (flagged f CI_SB_AFLAG_TCP_IN_ACCEPTQ) (Ret None))).
Definition ci_tcp_acceptq_put_back_tail_loop (t : nat) (w : Z) : act listen (option Z) :=
  acceptq_push w (fun s => done_a (t, OPutBackTail w, 0) (set_adj (-1) s)) (
    alet _x := awrite (fun s => set_adj 0 (set_n_out (u32 (acceptq_n_out s - 1)) s)) in
    Ret (Some 0)).

(** The list is reversed onto the other one, at most [fuel] sockets. *)
Fixpoint swizzle_loop (fuel : nat) (from_sp : Z) (k : act listen (option Z)) : act listen (option Z) :=
  match fuel with
  | O => Fail
  | S fuel' =>
      TRUSTED_SOCK_ID from_sp (
        let ts := from_sp in
        alet nx := Do (fun s => (set_mv (wt_next s ts) (set_limbo ts s), wt_next s ts)) Ret in
        alet g := aread acceptq_get in
        alet _x := awrite (set_wt_next ts g) in
        alet _x := awrite (fun s => set_limbo OO_SP_NULL (set_aget ts s)) in
        if OO_SP_NOT_NULL nx then swizzle_loop fuel' nx k else k)
  end.

(** One round of the loop that empties the list of puts, and what follows it; [k] is what
    the caller does next. *)
Definition ci_tcp_acceptq_get_swizzle (k : act listen (option Z)) : act listen (option Z) :=
  alet from := aread acceptq_put in
  alet ok := Do (fun s => if acceptq_put s =? from then (set_mv from (set_aput CI_ILL_END s), 1) else (s, 0)) Ret in
  if ok =? 1 then
    aassert (0 <=? from) (
      alet g := aread acceptq_get in
      aassert (OO_SP_IS_NULL g) (swizzle_loop (Z.to_nat n_ep_bufs) from k))
  else Ret None.

(** After the swizzle, or without it. *)
Definition acceptq_take (t : nat) : act listen (option Z) :=
  alet g := aread acceptq_get in
  aassert (OO_SP_NOT_NULL g) (
    alet w := aread acceptq_get in
    TRUSTED_SOCK_ID w (
      alet nx := aread (fun s => wt_next s w) in
      alet _x := awrite (fun s => set_limbo w (set_aget nx s)) in
      alet _x := awrite (fun s => done_a (t, OGet, w) (set_limbo OO_SP_NULL (set_adj 0 (set_wt_next w OO_SP_NULL s)))) in
      Ret (Some w))).

Definition ci_tcp_acceptq_get (t : nat) : act listen (option Z) :=
  alet l := ci_sock_is_locked in
  alet f := (if negb (l =? 0) then Ret 1 else alet f := aread (fun s => sb_aflags s tls) in Ret (Z.land f CI_SB_AFLAG_ORPHAN)) in
  aassert (negb (f =? 0)) (
    alet _x := awrite (fun s => set_adj (-1) (set_n_out (u32 (acceptq_n_out s + 1)) s)) in
    alet g := aread acceptq_get in
    if OO_SP_IS_NULL g then Ret None else acceptq_take t).
Definition ci_tcp_acceptq_get_loop (t : nat) : act listen (option Z) := ci_tcp_acceptq_get_swizzle (acceptq_take t).

Definition acceptq_look (t : nat) : act listen (option Z) :=
  alet g := aread acceptq_get in
  aassert (OO_SP_NOT_NULL g) (
    alet w := Do (fun s => (done_a (t, OPeek, acceptq_get s) s, acceptq_get s)) Ret in
    TRUSTED_SOCK_ID w (Ret (Some w))).

Definition ci_tcp_acceptq_peek (t : nat) : act listen (option Z) :=
  alet l := ci_sock_is_locked in
  aassert (negb (l =? 0)) (
    alet g := aread acceptq_get in
    if OO_SP_IS_NULL g then Ret None else acceptq_look t).
Definition ci_tcp_acceptq_peek_loop (t : nat) : act listen (option Z) := ci_tcp_acceptq_get_swizzle (acceptq_look t).

Definition ci_tcp_acceptq_put_back (t : nat) (w : Z) : act listen (option Z) :=
  alet l := ci_sock_is_locked in
  aassert (negb (l =? 0)) (
    alet f := aread (fun s => sb_aflags s w) in
    aassert (flagged f CI_SB_AFLAG_TCP_IN_ACCEPTQ) (
      alet _x := awrite (fun s => set_adj 1 (set_n_out (u32 (acceptq_n_out s - 1)) s)) in
      alet g := aread acceptq_get in
      alet _x := awrite (set_wt_next w g) in
      alet _x := awrite (fun s => done_a (t, OPutBack w, 0) (set_adj 0 (set_aget w s))) in
      Ret (Some 0))).

(** ** The lock of the socket *)

(** A compare-and-swap of the lock word; the operation takes effect with a swap. *)
Definition cas_wl (old new : Z) (e : aevent) : act listen Z :=
  Do (fun s => if wl_val s =? old then (done_a e (set_wl new s), 1) else (s, 0)) Ret.

(** The failed attempt takes effect when it fails. *)
Definition ci_sock_trylock (t : nat) : act listen (option Z) :=
  alet l := Do (fun s => (if locked (wl_val s) then done_a (t, OTrylock, 0) s else s, wl_val s)) Ret in
  if locked l then Ret (Some 0)
  else
    alet ok := Do (fun s => if wl_val s =? l then (done_a (t, OTrylock, 1) (set_wl (Z.lor l OO_WAITABLE_LK_LOCKED) s), 1)
                            else (done_a (t, OTrylock, 0) s, 0)) Ret in
    Ret (Some ok).

Definition ci_sock_lock (t : nat) : act listen (option Z) :=
  alet ok := cas_wl 0 OO_WAITABLE_LK_LOCKED (t, OLock, 0) in
  if ok =? 1 then Ret (Some 0) else Ret None.
Definition ci_sock_lock_slow_loop (t : nat) : act listen (option Z) :=
  alet ok := Do (fun s => let '(l, got) := ci_sock_lock_slow (wl_val s) in
                          ((if got then done_a (t, OLock, 0) (set_wl l s) else set_wl l s), Z.b2z got)) Ret in
  if ok =? 1 then Ret (Some 0) else Ret None.

Definition ci_sock_unlock (t : nat) : act listen (option Z) :=
  alet ok := cas_wl OO_WAITABLE_LK_LOCKED 0 (t, OUnlock, 0) in
  alet _x := (if ok =? 1 then Ret 0 else awrite (fun s => done_a (t, OUnlock, 0) (set_wl (ci_sock_unlock_slow (wl_val s)) s))) in
  Ret (Some 0).

Definition citp_waitable_lock_or_set_flag (t : nat) (flag : Z) : act listen (option Z) :=
  alet l := aread wl_val in
  let new_l := if negb (locked l) then Z.lor l OO_WAITABLE_LK_LOCKED else Z.lor l flag in
  let rc := Z.b2z (negb (locked l)) in
  alet ok := cas_wl l new_l (t, OLockOrSetFlag flag, rc) in
  if ok =? 1 then Ret (Some rc) else Ret None.

Definition citp_waitable_lock_set_flag (t : nat) (flag : Z) : act listen (option Z) :=
  alet l := aread wl_val in
  alet ok := cas_wl l (Z.lor l flag) (t, OSetFlag flag, 0) in
  if ok =? 1 then Ret (Some 0) else Ret None.

Definition citp_waitable_lock_clear_flag (t : nat) (flag : Z) : act listen (option Z) :=
  alet l := aread wl_val in
  alet ok := cas_wl l (Z.ldiff l flag) (t, OClearFlag flag, 0) in
  if ok =? 1 then Ret (Some 0) else Ret None.

Definition hand (t : nat) (w : Z) (t' : nat) : act listen (option Z) :=
  alet _x := awrite (done_a (t, OHand w t', 0)) in Ret (Some 0).

Definition a_code (t : nat) (o : aop) : act listen (option Z) :=
  match o with
  | OPut w => ci_tcp_acceptq_put w
  | OPutBackTail w => ci_tcp_acceptq_put_back_tail w
  | OGet => ci_tcp_acceptq_get t
  | OPeek => ci_tcp_acceptq_peek t
  | OPutBack w => ci_tcp_acceptq_put_back t w
  | OTrylock => ci_sock_trylock t
  | OLock => ci_sock_lock t
  | OLockOrSetFlag flag => citp_waitable_lock_or_set_flag t flag
  | OSetFlag flag => citp_waitable_lock_set_flag t flag
  | OClearFlag flag => citp_waitable_lock_clear_flag t flag
  | OUnlock => ci_sock_unlock t
  | OHand w t' => hand t w t'
  end.

(** The loop of an operation; an operation that is one loop starts over. *)
Definition a_loop (t : nat) (o : aop) : act listen (option Z) :=
  match o with
  | OPut w => ci_tcp_acceptq_put_loop t w
  | OPutBackTail w => ci_tcp_acceptq_put_back_tail_loop t w
  | OGet => ci_tcp_acceptq_get_loop t
  | OPeek => ci_tcp_acceptq_peek_loop t
  | OLock => ci_sock_lock_slow_loop t
  | _ => a_code t o
  end.
(** ** What the operations do *)

(** The queue, oldest connection first; the thread that has each socket outside the
    queue; and the thread that has the lock of the listening socket. *)
Record gq := GQ { queue : list Z; holder : gmap Z nat; owner : option nat }.

Definition a_spec (g : gq) (e : aevent) : option gq :=
  let '(t, o, b) := e in
  match o with
  | OPut w | OPutBackTail w => guard (b = 0 /\ holder g !! w = Some t) ;; Some (GQ (queue g ++ [w]) (delete w (holder g)) (owner g))
  | OGet => guard (head (queue g) = Some b) ;; Some (GQ (tail (queue g)) (<[b := t]> (holder g)) (owner g))
  | OPeek => guard (head (queue g) = Some b) ;; Some g
  | OPutBack w => guard (b = 0 /\ holder g !! w = Some t) ;; Some (GQ (w :: queue g) (delete w (holder g)) (owner g))
  | OTrylock | OLockOrSetFlag _ =>
      if b =? 1 then guard (owner g = None) ;; Some (GQ (queue g) (holder g) (Some t)) else guard (b = 0) ;; Some g
  | OLock => guard (b = 0 /\ owner g = None) ;; Some (GQ (queue g) (holder g) (Some t))
  | OSetFlag _ | OClearFlag _ => guard (b = 0) ;; Some g
  | OUnlock => guard (b = 0 /\ owner g = Some t) ;; Some (GQ (queue g) (holder g) None)
  | OHand w t' => guard (b = 0 /\ holder g !! w = Some t) ;; Some (GQ (queue g) (<[w := t']> (holder g)) (owner g))
  end.

Fixpoint a_replay (g : gq) (l : list aevent) : option gq :=
  match l with [] => Some g | e :: l' => g' ← a_spec g e; a_replay g' l' end.

Lemma a_replay_app g l l' : a_replay g (l ++ l') = (g' ← a_replay g l; a_replay g' l').
Proof. revert g. induction l as [|e l IH]; intros g; simpl; [done|]. destruct (a_spec g e) as [g'|]; simpl; [apply IH|done]. Qed.

Variable g0 : gq.

Definition a_view (s : listen) : option gq := a_replay g0 (aevents s).

Definition between (l : Z) : list Z := if l <? 0 then [] else [l].

(** The memory holds the queue: the rest of a list that is being reversed, the socket
    between two lists, the list to take from, and the list of puts. *)
Record a_holds (g : gq) (M G P : list Z) (s : listen) : Prop := {
  ah_mv : follows (wt_next s) (mv s) M;
  ah_get : follows (wt_next s) (acceptq_get s) G;
  ah_put : follows (wt_next s) (acceptq_put s) P;
  ah_queue : queue g = reverse M ++ between (limbo s) ++ G ++ reverse P;
  ah_nodup : NoDup (queue g);
  ah_range : forall w, w ∈ queue g \/ is_Some (holder g !! w) -> 0 <= w < n_ep_bufs;
  ah_held : forall w t, holder g !! w = Some t -> w ∉ queue g;
  ah_lock : locked (wl_val s) = true <-> owner g <> None;
  ah_free : owner g = None -> mv s = OO_SP_NULL /\ limbo s = OO_SP_NULL /\ adj s = 0;
  ah_count : u32 (acceptq_n_in s - acceptq_n_out s) = u32 (Z.of_nat (length (queue g)) - late s + adj s) }.

Definition a_inv (s : listen) : Prop := exists g M G P, a_view s = Some g /\ a_holds g M G P s.

(** A thread without the lock leaves what belongs to its holder and only appends to the
    queue; only thread 0, which has the lock of the stack, counts puts; the sockets other
    threads have stay as they are, and are given to them with a null link. *)
Record others_keep (t : nat) (g : gq) (s : listen) (g' : gq) (s' : listen) : Prop := {
  ok_env : sb_aflags s' = sb_aflags s /\ ni_locked s' = ni_locked s;
  ok_puts : t <> 0%nat -> late s' = late s;
  ok_lock : forall t', t' <> t -> owner g' = Some t' <-> owner g = Some t';
  ok_owner : owner g <> Some t -> acceptq_get s' = acceptq_get s /\ mv s' = mv s /\ limbo s' = limbo s /\ adj s' = adj s /\
    (forall w, w ∈ queue g -> wt_next s' w = wt_next s w) /\ exists l, queue g' = queue g ++ l;
  ok_held : forall t' w, t' <> t -> holder g !! w = Some t' -> holder g' !! w = Some t' /\ wt_next s' w = wt_next s w;
  ok_given : forall t' w, t' <> t -> holder g' !! w = Some t' -> holder g !! w = Some t' \/ wt_next s' w < 0 }.

Definition a_guar (t : nat) (s s' : listen) : Prop :=
  (exists e, aevents s' = aevents s ++ e /\ Forall (fun x => fst (fst x) = t) e) /\
  forall g, a_view s = Some g -> exists g', a_view s' = Some g' /\ others_keep t g s g' s'.

(** What a thread leaves when no call of it is under way. *)
Definition quiet (s : listen) : Prop := mv s = OO_SP_NULL /\ limbo s = OO_SP_NULL /\ adj s = 0.

Definition a_idle (t : nat) (s : listen) : Prop := exists g, a_view s = Some g /\
  (owner g = Some t -> quiet s) /\ (t = 0%nat -> late s = 0) /\ (forall w, holder g !! w = Some t -> wt_next s w < 0).

(** The rules of the callers.  Connections are put by the thread that has the lock of the
    stack; the socket that is put is in the hands of the thread; the queue is taken from by
    the thread that has the lock of the listening socket, when it is not empty; the flags
    of the lock word are other bits than the lock. *)
Definition a_allowed (s : listen) (t : nat) (o : aop) : Prop := exists g, a_view s = Some g /\
  match o with
  | OPut w => t = 0%nat /\ ni_locked s = true /\ holder g !! w = Some t
  | OPutBackTail w | OPutBack w => owner g = Some t /\ holder g !! w = Some t /\ flagged (sb_aflags s w) CI_SB_AFLAG_TCP_IN_ACCEPTQ = true
  | OGet | OPeek => owner g = Some t /\ ci_tcp_acceptq_not_empty s = true
  | OTrylock | OLock => True
  | OLockOrSetFlag flag | OSetFlag flag | OClearFlag flag => locked flag = false
  | OUnlock => owner g = Some t
  | OHand w _ => holder g !! w = Some t
  end.

Abbreviation keeps := (stable a_inv a_guar).

(** ** What a thread knows *)

(** A fact about the queue and the memory that the other threads do not change. *)
Definition kept (t : nat) (Q : gq -> listen -> Prop) : Prop :=
  forall t' g s g' s', t' <> t -> others_keep t' g s g' s' -> Q g s -> Q g' s'.

(** The events of the thread are [h]; the sockets it has, but [x], have null links. *)
Definition knows (t : nat) (h : list aevent) (lt x : Z) (Q : gq -> listen -> Prop) (s : listen) : Prop :=
  exists g, a_view s = Some g /\ of_thread t (aevents s) = h /\ (t = 0%nat -> late s = lt) /\
    (forall w, holder g !! w = Some t -> w <> x -> wt_next s w < 0) /\ Q g s.

Lemma guar_events t s s' : a_guar t s s' -> forall t', t' <> t -> of_thread t' (aevents s') = of_thread t' (aevents s).
Proof.
  intros [(e & -> & He) _] t' Hne. rewrite of_thread_app. assert (of_thread t' e = []) as ->; [|by rewrite app_nil_r].
  unfold of_thread. induction He as [|x e Hx He IH]; [done|]. rewrite filter_cons_False by congruence. done.
Qed.

Lemma stable_knows t h lt x Q : kept t Q -> keeps t (knows t h lt x Q).
Proof.
  intros HQ t' s s' Hne HI HI' Hg (g & Hv & Hh & Hl & Hw & Hq). destruct (proj2 Hg g Hv) as (g' & Hv' & Hk). exists g'.
  split; [done|]. split; [by rewrite (guar_events _ _ _ Hg)|]. split; [|split].
  - intros ->. rewrite (ok_puts _ _ _ _ _ Hk); [by apply Hl|done].
  - intros w Hh' Hx. destruct (ok_given _ _ _ _ _ Hk t w) as [Hh1|]; [done|done| |done].
    destruct (ok_held _ _ _ _ _ Hk t w) as [_ ->]; [done|done|]. by apply Hw.
  - by apply (HQ t' g s g' s').
Qed.

Lemma kept_and t Q R : kept t Q -> kept t R -> kept t (fun g s => Q g s /\ R g s).
Proof. intros HQ HR t' g s g' s' Hne Hk [H1 H2]. split; [by apply (HQ t' g s)|by apply (HR t' g s)]. Qed.

Lemma kept_true t : kept t (fun _ _ => True).
Proof. done. Qed.

(** A socket the thread has. *)
Definition mine (t : nat) (w v : Z) (g : gq) (s : listen) : Prop := holder g !! w = Some t /\ wt_next s w = v.

Lemma kept_mine t w v : kept t (mine t w v).
Proof. intros t' g s g' s' Hne Hk [Hh <-]. destruct (ok_held _ _ _ _ _ Hk t w) as [H1 H2]; [done|done|]. by split. Qed.

Lemma kept_has t w : kept t (fun g _ => holder g !! w = Some t).
Proof. intros t' g s g' s' Hne Hk Hh. by destruct (ok_held _ _ _ _ _ Hk t w). Qed.

(** What the holder of the lock knows. *)
Definition getter (t : nat) (a m l j : Z) (g : gq) (s : listen) : Prop :=
  owner g = Some t /\ acceptq_get s = a /\ mv s = m /\ limbo s = l /\ adj s = j.

Lemma kept_locked t (Q : gq -> listen -> Prop) :
  (forall g s g' s' l, acceptq_get s' = acceptq_get s -> mv s' = mv s -> limbo s' = limbo s -> adj s' = adj s ->
     (forall w, w ∈ queue g -> wt_next s' w = wt_next s w) -> queue g' = queue g ++ l -> Q g s -> Q g' s') ->
  kept t (fun g s => owner g = Some t /\ Q g s).
Proof.
  intros HQ t' g s g' s' Hne Hk [Ho Hq]. split; [by apply (ok_lock _ _ _ _ _ Hk)|].
  destruct (ok_owner _ _ _ _ _ Hk) as (H1 & H2 & H3 & H4 & H5 & l & H6); [congruence|]. by eapply HQ.
Qed.

Lemma kept_getter t a m l j : kept t (getter t a m l j).
Proof. apply kept_locked. intros g s g' s' q -> -> -> -> _ _. done. Qed.

Lemma kept_some t a m l j : kept t (fun g s => getter t a m l j g s /\ queue g <> []).
Proof.
  intros t' g s g' s' Hne Hk [Hg Hq]. split; [by apply (kept_getter _ _ _ _ _ t' g s)|].
  destruct (ok_owner _ _ _ _ _ Hk) as (_ & _ & _ & _ & _ & q & ->); [destruct Hg; congruence|]. by destruct (queue g).
Qed.

(** The link of a socket of the queue. *)
Lemma kept_link t a m l j w v : kept t (fun g s => getter t a m l j g s /\ w ∈ queue g /\ wt_next s w = v).
Proof.
  intros t' g s g' s' Hne Hk (Hg & Hw & Hv). split; [by apply (kept_getter _ _ _ _ _ t' g s)|].
  destruct (ok_owner _ _ _ _ _ Hk) as (_ & _ & _ & _ & Hn & q & ->); [destruct Hg; congruence|]. rewrite Hn by done. split; [set_solver|done].
Qed.

(** ** Actions *)

(** An action of [t] that leaves the queue as it is, or one that takes effect. *)
Definition acted (t : nat) (s s' : listen) (g' : gq) : Prop := a_inv s' /\ a_guar t s s' /\ a_view s' = Some g'.

Lemma silent t s s' g M G P : a_view s = Some g -> aevents s' = aevents s -> a_holds g M G P s' -> others_keep t g s g s' -> acted t s s' g.
Proof.
  intros Hv He Hh Hk. assert (a_view s' = Some g) as Hv' by (unfold a_view; by rewrite He). split; [by exists g, M, G, P|]. split; [|done].
  split; [exists []; by rewrite app_nil_r|]. intros g1 Hv1. exists g. by simplify_eq.
Qed.

Lemma effective t s s' g g' o b M G P : a_view s = Some g -> aevents s' = aevents s ++ [(t, o, b)] -> a_spec g (t, o, b) = Some g' ->
  a_holds g' M G P s' -> others_keep t g s g' s' -> acted t s s' g'.
Proof.
  intros Hv He Hs Hh Hk. assert (a_view s' = Some g') as Hv'.
  { unfold a_view. rewrite He, a_replay_app. unfold a_view in Hv. rewrite Hv. cbn [mbind option_bind a_replay]. by rewrite Hs. }
  split; [by exists g', M, G, P|]. split; [|done]. split; [exists [(t, o, b)]; split; [done|by apply Forall_singleton]|].
  intros g1 Hv1. exists g'. by simplify_eq.
Qed.

Lemma keep_refl t g s : others_keep t g s g s.
Proof. split; try done; try tauto. intros _. do 5 (split; [done|]). exists []. by rewrite app_nil_r. Qed.

Lemma a_guar_refl t s : a_guar t s s.
Proof.
  split; [exists []; by rewrite app_nil_r|]. intros g Hv. exists g. split; [done|apply keep_refl].
Qed.

Lemma events_mine t s o b : of_thread t (aevents (done_a (t, o, b) s)) = of_thread t (aevents s) ++ [(t, o, b)].
Proof. simpl. by rewrite of_thread_app, of_thread_mine. Qed.

(** The lists are disjoint parts of the queue. *)
Lemma parts g M G P s w : a_holds g M G P s -> w ∈ queue g <-> w ∈ M \/ w ∈ between (limbo s) \/ w ∈ G \/ w ∈ P.
Proof. intros H. rewrite (ah_queue _ _ _ _ _ H), !elem_of_app, !elem_of_reverse. tauto. Qed.

Lemma apart g M G P s w : a_holds g M G P s -> w ∉ queue g -> w ∉ M /\ w ∉ G /\ w ∉ P.
Proof. intros H Hw. rewrite (parts _ _ _ _ _ w H) in Hw. tauto. Qed.

(** The thread sets the link of a socket it has. *)
Lemma link_ok t g M G P s w v : a_holds g M G P s -> holder g !! w = Some t ->
  a_holds g M G P (set_wt_next w v s) /\ others_keep t g s g (set_wt_next w v s).
Proof.
  intros H Hw. pose proof (ah_held _ _ _ _ _ H w t Hw) as Hn. destruct (apart _ _ _ _ _ w H Hn) as (HM & HG & HP). split.
  - destruct H. split; simpl; try done; by apply follows_put.
  - split; simpl; try done; try tauto.
    + intros _. do 4 (split; [done|]). split; [intros x Hx; apply put_ne; congruence|]. exists []. by rewrite app_nil_r.
    + intros t' x Hne Hx. split; [done|]. apply put_ne. congruence.
Qed.

(** What the lock's holder does to its own fields only. *)
Lemma keep_own t g s s' : owner g = Some t -> sb_aflags s' = sb_aflags s -> ni_locked s' = ni_locked s -> late s' = late s ->
  (forall w, w ∉ queue g -> wt_next s' w = wt_next s w) -> (forall w t', holder g !! w = Some t' -> w ∉ queue g) -> others_keep t g s g s'.
Proof.
  intros Ho H1 H2 H3 H4 H5. split; try done; try tauto.
  intros t' w Hne Hw. split; [done|]. apply H4. by eapply H5.
Qed.

Lemma count_ok t g M G P s j v : a_holds g M G P s -> owner g = Some t ->
  u32 (acceptq_n_in s - v) = u32 (Z.of_nat (length (queue g)) - late s + j) ->
  a_holds g M G P (set_adj j (set_n_out v s)) /\ others_keep t g s g (set_adj j (set_n_out v s)).
Proof.
  intros H Ho Hc. pose proof (ah_held _ _ _ _ _ H) as Hd. split; [|by apply keep_own]. destruct H. split; simpl; try done. congruence.
Qed.

(** The list of puts becomes the list to be reversed. *)
Lemma grab_ok t g M G P s : a_holds g M G P s -> owner g = Some t -> acceptq_get s < 0 -> mv s < 0 -> limbo s < 0 ->
  let s' := set_mv (acceptq_put s) (set_aput CI_ILL_END s) in a_holds g P [] [] s' /\ others_keep t g s g s'.
Proof.
  intros H Ho Hg Hm Hl s'. pose proof (ah_held _ _ _ _ _ H) as Hd. split; [|by apply keep_own].
  pose proof (ah_queue _ _ _ _ _ H) as Hq. unfold between in Hq. rewrite (proj2 (Z.ltb_lt _ _)) in Hq by done.
  destruct (follows_end _ _ _ Hg (ah_get _ _ _ _ _ H)) as [-> Eg]. destruct (follows_end _ _ _ Hm (ah_mv _ _ _ _ _ H)) as [-> Em].
  destruct H. split; simpl; try done.
  - unfold between. rewrite (proj2 (Z.ltb_lt _ _)) by done. rewrite Hq, reverse_nil. simpl. by rewrite app_nil_r.
  - congruence.
Qed.

(** The next socket of that list. *)
Lemma unlink_ok t g M G P s : a_holds g M G P s -> owner g = Some t -> 0 <= mv s -> limbo s < 0 ->
  let ts := mv s in let s' := set_mv (wt_next s ts) (set_limbo ts s) in
  (exists M', M = ts :: M' /\ a_holds g M' G P s') /\ others_keep t g s g s' /\ ts ∈ queue g.
Proof.
  intros H Ho Hm Hl ts s'. pose proof (ah_held _ _ _ _ _ H) as Hd. destruct (follows_inv _ _ _ Hm (ah_mv _ _ _ _ _ H)) as (M' & -> & HM).
  assert (ts ∈ queue g) as Hts by (apply (parts _ _ _ _ _ ts H); set_solver).
  split; [|split; [by apply keep_own|done]]. exists M'. split; [done|]. pose proof (ah_queue _ _ _ _ _ H) as Hq.
  destruct H. split; simpl; try done; [|congruence]. rewrite Hq, reverse_cons. unfold between. rewrite (proj2 (Z.ltb_lt _ _)) by done.
  rewrite (proj2 (Z.ltb_ge _ _)) by done. by rewrite <- app_assoc.
Qed.

(** Its link is set: it is in no list now. *)
Lemma relink_ok t g M G P s v : a_holds g M G P s -> owner g = Some t -> 0 <= limbo s ->
  a_holds g M G P (set_wt_next (limbo s) v s) /\ others_keep t g s g (set_wt_next (limbo s) v s).
Proof.
  intros H Ho Hl. pose proof (ah_held _ _ _ _ _ H) as Hd. assert (limbo s ∈ queue g) as Hin.
  { apply (parts _ _ _ _ _ _ H). right. left. unfold between. rewrite (proj2 (Z.ltb_ge _ _)) by done. set_solver. }
  split; [|apply keep_own; try done; intros w Hw; simpl; apply put_ne; congruence].
  pose proof (ah_nodup _ _ _ _ _ H) as Hnd. rewrite (ah_queue _ _ _ _ _ H) in Hnd. unfold between in Hnd.
  rewrite (proj2 (Z.ltb_ge _ _)) in Hnd by done. apply NoDup_app in Hnd as (_ & H1 & [H2 _]%NoDup_cons).
  assert (limbo s ∉ M) by (intros Hx; apply (H1 (limbo s)); [by apply elem_of_reverse|set_solver]).
  assert (limbo s ∉ G /\ limbo s ∉ P) as [] by (rewrite elem_of_app, elem_of_reverse in H2; tauto).
  destruct H. split; simpl; try done; by apply follows_put.
Qed.

Lemma accept_join_ok t g M G P s : a_holds g M G P s -> owner g = Some t -> 0 <= limbo s -> wt_next s (limbo s) = acceptq_get s ->
  let s' := set_limbo OO_SP_NULL (set_aget (limbo s) s) in a_holds g M (limbo s :: G) P s' /\ others_keep t g s g s'.
Proof.
  intros H Ho Hl Hn s'. pose proof (ah_held _ _ _ _ _ H) as Hd. split; [|by apply keep_own]. pose proof (ah_queue _ _ _ _ _ H) as Hq.
  pose proof (ah_get _ _ _ _ _ H) as HG. destruct H. split; simpl; try done; [by rewrite Hn| |congruence].
  rewrite Hq. unfold between. by rewrite (proj2 (Z.ltb_ge _ _)).
Qed.

(** A push takes effect. *)
Definition pushed (w : Z) (g : gq) : gq := GQ (queue g ++ [w]) (delete w (holder g)) (owner g).

Lemma accept_push_ok t g M G P s s' w : a_holds g M G P s -> holder g !! w = Some t -> wt_next s w = acceptq_put s ->
  sb_aflags s' = sb_aflags s -> ni_locked s' = ni_locked s -> acceptq_put s' = w -> acceptq_get s' = acceptq_get s -> wt_next s' = wt_next s ->
  mv s' = mv s -> limbo s' = limbo s -> wl_val s' = wl_val s -> acceptq_n_in s' = acceptq_n_in s -> acceptq_n_out s' = acceptq_n_out s ->
  late s' - adj s' = late s - adj s + 1 -> (t <> 0%nat -> late s' = late s) -> (owner g <> Some t -> adj s' = adj s) ->
  a_holds (pushed w g) M G (w :: P) s' /\ others_keep t g s (pushed w g) s'.
Proof.
  intros H Hw Hn E1 E2 E3 E4 E5 E6 E7 E8 E9 E10 Ec Et Eo. pose proof (ah_held _ _ _ _ _ H w t Hw) as Hq. split.
  - pose proof (ah_range _ _ _ _ _ H) as Hr. assert (0 <= w < n_ep_bufs) as Hw0 by (apply Hr; right; by exists t).
    pose proof (ah_put _ _ _ _ _ H) as HP. destruct H as [H1 H2 H3 H4 H5 H6 H7 H8 H9 H10].
    split; rewrite ?E3, ?E4, ?E5, ?E6, ?E7, ?E8; try done; cbn [pushed queue holder owner].
    + cbn [follows]. rewrite Hn. split; [done|]. split; [lia|done].
    + rewrite H4, reverse_cons, <- !app_assoc. done.
    + apply NoDup_app. split; [done|]. split; [set_solver|apply NoDup_singleton].
    + intros x [Hx|[t' Hx]]; [|apply lookup_delete_Some in Hx as [_ Hx]; apply Hr; right; by exists t'].
      apply elem_of_app in Hx as [Hx|Hx%list_elem_of_singleton]; [apply Hr; by left|by subst].
    + intros x t' [Hne Hx]%lookup_delete_Some. rewrite not_elem_of_app. split; [by eapply H7|]. set_solver.
    + intros Ho. destruct (H9 Ho) as (? & ? & Ea). split; [done|]. split; [done|]. rewrite Eo; [done|congruence].
    + rewrite E9, E10, H10, length_app. f_equal. simpl. lia.
  - split; cbn [pushed queue holder owner]; try done; rewrite ?E5.
    + intros Ho. rewrite E4, E6, E7, Eo by done. do 5 (split; [done|]). by exists [w].
    + intros t' x Hne Hx. split; [|done]. apply lookup_delete_Some. split; [congruence|done].
    + intros t' x Hne [_ Hx]%lookup_delete_Some. by left.
Qed.

(** The put is counted. *)
Lemma counted_ok g M G P s : a_holds g M G P s -> late s = 1 ->
  let s' := set_late 0 (set_n_in (u32 (acceptq_n_in s + 1)) s) in a_holds g M G P s' /\ others_keep 0%nat g s g s'.
Proof.
  intros H Hl s'. split.
  - pose proof (ah_count _ _ _ _ _ H) as Hc. destruct H. split; simpl; try done. rewrite Hl in Hc.
    unfold wrap in *. rewrite Zminus_mod_idemp_l.
    replace (acceptq_n_in s + 1 - acceptq_n_out s) with (acceptq_n_in s - acceptq_n_out s + 1) by ring.
    rewrite <- Zplus_mod_idemp_l, Hc, Zplus_mod_idemp_l. f_equal. lia.
  - split; simpl; try done; try tauto. intros _. do 5 (split; [done|]). exists []. by rewrite app_nil_r.
Qed.

(** The first socket leaves the list to take from. *)
Lemma take_ok t g M G P s : a_holds g M G P s -> owner g = Some t -> 0 <= acceptq_get s -> mv s < 0 -> limbo s < 0 ->
  let w := acceptq_get s in let s' := set_limbo w (set_aget (wt_next s w) s) in
  (exists G', a_holds g M G' P s') /\ others_keep t g s g s' /\ head (queue g) = Some w.
Proof.
  intros H Ho Hg Hm Hl w s'. pose proof (ah_held _ _ _ _ _ H) as Hd. pose proof (ah_queue _ _ _ _ _ H) as Hq.
  destruct (follows_inv _ _ _ Hg (ah_get _ _ _ _ _ H)) as (G' & -> & HG). destruct (follows_end _ _ _ Hm (ah_mv _ _ _ _ _ H)) as [-> _].
  unfold between in Hq. rewrite (proj2 (Z.ltb_lt _ _)) in Hq by done. split; [|split; [by apply keep_own|by rewrite Hq]]. exists G'.
  destruct H. split; simpl; try done; [|congruence]. rewrite Hq. unfold between. rewrite (proj2 (Z.ltb_ge _ _)) by done. done.
Qed.

(** It leaves the queue, and is the thread's. *)
Definition taken (t : nat) (w : Z) (g : gq) : gq := GQ (tail (queue g)) (<[w := t]> (holder g)) (owner g).

Lemma taken_ok t g M G P s o : a_holds g M G P s -> owner g = Some t -> 0 <= limbo s -> mv s < 0 -> adj s = -1 ->
  let w := limbo s in let s' := done_a (t, o, w) (set_limbo OO_SP_NULL (set_adj 0 (set_wt_next w OO_SP_NULL s))) in
  a_holds (taken t w g) M G P s' /\ others_keep t g s (taken t w g) s' /\ head (queue g) = Some w.
Proof.
  intros H Ho Hl Hm Ha w s'. destruct (relink_ok t g M G P s OO_SP_NULL H Ho Hl) as [H' _].
  destruct (follows_end _ _ _ Hm (ah_mv _ _ _ _ _ H)) as [-> _]. pose proof (ah_queue _ _ _ _ _ H) as Hq.
  unfold between in Hq. rewrite (proj2 (Z.ltb_ge _ _)) in Hq by done. rewrite reverse_nil in Hq. cbn [app] in Hq. fold w in Hq.
  pose proof (ah_range _ _ _ _ _ H) as Hr. pose proof (ah_held _ _ _ _ _ H) as Hd.
  assert (w ∈ queue g) as Hin by (rewrite Hq; set_solver). split; [|split; [|by rewrite Hq]].
  - destruct H' as [H1 H2 H3 _ H5 _ _ H8 _ H10]. rewrite Hq in H5. apply NoDup_cons in H5 as [H5 H5'].
    split; cbn [taken queue holder owner]; try done; rewrite ?Hq; cbn [tail]; try done.
    + intros x [Hx|[t' Hx]]; [apply Hr; left; rewrite Hq; set_solver|]. rewrite lookup_insert in Hx.
      case_decide; [subst; apply Hr; by left|apply Hr; right; by exists t'].
    + intros x t'. rewrite lookup_insert. case_decide as E; [intros _; by subst|]. intros Hx. specialize (Hd x t' Hx). rewrite Hq in Hd. set_solver.
    + cbn in H10 |- *. rewrite H10, Hq, Ha. f_equal. simpl. lia.
  - split; cbn [taken queue holder owner]; try done.
    + intros t' x Hne Hx. assert (x <> w) by (intros ->; by apply (Hd w t' Hx)). rewrite lookup_insert_ne by done. split; [done|]. simpl. by apply put_ne.
    + intros t' x Hne. rewrite lookup_insert. case_decide; [congruence|]. by left.
Qed.

(** A socket the thread has is put in front. *)
Definition put_front (w : Z) (g : gq) : gq := GQ (w :: queue g) (delete w (holder g)) (owner g).

Lemma put_front_ok t g M G P s w o b : a_holds g M G P s -> owner g = Some t -> holder g !! w = Some t -> wt_next s w = acceptq_get s ->
  mv s < 0 -> limbo s < 0 -> adj s = 1 ->
  let s' := done_a (t, o, b) (set_adj 0 (set_aget w s)) in
  a_holds (put_front w g) M (w :: G) P s' /\ others_keep t g s (put_front w g) s'.
Proof.
  intros H Ho Hw Hn Hm Hl Ha s'. pose proof (ah_held _ _ _ _ _ H w t Hw) as Hq. destruct (follows_end _ _ _ Hm (ah_mv _ _ _ _ _ H)) as [-> _]. split.
  - pose proof (ah_range _ _ _ _ _ H) as Hr. assert (0 <= w < n_ep_bufs) as Hw0 by (apply Hr; right; by exists t).
    destruct H as [H1 H2 H3 H4 H5 H6 H7 H8 H9 H10]. unfold between in H4. rewrite (proj2 (Z.ltb_lt _ _)) in H4 by done.
    split; simpl; try done.
    + split; [done|]. split; [lia|by rewrite Hn].
    + unfold between. rewrite (proj2 (Z.ltb_lt _ _)) by done. by rewrite H4.
    + by apply NoDup_cons.
    + intros x [Hx|[t' Hx]]; [|apply lookup_delete_Some in Hx as [_ Hx]; apply Hr; right; by exists t'].
      apply elem_of_cons in Hx as [->|Hx]; [done|apply Hr; by left].
    + intros x t' [Hne Hx]%lookup_delete_Some. rewrite not_elem_of_cons. split; [done|]. by eapply H7.
    + congruence.
    + rewrite H10, Ha. f_equal. lia.
  - split; simpl; try done.
    + intros t' x Hne Hx. split; [|done]. apply lookup_delete_Some. split; [congruence|done].
    + intros t' x Hne [_ Hx]%lookup_delete_Some. by left.
Qed.

(** A socket the thread has is given away. *)
Lemma hand_ok t g M G P s w t' o b : a_holds g M G P s -> holder g !! w = Some t -> wt_next s w < 0 ->
  let g' := GQ (queue g) (<[w := t']> (holder g)) (owner g) in
  a_holds g' M G P (done_a (t, o, b) s) /\ others_keep t g s g' (done_a (t, o, b) s).
Proof.
  intros H Hw Hn g'. split.
  - pose proof (ah_range _ _ _ _ _ H) as Hr. pose proof (ah_held _ _ _ _ _ H) as Hd. destruct H. split; simpl; try done.
    + intros x [Hx|[t1 Hx]]; [apply Hr; by left|]. rewrite lookup_insert in Hx. case_decide; [subst; apply Hr; right; by exists t|apply Hr; right; by exists t1].
    + intros x t1. rewrite lookup_insert. case_decide; [subst; intros _; by eapply Hd|apply Hd].
  - split; simpl; try done.
    + intros _. do 5 (split; [done|]). exists []. by rewrite app_nil_r.
    + intros t1 x Hne Hx. split; [|done]. rewrite lookup_insert_ne; [done|congruence].
    + intros t1 x Hne. rewrite lookup_insert. case_decide; [subst; by right|]. by left.
Qed.

(** The lock word changes: the lock is taken, released, or stays as it is. *)
Lemma lock_ok t g M G P s l o b : a_holds g M G P s -> owner g = None -> locked l = true ->
  let g' := GQ (queue g) (holder g) (Some t) in let s' := done_a (t, o, b) (set_wl l s) in a_holds g' M G P s' /\ others_keep t g s g' s'.
Proof.
  intros H Ho Hl g' s'. split; [by destruct H; split; simpl; try done|]. split; simpl; try done.
  - intros t' Hne. split; congruence.
  - intros _. do 5 (split; [done|]). exists []. by rewrite app_nil_r.
  - intros t' w _ Hw. by left.
Qed.

Lemma unlock_ok t g M G P s l o b : a_holds g M G P s -> owner g = Some t -> quiet s -> locked l = false ->
  let g' := GQ (queue g) (holder g) None in let s' := done_a (t, o, b) (set_wl l s) in a_holds g' M G P s' /\ others_keep t g s g' s'.
Proof.
  intros H Ho Hc Hl g' s'. split; [destruct H; split; simpl; try done; by rewrite Hl|]. split; simpl; try done.
  - intros t' Hne. split; congruence.
  - intros t' w _ Hw. by left.
Qed.

Lemma word_ok t g M G P s s' : a_holds g M G P s -> locked (wl_val s') = locked (wl_val s) -> set_wl (wl_val s) s' = s \/ (exists e, set_wl (wl_val s) s' = done_a e s) ->
  a_holds g M G P s' /\ others_keep t g s g s'.
Proof.
  intros H Hl Hs. assert (sb_aflags s' = sb_aflags s /\ ni_locked s' = ni_locked s /\ late s' = late s /\ acceptq_put s' = acceptq_put s /\
    acceptq_get s' = acceptq_get s /\ mv s' = mv s /\ limbo s' = limbo s /\ adj s' = adj s /\ wt_next s' = wt_next s /\
    acceptq_n_in s' = acceptq_n_in s /\ acceptq_n_out s' = acceptq_n_out s) as (E1 & E2 & E3 & E4 & E5 & E6 & E7 & E8 & E9 & E10 & E11).
  { destruct Hs as [Hs|[e Hs]]; destruct s, s'; cbn in Hs; injection Hs as; subst; done. }
  split.
  - destruct H. split; rewrite ?E3, ?E4, ?E5, ?E6, ?E7, ?E8, ?E9, ?E10, ?E11, ?Hl; done.
  - split; try done; try tauto; rewrite ?E9; try tauto. intros _. do 5 (split; [done|]). exists []. by rewrite app_nil_r.
Qed.

(** ** Outlines *)

(** A thread that is not in the middle of taking. *)
Definition calm (t : nat) (g : gq) (s : listen) : Prop := owner g = Some t -> quiet s.

Lemma kept_calm t : kept t (calm t).
Proof.
  intros t' g s g' s' Hne Hk Hc Ho. apply (ok_lock _ _ _ _ _ Hk) in Ho; [|done]. destruct (Hc Ho) as (H1 & H2 & H3).
  destruct (ok_owner _ _ _ _ _ Hk) as (_ & E1 & E2 & E3 & _); [congruence|]. unfold quiet. by rewrite E1, E2, E3.
Qed.

Lemma kept_const t (f : listen -> Prop) : (forall s s', sb_aflags s' = sb_aflags s -> ni_locked s' = ni_locked s -> f s -> f s') -> kept t (fun _ s => f s).
Proof. intros Hf t' g s g' s' _ Hk. destruct (ok_env _ _ _ _ _ Hk). by apply Hf. Qed.

Definition in_queue_flag (w : Z) (s : listen) : Prop := flagged (sb_aflags s w) CI_SB_AFLAG_TCP_IN_ACCEPTQ = true.

(** The lists are at rest and the thread has the lock. *)
Definition at_rest (t : nat) (g : gq) (s : listen) : Prop := owner g = Some t /\ quiet s.

Lemma kept_at_rest t : kept t (at_rest t).
Proof.
  apply kept_locked. intros g s g' s' l _ E1 E2 E3 _ _. unfold quiet. by rewrite E1, E2, E3.
Qed.

Lemma kept_waiting t : kept t (fun g s => at_rest t g s /\ queue g <> []).
Proof.
  intros t' g s g' s' Hne Hk [Hg Hq]. split; [by apply (kept_at_rest t t' g s)|].
  destruct (ok_owner _ _ _ _ _ Hk) as (_ & _ & _ & _ & _ & q & ->); [destruct Hg; congruence|]. by destruct (queue g).
Qed.

Definition op_pre (t : nat) (o : aop) (g : gq) (s : listen) : Prop :=
  match o with
  | OPut w => t = 0%nat /\ ni_locked s = true /\ holder g !! w = Some t
  | OPutBackTail w | OPutBack w => at_rest t g s /\ holder g !! w = Some t /\ in_queue_flag w s
  | OGet | OPeek => at_rest t g s /\ queue g <> []
  | OTrylock | OLock => True
  | OLockOrSetFlag flag | OSetFlag flag | OClearFlag flag => locked flag = false
  | OUnlock => at_rest t g s
  | OHand w _ => holder g !! w = Some t
  end.

Lemma kept_op_pre t o : kept t (op_pre t o).
Proof.
  assert (forall w, kept t (fun g s => at_rest t g s /\ holder g !! w = Some t /\ in_queue_flag w s)) as Hb.
  { intros w. apply kept_and; [apply kept_at_rest|]. apply kept_and; [apply kept_has|]. apply kept_const. unfold in_queue_flag. by intros s s' -> _. }
  destruct o; cbn [op_pre]; [|apply Hb|apply kept_waiting|apply kept_waiting|apply Hb|by apply kept_const..|apply kept_at_rest|apply kept_has].
  apply kept_and; [by apply kept_const|]. apply kept_and; [|apply kept_has]. apply kept_const. by intros s s' _ ->.
Qed.

Definition a_pre (t : nat) (o : aop) (s : listen) : Prop :=
  knows t (of_thread t (aevents s)) 0 OO_SP_NULL (fun g s => calm t g s /\ op_pre t o g s) s.

Definition a_linv (t : nat) (o : aop) (h : list aevent) : listen -> Prop :=
  match o with
  | OPut w => knows t h 0 w (fun g s => (calm t g s /\ t = 0%nat) /\ holder g !! w = Some t)
  | OPutBackTail w => knows t h 0 w (fun g s => at_rest t g s /\ holder g !! w = Some t)
  | OGet => knows t h 0 OO_SP_NULL (fun g s => getter t OO_SP_NULL OO_SP_NULL OO_SP_NULL (-1) g s /\ queue g <> [])
  | OPeek => knows t h 0 OO_SP_NULL (fun g s => getter t OO_SP_NULL OO_SP_NULL OO_SP_NULL 0 g s /\ queue g <> [])
  | OLock => knows t h 0 OO_SP_NULL (calm t)
  | _ => start aevents a_pre t o h
  end.

Abbreviation starts := (start aevents a_pre).
Abbreviation ol := (outline aevents (fun _ => True) a_inv a_guar a_linv a_idle).

Lemma starts_knows t o h s : starts t o h s <-> knows t h 0 OO_SP_NULL (fun g s => calm t g s /\ op_pre t o g s) s.
Proof. split; [by intros [<- H]|]. intros H. assert (of_thread t (aevents s) = h) as E by (by destruct H as (? & _ & H & _)). split; [done|]. unfold a_pre. by rewrite E. Qed.

Lemma stable_a_starts t o h : keeps t (starts t o h).
Proof.
  intros t' s s' Hne HI HI' Hg H. apply starts_knows. apply starts_knows in H.
  by apply (stable_knows t h 0 OO_SP_NULL _ (kept_and _ _ _ (kept_calm t) (kept_op_pre t o)) t' s s').
Qed.

(** What a thread knows of its events, its counter and its sockets. *)
Definition facts (t : nat) (h : list aevent) (lt x : Z) (g : gq) (s : listen) : Prop :=
  of_thread t (aevents s) = h /\ (t = 0%nat -> late s = lt) /\ (forall w, holder g !! w = Some t -> w <> x -> wt_next s w < 0).

Lemma knows_intro t h lt x (Q : gq -> listen -> Prop) g s : a_view s = Some g -> facts t h lt x g s -> Q g s -> knows t h lt x Q s.
Proof. intros Hv (H1 & H2 & H3) HQ. by exists g. Qed.

Lemma ol_act t o h h1 lt x Q f k : kept t Q ->
  (forall s g M G P, a_view s = Some g -> a_holds g M G P s -> facts t h1 lt x g s -> Q g s ->
     exists g', acted t s (fst (f s)) g' /\ exists h' lt' x' Q', facts t h' lt' x' g' (fst (f s)) /\ Q' g' (fst (f s)) /\ ol t o h (k (snd (f s))) (knows t h' lt' x' Q')) ->
  ol t o h (Do f k) (knows t h1 lt x Q).
Proof.
  intros HQ H. apply outline_do; [by apply stable_knows|]. intros s (g1 & M & G & P & Hv1 & Hh) (g & Hv & Hf1 & Hf2 & Hf3 & Hq) _. simplify_eq.
  destruct (H s g1 M G P Hv1 Hh ltac:(done) Hq) as (g' & (HI & Hg & Hv') & h' & lt' & x' & Q' & Hf & HQ' & Ho). do 2 (split; [done|]).
  exists (knows t h' lt' x' Q'). split; [by eapply knows_intro|done].
Qed.

Lemma ol_get t o h h1 lt x Q get k : kept t Q ->
  (forall s g M G P, a_view s = Some g -> a_holds g M G P s -> facts t h1 lt x g s -> Q g s -> exists x' Q', facts t h1 lt x' g s /\ Q' g s /\ ol t o h (k (get s)) (knows t h1 lt x' Q')) ->
  ol t o h (Do (fun s => (s, get s)) k) (knows t h1 lt x Q).
Proof.
  intros HQ H. apply ol_act; [done|]. intros s g M G P Hv Hh Hf Hq. cbn [fst snd]. exists g. split; [|].
  - split; [by exists g, M, G, P|]. split; [apply a_guar_refl|done].
  - destruct (H s g M G P Hv Hh Hf Hq) as (x' & Q' & H1 & H2 & H3). by exists h1, lt, x', Q'.
Qed.

(** What was known is known after a read. *)
Lemma ol_get_same t o h h1 lt x (Q : gq -> listen -> Prop) get (R : Z -> Prop) k : kept t Q -> (forall s g M G P, a_holds g M G P s -> facts t h1 lt x g s -> Q g s -> R (get s)) ->
  (forall v, R v -> ol t o h (k v) (knows t h1 lt x Q)) -> ol t o h (Do (fun s => (s, get s)) k) (knows t h1 lt x Q).
Proof. intros HQ HR H. apply ol_get; [done|]. intros s g M G P Hv Hh Hf Hq. exists x, Q. do 2 (split; [done|]). apply H. by eapply HR. Qed.

Lemma ol_ret t o h b : ol t o h (Ret (Some b)) (knows t (h ++ [(t, o, b)]) 0 OO_SP_NULL (calm t)).
Proof.
  apply outline_ret; [apply stable_knows, kept_calm|]. intros s (g1 & M & G & P & Hv1 & Hh) (g & Hv & H1 & H2 & H3 & Hc). simplify_eq. split; [done|].
  exists g1. split; [done|]. split; [done|]. split; [done|]. intros w Hw. apply H3; [done|].
  assert (0 <= w < n_ep_bufs) by (apply (ah_range _ _ _ _ _ Hh); right; by exists t). unfold OO_SP_NULL. lia.
Qed.

(** The facts after an action that does not touch links. *)
Lemma facts_same t h lt x g s s' : facts t h lt x g s -> aevents s' = aevents s -> late s' = late s -> wt_next s' = wt_next s -> facts t h lt x g s'.
Proof. intros (H1 & H2 & H3) E1 E2 E3. unfold facts. by rewrite E1, E2, E3. Qed.

Lemma facts_link t h lt x g s w v : facts t h lt x g s -> (w = x \/ v < 0 \/ holder g !! w <> Some t) -> facts t h lt x g (set_wt_next w v s).
Proof.
  intros (H1 & H2 & H3) Hw. split; [done|]. split; [done|]. intros y Hy Hx. simpl. destruct (decide (y = w)) as [->|Hne].
  - rewrite put_eq. destruct Hw as [->|[Hw|Hw]]; done.
  - rewrite put_ne by done. by apply H3.
Qed.

(** ** Puts *)

Lemma push_outline t o h w f k C P2 : kept t C -> (forall g s v, C g s -> C g (set_wt_next w v s)) ->
  (forall s, knows t h 0 w (fun g s => C g s /\ holder g !! w = Some t) s -> a_linv t o h s) ->
  (forall s g M G P, a_view s = Some g -> a_holds g M G P s -> facts t h 0 w g s -> C g s -> holder g !! w = Some t -> wt_next s w = acceptq_put s ->
     exists g', acted t s (f (set_aput w s)) g' /\ P2 (f (set_aput w s))) ->
  ol t o h k P2 -> ol t o h (acceptq_push w f k) (knows t h 0 w (fun g s => C g s /\ holder g !! w = Some t)).
Proof.
  intros HC HCw Hl Hf Hk. assert (kept t (fun g s => C g s /\ holder g !! w = Some t)) as HQ by (apply kept_and; [done|apply kept_has]).
  apply (ol_get_same _ _ _ _ _ _ _ _ (fun _ => True)); [done|done|]. intros v _. apply ol_act; [done|]. intros s g M G P Hv Hh Hfa [Hc Hw].
  cbn [fst snd]. exists g. destruct (link_ok t g M G P s w v Hh Hw) as [Hh' Hk']. split; [by eapply silent|].
  exists h, 0, w, (fun g s => C g s /\ mine t w v g s). split; [by apply facts_link; auto|]. split; [split; [by apply HCw|by split; [|apply put_eq]]|].
  clear s g M G P Hv Hh Hfa Hc Hw Hh' Hk'.
  assert (kept t (fun g s => C g s /\ mine t w v g s)) as HQ' by (apply kept_and; [done|apply kept_mine]).
  apply (ol_get_same _ _ _ _ _ _ _ _ (fun x => x = v)); [done|by intros s g M G P _ _ [_ [_ ?]]|]. intros x ->.
  apply outline_do; [by apply stable_knows|]. intros s (g1 & M & G & P & Hv1 & Hh) (g & Hv & Hf1 & Hf2 & Hf3 & Hc & Hm) _. assert (g1 = g) as -> by congruence. clear Hv1.
  destruct Hm as [Hw Hn]. destruct (Z.eqb_spec (acceptq_put s) v) as [E|E]; cbn [fst snd].
  - destruct (Hf s g M G P Hv Hh) as (g' & (H1 & H2 & _) & H3); [done|done|done|congruence|]. do 2 (split; [done|]). by exists P2.
  - split; [by exists g, M, G, P|]. split; [apply a_guar_refl|]. exists (knows t h 0 w (fun g s => C g s /\ holder g !! w = Some t)).
    split; [by exists g|]. apply outline_again; [by apply stable_knows|]. intros s' _ Hs'. by apply Hl.
Qed.

Lemma ol_start t o h p : ol t o h p (knows t h 0 OO_SP_NULL (fun g s => calm t g s /\ op_pre t o g s)) -> ol t o h p (starts t o h).
Proof. apply outline_weaken; [apply stable_a_starts|]. intros s _. by apply starts_knows. Qed.

(** The sockets of a thread have null links. *)
Lemma my_link t h lt g M G P s w : a_holds g M G P s -> facts t h lt OO_SP_NULL g s -> holder g !! w = Some t -> OO_SP_IS_NULL (wt_next s w) = true.
Proof.
  intros Hh (_ & _ & Hf) Hw. assert (0 <= w < n_ep_bufs) by (apply (ah_range _ _ _ _ _ Hh); right; by exists t).
  apply Z.ltb_lt, Hf; [done|]. unfold OO_SP_NULL. lia.
Qed.

(** One socket more may have a link. *)
Lemma facts_open t h lt g M G P s x : a_holds g M G P s -> facts t h lt OO_SP_NULL g s -> facts t h lt x g s.
Proof.
  intros Hh (H1 & H2 & H3). split_and!; try done. intros w Hw _. apply H3; [done|].
  assert (0 <= w < n_ep_bufs) by (apply (ah_range _ _ _ _ _ Hh); right; by exists t). unfold OO_SP_NULL. lia.
Qed.

(** A socket that was put is not the thread's any more. *)
Lemma facts_gone t h lt x g s s' e h' lt' : facts t h lt x g s -> aevents s' = aevents s ++ [e] -> of_thread t (aevents s') = h' ->
  (t = 0%nat -> late s' = lt') -> wt_next s' = wt_next s -> facts t h' lt' OO_SP_NULL (pushed x g) s' /\ facts t h' lt' OO_SP_NULL (put_front x g) s'.
Proof.
  intros (H1 & H2 & H3) E1 E2 E3 E4. split; split_and!; try done; rewrite E4; cbn [pushed put_front holder]; intros w [Hne Hw]%lookup_delete_Some _; by apply H3.
Qed.

Lemma put_outline t h w : ol t (OPut w) h (ci_tcp_acceptq_put w) (starts t (OPut w) h).
Proof.
  apply ol_start. assert (kept t (fun g s => calm t g s /\ op_pre t (OPut w) g s)) as HQ by (apply kept_and; [apply kept_calm|apply kept_op_pre]).
  apply (ol_get_same _ _ _ _ _ _ _ _ (fun v => OO_SP_IS_NULL v = true)); [done| |].
  { intros s g M G P Hh Hf (_ & _ & _ & Hw). by eapply my_link. }
  intros v ->. cbn [aassert]. apply ol_get; [done|]. intros s g M G P Hv Hh Hf (Hc & Ht & Hl & Hw).
  exists w, (fun g s => (calm t g s /\ t = 0%nat) /\ holder g !! w = Some t). split; [by eapply facts_open|]. split; [done|]. rewrite Hl. cbn [Z.b2z Z.eqb negb aassert].
  apply outline_again; [|done]. apply stable_knows. apply kept_and; [|apply kept_has]. apply kept_and; [apply kept_calm|by apply kept_const].
Qed.

Lemma put_loop_outline t h w : ol t (OPut w) h (ci_tcp_acceptq_put_loop t w) (a_linv t (OPut w) h).
Proof.
  apply (push_outline t (OPut w) h w _ _ (fun g s => calm t g s /\ t = 0%nat) (knows t (h ++ [(t, OPut w, 0)]) 1 OO_SP_NULL (fun g s => calm t g s /\ t = 0%nat))).
  - apply kept_and; [apply kept_calm|by apply kept_const].
  - done.
  - done.
  - intros s g M G P Hv Hh Hf [Hc ->] Hw Hn. pose proof Hf as (Hf1 & Hf2 & _). specialize (Hf2 eq_refl).
    set (s' := done_a (0%nat, OPut w, 0) (set_late 1 (set_aput w s))). exists (pushed w g).
    destruct (accept_push_ok 0%nat g M G P s s' w Hh Hw Hn) as [Hh' Hk]; try done; [simpl; lia|].
    assert (acted 0%nat s s' (pushed w g)) as Ha by (eapply effective; [done|done|cbn [a_spec]; by rewrite option_guard_True|done|done]).
    split; [done|]. destruct Ha as (_ & _ & Hv'). eapply knows_intro; [done| |done].
    by apply (facts_gone _ _ _ _ _ s s' (0%nat, OPut w, 0) _ _ Hf); [|simpl; rewrite of_thread_app, of_thread_mine, Hf1| |].
  - apply ol_act; [apply kept_and; [apply kept_calm|by apply kept_const]|]. intros s g M G P Hv Hh (Hf1 & Hf2 & Hf3) [Hc ->]. cbn [fst snd].
    exists g. destruct (counted_ok g M G P s Hh (Hf2 eq_refl)) as [Hh' Hk]. split; [by eapply silent|].
    exists (h ++ [(0%nat, OPut w, 0)]), 0, OO_SP_NULL, (calm 0%nat). split; [done|]. split; [done|]. apply ol_ret.
Qed.

(** The holder of the lock finds it locked. *)
Lemma ol_is_locked t o h h1 lt x (Q : gq -> listen -> Prop) k : kept t Q -> (forall g s, Q g s -> owner g = Some t) ->
  (forall l, negb (l =? 0) = true -> ol t o h (k l) (knows t h1 lt x Q)) -> ol t o h (abind ci_sock_is_locked k) (knows t h1 lt x Q).
Proof.
  intros HQ Ho Hk. apply (ol_get_same _ _ _ _ _ _ _ _ (fun l => locked l = true)); [done| |].
  - intros s g M G P Hh _ Hq. apply (ah_lock _ _ _ _ _ Hh). rewrite (Ho g s Hq). done.
  - intros l Hl. by apply Hk.
Qed.

Lemma kept_back t w : kept t (fun g s => at_rest t g s /\ holder g !! w = Some t /\ in_queue_flag w s).
Proof. apply kept_and; [apply kept_at_rest|]. apply kept_and; [apply kept_has|]. apply kept_const. unfold in_queue_flag. by intros s s' -> _. Qed.

Lemma knows_weaken t h lt x (Q Q' : gq -> listen -> Prop) o h0 p : kept t Q -> (forall g s, Q g s -> Q' g s) -> ol t o h0 p (knows t h lt x Q') -> ol t o h0 p (knows t h lt x Q).
Proof. intros HQ H. apply outline_weaken; [by apply stable_knows|]. intros s _ (g & Hv & H1 & H2 & H3 & Hq). exists g. split_and!; try done. by apply H. Qed.

Lemma rest_calm t g s : at_rest t g s -> calm t g s.
Proof. by intros [_ H] _. Qed.

Lemma put_back_tail_outline t h w : ol t (OPutBackTail w) h (ci_tcp_acceptq_put_back_tail w) (starts t (OPutBackTail w) h).
Proof.
  apply ol_start. eapply knows_weaken; [apply kept_and; [apply kept_calm|apply kept_op_pre]|intros g s [_ H]; exact H|]. cbn [op_pre].
  apply (ol_get_same _ _ _ _ _ _ _ _ (fun v => OO_SP_IS_NULL v = true)); [apply kept_back| |].
  { intros s g M G P Hh Hf (_ & Hw & _). by eapply my_link. }
  intros v ->. cbn [aassert]. apply ol_is_locked; [apply kept_back|by intros g s ((? & _) & _)|]. intros l ->. cbn [aassert].
  apply ol_get; [apply kept_back|]. intros s g M G P Hv Hh Hf (Hr & Hw & Hi). exists w, (fun g s => at_rest t g s /\ holder g !! w = Some t).
  split; [by eapply facts_open|]. split; [done|]. rewrite Hi. cbn [aassert]. apply outline_again; [|done]. apply stable_knows, kept_and; [apply kept_at_rest|apply kept_has].
Qed.

Lemma put_back_tail_loop_outline t h w : ol t (OPutBackTail w) h (ci_tcp_acceptq_put_back_tail_loop t w) (a_linv t (OPutBackTail w) h).
Proof.
  set (Q2 := fun a g s => getter t a OO_SP_NULL OO_SP_NULL (-1) g s).
  apply (push_outline t (OPutBackTail w) h w _ _ (at_rest t) (knows t (h ++ [(t, OPutBackTail w, 0)]) 0 OO_SP_NULL (fun g s => exists a, Q2 a g s))).
  - apply kept_at_rest.
  - done.
  - done.
  - intros s g M G P Hv Hh Hf [Ho (Hm & Hl & Ha)] Hw Hn. pose proof Hf as (Hf1 & Hf2 & _).
    set (s' := done_a (t, OPutBackTail w, 0) (set_adj (-1) (set_aput w s))). exists (pushed w g).
    destruct (accept_push_ok t g M G P s s' w Hh Hw Hn) as [Hh' Hk]; try done; [simpl; lia|].
    assert (acted t s s' (pushed w g)) as Hac by (eapply effective; [done|done|cbn [a_spec]; by rewrite option_guard_True|done|done]).
    split; [done|]. destruct Hac as (_ & _ & Hv'). eapply knows_intro; [done| |by exists (acceptq_get s)].
    by apply (facts_gone _ _ _ _ _ s s' (t, OPutBackTail w, 0) _ _ Hf); [|simpl; rewrite of_thread_app, of_thread_mine, Hf1| |].
  - apply ol_act; [intros t' g s g' s' Hne Hk [a Hq]; exists a; by apply (kept_getter t a _ _ _ t' g s)|].
    intros s g M G P Hv Hh Hf (a & Ho & Hg & Hm & Hl & Ha). cbn [fst snd]. exists g.
    destruct (count_ok t g M G P s 0 (u32 (acceptq_n_out s - 1)) Hh Ho) as [Hh' Hk].
    { pose proof (ah_count _ _ _ _ _ Hh) as Hc. rewrite Ha in Hc. unfold wrap in *. rewrite Zminus_mod_idemp_r.
      replace (acceptq_n_in s - (acceptq_n_out s - 1)) with (acceptq_n_in s - acceptq_n_out s + 1) by ring.
      rewrite <- Zplus_mod_idemp_l, Hc, Zplus_mod_idemp_l. f_equal. lia. }
    split; [by eapply silent|]. exists (h ++ [(t, OPutBackTail w, 0)]), 0, OO_SP_NULL, (calm t). split; [done|]. split; [done|]. apply ol_ret.
Qed.

(** ** Taking *)

(** The counter of takes moves ahead of the queue, or behind. *)
Lemma count_shift g M G P s d j : a_holds g M G P s -> adj s = 0 -> j = - d ->
  u32 (acceptq_n_in s - u32 (acceptq_n_out s + d)) = u32 (Z.of_nat (length (queue g)) - late s + j).
Proof.
  intros Hh Ha ->. pose proof (ah_count _ _ _ _ _ Hh) as Hc. rewrite Ha in Hc. unfold wrap in *. rewrite Zminus_mod_idemp_r.
  replace (acceptq_n_in s - (acceptq_n_out s + d)) with (acceptq_n_in s - acceptq_n_out s + - d) by ring.
  rewrite <- Zplus_mod_idemp_l, Hc, Zplus_mod_idemp_l. f_equal. lia.
Qed.

Lemma sock_id g M G P s w : a_holds g M G P s -> n_ep_bufs <= 2 ^ 31 -> w ∈ queue g -> (u32 w <? n_ep_bufs) = true.
Proof.
  intros Hh Hn Hw. assert (0 <= w < n_ep_bufs) by (apply (ah_range _ _ _ _ _ Hh); by left). unfold wrap. rewrite Z.mod_small by lia. apply Z.ltb_lt. lia.
Qed.

Context (Hbufs : n_ep_bufs <= 2 ^ 31).

(** The rest of the list that is being reversed. *)
Definition rest_is (n : Z) (M : list Z) (g : gq) (s : listen) : Prop := follows (wt_next s) n M /\ forall w, w ∈ M -> w ∈ queue g.

Lemma kept_rest t a m l j n M : kept t (fun g s => getter t a m l j g s /\ rest_is n M g s).
Proof.
  intros t' g s g' s' Hne Hk (Hg & Hf & Hw). split; [by apply (kept_getter _ _ _ _ _ t' g s)|].
  destruct (ok_owner _ _ _ _ _ Hk) as (_ & _ & _ & _ & Hn & q & Eq); [destruct Hg; congruence|]. split; [|intros w Hin; rewrite Eq; apply elem_of_app; left; by apply Hw].
  eapply follows_ext; [|exact Hf]. intros w Hin. apply Hn. by apply Hw.
Qed.

Lemma rest_parts g M G P s n M' : a_holds g M G P s -> mv s = n -> rest_is n M' g s -> M' = M.
Proof. intros Hh <- [Hf _]. by apply (follows_unique (wt_next s) _ (mv s)); [apply (ah_mv _ _ _ _ _ Hh)|]. Qed.

Lemma swizzle_outline t o h j (k : act listen (option Z)) :
  (forall a, 0 <= a -> ol t o h k (knows t h 0 OO_SP_NULL (getter t a OO_SP_NULL OO_SP_NULL j))) -> forall fuel M a m, 0 <= m -> (length M <= fuel)%nat ->
  ol t o h (swizzle_loop fuel m k) (knows t h 0 OO_SP_NULL (fun g s => getter t a m OO_SP_NULL j g s /\ rest_is m M g s)).
Proof.
  intros Hk fuel. induction fuel as [|fuel IH]; intros M a m Hm Hlen; cbn [swizzle_loop].
  - apply outline_false. intros s (g & _ & _ & _ & _ & _ & Hf & _). destruct (follows_inv _ _ _ Hm Hf) as (M' & -> & _). simpl in Hlen. lia.
  - apply outline_assert; [apply stable_knows, kept_rest| |].
    { intros s (g1 & M1 & G & P & Hv1 & Hh) (g & Hv & _ & _ & _ & _ & Hf & Hin). assert (g1 = g) as -> by congruence.
      destruct (follows_inv _ _ _ Hm Hf) as (M' & -> & _). eapply sock_id; [done|done|]. apply Hin. set_solver. }
    apply ol_act; [apply kept_rest|]. intros s g M1 G P Hv Hh Hf (Hg & Hr). assert (M = M1) as -> by (eapply rest_parts; [done|by destruct Hg as (_ & _ & ? & _)|done]).
    pose proof Hg as (Ho & Ea & Em & El & Ej). destruct (unlink_ok t g M1 G P s Hh Ho) as ((M' & -> & Hh') & Hkp & Hq); [lia|rewrite El; unfold OO_SP_NULL; lia|].
    rewrite Em in *. cbn [fst snd]. exists g. split; [by eapply silent|].
    set (nx := wt_next s m) in *. assert (nx = OO_SP_NULL \/ 0 <= nx) as Hnx.
    { pose proof (ah_mv _ _ _ _ _ Hh') as Hx. simpl in Hx. destruct M' as [|q M']; simpl in Hx; [by left|]. right. destruct Hx as (-> & ? & _). done. }
    exists h, 0, OO_SP_NULL, (fun g s => getter t a nx m j g s /\ rest_is nx M' g s). split; [by eapply facts_same|]. split.
    { split; [done|]. split; [exact (ah_mv _ _ _ _ _ Hh')|]. intros w Hw. apply (proj2 Hr). set_solver. }
    clearbody nx. clear s g G P Hv Hh Hf Hg Hr Ho Ea Em El Ej Hh' Hkp Hq.
    apply (ol_get_same _ _ _ _ _ _ _ _ (fun v => v = a)); [apply kept_rest|by intros s g M1 G P _ _ [(_ & ? & _) _]|]. intros v ->.
    apply ol_act; [apply kept_rest|]. intros s g M1 G P Hv Hh Hf (Hg & Hr). assert (M' = M1) as -> by (eapply rest_parts; [done|by destruct Hg as (_ & _ & ? & _)|done]).
    pose proof Hg as (Ho & Ea & Em & El & Ej). destruct (relink_ok t g M1 G P s a Hh Ho) as (Hh' & Hkp); [lia|]. rewrite El in *. cbn [fst snd].
    exists g. split; [by eapply silent|]. exists h, 0, OO_SP_NULL, (fun g s => (getter t a nx m j g s /\ rest_is nx M1 g s) /\ (getter t a nx m j g s /\ m ∈ queue g /\ wt_next s m = a)).
    assert (m ∈ queue g) as Hmq. { apply (parts _ _ _ _ _ m Hh). right. left. unfold between. rewrite El, (proj2 (Z.ltb_ge _ _)) by done. set_solver. }
    split; [apply facts_link; [done|]; right; right; intros Hx; by apply (ah_held _ _ _ _ _ Hh _ _ Hx)|]. split.
    { split; [|by split; [|split; [|apply put_eq]]]. split; [done|]. split; [|apply Hr]. pose proof (ah_mv _ _ _ _ _ Hh') as Hx. simpl in Hx. by rewrite Em in Hx. }
    clear s g G P Hv Hh Hf Hg Hr Ho Ea Em El Ej Hh' Hkp Hmq.
    apply ol_act; [apply kept_and; [apply kept_rest|apply kept_link]|]. intros s g M2 G P Hv Hh Hf ((Hg & Hr) & _ & Hmq & Hn).
    assert (M1 = M2) as -> by (eapply rest_parts; [done|by destruct Hg as (_ & _ & ? & _)|done]).
    pose proof Hg as (Ho & Ea & Em & El & Ej). destruct (accept_join_ok t g M2 G P s Hh Ho) as (Hh' & Hkp); [lia|congruence|]. rewrite El in *. cbn [fst snd].
    exists g. split; [by eapply silent|]. unfold OO_SP_NOT_NULL. destruct Hnx as [->|Hnx].
    + exists h, 0, OO_SP_NULL, (getter t m OO_SP_NULL OO_SP_NULL j). split; [by eapply facts_same|]. split; [done|]. by apply Hk.
    + exists h, 0, OO_SP_NULL, (fun g s => getter t m nx OO_SP_NULL j g s /\ rest_is nx M2 g s). split; [by eapply facts_same|]. split; [done|].
      rewrite (proj2 (Z.leb_le _ _)) by done. apply IH; [done|]. simpl in Hlen. lia.
Qed.

(** There are at most as many sockets in a list as in the stack. *)
Lemma bounded_length n l : NoDup l -> (forall w, w ∈ l -> 0 <= w < n) -> (length l <= Z.to_nat n)%nat.
Proof.
  intros Hnd Hr. rewrite <- (length_seqZ 0 n). apply submseteq_length, NoDup_submseteq; [done|]. intros w Hw. apply elem_of_seqZ. specialize (Hr w Hw). lia.
Qed.

Lemma swizzle_round t o h j k :
  (forall s, knows t h 0 OO_SP_NULL (fun g s => getter t OO_SP_NULL OO_SP_NULL OO_SP_NULL j g s /\ queue g <> []) s -> a_linv t o h s) ->
  (forall a, 0 <= a -> ol t o h k (knows t h 0 OO_SP_NULL (getter t a OO_SP_NULL OO_SP_NULL j))) ->
  ol t o h (ci_tcp_acceptq_get_swizzle k) (knows t h 0 OO_SP_NULL (fun g s => getter t OO_SP_NULL OO_SP_NULL OO_SP_NULL j g s /\ queue g <> [])).
Proof.
  intros Hl Hk. apply (ol_get_same _ _ _ _ _ _ _ _ (fun _ => True)); [apply kept_some|done|]. intros from _.
  apply ol_act; [apply kept_some|]. intros s g M G P Hv Hh Hf (Hg & Hne). pose proof Hg as (Ho & Ea & Em & El & Ej). exists g.
  destruct (Z.eqb_spec (acceptq_put s) from) as [E|Hd]; cbn [fst snd].
  - destruct (grab_ok t g M G P s Hh Ho) as [Hh' Hkp]; [rewrite ?Ea, ?Em, ?El; unfold OO_SP_NULL; lia..|]. rewrite E in Hh', Hkp.
    split; [by eapply silent|]. cbn [Z.eqb Pos.eqb].
    exists h, 0, OO_SP_NULL, (fun g s => getter t OO_SP_NULL from OO_SP_NULL j g s /\ rest_is from P g s).
    assert (queue g = reverse P) as Hq by (rewrite (ah_queue _ _ _ _ _ Hh'); simpl; rewrite El; cbn; by rewrite app_nil_r).
    assert (0 <= from) as Hp.
    { destruct P as [|p P]; [by rewrite Hq in Hne|]. rewrite <- E. destruct (ah_put _ _ _ _ _ Hh) as (-> & ? & _). done. }
    assert (length P <= Z.to_nat n_ep_bufs)%nat as Hlen.
    { rewrite <- (length_reverse P), <- Hq. apply bounded_length; [apply (ah_nodup _ _ _ _ _ Hh)|]. intros w Hw. apply (ah_range _ _ _ _ _ Hh). by left. }
    split; [by eapply facts_same|]. split.
    { split; [done|]. split; [by apply (ah_mv _ _ _ _ _ Hh')|]. intros w Hw. rewrite Hq. by apply elem_of_reverse. }
    rewrite (proj2 (Z.leb_le _ _)) by done. cbn [aassert].
    apply (ol_get_same _ _ _ _ _ _ _ _ (fun v => v = OO_SP_NULL)); [apply kept_rest|by intros s' g' M' G' P' _ _ [(_ & ? & _) _]|].
    intros v ->. cbn [aassert OO_SP_IS_NULL OO_SP_NULL Z.ltb Z.compare]. by apply swizzle_outline.
  - split; [split; [by exists g, M, G, P|]; split; [apply a_guar_refl|done]|].
    exists h, 0, OO_SP_NULL, (fun g s => getter t OO_SP_NULL OO_SP_NULL OO_SP_NULL j g s /\ queue g <> []). split; [done|]. split; [done|].
    apply outline_again; [apply stable_knows, kept_some|]. intros s' _. apply Hl.
Qed.

(** The first of the list to take from is the first of the queue. *)
Lemma front_is t a j g M G P s : a_holds g M G P s -> getter t a OO_SP_NULL OO_SP_NULL j g s -> 0 <= a -> head (queue g) = Some a /\ a ∈ queue g.
Proof.
  intros Hh (Ho & Ea & Em & El & _) Ha. destruct (take_ok t g M G P s Hh Ho) as (_ & _ & Hd); [rewrite ?Ea, ?Em, ?El; unfold OO_SP_NULL; lia..|].
  rewrite Ea in Hd. split; [done|]. destruct (queue g); [done|]. simplify_eq/=. set_solver.
Qed.

Lemma take_outline t h a : 0 <= a -> ol t OGet h (acceptq_take t) (knows t h 0 OO_SP_NULL (getter t a OO_SP_NULL OO_SP_NULL (-1))).
Proof.
  intros Ha. apply (ol_get_same _ _ _ _ _ _ _ _ (fun v => v = a)); [apply kept_getter|by intros s g M G P _ _ (_ & ? & _)|]. intros v ->.
  unfold OO_SP_NOT_NULL. rewrite (proj2 (Z.leb_le _ _)) by done. cbn [aassert].
  apply (ol_get_same _ _ _ _ _ _ _ _ (fun v => v = a)); [apply kept_getter|by intros s g M G P _ _ (_ & ? & _)|]. intros v ->.
  apply outline_assert; [apply stable_knows, kept_getter| |].
  { intros s (g1 & M1 & G & P & Hv1 & Hh) (g & Hv & _ & _ & _ & Hg). assert (g1 = g) as -> by congruence. eapply sock_id; [done|done|].
    by destruct (front_is _ _ _ _ _ _ _ _ Hh Hg Ha). }
  apply ol_get; [apply kept_getter|]. intros s g M G P Hv Hh Hf Hg. destruct (front_is _ _ _ _ _ _ _ _ Hh Hg Ha) as [_ Hin].
  exists OO_SP_NULL, (fun g s' => getter t a OO_SP_NULL OO_SP_NULL (-1) g s' /\ a ∈ queue g /\ wt_next s' a = wt_next s a). do 2 (split; [done|]).
  generalize (wt_next s a). intros nx. clear s g M G P Hv Hh Hf Hg Hin.
  apply ol_act; [apply kept_link|]. intros s g M G P Hv Hh Hf (Hg & _ & Hn). pose proof Hg as (Ho & Ea & Em & El & Ej). exists g.
  destruct (take_ok t g M G P s Hh Ho) as ((G' & Hh') & Hkp & _); [rewrite ?Ea, ?Em, ?El; unfold OO_SP_NULL; lia..|].
  rewrite Ea, Hn in Hh', Hkp. cbn [fst snd]. split; [by eapply silent|]. exists h, 0, OO_SP_NULL, (getter t nx OO_SP_NULL a (-1)).
  split; [by eapply facts_same|]. split; [done|]. clear s g M G P G' Hv Hh Hf Hg Hn Ho Ea Em El Ej Hh' Hkp.
  apply ol_act; [apply kept_getter|]. intros s g M G P Hv Hh Hf Hg. pose proof Hg as (Ho & Ea & Em & El & Ej). exists (taken t a g).
  destruct (taken_ok t g M G P s OGet Hh Ho) as (Hh' & Hkp & Hd); [rewrite ?Em, ?El, ?Ej; unfold OO_SP_NULL; lia..|].
  rewrite El in Hh', Hkp, Hd. cbn [fst snd]. split; [eapply effective; [done|done|cbn [a_spec]; by rewrite option_guard_True|done|done]|].
  exists (h ++ [(t, OGet, a)]), 0, OO_SP_NULL, (calm t). split; [|split; [done|apply ol_ret]]. destruct Hf as (Hf1 & Hf2 & Hf3).
  split; [simpl; by rewrite of_thread_app, of_thread_mine, Hf1|]. split; [done|]. intros w Hw Hx. simpl in *. destruct (decide (w = a)) as [->|Hne].
  - rewrite put_eq. unfold OO_SP_NULL. lia.
  - rewrite put_ne by done. rewrite lookup_insert_ne in Hw by done. by apply Hf3.
Qed.

(** The list to take from starts at a socket or is empty. *)
Lemma get_null g M G P s : a_holds g M G P s -> acceptq_get s < 0 -> acceptq_get s = OO_SP_NULL.
Proof. intros Hh Hg. by destruct (follows_end _ _ _ Hg (ah_get _ _ _ _ _ Hh)). Qed.

Lemma accept_get_outline t h : ol t OGet h (ci_tcp_acceptq_get t) (starts t OGet h).
Proof.
  apply ol_start. eapply knows_weaken; [apply kept_and; [apply kept_calm|apply kept_op_pre]|intros g s [_ H]; exact H|]. cbn [op_pre].
  apply ol_is_locked; [apply kept_waiting|by intros g s ((? & _) & _)|]. intros l ->. cbn [abind Z.eqb negb aassert].
  apply ol_act; [apply kept_waiting|]. intros s g M G P Hv Hh Hf ((Ho & Em & El & Ej) & Hne). exists g. cbn [fst snd].
  destruct (count_ok t g M G P s (-1) (u32 (acceptq_n_out s + 1)) Hh Ho) as [Hh' Hkp]; [by apply (count_shift g M G P s 1 (-1) Hh Ej)|].
  split; [by eapply silent|]. exists h, 0, OO_SP_NULL, (fun g s' => getter t (acceptq_get s) OO_SP_NULL OO_SP_NULL (-1) g s' /\ queue g <> []).
  split; [by eapply facts_same|]. split; [done|]. pose proof (get_null _ _ _ _ _ Hh) as Hn. revert Hn. generalize (acceptq_get s). intros a Hn.
  apply (ol_get_same _ _ _ _ _ _ _ _ (fun v => v = a)); [apply kept_some|by intros s' g' M' G' P' _ _ [(_ & ? & _) _]|]. intros v ->.
  unfold OO_SP_IS_NULL. destruct (Z.ltb_spec a 0) as [H0|H0].
  - rewrite (Hn H0). apply outline_again; [apply stable_knows, kept_some|done].
  - eapply knows_weaken; [apply kept_some|by intros ? ? [? _]|]. by apply take_outline.
Qed.

Lemma look_outline t h a : 0 <= a -> ol t OPeek h (acceptq_look t) (knows t h 0 OO_SP_NULL (getter t a OO_SP_NULL OO_SP_NULL 0)).
Proof.
  intros Ha. apply (ol_get_same _ _ _ _ _ _ _ _ (fun v => v = a)); [apply kept_getter|by intros s g M G P _ _ (_ & ? & _)|]. intros v ->.
  unfold OO_SP_NOT_NULL. rewrite (proj2 (Z.leb_le _ _)) by done. cbn [aassert].
  apply ol_act; [apply kept_getter|]. intros s g M G P Hv Hh Hf Hg. pose proof Hg as (Ho & Ea & Em & El & Ej). exists g. cbn [fst snd]. rewrite Ea.
  destruct (front_is _ _ _ _ _ _ _ _ Hh Hg Ha) as [Hd Hin].
  split; [eapply effective; [done|done|cbn [a_spec]; by rewrite option_guard_True|by destruct Hh; split|]|].
  { split; simpl; try done; try tauto. }
  exists (h ++ [(t, OPeek, a)]), 0, OO_SP_NULL, (calm t). split; [|split; [done|]].
  - destruct Hf as (Hf1 & Hf2 & Hf3). split; [simpl; by rewrite of_thread_app, of_thread_mine, Hf1|done].
  - unfold TRUSTED_SOCK_ID. rewrite (sock_id _ _ _ _ _ a Hh) by done. apply ol_ret.
Qed.

Lemma peek_outline t h : ol t OPeek h (ci_tcp_acceptq_peek t) (starts t OPeek h).
Proof.
  apply ol_start. eapply knows_weaken; [apply kept_and; [apply kept_calm|apply kept_op_pre]|intros g s [_ H]; exact H|]. cbn [op_pre].
  apply ol_is_locked; [apply kept_waiting|by intros g s ((? & _) & _)|]. intros l ->. cbn [aassert].
  apply ol_get; [apply kept_waiting|]. intros s g M G P Hv Hh Hf ((Ho & Em & El & Ej) & Hne).
  exists OO_SP_NULL, (fun g s' => getter t (acceptq_get s) OO_SP_NULL OO_SP_NULL 0 g s' /\ queue g <> []). do 2 (split; [done|]).
  unfold OO_SP_IS_NULL. destruct (Z.ltb_spec (acceptq_get s) 0) as [H0|H0].
  - rewrite (get_null _ _ _ _ _ Hh H0). apply outline_again; [apply stable_knows, kept_some|done].
  - eapply knows_weaken; [apply kept_some|by intros ? ? [? _]|]. by apply look_outline.
Qed.

Lemma put_back_outline t h w : ol t (OPutBack w) h (ci_tcp_acceptq_put_back t w) (starts t (OPutBack w) h).
Proof.
  apply ol_start. eapply knows_weaken; [apply kept_and; [apply kept_calm|apply kept_op_pre]|intros g s [_ H]; exact H|]. cbn [op_pre].
  apply ol_is_locked; [apply kept_back|by intros g s ((? & _) & _)|]. intros l ->. cbn [aassert].
  apply (ol_get_same _ _ _ _ _ _ _ _ (fun f => flagged f CI_SB_AFLAG_TCP_IN_ACCEPTQ = true)); [apply kept_back|by intros s g M G P _ _ (_ & _ & ?)|].
  intros f ->. cbn [aassert]. apply ol_act; [apply kept_back|]. intros s g M G P Hv Hh Hf ((Ho & Em & El & Ej) & Hw & _). exists g. cbn [fst snd].
  destruct (count_ok t g M G P s 1 (u32 (acceptq_n_out s - 1)) Hh Ho) as [Hh' Hkp]; [by apply (count_shift g M G P s (-1) 1 Hh Ej)|].
  split; [by eapply silent|]. set (Q := fun a g s => getter t a OO_SP_NULL OO_SP_NULL 1 g s /\ holder g !! w = Some t).
  assert (forall a, kept t (Q a)) as HQ by (intros a; apply kept_and; [apply kept_getter|apply kept_has]).
  exists h, 0, OO_SP_NULL, (Q (acceptq_get s)). split; [by eapply facts_same|]. split; [done|]. generalize (acceptq_get s). intros a.
  clear s g M G P Hv Hh Hf Ho Em El Ej Hw Hh' Hkp.
  apply (ol_get_same _ _ _ _ _ _ _ _ (fun v => v = a)); [apply HQ|by intros s g M G P _ _ [(_ & ? & _) _]|]. intros v ->.
  apply ol_act; [apply HQ|]. intros s g M G P Hv Hh Hf [Hg Hw]. exists g. cbn [fst snd]. destruct (link_ok t g M G P s w a Hh Hw) as [Hh' Hkp].
  split; [by eapply silent|]. exists h, 0, w, (fun g s => getter t a OO_SP_NULL OO_SP_NULL 1 g s /\ mine t w a g s).
  split; [apply facts_link; [by eapply facts_open|by left]|]. split; [split; [done|]; split; [done|apply put_eq]|]. clear s g M G P Hv Hh Hf Hg Hw Hh' Hkp.
  apply ol_act; [apply kept_and; [apply kept_getter|apply kept_mine]|]. intros s g M G P Hv Hh Hf [(Ho & Ea & Em & El & Ej) [Hw Hn]]. exists (put_front w g). cbn [fst snd].
  set (s' := done_a (t, OPutBack w, 0) (set_adj 0 (set_aget w s))).
  destruct (put_front_ok t g M G P s w (OPutBack w) 0 Hh Ho Hw) as [Hh' Hkp]; [congruence|rewrite ?Em, ?El; unfold OO_SP_NULL; lia..|done|].
  split; [eapply effective; [done|done|cbn [a_spec]; by rewrite option_guard_True|done|done]|].
  exists (h ++ [(t, OPutBack w, 0)]), 0, OO_SP_NULL, (calm t). split; [|split; [done|apply ol_ret]]. pose proof Hf as (Hf1 & Hf2 & _).
  by apply (facts_gone _ _ _ _ _ s s' (t, OPutBack w, 0) _ _ Hf); [|simpl; rewrite of_thread_app, of_thread_mine, Hf1| |].
Qed.

(** ** The lock *)

Lemma locked_bit l : locked l = Z.testbit l 28.
Proof.
  unfold locked, flagged. assert (Z.land l OO_WAITABLE_LK_LOCKED = if Z.testbit l 28 then 2 ^ 28 else 0) as ->; [|by destruct (Z.testbit l 28)].
  change OO_WAITABLE_LK_LOCKED with (2 ^ 28). apply Z.bits_inj'. intros n Hn. rewrite Z.land_spec, Z.pow2_bits_eqb by lia.
  destruct (Z.eqb_spec 28 n) as [<-|Hne]; [rewrite andb_true_r|rewrite andb_false_r]; destruct (Z.testbit l 28); rewrite ?Z.pow2_bits_eqb, ?Z.bits_0 by lia; lia.
Qed.

Lemma locked_lock l : locked (Z.lor l OO_WAITABLE_LK_LOCKED) = true.
Proof. rewrite locked_bit, Z.lor_spec. by rewrite orb_true_r. Qed.

Lemma locked_set l f : locked f = false -> locked (Z.lor l f) = locked l.
Proof. rewrite !locked_bit, Z.lor_spec. intros ->. apply orb_false_r. Qed.

Lemma locked_clear l f : locked f = false -> locked (Z.ldiff l f) = locked l.
Proof. rewrite !locked_bit, Z.ldiff_spec. intros ->. apply andb_true_r. Qed.

Lemma set_wl_id s : set_wl (wl_val s) s = s.
Proof. by destruct s. Qed.

Lemma lock_state g M G P s : a_holds g M G P s -> locked (wl_val s) = false -> owner g = None.
Proof. intros Hh Hl. destruct (owner g) as [t|] eqn:E; [|done]. assert (locked (wl_val s) = true) by (apply (ah_lock _ _ _ _ _ Hh); by rewrite E). congruence. Qed.

(** What is known after an operation on the lock word took effect. *)
Definition after_lock (t : nat) (o : aop) (h : list aevent) (b : Z) (s s' : listen) : Prop :=
  exists g', acted t s s' g' /\ facts t (h ++ [(t, o, b)]) 0 OO_SP_NULL g' s' /\ calm t g' s'.

Lemma facts_event t h lt x g g' s s' o b : facts t h lt x g s -> aevents s' = aevents s ++ [(t, o, b)] -> late s' = late s -> wt_next s' = wt_next s ->
  holder g' = holder g -> facts t (h ++ [(t, o, b)]) lt x g' s'.
Proof. intros (H1 & H2 & H3) E1 E2 E3 E4. unfold facts. rewrite E1, E2, E3, E4, of_thread_app, of_thread_mine, H1. done. Qed.

Lemma lock_word_same t h o b s g M G P l : a_view s = Some g -> a_holds g M G P s -> facts t h 0 OO_SP_NULL g s -> calm t g s ->
  a_spec g (t, o, b) = Some g -> locked l = locked (wl_val s) -> after_lock t o h b s (done_a (t, o, b) (set_wl l s)).
Proof.
  intros Hv Hh Hf Hc Hs Hl. exists g. destruct (word_ok t g M G P s (done_a (t, o, b) (set_wl l s)) Hh) as [Hh' Hk]; [done|right; exists (t, o, b); by destruct s|].
  split; [by eapply effective|]. split; [by eapply facts_event|done].
Qed.

Lemma word_lock t h o b s g M G P l : a_view s = Some g -> a_holds g M G P s -> facts t h 0 OO_SP_NULL g s ->
  a_spec g (t, o, b) = Some (GQ (queue g) (holder g) (Some t)) -> owner g = None -> locked l = true ->
  after_lock t o h b s (done_a (t, o, b) (set_wl l s)).
Proof.
  intros Hv Hh Hf Hs Ho Hl. exists (GQ (queue g) (holder g) (Some t)). destruct (lock_ok t g M G P s l o b Hh Ho Hl) as [Hh' Hk].
  split; [by eapply effective|]. split; [by eapply facts_event|]. intros _. apply (ah_free _ _ _ _ _ Hh Ho).
Qed.

Lemma word_unlock t h o b s g M G P l : a_view s = Some g -> a_holds g M G P s -> facts t h 0 OO_SP_NULL g s ->
  a_spec g (t, o, b) = Some (GQ (queue g) (holder g) None) -> at_rest t g s -> locked l = false ->
  after_lock t o h b s (done_a (t, o, b) (set_wl l s)).
Proof.
  intros Hv Hh Hf Hs [Ho Hq] Hl. exists (GQ (queue g) (holder g) None). destruct (unlock_ok t g M G P s l o b Hh Ho Hq Hl) as [Hh' Hk].
  split; [by eapply effective|]. split; [by eapply facts_event|done].
Qed.

(** The operation returns after it took effect. *)
Lemma ol_effect t o h h1 x Q f k : kept t Q ->
  (forall s g M G P, a_view s = Some g -> a_holds g M G P s -> facts t h1 0 x g s -> Q g s ->
     (exists b, after_lock t o h b s (fst (f s)) /\ k (snd (f s)) = Ret (Some b)) \/
     (fst (f s) = s /\ ol t o h (k (snd (f s))) (knows t h1 0 x Q))) ->
  ol t o h (Do f k) (knows t h1 0 x Q).
Proof.
  intros HQ H. apply ol_act; [done|]. intros s g M G P Hv Hh Hf Hq. destruct (H s g M G P Hv Hh Hf Hq) as [(b & (g' & Ha & Hfa & Hc) & ->)|[-> Ho]].
  - exists g'. split; [done|]. exists (h ++ [(t, o, b)]), 0, OO_SP_NULL, (calm t). do 2 (split; [done|]). apply ol_ret.
  - exists g. split; [split; [by exists g, M, G, P|]; split; [apply a_guar_refl|done]|]. by exists h1, 0, x, Q.
Qed.

Lemma kept_start t o : kept t (fun g s => calm t g s /\ op_pre t o g s).
Proof. apply kept_and; [apply kept_calm|apply kept_op_pre]. Qed.

(** A round that failed starts over. *)
Lemma ol_over t o h : (forall s, starts t o h s -> a_linv t o h s) -> ol t o h (Ret None) (knows t h 0 OO_SP_NULL (fun g s => calm t g s /\ op_pre t o g s)).
Proof. intros Hl. apply outline_again; [apply stable_knows, kept_start|]. intros s _ Hs. by apply Hl, starts_knows. Qed.

Lemma trylock_outline t h : ol t OTrylock h (ci_sock_trylock t) (starts t OTrylock h).
Proof.
  apply ol_start. apply ol_effect; [apply kept_start|]. intros s g M G P Hv Hh Hf [Hc _]. cbn [fst snd].
  destruct (locked (wl_val s)) eqn:El.
  - left. exists 0. split; [|done]. rewrite <- (set_wl_id s) at 2. by eapply lock_word_same.
  - right. split; [done|]. generalize El. generalize (wl_val s). clear s g M G P Hv Hh Hf Hc El. intros l El.
    apply ol_effect; [apply kept_start|]. intros s g M G P Hv Hh Hf [Hc _]. left. destruct (Z.eqb_spec (wl_val s) l) as [<-|Hne]; cbn [fst snd].
    + exists 1. split; [|done]. pose proof (lock_state _ _ _ _ _ Hh El) as Ho. eapply word_lock; [done|done|done|cbn [a_spec Z.eqb Pos.eqb]; by rewrite option_guard_True|done|apply locked_lock].
    + exists 0. split; [|done]. rewrite <- (set_wl_id s) at 2. by eapply lock_word_same.
Qed.

(** A compare-and-swap of the lock word that takes effect when it swaps. *)
Lemma cas_outline t o h Q l l' b (k : Z -> act listen (option Z)) : kept t Q -> k 1 = Ret (Some b) ->
  (forall s g M G P, a_view s = Some g -> a_holds g M G P s -> facts t h 0 OO_SP_NULL g s -> Q g s -> wl_val s = l ->
     after_lock t o h b s (done_a (t, o, b) (set_wl l' s))) ->
  ol t o h (k 0) (knows t h 0 OO_SP_NULL Q) -> ol t o h (abind (cas_wl l l' (t, o, b)) k) (knows t h 0 OO_SP_NULL Q).
Proof.
  intros HQ E1 H Hk. apply ol_effect; [done|]. intros s g M G P Hv Hh Hf Hq. destruct (Z.eqb_spec (wl_val s) l) as [E|E]; cbn [fst snd abind].
  - left. exists b. split; [by eapply H|done].
  - right. by split.
Qed.

Lemma set_flag_outline t h f : ol t (OSetFlag f) h (citp_waitable_lock_set_flag t f) (starts t (OSetFlag f) h).
Proof.
  apply ol_start. apply (ol_get_same _ _ _ _ _ _ _ _ (fun _ => True)); [apply kept_start|done|]. intros l _.
  apply cas_outline; [apply kept_start|done| |by apply ol_over]. intros s g M G P Hv Hh Hf [Hc Hp] <-. cbn [op_pre] in Hp.
  eapply lock_word_same; [done|done|done|done|cbn [a_spec]; by rewrite option_guard_True|by apply locked_set].
Qed.

Lemma clear_flag_outline t h f : ol t (OClearFlag f) h (citp_waitable_lock_clear_flag t f) (starts t (OClearFlag f) h).
Proof.
  apply ol_start. apply (ol_get_same _ _ _ _ _ _ _ _ (fun _ => True)); [apply kept_start|done|]. intros l _.
  apply cas_outline; [apply kept_start|done| |by apply ol_over]. intros s g M G P Hv Hh Hf [Hc Hp] <-. cbn [op_pre] in Hp.
  eapply lock_word_same; [done|done|done|done|cbn [a_spec]; by rewrite option_guard_True|by apply locked_clear].
Qed.

Lemma lock_or_flag_outline t h f : ol t (OLockOrSetFlag f) h (citp_waitable_lock_or_set_flag t f) (starts t (OLockOrSetFlag f) h).
Proof.
  apply ol_start. apply (ol_get_same _ _ _ _ _ _ _ _ (fun _ => True)); [apply kept_start|done|]. intros l _.
  apply cas_outline; [apply kept_start|done| |by apply ol_over]. intros s g M G P Hv Hh Hf [Hc Hp] <-. cbn [op_pre] in Hp.
  destruct (locked (wl_val s)) eqn:El; cbn [negb Z.b2z].
  - eapply lock_word_same; [done|done|done|done|done|by apply locked_set].
  - eapply word_lock; [done|done|done| |by eapply lock_state|apply locked_lock].
    cbn [a_spec Z.eqb Pos.eqb]. rewrite option_guard_True; [done|by eapply lock_state].
Qed.

(** What is documented of the slow paths: [ci_sock_unlock_slow] releases the lock, and
    [ci_sock_lock_slow] takes it when it is free. *)
Definition slow_paths : Prop :=
  (forall l, locked (ci_sock_unlock_slow l) = false) /\
  (forall l l' got, ci_sock_lock_slow l = (l', got) -> if got then locked l = false /\ locked l' = true else locked l' = locked l).

Context (Hslow : slow_paths).

Lemma unlock_outline t h : ol t OUnlock h (ci_sock_unlock t) (starts t OUnlock h).
Proof.
  apply ol_start.
  assert (forall s g M G P l, a_view s = Some g -> a_holds g M G P s -> facts t h 0 OO_SP_NULL g s -> at_rest t g s -> locked l = false ->
    after_lock t OUnlock h 0 s (done_a (t, OUnlock, 0) (set_wl l s))) as Hu.
  { intros s g M G P l Hv Hh Hf Hr Hl. eapply word_unlock; [done|done|done|cbn [a_spec]; rewrite option_guard_True; [done|by destruct Hr]|done|done]. }
  apply cas_outline; [apply kept_start|done| |].
  - intros s g M G P Hv Hh Hf [_ Hp] _. by eapply Hu.
  - cbn [Z.eqb]. apply ol_effect; [apply kept_start|]. intros s g M G P Hv Hh Hf [_ Hp]. left. exists 0. split; [|done].
    eapply Hu; [done|done|done|done|apply Hslow].
Qed.

Lemma lock_outline t h : ol t OLock h (ci_sock_lock t) (starts t OLock h).
Proof.
  apply ol_start. apply cas_outline; [apply kept_start|done| |].
  - intros s g M G P Hv Hh Hf _ E. assert (owner g = None) as Ho by (eapply lock_state; [done|by rewrite E]).
    eapply word_lock; [done|done|done|cbn [a_spec]; by rewrite option_guard_True|done|done].
  - cbn [Z.eqb]. apply outline_again; [apply stable_knows, kept_start|]. intros s _ (g & Hv & H1 & H2 & H3 & Hc & _). by exists g.
Qed.

Lemma lock_slow_outline t h : ol t OLock h (ci_sock_lock_slow_loop t) (a_linv t OLock h).
Proof.
  cbn [a_linv]. apply ol_act; [apply kept_calm|]. intros s g M G P Hv Hh Hf Hc. destruct Hslow as [_ Hs]. specialize (Hs (wl_val s)).
  destruct (ci_sock_lock_slow (wl_val s)) as [l [|]] eqn:E; cbn [fst snd Z.b2z Z.eqb Pos.eqb]; specialize (Hs _ _ eq_refl); simpl in Hs.
  - destruct Hs as [Hu Hl]. assert (owner g = None) as Ho by (by eapply lock_state).
    destruct (word_lock t h OLock 0 s g M G P l Hv Hh Hf) as (g' & Ha & Hfa & Hc'); [cbn [a_spec]; by rewrite option_guard_True|done|done|].
    exists g'. split; [done|]. exists (h ++ [(t, OLock, 0)]), 0, OO_SP_NULL, (calm t). do 2 (split; [done|]). apply ol_ret.
  - destruct (word_ok t g M G P s (set_wl l s) Hh) as [Hh' Hk]; [done|left; by destruct s|]. exists g. split; [by eapply silent|].
    exists h, 0, OO_SP_NULL, (calm t). split; [by eapply facts_same|]. split; [done|]. apply outline_again; [apply stable_knows, kept_calm|done].
Qed.

Lemma hand_outline t h w t' : ol t (OHand w t') h (hand t w t') (starts t (OHand w t') h).
Proof.
  apply ol_start. apply ol_act; [apply kept_start|]. intros s g M G P Hv Hh Hf [Hc Hp]. cbn [op_pre fst snd] in *.
  assert (wt_next s w < 0) as Hn by (apply Z.ltb_lt; by eapply my_link).
  destruct (hand_ok t g M G P s w t' (OHand w t') 0 Hh Hp Hn) as [Hh' Hk]. eexists. split.
  - eapply effective; [done|done|cbn [a_spec]; by rewrite option_guard_True|done|done].
  - exists (h ++ [(t, OHand w t', 0)]), 0, OO_SP_NULL, (calm t). split; [|split; [done|apply ol_ret]]. destruct Hf as (H1 & H2 & H3).
    split; [simpl; by rewrite of_thread_app, of_thread_mine, H1|]. split; [done|]. intros x. simpl. rewrite lookup_insert. case_decide as E; [by subst|apply H3].
Qed.

Lemma a_outline t o h : ol t o h (a_code t o) (starts t o h).
Proof.
  destruct o; [apply put_outline|apply put_back_tail_outline|apply accept_get_outline|apply peek_outline|apply put_back_outline|apply trylock_outline|apply lock_outline
    |apply lock_or_flag_outline|apply set_flag_outline|apply clear_flag_outline|apply unlock_outline|apply hand_outline].
Qed.

Lemma a_loop_outline t o h : ol t o h (a_loop t o) (a_linv t o h).
Proof.
  destruct o; try apply a_outline; [apply put_loop_outline|apply put_back_tail_loop_outline| | |apply lock_slow_outline].
  - apply swizzle_round; [done|]. intros a Ha. by apply take_outline.
  - apply swizzle_round; [done|]. intros a Ha. by apply look_outline.
Qed.

(** ** The rules of the callers *)

(** The queue is empty exactly when the holder of the lock finds both lists empty. *)
Lemma not_empty_iff g M G P s : a_holds g M G P s -> quiet s -> ci_tcp_acceptq_not_empty s = true <-> queue g <> [].
Proof.
  intros Hh (Hm & Hl & _). rewrite (ah_queue _ _ _ _ _ Hh), Hl. assert (mv s < 0) as H0 by (rewrite Hm; unfold OO_SP_NULL; lia).
  destruct (follows_end _ _ _ H0 (ah_mv _ _ _ _ _ Hh)) as [-> _].
  cbn [between app reverse rev_append Z.ltb Z.compare OO_SP_NULL]. unfold ci_tcp_acceptq_not_empty, OO_SP_NOT_NULL.
  pose proof (ah_get _ _ _ _ _ Hh) as HG. pose proof (ah_put _ _ _ _ _ Hh) as HP.
  destruct G as [|a G]; simpl in HG; [rewrite HG|destruct HG as (-> & ? & _); rewrite (proj2 (Z.leb_le 0 a)) by done; by rewrite orb_true_r].
  destruct P as [|p P]; simpl in HP; [by rewrite HP|destruct HP as (-> & ? & _); rewrite (proj2 (Z.leb_le 0 p)) by done]. simpl. split; [|done].
  intros _ E. assert (length (reverse (p :: P)) = 0%nat) as El by (by rewrite E). rewrite length_reverse in El. done.
Qed.

Lemma call_ok s t o : a_inv s -> a_idle t s -> a_allowed s t o -> a_pre t o s.
Proof.
  intros (g & M & G & P & Hv & Hh) (g1 & Hv1 & Hq & Hl & Hw) (g2 & Hv2 & Ha). assert (g1 = g) as -> by congruence. assert (g2 = g) as -> by congruence.
  exists g. split; [done|]. split; [done|]. split; [done|]. split; [auto|]. split; [done|].
  destruct o; cbn [op_pre]; try done.
  - destruct Ha as (Ho & Hh' & Hi). split; [by split; [|apply Hq]|done].
  - destruct Ha as (Ho & Hn). split; [by split; [|apply Hq]|]. apply (not_empty_iff _ _ _ _ _ Hh); [by apply Hq|done].
  - destruct Ha as (Ho & Hn). split; [by split; [|apply Hq]|]. apply (not_empty_iff _ _ _ _ _ Hh); [by apply Hq|done].
  - destruct Ha as (Ho & Hh' & Hi). split; [by split; [|apply Hq]|done].
  - split; [done|by apply Hq].
Qed.

Lemma idle_stable t : keeps t (a_idle t).
Proof.
  intros t' s s' Hne HI HI' Hg (g & Hv & Hc & Hl & Hw).
  destruct (stable_knows t (of_thread t (aevents s)) 0 OO_SP_NULL (calm t) (kept_calm t) t' s s' Hne HI HI' Hg) as (g' & Hv' & _ & Hl' & Hw' & Hc').
  - exists g. split_and!; try done. auto.
  - destruct HI' as (g1 & M & G & P & Hv1 & Hh). assert (g1 = g') as -> by congruence. exists g'. split; [done|]. split; [done|]. split; [done|].
    intros w Hx. apply Hw'; [done|]. assert (0 <= w < n_ep_bufs) by (apply (ah_range _ _ _ _ _ Hh); right; by exists t). unfold OO_SP_NULL. lia.
Qed.
End Code.

(** ** Runs *)

Definition a_step (n_ep_bufs tls : Z) (unlock_slow : Z -> Z) (lock_slow : Z -> Z * bool) (g0 : gq) : rconf -> rconf -> Prop :=
  rstep (a_code n_ep_bufs tls unlock_slow) (a_loop n_ep_bufs tls unlock_slow lock_slow) (a_allowed g0) (fun _ => True).

(** A new queue: both lists are empty, the lock is free, and the sockets that threads have
    are sockets of the stack with null links. *)
Definition fresh (n_ep_bufs : Z) (g0 : gq) (s : listen) : Prop :=
  queue g0 = [] /\ owner g0 = None /\ acceptq_put s = CI_ILL_END /\ acceptq_get s = OO_SP_NULL /\ acceptq_n_in s = acceptq_n_out s /\ locked (wl_val s) = false /\
  mv s = OO_SP_NULL /\ limbo s = OO_SP_NULL /\ adj s = 0 /\ late s = 0 /\ aevents s = [] /\
  (forall w t, holder g0 !! w = Some t -> 0 <= w < n_ep_bufs /\ wt_next s w < 0).

(** The connections that were put, and those that were taken, in order. *)
Definition arrivals (l : list aevent) : list Z := omap (fun e => match snd (fst e) with OPut w => Some w | _ => None end) l.
Definition accepted (l : list aevent) : list Z := omap (fun e => match snd (fst e) with OGet => Some (snd e) | _ => None end) l.
Definition put_back (e : aevent) : bool := match snd (fst e) with OPutBack _ | OPutBackTail _ => true | _ => false end.

Lemma replay_fifo l g g' : a_replay g l = Some g' -> Forall (fun e => put_back e = false) l -> accepted l ++ queue g' = queue g ++ arrivals l.
Proof.
  unfold arrivals, accepted. revert g. induction l as [|[[t o] b] l IH]; intros g; cbn [a_replay]; [intros [= <-] _; by rewrite app_nil_r|].
  destruct (a_spec g (t, o, b)) as [g1|] eqn:E; [|done]. cbn [mbind option_bind]. intros H [Hb Hl]%Forall_cons. specialize (IH _ H Hl).
  destruct o; cbn [a_spec] in E; unfold put_back in Hb; cbn [fst snd] in Hb; try done; cbn [omap list_omap fst snd];
    try (destruct (b =? 1); apply guarded in E as [_ [= <-]]; exact IH); apply guarded in E as [G [= <-]]; try exact IH.
  - cbn [queue] in IH. rewrite IH. by rewrite <- app_assoc.
  - destruct (queue g) as [|w q]; [done|]. injection G as ->. cbn [queue tail] in IH. cbn [app]. by rewrite IH.
Qed.

Lemma fresh_ok n g0 s : fresh n g0 s -> a_inv n g0 s /\ (forall t, a_idle g0 t s).
Proof.
  intros (Hq & Ho & Hp & Hg & Hn & Hl & Hm & Hi & Ha & Hlt & He & Hh). assert (a_view g0 s = Some g0) as Hv by (unfold a_view; by rewrite He). split.
  - exists g0, [], [], []. split; [done|]. split; rewrite ?Hq; cbn [follows]; try done.
    + by rewrite Hi.
    + apply NoDup_nil_2.
    + intros w [Hw|[t Hw]]; [set_solver|]. by destruct (Hh w t Hw).
    + intros w t _. set_solver.
    + by rewrite Hl, Ho.
    + by rewrite Hn, Hlt, Ha, Z.sub_diag.
  - intros t. exists g0. split; [done|]. split; [done|]. split; [done|]. intros w Hw. by destruct (Hh w t Hw).
Qed.

(** C29: the accept queue of a listening socket.  From a new queue, in every interleaving of
    the loads, stores and compare-and-swaps of any number of threads, one of which puts
    connections under the lock of the stack ([ci_tcp_acceptq_put]) while the others compete
    for the lock of the socket ([ci_sock_trylock], [ci_sock_lock], [ci_sock_unlock],
    [citp_waitable_lock_or_set_flag], [_set_flag], [_clear_flag]) and its holder takes
    connections or puts them back ([ci_tcp_acceptq_get], [_peek], [_put_back],
    [_put_back_tail]), where callers keep to [a_allowed]: no assertion fails, no identifier
    outside the sockets is followed and the reversal ends; the operations took effect one
    after the other and returned what they return on one list, with the lock held by one
    thread at a time; when nothing was put back, the connections taken and those still in
    the queue are the connections put, in order; and when no call is under way, the count
    is the length of the queue, across the wrap-around of its two counters, and the
    test for emptiness is exact. *)
Theorem accept_queue_fifo n_ep_bufs tls unlock_slow lock_slow g0 s0 c : n_ep_bufs <= 2 ^ 31 -> slow_paths unlock_slow lock_slow -> fresh n_ep_bufs g0 s0 ->
  rtc (a_step n_ep_bufs tls unlock_slow lock_slow g0) (RConf s0 ∅ []) c ->
  exists g, a_replay g0 (aevents (shared c)) = Some g /\ (exists M G P, a_holds n_ep_bufs g M G P (shared c)) /\
    (Forall (fun e => put_back e = false) (aevents (shared c)) -> accepted (aevents (shared c)) ++ queue g = arrivals (aevents (shared c))) /\
    ((forall t, threads c !! t = None) ->
       ci_tcp_acceptq_n (shared c) = Z.of_nat (length (queue g)) /\ (ci_tcp_acceptq_not_empty (shared c) = true <-> queue g <> [])) /\
    (forall t o, threads c !! t <> Some (o, Fail)) /\
    (forall t, threads c !! t = None -> of_thread t (aevents (shared c)) = of_thread t (outs c)) /\
    (forall t o b, threads c !! t = Some (o, Ret (Some b)) -> of_thread t (aevents (shared c)) = of_thread t (outs c) ++ [(t, o, b)]).
Proof.
  intros Hn Hslow Hf Hs. destruct (fresh_ok _ _ _ Hf) as [HI0 Hidle0]. assert (aevents s0 = []) as He by apply Hf.
  assert (good aevents (fun _ => True) (a_inv n_ep_bufs g0) (a_guar g0) (a_linv g0) (a_idle g0) c) as Hgood.
  { apply (outlines_sound (a_code n_ep_bufs tls unlock_slow) (a_loop n_ep_bufs tls unlock_slow lock_slow) aevents (a_allowed g0) (fun _ => True)) with (s0 := s0) (pre := a_pre g0);
      [intros; by eapply a_outline|intros; by eapply a_loop_outline|apply call_ok|apply idle_stable|apply guar_events|by intros t []|by intros t []|done|done|done|exact Hs]. }
  destruct (good_facts _ _ _ _ _ _ c Hgood) as ((g & M & G & P & Hv & Hh) & H1 & H2 & H3). exists g. split; [done|]. split; [by exists M, G, P|]. split; [|split; [|done]].
  - intros Hb. unfold a_view in Hv. rewrite (replay_fifo _ _ _ Hv Hb). by rewrite (proj1 Hf).
  - intros Hall. destruct Hgood as (_ & Hi & _). assert (quiet (shared c) /\ late (shared c) = 0) as [Hq Hl].
    { split; [|destruct (Hi 0%nat (Hall _)) as (_ & g1 & _ & _ & H & _); by apply H].
      destruct (owner g) as [t|] eqn:Eo; [|by apply (ah_free _ _ _ _ _ _ Hh)]. destruct (Hi t (Hall t)) as (_ & g1 & Hv1 & H & _). apply H. congruence. }
    split; [|by eapply not_empty_iff]. unfold ci_tcp_acceptq_n. rewrite (ah_count _ _ _ _ _ _ Hh), Hl. destruct Hq as (_ & _ & ->).
    assert (length (queue g) <= Z.to_nat n_ep_bufs)%nat as Hb.
    { apply bounded_length; [apply (ah_nodup _ _ _ _ _ _ Hh)|]. intros w Hw. apply (ah_range _ _ _ _ _ _ Hh). by left. }
    unfold wrap. rewrite Z.mod_small; lia.
Qed.

(** ** A run *)

(** The rules of the callers as a test. *)
Definition a_allowed_b (g0 : gq) (s : listen) (t : nat) (o : aop) : bool :=
  match a_view g0 s with
  | None => false
  | Some g =>
      let has w := bool_decide (holder g !! w = Some t) in
      let locks := bool_decide (owner g = Some t) in
      match o with
      | OPut w => Nat.eqb t 0 && ni_locked s && has w
      | OPutBackTail w | OPutBack w => locks && has w && flagged (sb_aflags s w) CI_SB_AFLAG_TCP_IN_ACCEPTQ
      | OGet | OPeek => locks && ci_tcp_acceptq_not_empty s
      | OTrylock | OLock => true
      | OLockOrSetFlag flag | OSetFlag flag | OClearFlag flag => negb (locked flag)
      | OUnlock => locks
      | OHand w _ => has w
      end
  end.

Lemma a_allowed_b_ok g0 s t o : a_allowed_b g0 s t o = true -> a_allowed g0 s t o.
Proof.
  unfold a_allowed_b, a_allowed. destruct (a_view g0 s) as [g|]; [|done]. intros H. exists g. split; [done|].
  destruct o; repeat match goal with H : _ && _ = true |- _ => apply andb_true_iff in H as [H ?] end;
    repeat match goal with H : bool_decide _ = true |- _ => apply bool_decide_eq_true in H end; try done.
  - by apply Nat.eqb_eq in H.
  - by apply negb_true_iff in H.
  - by apply negb_true_iff in H.
  - by apply negb_true_iff in H.
Qed.

(** Thread 0 has three new connections; the counters are about to wrap around. *)
Definition gq3 : gq := GQ [] {[3 := 0%nat; 5 := 0%nat; 7 := 0%nat]} None.
Definition listen3 : listen := Listen CI_ILL_END (2 ^ 32 - 1) OO_SP_NULL (2 ^ 32 - 1) 0 (fun _ => 0) (fun _ => OO_SP_NULL) true OO_SP_NULL OO_SP_NULL 0 0 [].

Definition demo_unlock (l : Z) : Z := 0.
Definition demo_lock (l : Z) : Z * bool := if locked l then (Z.lor l OO_WAITABLE_LK_NEED_WAKE, false) else (Z.lor l OO_WAITABLE_LK_LOCKED, true).

Lemma demo_slow : slow_paths demo_unlock demo_lock.
Proof.
  split; [done|]. intros l l' got. unfold demo_lock. destruct (locked l) eqn:E; intros [= <- <-].
  - rewrite <- E. by apply locked_set.
  - split; [done|apply locked_lock].
Qed.

(** The second connection is put between the read and the swap of the thread that takes
    the first, which has to read again; another thread does not get the lock, and waits. *)
Definition accept_schedule : list (@cmd aop) :=
  let acts t n := repeat (Act t) n in
  [Call 0 (OPut 5)] ++ acts 0%nat 7%nat ++ [Return 0; Call 2 OTrylock] ++ acts 2%nat 2%nat ++ [Return 2; Call 1 OTrylock] ++ acts 1%nat 1%nat ++
  [Return 1; Call 2 OGet] ++ acts 2%nat 4%nat ++ [Call 0 (OPut 7)] ++ acts 0%nat 6%nat ++ acts 2%nat 4%nat ++ [Call 1 OLock] ++ acts 1%nat 2%nat ++ acts 0%nat 1%nat ++
  [Return 0; Call 0 (OPut 3)] ++ acts 0%nat 7%nat ++ [Return 0] ++ acts 2%nat 13%nat ++ [Return 2; Call 2 OPeek] ++ acts 2%nat 4%nat ++
  [Return 2; Call 2 OUnlock] ++ acts 2%nat 2%nat ++ [Return 2] ++ acts 1%nat 1%nat ++ [Return 1].

Definition accept_run : option rconf :=
  rexec (a_code 10 9 demo_unlock) (a_loop 10 9 demo_unlock demo_lock) (a_allowed_b gq3) (fun _ => true) (RConf listen3 ∅ []) accept_schedule.

Definition accept_results : list aevent := [(2%nat, OTrylock, 1); (2%nat, OGet, 5); (2%nat, OPeek, 7); (2%nat, OUnlock, 0)].

Lemma accept_queue_fifo_witness : exists c g, accept_run = Some c /\ a_replay gq3 (aevents (shared c)) = Some g /\
  queue g = [7; 3] /\ accepted (aevents (shared c)) ++ queue g = [5; 7; 3] /\ owner g = Some 1%nat /\
  ci_tcp_acceptq_n (shared c) = 2 /\ of_thread 2%nat (outs c) = accept_results.
Proof.
  assert (option_map (fun c => (arrivals (aevents (shared c)), (of_thread 2%nat (outs c), forallb (fun e => negb (put_back e)) (aevents (shared c))))) accept_run = Some ([5; 7; 3], (accept_results, true))) as E1
    by (vm_compute; reflexivity).
  assert ((c ← accept_run; g ← a_replay gq3 (aevents (shared c)); Some (queue g, (owner g, map_size (threads c)))) = Some ([7; 3], (Some 1%nat, 0%nat))) as E2 by (vm_compute; reflexivity).
  destruct accept_run as [c|] eqn:E; [|discriminate E1]. cbn [option_map mbind option_bind] in E1, E2.
  destruct (accept_queue_fifo 10 9 demo_unlock demo_lock gq3 listen3 c) as (g & Hv & _ & Hfifo & Hn & _); [lia|exact demo_slow| | |].
  - do 11 (split; [reflexivity|]). intros w t. unfold gq3. cbn [holder]. intros Hw. 
    do 2 (apply lookup_insert_Some in Hw as [[<- _]|[_ Hw]]; [split; [lia|reflexivity]|]). apply lookup_singleton_Some in Hw as [<- _]. split; [lia|reflexivity].
  - eapply rexec_steps; [|intros s _; exact I|exact E]. intros s t o. apply a_allowed_b_ok.
  - exists c, g. rewrite Hv in E2. cbn [mbind option_bind] in E2. injection E1 as Ep Eo Eb. injection E2 as Eg Ew Et.
    split; [reflexivity|]. split; [exact Hv|]. split; [exact Eg|]. split.
    + rewrite Hfifo; [exact Ep|]. apply Forall_forall. intros e He. rewrite forallb_forall in Eb. apply negb_true_iff, Eb. by apply list_elem_of_In.
    + split; [exact Ew|]. split; [|exact Eo]. destruct Hn as [-> _]; [|by rewrite Eg]. intros t. apply map_size_empty_inv in Et. by rewrite Et, lookup_empty.
Defined.
