(* ===== verification/TcpSeq.v ===== *)
(** * TcpSeq: positions modulo a power of two ([ci/internal/ip.h], [iptimer.h], [ci/tools/utils.h])

    TCP sequence numbers and times in ticks are 32-bit numbers that wrap around; they are
    compared by the sign of their difference.  The theorem relates every comparison to
    positions in an unbounded stream, of which the numbers are the low bits. *)

From Stdlib Require Import ZArith Lia Bool.
From stdpp Require Import base list.
From S2P Require Import Prelude.

(** ** [ci/tools/utils.h] *)

Definition ci_seq_eq (a b bits : Z) : bool := Z.land (u32 (a - b)) (u32 (Z.shiftl 1 bits - 1)) =? 0.
Definition ci_seq_neq (a b bits : Z) : bool := negb (Z.land (u32 (a - b)) (u32 (Z.shiftl 1 bits - 1)) =? 0).
Definition ci_seq_lt (a b bits : Z) : bool := negb (Z.land (u32 (a - b)) (Z.shiftl 1 (bits - 1)) =? 0).
Definition ci_seq_gt (a b bits : Z) : bool := ci_seq_lt b a bits.
Definition ci_seq_le (a b bits : Z) : bool := negb (ci_seq_lt b a bits).
Definition ci_seq_ge (a b bits : Z) : bool := negb (ci_seq_lt a b bits).

Definition ci_seqm_eq (a b mask : Z) : bool := Z.land (u32 (a - b)) mask =? 0.
Definition ci_seqm_neq (a b mask : Z) : bool := negb (Z.land (u32 (a - b)) mask =? 0).
Definition ci_seqm_lt (a b mask : Z) : bool := negb (Z.land (u32 (a - b)) (Z.shiftr (u32 (mask + 1)) 1) =? 0).
Definition ci_seqm_gt (a b mask : Z) : bool := ci_seqm_lt b a mask.
Definition ci_seqm_le (a b mask : Z) : bool := negb (ci_seqm_lt b a mask).
Definition ci_seqm_ge (a b mask : Z) : bool := negb (ci_seqm_lt a b mask).

Definition ci_int32_lt (a b : Z) : bool := ci_seq_lt a b 32.
Definition ci_int32_gt (a b : Z) : bool := ci_seq_gt a b 32.
Definition ci_int32_le (a b : Z) : bool := ci_seq_le a b 32.
Definition ci_int32_ge (a b : Z) : bool := ci_seq_ge a b 32.

(** ** [ci/internal/ip.h] *)

Definition SEQ_SUB (s1 s2 : Z) : Z := i32 (s1 - s2).
Definition SEQ_EQ (s1 s2 : Z) : bool := u32 (s1 - s2) =? 0.
Definition SEQ_LT (s1 s2 : Z) : bool := i32 (s1 - s2) <? 0.
Definition SEQ_LE (s1 s2 : Z) : bool := i32 (s1 - s2) <=? 0.
Definition SEQ_GT (s1 s2 : Z) : bool := 0 <? i32 (s1 - s2).
Definition SEQ_GE (s1 s2 : Z) : bool := 0 <=? i32 (s1 - s2).
Definition SEQ (s : Z) : Z := u32 s.

(** Inclusive on both sides. *)
Definition SEQ_BTW (s sl sh : Z) : bool := u32 (s - sl) <=? u32 (sh - sl).
Definition SEQ_MIN (x y : Z) : Z := if SEQ_LE x y then x else y.
Definition SEQ_MAX (x y : Z) : Z := if SEQ_LE x y then y else x.

(** ** [ci/internal/iptimer.h] and [ci_ip_time_before] *)

Definition TIME_LT (x y : Z) : bool := i32 (x - y) <? 0.
Definition TIME_LE (x y : Z) : bool := i32 (x - y) <=? 0.
Definition TIME_GT (x y : Z) : bool := 0 <? i32 (x - y).
Definition TIME_GE (x y : Z) : bool := 0 <=? i32 (x - y).
Definition ci_ip_time_before (a b : Z) : bool := ci_seq_lt a b 32.

(** ** Positions *)

(** The numbers of two positions that are close. *)
Lemma seq_sub_close a b : - 2 ^ 31 <= a - b < 2 ^ 31 -> i32 (u32 a - u32 b) = a - b.
Proof.
  intros H. unfold swrap. rewrite wrap_sub_l, wrap_sub_r. unfold wrap. destruct (decide (0 <= a - b)) as [H0|H0].
  - rewrite Z.mod_small by lia. rewrite (proj2 (Z.ltb_lt _ _)); simpl in *; lia.
  - assert ((a - b) mod 2 ^ 32 = a - b + 2 ^ 32) as -> by (symmetry; apply (Z.mod_unique_pos _ _ (-1)); lia).
    rewrite (proj2 (Z.ltb_ge _ _)); simpl in *; lia.
Qed.

Lemma land_bit_value v k : 0 <= k -> negb (Z.land v (Z.shiftl 1 k) =? 0) = Z.testbit v k.
Proof.
  intros Hk. rewrite Z.shiftl_mul_pow2, Z.mul_1_l by done.
  assert (Z.land v (2 ^ k) = if Z.testbit v k then 2 ^ k else 0) as ->.
  { apply Z.bits_inj'. intros n Hn. rewrite Z.land_spec, Z.pow2_bits_eqb by lia.
    destruct (Z.eqb_spec k n) as [<-|Hne]; [rewrite andb_true_r|rewrite andb_false_r]; destruct (Z.testbit v k); rewrite ?Z.pow2_bits_eqb, ?Z.bits_0 by lia; lia. }
  pose proof (Z.pow_pos_nonneg 2 k ltac:(lia) Hk). destruct (Z.testbit v k); [|done]. by rewrite (proj2 (Z.eqb_neq _ _)) by lia.
Qed.

(** The top bit of a difference of [bits] bits is its sign. *)
Lemma sign_bit d bits : 1 <= bits <= 32 -> - 2 ^ (bits - 1) <= d < 2 ^ (bits - 1) -> Z.testbit (u32 d) (bits - 1) = (d <? 0).
Proof.
  intros Hb Hd. unfold wrap. rewrite Z.mod_pow2_bits_low by lia. rewrite Z.testbit_odd, Z.shiftr_div_pow2 by lia.
  pose proof (Z.pow_pos_nonneg 2 (bits - 1) ltac:(lia) ltac:(lia)) as Hp. destruct (Z.ltb_spec d 0) as [H0|H0].
  - assert (d / 2 ^ (bits - 1) = -1) as -> by (symmetry; apply (Z.div_unique_pos _ _ _ (d + 2 ^ (bits - 1))); lia). done.
  - by rewrite Z.div_small by lia.
Qed.

Lemma seq_lt_close a b bits : 1 <= bits <= 32 -> - 2 ^ (bits - 1) <= a - b < 2 ^ (bits - 1) -> ci_seq_lt (u32 a) (u32 b) bits = (a <? b).
Proof.
  intros Hb Hd. unfold ci_seq_lt. rewrite wrap_sub_l, wrap_sub_r, land_bit_value, sign_bit by lia. destruct (Z.ltb_spec (a - b) 0), (Z.ltb_spec a b); lia.
Qed.

Lemma seqm_lt_close a b bits : 1 <= bits <= 31 -> - 2 ^ (bits - 1) <= a - b < 2 ^ (bits - 1) -> ci_seqm_lt (u32 a) (u32 b) (2 ^ bits - 1) = (a <? b).
Proof.
  intros Hb Hd. rewrite <- (seq_lt_close a b bits) by lia. unfold ci_seqm_lt, ci_seq_lt. do 3 f_equal.
  assert (2 ^ bits <= 2 ^ 31) by (apply Z.pow_le_mono_r; lia). rewrite wrap_small by (simpl in *; lia). rewrite Z.sub_add.
  rewrite Z.shiftr_div_pow2, Z.shiftl_mul_pow2, Z.mul_1_l by lia. replace bits with ((bits - 1) + 1) at 1 by lia. rewrite Z.pow_add_r by lia. by rewrite Z.div_mul.
Qed.

Lemma seq_btw_close s lo hi : lo <= hi < lo + 2 ^ 32 -> lo <= s < lo + 2 ^ 32 -> SEQ_BTW (u32 s) (u32 lo) (u32 hi) = (s <=? hi).
Proof.
  intros H1 H2. unfold SEQ_BTW. rewrite !wrap_sub_l, !wrap_sub_r. rewrite !wrap_small by lia. destruct (Z.leb_spec (s - lo) (hi - lo)), (Z.leb_spec s hi); lia.
Qed.

Ltac by_sign := unfold SEQ_LT, SEQ_LE, SEQ_GT, SEQ_GE, TIME_LT, TIME_LE, TIME_GT, TIME_GE; rewrite seq_sub_close by lia;
  apply Bool.eq_iff_eq_true; rewrite ?Z.ltb_lt, ?Z.leb_le; lia.

(** What the comparisons of two numbers say. *)
Definition compares (lt le gt ge : Z -> Z -> bool) (x y a b : Z) : Prop :=
  lt x y = (a <? b) /\ le x y = (a <=? b) /\ gt x y = (b <? a) /\ ge x y = (b <=? a).

(** C30: comparisons of sequence numbers and of times.  For positions [a] and [b] of an
    unbounded stream, less than [2^31] apart, the comparisons of their 32-bit numbers
    ([SEQ_LT] and the others, [TIME_LT] and the others, [ci_int32_lt] and the others,
    [ci_ip_time_before]) decide the order of the positions, whether or not the numbers
    wrapped around in between; [SEQ_SUB] is their distance, [SEQ_MIN] and [SEQ_MAX] the
    numbers of the earlier and the later one, and [SEQ_EQ] their equality.  [SEQ_BTW] decides
    whether a position of a cycle from [a] is at most [b].  The comparisons for narrower
    numbers, by width or by mask, do the same for positions in half of their range. *)
Theorem seq_order_exact a b : - 2 ^ 31 < a - b < 2 ^ 31 ->
  compares SEQ_LT SEQ_LE SEQ_GT SEQ_GE (u32 a) (u32 b) a b /\ compares TIME_LT TIME_LE TIME_GT TIME_GE (u32 a) (u32 b) a b /\
  compares ci_int32_lt ci_int32_le ci_int32_gt ci_int32_ge (u32 a) (u32 b) a b /\
  ci_ip_time_before (u32 a) (u32 b) = (a <? b) /\ SEQ_SUB (u32 a) (u32 b) = a - b /\ SEQ_EQ (u32 a) (u32 b) = (a =? b) /\
  SEQ_MIN (u32 a) (u32 b) = u32 (Z.min a b) /\ SEQ_MAX (u32 a) (u32 b) = u32 (Z.max a b) /\
  (forall s, a <= b -> a <= s < a + 2 ^ 32 -> SEQ_BTW (u32 s) (u32 a) (u32 b) = (s <=? b)) /\
  (forall bits, 1 <= bits <= 31 -> - 2 ^ (bits - 1) < a - b < 2 ^ (bits - 1) ->
     compares (fun x y => ci_seq_lt x y bits) (fun x y => ci_seq_le x y bits) (fun x y => ci_seq_gt x y bits) (fun x y => ci_seq_ge x y bits) (u32 a) (u32 b) a b /\
     compares (fun x y => ci_seqm_lt x y (2 ^ bits - 1)) (fun x y => ci_seqm_le x y (2 ^ bits - 1)) (fun x y => ci_seqm_gt x y (2 ^ bits - 1))
       (fun x y => ci_seqm_ge x y (2 ^ bits - 1)) (u32 a) (u32 b) a b).
Proof.
  intros H. assert (SEQ_LE (u32 a) (u32 b) = (a <=? b)) as Hle by by_sign.
  assert (forall p q, negb (p <? q) = (q <=? p)) as Hn by (intros p q; destruct (Z.ltb_spec p q), (Z.leb_spec q p); lia).
  split; [split_and!; by_sign|]. split; [split_and!; by_sign|]. split; [|split; [|split; [|split; [|split; [|split; [|split]]]]]].
  - unfold compares, ci_int32_lt, ci_int32_le, ci_int32_gt, ci_int32_ge, ci_seq_gt, ci_seq_le, ci_seq_ge.
    rewrite !seq_lt_close by lia. split_and!; try done; apply Hn.
  - apply seq_lt_close; lia.
  - apply seq_sub_close; lia.
  - unfold SEQ_EQ. rewrite wrap_sub_l, wrap_sub_r. unfold wrap. destruct (Z.eqb_spec a b) as [->|Hne]; [by rewrite Z.sub_diag|].
    apply Z.eqb_neq. intros E%Z.mod_divide; [|lia]. destruct E as [k E]. nia.
  - unfold SEQ_MIN. rewrite Hle. f_equal. destruct (Z.leb_spec a b); f_equal; lia.
  - unfold SEQ_MAX. rewrite Hle. destruct (Z.leb_spec a b); f_equal; lia.
  - intros s Hab Hs. apply seq_btw_close; lia.
  - intros bits Hb Hd. unfold compares, ci_seq_gt, ci_seq_le, ci_seq_ge, ci_seqm_gt, ci_seqm_le, ci_seqm_ge.
    rewrite !seq_lt_close, !seqm_lt_close by lia. split; split_and!; try done; apply Hn.
Qed.

(** Numbers on both sides of the wrap-around. *)
Lemma seq_order_exact_witness : SEQ_LT (2 ^ 32 - 10) 5 = true /\ SEQ_SUB 5 (2 ^ 32 - 10) = 15 /\ SEQ_MAX (2 ^ 32 - 10) 5 = 5 /\
  SEQ_BTW 3 (2 ^ 32 - 10) 5 = true /\ SEQ_BTW 6 (2 ^ 32 - 10) 5 = false /\ ci_seqm_lt (u32 (2 ^ 32 - 10)) (u32 (2 ^ 32 + 5)) 31 = true.
Proof.
  destruct (seq_order_exact (2 ^ 32 - 10) (2 ^ 32 + 5)) as ((H1 & _) & _ & _ & _ & _ & _ & _ & H2 & H3 & H4); [lia|].
  destruct (seq_order_exact (2 ^ 32 + 5) (2 ^ 32 - 10)) as (_ & _ & _ & _ & H5 & _); [lia|].
  split; [exact H1|]. split; [exact H5|]. split; [exact H2|]. split; [apply (H3 (2 ^ 32 + 3)); lia|]. split; [apply (H3 (2 ^ 32 + 6)); lia|].
  destruct (H4 5) as (_ & H6 & _); [lia|lia|]. exact H6.
Defined.
