(* ===== verification/Tcp.v ===== *)
(** * Tcp: windows, segment sizes and buffer space of a TCP socket ([ci/internal/ip.h])

    The inline functions on [ci_tcp_state] that compute with its numbers: the receive
    window from the buffer size, the effective segment size from the path, the initial
    congestion window, the space for sending, the word that recognises segments for the
    fast path, and the bounds of timeouts.  Fields keep the widths of their C types. *)

From Stdlib Require Import ZArith Lia Bool.
From Stdlib.Strings Require Import Byte.
From stdpp Require Import base list.
From S2P Require Import Prelude Bytes IpAddr PktQueue UdpRecvQ TcpSeq.

Definition CI_MIN (x y : Z) : Z := if x <? y then x else y.
Definition CI_MAX (x y : Z) : Z := if y <? x then x else y.

Definition CI_CFG_TCP_MINIMUM_MSS : Z := 64.
Definition CI_CFG_TCP_MAX_WINDOW : Z := 0xffff.
Definition CI_CFG_TCP_DUPACK_THRESH_BASE : Z := 3.
Definition CI_TCP_WSCL_MAX : Z := 14.

(** Flags of connection states. *)
Definition CI_TCP_STATE_SYNCHRONISED : Z := 0x001.
Definition CI_TCP_STATE_SLOW_PATH : Z := 0x002.
Definition CI_TCP_STATE_NOT_CONNECTED : Z := 0x004.
Definition CI_TCP_STATE_NO_TIMERS : Z := 0x040.
Definition CI_TCP_STATE_TCP : Z := 0x200.
Definition CI_TCP_CLOSED : Z :=
  Z.lor (Z.lor (Z.lor (Z.lor 0x0000 CI_TCP_STATE_TCP) CI_TCP_STATE_SLOW_PATH) CI_TCP_STATE_NOT_CONNECTED) CI_TCP_STATE_NO_TIMERS.
Definition CI_TCP_LISTEN : Z :=
  Z.lor (Z.lor (Z.lor (Z.lor 0x1000 CI_TCP_STATE_TCP) CI_TCP_STATE_SLOW_PATH) CI_TCP_STATE_NOT_CONNECTED) CI_TCP_STATE_NO_TIMERS.

Definition CI_TCP_FLAG_SYN : Z := 0x02.
Definition CI_TCP_FLAG_PSH : Z := 0x08.
Definition CI_TCP_FLAG_ACK : Z := 0x10.
Definition CI_TCP_URG_COMING : Z := 0x0100.
Definition CI_TCP_URG_IS_HERE : Z := 0x0200.
Definition CI_TCPT_FLAG_SACK : Z := 0x04.
Definition CI_TCPT_FLAG_FIN_PENDING : Z := 0x800000.
Definition CI_TCP_CONG_OPEN : Z := 0x0.

Definition bits_of (v f : Z) : bool := negb (Z.land v f =? 0).

(** What the functions read of a [ci_tcp_state]: [e_state] is [s.b.state], the path MTU is
    [None] without a [ci_pmtu_state_t], and [rob_empty] says that the queue of segments out
    of order is empty. *)
Record tcp_env := TcpEnv {
  e_state : Z; rx_errno : Z; urg_data : Z; rob_empty : bool; rcv_wnd_advertised : Z; congstate : Z;
  snd_nxt : Z; snd_una : Z; snd_wscl : Z; rcv_wscl : Z; amss : Z; smss : Z;
  outgoing_hdrs_len : Z; incoming_tcp_hdr_len : Z; burst_window : Z; sndbuf : Z; rcvlowat : Z; rcv_added : Z; rcv_delivered : Z;
  send_in : Z; send_out : Z; send_prequeue_in : Z; retrans_num : Z; timestamp_q : recv_q; sa : Z; mtu : Z; pmtus : option Z }.

(** What they change; [tlog] is what was logged. *)
Record tcp_state := TcpState {
  env : tcp_env; tcpflags : Z; eff_mss : Z; fast_path_check : Z; cwnd : Z; ssthresh : Z; rcvbuf : Z; rcv_window_max : Z; faststart_acks : Z;
  so_sndbuf_pkts : Z; enq_nxt : Z; timed_seq : Z; timed_ts : Z; rto : Z; tlog : list (Z * Z) }.

Definition set_tcpflags v s := TcpState (env s) v (eff_mss s) (fast_path_check s) (cwnd s) (ssthresh s) (rcvbuf s) (rcv_window_max s) (faststart_acks s) (so_sndbuf_pkts s) (enq_nxt s) (timed_seq s) (timed_ts s) (rto s) (tlog s).
Definition set_eff_mss v s := TcpState (env s) (tcpflags s) v (fast_path_check s) (cwnd s) (ssthresh s) (rcvbuf s) (rcv_window_max s) (faststart_acks s) (so_sndbuf_pkts s) (enq_nxt s) (timed_seq s) (timed_ts s) (rto s) (tlog s).
Definition set_fast_path_check v s := TcpState (env s) (tcpflags s) (eff_mss s) v (cwnd s) (ssthresh s) (rcvbuf s) (rcv_window_max s) (faststart_acks s) (so_sndbuf_pkts s) (enq_nxt s) (timed_seq s) (timed_ts s) (rto s) (tlog s).
Definition set_cwnd v s := TcpState (env s) (tcpflags s) (eff_mss s) (fast_path_check s) v (ssthresh s) (rcvbuf s) (rcv_window_max s) (faststart_acks s) (so_sndbuf_pkts s) (enq_nxt s) (timed_seq s) (timed_ts s) (rto s) (tlog s).
Definition set_ssthresh v s := TcpState (env s) (tcpflags s) (eff_mss s) (fast_path_check s) (cwnd s) v (rcvbuf s) (rcv_window_max s) (faststart_acks s) (so_sndbuf_pkts s) (enq_nxt s) (timed_seq s) (timed_ts s) (rto s) (tlog s).
Definition set_rcvbuf v s := TcpState (env s) (tcpflags s) (eff_mss s) (fast_path_check s) (cwnd s) (ssthresh s) v (rcv_window_max s) (faststart_acks s) (so_sndbuf_pkts s) (enq_nxt s) (timed_seq s) (timed_ts s) (rto s) (tlog s).
Definition set_rcv_window_max v s := TcpState (env s) (tcpflags s) (eff_mss s) (fast_path_check s) (cwnd s) (ssthresh s) (rcvbuf s) v (faststart_acks s) (so_sndbuf_pkts s) (enq_nxt s) (timed_seq s) (timed_ts s) (rto s) (tlog s).
Definition set_faststart_acks v s := TcpState (env s) (tcpflags s) (eff_mss s) (fast_path_check s) (cwnd s) (ssthresh s) (rcvbuf s) (rcv_window_max s) v (so_sndbuf_pkts s) (enq_nxt s) (timed_seq s) (timed_ts s) (rto s) (tlog s).
Definition set_so_sndbuf_pkts v s := TcpState (env s) (tcpflags s) (eff_mss s) (fast_path_check s) (cwnd s) (ssthresh s) (rcvbuf s) (rcv_window_max s) (faststart_acks s) v (enq_nxt s) (timed_seq s) (timed_ts s) (rto s) (tlog s).
Definition set_enq_nxt v s := TcpState (env s) (tcpflags s) (eff_mss s) (fast_path_check s) (cwnd s) (ssthresh s) (rcvbuf s) (rcv_window_max s) (faststart_acks s) (so_sndbuf_pkts s) v (timed_seq s) (timed_ts s) (rto s) (tlog s).
Definition set_timed v t s := TcpState (env s) (tcpflags s) (eff_mss s) (fast_path_check s) (cwnd s) (ssthresh s) (rcvbuf s) (rcv_window_max s) (faststart_acks s) (so_sndbuf_pkts s) (enq_nxt s) v t (rto s) (tlog s).
Definition set_rto v s := TcpState (env s) (tcpflags s) (eff_mss s) (fast_path_check s) (cwnd s) (ssthresh s) (rcvbuf s) (rcv_window_max s) (faststart_acks s) (so_sndbuf_pkts s) (enq_nxt s) (timed_seq s) (timed_ts s) v (tlog s).
Definition ci_log (l : Z * Z) s := TcpState (env s) (tcpflags s) (eff_mss s) (fast_path_check s) (cwnd s) (ssthresh s) (rcvbuf s) (rcv_window_max s) (faststart_acks s) (so_sndbuf_pkts s) (enq_nxt s) (timed_seq s) (timed_ts s) (rto s) (tlog s ++ [l]).

(** The value of [CI_CFG_TCP_INITIAL_CWND_RFC]; the repository's is [RFC2581]. *)
Inductive cwnd_rfc := RFC3390 | RFC2581 | RFC2001.
Definition CI_CFG_TCP_INITIAL_CWND_RFC : cwnd_rfc := RFC2581.

(** Options and constants of the stack ([NI_OPTS], [NI_CONF]). *)
Record tcp_conf := TcpConf {
  initial_cwnd : Z; min_cwnd : Z; tcp_sndbuf_mode : bool; tail_drop_probe : bool; tcp_backlog_max : Z;
  tconst_rto_initial : Z; tconst_rto_min : Z; tconst_rto_max : Z; initial_cwnd_rfc : cwnd_rfc }.

Section Ops.
(** The options, and [ci_tcp_set_sndbuf] of the library: the number of packets it allows. *)
Variables (conf : tcp_conf) (f_af : af) (ci_tcp_set_sndbuf : tcp_state -> Z).

Abbreviation op := (cm tcp_state).

(** The value of a signed sum, undefined outside the range of [int]. *)
Definition int_value (z : Z) : op Z := if (- 2 ^ 31 <=? z) && (z <? 2 ^ 31) then ret z else stop Undef.

(** ** Segment sizes *)

(** The macros subtract in [size_t]. *)
Definition tcp_outgoing_opts_len (s : tcp_state) : Z := u64 (outgoing_hdrs_len (env s) - sizeof_ip4_hdr - sizeof_tcp_hdr).
Definition tcp_ipx_outgoing_opts_len (s : tcp_state) : Z := u64 (outgoing_hdrs_len (env s) - CI_IPX_HDR_SIZE f_af - sizeof_tcp_hdr).

Definition tcp_eff_mss : op Z :=
  let! s := get in
  (if negb (e_state (env s) =? CI_TCP_CLOSED) then
     ci_assert (negb (e_state (env s) =? CI_TCP_LISTEN)) ;;;
     ci_assert (tcp_outgoing_opts_len s <? CI_CFG_TCP_MINIMUM_MSS) ;;;
     ci_assert (u64 (CI_CFG_TCP_MINIMUM_MSS - tcp_outgoing_opts_len s) <=? eff_mss s)
   else ret tt) ;;;
  ret (eff_mss s).

Definition ci_tcp_get_pmtu : op Z :=
  let! s := get in
  ci_assert (negb (e_state (env s) =? CI_TCP_LISTEN)) ;;;
  match pmtus (env s) with
  | Some pmtu => ret (CI_MIN (mtu (env s)) pmtu)
  | None => ret (mtu (env s))
  end.

(** ** The initial congestion window *)

Definition ci_tcp_set_initialcwnd : op unit :=
  (if initial_cwnd conf =? 0 then
     match initial_cwnd_rfc conf with
     | RFC3390 =>
         let! m := tcp_eff_mss in
         let mss4 := u32 (Z.shiftl m 2) in
         let! m := tcp_eff_mss in
         let mss2 := u32 (Z.shiftl m 1) in
         modify (set_cwnd (CI_MAX mss2 4380)) ;;;
         modify (fun s => set_cwnd (CI_MIN (cwnd s) mss4) s)
     | RFC2581 => let! m := tcp_eff_mss in modify (set_cwnd (u32 (Z.shiftl m 1)))
     | RFC2001 => let! m := tcp_eff_mss in modify (set_cwnd m)
     end
   else
     let! m := tcp_eff_mss in
     (if initial_cwnd conf <? m then let! m := tcp_eff_mss in modify (ci_log (initial_cwnd conf, m)) else ret tt) ;;;
     let! m := tcp_eff_mss in
     modify (set_cwnd (CI_MAX m (initial_cwnd conf)))) ;;;
  modify (fun s => set_cwnd (CI_MAX (cwnd s) (min_cwnd conf)) s) ;;;
  let! s := get in
  ci_assert (snd_wscl (env s) <=? CI_TCP_WSCL_MAX) ;;;
  modify (set_ssthresh (u32 (i32 (Z.shiftl 65535 (snd_wscl (env s)))))).

Definition ci_tcp_set_eff_mss : op unit :=
  let! s := get in
  ci_assert (negb (e_state (env s) =? CI_TCP_LISTEN)) ;;;
  let! p := ci_tcp_get_pmtu in
  let x := u32 (p - sizeof_tcp_hdr - CI_IPX_HDR_SIZE f_af) in
  let x := CI_MIN x (smss (env s)) in
  modify (fun s => set_eff_mss (u16 (CI_MAX x CI_CFG_TCP_MINIMUM_MSS - tcp_ipx_outgoing_opts_len s)) s) ;;;
  modify (fun s => set_ssthresh (CI_MAX (ssthresh s) (u32 (Z.shiftl (eff_mss s) 1))) s) ;;;
  let! s := get in
  (if cwnd s <? eff_mss s then ci_tcp_set_initialcwnd else ret tt) ;;;
  modify (fun s => set_so_sndbuf_pkts (ci_tcp_set_sndbuf s) s).

Definition ci_tcp_inflight : op Z := let! s := get in ret (u32 (SEQ_SUB (snd_nxt (env s)) (snd_una (env s)))).

Definition ci_tcp_losswnd : op Z :=
  let! i := ci_tcp_inflight in
  let x := Z.shiftr i 1 in
  let! m := tcp_eff_mss in
  let y := u32 (Z.shiftl m 1) in
  ret (CI_MAX x y).

(** [ci_tcp_get_fack] of the library gives [fack] and [retrans_data]. *)
Definition ci_tcp_burst_exhausted (fack retrans_data : Z) : op bool :=
  let! s := get in
  let! extra := int_value (SEQ_SUB fack (snd_una (env s)) - retrans_data) in
  let extra := CI_MAX extra 0 in
  let! i := ci_tcp_inflight in
  ret (burst_window (env s) <? u32 (i - extra)).

Definition ci_tcp_base_dupack_thresh : Z := CI_CFG_TCP_DUPACK_THRESH_BASE.

(** ** The receive window *)

Definition ci_tcp_rcvbuf2window (so_rcvbuf amss rcv_wscl : Z) : op Z :=
  ci_assert (negb (amss =? 0)) ;;;
  let so_rcvbuf := CI_MAX so_rcvbuf amss in
  let so_rcvbuf := if negb (so_rcvbuf mod amss =? 0) then u32 (so_rcvbuf + u32 (amss - so_rcvbuf mod amss)) else so_rcvbuf in
  ret (CI_MIN so_rcvbuf (u32 (Z.shiftl CI_CFG_TCP_MAX_WINDOW rcv_wscl))).

Definition ci_tcp_calc_rcv_wnd_syn (so_rcvbuf amss rcv_wscl : Z) : op Z :=
  let! w := ci_tcp_rcvbuf2window so_rcvbuf amss rcv_wscl in ret (u16 (CI_MIN w 0xffff)).

Definition ci_tcp_set_rcvbuf : op unit :=
  let! s := get in
  let! w := ci_tcp_rcvbuf2window (u32 (rcvbuf s)) (amss (env s)) (rcv_wscl (env s)) in
  modify (set_rcv_window_max w) ;;;
  let! s := get in
  (if u32 (rcvbuf s) <? rcv_window_max s then modify (set_rcvbuf (i32 (rcv_window_max s))) else ret tt).

Definition tcp_rcv_usr (s : tcp_state) : Z := u32 (rcv_added (env s) - rcv_delivered (env s)).
Definition tcp_rcv_wnd_current (s : tcp_state) : Z := CI_MIN (rcv_window_max s) (u32 (rcvbuf s - tcp_rcv_usr s)).
Definition ci_tcp_max_rcv_window : op Z := let! s := get in ret (i32 (rcv_window_max s)).
Definition ci_tcp_ack_trigger_delta : op Z := let! w := ci_tcp_max_rcv_window in ret (Z.shiftr w 3).

(** The window and the flags of a received header. *)
Definition ci_tcp_wnd_from_hdr (tcp_window_be16 tcp_flags wscl : Z) : Z :=
  let tmp := CI_BSWAP_BE16 tcp_window_be16 in if bits_of tcp_flags CI_TCP_FLAG_SYN then tmp else u32 (Z.shiftl tmp wscl).

Definition ci_tcp_reduce_faststart (reduction : Z) : op unit :=
  let! s := get in
  if faststart_acks s <=? reduction then modify (set_faststart_acks 0) else modify (set_faststart_acks (faststart_acks s - reduction)).
Definition ci_tcp_is_in_faststart : op bool := let! s := get in ret (negb (faststart_acks s =? 0)).

Definition TCP_RX_DONE (s : tcp_state) : bool := negb (rx_errno (env s) =? 0).
Definition ci_tcp_recv_not_blocked : op bool :=
  let! s := get in
  let bytes := i32 (tcp_rcv_usr s) in
  if TCP_RX_DONE s then ret true else
  let! least := int_value (rcvlowat (env s) + (if bits_of (urg_data (env s)) CI_TCP_URG_IS_HERE then 1 else 0)) in
  ret (least <=? bytes).

(** ** Space for sending *)

(** The sum is unsigned, since [send_in] and [send_out] are. *)
Definition ci_tcp_sendq_n_pkts : op Z :=
  let! s := get in
  let n := i32 (send_prequeue_in (env s) + send_in (env s) - send_out (env s)) in
  ret (if 0 <=? n then n else 0).

Definition ci_tcp_tx_advertise_space : op bool :=
  let! s := get in
  if tcp_sndbuf_mode conf then
    let! n := ci_tcp_sendq_n_pkts in
    let! n := int_value (n + ci_udp_recv_q_pkts (timestamp_q (env s))) in
    let! pkts_queued := int_value (n + retrans_num (env s)) in
    let! free := int_value (so_sndbuf_pkts s - pkts_queued) in
    ret (Z.shiftr pkts_queued 1 <? free)
  else
    let bytes_enqueued := SEQ_SUB (enq_nxt s) (snd_nxt (env s)) in
    let! n := ci_tcp_sendq_n_pkts in
    if n <? so_sndbuf_pkts s then
      let! free := int_value (sndbuf (env s) - bytes_enqueued) in
      ret (Z.shiftr bytes_enqueued 1 <? free)
    else ret false.

Definition ci_tcp_tx_send_space : op Z :=
  let! s := get in
  let! n := ci_tcp_sendq_n_pkts in
  if tcp_sndbuf_mode conf then
    let! n := int_value (n + ci_udp_recv_q_pkts (timestamp_q (env s))) in
    let! n := int_value (n + retrans_num (env s)) in
    int_value (so_sndbuf_pkts s - n)
  else int_value (so_sndbuf_pkts s - n).

(** [ci_tcp_add_fin] of the library: the state it leaves and its result. *)
Definition ci_tcp_resend_fin (ci_tcp_add_fin : tcp_state -> tcp_state * Z) : op Z :=
  modify (fun s => set_enq_nxt (u32 (enq_nxt s - 1)) s) ;;;
  let! s := get in
  let '(s', rc) := ci_tcp_add_fin s in
  modify (fun _ => s') ;;;
  if rc =? 0 then
    modify (fun s => set_tcpflags (Z.ldiff (tcpflags s) CI_TCPT_FLAG_FIN_PENDING) s) ;;; ret 1
  else modify (fun s => set_enq_nxt (u32 (enq_nxt s + 1)) s) ;;; ret 0.

(** ** Timing *)

Definition ci_tcp_clear_rtt_timing : op unit := modify (fun s => set_timed (u32 (snd_una (env s) - 1)) (timed_ts s) s).
Definition ci_tcp_set_rtt_timing (now seq : Z) : op unit := modify (set_timed (u32 seq) now).

Definition ci_tcp_rto_bound : op unit :=
  modify (fun s => set_rto (CI_MIN (tconst_rto_max conf) (rto s)) s) ;;;
  modify (fun s => set_rto (CI_MAX (tconst_rto_min conf) (rto s)) s).

Definition ci_tcp_taildrop_probe_enabled : op bool :=
  let! s := get in
  ret (tail_drop_probe conf && bits_of (tcpflags s) CI_TCPT_FLAG_SACK && (congstate (env s) =? CI_TCP_CONG_OPEN) &&
       bits_of (e_state (env s)) CI_TCP_STATE_SYNCHRONISED).

Definition TCP_TIMEOUT_MIN : Z := tconst_rto_min conf / 10.
Definition ci_tcp_taildrop_timeout : op Z :=
  let! s := get in
  ci_assert (0 <? TCP_TIMEOUT_MIN) ;;;
  let offset :=
    if TCP_TIMEOUT_MIN <=? sa (env s) then
      u32 (Z.shiftr (sa (env s)) 2 + (if retrans_num (env s) =? 1 then tconst_rto_min conf else TCP_TIMEOUT_MIN))
    else tconst_rto_initial conf in
  ret (CI_MIN offset (rto s)).

Definition ci_tcp_listenq_max : Z := tcp_backlog_max conf.

(** ** The fast path *)

Definition CI_TCP_FAST_PATH_MASK : Z := CI_BSWAP_BE32 0xf0f70000.

(** The header as bytes; [None] when it is shorter. *)
Definition CI_TCP_FAST_PATH_WORD (hdr : list byte) : option Z := load_le 12 4 hdr.

Definition tcp_rx_urg_fast_path (s : tcp_state) : bool := bits_of (Z.lnot (urg_data (env s))) CI_TCP_URG_COMING.
Definition ci_tcp_can_use_fast_path (s : tcp_state) : bool :=
  bits_of (Z.lnot (e_state (env s))) CI_TCP_STATE_SLOW_PATH && rob_empty (env s) && tcp_rx_urg_fast_path s && negb (rcv_wnd_advertised (env s) =? 0).

(** The shift of an [int] to the left wraps around, as the compilers in use define it: a length
    of 32 or more reaches the sign bit, which the C standard leaves undefined. *)
Definition ci_tcp_fast_path_enable : op unit :=
  modify (fun s => set_fast_path_check (u32 (i32 (Z.shiftl (incoming_tcp_hdr_len (env s)) 26))) s) ;;;
  modify (fun s => set_fast_path_check (Z.lor (fast_path_check s) (Z.shiftl CI_TCP_FLAG_ACK 16)) s) ;;;
  modify (fun s => set_fast_path_check (CI_BSWAP_BE32 (fast_path_check s)) s) ;;;
  let! s := get in
  ci_assert (ci_tcp_can_use_fast_path s).

Definition ci_tcp_fast_path_disable : op unit :=
  let! s := get in
  ci_assert (negb (ci_tcp_can_use_fast_path s)) ;;;
  modify (set_fast_path_check (u32 (Z.lnot CI_TCP_FAST_PATH_MASK))).
End Ops.

(** ** The fast path *)

Lemma land_land a b c : Z.land (Z.land a b) c = Z.land (Z.land a c) (Z.land b c).
Proof. apply Z.bits_inj'. intros n _. rewrite !Z.land_spec. by destruct (Z.testbit a n), (Z.testbit b n), (Z.testbit c n). Qed.

(** Part of a byte is a byte. *)
Lemma land_byte v m : 0 <= v < 256 -> 0 <= m -> 0 <= Z.land v m < 256.
Proof.
  intros Hv Hm. split; [apply Z.land_nonneg; lia|]. rewrite <- (Z.mod_small v 256), <- land_255, <- Z.land_assoc, (Z.land_comm 255), Z.land_assoc, land_255 by lia.
  apply Z.mod_pos_bound. lia.
Qed.

Lemma land_bytes a x m n : 0 <= a < 256 -> 0 <= m < 256 -> Z.land (a + 256 * x) (m + 256 * n) = Z.land a m + 256 * Z.land x n.
Proof.
  intros Ha Hm. set (v := Z.land (a + 256 * x) (m + 256 * n)). pose proof (land_byte a m Ha ltac:(lia)).
  assert (v / 256 = Z.land x n) as Hd.
  { unfold v. change 256 with (2 ^ 8). rewrite <- Z.shiftr_div_pow2, Z.shiftr_land, !Z.shiftr_div_pow2 by lia. f_equal; symmetry; [apply (Z.div_unique_pos _ _ _ a)|apply (Z.div_unique_pos _ _ _ m)]; lia. }
  assert (v mod 256 = Z.land a m) as Hr.
  { rewrite <- land_255. unfold v. rewrite land_land, !land_255. f_equal; symmetry; [apply (Z.mod_unique_pos _ _ x)|apply (Z.mod_unique_pos _ _ n)]; lia. }
  pose proof (Z.div_mod v 256 ltac:(lia)). lia.
Qed.

(** The bytes of the header that the word holds. *)
Lemma fast_path_word hdr b0 b1 b2 b3 : take 4 (drop 12 hdr) = [b0; b1; b2; b3] ->
  exists w, CI_TCP_FAST_PATH_WORD hdr = Some w /\ CI_TCP_HDR_LEN hdr = Some (Z.shiftr (Z.land (b2z b0) 0xf0) 2) /\ rd tcp_flags hdr = Some (b2z b1) /\
    Z.land w CI_TCP_FAST_PATH_MASK = Z.land (b2z b0) 0xf0 + 256 * Z.land (b2z b1) 0xf7.
Proof.
  intros H. assert (12 + 4 <= length hdr)%nat as Hl.
  { assert (length (take 4 (drop 12 hdr)) = 4%nat) as E by (by rewrite H). rewrite length_take, length_drop in E. lia. }
  assert (forall k b, [b0; b1; b2; b3] !! k = Some b -> load_le (12 + k) 1 hdr = Some (b2z b)) as Hk.
  { intros k b Hb. unfold load_le, load. rewrite <- H in Hb. assert (k < 4)%nat by (apply lookup_lt_Some in Hb; rewrite length_take in Hb; lia).
    rewrite lookup_take in Hb. case_decide; [|lia]. rewrite decide_True by lia. rewrite lookup_drop in Hb. rewrite (drop_S hdr b (12 + k) Hb). change (Some (le_decode [b]) = Some (b2z b)). cbn [le_decode]. f_equal. lia. }
  exists (le_decode [b0; b1; b2; b3]). split; [unfold CI_TCP_FAST_PATH_WORD, load_le, load; rewrite decide_True by done; by rewrite H|].
  pose proof (Hk 0%nat b0 eq_refl) as H12. split; [unfold CI_TCP_HDR_LEN, rd; cbn [f_off f_len tcp_hdr_len_sl4]; change (load_le 12 1 hdr) with (load_le (12 + 0) 1 hdr); by rewrite H12|]. split; [by apply (Hk 1%nat)|].
  change CI_TCP_FAST_PATH_MASK with (0xf0 + 256 * (0xf7 + 256 * 0)). simpl le_decode. pose proof (b2z_range b0). pose proof (b2z_range b1).
  rewrite !land_bytes by lia. rewrite Z.land_0_r. lia.
Qed.

(** The value for headers of [len] bytes with [ACK] set. *)
Definition expected (len : Z) : Z := Z.shiftl (Z.shiftr len 2) 4 + 256 * CI_TCP_FLAG_ACK.

Lemma header_lengths len : len mod 4 = 0 -> 0 <= len <= 60 -> len ∈ (fun n => 4 * Z.of_nat n) <$> seq 0 16.
Proof.
  intros Hm Hl. apply list_elem_of_fmap. exists (Z.to_nat (len / 4)). pose proof (Z.div_mod len 4 ltac:(lia)). split; [lia|]. apply elem_of_seq. lia.
Qed.

Lemma enable_check s : incoming_tcp_hdr_len (env s) mod 4 = 0 -> 0 <= incoming_tcp_hdr_len (env s) <= 60 -> ci_tcp_can_use_fast_path s = true ->
  ci_tcp_fast_path_enable s = (set_fast_path_check (expected (incoming_tcp_hdr_len (env s))) s, Ok tt).
Proof.
  intros Hm Hl Hc. unfold ci_tcp_fast_path_enable. rewrite !bind_modify, bind_get. cbn [env set_fast_path_check fast_path_check].
  pose proof (header_lengths _ Hm Hl) as Hin. revert Hc. generalize dependent (incoming_tcp_hdr_len (env s)). intros len _ _ Hin Hc.
  unfold ci_tcp_can_use_fast_path, tcp_rx_urg_fast_path in *. cbn [env set_fast_path_check] in *. rewrite Hc. unfold ci_assert, ret.
  assert (Forall (fun len => CI_BSWAP_BE32 (Z.lor (u32 (i32 (Z.shiftl len 26))) (Z.shiftl CI_TCP_FLAG_ACK 16)) = expected len) ((fun n => 4 * Z.of_nat n) <$> seq 0 16)) as Hf
    by (repeat constructor). rewrite Forall_forall in Hf. by rewrite (Hf len Hin).
Qed.

Lemma byte_len b : In (b2z b) (Z.of_nat <$> seq 0 256).
Proof. apply list_elem_of_In, list_elem_of_fmap. pose proof (b2z_range b). exists (Z.to_nat (b2z b)). split; [lia|]. apply elem_of_seq. lia. Qed.

Lemma same_len len v : len mod 4 = 0 -> 0 <= len <= 60 -> 0 <= v < 256 -> Z.land v 0xf0 = Z.shiftl (Z.shiftr len 2) 4 <-> Z.shiftr (Z.land v 0xf0) 2 = len.
Proof.
  intros Hm Hl Hv. assert (Z.land v 0xf0 mod 16 = 0 /\ 0 <= Z.land v 0xf0 < 256) as [H1 H2].
  { split; [|by apply land_byte]. change 16 with (2 ^ 4). rewrite <- Z.land_ones by lia. rewrite <- Z.land_assoc. apply Z.land_0_r. }
  rewrite Z.shiftl_mul_pow2, !Z.shiftr_div_pow2 by lia. change (2 ^ 2) with 4. change (2 ^ 4) with 16.
  pose proof (Z.div_mod len 4 ltac:(lia)). pose proof (Z.div_mod (Z.land v 0xf0) 16 ltac:(lia)).
  assert (Z.land v 0xf0 / 4 = 4 * (Z.land v 0xf0 / 16)) as -> by (symmetry; apply (Z.div_unique_pos _ _ _ 0); lia). lia.
Qed.

(** C31: the fast path check.  When the fast path may be used, [ci_tcp_fast_path_enable]
    passes its assertion and leaves a value such that, for every received header, the masked word
    of the header is that value exactly when its header length is the expected one and its
    flags without [PSH] are [ACK] alone; the value that [ci_tcp_fast_path_disable] leaves is the masked
    word of no header.  The expected length is a multiple of 4 up to 60; from 32 on the shift of the
    code reaches the sign of an [int] and is taken to wrap around. *)
Theorem fast_path_exact s hdr b0 b1 b2 b3 : incoming_tcp_hdr_len (env s) mod 4 = 0 -> 0 <= incoming_tcp_hdr_len (env s) <= 60 ->
  take 4 (drop 12 hdr) = [b0; b1; b2; b3] ->
  exists w len flags, CI_TCP_FAST_PATH_WORD hdr = Some w /\ CI_TCP_HDR_LEN hdr = Some len /\ rd tcp_flags hdr = Some flags /\
    if ci_tcp_can_use_fast_path s then
      exists s', ci_tcp_fast_path_enable s = (s', Ok tt) /\
        (Z.land w CI_TCP_FAST_PATH_MASK = fast_path_check s' <-> len = incoming_tcp_hdr_len (env s) /\ Z.ldiff flags CI_TCP_FLAG_PSH = CI_TCP_FLAG_ACK)
    else exists s', ci_tcp_fast_path_disable s = (s', Ok tt) /\ Z.land w CI_TCP_FAST_PATH_MASK <> fast_path_check s'.
Proof.
  intros Hm Hl Hb. destruct (fast_path_word hdr b0 b1 b2 b3 Hb) as (w & Hw & Hlen & Hf & Hmask). eexists w, _, _. do 3 (split; [done|]).
  pose proof (b2z_range b0) as H0. pose proof (b2z_range b1) as H1.
  pose proof (land_byte (b2z b0) 0xf0 H0 ltac:(lia)). pose proof (land_byte (b2z b1) 0xf7 H1 ltac:(lia)).
  destruct (ci_tcp_can_use_fast_path s) eqn:Hc.
  - rewrite (enable_check s Hm Hl Hc). eexists. split; [done|]. cbn [fast_path_check set_fast_path_check]. rewrite Hmask. unfold expected.
    rewrite <- (same_len _ (b2z b0) Hm Hl) by lia.
    assert (Z.ldiff (b2z b1) CI_TCP_FLAG_PSH = Z.land (b2z b1) 0xf7) as ->.
    { assert (forallb (fun v => Z.ldiff v CI_TCP_FLAG_PSH =? Z.land v 0xf7) (Z.of_nat <$> seq 0 256) = true) as Hx by (vm_compute; reflexivity).
      rewrite forallb_forall in Hx. apply Z.eqb_eq, Hx, byte_len. }
    assert (0 <= Z.shiftl (Z.shiftr (incoming_tcp_hdr_len (env s)) 2) 4 < 256) as Hs.
    { rewrite Z.shiftl_mul_pow2, Z.shiftr_div_pow2 by lia. change (2 ^ 2) with 4. change (2 ^ 4) with 16. pose proof (Z.div_mod (incoming_tcp_hdr_len (env s)) 4 ltac:(lia)). lia. }
    unfold CI_TCP_FLAG_ACK. lia.
  - unfold ci_tcp_fast_path_disable. rewrite bind_get, Hc. eexists. split; [done|]. cbn [fast_path_check set_fast_path_check]. rewrite Hmask.
    change (u32 (Z.lnot CI_TCP_FAST_PATH_MASK)) with 0xffff080f. lia.
Qed.

(** ** Types *)

Definition in_u (w v : Z) : Prop := 0 <= v < 2 ^ w.
Definition in_i32 (v : Z) : Prop := - 2 ^ 31 <= v < 2 ^ 31.

Record typed_env (e : tcp_env) : Prop := {
  te_snd : in_u 32 (snd_nxt e) /\ in_u 32 (snd_una e) /\ in_u 8 (snd_wscl e) /\ in_u 8 (rcv_wscl e);
  te_mss : in_u 16 (amss e) /\ in_u 16 (smss e) /\ in_u 16 (mtu e) /\ in_u 16 (outgoing_hdrs_len e) /\ (forall p, pmtus e = Some p -> in_u 16 p);
  te_len : in_u 8 (incoming_tcp_hdr_len e) /\ in_u 32 (burst_window e) /\ in_i32 (sndbuf e) /\ in_i32 (rcvlowat e);
  te_num : in_u 32 (rcv_added e) /\ in_u 32 (rcv_delivered e) /\ in_u 32 (send_in e) /\ in_u 32 (send_out e) /\ in_i32 (send_prequeue_in e) /\ in_i32 (retrans_num e) /\ in_u 32 (sa e) }.

Record typed (s : tcp_state) : Prop := {
  ty_env : typed_env (env s);
  ty_mss : in_u 16 (eff_mss s) /\ in_u 32 (cwnd s) /\ in_u 32 (ssthresh s);
  ty_wnd : in_i32 (rcvbuf s) /\ in_u 32 (rcv_window_max s) /\ in_u 32 (faststart_acks s) /\ in_i32 (so_sndbuf_pkts s);
  ty_seq : in_u 32 (tcpflags s) /\ in_u 32 (fast_path_check s) /\ in_u 32 (enq_nxt s) /\ in_u 32 (timed_seq s) /\ in_u 32 (timed_ts s) /\ in_u 32 (rto s) }.

Definition typed_conf (c : tcp_conf) : Prop :=
  in_u 32 (initial_cwnd c) /\ in_u 32 (min_cwnd c) /\ in_u 32 (tconst_rto_initial c) /\ in_u 32 (tconst_rto_min c) /\ in_u 32 (tconst_rto_max c).

(** A connection: not a listening socket, with headers of the length that its family and up
    to 40 bytes of options give; window scales within the limit of the protocol. *)
Record sane (f : af) (s : tcp_state) : Prop := {
  sn_state : e_state (env s) <> CI_TCP_LISTEN;
  sn_hdrs : CI_IPX_HDR_SIZE f + sizeof_tcp_hdr <= outgoing_hdrs_len (env s) <= CI_IPX_HDR_SIZE f + sizeof_tcp_hdr + 40;
  sn_mss : CI_CFG_TCP_MINIMUM_MSS - tcp_outgoing_opts_len s <= eff_mss s;
  sn_wscl : snd_wscl (env s) <= CI_TCP_WSCL_MAX /\ rcv_wscl (env s) <= CI_TCP_WSCL_MAX;
  sn_amss : 1 <= amss (env s);
  sn_rcvbuf : 0 <= rcvbuf s }.

Lemma min_ok x y : CI_MIN x y = Z.min x y.
Proof. unfold CI_MIN. destruct (Z.ltb_spec x y); lia. Qed.

Lemma max_ok x y : CI_MAX x y = Z.max x y.
Proof. unfold CI_MAX. destruct (Z.ltb_spec y x); lia. Qed.

Lemma hdr_size f : CI_IPX_HDR_SIZE f = 20 \/ CI_IPX_HDR_SIZE f = 40.
Proof. unfold CI_IPX_HDR_SIZE. destruct (IS_AF_INET6 f); [by right|by left]. Qed.

(** The options of both families as numbers. *)
Lemma opts_len f s : sane f s -> tcp_outgoing_opts_len s = outgoing_hdrs_len (env s) - 40 /\
  tcp_ipx_outgoing_opts_len f s = outgoing_hdrs_len (env s) - CI_IPX_HDR_SIZE f - 20 /\ 0 <= tcp_ipx_outgoing_opts_len f s <= tcp_outgoing_opts_len s /\
  tcp_outgoing_opts_len s < CI_CFG_TCP_MINIMUM_MSS.
Proof.
  intros H. pose proof (sn_hdrs _ _ H) as Hh. unfold tcp_outgoing_opts_len, tcp_ipx_outgoing_opts_len. change sizeof_ip4_hdr with 20. change sizeof_tcp_hdr with 20 in *.
  destruct (hdr_size f) as [E|E]; rewrite E in *; rewrite !wrap_small by lia; unfold CI_CFG_TCP_MINIMUM_MSS; lia.
Qed.

Lemma assert_yes b (s : tcp_state) {B} (k : unit -> cm tcp_state B) : b = true -> bind (ci_assert b) k s = k tt s.
Proof. by intros ->. Qed.

Section Exact.
Context (conf : tcp_conf) (f : af) (set_sndbuf : tcp_state -> Z).
Context (Hconf : typed_conf conf) (Hsnd : forall s, in_i32 (set_sndbuf s)).

Lemma eff_mss_ok s : sane f s -> tcp_eff_mss s = (s, Ok (eff_mss s)).
Proof.
  intros H. destruct (opts_len f s H) as (E & _ & _ & Ho). pose proof (sn_mss _ _ H) as Hm. pose proof (sn_hdrs _ _ H) as Hh.
  unfold tcp_eff_mss. rewrite bind_get. destruct (e_state (env s) =? CI_TCP_CLOSED); cbn [negb]; [done|].
  assert (0 <= tcp_outgoing_opts_len s) by (apply wrap_range; lia). rewrite (bind_Ok _ _ s s tt); [done|].
  rewrite assert_yes by (apply negb_true_iff, Z.eqb_neq, (sn_state _ _ H)). rewrite assert_yes by (by apply Z.ltb_lt).
  rewrite wrap_small by (unfold CI_CFG_TCP_MINIMUM_MSS in *; lia). by rewrite (proj2 (Z.leb_le _ _) Hm).
Qed.

Definition path_mtu (e : tcp_env) : Z := match pmtus e with Some p => Z.min (mtu e) p | None => mtu e end.

Lemma get_pmtu_ok s : sane f s -> ci_tcp_get_pmtu s = (s, Ok (path_mtu (env s))).
Proof.
  intros H. unfold ci_tcp_get_pmtu, path_mtu. rewrite bind_get. rewrite assert_yes by (apply negb_true_iff, Z.eqb_neq, (sn_state _ _ H)).
  destruct (pmtus (env s)); [by rewrite min_ok|done].
Qed.

(** The initial window for segments of [m] bytes. *)
Definition first_cwnd (m : Z) : Z :=
  Z.max (if initial_cwnd conf =? 0 then match initial_cwnd_rfc conf with RFC3390 => Z.min (Z.max (2 * m) 4380) (4 * m) | RFC2581 => 2 * m | RFC2001 => m end
         else Z.max m (initial_cwnd conf)) (min_cwnd conf).

Definition warned (s : tcp_state) : tcp_state :=
  if negb (initial_cwnd conf =? 0) && (initial_cwnd conf <? eff_mss s) then ci_log (initial_cwnd conf, eff_mss s) s else s.

Lemma sane_ext s s' : sane f s -> env s' = env s -> eff_mss s' = eff_mss s -> rcvbuf s' = rcvbuf s -> sane f s'.
Proof. intros [] E1 E2 E3. split; unfold tcp_outgoing_opts_len in *; rewrite ?E1, ?E2, ?E3; done. Qed.

Lemma shift_wscl v : 0 <= v <= 14 -> u32 (i32 (Z.shiftl 65535 v)) = 65535 * 2 ^ v.
Proof.
  intros Hv. rewrite Z.shiftl_mul_pow2 by lia. assert (2 ^ v <= 2 ^ 14) by (apply Z.pow_le_mono_r; lia). assert (0 < 2 ^ v) by (apply Z.pow_pos_nonneg; lia).
  rewrite swrap_small by (simpl in *; lia). apply wrap_small. simpl in *. lia.
Qed.

Lemma initialcwnd_ok s : sane f s -> typed s ->
  ci_tcp_set_initialcwnd conf s = (set_ssthresh (65535 * 2 ^ snd_wscl (env s)) (set_cwnd (first_cwnd (eff_mss s)) (warned s)), Ok tt).
Proof.
  intros H Ht. destruct (ty_mss _ Ht) as ((Hm0 & Hm1) & _). destruct (te_snd _ (ty_env _ Ht)) as (_ & _ & (Hw0 & _) & _). pose proof (proj1 (sn_wscl _ _ H)) as Hw.
  assert (forall k, 0 <= k <= 2 -> u32 (Z.shiftl (eff_mss s) k) = 2 ^ k * eff_mss s) as Hs.
  { intros k Hk. rewrite Z.shiftl_mul_pow2 by lia. assert (2 ^ k <= 2 ^ 2) by (apply Z.pow_le_mono_r; lia). assert (0 < 2 ^ k) by (apply Z.pow_pos_nonneg; lia). rewrite wrap_small; simpl in *; nia. }
  unfold ci_tcp_set_initialcwnd. rewrite (bind_Ok _ _ s (set_cwnd (if initial_cwnd conf =? 0 then match initial_cwnd_rfc conf with RFC3390 => Z.min (Z.max (2 * eff_mss s) 4380) (4 * eff_mss s)
    | RFC2581 => 2 * eff_mss s | RFC2001 => eff_mss s end else Z.max (eff_mss s) (initial_cwnd conf)) (warned s)) tt).
  - rewrite bind_modify, bind_get. cbn [env set_cwnd cwnd warned]. assert (env (warned s) = env s) as -> by (unfold warned; by destruct (_ && _)).
    rewrite assert_yes by (by apply Z.leb_le). rewrite shift_wscl by (unfold CI_TCP_WSCL_MAX in Hw; lia). unfold modify, first_cwnd. by rewrite max_ok.
  - unfold warned. destruct (initial_cwnd conf =? 0); cbn [negb andb].
    + destruct (initial_cwnd_rfc conf); rewrite !(bind_Ok _ _ _ _ _ (eff_mss_ok s H)); rewrite ?Hs by lia.
      * rewrite bind_modify. unfold modify. rewrite max_ok, min_ok. done.
      * done.
      * done.
    + rewrite (bind_Ok _ _ _ _ _ (eff_mss_ok s H)). destruct (initial_cwnd conf <? eff_mss s).
      * rewrite (bind_Ok _ _ s (ci_log (initial_cwnd conf, eff_mss s) s) tt) by (by rewrite (bind_Ok _ _ _ _ _ (eff_mss_ok s H))).
        assert (sane f (ci_log (initial_cwnd conf, eff_mss s) s)) as H' by (by apply (sane_ext s)). rewrite (bind_Ok _ _ _ _ _ (eff_mss_ok _ H')). unfold modify. by rewrite max_ok.
      * rewrite bind_ret_l, (bind_Ok _ _ _ _ _ (eff_mss_ok s H)). unfold modify. by rewrite max_ok.
Qed.

Lemma first_cwnd_range m : in_u 16 m -> m <= first_cwnd m /\ in_u 32 (first_cwnd m).
Proof.
  intros [Hm0 Hm1]. destruct Hconf as ((Hi0 & Hi1) & (Hc0 & Hc1) & _). unfold first_cwnd, in_u.
  destruct (initial_cwnd conf =? 0); [destruct (initial_cwnd_rfc conf)|]; simpl in *; lia.
Qed.

(** The effective segment size that the path and the peer allow. *)
Definition new_mss (s : tcp_state) : Z :=
  Z.max (Z.min (u32 (path_mtu (env s) - sizeof_tcp_hdr - CI_IPX_HDR_SIZE f)) (smss (env s))) CI_CFG_TCP_MINIMUM_MSS - tcp_ipx_outgoing_opts_len f s.

Lemma new_mss_range s : sane f s -> typed s -> in_u 16 (new_mss s) /\ CI_CFG_TCP_MINIMUM_MSS - tcp_outgoing_opts_len s <= new_mss s.
Proof.
  intros H Ht. destruct (opts_len f s H) as (_ & _ & Ho & Hlt). destruct (te_mss _ (ty_env _ Ht)) as (_ & (Hs0 & Hs1) & _). unfold new_mss, in_u, CI_CFG_TCP_MINIMUM_MSS in *.
  pose proof (wrap_range 32 (path_mtu (env s) - sizeof_tcp_hdr - CI_IPX_HDR_SIZE f) ltac:(lia)). simpl in *. lia.
Qed.

(** The same typed state but for the fields that bound the congestion window. *)
Lemma typed_mss s n t : typed s -> in_u 16 n -> in_u 32 t -> typed (set_ssthresh t (set_eff_mss n s)).
Proof. intros [] Hn Ht. split; simpl; tauto. Qed.

Lemma typed_cwnd s n t : typed s -> in_u 32 n -> in_u 32 t -> typed (set_ssthresh t (set_cwnd n (warned s))).
Proof. intros [] Hn Ht. unfold warned. destruct (_ && _); split; simpl; tauto. Qed.

Lemma ssthresh_typed s : sane f s -> typed s -> in_u 32 (65535 * 2 ^ snd_wscl (env s)).
Proof.
  intros H Ht. destruct (te_snd _ (ty_env _ Ht)) as (_ & _ & (Hw0 & _) & _). pose proof (proj1 (sn_wscl _ _ H)) as Hw. unfold CI_TCP_WSCL_MAX in Hw.
  assert (2 ^ snd_wscl (env s) <= 2 ^ 14) by (apply Z.pow_le_mono_r; lia). assert (0 < 2 ^ snd_wscl (env s)) by (apply Z.pow_pos_nonneg; lia). unfold in_u. simpl in *. lia.
Qed.

Lemma set_initialcwnd_typed s : sane f s -> typed s -> exists s', ci_tcp_set_initialcwnd conf s = (s', Ok tt) /\ env s' = env s /\ sane f s' /\ typed s' /\
  eff_mss s' = eff_mss s /\ cwnd s' = first_cwnd (eff_mss s) /\ eff_mss s <= cwnd s' /\ ssthresh s' = 65535 * 2 ^ snd_wscl (env s).
Proof.
  intros H Ht. rewrite (initialcwnd_ok s H Ht). eexists. split; [done|]. destruct (first_cwnd_range _ (proj1 (ty_mss _ Ht))) as [Hle Hc].
  assert (env (warned s) = env s /\ eff_mss (warned s) = eff_mss s /\ rcvbuf (warned s) = rcvbuf s) as (E1 & E2 & E3) by (unfold warned; by destruct (_ && _)).
  split; [done|]. split; [by apply (sane_ext s)|]. split; [apply typed_cwnd; [done|done|by apply ssthresh_typed]|]. done.
Qed.

Lemma set_eff_mss_typed s : sane f s -> typed s -> exists s', ci_tcp_set_eff_mss conf f set_sndbuf s = (s', Ok tt) /\ env s' = env s /\ sane f s' /\ typed s' /\
  eff_mss s' = new_mss s /\ eff_mss s' <= cwnd s' /\ (new_mss s <= cwnd s -> cwnd s' = cwnd s /\ ssthresh s' = Z.max (ssthresh s) (2 * new_mss s)) /\
  (cwnd s < new_mss s -> cwnd s' = first_cwnd (new_mss s)).
Proof.
  intros H Ht. destruct (new_mss_range s H Ht) as [Hn Hmin]. destruct (opts_len f s H) as (_ & _ & Ho & Hlt).
  unfold ci_tcp_set_eff_mss. rewrite bind_get. rewrite assert_yes by (apply negb_true_iff, Z.eqb_neq, (sn_state _ _ H)).
  rewrite (bind_Ok _ _ _ _ _ (get_pmtu_ok s H)), !bind_modify, bind_get, min_ok, !max_ok. fold (new_mss s).
  rewrite (wrap_small 16) by exact Hn. set (N := new_mss s) in *. cbn [eff_mss set_eff_mss cwnd set_ssthresh ssthresh].
  assert (u32 (Z.shiftl N 1) = 2 * N) as -> by (rewrite Z.shiftl_mul_pow2 by lia; destruct Hn; rewrite wrap_small; simpl in *; lia).
  set (s1 := set_ssthresh (Z.max (ssthresh s) (2 * N)) (set_eff_mss N s)).
  assert (typed s1) as Ht1 by (apply typed_mss; [done|done|]; destruct (ty_mss _ Ht) as (_ & _ & []); destruct Hn; unfold in_u in *; simpl in *; lia).
  assert (sane f s1) as H1 by (destruct H; by split).
  assert (forall s2 n, typed s2 -> in_i32 n -> typed (set_so_sndbuf_pkts n s2)) as Hty by (intros s2 n [] Hi; split; simpl; tauto).
  destruct (Z.ltb_spec (cwnd s) N) as [Hc|Hc].
  - destruct (set_initialcwnd_typed s1 H1 Ht1) as (s2 & E & Ee & H2 & Ht2 & Em & Ec & Hle & _). rewrite (bind_Ok _ _ _ _ _ E).
    exists (set_so_sndbuf_pkts (set_sndbuf s2) s2). split; [done|]. cbn [env set_so_sndbuf_pkts eff_mss cwnd]. split; [done|]. split; [by apply (sane_ext s2)|].
    split; [apply Hty; [done|apply Hsnd]|]. split; [done|]. split; [by rewrite Em|]. split; [lia|]. intros _. exact Ec.
  - exists (set_so_sndbuf_pkts (set_sndbuf s1) s1). split; [done|]. cbn [env set_so_sndbuf_pkts eff_mss cwnd]. split; [done|]. split; [by apply (sane_ext s1)|].
    split; [apply Hty; [done|apply Hsnd]|]. split; [done|]. split; [exact Hc|]. split; [done|lia].
Qed.

(** The window for a buffer of [b] bytes: whole segments, up to what the header can say. *)
Definition window_of (b m wscl : Z) : Z := Z.min (m * ((Z.max b m + m - 1) / m)) (65535 * 2 ^ wscl).

Lemma shift_max v : 0 <= v <= 14 -> u32 (Z.shiftl CI_CFG_TCP_MAX_WINDOW v) = 65535 * 2 ^ v /\ 65535 <= 65535 * 2 ^ v < 2 ^ 30.
Proof.
  intros Hv. rewrite Z.shiftl_mul_pow2 by lia. assert (2 ^ v <= 2 ^ 14) by (apply Z.pow_le_mono_r; lia). assert (0 < 2 ^ v) by (apply Z.pow_pos_nonneg; lia).
  unfold CI_CFG_TCP_MAX_WINDOW. rewrite wrap_small by (simpl in *; lia). simpl in *. lia.
Qed.

Lemma round_up b m : 1 <= m -> 0 <= b -> (if negb (b mod m =? 0) then b + (m - b mod m) else b) = m * ((b + m - 1) / m).
Proof.
  intros Hm Hb. pose proof (Z.div_mod b m ltac:(lia)) as E. pose proof (Z.mod_pos_bound b m ltac:(lia)). destruct (Z.eqb_spec (b mod m) 0) as [E0|E0]; cbn [negb].
  - assert ((b + m - 1) / m = b / m) as -> by (symmetry; apply (Z.div_unique_pos _ _ _ (m - 1)); lia). lia.
  - assert ((b + m - 1) / m = b / m + 1) as -> by (symmetry; apply (Z.div_unique_pos _ _ _ (b mod m - 1)); lia). lia.
Qed.

Lemma rcvbuf2window_ok b m v s : 0 <= b < 2 ^ 31 -> 1 <= m < 2 ^ 16 -> 0 <= v <= 14 -> ci_tcp_rcvbuf2window b m v s = (s, Ok (window_of b m v)).
Proof.
  intros Hb Hm Hv. unfold ci_tcp_rcvbuf2window. rewrite assert_yes by (apply negb_true_iff, Z.eqb_neq; lia). unfold ret. destruct (shift_max v Hv) as [-> _].
  rewrite max_ok, min_ok. unfold window_of. rewrite <- round_up by lia. do 3 f_equal. destruct (Z.max b m mod m =? 0) eqn:E; cbn [negb]; [done|].
  pose proof (Z.mod_pos_bound (Z.max b m) m ltac:(lia)). rewrite (wrap_small 32 (m - _)) by lia. apply wrap_small. lia.
Qed.

Lemma window_range b m v : 0 <= b < 2 ^ 31 -> 1 <= m < 2 ^ 16 -> 0 <= v <= 14 -> 1 <= window_of b m v < 2 ^ 30.
Proof.
  intros Hb Hm Hv. unfold window_of. rewrite <- round_up by lia. destruct (shift_max v Hv) as [_ Hs]. pose proof (Z.mod_pos_bound (Z.max b m) m ltac:(lia)).
  destruct (negb _); simpl in *; lia.
Qed.

(** A receive buffer is raised to the window. *)
Lemma set_rcvbuf_typed s : sane f s -> typed s -> exists s', ci_tcp_set_rcvbuf s = (s', Ok tt) /\ env s' = env s /\ sane f s' /\ typed s' /\
  rcv_window_max s' = window_of (rcvbuf s) (amss (env s)) (rcv_wscl (env s)) /\ rcvbuf s' = Z.max (rcvbuf s) (rcv_window_max s').
Proof.
  intros H Ht. pose proof (sn_amss _ _ H) as Ha. destruct (te_mss _ (ty_env _ Ht)) as ((_ & Ha1) & _). destruct (te_snd _ (ty_env _ Ht)) as (_ & _ & _ & (Hw0 & _)).
  destruct (ty_wnd _ Ht) as ((_ & Hb1) & _). pose proof (sn_rcvbuf _ _ H) as Hb0. pose proof (proj2 (sn_wscl _ _ H)) as Hw. unfold CI_TCP_WSCL_MAX in Hw.
  unfold ci_tcp_set_rcvbuf. rewrite bind_get, (wrap_small 32 (rcvbuf s)) by (simpl in *; lia). rewrite (bind_Ok _ _ _ _ _ (rcvbuf2window_ok (rcvbuf s) (amss (env s)) (rcv_wscl (env s)) s ltac:(lia) ltac:(lia) ltac:(lia))).
  rewrite bind_modify, bind_get. cbn [rcvbuf rcv_window_max set_rcv_window_max]. rewrite (wrap_small 32 (rcvbuf s)) by (simpl in *; lia).
  pose proof (window_range (rcvbuf s) (amss (env s)) (rcv_wscl (env s)) ltac:(lia) ltac:(lia) ltac:(lia)) as Hr. set (W := window_of _ _ _) in *.
  assert (typed (set_rcv_window_max W s)) as Ht1 by (destruct Ht; split; simpl; unfold in_u in *; simpl in *; intuition lia).
  destruct (Z.ltb_spec (rcvbuf s) W) as [Hlt|Hge].
  - rewrite swrap_small by (simpl in *; lia). exists (set_rcvbuf W (set_rcv_window_max W s)). split; [done|]. split; [done|].
    split; [destruct H; split; simpl in *; try done; lia|]. split; [destruct Ht1; split; simpl in *; unfold in_i32 in *; intuition lia|]. split; [done|]. simpl. lia.
  - exists (set_rcv_window_max W s). split; [done|]. split; [done|]. split; [by apply (sane_ext s)|]. split; [done|]. split; [done|]. simpl. lia.
Qed.

End Exact.

(** ** Space over the life of a connection *)

(** What happened so far, as unbounded numbers: the positions in the stream sent (acknowledged,
    sent, enqueued), the bytes received in order and read, the packets enqueued under the lock and without
    it and taken off the send queue, the packets with a time stamp queued and delivered. *)
Record history := History {
  h_una : Z; h_nxt : Z; h_enq : Z; h_added : Z; h_delivered : Z; h_pre : Z; h_in : Z; h_out : Z; h_stamped : Z; h_read : Z }.

Definition inflight (h : history) : Z := h_nxt h - h_una h.
Definition enqueued (h : history) : Z := h_enq h - h_nxt h.
Definition unread (h : history) : Z := h_added h - h_delivered h.
(** The counters are read one after the other, so the difference may be negative. *)
Definition queued (h : history) : Z := Z.max 0 (h_pre h + h_in h - h_out h).
Definition used (h : history) (s : tcp_state) : Z := queued h + (h_stamped h - h_read h) + retrans_num (env s).

(** The fields hold the numbers of the history modulo [2^32]. *)
Record tracks (h : history) (s : tcp_state) : Prop := {
  tr_seq : snd_una (env s) = u32 (h_una h) /\ snd_nxt (env s) = u32 (h_nxt h) /\ enq_nxt s = u32 (h_enq h);
  tr_sent : h_una h <= h_nxt h <= h_enq h /\ h_enq h < h_una h + 2 ^ 31;
  tr_rcv : rcv_added (env s) = u32 (h_added h) /\ rcv_delivered (env s) = u32 (h_delivered h) /\ 0 <= unread h < 2 ^ 31;
  tr_q : send_prequeue_in (env s) = i32 (h_pre h) /\ send_in (env s) = u32 (h_in h) /\ send_out (env s) = u32 (h_out h) /\
    in_i32 (h_pre h + h_in h - h_out h);
  tr_ts : pkts_added (timestamp_q (env s)) = u32 (h_stamped h) /\ pkts_delivered (timestamp_q (env s)) = u32 (h_read h) /\ 0 <= h_stamped h - h_read h < 2 ^ 31;
  tr_int : 0 <= retrans_num (env s) < 2 ^ 31 /\ in_i32 (so_sndbuf_pkts s) /\ in_i32 (sndbuf (env s)) /\ in_i32 (rcvlowat (env s)) /\ in_i32 (rcvbuf s) }.

Section Space.
Context (h : history) (s : tcp_state).
Context (Ht : tracks h s).

Lemma int_value_in {B} z (k : Z -> cm tcp_state B) s0 : in_i32 z -> bind (int_value z) k s0 = k z s0.
Proof. intros [H0 H1]. unfold int_value. by rewrite (proj2 (Z.leb_le _ _) H0), (proj2 (Z.ltb_lt _ _) H1). Qed.

Lemma int_value_out {B} z (k : Z -> cm tcp_state B) s0 : ~ in_i32 z -> bind (int_value z) k s0 = (s0, Undef).
Proof. intros H. unfold int_value. unfold in_i32 in H. destruct (Z.leb_spec (- 2 ^ 31) z), (Z.ltb_spec z (2 ^ 31)); simpl; try done. lia. Qed.

Lemma i32_of_u32 a z : in_i32 z -> u32 a = u32 z -> i32 a = z.
Proof.
  intros Hz E. assert (i32 (u32 z - u32 0) = z) as H by (rewrite seq_sub_close; unfold in_i32 in Hz; lia).
  unfold swrap in *. rewrite wrap_sub_l, wrap_sub_r, Z.sub_0_r in H. by rewrite E.
Qed.

Lemma inflight_ok : ci_tcp_inflight s = (s, Ok (inflight h)) /\ 0 <= inflight h < 2 ^ 31.
Proof.
  destruct (tr_seq _ _ Ht) as (E1 & E2 & _), (tr_sent _ _ Ht) as [Ho Hr]. unfold ci_tcp_inflight. rewrite bind_get, E1, E2. unfold SEQ_SUB, inflight.
  rewrite seq_sub_close by lia. rewrite wrap_small by lia. split; [done|lia].
Qed.

Lemma sendq_ok : ci_tcp_sendq_n_pkts s = (s, Ok (queued h)) /\ 0 <= queued h < 2 ^ 31.
Proof.
  destruct (tr_q _ _ Ht) as (E1 & E2 & E3 & Hi). unfold ci_tcp_sendq_n_pkts, queued. rewrite bind_get, E1, E2, E3.
  rewrite (i32_of_u32 _ (h_pre h + h_in h - h_out h)) by
    (try done; rewrite wrap_sub_r, <- wrap_sub_l, wrap_add_r, <- (wrap_add_l 32 (i32 _)), wrap_swrap, wrap_add_l, wrap_sub_l by lia; done).
  unfold in_i32 in Hi. split; [|lia]. unfold ret. do 2 f_equal. destruct (Z.leb_spec 0 (h_pre h + h_in h - h_out h)); lia.
Qed.

Lemma stamps_ok : ci_udp_recv_q_pkts (timestamp_q (env s)) = h_stamped h - h_read h.
Proof. destruct (tr_ts _ _ Ht) as (E1 & E2 & Hr). unfold ci_udp_recv_q_pkts. rewrite E1, E2. apply seq_sub_close. lia. Qed.

Lemma unread_ok : tcp_rcv_usr s = unread h.
Proof. destruct (tr_rcv _ _ Ht) as (E1 & E2 & Hr). unfold tcp_rcv_usr. rewrite E1, E2, wrap_sub_l, wrap_sub_r. apply wrap_small. unfold unread in *. lia. Qed.

(** The half of a number is less than what is left over when the number is below two thirds. *)
Lemma two_thirds n limit : (Z.shiftr n 1 <? limit - n) = (3 * n <? 2 * limit).
Proof.
  rewrite Z.shiftr_div_pow2 by lia. change (2 ^ 1) with 2. pose proof (Z.div_mod n 2 ltac:(lia)). pose proof (Z.mod_pos_bound n 2 ltac:(lia)).
  destruct (Z.ltb_spec (n / 2) (limit - n)), (Z.ltb_spec (3 * n) (2 * limit)); lia.
Qed.

(** The three packet counts, added as [int]s. *)
Lemma used_sum {B} (k : Z -> cm tcp_state B) :
  (let! n := int_value (queued h + ci_udp_recv_q_pkts (timestamp_q (env s))) in let! n := int_value (n + retrans_num (env s)) in k n) s
  = if used h s <? 2 ^ 31 then k (used h s) s else (s, Undef).
Proof.
  destruct sendq_ok as [_ Hq]. destruct (tr_ts _ _ Ht) as (_ & _ & Hs), (tr_int _ _ Ht) as (Hn & _). rewrite stamps_ok. unfold used.
  destruct (decide (queued h + (h_stamped h - h_read h) < 2 ^ 31)) as [H1|H1]; [rewrite int_value_in by (unfold in_i32; lia)|rewrite int_value_out by (unfold in_i32; lia)].
  - destruct (Z.ltb_spec (queued h + (h_stamped h - h_read h) + retrans_num (env s)) (2 ^ 31)); [by rewrite int_value_in by (unfold in_i32; lia)|by rewrite int_value_out by (unfold in_i32; lia)].
  - by rewrite (proj2 (Z.ltb_ge _ _)) by lia.
Qed.

Lemma used_nonneg : 0 <= used h s.
Proof. destruct sendq_ok as [_ Hq]. destruct (tr_ts _ _ Ht) as (_ & _ & Hs), (tr_int _ _ Ht) as (Hn & _). unfold used. lia. Qed.

(** What a count leaves of its limit. *)
Lemma left_of {B} n limit (k : Z -> cm tcp_state B) : 0 <= n -> in_i32 limit ->
  bind (int_value (limit - n)) k s = if n - 2 ^ 31 <=? limit then k (limit - n) s else (s, Undef).
Proof.
  intros Hn Hl. unfold in_i32 in Hl. destruct (Z.leb_spec (n - 2 ^ 31) limit); [by rewrite int_value_in by (unfold in_i32; lia)|by rewrite int_value_out by (unfold in_i32; lia)].
Qed.

Lemma int_value_ret z : int_value z s = (let! v := int_value z in ret v) s.
Proof. unfold bind, int_value. by destruct (_ && _). Qed.

Lemma resend_fin_ok add_fin s1 rc : add_fin (set_enq_nxt (u32 (h_enq h - 1)) s) = (s1, rc) ->
  ci_tcp_resend_fin add_fin s =
    if rc =? 0 then (set_tcpflags (Z.ldiff (tcpflags s1) CI_TCPT_FLAG_FIN_PENDING) s1, Ok 1) else (set_enq_nxt (u32 (enq_nxt s1 + 1)) s1, Ok 0).
Proof.
  intros E. destruct (tr_seq _ _ Ht) as (_ & _ & E3). unfold ci_tcp_resend_fin. rewrite bind_modify, bind_get, E3, wrap_sub_l, E, bind_modify.
  by destruct (rc =? 0); rewrite bind_modify.
Qed.
End Space.


(** C33: windows and segment sizes.  For a sound connection: [ci_tcp_set_rcvbuf] sets the
    largest receive window to the buffer rounded up to whole segments, or to what the
    scaled window field can say, and the buffer is afterwards at least as large;
    [ci_tcp_calc_rcv_wnd_syn] gives that window cut at 16 bits.  [ci_tcp_set_eff_mss] gives
    the largest segments that path and peer allow, so that a segment with its headers fits
    the path unless the minimum applies, and keeps the congestion window at one segment or more;
    [ci_tcp_set_initialcwnd] starts it with the value of the configured RFC or option.
    [ci_tcp_rto_bound] brings the timeout between its bounds, and a window field is
    scaled except in segments with [SYN]. *)
Theorem tcp_windows_exact conf f set_sndbuf s : typed_conf conf -> (forall s, in_i32 (set_sndbuf s)) -> sane f s -> typed s -> tconst_rto_min conf <= tconst_rto_max conf ->
  (exists s', ci_tcp_set_rcvbuf s = (s', Ok tt) /\ rcvbuf s' = Z.max (rcvbuf s) (rcv_window_max s') /\
     rcv_window_max s' = window_of (rcvbuf s) (amss (env s)) (rcv_wscl (env s)) /\
     ((amss (env s) | rcv_window_max s') /\ rcvbuf s <= rcv_window_max s' < Z.max (rcvbuf s) (amss (env s)) + amss (env s) \/ rcv_window_max s' = 65535 * 2 ^ rcv_wscl (env s)) /\
     ci_tcp_calc_rcv_wnd_syn (rcvbuf s) (amss (env s)) (rcv_wscl (env s)) s = (s, Ok (Z.min (rcv_window_max s') 65535))) /\
  (exists s', ci_tcp_set_eff_mss conf f set_sndbuf s = (s', Ok tt) /\ eff_mss s' = new_mss f s /\ eff_mss s' <= cwnd s' /\
     (CI_IPX_HDR_SIZE f + sizeof_tcp_hdr + CI_CFG_TCP_MINIMUM_MSS <= path_mtu (env s) -> CI_CFG_TCP_MINIMUM_MSS <= smss (env s) ->
        eff_mss s' + outgoing_hdrs_len (env s) = Z.min (path_mtu (env s)) (smss (env s) + CI_IPX_HDR_SIZE f + sizeof_tcp_hdr))) /\
  (exists s', ci_tcp_set_initialcwnd conf s = (s', Ok tt) /\ cwnd s' = first_cwnd conf (eff_mss s) /\ eff_mss s <= cwnd s' /\ ssthresh s' = 65535 * 2 ^ snd_wscl (env s)) /\
  (exists s', ci_tcp_rto_bound conf s = (s', Ok tt) /\ tconst_rto_min conf <= rto s' <= tconst_rto_max conf /\ (tconst_rto_min conf <= rto s <= tconst_rto_max conf -> rto s' = rto s)) /\
  (forall w flags wscl, 0 <= w < 2 ^ 16 -> 0 <= wscl <= CI_TCP_WSCL_MAX ->
     ci_tcp_wnd_from_hdr (CI_BSWAP_BE16 w) flags wscl = if bits_of flags CI_TCP_FLAG_SYN then w else w * 2 ^ wscl).
Proof.
  intros Hc Hsnd H Ht Hrto. split; [|split; [|split; [|split]]].
  - destruct (set_rcvbuf_typed f s H Ht) as (s' & E & Ee & _ & _ & EW & Eb). exists s'. do 3 (split; [done|]).
    pose proof (sn_amss _ _ H) as Ha. pose proof (sn_rcvbuf _ _ H) as Hb0. destruct (te_mss _ (ty_env _ Ht)) as ((_ & Ha1) & _). destruct (ty_wnd _ Ht) as ((_ & Hb1) & _).
    destruct (te_snd _ (ty_env _ Ht)) as (_ & _ & _ & (Hw0 & _)). pose proof (proj2 (sn_wscl _ _ H)) as Hw. unfold CI_TCP_WSCL_MAX in Hw. split.
    + rewrite EW. unfold window_of. rewrite <- round_up by lia. set (b := Z.max (rcvbuf s) (amss (env s))). pose proof (Z.mod_pos_bound b (amss (env s)) ltac:(lia)).
      destruct (Z.min_spec (if negb (b mod amss (env s) =? 0) then b + (amss (env s) - b mod amss (env s)) else b) (65535 * 2 ^ rcv_wscl (env s))) as [[_ ->]|[_ ->]]; [left|by right].
      split; [rewrite round_up by lia; by exists ((b + amss (env s) - 1) / amss (env s)); ring|]. destruct (Z.eqb_spec (b mod amss (env s)) 0); cbn [negb]; lia.
    + unfold ci_tcp_calc_rcv_wnd_syn. rewrite (bind_Ok _ _ _ _ _ (rcvbuf2window_ok _ _ _ s ltac:(split; [exact Hb0|exact Hb1]) ltac:(split; [exact Ha|exact Ha1]) ltac:(split; [exact Hw0|exact Hw]))).
      rewrite EW, min_ok. unfold ret. pose proof (window_range (rcvbuf s) (amss (env s)) (rcv_wscl (env s)) ltac:(lia) ltac:(lia) ltac:(lia)). rewrite wrap_small by lia. done.
  - destruct (set_eff_mss_typed conf f set_sndbuf Hc Hsnd s H Ht) as (s' & E & _ & _ & _ & Em & Hle & _). exists s'. do 3 (split; [done|]). intros Hp Hs.
    rewrite Em. unfold new_mss. destruct (opts_len f s H) as (_ & Eo & _). rewrite Eo. destruct (te_mss _ (ty_env _ Ht)) as (_ & _ & (_ & Hm) & _ & Hpm).
    assert (path_mtu (env s) < 2 ^ 16) by (unfold path_mtu; destruct (pmtus (env s)) as [p|]; [destruct (Hpm p eq_refl)|]; lia).
    destruct (hdr_size f) as [Eh|Eh]; rewrite Eh in *; change sizeof_tcp_hdr with 20 in *; unfold CI_CFG_TCP_MINIMUM_MSS in *; rewrite wrap_small by lia; lia.
  - destruct (set_initialcwnd_typed conf f Hc s H Ht) as (s' & E & _ & _ & _ & _ & Ec & Hle & Es). by exists s'.
  - unfold ci_tcp_rto_bound. rewrite bind_modify. unfold modify. eexists. split; [done|]. simpl. rewrite max_ok, min_ok. lia.
  - intros w fl v Hw Hv. unfold ci_tcp_wnd_from_hdr. rewrite <- (wrap_small 16 (CI_BSWAP_BE16 w)) by (by apply bswap16_range). rewrite bswap16_invol by (simpl in Hw; lia). destruct (bits_of fl CI_TCP_FLAG_SYN); [done|]. unfold CI_TCP_WSCL_MAX in Hv.
    rewrite Z.shiftl_mul_pow2 by lia. apply wrap_small. assert (2 ^ v <= 2 ^ 14) by (apply Z.pow_le_mono_r; lia). assert (0 < 2 ^ v) by (apply Z.pow_pos_nonneg; lia). simpl in *. nia.
Qed.

(** ** A connection *)

Definition empty_q : recv_q := RecvQ OO_PP_NULL OO_PP_NULL 0 0 OO_PP_NULL 0 (fun _ => OO_PP_NULL) (fun _ => 0) false false [].

(** Established, with timestamps (12 bytes of options), over a path of 1400 bytes. *)
Definition env1 : tcp_env :=
  TcpEnv 0x3331 0 0 true 65535 CI_TCP_CONG_OPEN 1000 (2 ^ 32 - 500) 7 7 1448 1460 52 32 0 87380 1 5000 4000 10 8 1 1 empty_q 80 1500 (Some 1400).
Definition tcp1 : tcp_state := TcpState env1 0 536 0 1072 65535 87380 0 3000 64 2000 999 0 100000 [].
Definition conf1 : tcp_conf := TcpConf 0 0 false true 128 1000 200 120000 RFC2581.

Lemma conf1_typed : typed_conf conf1.
Proof. unfold typed_conf, in_u. simpl. lia. Qed.

Lemma tcp1_sound : sane AF_INET tcp1 /\ typed tcp1.
Proof.
  split.
  - split; [discriminate|vm_compute; split; discriminate|vm_compute; discriminate|vm_compute; split; discriminate|vm_compute; discriminate|vm_compute; discriminate].
  - assert (typed_env env1) as He.
    { split; cbn [env1 snd_nxt snd_una snd_wscl rcv_wscl amss smss mtu outgoing_hdrs_len pmtus incoming_tcp_hdr_len burst_window sndbuf rcvlowat rcv_added rcv_delivered send_in send_out
        send_prequeue_in retrans_num sa]; unfold in_u, in_i32; try lia. do 4 (split; [lia|]). intros p [= <-]. lia. }
    split; [exact He|..]; cbn [tcp1 eff_mss cwnd ssthresh rcvbuf rcv_window_max faststart_acks so_sndbuf_pkts tcpflags fast_path_check enq_nxt timed_seq timed_ts rto]; unfold in_u, in_i32; lia.
Qed.

(** The number of packets follows the buffer; here it stays. *)
Definition keep_sndbuf (s : tcp_state) : Z := 64.

(** The history of the connection: 1500 bytes in flight across the wrap-around of sequence
    numbers, 1000 more enqueued, three packets on the send queue and one on the retransmit queue. *)
Definition hist1 : history := History (2 ^ 32 - 500) (2 ^ 32 + 1000) (2 ^ 32 + 2000) 5000 4000 1 10 8 0 0.


Lemma tcp_windows_exact_witness : exists s', ci_tcp_set_rcvbuf tcp1 = (s', Ok tt) /\ rcv_window_max s' = window_of 87380 1448 7 /\ rcv_window_max s' = 88328 /\
  ci_tcp_calc_rcv_wnd_syn 87380 1448 7 tcp1 = (tcp1, Ok 65535).
Proof.
  destruct tcp1_sound as [Hs Ht]. destruct (tcp_windows_exact conf1 AF_INET keep_sndbuf tcp1) as ((s' & E & _ & EW & _ & Esyn) & _);
    [exact conf1_typed|intros s; unfold in_i32, keep_sndbuf; lia|exact Hs|exact Ht|simpl; lia|].
  exists s'. split; [exact E|]. assert (window_of 87380 1448 7 = 88328) as Ew by (vm_compute; reflexivity). split; [exact EW|].
  change (rcv_window_max s' = window_of 87380 1448 7) in EW. rewrite EW, Ew. split; [reflexivity|]. rewrite EW, Ew in Esyn. exact Esyn.
Defined.

(** A segment of 32 header bytes with [ACK] and [PSH]. *)
Definition hdr1 : list byte := zeros 12 ++ [x80; x18; x01; xf6] ++ zeros 4.

Lemma fast_path_exact_witness : exists w s', CI_TCP_FAST_PATH_WORD hdr1 = Some w /\ ci_tcp_fast_path_enable tcp1 = (s', Ok tt) /\
  Z.land w CI_TCP_FAST_PATH_MASK = fast_path_check s'.
Proof.
  destruct (fast_path_exact tcp1 hdr1 x80 x18 x01 xf6) as (w & len & flags & Hw & Hl & Hf & H); [reflexivity|simpl; lia|reflexivity|].
  change (ci_tcp_can_use_fast_path tcp1) with true in H. destruct H as (s' & E & Hiff). exists w, s'. split; [exact Hw|]. split; [exact E|]. apply Hiff.
  vm_compute in Hl. vm_compute in Hf. injection Hl as <-. injection Hf as <-. split; reflexivity.
Defined.
