(* ===== verification/IpTime.v ===== *)
(** * IpTime: the clock of a stack and its units ([ci/internal/ip.h])

    Time is read from the processor's cycle counter and kept in ticks, which are the
    counter shifted right; other shifts give microseconds and the clock of initial sequence
    numbers.  Conversions to milliseconds use a fixed-point factor, and conversions between
    cycles and microseconds the processor's frequency. *)

From Stdlib Require Import ZArith Lia Bool.
From stdpp Require Import base list.
From S2P Require Import Prelude Utils IpAddr Hash TcpSeq.

(** The scalar fields of [ci_ip_timer_state]; the lists of timers are in [IpTimer]. *)
Record its := Its {
  sched_ticks : Z; ci_ip_time_real_ticks : Z; closest_timer : Z; frc : Z; ci_ip_time_frc2tick : Z; ci_ip_time_frc2us : Z; ci_ip_time_frc2isn : Z;
  khz : Z; ci_ip_time_ms2tick_fxp : Z; busy_mask : list Z }.

Definition CI_IP_TIME_MAX_FRCSHIFT : Z := 31.

Definition set_time (ticks f : Z) (s : its) : its :=
  Its (sched_ticks s) ticks (closest_timer s) f (ci_ip_time_frc2tick s) (ci_ip_time_frc2us s) (ci_ip_time_frc2isn s) (khz s) (ci_ip_time_ms2tick_fxp s) (busy_mask s).

(** ** The clock

    [now] is what [ci_frc64] reads from the counter. *)

Definition ci_ip_time_now (s : its) : Z := ci_ip_time_real_ticks s.

Definition ci_ip_time_initial_sync (now : Z) (s : its) : its := set_time (u32 (Z.shiftr now (ci_ip_time_frc2tick s))) now s.

Definition ci_ip_time_update (s : its) (new_frc : Z) : its :=
  if frc s <=? new_frc then
    let new_ticks := u32 (Z.shiftr new_frc (ci_ip_time_frc2tick s)) in
    set_time new_ticks new_frc s
  else s.

Definition ci_ip_time_resync (now : Z) (s : its) : its := ci_ip_time_update s now.
Definition ci_ip_time_get (now : Z) (s : its) : Z := u32 (Z.shiftr now (ci_ip_time_frc2tick s)).
Definition ci_ip_time_get_us (now : Z) (s : its) : Z := u32 (Z.shiftr now (ci_ip_time_frc2us s)).

(** ** Units *)

(** A division by zero is undefined. *)
Definition quotient (a b : Z) : option Z := if b =? 0 then None else Some (a / b).

Definition ci_ip_time_ms2ticks (s : its) (t : Z) : Z :=
  let t := u32 (Z.shiftr (u64 (t * ci_ip_time_ms2tick_fxp s)) 32) in
  if negb (t =? 0) then t else 1.

Definition ci_ip_time_ticks2ms (s : its) (t : Z) : option Z := u32 <$> quotient (u64 (Z.shiftl t 32)) (ci_ip_time_ms2tick_fxp s).

Definition ci_ip_time_freq_hz2tick (s : its) (hz : Z) : option Z := u32 <$> quotient (u64 (Z.shiftl hz 22)) (ci_ip_time_ms2tick_fxp s).

(** The build for user space. *)
Definition oo_cycles64_to_usec (s : its) (cycles : Z) : option Z :=
  if Z.shiftr (u64 (-1)) 10 <? cycles then Some (u32 (-1))
  else if cycles =? 0 then Some 0
  else
    let c := u64 (cycles * 1000) in
    val ← u32 <$> quotient c (khz s);
    Some (if val =? 0 then 1 else val).

Definition __oo_usec_to_cycles64 (khz usec : Z) : Z :=
  if usec =? u32 (-1) then u64 (-1)
  else if usec =? 0 then 0
  else
    let val := u64 (usec * khz) in
    let val := val / 1000 in
    if val =? 0 then 1 else val.
Definition oo_usec_to_cycles64 (s : its) (usec : Z) : Z := __oo_usec_to_cycles64 (khz s) usec.

(** ** Initial sequence numbers *)

Definition ci_tcp_isn2tick (s : its) (isn : Z) : Z :=
  let ticks := u64 (Z.shiftl isn (ci_ip_time_frc2isn s)) in
  let ticks := Z.shiftr ticks (ci_ip_time_frc2tick s) in
  u32 ticks.

Definition ci_tcp_future_isn (now : Z) (s : its) (laddr : ci_addr_t) (lport_be : Z) (raddr : ci_addr_t) (rport_be future_delta_ticks : Z) : Z :=
  let hash := onload_hash3 laddr lport_be raddr rport_be IPPROTO_TCP in
  let f := u64 (now + u64 (Z.shiftl future_delta_ticks (ci_ip_time_frc2tick s))) in
  u32 (hash + Z.shiftr f (ci_ip_time_frc2isn s)).

Definition ci_tcp_initial_seqno (now : Z) (s : its) (laddr : ci_addr_t) (lport_be : Z) (raddr : ci_addr_t) (rport_be : Z) : Z :=
  ci_tcp_future_isn now s laddr lport_be raddr rport_be 0.

(** ** The clock never goes back *)

Lemma updates_max (fs : list Z) s : ci_ip_time_real_ticks s = u32 (Z.shiftr (frc s) (ci_ip_time_frc2tick s)) ->
  fold_left ci_ip_time_update fs s = set_time (u32 (Z.shiftr (fold_left Z.max fs (frc s)) (ci_ip_time_frc2tick s))) (fold_left Z.max fs (frc s)) s.
Proof.
  revert s. induction fs as [|f fs IH]; intros s H; cbn [fold_left]; [rewrite <- H; by destruct s|].
  unfold ci_ip_time_update at 2. destruct (Z.leb_spec (frc s) f) as [Hf|Hf].
  - rewrite IH by done. cbn [frc set_time ci_ip_time_frc2tick]. rewrite Z.max_r by done. by destruct s.
  - rewrite IH by done. by rewrite Z.max_l by lia.
Qed.

Lemma fold_max_ge (fs : list Z) m : m <= fold_left Z.max fs m.
Proof. revert m. induction fs as [|f fs IH]; intros m; cbn [fold_left]; [lia|]. specialize (IH (Z.max m f)). lia. Qed.

Lemma shiftr_mono a b k : 0 <= k -> a <= b -> Z.shiftr a k <= Z.shiftr b k.
Proof. intros Hk H. rewrite !Z.shiftr_div_pow2 by done. apply Z.div_le_mono; [|done]. by apply Z.pow_pos_nonneg. Qed.

(** ** Conversions *)

Lemma ms2ticks_eq s t : 0 <= t -> 0 <= ci_ip_time_ms2tick_fxp s -> t * ci_ip_time_ms2tick_fxp s < 2 ^ 64 ->
  ci_ip_time_ms2ticks s t = Z.max 1 (t * ci_ip_time_ms2tick_fxp s / 2 ^ 32).
Proof.
  intros Ht Hf H. unfold ci_ip_time_ms2ticks. rewrite (wrap_small 64) by nia. rewrite Z.shiftr_div_pow2 by lia.
  assert (0 <= t * ci_ip_time_ms2tick_fxp s / 2 ^ 32 < 2 ^ 32) as Hq.
  { split; [apply Z.div_pos; [nia|lia]|]. apply Z.div_lt_upper_bound; [lia|]. change (2 ^ 32 * 2 ^ 32) with (2 ^ 64). lia. }
  rewrite wrap_small by lia. destruct (Z.eqb_spec (t * ci_ip_time_ms2tick_fxp s / 2 ^ 32) 0); cbn [negb]; lia.
Qed.

Lemma ticks2ms_eq s k : 0 <= k < 2 ^ 32 -> 0 < ci_ip_time_ms2tick_fxp s -> k * 2 ^ 32 / ci_ip_time_ms2tick_fxp s < 2 ^ 32 ->
  ci_ip_time_ticks2ms s k = Some (k * 2 ^ 32 / ci_ip_time_ms2tick_fxp s).
Proof.
  intros Hk Hf H. unfold ci_ip_time_ticks2ms, quotient. rewrite (proj2 (Z.eqb_neq (ci_ip_time_ms2tick_fxp s) 0)) by lia. simpl fmap.
  rewrite Z.shiftl_mul_pow2 by lia. rewrite (wrap_small 64) by lia. rewrite wrap_small; [done|]. split; [apply Z.div_pos; lia|lia].
Qed.

Lemma usec_eq k u : 0 < k < 2 ^ 32 -> 0 < u < 2 ^ 32 - 1 -> __oo_usec_to_cycles64 k u = Z.max 1 (u * k / 1000).
Proof.
  intros Hk Hu. unfold __oo_usec_to_cycles64. change (u32 (-1)) with (2 ^ 32 - 1). rewrite (proj2 (Z.eqb_neq u (2 ^ 32 - 1))), (proj2 (Z.eqb_neq u 0)) by lia.
  rewrite wrap_small by nia. pose proof (Z.div_pos (u * k) 1000 ltac:(nia) ltac:(lia)). destruct (Z.eqb_spec (u * k / 1000) 0); lia.
Qed.

Lemma cycles_eq s c : 0 < khz s -> 0 < c < 2 ^ 54 -> c * 1000 / khz s < 2 ^ 32 -> oo_cycles64_to_usec s c = Some (Z.max 1 (c * 1000 / khz s)).
Proof.
  intros Hk Hc H. unfold oo_cycles64_to_usec. change (Z.shiftr (u64 (-1)) 10) with (2 ^ 54 - 1). rewrite (proj2 (Z.ltb_ge (2 ^ 54 - 1) c)) by lia.
  rewrite (proj2 (Z.eqb_neq c 0)) by lia. rewrite (wrap_small 64) by lia. unfold quotient. rewrite (proj2 (Z.eqb_neq (khz s) 0)) by lia. simpl fmap. simpl mbind.
  pose proof (Z.div_pos (c * 1000) (khz s) ltac:(lia) ltac:(lia)). rewrite wrap_small by lia. destruct (Z.eqb_spec (c * 1000 / khz s) 0); f_equal; lia.
Qed.

(** Milliseconds to ticks and back: at most the time, short of it by less than a tick and a millisecond. *)
Lemma ms_roundtrip s t : 0 <= t < 2 ^ 32 -> 0 < ci_ip_time_ms2tick_fxp s -> 2 ^ 32 <= t * ci_ip_time_ms2tick_fxp s < 2 ^ 64 ->
  exists m, ci_ip_time_ticks2ms s (ci_ip_time_ms2ticks s t) = Some m /\ m <= t /\ (t - m) * ci_ip_time_ms2tick_fxp s < 2 ^ 32 + ci_ip_time_ms2tick_fxp s.
Proof.
  intros Ht Hf H. rewrite ms2ticks_eq by lia. set (f := ci_ip_time_ms2tick_fxp s) in *. set (k := t * f / 2 ^ 32).
  pose proof (Z.mul_div_le (t * f) (2 ^ 32) ltac:(lia)) as H1. pose proof (Z.mul_succ_div_gt (t * f) (2 ^ 32) ltac:(lia)) as H2. fold k in H1, H2.
  assert (1 <= k) as Hk by (apply Z.div_le_lower_bound; lia). assert (k < 2 ^ 32) as Hk2 by (apply Z.div_lt_upper_bound; lia). rewrite Z.max_r by done.
  assert (k * 2 ^ 32 / f <= t) as Hm by (apply Z.div_le_upper_bound; lia). exists (k * 2 ^ 32 / f). split; [apply ticks2ms_eq; fold f; lia|]. split; [done|].
  pose proof (Z.mul_succ_div_gt (k * 2 ^ 32) f ltac:(lia)). nia.
Qed.

(** Ticks to milliseconds and back: at most a tick less, when a tick is a millisecond or longer. *)
Lemma ticks_roundtrip s k : 1 <= k -> 0 < ci_ip_time_ms2tick_fxp s <= 2 ^ 32 -> k * 2 ^ 32 / ci_ip_time_ms2tick_fxp s < 2 ^ 32 ->
  exists m, ci_ip_time_ticks2ms s k = Some m /\ Z.max 1 (k - 1) <= ci_ip_time_ms2ticks s m <= k.
Proof.
  intros Hk Hf H. set (f := ci_ip_time_ms2tick_fxp s) in *. pose proof (Z.mul_div_le (k * 2 ^ 32) f ltac:(lia)) as H1.
  pose proof (Z.mul_succ_div_gt (k * 2 ^ 32) f ltac:(lia)) as H2. set (m := k * 2 ^ 32 / f) in *.
  assert (0 <= m) as Hm by (apply Z.div_pos; lia). assert (k < 2 ^ 32) by nia.
  exists m. split; [apply ticks2ms_eq; fold f; lia|]. rewrite ms2ticks_eq by (fold f; lia). fold f.
  assert (m * f / 2 ^ 32 <= k) by (apply Z.div_le_upper_bound; lia). assert (k - 1 <= m * f / 2 ^ 32) by (apply Z.div_le_lower_bound; lia). lia.
Qed.

(** Microseconds to cycles and back, on a processor of at least a megahertz. *)
Lemma usec_roundtrip s u : 1000 <= khz s < 2 ^ 32 -> 0 < u < 2 ^ 32 - 1 -> u * khz s / 1000 < 2 ^ 54 ->
  exists v, oo_cycles64_to_usec s (oo_usec_to_cycles64 s u) = Some v /\ Z.max 1 (u - 1) <= v <= u.
Proof.
  intros Hk Hu H. unfold oo_usec_to_cycles64. rewrite usec_eq by lia. pose proof (Z.mul_div_le (u * khz s) 1000 ltac:(lia)) as H1.
  pose proof (Z.mul_succ_div_gt (u * khz s) 1000 ltac:(lia)) as H2. set (c := u * khz s / 1000) in *. assert (1 <= c) as Hc by (apply Z.div_le_lower_bound; nia). rewrite Z.max_r by done.
  assert (c * 1000 / khz s <= u) by (apply Z.div_le_upper_bound; nia). rewrite cycles_eq by lia. eexists. split; [done|].
  assert (u - 1 <= c * 1000 / khz s) by (apply Z.div_le_lower_bound; nia). lia.
Qed.

(** A time shorter than a tick becomes one tick, which is a whole tick of milliseconds. *)
Lemma short_roundtrip s t : 0 <= t -> 1 < ci_ip_time_ms2tick_fxp s -> t * ci_ip_time_ms2tick_fxp s < 2 ^ 32 ->
  ci_ip_time_ms2ticks s t = 1 /\ ci_ip_time_ticks2ms s 1 = Some (2 ^ 32 / ci_ip_time_ms2tick_fxp s).
Proof.
  intros Ht Hf H. rewrite ms2ticks_eq by lia. rewrite (Z.div_small (t * _)) by nia. split; [done|]. rewrite ticks2ms_eq; rewrite ?Z.mul_1_l; try lia; [done|].
  apply Z.div_lt_upper_bound; lia.
Qed.

(** Ticks shorter than a millisecond to milliseconds and back: at most a millisecond and a tick less; fewer than a millisecond of them become 0. *)
Lemma short_ticks_roundtrip s k : 1 <= k < 2 ^ 32 -> 2 ^ 32 < ci_ip_time_ms2tick_fxp s ->
  exists m, ci_ip_time_ticks2ms s k = Some m /\ ci_ip_time_ms2ticks s m <= k /\ (k - ci_ip_time_ms2ticks s m) * 2 ^ 32 < 2 ^ 32 + ci_ip_time_ms2tick_fxp s /\
    (m = 0 <-> k * 2 ^ 32 < ci_ip_time_ms2tick_fxp s).
Proof.
  intros Hk Hf. set (f := ci_ip_time_ms2tick_fxp s) in *. pose proof (Z.mul_div_le (k * 2 ^ 32) f ltac:(lia)) as H1.
  pose proof (Z.mul_succ_div_gt (k * 2 ^ 32) f ltac:(lia)) as H2. set (m := k * 2 ^ 32 / f) in *.
  assert (0 <= m) as Hm by (apply Z.div_pos; lia). assert (m < 2 ^ 32) as Hm2 by (apply Z.div_lt_upper_bound; nia). exists m. split; [apply ticks2ms_eq; fold f; lia|]. rewrite ms2ticks_eq by (fold f; lia). fold f.
  assert (m * f / 2 ^ 32 <= k) by (apply Z.div_le_upper_bound; lia). pose proof (Z.mul_succ_div_gt (m * f) (2 ^ 32) ltac:(lia)). split; [lia|]. split; nia.
Qed.

(** C34: units of time, for a scale [f] of ticks per millisecond (times [2^32]) and values whose
    conversion does not overflow.  [ci_ip_time_ms2ticks] is the product rounded down, but never
    0, and does not decrease.  A time of at least a tick converted to ticks and back gives at
    most the time and misses it by less than a tick and a millisecond; a shorter time,
    0 included, becomes one tick and comes back as the milliseconds of a tick (1 ms as
    4 ms for ticks of 4 ms).  Ticks of a millisecond or longer come back from
    milliseconds up to one tick; shorter ticks come back at most a millisecond and a tick less, and fewer
    than a millisecond of them become 0 milliseconds.  On a processor of at least a megahertz
    microseconds come back from cycles up to one microsecond, 0 only for 0, and the value for no limit is kept. *)
Theorem time_units_roundtrip s : 0 < ci_ip_time_ms2tick_fxp s < 2 ^ 64 -> 1000 <= khz s < 2 ^ 32 ->
  (forall t, 0 <= t < 2 ^ 32 -> t * ci_ip_time_ms2tick_fxp s < 2 ^ 64 ->
     ci_ip_time_ms2ticks s t = Z.max 1 (t * ci_ip_time_ms2tick_fxp s / 2 ^ 32) /\
     (forall t', 0 <= t' <= t -> ci_ip_time_ms2ticks s t' <= ci_ip_time_ms2ticks s t) /\
     (2 ^ 32 <= t * ci_ip_time_ms2tick_fxp s -> exists m, ci_ip_time_ticks2ms s (ci_ip_time_ms2ticks s t) = Some m /\
        m <= t /\ (t - m) * ci_ip_time_ms2tick_fxp s < 2 ^ 32 + ci_ip_time_ms2tick_fxp s) /\
     (t * ci_ip_time_ms2tick_fxp s < 2 ^ 32 -> 1 < ci_ip_time_ms2tick_fxp s ->
        ci_ip_time_ms2ticks s t = 1 /\ ci_ip_time_ticks2ms s 1 = Some (2 ^ 32 / ci_ip_time_ms2tick_fxp s))) /\
  (forall k, 1 <= k -> ci_ip_time_ms2tick_fxp s <= 2 ^ 32 -> k * 2 ^ 32 / ci_ip_time_ms2tick_fxp s < 2 ^ 32 ->
     exists m, ci_ip_time_ticks2ms s k = Some m /\ Z.max 1 (k - 1) <= ci_ip_time_ms2ticks s m <= k) /\
  (forall k, 1 <= k < 2 ^ 32 -> 2 ^ 32 < ci_ip_time_ms2tick_fxp s ->
     exists m, ci_ip_time_ticks2ms s k = Some m /\ ci_ip_time_ms2ticks s m <= k /\ (k - ci_ip_time_ms2ticks s m) * 2 ^ 32 < 2 ^ 32 + ci_ip_time_ms2tick_fxp s /\
       (m = 0 <-> k * 2 ^ 32 < ci_ip_time_ms2tick_fxp s)) /\
  (forall u, 0 < u < 2 ^ 32 - 1 -> u * khz s / 1000 < 2 ^ 54 ->
     exists v, oo_cycles64_to_usec s (oo_usec_to_cycles64 s u) = Some v /\ Z.max 1 (u - 1) <= v <= u) /\
  (forall u, u = 0 \/ u = 2 ^ 32 - 1 -> oo_cycles64_to_usec s (oo_usec_to_cycles64 s u) = Some u).
Proof.
  intros Hf Hk. split; [|split; [|split; [|split]]].
  - intros t Ht H. split; [apply ms2ticks_eq; lia|]. split; [|split; [intros H2; apply ms_roundtrip; lia|intros H2 H3; apply short_roundtrip; lia]].
    intros t' Ht'. rewrite !ms2ticks_eq by nia. apply Z.max_le_compat_l, Z.div_le_mono; nia.
  - intros k H1 H2 H3. apply ticks_roundtrip; lia.
  - intros k H1 H2. apply short_ticks_roundtrip; lia.
  - intros u Hu H. by apply usec_roundtrip.
  - intros u [-> | ->]; [done|]. unfold oo_usec_to_cycles64. by vm_compute.
Qed.

(** A tick of [2^20 / 10^6] milliseconds (a processor of 1 GHz). *)
Definition example_its : its := Its 0 0 0 0 20 10 6 1000000 4096000000 [0; 0; 0; 0].

Lemma time_units_roundtrip_witness : ci_ip_time_ms2ticks example_its 1000 = 953 /\ ci_ip_time_ms2ticks example_its 0 = 1 /\
  (exists m, ci_ip_time_ticks2ms example_its 953 = Some m /\ m <= 1000 /\ (1000 - m) * 4096000000 < 2 ^ 32 + 4096000000) /\
  (exists v, oo_cycles64_to_usec example_its (oo_usec_to_cycles64 example_its 12345) = Some v /\ 12344 <= v <= 12345).
Proof.
  destruct (time_units_roundtrip example_its) as (H1 & _ & _ & H2 & _); [simpl; lia|simpl; lia|]. destruct (H1 1000) as (E & H3 & H4 & _); [lia|simpl; lia|].
  split; [exact E|]. split; [done|]. split; [rewrite E in H4; apply H4; simpl; lia|]. apply (H2 12345); [lia|]. vm_compute. reflexivity.
Defined.

(** The quotient of cycles is cut to 32 bits: [2^32] microseconds of cycles are 1. *)
Lemma cycles_to_usec_wraps : oo_cycles64_to_usec example_its (2 ^ 32 * 1000) = Some 1 /\ 2 ^ 32 * 1000 * 1000 / khz example_its = 2 ^ 32.
Proof. by vm_compute. Qed.

(** ** Clock and initial sequence numbers *)

Lemma future_is_later s laddr lport raddr rport now d : 0 <= ci_ip_time_frc2tick s -> 0 <= d -> 0 <= now -> now + d * 2 ^ ci_ip_time_frc2tick s < 2 ^ 64 ->
  ci_tcp_future_isn now s laddr lport raddr rport d = ci_tcp_initial_seqno (now + d * 2 ^ ci_ip_time_frc2tick s) s laddr lport raddr rport.
Proof.
  intros Ht Hd Hn H. unfold ci_tcp_initial_seqno, ci_tcp_future_isn. rewrite Z.shiftl_0_l, Z.shiftl_mul_pow2 by done.
  pose proof (Z.pow_pos_nonneg 2 (ci_ip_time_frc2tick s) ltac:(lia) Ht). rewrite !(wrap_small 64 (d * _)), (wrap_small 64 0), Z.add_0_r by nia. done.
Qed.

Lemma initial_seqno_eq s laddr lport raddr rport now : 0 <= now < 2 ^ 64 ->
  ci_tcp_initial_seqno now s laddr lport raddr rport = u32 (onload_hash3 laddr lport raddr rport IPPROTO_TCP + Z.shiftr now (ci_ip_time_frc2isn s)).
Proof. intros H. unfold ci_tcp_initial_seqno, ci_tcp_future_isn. rewrite Z.shiftl_0_l, (wrap_small 64 0), Z.add_0_r by lia. by rewrite (wrap_small 64 now) by lia. Qed.

Lemma isn_order s laddr lport raddr rport now later : 0 <= ci_ip_time_frc2isn s -> 0 <= now <= later -> later < 2 ^ 64 ->
  Z.shiftr later (ci_ip_time_frc2isn s) < Z.shiftr now (ci_ip_time_frc2isn s) + 2 ^ 31 ->
  SEQ_LE (ci_tcp_initial_seqno now s laddr lport raddr rport) (ci_tcp_initial_seqno later s laddr lport raddr rport) = true /\
  (now + 2 ^ ci_ip_time_frc2isn s <= later -> SEQ_LT (ci_tcp_initial_seqno now s laddr lport raddr rport) (ci_tcp_initial_seqno later s laddr lport raddr rport) = true).
Proof.
  intros Hi Hn Hl Hc. rewrite !initial_seqno_eq by lia. pose proof (shiftr_mono now later _ Hi ltac:(lia)) as Hm.
  unfold SEQ_LE, SEQ_LT. rewrite seq_sub_close by lia. split; [apply Z.leb_le; lia|]. intros Hstep.
  pose proof (shiftr_mono (now + 2 ^ ci_ip_time_frc2isn s) later _ Hi ltac:(lia)) as Hs. rewrite Z.shiftr_div_pow2 in Hs by done.
  replace (now + 2 ^ ci_ip_time_frc2isn s) with (now + 1 * 2 ^ ci_ip_time_frc2isn s) in Hs by ring. pose proof (Z.pow_pos_nonneg 2 (ci_ip_time_frc2isn s) ltac:(lia) Hi).
  rewrite Z.div_add, <- Z.shiftr_div_pow2 in Hs by lia. apply Z.ltb_lt. lia.
Qed.

Lemma isn_ticks s laddr lport raddr rport now d : 0 <= ci_ip_time_frc2isn s <= ci_ip_time_frc2tick s -> ci_ip_time_frc2tick s <= 31 -> 0 <= now -> 0 <= d ->
  now + d * 2 ^ ci_ip_time_frc2tick s < 2 ^ 64 -> d * 2 ^ (ci_ip_time_frc2tick s - ci_ip_time_frc2isn s) < 2 ^ 32 ->
  ci_tcp_isn2tick s (u32 (ci_tcp_future_isn now s laddr lport raddr rport d - ci_tcp_initial_seqno now s laddr lport raddr rport)) = d.
Proof.
  intros Hi Ht Hn Hd Hb Hd32. rewrite future_is_later by lia. pose proof (Z.pow_pos_nonneg 2 (ci_ip_time_frc2tick s) ltac:(lia) ltac:(lia)) as Hpt.
  rewrite !initial_seqno_eq by nia. rewrite wrap_sub_l, wrap_sub_r. set (I := ci_ip_time_frc2isn s) in *. set (T := ci_ip_time_frc2tick s) in *.
  assert (2 ^ T = 2 ^ (T - I) * 2 ^ I) as HT by (rewrite <- Z.pow_add_r by lia; f_equal; lia). pose proof (Z.pow_pos_nonneg 2 I ltac:(lia) ltac:(lia)) as HpI.
  pose proof (Z.pow_pos_nonneg 2 (T - I) ltac:(lia) ltac:(lia)) as HpD.
  assert (Z.shiftr (now + d * 2 ^ T) I = Z.shiftr now I + d * 2 ^ (T - I)) as -> by (rewrite !Z.shiftr_div_pow2, HT, Z.mul_assoc, Z.div_add by lia; done).
  generalize (onload_hash3 laddr lport raddr rport IPPROTO_TCP). intros h.
  replace (h + (Z.shiftr now I + d * 2 ^ (T - I)) - (h + Z.shiftr now I)) with (d * 2 ^ (T - I)) by lia. rewrite wrap_small by nia.
  unfold ci_tcp_isn2tick. fold I T. rewrite Z.shiftl_mul_pow2 by lia. rewrite <- Z.mul_assoc, <- HT. rewrite (wrap_small 64 (d * 2 ^ T)) by nia.
  rewrite Z.shiftr_div_pow2 by lia. rewrite Z.div_mul by lia. apply wrap_small. assert (d * 1 <= d * 2 ^ (T - I)) by (apply Z.mul_le_mono_nonneg_l; lia). lia.
Qed.

(** C35: the clock and initial sequence numbers.  From a synchronised clock, any readings of
    the cycle counter leave the latest one and its ticks: a counter that goes back on another
    processor does not turn time back, and a later reading is not before the cached time.  For one pair of
    addresses and ports the initial sequence number of a later reading does not precede that of an
    earlier one, follows it once the clock of sequence numbers ticked, and the number
    of [d] ticks ahead is the one of the reading [d] ticks later; [ci_tcp_isn2tick] gives back the ticks
    between the two. *)
Theorem clock_and_isn_ordered s f0 fs : 0 <= ci_ip_time_frc2isn s <= ci_ip_time_frc2tick s -> ci_ip_time_frc2tick s <= CI_IP_TIME_MAX_FRCSHIFT ->
  let top := fold_left Z.max fs f0 in
  let s' := fold_left (fun s f => ci_ip_time_resync f s) fs (ci_ip_time_initial_sync f0 s) in
  frc s' = top /\ ci_ip_time_now s' = ci_ip_time_get top s /\ f0 <= top /\
  (forall f, top <= f -> Z.shiftr f (ci_ip_time_frc2tick s) < Z.shiftr top (ci_ip_time_frc2tick s) + 2 ^ 31 -> TIME_LE (ci_ip_time_now s') (ci_ip_time_get f s') = true) /\
  (forall laddr lport raddr rport now later, 0 <= now <= later -> later < 2 ^ 64 ->
     Z.shiftr later (ci_ip_time_frc2isn s) < Z.shiftr now (ci_ip_time_frc2isn s) + 2 ^ 31 ->
     let isn := ci_tcp_initial_seqno now s laddr lport raddr rport in
     let isn' := ci_tcp_initial_seqno later s laddr lport raddr rport in
     SEQ_LE isn isn' = true /\ (now + 2 ^ ci_ip_time_frc2isn s <= later -> SEQ_LT isn isn' = true)) /\
  (forall laddr lport raddr rport now d, 0 <= now -> 0 <= d -> now + d * 2 ^ ci_ip_time_frc2tick s < 2 ^ 64 ->
     d * 2 ^ (ci_ip_time_frc2tick s - ci_ip_time_frc2isn s) < 2 ^ 32 ->
     let isn := ci_tcp_initial_seqno now s laddr lport raddr rport in
     let isn' := ci_tcp_future_isn now s laddr lport raddr rport d in
     isn' = ci_tcp_initial_seqno (now + d * 2 ^ ci_ip_time_frc2tick s) s laddr lport raddr rport /\ ci_tcp_isn2tick s (u32 (isn' - isn)) = d).
Proof.
  intros Hi Ht top s'. unfold CI_IP_TIME_MAX_FRCSHIFT in Ht.
  assert (s' = set_time (u32 (Z.shiftr top (ci_ip_time_frc2tick s))) top s) as E
    by (unfold s', top; change (fun s f => ci_ip_time_resync f s) with ci_ip_time_update; by rewrite updates_max).
  rewrite E. do 2 (split; [done|]). split; [apply fold_max_ge|]. split; [|split].
  - intros f Hf Hc. unfold TIME_LE, ci_ip_time_now, ci_ip_time_get. cbn [ci_ip_time_real_ticks set_time ci_ip_time_frc2tick].
    pose proof (shiftr_mono top f (ci_ip_time_frc2tick s) ltac:(lia) Hf). rewrite seq_sub_close by lia. apply Z.leb_le. lia.
  - intros laddr lport raddr rport now later Hn Hl Hc. apply isn_order; try done; lia.
  - intros laddr lport raddr rport now d Hn Hd Hb Hd32. split; [apply future_is_later; lia|]. apply isn_ticks; try done; lia.
Qed.

Lemma clock_and_isn_ordered_witness :
  ci_ip_time_now (fold_left (fun s f => ci_ip_time_resync f s) [2000000; 5000000; 4000000] (ci_ip_time_initial_sync 1000000 example_its)) = 4 /\
  SEQ_LT (ci_tcp_initial_seqno 5000000 example_its 0x0a000001 80 0x0a000002 443)
    (ci_tcp_initial_seqno 5000100 example_its 0x0a000001 80 0x0a000002 443) = true.
Proof.
  destruct (clock_and_isn_ordered example_its 1000000 [2000000; 5000000; 4000000]) as (_ & H1 & _ & _ & H2 & _); [simpl; lia|vm_compute; discriminate|].
  split; [exact H1|]. apply H2; vm_compute; try split; congruence.
Defined.
