(* ===== verification/IpTimer.v ===== *)
(** * IpTimer: timer wheels and the timers of TCP ([ci/internal/iptimer.h], [ci/internal/ip.h])

    The timers of a stack are links of lists, one list per bucket of four wheels; a mask says which
    buckets of the lowest wheel have timers.  A timer that is not pending is linked to
    itself.  The theorems show that the operations implement a map from pending
    timers to the times they fire at, that the mask stays exact, and that the retransmission, delayed
    acknowledgement, keep-alive, zero-window and path-MTU timers act on it as meant. *)

From Stdlib Require Import ZArith Lia Bool.
From stdpp Require Import base gmap sets list.
From S2P Require Import Prelude PktQueue AcceptQ TcpSeq IpTime DLList.

Definition CI_IPTIME_WHEELS : Z := 4.
Definition CI_IPTIME_BUCKETS : Z := 256.
Definition CI_IPTIME_BUCKETMASK : Z := 255.
Definition CI_IPTIME_BUCKETBITS : Z := 8.
Definition CI_IPTIME_WHEELSIZE : Z := CI_IPTIME_WHEELS * CI_IPTIME_BUCKETS.

(** Bucket of a time in a wheel. *)
Definition IPTIMER_BUCKETNO (wheelno abs : Z) : Z := Z.land (Z.shiftr abs (wheelno * CI_IPTIME_BUCKETBITS)) CI_IPTIME_BUCKETMASK.

Definition IPTIMER_WHEEL2_MASK : Z := i32 (Z.shiftl CI_IPTIME_BUCKETMASK (CI_IPTIME_BUCKETBITS * 3)).
Definition IPTIMER_WHEEL1_MASK : Z := i32 (IPTIMER_WHEEL2_MASK + i32 (Z.shiftl CI_IPTIME_BUCKETMASK (CI_IPTIME_BUCKETBITS * 2))).
Definition IPTIMER_WHEEL0_MASK : Z := i32 (IPTIMER_WHEEL1_MASK + i32 (Z.shiftl CI_IPTIME_BUCKETMASK (CI_IPTIME_BUCKETBITS * 1))).

(** A [ci_ip_timer]; its link is the one at offset [statep] (the first member). *)
Record ci_ip_timer := Timer { time : Z; statep : Z }.

(** The links, the timer state of the stack and the timers, by their addresses. *)
Record wheel := Wheel { w_links : dlheap; w_its : its; w_timers : gmap Z ci_ip_timer }.

Definition set_busy_mask (m : list Z) (s : its) : its :=
  Its (sched_ticks s) (ci_ip_time_real_ticks s) (closest_timer s) (frc s) (ci_ip_time_frc2tick s) (ci_ip_time_frc2us s) (ci_ip_time_frc2isn s) (khz s) (ci_ip_time_ms2tick_fxp s) m.

Definition set_links (h : dlheap) (w : wheel) : wheel := Wheel h (w_its w) (w_timers w).
Definition set_mask (m : list Z) (w : wheel) : wheel := Wheel (w_links w) (set_busy_mask m (w_its w)) (w_timers w).
Definition set_timer (ts : Z) (t : ci_ip_timer) (w : wheel) : wheel := Wheel (w_links w) (w_its w) (<[ts := t]> (w_timers w)).

Definition on_links {A} (c : M A) : cm wheel A := fun w => let '(h, r) := c (w_links w) in (set_links h w, r).

Section Wheels.
(** Pointers of offsets and back, and the offset of [warray]. *)
Variables (ptr to_statep : Z -> Z) (warray_p : Z).
(** [__ci_ip_timer_set] of the library. *)
Variable __ci_ip_timer_set : Z -> Z -> cm wheel unit.

(** The offset of a bucket; a link has two offsets of 4 bytes. *)
Definition bucket_p (i : Z) : Z := warray_p + 8 * i.

Definition IPTIMER_BUCKET (wheelno abs : Z) : oo_p_dllink_state :=
  oo_p_dllink_ptr to_statep (ptr (bucket_p (wheelno * CI_IPTIME_BUCKETS + IPTIMER_BUCKETNO wheelno abs))).

Definition timer_at (ts : Z) : cm wheel ci_ip_timer := let! w := get in access (w_timers w !! ts).

Definition __ci_timer_busy_set (time : Z) : cm wheel unit :=
  let b := IPTIMER_BUCKETNO 0 time in
  let! w := get in
  ci_assert (Z.land (sched_ticks (w_its w)) (u32 IPTIMER_WHEEL0_MASK) =? Z.land time (u32 IPTIMER_WHEEL0_MASK)) ;;;
  let! m := access (busy_mask (w_its w) !! Z.to_nat (b / 64)) in
  modify (set_mask (<[Z.to_nat (b / 64) := Z.lor m (u64 (Z.shiftl 1 (b mod 64)))]> (busy_mask (w_its w)))).

Definition __ci_timer_busy_unset (time : Z) : cm wheel unit :=
  let b := IPTIMER_BUCKETNO 0 time in
  let! w := get in
  ci_assert (Z.land (sched_ticks (w_its w)) (u32 IPTIMER_WHEEL0_MASK) =? Z.land time (u32 IPTIMER_WHEEL0_MASK)) ;;;
  let! m := access (busy_mask (w_its w) !! Z.to_nat (b / 64)) in
  modify (set_mask (<[Z.to_nat (b / 64) := Z.ldiff m (u64 (Z.shiftl 1 (b mod 64)))]> (busy_mask (w_its w)))).

Definition ci_timer_busy_maybe_unset (time : Z) : cm wheel unit :=
  let! w := get in
  if negb (Z.land (sched_ticks (w_its w)) (u32 IPTIMER_WHEEL0_MASK) =? Z.land time (u32 IPTIMER_WHEEL0_MASK)) then ret tt
  else
    let b := IPTIMER_BUCKETNO 0 time in
    let! e := on_links (oo_p_dllink_is_empty (oo_p_dllink_ptr to_statep (ptr (bucket_p b)))) in
    if e then __ci_timer_busy_unset time else ret tt.

Definition ci_ip_timer_clear (ts : Z) : cm wheel unit :=
  let! t := timer_at ts in
  on_links (oo_p_dllink_del_init ptr (oo_p_dllink_statep ptr (statep t))) ;;;
  let! t := timer_at ts in
  ci_timer_busy_maybe_unset (time t).

Definition ci_ip_timer_pending (ts : Z) : cm wheel bool :=
  let! t := timer_at ts in
  let! e := on_links (oo_p_dllink_is_empty (oo_p_dllink_statep ptr (statep t))) in
  ret (negb e).

Definition ci_ip_timer_set (ts t : Z) : cm wheel unit :=
  let! p := ci_ip_timer_pending ts in
  ci_assert (negb p) ;;;
  __ci_ip_timer_set ts t.

Definition ci_ip_timer_modify (ts t : Z) : cm wheel unit :=
  let! tm := timer_at ts in
  on_links (oo_p_dllink_del ptr (oo_p_dllink_statep ptr (statep tm))) ;;;
  let! tm := timer_at ts in
  ci_timer_busy_maybe_unset (time tm) ;;;
  __ci_ip_timer_set ts t.

(** [t0] is what the member [time] holds before. *)
Definition ci_ip_timer_init (t0 ts t_sp : Z) : cm wheel unit :=
  let t_sp := t_sp + 0 in
  let link := oo_p_dllink_statep ptr t_sp in
  modify (set_timer ts (Timer t0 t_sp)) ;;;
  on_links (oo_p_dllink_init link).

(** ** The map of pending timers *)

Definition busy (m : list Z) (b : Z) : bool := Z.testbit (default 0 (m !! Z.to_nat (b / 64))) (b mod 64).
Definition same_turn (w : wheel) (t : Z) : Prop :=
  Z.land (sched_ticks (w_its w)) (u32 IPTIMER_WHEEL0_MASK) = Z.land t (u32 IPTIMER_WHEEL0_MASK).

#[export] Instance same_turn_dec w t : Decision (same_turn w t).
Proof. unfold same_turn. apply _. Defined.

(** The wheels [w] hold the pending timers [m] in the lists of [s].  The link of a timer [out], if
    any, is in no list; the mask may still have the bit of a bucket [stale] that is empty. *)
Record wheel_ok (out stale : option Z) (w : wheel) (s : dlstate) (m : gmap Z Z) : Prop := {
  wk_rep : represents ptr (w_links w) s;
  wk_buckets : forall i, 0 <= i < CI_IPTIME_WHEELSIZE -> is_Some (lists s !! bucket_p i);
  wk_len : length (busy_mask (w_its w)) = 4%nat;
  wk_busy : forall b, 0 <= b < CI_IPTIME_BUCKETS -> lists s !! bucket_p b <> Some [] -> busy (busy_mask (w_its w)) b = true;
  wk_idle : forall b, 0 <= b < CI_IPTIME_BUCKETS -> stale <> Some b -> lists s !! bucket_p b = Some [] -> busy (busy_mask (w_its w)) b = false;
  wk_time : forall b l ts t, 0 <= b < CI_IPTIME_BUCKETS -> lists s !! bucket_p b = Some l -> w_timers w !! ts = Some t -> statep t ∈ l ->
    same_turn w (time t) /\ IPTIMER_BUCKETNO 0 (time t) = b;
  wk_timers : forall ts t, w_timers w !! ts = Some t -> out <> Some ts ->
    match m !! ts with
    | Some at_time => at_time = time t /\ exists a l1 l2, lists s !! a = Some (l1 ++ statep t :: l2)
    | None => lists s !! statep t = Some []
    end;
  wk_out : forall ts t, out = Some ts -> w_timers w !! ts = Some t -> m !! ts = None /\ statep t ∈ free s;
  wk_anchor : forall ts t i, w_timers w !! ts = Some t -> 0 <= i < CI_IPTIME_WHEELSIZE -> statep t <> bucket_p i;
  wk_inj : forall ts1 t1 ts2 t2, w_timers w !! ts1 = Some t1 -> w_timers w !! ts2 = Some t2 -> statep t1 = statep t2 -> ts1 = ts2 }.

(** What the library documents of [__ci_ip_timer_set]: it makes a timer pending at a time,
    keeps the mask of buckets that are not empty, and leaves other timers and the clock. *)
Class TimerSet : Prop := timer_set_ok : forall w s m ts tm t, wheel_ok (Some ts) None w s m -> w_timers w !! ts = Some tm -> 0 <= t < 2 ^ 32 ->
  exists w' s', __ci_ip_timer_set ts t w = (w', Ok tt) /\ wheel_ok None None w' s' (<[ts := t]> m) /\
    w_timers w' = <[ts := Timer t (statep tm)]> (w_timers w) /\ ci_ip_time_now (w_its w') = ci_ip_time_now (w_its w).
End Wheels.

(** ** Buckets and the mask *)

Lemma bucketno_range n t : 0 <= IPTIMER_BUCKETNO n t < CI_IPTIME_BUCKETS.
Proof.
  unfold IPTIMER_BUCKETNO, CI_IPTIME_BUCKETS. change CI_IPTIME_BUCKETMASK with (Z.ones 8). rewrite Z.land_ones by lia. apply Z.mod_pos_bound. lia.
Qed.

Section Masks.
Variables (m : list Z) (v b : Z).
Hypothesis Hm : m !! Z.to_nat (b / 64) = Some v.
Hypothesis Hb : 0 <= b < 256.

Lemma mask_place b' : 0 <= b' < 256 -> Z.to_nat (b' / 64) = Z.to_nat (b / 64) -> b' mod 64 = b mod 64 -> b' = b.
Proof. intros Hb' E1 E2. pose proof (Z.div_mod b 64). pose proof (Z.div_mod b' 64). pose proof (Z.div_pos b 64). pose proof (Z.div_pos b' 64). lia. Qed.

Lemma mask_bit k : 0 <= k -> Z.testbit (u64 (Z.shiftl 1 (b mod 64))) k = (b mod 64 =? k).
Proof.
  intros Hk. pose proof (Z.mod_pos_bound b 64 ltac:(lia)). rewrite Z.shiftl_mul_pow2, Z.mul_1_l by lia. unfold wrap.
  rewrite Z.mod_small by (split; [apply Z.pow_nonneg; lia|apply Z.pow_lt_mono_r; lia]). by rewrite Z.pow2_bits_eqb by lia.
Qed.

(** Storing a word changes the bits of its 64 buckets. *)
Lemma busy_insert u b' : 0 <= b' < 256 -> busy (<[Z.to_nat (b / 64) := u]> m) b' = if decide (Z.to_nat (b' / 64) = Z.to_nat (b / 64)) then Z.testbit u (b' mod 64) else busy m b'.
Proof.
  intros Hb'. unfold busy. case_decide as E.
  - rewrite E, list_lookup_insert_eq by (by apply lookup_lt_Some in Hm). done.
  - by rewrite list_lookup_insert_ne by congruence.
Qed.

Lemma busy_here b' : Z.to_nat (b' / 64) = Z.to_nat (b / 64) -> busy m b' = Z.testbit v (b' mod 64).
Proof. intros E. unfold busy. by rewrite E, Hm. Qed.

Lemma busy_set b' : 0 <= b' < 256 -> busy (<[Z.to_nat (b / 64) := Z.lor v (u64 (Z.shiftl 1 (b mod 64)))]> m) b' = (b' =? b) || busy m b'.
Proof.
  intros Hb'. rewrite busy_insert by done. pose proof (Z.mod_pos_bound b' 64 ltac:(lia)). case_decide as E.
  - rewrite Z.lor_spec, mask_bit by lia. rewrite (busy_here b' E), orb_comm. f_equal.
    destruct (Z.eqb_spec b' b) as [->|Hne]; [by rewrite Z.eqb_refl|]. apply Z.eqb_neq. intros E2. by apply Hne, mask_place.
  - destruct (Z.eqb_spec b' b) as [->|]; [done|]. done.
Qed.

Lemma busy_unset b' : 0 <= b' < 256 -> busy (<[Z.to_nat (b / 64) := Z.ldiff v (u64 (Z.shiftl 1 (b mod 64)))]> m) b' = negb (b' =? b) && busy m b'.
Proof.
  intros Hb'. rewrite busy_insert by done. pose proof (Z.mod_pos_bound b' 64 ltac:(lia)). case_decide as E.
  - rewrite Z.ldiff_spec, mask_bit by lia. rewrite (busy_here b' E), andb_comm. do 2 f_equal.
    destruct (Z.eqb_spec b' b) as [->|Hne]; [by rewrite Z.eqb_refl|]. apply Z.eqb_neq. intros E2. by apply Hne, mask_place.
  - destruct (Z.eqb_spec b' b) as [->|]; [done|]. done.
Qed.
End Masks.

Lemma mask_word (m : list Z) b : length m = 4%nat -> 0 <= b < 256 -> exists v, m !! Z.to_nat (b / 64) = Some v.
Proof.
  intros Hl Hb. apply lookup_lt_is_Some. rewrite Hl. assert (b / 64 < 4) by (apply Z.div_lt_upper_bound; lia). pose proof (Z.div_pos b 64). lia.
Qed.

(** ** Steps of the operations *)

Section Steps.
Variables (ptr : Z -> Z) (warray_p : Z).
Context `{!Inj (=) (=) ptr}.

Abbreviation ok := (wheel_ok ptr warray_p).
Abbreviation bucket := (bucket_p warray_p).

Lemma on_links_run {A B} (c : M A) (k : A -> cm wheel B) w h a : c (w_links w) = (h, Ok a) -> bind (on_links c) k w = k a (set_links h w).
Proof. intros H. unfold bind, on_links. by rewrite H. Qed.

Lemma timer_at_run {B} ts t (k : ci_ip_timer -> cm wheel B) w : w_timers w !! ts = Some t -> bind (timer_at ts) k w = k t w.
Proof. intros H. unfold timer_at, bind, get, access. by rewrite H. Qed.

(** A link to itself is as good as one in no list. *)
Lemma rep_release h s p : represents ptr h s -> lists s !! p = Some [] -> represents ptr h (DLState (delete p (lists s)) (free s ∪ {[p]})).
Proof.
  intros Hrep Hp. pose proof Hrep as (Hr & Hd & Hf). split; [|split]; cbn.
  - intros a l [_ Ha]%lookup_delete_Some. by apply Hr.
  - intros a b la lb Hab [_ Ha]%lookup_delete_Some [_ Hb]%lookup_delete_Some. by apply (Hd a b).
  - intros q [Hq| ->%elem_of_singleton]%elem_of_union.
    + destruct (Hf q Hq) as [HL Hn]. split; [done|]. intros a l [_ Ha]%lookup_delete_Some. by apply Hn.
    + split; [apply (ring_link ptr h p []); [by apply Hr|set_solver]|]. intros a l [Hne Ha]%lookup_delete_Some. apply (Hd p a [] l Hne Hp Ha). set_solver.
Qed.

Lemma del_self h s p : represents ptr h s -> lists s !! p = Some [] -> oo_p_dllink_del ptr (oo_p_dllink_statep ptr p) h = (h, Ok tt).
Proof.
  intros Hrep Hp. pose proof (rep_ring ptr h s p [] Hrep Hp) as Hr. pose proof (ring_link ptr h p [] p Hr ltac:(set_solver)) as HL. destruct Hr as [_ [[Hn Hv] _]].
  unfold oo_p_dllink_del, oo_p_dllink_statep, oo_p_dllink_from_p. cbn [st_l st_p]. repeat dlstep ptr. unfold upd_p, upd_n. cbn [h_next h_prev].
  unfold nx, pv in Hn, Hv. rewrite !insert_id by done. by destruct h.
Qed.

(** Taking a pending timer out of its list may leave the bit of its bucket. *)
Lemma unlink_pending w s m ts t a l1 l2 : ok None None w s m -> w_timers w !! ts = Some t -> lists s !! a = Some (l1 ++ statep t :: l2) ->
  exists h stale, oo_p_dllink_del ptr (oo_p_dllink_statep ptr (statep t)) (w_links w) = (h, Ok tt) /\
    ok (Some ts) stale (set_links h w) (del_link s a (statep t) (l1 ++ l2)) (delete ts m) /\
    (stale = None \/ same_turn w (time t) /\ stale = Some (IPTIMER_BUCKETNO 0 (time t))).
Proof.
  intros H Ht Ha. destruct (oo_del_refines ptr _ s a l1 (statep t) l2 (wk_rep _ _ _ _ _ _ _ H) Ha) as (h & E & Hrep).
  assert (Hhere : forall b, bucket b = a -> 0 <= b < CI_IPTIME_BUCKETS -> same_turn w (time t) /\ IPTIMER_BUCKETNO 0 (time t) = b).
  { intros b <- Hb. apply (wk_time _ _ _ _ _ _ _ H b (l1 ++ statep t :: l2) ts t); [done..|set_solver]. }
  exists h, (if decide (a = bucket (IPTIMER_BUCKETNO 0 (time t)) /\ same_turn w (time t)) then Some (IPTIMER_BUCKETNO 0 (time t)) else None).
  split; [done|]. split; [|case_decide as Hd; [right; by split; [apply Hd|]|by left]].
  assert (Hl : forall i l, lists (del_link s a (statep t) (l1 ++ l2)) !! i = Some l -> exists l', lists s !! i = Some l' /\ l ⊆ l').
  { cbn. intros i l [[<- <-]|[_ Hi]]%lookup_insert_Some; [exists (l1 ++ statep t :: l2); split; [done|set_solver]|by exists l]. }
  destruct H as [R B L Hbu Hid Htm Hti Ho An In]. constructor; cbn [w_links w_its w_timers set_links lists free del_link]; try done.
  - intros i Hi. rewrite lookup_insert. case_decide; [by eexists|by apply B].
  - intros b Hb. rewrite lookup_insert. case_decide as Hd; [|by apply Hbu]. intros _. apply Hbu; [done|]. rewrite <- Hd, Ha. intros E2. injection E2. by destruct l1.
  - intros b Hb Hst. rewrite lookup_insert. destruct (decide (a = bucket b)) as [Hd|Hd]; [|by apply Hid]. intros _. destruct (Hhere b (eq_sym Hd) Hb) as [H1 H2]. rewrite decide_True in Hst by (rewrite H2; done). by rewrite H2 in Hst.
  - intros b l ts' t' Hb Hlk Ht' Hin. destruct (Hl _ _ Hlk) as (l' & Hl' & Hsub). by apply (Htm b l' ts' t'); [..|apply Hsub].
  - intros ts' t' Ht' Hne. assert (ts <> ts') as Hne' by congruence. rewrite lookup_delete_ne by done. specialize (Hti ts' t' Ht' ltac:(done)).
    assert (statep t' <> statep t) as Hsp by (intros E2; by apply Hne', (In ts t ts' t')).
    destruct (m !! ts') as [at_time|].
    + destruct Hti as (Hat & a' & k1 & k2 & Hk). split; [done|]. exists a'. rewrite lookup_insert. case_decide as Hd; [|by exists k1, k2].
      subst a'. assert (statep t' ∈ l1 ++ l2) as Hin. { rewrite Ha in Hk. injection Hk as Hk. assert (statep t' ∈ l1 ++ statep t :: l2) by (rewrite Hk; set_solver). set_solver. }
      apply list_elem_of_split in Hin as (j1 & j2 & ->). by exists j1, j2.
    + rewrite lookup_insert_ne; [done|]. intros E2. rewrite <- E2, Ha in Hti. injection Hti. by destruct l1.
  - intros ts' t' [= <-] Ht'. split; [apply lookup_delete_eq|]. rewrite Ht in Ht'. injection Ht' as <-. set_solver.
Qed.

Lemma unlink_self w s m ts t : ok None None w s m -> w_timers w !! ts = Some t -> m !! ts = None ->
  ok (Some ts) None w (DLState (delete (statep t) (lists s)) (free s ∪ {[statep t]})) m.
Proof.
  intros [R B L Hbu Hid Htm Hti Ho An In] Ht Hm. pose proof (Hti ts t Ht ltac:(done)) as Hs. rewrite Hm in Hs.
  assert (Hb : forall i, 0 <= i < CI_IPTIME_WHEELSIZE -> statep t <> bucket i) by (intros i Hi; by apply (An ts)).
  assert (Hsub : forall b, 0 <= b < CI_IPTIME_BUCKETS -> 0 <= b < CI_IPTIME_WHEELSIZE) by (unfold CI_IPTIME_BUCKETS, CI_IPTIME_WHEELSIZE, CI_IPTIME_WHEELS, CI_IPTIME_BUCKETS; lia).
  constructor; cbn [w_links w_its w_timers lists free]; try done.
  - by apply rep_release.
  - intros i Hi. rewrite lookup_delete_ne by auto. by apply B.
  - intros b Hr. rewrite lookup_delete_ne by auto. by apply Hbu.
  - intros b Hr Hst. rewrite lookup_delete_ne by auto. by apply Hid.
  - intros b l ts' t' Hr. rewrite lookup_delete_ne by auto. by apply Htm.
  - intros ts' t' Ht' Hne. specialize (Hti ts' t' Ht' ltac:(done)). destruct (m !! ts') as [at_time|] eqn:Em.
    + destruct Hti as (Hat & a' & k1 & k2 & Hk). split; [done|]. exists a', k1, k2. rewrite lookup_delete_ne; [done|]. intros E. rewrite <- E, Hs in Hk. injection Hk. by destruct k1.
    + rewrite lookup_delete_ne; [done|]. intros E. apply Hne. f_equal. by apply (In ts t ts' t').
  - intros ts' t' [= <-] Ht'. rewrite Ht in Ht'. injection Ht' as <-. split; [done|set_solver].
Qed.

Lemma relink w s m ts t stale : ok (Some ts) stale w s m -> w_timers w !! ts = Some t ->
  exists h, oo_p_dllink_init (oo_p_dllink_statep ptr (statep t)) (w_links w) = (h, Ok tt) /\ ok None stale (set_links h w) (new_list s (statep t)) m.
Proof.
  intros [R B L Hbu Hid Htm Hti Ho An In] Ht. destruct (Ho ts t eq_refl Ht) as [Hm Hf]. destruct (oo_init_refines ptr _ s (statep t) R Hf) as (h & E & Hrep).
  exists h. split; [done|].
  assert (Hb : forall i, 0 <= i < CI_IPTIME_WHEELSIZE -> statep t <> bucket i) by (intros i Hi; by apply (An ts)).
  assert (Hsub : forall b, 0 <= b < CI_IPTIME_BUCKETS -> 0 <= b < CI_IPTIME_WHEELSIZE) by (unfold CI_IPTIME_BUCKETS, CI_IPTIME_WHEELSIZE, CI_IPTIME_WHEELS, CI_IPTIME_BUCKETS; lia).
  constructor; cbn [w_links w_its w_timers set_links lists free new_list add_link]; try done.
  - intros i Hi. rewrite lookup_insert_ne by auto. by apply B.
  - intros b Hr. rewrite lookup_insert_ne by auto. by apply Hbu.
  - intros b Hr Hst. rewrite lookup_insert_ne by auto. by apply Hid.
  - intros b l ts' t' Hr. rewrite lookup_insert_ne by auto. by apply Htm.
  - intros ts' t' Ht' _. destruct (decide (ts = ts')) as [<-|Hne]; [rewrite Ht in Ht'; injection Ht' as <-; rewrite Hm; apply lookup_insert_eq|].
    specialize (Hti ts' t' Ht' ltac:(congruence)). destruct (m !! ts') as [at_time|] eqn:Em.
    + destruct Hti as (Hat & a' & k1 & k2 & Hk). split; [done|]. exists a', k1, k2. rewrite lookup_insert_ne; [done|]. intros E2.
      apply (rep_free ptr _ s _ _ _ R Hf Hk). rewrite E2. set_solver.
    + rewrite lookup_insert_ne; [done|]. intros E2. by apply Hne, (In ts t ts' t').
Qed.

Lemma unlink w s m ts t : ok None None w s m -> w_timers w !! ts = Some t ->
  exists h stale s', oo_p_dllink_del ptr (oo_p_dllink_statep ptr (statep t)) (w_links w) = (h, Ok tt) /\ ok (Some ts) stale (set_links h w) s' (delete ts m) /\
    (stale = None \/ same_turn w (time t) /\ stale = Some (IPTIMER_BUCKETNO 0 (time t))).
Proof.
  intros H Ht. pose proof (wk_timers _ _ _ _ _ _ _ H ts t Ht ltac:(done)) as Hti. destruct (m !! ts) as [at_time|] eqn:Em.
  - destruct Hti as (_ & a & l1 & l2 & Ha). destruct (unlink_pending w s m ts t a l1 l2 H Ht Ha) as (h & stale & E & Hok & Hst). by exists h, stale, (del_link s a (statep t) (l1 ++ l2)).
  - exists (w_links w), None, (DLState (delete (statep t) (lists s)) (free s ∪ {[statep t]})). split; [apply (del_self _ s); [apply (wk_rep _ _ _ _ _ _ _ H)|done]|].
    assert (set_links (w_links w) w = w) as -> by (by destruct w). rewrite (delete_id m ts) by done. split; [by apply unlink_self|by left].
Qed.

Lemma pending_ok w s m ts t : ok None None w s m -> w_timers w !! ts = Some t -> ci_ip_timer_pending ptr ts w = (w, Ok (bool_decide (is_Some (m !! ts)))).
Proof.
  intros H Ht. unfold ci_ip_timer_pending. rewrite (timer_at_run ts t) by done. pose proof (wk_timers _ _ _ _ _ _ _ H ts t Ht ltac:(done)) as Hti.
  pose proof (wk_rep _ _ _ _ _ _ _ H) as R. assert (set_links (w_links w) w = w) as Hw by (by destruct w). destruct (m !! ts) as [at_time|] eqn:Em.
  - destruct Hti as (_ & a & l1 & l2 & Ha). destruct (rep_member ptr _ s a l1 (statep t) l2 R Ha) as (u & v & _ & _ & _ & [E2 _] & _ & Nv & _).
    erewrite (on_links_run _ _ w (w_links w) false); [by rewrite Hw, bool_decide_true by done|].
    unfold oo_p_dllink_is_empty. cbn [st_l st_p oo_p_dllink_statep]. unfold oo_p_dllink_from_p. rewrite (bind_Ok _ _ _ _ _ (get_next_ok ptr _ _ _ E2)).
    rewrite (proj2 (Z.eqb_neq _ _)) by congruence. done.
  - erewrite (on_links_run _ _ w (w_links w)) by (by apply (oo_is_empty_ok ptr _ s)). by rewrite Hw.
Qed.

Variable to_statep : Z -> Z.
Hypothesis Hback : forall p, to_statep (ptr p) = p.

Lemma maybe_unset_ok w s m out stale t : ok out stale w s m -> (stale = None \/ same_turn w t /\ stale = Some (IPTIMER_BUCKETNO 0 t)) ->
  exists mask, ci_timer_busy_maybe_unset ptr to_statep warray_p t w = (set_mask mask w, Ok tt) /\ ok out None (set_mask mask w) s m.
Proof.
  intros H Hst. pose proof H as [R B L Hbu Hid Htm Hti Ho An In]. unfold ci_timer_busy_maybe_unset. rewrite bind_get.
  assert (Hkeep : stale = None -> exists mask, (w, Ok tt) = (set_mask mask w, Ok tt) /\ ok out None (set_mask mask w) s m).
  { intros ->. exists (busy_mask (w_its w)). assert (set_mask (busy_mask (w_its w)) w = w) as -> by (destruct w as [? [] ?]; done). by split. }
  destruct (Z.eqb_spec (Z.land (sched_ticks (w_its w)) (u32 IPTIMER_WHEEL0_MASK)) (Z.land t (u32 IPTIMER_WHEEL0_MASK))) as [Heq|Hneq]; cbn [negb];
    [|apply Hkeep; destruct Hst as [->|[]]; done].
  pose proof (bucketno_range 0 t) as Hr. set (b := IPTIMER_BUCKETNO 0 t) in *.
  destruct (B b) as [l Hl]; [unfold CI_IPTIME_BUCKETS, CI_IPTIME_WHEELSIZE, CI_IPTIME_WHEELS, CI_IPTIME_BUCKETS in *; lia|].
  assert (oo_p_dllink_ptr to_statep (ptr (bucket b)) = oo_p_dllink_statep ptr (bucket b)) as -> by (unfold oo_p_dllink_ptr; by rewrite Hback).
  erewrite (on_links_run _ _ w (w_links w)) by (by apply (oo_is_empty_ok ptr _ s)). assert (set_links (w_links w) w = w) as -> by (by destruct w).
  destruct (bool_decide_reflect (l = [])) as [->|Hne].
  - unfold __ci_timer_busy_unset. rewrite bind_get. fold b. destruct (mask_word _ b L) as [v Hv]; [done|].
    rewrite (proj2 (Z.eqb_eq _ _) Heq). rewrite Hv. unfold ci_assert, access, bind, ret, modify. eexists. split; [reflexivity|].
    constructor; cbn [w_links w_its w_timers set_mask set_busy_mask busy_mask]; try done.
    + by rewrite length_insert.
    + intros b' Hb' Hn. rewrite (busy_unset _ v b Hv) by done. destruct (Z.eqb_spec b' b) as [->|]; [done|]. cbn [negb andb]. by apply Hbu.
    + intros b' Hb' _ Hn. rewrite (busy_unset _ v b Hv) by done. destruct (Z.eqb_spec b' b) as [->|Hne]; [done|]. cbn [negb andb]. apply Hid; [done| |done].
      destruct Hst as [->|[_ ->]]; congruence.
  - exists (busy_mask (w_its w)). assert (set_mask (busy_mask (w_its w)) w = w) as -> by (destruct w as [? [] ?]; done). split; [done|]. constructor; try done.
    intros b' Hb' _ Hn. apply Hid; [done| |done]. destruct Hst as [->|[_ ->]]; [done|]. intros [= <-]. congruence.
Qed.

Lemma clear_ok w s m ts t : ok None None w s m -> w_timers w !! ts = Some t ->
  exists w' s', ci_ip_timer_clear ptr to_statep warray_p ts w = (w', Ok tt) /\ ok None None w' s' (delete ts m) /\
    w_timers w' = w_timers w /\ ci_ip_time_now (w_its w') = ci_ip_time_now (w_its w).
Proof.
  intros H Ht. unfold ci_ip_timer_clear. rewrite (timer_at_run ts t) by done. destruct (unlink w s m ts t H Ht) as (h & stale & s1 & E & H1 & Hst).
  destruct (relink _ s1 _ ts t stale H1 Ht) as (h2 & E2 & H2). cbn [w_links set_links] in E2.
  erewrite (on_links_run _ _ w h2) by (unfold oo_p_dllink_del_init; by rewrite (bind_Ok _ _ _ _ _ E)). rewrite (timer_at_run ts t) by done.
  destruct (maybe_unset_ok _ _ _ _ stale (time t) H2 Hst) as (mask & E3 & H3). by eexists _, _.
Qed.

Section WithSet.
Variable timer_set : Z -> Z -> cm wheel unit.
Context `{HT : !TimerSet ptr warray_p timer_set}.

Lemma set_ok w s m ts t tm : ok None None w s m -> w_timers w !! ts = Some tm -> m !! ts = None -> 0 <= t < 2 ^ 32 ->
  exists w' s', ci_ip_timer_set ptr timer_set ts t w = (w', Ok tt) /\ ok None None w' s' (<[ts := t]> m) /\
    w_timers w' = <[ts := Timer t (statep tm)]> (w_timers w) /\ ci_ip_time_now (w_its w') = ci_ip_time_now (w_its w).
Proof.
  intros H Ht Hm Hr. unfold ci_ip_timer_set. rewrite (bind_Ok _ _ _ _ _ (pending_ok w s m ts tm H Ht)). rewrite bool_decide_false by (rewrite Hm; by intros []).
  unfold ci_assert, bind, ret. cbn [negb]. exact (HT w _ m ts tm t (unlink_self w s m ts tm H Ht Hm) Ht Hr).
Qed.

Lemma set_aborts w s m ts t tm : ok None None w s m -> w_timers w !! ts = Some tm -> is_Some (m !! ts) -> ci_ip_timer_set ptr timer_set ts t w = (w, Abort).
Proof. intros H Ht Hm. unfold ci_ip_timer_set. rewrite (bind_Ok _ _ _ _ _ (pending_ok w s m ts tm H Ht)). by rewrite bool_decide_true by done. Qed.

Lemma modify_ok w s m ts t tm : ok None None w s m -> w_timers w !! ts = Some tm -> 0 <= t < 2 ^ 32 ->
  exists w' s', ci_ip_timer_modify ptr to_statep warray_p timer_set ts t w = (w', Ok tt) /\ ok None None w' s' (<[ts := t]> m) /\
    w_timers w' = <[ts := Timer t (statep tm)]> (w_timers w) /\ ci_ip_time_now (w_its w') = ci_ip_time_now (w_its w).
Proof.
  intros H Ht Hr. unfold ci_ip_timer_modify. rewrite (timer_at_run ts tm) by done. destruct (unlink w s m ts tm H Ht) as (h & stale & s1 & E & H1 & Hst).
  rewrite (on_links_run _ _ w h tt E). rewrite (timer_at_run ts tm) by done. destruct (maybe_unset_ok _ _ _ _ stale (time tm) H1 Hst) as (mask & E3 & H3).
  rewrite (bind_Ok _ _ _ _ _ E3). rewrite <- insert_delete_eq. exact (HT _ s1 _ ts tm t H3 Ht Hr).
Qed.
End WithSet.
End Steps.

(** ** What timers promise

    Operations on timers, and the map of pending timers that they implement. *)

Record timer_ops (W : Type) := TimerOps {
  op_clear : Z -> cm W unit; op_pending : Z -> cm W bool; op_set : Z -> Z -> cm W unit; op_modify : Z -> Z -> cm W unit; op_now : W -> Z }.
Arguments op_clear {W}.
Arguments op_pending {W}.
Arguments op_set {W}.
Arguments op_modify {W}.
Arguments op_now {W}.

Class Timers {W} (o : timer_ops W) (holds : W -> gset Z -> gmap Z Z -> Prop) : Prop := {
  holds_clear w D m ts : holds w D m -> ts ∈ D -> exists w', op_clear o ts w = (w', Ok tt) /\ holds w' D (delete ts m) /\ op_now o w' = op_now o w;
  holds_pending w D m ts : holds w D m -> ts ∈ D -> op_pending o ts w = (w, Ok (bool_decide (is_Some (m !! ts))));
  holds_set w D m ts t : holds w D m -> ts ∈ D -> m !! ts = None -> 0 <= t < 2 ^ 32 ->
    exists w', op_set o ts t w = (w', Ok tt) /\ holds w' D (<[ts := t]> m) /\ op_now o w' = op_now o w;
  holds_busy w D m ts t : holds w D m -> ts ∈ D -> is_Some (m !! ts) -> op_set o ts t w = (w, Abort);
  holds_modify w D m ts t : holds w D m -> ts ∈ D -> 0 <= t < 2 ^ 32 ->
    exists w', op_modify o ts t w = (w', Ok tt) /\ holds w' D (<[ts := t]> m) /\ op_now o w' = op_now o w }.

Inductive timer_call := CClear (ts : Z) | CPending (ts : Z) | CSet (ts t : Z) | CModify (ts t : Z).

Definition call_ok (D : gset Z) (c : timer_call) : Prop :=
  match c with CClear ts | CPending ts => ts ∈ D | CSet ts t | CModify ts t => ts ∈ D /\ 0 <= t < 2 ^ 32 end.

(** [None] when the assertion of [ci_ip_timer_set] fails. *)
Definition timer_spec (m : gmap Z Z) (c : timer_call) : option (gmap Z Z * bool) :=
  match c with
  | CClear ts => Some (delete ts m, false)
  | CPending ts => Some (m, bool_decide (is_Some (m !! ts)))
  | CSet ts t => if m !! ts is Some _ then None else Some (<[ts := t]> m, false)
  | CModify ts t => Some (<[ts := t]> m, false)
  end.

Fixpoint timer_specs (m : gmap Z Z) (cs : list timer_call) : option (gmap Z Z * list bool) :=
  match cs with
  | [] => Some (m, [])
  | c :: cs' => '(m1, r) ← timer_spec m c; '(m2, rs) ← timer_specs m1 cs'; Some (m2, r :: rs)
  end.

Section Calls.
Context {W} (o : timer_ops W) {holds} `{HT : !Timers o holds}.

Definition run_timer_call (c : timer_call) : cm W bool :=
  match c with
  | CClear ts => op_clear o ts ;;; ret false
  | CPending ts => op_pending o ts
  | CSet ts t => op_set o ts t ;;; ret false
  | CModify ts t => op_modify o ts t ;;; ret false
  end.

Fixpoint run_timer_calls (cs : list timer_call) : cm W (list bool) :=
  match cs with
  | [] => ret []
  | c :: cs' => let! r := run_timer_call c in let! rs := run_timer_calls cs' in ret (r :: rs)
  end.

Lemma timer_call_refines w D m c : holds w D m -> call_ok D c ->
  match timer_spec m c with
  | Some (m', r) => exists w', run_timer_call c w = (w', Ok r) /\ holds w' D m' /\ op_now o w' = op_now o w
  | None => run_timer_call c w = (w, Abort)
  end.
Proof.
  intros H Hc. destruct c as [ts|ts|ts t|ts t]; cbn [timer_spec run_timer_call call_ok] in *.
  - destruct (holds_clear w D m ts H Hc) as (w' & E & H'). exists w'. by rewrite (bind_Ok _ _ _ _ _ E).
  - exists w. by rewrite (holds_pending w D m ts H Hc).
  - destruct Hc as [Hd Ht]. destruct (m !! ts) as [x|] eqn:Em.
    + unfold bind. by rewrite (holds_busy w D m ts t H Hd ltac:(by rewrite Em)).
    + destruct (holds_set w D m ts t H Hd Em Ht) as (w' & E & H'). exists w'. by rewrite (bind_Ok _ _ _ _ _ E).
  - destruct Hc as [Hd Ht]. destruct (holds_modify w D m ts t H Hd Ht) as (w' & E & H'). exists w'. by rewrite (bind_Ok _ _ _ _ _ E).
Qed.

Lemma timer_calls_refine w D m cs : holds w D m -> Forall (call_ok D) cs ->
  match timer_specs m cs with
  | Some (m', rs) => exists w', run_timer_calls cs w = (w', Ok rs) /\ holds w' D m'
  | None => exists w', run_timer_calls cs w = (w', Abort)
  end.
Proof.
  revert w m. induction cs as [|c cs IH]; intros w m H Hcs; cbn [timer_specs run_timer_calls]; [by exists w|]. apply Forall_cons in Hcs as [Hc Hcs].
  pose proof (timer_call_refines w D m c H Hc) as H1. destruct (timer_spec m c) as [[m1 r]|]; cbn [mbind option_bind].
  - destruct H1 as (w1 & E1 & H1 & _). specialize (IH w1 m1 H1 Hcs). rewrite (bind_Ok _ _ _ _ _ E1). destruct (timer_specs m1 cs) as [[m2 rs]|]; cbn.
    + destruct IH as (w2 & E2 & H2). exists w2. by rewrite (bind_Ok _ _ _ _ _ E2).
    + destruct IH as (w2 & E2). exists w2. unfold bind. by rewrite E2.
  - exists w. unfold bind. by rewrite H1.
Qed.
End Calls.

Section Instances.
Variables (ptr to_statep : Z -> Z) (warray_p : Z) (timer_set : Z -> Z -> cm wheel unit).

Definition wheel_ops : timer_ops wheel :=
  TimerOps wheel (ci_ip_timer_clear ptr to_statep warray_p) (ci_ip_timer_pending ptr) (ci_ip_timer_set ptr timer_set)
    (ci_ip_timer_modify ptr to_statep warray_p timer_set) (fun w => ci_ip_time_now (w_its w)).

(** The mask of the lowest wheel has the bits of its buckets that are not empty. *)
Definition mask_exact (w : wheel) (s : dlstate) : Prop :=
  forall b, 0 <= b < CI_IPTIME_BUCKETS -> busy (busy_mask (w_its w)) b = bool_decide (lists s !! bucket_p warray_p b <> Some []).

Definition wheel_holds (w : wheel) (D : gset Z) (m : gmap Z Z) : Prop :=
  dom (w_timers w) = D /\ exists s, wheel_ok ptr warray_p None None w s m /\ mask_exact w s.

End Instances.

Lemma mask_is_exact ptr warray_p w s m : wheel_ok ptr warray_p None None w s m -> mask_exact warray_p w s.
Proof.
  intros H b Hb. destruct (decide (lists s !! bucket_p warray_p b = Some [])) as [E|E].
  - rewrite bool_decide_false by tauto. by apply (wk_idle _ _ _ _ _ _ _ H).
  - rewrite bool_decide_true by done. by apply (wk_busy _ _ _ _ _ _ _ H).
Qed.

Lemma wheel_timers ptr to_statep warray_p timer_set `{!Inj (=) (=) ptr} `{!TimerSet ptr warray_p timer_set} : (forall p, to_statep (ptr p) = p) ->
  Timers (wheel_ops ptr to_statep warray_p timer_set) (wheel_holds ptr warray_p).
Proof.
  intros Hback.
  assert (Hd : forall w (D : gset Z) ts, dom (w_timers w) = D -> ts ∈ D -> exists t, w_timers w !! ts = Some t) by (intros w D ts <- Hin; by apply elem_of_dom).
  constructor; intros w D m ts; cbn [op_clear op_pending op_set op_modify op_now wheel_ops].
  - intros (HD & s & H & _) Hin. destruct (Hd w D ts HD Hin) as [t Ht]. destruct (clear_ok ptr warray_p to_statep Hback w s m ts t H Ht) as (w' & s' & E & H' & Et & En).
    exists w'. split; [done|]. split; [|done]. split; [by rewrite Et|]. exists s'. split; [done|by eapply mask_is_exact].
  - intros (HD & s & H & _) Hin. destruct (Hd w D ts HD Hin) as [t Ht]. by apply (pending_ok ptr warray_p w s m ts t).
  - intros t (HD & s & H & _) Hin Hm Hr. destruct (Hd w D ts HD Hin) as [tm Ht]. destruct (set_ok ptr warray_p timer_set w s m ts t tm H Ht Hm Hr) as (w' & s' & E & H' & Et & En).
    exists w'. split; [done|]. split; [|done]. split; [rewrite Et, dom_insert_L; set_solver|]. exists s'. split; [done|by eapply mask_is_exact].
  - intros t (HD & s & H & _) Hin Hm. destruct (Hd w D ts HD Hin) as [tm Ht]. by apply (set_aborts ptr warray_p timer_set w s m ts t tm).
  - intros t (HD & s & H & _) Hin Hr. destruct (Hd w D ts HD Hin) as [tm Ht]. destruct (modify_ok ptr warray_p to_statep Hback timer_set w s m ts t tm H Ht Hr) as (w' & s' & E & H' & Et & En).
    exists w'. split; [done|]. split; [|done]. split; [rewrite Et, dom_insert_L; set_solver|]. exists s'. split; [done|by eapply mask_is_exact].
Qed.

(** A link that is in no list becomes a timer that is not pending. *)
Lemma timer_init_ok ptr warray_p `{!Inj (=) (=) ptr} w s m t0 ts sp : wheel_ok ptr warray_p None None w s m -> w_timers w !! ts = None -> m !! ts = None -> sp ∈ free s ->
  (forall ts' t', w_timers w !! ts' = Some t' -> statep t' <> sp) ->
  exists w' s', ci_ip_timer_init ptr t0 ts sp w = (w', Ok tt) /\ wheel_ok ptr warray_p None None w' s' m /\ w_timers w' = <[ts := Timer t0 sp]> (w_timers w).
Proof.
  intros H Hts Hm Hf Hsp. assert (Hok : wheel_ok ptr warray_p (Some ts) None (set_timer ts (Timer t0 sp) w) s m).
  { destruct H as [R B L Hbu Hid Htm Hti Ho An In]. constructor; cbn [w_links w_its w_timers set_timer]; try done.
    - intros b l ts' t' Hb Hl [[<- <-]|[Hne Ht']]%lookup_insert_Some Hin; [|by apply (Htm b l ts' t')]. cbn in Hin. by destruct (rep_free ptr _ s sp _ _ R Hf Hl); set_solver.
    - intros ts' t' [[<- <-]|[Hne Ht']]%lookup_insert_Some Hno; [done|]. by apply Hti.
    - intros ts' t' [= <-]. rewrite lookup_insert_eq. by intros [= <-].
    - intros ts' t' i [[<- <-]|[Hne Ht']]%lookup_insert_Some Hi; [|by apply (An ts')]. cbn. intros ->. destruct (B i Hi) as [l Hl]. apply (rep_free ptr _ s _ _ _ R Hf Hl). set_solver.
    - intros ts1 t1 ts2 t2 [[<- <-]|[Hn1 Ht1]]%lookup_insert_Some [[<- <-]|[Hn2 Ht2]]%lookup_insert_Some E; cbn in E; [done|by destruct (Hsp ts2 t2)|by destruct (Hsp ts1 t1)|by apply (In ts1 t1 ts2 t2)]. }
  unfold ci_ip_timer_init. rewrite Z.add_0_r, bind_modify. destruct (relink ptr warray_p _ s m ts (Timer t0 sp) None Hok (lookup_insert_eq _ _ _)) as (h & E & H').
  unfold on_links. cbn [statep] in E. rewrite E. by eexists _, _.
Qed.

(** C36: timers.  Whatever sequence of [ci_ip_timer_clear], [ci_ip_timer_pending], [ci_ip_timer_set] and
    [ci_ip_timer_modify] is called on initialised timers, pending or not, the linked lists
    implement the map from pending timers to their times: a timer is in one list exactly when
    it is pending, setting one that is pending fails the assertion and changes nothing, modifying one sets it
    whether or not it was pending; and the mask of the lowest wheel has a bit exactly for
    each bucket with timers.  [ci_ip_timer_init] makes a fresh link a timer that is not pending. *)
Theorem timer_wheel_refines ptr to_statep warray_p timer_set `{!Inj (=) (=) ptr} `{!TimerSet ptr warray_p timer_set} w D m cs :
  (forall p, to_statep (ptr p) = p) -> wheel_holds ptr warray_p w D m -> Forall (call_ok D) cs ->
  match timer_specs m cs with
  | Some (m', rs) => exists w' s', run_timer_calls (wheel_ops ptr to_statep warray_p timer_set) cs w = (w', Ok rs) /\
      dom (w_timers w') = D /\ wheel_ok ptr warray_p None None w' s' m' /\ mask_exact warray_p w' s' /\
      (forall t0 ts sp, ts ∉ D -> m' !! ts = None -> sp ∈ free s' -> (forall ts' t', w_timers w' !! ts' = Some t' -> statep t' <> sp) ->
         exists w2, ci_ip_timer_init ptr t0 ts sp w' = (w2, Ok tt) /\ wheel_holds ptr warray_p w2 (D ∪ {[ts]}) m' /\ ci_ip_timer_pending ptr ts w2 = (w2, Ok false))
  | None => exists w', run_timer_calls (wheel_ops ptr to_statep warray_p timer_set) cs w = (w', Abort)
  end.
Proof.
  intros Hback H Hcs. pose proof (wheel_timers ptr to_statep warray_p timer_set Hback) as HT.
  pose proof (timer_calls_refine (wheel_ops ptr to_statep warray_p timer_set) w D m cs H Hcs) as Href. destruct (timer_specs m cs) as [[m' rs]|]; [|done].
  destruct Href as (w' & E & HD & s' & Hok & Hmask). exists w', s'. do 4 (split; [done|]). intros t0 ts sp Hts Hm Hf Hsp.
  assert (w_timers w' !! ts = None) as Hno by (apply not_elem_of_dom; by rewrite HD).
  destruct (timer_init_ok ptr warray_p w' s' m' t0 ts sp Hok Hno Hm Hf Hsp) as (w2 & s2 & E2 & H2 & Et). exists w2. split; [done|]. split.
  - split; [rewrite Et, dom_insert_L, HD; set_solver|]. exists s2. split; [done|by eapply mask_is_exact].
  - rewrite (pending_ok ptr warray_p w2 s2 m' ts (Timer t0 sp) H2) by (rewrite Et; apply lookup_insert_eq). by rewrite Hm.
Qed.

(** ** A library function that keeps the promise *)

Section Sample.
Variables (ptr to_statep : Z -> Z) (warray_p : Z).
Context `{!Inj (=) (=) ptr}.
Hypothesis Hback : forall p, to_statep (ptr p) = p.

(** The lowest wheel whose turn the time is in. *)
Definition wheel_of (w : wheel) (t : Z) : Z :=
  let turn mask := Z.land (sched_ticks (w_its w)) (u32 mask) =? Z.land t (u32 mask) in
  if turn IPTIMER_WHEEL0_MASK then 0 else if turn IPTIMER_WHEEL1_MASK then 1 else if turn IPTIMER_WHEEL2_MASK then 2 else 3.

Definition add_to_wheel (ts t : Z) : cm wheel unit :=
  let! tm := timer_at ts in
  modify (set_timer ts (Timer t (statep tm))) ;;;
  let! w := get in
  on_links (oo_p_dllink_add_tail ptr (IPTIMER_BUCKET ptr to_statep warray_p (wheel_of w t) t) (oo_p_dllink_statep ptr (statep tm))) ;;;
  if wheel_of w t =? 0 then __ci_timer_busy_set t else ret tt.

Lemma add_tail_ok h s a l n : represents ptr h s -> lists s !! a = Some l -> n ∈ free s ->
  exists h', oo_p_dllink_add_tail ptr (oo_p_dllink_statep ptr a) (oo_p_dllink_statep ptr n) h = (h', Ok tt) /\ represents ptr h' (add_link s a n (l ++ [n])).
Proof.
  intros R Ha Hn. destruct (oo_call_refines ptr h s (OAddTail a n) [] _ R (OSAddTail _ a l n Ha Hn)) as (h' & E & R'). exists h'. split; [|done].
  cbn [run_oocall] in E. unfold bind, ret in E. destruct (oo_p_dllink_add_tail ptr _ _ h) as [h2 [[]|?| |]]; by simplify_eq.
Qed.

Lemma wheel_of_zero w t : (wheel_of w t =? 0) = bool_decide (same_turn w t).
Proof.
  unfold wheel_of, same_turn. destruct (Z.eqb_spec (Z.land (sched_ticks (w_its w)) (u32 IPTIMER_WHEEL0_MASK)) (Z.land t (u32 IPTIMER_WHEEL0_MASK))) as [E|E];
    [by rewrite bool_decide_true|]. rewrite bool_decide_false by done. by repeat case_match.
Qed.

Lemma bucket_index w t : let i := wheel_of w t * CI_IPTIME_BUCKETS + IPTIMER_BUCKETNO (wheel_of w t) t in
  0 <= i < CI_IPTIME_WHEELSIZE /\ (i < CI_IPTIME_BUCKETS <-> same_turn w t) /\ (same_turn w t -> i = IPTIMER_BUCKETNO 0 t).
Proof.
  cbn zeta. pose proof (bucketno_range (wheel_of w t) t) as Hr. assert (0 <= wheel_of w t <= 3) as Hw by (unfold wheel_of; repeat case_match; lia).
  pose proof (wheel_of_zero w t) as Hz. unfold CI_IPTIME_WHEELSIZE, CI_IPTIME_WHEELS, CI_IPTIME_BUCKETS in *.
  destruct (bool_decide_reflect (same_turn w t)) as [Ht|Ht]; [apply Z.eqb_eq in Hz; rewrite Hz in *|apply Z.eqb_neq in Hz]; (split; [lia|split; [split; intros; [tauto||lia|lia||done]|]]); [lia|done].
Qed.

(** Changing the time of a timer that is in no list. *)
Lemma retime w s m ts tm t : wheel_ok ptr warray_p (Some ts) None w s m -> w_timers w !! ts = Some tm ->
  wheel_ok ptr warray_p (Some ts) None (set_timer ts (Timer t (statep tm)) w) s m.
Proof.
  intros H Ht. pose proof H as [R B L Hbu Hid Htm Hti Ho An In]. destruct (Ho ts tm eq_refl Ht) as [Hm Hf].
  assert (Hsame : forall ts' t', w_timers (set_timer ts (Timer t (statep tm)) w) !! ts' = Some t' -> exists t2, w_timers w !! ts' = Some t2 /\ statep t2 = statep t' /\ (ts' <> ts -> t2 = t')).
  { cbn. intros ts' t' [[<- <-]|[Hne Ht']]%lookup_insert_Some; [by exists tm|by exists t']. }
  constructor; cbn [w_links w_its]; try done.
  - intros b l ts' t' Hb Hl Ht' Hin. destruct (decide (ts' = ts)) as [->|Hne].
    + destruct (Hsame _ _ Ht') as (t2 & Ht2 & Hsp & _). rewrite Ht in Ht2. injection Ht2 as <-. destruct (rep_free ptr _ s _ _ _ R Hf Hl). rewrite Hsp. set_solver.
    + destruct (Hsame _ _ Ht') as (t2 & Ht2 & _ & E). rewrite (E Hne) in Ht2. by apply (Htm b l ts' t').
  - intros ts' t' Ht' Hne. destruct (Hsame _ _ Ht') as (t2 & Ht2 & _ & E). rewrite E in Ht2 by congruence. by apply Hti.
  - intros ts' t' [= <-] Ht'. destruct (Hsame _ _ Ht') as (t2 & Ht2 & <- & _). rewrite Ht in Ht2. by injection Ht2 as <-.
  - intros ts' t' i Ht'. destruct (Hsame _ _ Ht') as (t2 & Ht2 & <- & _). by apply (An ts').
  - intros ts1 t1 ts2 t2 H1 H2 E. destruct (Hsame _ _ H1) as (u1 & Hu1 & E1 & _), (Hsame _ _ H2) as (u2 & Hu2 & E2 & _). apply (In ts1 u1 ts2 u2 Hu1 Hu2). congruence.
Qed.

Lemma link_in w s m ts tm i l h mask : wheel_ok ptr warray_p (Some ts) None w s m -> w_timers w !! ts = Some tm -> 0 <= i < CI_IPTIME_WHEELSIZE ->
  lists s !! bucket_p warray_p i = Some l -> represents ptr h (add_link s (bucket_p warray_p i) (statep tm) (l ++ [statep tm])) ->
  (i < CI_IPTIME_BUCKETS -> same_turn w (time tm) /\ IPTIMER_BUCKETNO 0 (time tm) = i) -> length mask = 4%nat ->
  (forall b, 0 <= b < CI_IPTIME_BUCKETS -> busy mask b = (b =? i) || busy (busy_mask (w_its w)) b) ->
  wheel_ok ptr warray_p None None (set_mask mask (set_links h w)) (add_link s (bucket_p warray_p i) (statep tm) (l ++ [statep tm])) (<[ts := time tm]> m).
Proof.
  intros [R B L Hbu Hid Htm Hti Ho An In] Ht Hi Hl Hr Hlow Hlen Hmask. destruct (Ho ts tm eq_refl Ht) as [Hm Hf].
  assert (Hinj : forall j, bucket_p warray_p j = bucket_p warray_p i -> j = i) by (unfold bucket_p; intros; lia).
  constructor; cbn [w_links w_its w_timers set_mask set_links set_busy_mask busy_mask lists free add_link]; try done.
  - intros j Hj. rewrite lookup_insert. case_decide; [by eexists|by apply B].
  - intros b Hb. rewrite lookup_insert, (Hmask b Hb). destruct (Z.eqb_spec b i) as [->|Hne]; [done|]. rewrite decide_False by (intros E; by apply Hne, Hinj). by apply Hbu.
  - intros b Hb _. rewrite lookup_insert, (Hmask b Hb). case_decide as Hd; [intros [= E]; by destruct l|]. destruct (Z.eqb_spec b i) as [->|Hne]; [done|]. by apply Hid.
  - intros b k ts' t' Hb Hk Ht' Hin. apply lookup_insert_Some in Hk as [[Hd <-]|[Hd Hk]]; [|by apply (Htm b k ts' t')]. apply eq_sym, Hinj in Hd as ->.
    apply elem_of_app in Hin as [Hin|Hin%list_elem_of_singleton]; [by apply (Htm i l ts' t')|]. assert (ts' = ts) as -> by (by apply (In ts' t' ts tm)).
    rewrite Ht in Ht'. injection Ht' as <-. apply Hlow. lia.
  - intros ts' t' Ht' _. destruct (decide (ts = ts')) as [<-|Hne].
    + rewrite lookup_insert_eq. rewrite Ht in Ht'. injection Ht' as <-. split; [done|]. exists (bucket_p warray_p i), l, []. apply lookup_insert_eq.
    + rewrite lookup_insert_ne by done. specialize (Hti ts' t' Ht' ltac:(congruence)). destruct (m !! ts') as [at_time|].
      * destruct Hti as (Hat & a & k1 & k2 & Hk). split; [done|]. exists a. rewrite lookup_insert. case_decide as Hd; [|by exists k1, k2].
        rewrite <- Hd, Hl in Hk. injection Hk as ->. exists k1, (k2 ++ [statep tm]). by rewrite <- app_assoc.
      * rewrite lookup_insert_ne; [done|]. intros E. by apply (An ts' t' i).
Qed.

#[export] Instance add_to_wheel_ok : TimerSet ptr warray_p add_to_wheel.
Proof.
  intros w s m ts tm t H Ht Hr. unfold add_to_wheel. rewrite (timer_at_run ts tm) by done. rewrite bind_modify, bind_get.
  set (w1 := set_timer ts (Timer t (statep tm)) w). pose proof (retime w s m ts tm t H Ht) as H1. fold w1 in H1.
  assert (w_timers w1 !! ts = Some (Timer t (statep tm))) as Ht1 by apply lookup_insert_eq. destruct (bucket_index w1 t) as (Hi & Hlow & Hno). cbn zeta in *.
  set (i := wheel_of w1 t * CI_IPTIME_BUCKETS + IPTIMER_BUCKETNO (wheel_of w1 t) t) in *. destruct (wk_buckets _ _ _ _ _ _ _ H1 i Hi) as [l Hl].
  destruct (wk_out _ _ _ _ _ _ _ H1 ts _ eq_refl Ht1) as [_ Hf]. destruct (add_tail_ok _ s _ l _ (wk_rep _ _ _ _ _ _ _ H1) Hl Hf) as (h & E & Hrep).
  assert (IPTIMER_BUCKET ptr to_statep warray_p (wheel_of w1 t) t = oo_p_dllink_statep ptr (bucket_p warray_p i)) as -> by (unfold IPTIMER_BUCKET, oo_p_dllink_ptr; by rewrite Hback).
  rewrite (on_links_run _ _ w1 h tt E). rewrite wheel_of_zero. pose proof (wk_len _ _ _ _ _ _ _ H1) as L.
  destruct (bool_decide_reflect (same_turn w1 t)) as [Hs|Hs].
  - unfold __ci_timer_busy_set. rewrite bind_get. destruct (mask_word _ (IPTIMER_BUCKETNO 0 t) L (bucketno_range 0 t)) as [v Hv].
    unfold same_turn in Hs. cbn [w_its set_links]. rewrite (proj2 (Z.eqb_eq _ _) Hs), Hv. unfold ci_assert, access, bind, ret, modify. eexists _, _. split; [reflexivity|].
    split; [|done]. apply (link_in w1 s m ts (Timer t (statep tm)) i l h); try done.
    + intros _. split; [done|]. symmetry. by apply Hno.
    + by rewrite length_insert.
    + intros b Hb. rewrite (busy_set _ v _ Hv (bucketno_range 0 t)) by done. by rewrite Hno.
  - unfold ret. eexists _, _. split; [reflexivity|]. split; [|done]. assert (set_links h w1 = set_mask (busy_mask (w_its w1)) (set_links h w1)) as -> by (unfold w1; by destruct w as [? [] ?]).
    apply (link_in w1 s m ts (Timer t (statep tm)) i l h); try done; [tauto|]. intros b Hb. destruct (Z.eqb_spec b i) as [->|]; [|done]. exfalso. apply Hs, Hlow. lia.
Qed.
End Sample.

(** Links to themselves, for the buckets and the timers of a new stack. *)
Definition fresh_links (ptr : Z -> Z) (ps : list Z) : dlheap :=
  let next := list_to_map ((fun p => (ptr p, p)) <$> ps) in DLHeap next next.
Definition fresh_lists (ps : list Z) : dlstate := DLState (list_to_map ((fun p => (p, [])) <$> ps)) ∅.

Lemma fresh_lookup ps a l : lists (fresh_lists ps) !! a = Some l <-> l = [] /\ a ∈ ps.
Proof.
  cbn. split.
  - intros Hin%elem_of_list_to_map_2. apply list_elem_of_fmap in Hin as (p & E & Hp). by injection E as -> ->.
  - intros [-> Ha]. apply elem_of_list_to_map_1'; [|apply list_elem_of_fmap; by exists a]. intros y (p & E & _)%list_elem_of_fmap. by injection E as _ ->.
Qed.

Lemma fresh_represents ptr ps `{!Inj (=) (=) ptr} : represents ptr (fresh_links ptr ps) (fresh_lists ps).
Proof.
  assert (Hn : forall p, p ∈ ps -> h_next (fresh_links ptr ps) !! ptr p = Some p).
  { intros p Hp. cbn. apply elem_of_list_to_map_1'; [|apply list_elem_of_fmap; by exists p]. intros y (q & E & _)%list_elem_of_fmap. injection E as E ->. by apply (inj ptr) in E. }
  split; [|split].
  - intros a l [-> Ha]%fresh_lookup. split; [apply NoDup_singleton|]. split; [|done]. split; [by apply Hn|by apply (Hn a)].
  - intros a b la lb Hab [-> _]%fresh_lookup [-> _]%fresh_lookup p ->%list_elem_of_singleton. set_solver.
  - cbn. set_solver.
Qed.

(** Two timers. *)
Definition sample_its : its := Its 250 250 0 0 20 10 6 1000000 4096000000 [0; 0; 0; 0].
Definition sample_ps : list Z := 16 :: 48 :: ((fun n => bucket_p 1000 (Z.of_nat n)) <$> seq 0 1024).
Definition sample_wheel : wheel := Wheel (fresh_links base_ptr sample_ps) sample_its (<[500 := Timer 0 16]> {[501 := Timer 0 48]}).

Lemma sample_holds : wheel_holds base_ptr 1000 sample_wheel {[500; 501]} ∅.
Proof.
  assert (Ht : forall ts t, w_timers sample_wheel !! ts = Some t -> (ts = 500 /\ statep t = 16 \/ ts = 501 /\ statep t = 48)).
  { cbn. intros ts t [[<- <-]|[_ [<- <-]%lookup_singleton_Some]]%lookup_insert_Some; auto. }
  assert (wheel_ok base_ptr 1000 None None sample_wheel (fresh_lists sample_ps) ∅) as H.
  { constructor.
    - apply fresh_represents. apply _.
    - intros i Hi. exists []. apply fresh_lookup. split; [done|]. do 2 apply list_elem_of_further. apply list_elem_of_fmap. exists (Z.to_nat i).
      change CI_IPTIME_WHEELSIZE with 1024 in Hi. split; [f_equal; lia|]. apply elem_of_seq. lia.
    - reflexivity.
    - intros b Hb Hn. destruct Hn. apply fresh_lookup. split; [done|]. do 2 apply list_elem_of_further. apply list_elem_of_fmap. exists (Z.to_nat b).
      unfold CI_IPTIME_BUCKETS in Hb. split; [f_equal; lia|]. apply elem_of_seq. lia.
    - intros b Hb _ _. destruct (mask_word [0; 0; 0; 0] b eq_refl Hb) as [v Hv]. unfold busy. cbn [busy_mask w_its sample_wheel sample_its]. rewrite Hv.
      apply list_elem_of_lookup_2 in Hv. assert (v = 0) as -> by set_solver. apply Z.testbit_0_l.
    - intros b l ts t Hb [-> _]%fresh_lookup. set_solver.
    - intros ts t Hts _. rewrite lookup_empty. apply fresh_lookup. split; [done|]. destruct (Ht ts t Hts) as [[_ ->]|[_ ->]]; [apply list_elem_of_here|apply list_elem_of_further, list_elem_of_here].
    - intros ts t [=].
    - intros ts t i Hts Hi. unfold bucket_p. destruct (Ht ts t Hts) as [[_ ->]|[_ ->]]; lia.
    - intros ts1 t1 ts2 t2 H1 H2 E. destruct (Ht _ _ H1) as [[-> E1]|[-> E1]], (Ht _ _ H2) as [[-> E2]|[-> E2]]; congruence. }
  split; [unfold sample_wheel; cbn [w_timers]; rewrite dom_insert_L, dom_singleton_L; set_solver|]. exists (fresh_lists sample_ps). split; [exact H|exact (mask_is_exact base_ptr 1000 _ _ _ H)].
Qed.

Lemma timer_wheel_refines_witness :
  (exists w' s', run_timer_calls (wheel_ops base_ptr (fun a => a - 4096) 1000 (add_to_wheel base_ptr (fun a => a - 4096) 1000))
     [CSet 500 251; CPending 500; CModify 500 300; CSet 501 252; CClear 500; CPending 500] sample_wheel = (w', Ok [false; true; false; false; false; false]) /\
     mask_exact 1000 w' s' /\ wheel_ok base_ptr 1000 None None w' s' {[501 := 252]}) /\
  (exists w', run_timer_calls (wheel_ops base_ptr (fun a => a - 4096) 1000 (add_to_wheel base_ptr (fun a => a - 4096) 1000)) [CSet 500 251; CSet 500 252] sample_wheel = (w', Abort)).
Proof.
  assert (Hback : forall p, base_ptr p - 4096 = p) by (intros p; unfold base_ptr; lia).
  pose proof (add_to_wheel_ok base_ptr (fun a => a - 4096) 1000 Hback) as HT.
  assert (Hin : (500 : Z) ∈ ({[500; 501]} : gset Z) /\ (501 : Z) ∈ ({[500; 501]} : gset Z)) by set_solver. destruct Hin as [H1 H2]. split.
  - pose proof (timer_wheel_refines base_ptr (fun a => a - 4096) 1000 (add_to_wheel base_ptr (fun a => a - 4096) 1000) sample_wheel {[500; 501]} ∅
      [CSet 500 251; CPending 500; CModify 500 300; CSet 501 252; CClear 500; CPending 500] Hback sample_holds) as H.
    assert (timer_specs ∅ [CSet 500 251; CPending 500; CModify 500 300; CSet 501 252; CClear 500; CPending 500] = Some ({[501 := 252]}, [false; true; false; false; false; false])) as E by (vm_compute; reflexivity).
    rewrite E in H. destruct H as (w' & s' & R & _ & Hok & Hm & _); [|exists w', s'; split; [exact R|split; [exact Hm|exact Hok]]].
    do 6 (apply Forall_cons; split; [cbn [call_ok]; first [exact H1|split; [first [exact H1|exact H2]|lia]]|]). apply Forall_nil. exact I.
  - pose proof (timer_wheel_refines base_ptr (fun a => a - 4096) 1000 (add_to_wheel base_ptr (fun a => a - 4096) 1000) sample_wheel {[500; 501]} ∅
      [CSet 500 251; CSet 500 252] Hback sample_holds) as H.
    assert (timer_specs ∅ [CSet 500 251; CSet 500 252] = None) as E by (vm_compute; reflexivity). rewrite E in H. apply H.
    do 2 (apply Forall_cons; split; [cbn [call_ok]; split; [exact H1|lia]|]). apply Forall_nil. exact I.
Defined.
