(* ===== verification/TcpTimers.v ===== *)
(** * TcpTimers: the timers of a TCP connection ([ci/internal/ip.h])

    The retransmission, delayed-acknowledgement, keep-alive, zero-window and path-MTU timers
    of a connection, on the operations of any timers that implement a map of pending timers
    ([IpTimer.Timers]). *)

From Stdlib Require Import ZArith Lia Bool.
From stdpp Require Import base gmap sets list.
From S2P Require Import Prelude PktQueue AcceptQ TcpSeq Tcp IpTime IpTimer DLList.

Definition CI_TCPT_FLAG_TAIL_DROP_TIMING : Z := 0x80000.
Definition CI_SOCK_FLAG_KALIVE : Z := 0x2.
Definition CI_TCP_DELACK_SOON_FLAG : Z := 0x8000.
Definition CI_TCP_ACKS_PENDING_MASK : Z := 0x7fff.
Definition CI_PMTU_STOP_TIMER : Z := 0.

(** The part of [ci_tcp_state] that the operations use ([k_state] is [s.b.state]); [k_retrans_empty] says
    that the queue of segments not acknowledged is empty. *)
Record conn := Conn {
  k_state : Z; k_retrans_empty : bool; k_s_flags : Z; k_rto : Z; k_ka_time : Z; k_zwin_acks : Z; k_zwin_probes : Z; k_local_peer : Z;
  rto_tid : Z; delack_tid : Z; kalive_tid : Z; zwin_tid : Z; pmtu_tid : Z;
  k_tcpflags : Z; k_acks_pending : Z; k_ka_probes : Z }.

Definition set_k_tcpflags v k := Conn (k_state k) (k_retrans_empty k) (k_s_flags k) (k_rto k) (k_ka_time k) (k_zwin_acks k) (k_zwin_probes k) (k_local_peer k) (rto_tid k) (delack_tid k) (kalive_tid k) (zwin_tid k) (pmtu_tid k) v (k_acks_pending k) (k_ka_probes k).
Definition set_k_acks_pending v k := Conn (k_state k) (k_retrans_empty k) (k_s_flags k) (k_rto k) (k_ka_time k) (k_zwin_acks k) (k_zwin_probes k) (k_local_peer k) (rto_tid k) (delack_tid k) (kalive_tid k) (zwin_tid k) (pmtu_tid k) (k_tcpflags k) v (k_ka_probes k).
Definition set_k_ka_probes v k := Conn (k_state k) (k_retrans_empty k) (k_s_flags k) (k_rto k) (k_ka_time k) (k_zwin_acks k) (k_zwin_probes k) (k_local_peer k) (rto_tid k) (delack_tid k) (kalive_tid k) (zwin_tid k) (pmtu_tid k) (k_tcpflags k) (k_acks_pending k) v.

Definition ci_tcp_retransq_is_empty (k : conn) : bool := k_retrans_empty k && negb (bits_of (k_tcpflags k) CI_TCPT_FLAG_FIN_PENDING).

Section Ops.
Context {W : Type} (o : timer_ops W).
(** [tconst_delack] and the option [delack_thresh]. *)
Variables (tconst_delack delack_thresh : Z).

Abbreviation op := (cm (W * conn)).

Definition on_timers {A} (c : cm W A) : op A := fun '(w, k) => let '(w', r) := c w in ((w', k), r).
Definition conn_of : op conn := fun '(w, k) => ((w, k), Ok k).
Definition on_conn (f : conn -> conn) : op unit := modify (fun '(w, k) => (w, f k)).
Definition ci_tcp_time_now : op Z := fun '(w, k) => ((w, k), Ok (op_now o w)).

(** The assertions of the retransmission timer. *)
Definition rto_asserts : op unit :=
  let! k := conn_of in
  ci_assert (negb (ci_tcp_retransq_is_empty k)) ;;;
  ci_assert (negb (bits_of (k_state k) CI_TCP_STATE_NO_TIMERS)).

Definition ci_tcp_rto_check_and_set : op unit :=
  rto_asserts ;;;
  let! k := conn_of in
  let! p := on_timers (op_pending o (rto_tid k)) in
  if negb p then
    on_conn (fun k => set_k_tcpflags (Z.ldiff (k_tcpflags k) CI_TCPT_FLAG_TAIL_DROP_TIMING) k) ;;;
    let! now := ci_tcp_time_now in
    on_timers (op_set o (rto_tid k) (u32 (now + k_rto k)))
  else ret tt.

Definition ci_tcp_rto_clear : op unit := let! k := conn_of in on_timers (op_clear o (rto_tid k)).

Definition ci_tcp_rto_restart : op unit :=
  rto_asserts ;;;
  on_conn (fun k => set_k_tcpflags (Z.ldiff (k_tcpflags k) CI_TCPT_FLAG_TAIL_DROP_TIMING) k) ;;;
  let! k := conn_of in let! now := ci_tcp_time_now in
  on_timers (op_modify o (rto_tid k) (u32 (now + k_rto k))).

Definition ci_tcp_rto_set_with_timeout (timeout : Z) : op unit :=
  rto_asserts ;;;
  let! k := conn_of in let! now := ci_tcp_time_now in
  on_timers (op_set o (rto_tid k) (u32 (now + timeout))).

Definition ci_tcp_rto_set : op unit := let! k := conn_of in ci_tcp_rto_set_with_timeout (k_rto k).

Definition ci_tcp_delack_check_and_set : op unit :=
  let! k := conn_of in
  ci_assert (negb (bits_of (k_state k) CI_TCP_STATE_NO_TIMERS)) ;;;
  let! p := on_timers (op_pending o (delack_tid k)) in
  if negb p then let! now := ci_tcp_time_now in on_timers (op_set o (delack_tid k) (u32 (now + tconst_delack))) else ret tt.

Definition ci_tcp_delack_clear : op unit := let! k := conn_of in on_timers (op_clear o (delack_tid k)).

Definition ci_tcp_delack_soon : op unit :=
  let! k := conn_of in
  ci_assert (negb (bits_of (k_state k) CI_TCP_STATE_NO_TIMERS)) ;;;
  ci_assert (delack_thresh <? Z.land (k_acks_pending k) CI_TCP_ACKS_PENDING_MASK) ;;;
  on_conn (fun k => set_k_acks_pending (u16 (Z.lor (k_acks_pending k) CI_TCP_DELACK_SOON_FLAG)) k) ;;;
  let! p := on_timers (op_pending o (delack_tid k)) in
  let! now := ci_tcp_time_now in
  if p then on_timers (op_modify o (delack_tid k) (u32 (now + 1))) else on_timers (op_set o (delack_tid k) (u32 (now + 1))).

Definition ci_tcp_kalive_restart (t : Z) : op unit :=
  let! k := conn_of in
  ci_assert (negb (k_state k =? CI_TCP_CLOSED) && negb (k_state k =? CI_TCP_LISTEN)) ;;;
  if bits_of (k_s_flags k) CI_SOCK_FLAG_KALIVE then
    let! now := ci_tcp_time_now in on_timers (op_modify o (kalive_tid k) (u32 (now + t)))
  else ci_assert (k_ka_probes k =? 0).

Definition ci_tcp_kalive_idle_get : op Z := let! k := conn_of in ret (k_ka_time k).

Definition ci_tcp_kalive_check_and_clear : op unit := let! k := conn_of in on_timers (op_clear o (kalive_tid k)).

Definition ci_tcp_kalive_reset : op unit :=
  let! k := conn_of in
  (if negb (k_ka_probes k =? 0) then let! t := ci_tcp_kalive_idle_get in ci_tcp_kalive_restart t else ret tt) ;;;
  on_conn (set_k_ka_probes 0).

(** A shift by the width or more is undefined. *)
Definition shifted (v n : Z) : op Z := if n <? 32 then ret (u32 (Z.shiftl v n)) else stop Undef.

Definition ci_tcp_zwin_set : op unit :=
  let! k := conn_of in
  ci_assert (negb (bits_of (k_state k) CI_TCP_STATE_NO_TIMERS)) ;;;
  ci_assert (OO_SP_IS_NULL (k_local_peer k)) ;;;
  let! t := (if k_zwin_probes k =? 0 then shifted (k_rto k) (k_zwin_acks k) else shifted (k_rto k) (k_zwin_probes k)) in
  ci_assert (TIME_GT t 0) ;;;
  let! now := ci_tcp_time_now in
  on_timers (op_set o (zwin_tid k) (u32 (now + t))).

(** The timer is that of the path's [ci_pmtu_state_t]. *)
Definition ci_pmtu_discover_timer (timeout : Z) : op unit :=
  let! k := conn_of in
  on_timers (op_clear o (pmtu_tid k)) ;;;
  if negb (timeout =? CI_PMTU_STOP_TIMER) then
    let! now := ci_tcp_time_now in on_timers (op_set o (pmtu_tid k) (u32 (now + timeout)))
  else ret tt.
End Ops.

(** ** What each operation means for the map of pending timers *)

Inductive tcp_timer_op :=
  | RtoCheckAndSet | RtoClear | RtoRestart | RtoSetWithTimeout (timeout : Z) | RtoSet
  | DelackCheckAndSet | DelackClear | DelackSoon
  | KaliveRestart (t : Z) | KaliveCheckAndClear | KaliveReset
  | ZwinSet | PmtuDiscover (timeout : Z).

Section Spec.
Variables (tconst_delack delack_thresh now : Z).

Definition allowed (k : conn) : bool := negb (bits_of (k_state k) CI_TCP_STATE_NO_TIMERS).
Definition idle (m : gmap Z Z) (tid : Z) : bool := bool_decide (m !! tid = None).
Definition zwin_shift (k : conn) : Z := if k_zwin_probes k =? 0 then k_zwin_acks k else k_zwin_probes k.
Definition zwin_time (k : conn) : Z := u32 (k_rto k * 2 ^ zwin_shift k).
Definition keeps_alive (k : conn) : bool := bits_of (k_s_flags k) CI_SOCK_FLAG_KALIVE.
Definition open_conn (k : conn) : bool := negb (k_state k =? CI_TCP_CLOSED) && negb (k_state k =? CI_TCP_LISTEN).

(** When the assertions hold. *)
Definition may (m : gmap Z Z) (k : conn) (c : tcp_timer_op) : bool :=
  match c with
  | RtoCheckAndSet | RtoRestart => negb (ci_tcp_retransq_is_empty k) && allowed k
  | RtoSetWithTimeout _ | RtoSet => negb (ci_tcp_retransq_is_empty k) && allowed k && idle m (rto_tid k)
  | DelackCheckAndSet => allowed k
  | DelackSoon => allowed k && (delack_thresh <? Z.land (k_acks_pending k) CI_TCP_ACKS_PENDING_MASK)
  | KaliveRestart _ => open_conn k && (keeps_alive k || (k_ka_probes k =? 0))
  | KaliveReset => (k_ka_probes k =? 0) || (open_conn k && keeps_alive k)
  | ZwinSet => allowed k && OO_SP_IS_NULL (k_local_peer k) && (0 <? i32 (zwin_time k)) && idle m (zwin_tid k)
  | RtoClear | DelackClear | KaliveCheckAndClear | PmtuDiscover _ => true
  end.

(** The one timer that the operation is about. *)
Definition timer_of (k : conn) (c : tcp_timer_op) : Z :=
  match c with
  | RtoCheckAndSet | RtoClear | RtoRestart | RtoSetWithTimeout _ | RtoSet => rto_tid k
  | DelackCheckAndSet | DelackClear | DelackSoon => delack_tid k
  | KaliveRestart _ | KaliveCheckAndClear | KaliveReset => kalive_tid k
  | ZwinSet => zwin_tid k
  | PmtuDiscover _ => pmtu_tid k
  end.

Definition after (t : Z) : option Z := Some (u32 (now + t)).

(** When it fires afterwards, if at all; [old] is when it did before. *)
Definition deadline (old : option Z) (k : conn) (c : tcp_timer_op) : option Z :=
  match c with
  | RtoCheckAndSet => if old is Some t then Some t else after (k_rto k)
  | RtoRestart | RtoSet => after (k_rto k)
  | RtoSetWithTimeout t => after t
  | DelackCheckAndSet => if old is Some t then Some t else after tconst_delack
  | DelackSoon => after 1
  | KaliveRestart t => if keeps_alive k then after t else old
  | KaliveReset => if k_ka_probes k =? 0 then old else after (k_ka_time k)
  | ZwinSet => after (zwin_time k)
  | PmtuDiscover t => if t =? CI_PMTU_STOP_TIMER then None else after t
  | RtoClear | DelackClear | KaliveCheckAndClear => None
  end.

(** The fields of the connection that change. *)
Definition conn_after (old : option Z) (k : conn) (c : tcp_timer_op) : conn :=
  let timing k := set_k_tcpflags (Z.ldiff (k_tcpflags k) CI_TCPT_FLAG_TAIL_DROP_TIMING) k in
  match c with
  | RtoCheckAndSet => if old is Some _ then k else timing k
  | RtoRestart => timing k
  | DelackSoon => set_k_acks_pending (u16 (Z.lor (k_acks_pending k) CI_TCP_DELACK_SOON_FLAG)) k
  | KaliveReset => set_k_ka_probes 0 k
  | _ => k
  end.

Definition set_deadline (m : gmap Z Z) (k : conn) (c : tcp_timer_op) : gmap Z Z := partial_alter (fun old => deadline old k c) (timer_of k c) m.

Fixpoint tcp_timer_specs (m : gmap Z Z) (k : conn) (cs : list tcp_timer_op) : option (gmap Z Z * conn) :=
  match cs with
  | [] => Some (m, k)
  | c :: cs' => if may m k c then tcp_timer_specs (set_deadline m k c) (conn_after (m !! timer_of k c) k c) cs' else None
  end.
End Spec.

(** The timers of the connection exist; the back-off of probes is within the width of the shift. *)
Record conn_ok (D : gset Z) (k : conn) : Prop := {
  co_tids : rto_tid k ∈ D /\ delack_tid k ∈ D /\ kalive_tid k ∈ D /\ zwin_tid k ∈ D /\ pmtu_tid k ∈ D;
  co_shift : 0 <= zwin_shift k < 32 }.

Section Refines.
Context {W} (o : timer_ops W) {holds} `{HT : !Timers o holds}.
Variables (tconst_delack delack_thresh : Z).

Definition run_tcp_timer (c : tcp_timer_op) : cm (W * conn) unit :=
  match c with
  | RtoCheckAndSet => ci_tcp_rto_check_and_set o
  | RtoClear => ci_tcp_rto_clear o
  | RtoRestart => ci_tcp_rto_restart o
  | RtoSetWithTimeout t => ci_tcp_rto_set_with_timeout o t
  | RtoSet => ci_tcp_rto_set o
  | DelackCheckAndSet => ci_tcp_delack_check_and_set o tconst_delack
  | DelackClear => ci_tcp_delack_clear o
  | DelackSoon => ci_tcp_delack_soon o delack_thresh
  | KaliveRestart t => ci_tcp_kalive_restart o t
  | KaliveCheckAndClear => ci_tcp_kalive_check_and_clear o
  | KaliveReset => ci_tcp_kalive_reset o
  | ZwinSet => ci_tcp_zwin_set o
  | PmtuDiscover t => ci_pmtu_discover_timer o t
  end.

Fixpoint run_tcp_timers (cs : list tcp_timer_op) : cm (W * conn) unit :=
  match cs with [] => ret tt | c :: cs' => run_tcp_timer c ;;; run_tcp_timers cs' end.

Lemma conn_run {B} (f : conn -> cm (W * conn) B) w k : bind conn_of f (w, k) = f k (w, k).
Proof. done. Qed.

Lemma now_run {B} (f : Z -> cm (W * conn) B) w k : bind (ci_tcp_time_now o) f (w, k) = f (op_now o w) (w, k).
Proof. done. Qed.

Lemma on_conn_run {B} (f : unit -> cm (W * conn) B) g w k : bind (on_conn g) f (w, k) = f tt (w, g k).
Proof. done. Qed.

Lemma on_timers_ok {A} (c : cm W A) w w' r k : c w = (w', Ok r) -> on_timers c (w, k) = ((w', k), Ok r).
Proof. intros E. unfold on_timers. by rewrite E. Qed.

Lemma on_timers_run {A B} (c : cm W A) (f : A -> cm (W * conn) B) w w' r k : c w = (w', Ok r) -> bind (on_timers c) f (w, k) = f r (w', k).
Proof. intros E. unfold bind. by rewrite (on_timers_ok c w w' r k E). Qed.

Lemma assert_run {B} b (f : unit -> cm (W * conn) B) s : bind (ci_assert b) f s = if b then f tt s else (s, Abort).
Proof. by destruct b. Qed.

Lemma rto_asserts_run {B} (f : unit -> cm (W * conn) B) w k :
  bind rto_asserts f (w, k) = if negb (ci_tcp_retransq_is_empty k) && allowed k then f tt (w, k) else ((w, k), Abort).
Proof. unfold rto_asserts, allowed. rewrite bind_assoc, conn_run, bind_assoc, assert_run. destruct (ci_tcp_retransq_is_empty k); [done|]. cbn [negb andb]. by rewrite assert_run. Qed.

Abbreviation new_deadline w := (set_deadline tconst_delack (op_now o w)).

Lemma deadline_is w m k c v : deadline tconst_delack (op_now o w) (m !! timer_of k c) k c = v -> new_deadline w m k c = partial_alter (fun _ => v) (timer_of k c) m.
Proof. intros E. apply partial_alter_ext. intros x Hx. by rewrite <- E, Hx. Qed.

Lemma deadline_kept w m k c : deadline tconst_delack (op_now o w) (m !! timer_of k c) k c = m !! timer_of k c -> new_deadline w m k c = m.
Proof. intros E. rewrite (deadline_is w m k c _ E). apply partial_alter_self. Qed.

(** What a call does when its assertions hold, and that it stops when they do not. *)
Definition meets (w : W) (D : gset Z) (m : gmap Z Z) (k : conn) (c : tcp_timer_op) : Prop :=
  if may delack_thresh m k c then
    exists w', run_tcp_timer c (w, k) = ((w', conn_after (m !! timer_of k c) k c), Ok tt) /\ holds w' D (new_deadline w m k c) /\ op_now o w' = op_now o w
  else exists s', run_tcp_timer c (w, k) = (s', Abort).

Section Calls.
Variables (w : W) (D : gset Z) (m : gmap Z Z) (k : conn).
Hypothesis H : holds w D m.

Lemma now_range v : 0 <= u32 v < 2 ^ 32.
Proof. apply Z.mod_pos_bound. lia. Qed.

Lemma meets_clear c : timer_of k c ∈ D -> run_tcp_timer c (w, k) = on_timers (op_clear o (timer_of k c)) (w, k) -> may delack_thresh m k c = true ->
  deadline tconst_delack (op_now o w) (m !! timer_of k c) k c = None -> conn_after (m !! timer_of k c) k c = k -> meets w D m k c.
Proof.
  intros Hd E Hm Hn Hk. unfold meets. rewrite Hm, E, Hk. destruct (holds_clear w D m _ H Hd) as (w' & E' & H' & En). exists w'. rewrite (deadline_is w m k c _ Hn).
  split; [by apply on_timers_ok|done].
Qed.

(** Setting the timer from connection [k'] at the end of a call. *)
Lemma ends_set c k' v : timer_of k c ∈ D -> m !! timer_of k c = None -> run_tcp_timer c (w, k) = on_timers (op_set o (timer_of k c) (u32 v)) (w, k') -> may delack_thresh m k c = true ->
  deadline tconst_delack (op_now o w) (m !! timer_of k c) k c = Some (u32 v) -> conn_after (m !! timer_of k c) k c = k' -> meets w D m k c.
Proof.
  intros Hd Hnone E Hm Hn Hk. unfold meets. rewrite Hm, E, Hk. destruct (holds_set w D m _ (u32 v) H Hd Hnone (now_range v)) as (w' & E' & H' & En). exists w'.
  rewrite (deadline_is w m k c _ Hn). split; [by apply on_timers_ok|done].
Qed.

Lemma ends_modify c k' v : timer_of k c ∈ D -> run_tcp_timer c (w, k) = on_timers (op_modify o (timer_of k c) (u32 v)) (w, k') -> may delack_thresh m k c = true ->
  deadline tconst_delack (op_now o w) (m !! timer_of k c) k c = Some (u32 v) -> conn_after (m !! timer_of k c) k c = k' -> meets w D m k c.
Proof.
  intros Hd E Hm Hn Hk. unfold meets. rewrite Hm, E, Hk. destruct (holds_modify w D m _ (u32 v) H Hd (now_range v)) as (w' & E' & H' & En). exists w'.
  rewrite (deadline_is w m k c _ Hn). split; [by apply on_timers_ok|done].
Qed.

Lemma ends_kept c k' : run_tcp_timer c (w, k) = ((w, k'), Ok tt) -> may delack_thresh m k c = true ->
  deadline tconst_delack (op_now o w) (m !! timer_of k c) k c = m !! timer_of k c -> conn_after (m !! timer_of k c) k c = k' -> meets w D m k c.
Proof. intros E Hm Hn Hk. unfold meets. rewrite Hm, E, Hk. exists w. by rewrite (deadline_kept w m k c Hn). Qed.

Lemma ends_abort c s : run_tcp_timer c (w, k) = (s, Abort) -> may delack_thresh m k c = false -> meets w D m k c.
Proof. intros E Hm. unfold meets. rewrite Hm, E. by exists s. Qed.

(** Setting a pending timer fails the assertion. *)
Lemma ends_busy c k' v : timer_of k c ∈ D -> m !! timer_of k c <> None -> run_tcp_timer c (w, k) = on_timers (op_set o (timer_of k c) v) (w, k') -> may delack_thresh m k c = false -> meets w D m k c.
Proof.
  intros Hd Hs E Hm. apply (ends_abort c (w, k')); [|done]. rewrite E. unfold on_timers. by rewrite (holds_busy w D m _ v H Hd) by (by apply not_eq_None_Some).
Qed.

Lemma pending_run {B} tid (f : bool -> cm (W * conn) B) : tid ∈ D -> bind (on_timers (op_pending o tid)) f (w, k) = f (bool_decide (is_Some (m !! tid))) (w, k).
Proof. intros Hd. by apply on_timers_run, (holds_pending w D m). Qed.
End Calls.

Lemma rto_set_meets w D m k c t : holds w D m -> conn_ok D k -> (c = RtoSetWithTimeout t \/ c = RtoSet /\ t = k_rto k) -> meets w D m k c.
Proof.
  intros H [(Hr & _) _] Hc. assert (Hrun : run_tcp_timer c (w, k) = ci_tcp_rto_set_with_timeout o t (w, k)) by (destruct Hc as [->|[-> ->]]; done).
  assert (Hmay : may delack_thresh m k c = negb (ci_tcp_retransq_is_empty k) && allowed k && idle m (rto_tid k)) by (destruct Hc as [->|[-> _]]; done).
  assert (Ht : timer_of k c = rto_tid k) by (destruct Hc as [->|[-> _]]; done). unfold ci_tcp_rto_set_with_timeout in Hrun. rewrite rto_asserts_run in Hrun.
  destruct (negb (ci_tcp_retransq_is_empty k) && allowed k); [|by apply (ends_abort _ _ _ _ c (w, k))]. rewrite conn_run, now_run in Hrun. rewrite <- Ht in Hr, Hrun.
  unfold idle in Hmay. rewrite <- Ht in Hmay. destruct (decide (m !! timer_of k c = None)) as [Hn|Hn].
  - rewrite bool_decide_true in Hmay by done. apply (ends_set w D m k H c k (op_now o w + t)); try done; destruct Hc as [->|[-> ->]]; done.
  - rewrite bool_decide_false in Hmay by done. by apply (ends_busy w D m k H c k (u32 (op_now o w + t))).
Qed.

Lemma rto_check_meets w D m k : holds w D m -> conn_ok D k -> meets w D m k RtoCheckAndSet.
Proof.
  intros H [(Hr & _) _]. assert (Hrun : run_tcp_timer RtoCheckAndSet (w, k) = ci_tcp_rto_check_and_set o (w, k)) by done. unfold ci_tcp_rto_check_and_set in Hrun. rewrite rto_asserts_run in Hrun.
  destruct (negb (ci_tcp_retransq_is_empty k) && allowed k) eqn:Hg; [|by apply (ends_abort _ _ _ _ _ (w, k))]. rewrite conn_run, (pending_run w D m k H) in Hrun by done.
  destruct (m !! rto_tid k) as [t|] eqn:Em; cbn [bool_decide negb] in Hrun.
  - apply (ends_kept w D m k H _ k); cbn [may deadline timer_of conn_after]; try done; by rewrite Em.
  - apply (ends_set w D m k H _ (set_k_tcpflags (Z.ldiff (k_tcpflags k) CI_TCPT_FLAG_TAIL_DROP_TIMING) k) (op_now o w + k_rto k)); cbn [may deadline timer_of conn_after]; try done; by rewrite Em.
Qed.

Lemma delack_check_meets w D m k : holds w D m -> conn_ok D k -> meets w D m k DelackCheckAndSet.
Proof.
  intros H [(_ & Hr & _) _]. assert (Hrun : run_tcp_timer DelackCheckAndSet (w, k) = ci_tcp_delack_check_and_set o tconst_delack (w, k)) by done.
  unfold ci_tcp_delack_check_and_set in Hrun. rewrite conn_run, assert_run in Hrun. change (negb (bits_of (k_state k) CI_TCP_STATE_NO_TIMERS)) with (allowed k) in Hrun.
  destruct (allowed k) eqn:Hg; [|by apply (ends_abort _ _ _ _ _ (w, k))]. rewrite (pending_run w D m k H) in Hrun by done.
  destruct (m !! delack_tid k) as [t|] eqn:Em; cbn [bool_decide negb] in Hrun.
  - apply (ends_kept w D m k H _ k); cbn [may deadline timer_of conn_after]; try done; by rewrite Em.
  - apply (ends_set w D m k H _ k (op_now o w + tconst_delack)); cbn [may deadline timer_of conn_after]; try done; by rewrite Em.
Qed.

Lemma delack_soon_meets w D m k : holds w D m -> conn_ok D k -> meets w D m k DelackSoon.
Proof.
  intros H [(_ & Hr & _) _]. assert (Hrun : run_tcp_timer DelackSoon (w, k) = ci_tcp_delack_soon o delack_thresh (w, k)) by done.
  unfold ci_tcp_delack_soon in Hrun. rewrite conn_run, !assert_run in Hrun. change (negb (bits_of (k_state k) CI_TCP_STATE_NO_TIMERS)) with (allowed k) in Hrun.
  destruct (allowed k) eqn:Hg; [|by apply (ends_abort _ _ _ _ _ (w, k)); cbn [may]; rewrite ?Hg].
  destruct (delack_thresh <? Z.land (k_acks_pending k) CI_TCP_ACKS_PENDING_MASK) eqn:Hth; [|by apply (ends_abort _ _ _ _ _ (w, k)); cbn [may]; rewrite ?Hg, ?Hth].
  rewrite on_conn_run in Hrun. set (k' := set_k_acks_pending _ k) in Hrun. rewrite (pending_run w D m k' H), now_run in Hrun by done.
  assert (Hmay : may delack_thresh m k DelackSoon = true) by (cbn [may]; by rewrite Hg, Hth).
  destruct (m !! delack_tid k) as [t|] eqn:Em; cbn [bool_decide] in Hrun; [by apply (ends_modify w D m k H _ k' (op_now o w + 1))|by apply (ends_set w D m k H _ k' (op_now o w + 1))].
Qed.

Lemma kalive_restart_run t w k : ci_tcp_kalive_restart o t (w, k) =
  if open_conn k then if keeps_alive k then on_timers (op_modify o (kalive_tid k) (u32 (op_now o w + t))) (w, k) else if k_ka_probes k =? 0 then ((w, k), Ok tt) else ((w, k), Abort)
  else ((w, k), Abort).
Proof.
  unfold ci_tcp_kalive_restart. rewrite conn_run, assert_run. fold (open_conn k) (keeps_alive k). destruct (open_conn k); [|done]. destruct (keeps_alive k); [by rewrite now_run|].
  by destruct (k_ka_probes k =? 0).
Qed.

Lemma kalive_restart_meets w D m k t : holds w D m -> conn_ok D k -> meets w D m k (KaliveRestart t).
Proof.
  intros H [(_ & _ & Hr & _) _]. assert (Hrun : run_tcp_timer (KaliveRestart t) (w, k) = ci_tcp_kalive_restart o t (w, k)) by done. rewrite kalive_restart_run in Hrun.
  destruct (open_conn k) eqn:Ho; [|by apply (ends_abort _ _ _ _ _ (w, k)); cbn [may]; rewrite ?Ho].
  destruct (keeps_alive k) eqn:Ha; [by apply (ends_modify w D m k H _ k (op_now o w + t)); cbn [may deadline]; rewrite ?Ho, ?Ha|].
  destruct (k_ka_probes k =? 0) eqn:Hp; [apply (ends_kept w D m k H _ k)|apply (ends_abort _ _ _ _ _ (w, k))]; cbn [may deadline]; rewrite ?Ho, ?Ha, ?Hp; done.
Qed.

Lemma kalive_reset_meets w D m k : holds w D m -> conn_ok D k -> meets w D m k KaliveReset.
Proof.
  intros H [(_ & _ & Hr & _) _]. assert (Hrun : run_tcp_timer KaliveReset (w, k) = ci_tcp_kalive_reset o (w, k)) by done. unfold ci_tcp_kalive_reset in Hrun. rewrite conn_run in Hrun.
  destruct (k_ka_probes k =? 0) eqn:Hp; cbn [negb] in Hrun.
  { by apply (ends_kept w D m k H _ (set_k_ka_probes 0 k)); cbn [may deadline]; rewrite ?Hp. }
  unfold ci_tcp_kalive_idle_get in Hrun. rewrite bind_assoc, bind_assoc, conn_run, bind_ret_l in Hrun. unfold bind at 1 in Hrun. rewrite kalive_restart_run in Hrun.
  destruct (open_conn k) eqn:Ho; [|by apply (ends_abort _ _ _ _ _ (w, k)); cbn [may]; rewrite ?Ho, ?Hp].
  destruct (keeps_alive k) eqn:Ha; [|rewrite Hp in Hrun; by apply (ends_abort _ _ _ _ _ (w, k)); cbn [may]; rewrite ?Ho, ?Ha, ?Hp].
  destruct (holds_modify w D m (kalive_tid k) _ H Hr (now_range (op_now o w + k_ka_time k))) as (w' & E' & H' & En).
  unfold meets. cbn [may]. rewrite Ho, Ha, orb_true_r. exists w'. rewrite (on_timers_ok _ _ _ _ k E') in Hrun. split; [by rewrite Hrun|].
  rewrite (deadline_is w m k KaliveReset (Some (u32 (op_now o w + k_ka_time k)))) by (cbn [deadline]; by rewrite Hp). done.
Qed.

Lemma zwin_meets w D m k : holds w D m -> conn_ok D k -> meets w D m k ZwinSet.
Proof.
  intros H [(_ & _ & _ & Hr & _) Hsh]. assert (Hrun : run_tcp_timer ZwinSet (w, k) = ci_tcp_zwin_set o (w, k)) by done. unfold ci_tcp_zwin_set in Hrun.
  rewrite conn_run, !assert_run in Hrun. change (negb (bits_of (k_state k) CI_TCP_STATE_NO_TIMERS)) with (allowed k) in Hrun.
  destruct (allowed k) eqn:Hg; [|by apply (ends_abort _ _ _ _ _ (w, k)); cbn [may]; rewrite ?Hg].
  destruct (OO_SP_IS_NULL (k_local_peer k)) eqn:Hp; [|by apply (ends_abort _ _ _ _ _ (w, k)); cbn [may]; rewrite ?Hg, ?Hp].
  assert (Hs : (if k_zwin_probes k =? 0 then shifted (k_rto k) (k_zwin_acks k) else shifted (k_rto k) (k_zwin_probes k)) = @ret (W * conn) Z (zwin_time k)).
  { unfold zwin_time, zwin_shift, shifted in *. destruct (k_zwin_probes k =? 0); rewrite (proj2 (Z.ltb_lt _ _)) by lia; by rewrite Z.shiftl_mul_pow2 by lia. }
  rewrite Hs, bind_ret_l, assert_run in Hrun. unfold TIME_GT in Hrun. rewrite Z.sub_0_r in Hrun.
  destruct (0 <? i32 (zwin_time k)) eqn:Ht; [|by apply (ends_abort _ _ _ _ _ (w, k)); cbn [may]; rewrite ?Hg, ?Hp, ?Ht]. rewrite now_run in Hrun.
  destruct (decide (m !! zwin_tid k = None)) as [Hn|Hn].
  - by apply (ends_set w D m k H ZwinSet k (op_now o w + zwin_time k)); cbn [may]; unfold idle; rewrite ?Hg, ?Hp, ?Ht, ?bool_decide_true.
  - by apply (ends_busy w D m k H ZwinSet k (u32 (op_now o w + zwin_time k))); cbn [may]; unfold idle; rewrite ?Hg, ?Hp, ?Ht, ?bool_decide_false.
Qed.

Lemma pmtu_meets w D m k t : holds w D m -> conn_ok D k -> meets w D m k (PmtuDiscover t).
Proof.
  intros H [(_ & _ & _ & _ & Hr) _]. assert (Hrun : run_tcp_timer (PmtuDiscover t) (w, k) = ci_pmtu_discover_timer o t (w, k)) by done. unfold ci_pmtu_discover_timer in Hrun.
  rewrite conn_run in Hrun. destruct (holds_clear w D m (pmtu_tid k) H Hr) as (w1 & E1 & H1 & En1). rewrite (on_timers_run _ _ _ _ _ k E1) in Hrun. unfold meets. cbn [may].
  destruct (t =? CI_PMTU_STOP_TIMER) eqn:Ht; cbn [negb] in Hrun.
  - exists w1. split; [done|]. rewrite (deadline_is w m k (PmtuDiscover t) None) by (cbn [deadline]; by rewrite Ht). done.
  - rewrite now_run, En1 in Hrun. destruct (holds_set w1 D _ (pmtu_tid k) _ H1 Hr (lookup_delete_eq m (pmtu_tid k)) (now_range (op_now o w + t))) as (w2 & E2 & H2 & En2).
    exists w2. rewrite (on_timers_ok _ _ _ _ k E2) in Hrun. split; [done|]. rewrite (deadline_is w m k (PmtuDiscover t) (Some (u32 (op_now o w + t)))) by (cbn [deadline]; by rewrite Ht).
    rewrite insert_delete_eq in H2. split; [done|congruence].
Qed.

Lemma tcp_timer_meets w D m k c : holds w D m -> conn_ok D k -> meets w D m k c.
Proof.
  intros H Hk. pose proof Hk as [(H1 & H2 & H3 & H4 & H5) _]. destruct c as [| | |t| | | | |t| | | |t].
  - by apply rto_check_meets.
  - by apply (meets_clear w D m k H).
  - assert (Hrun : run_tcp_timer RtoRestart (w, k) = ci_tcp_rto_restart o (w, k)) by done. unfold ci_tcp_rto_restart in Hrun. rewrite rto_asserts_run in Hrun.
    destruct (negb (ci_tcp_retransq_is_empty k) && allowed k) eqn:Hg; [|by apply (ends_abort _ _ _ _ _ (w, k))]. rewrite on_conn_run, conn_run, now_run in Hrun.
    by apply (ends_modify w D m k H RtoRestart (set_k_tcpflags (Z.ldiff (k_tcpflags k) CI_TCPT_FLAG_TAIL_DROP_TIMING) k) (op_now o w + k_rto k)).
  - by apply (rto_set_meets w D m k _ t); [..|left].
  - by apply (rto_set_meets w D m k _ (k_rto k)); [..|right].
  - by apply delack_check_meets.
  - by apply (meets_clear w D m k H).
  - by apply delack_soon_meets.
  - by apply kalive_restart_meets.
  - by apply (meets_clear w D m k H).
  - by apply kalive_reset_meets.
  - by apply zwin_meets.
  - by apply pmtu_meets.
Qed.
End Refines.

(** C37: timers of a TCP connection.  On any timers that implement a map of pending timers, and so on the wheels,
    every sequence of the operations changes, call by call, only the timer
    that the operation is about, to the time it documents: [ci_tcp_rto_check_and_set] and
    [ci_tcp_delack_check_and_set] leave a pending timer, the restarting ones move it whether or not it
    was pending, [ci_tcp_delack_soon] makes it the next tick, the keep-alive timer moves only with the option set, the
    zero-window timer backs off with the probes, and the path-MTU timer is stopped or set again.  The
    calls stop exactly when an assertion fails: a timer in a state that allows none,
    a retransmission timer with nothing to retransmit, or setting a pending one.  The counter
    that the zero-window timer backs off by is taken to be below 32, which its 16 bits do not
    ensure: from 32 on the shift is undefined. *)
Theorem tcp_timers_refine {W} (o : timer_ops W) {holds} `{HT : !Timers o holds} tconst_delack delack_thresh w D m k cs : holds w D m -> conn_ok D k ->
  match tcp_timer_specs tconst_delack delack_thresh (op_now o w) m k cs with
  | Some (m', k') => exists w', run_tcp_timers o tconst_delack delack_thresh cs (w, k) = ((w', k'), Ok tt) /\ holds w' D m' /\ conn_ok D k'
  | None => exists s', run_tcp_timers o tconst_delack delack_thresh cs (w, k) = (s', Abort)
  end.
Proof.
  revert w m k. induction cs as [|c cs IH]; intros w m k H Hk; cbn [tcp_timer_specs run_tcp_timers]; [by exists w|].
  pose proof (tcp_timer_meets o tconst_delack delack_thresh w D m k c H Hk) as Hm. unfold meets in Hm. destruct (may delack_thresh m k c).
  - destruct Hm as (w1 & E & H1 & En). rewrite (bind_Ok _ _ _ _ _ E), <- En. apply IH; [by rewrite En|]. destruct Hk as [Ht Hs]. unfold zwin_shift in Hs. destruct c; cbn [conn_after]; try by constructor. by destruct (m !! _); constructor.
  - destruct Hm as (s' & E). exists s'. unfold bind. by rewrite E.
Qed.

Definition sample_conn : conn := Conn 0x301 false 2 200 7200 0 3 (-1) 500 501 500 501 500 0x80000 9 1.

(** On the wheels of [IpTimer]. *)
Lemma tcp_timers_refine_witness : exists w',
  run_tcp_timers (wheel_ops base_ptr (fun a => a - 4096) 1000 (add_to_wheel base_ptr (fun a => a - 4096) 1000)) 40 8 [RtoCheckAndSet; DelackCheckAndSet; DelackSoon; RtoRestart; DelackClear] (sample_wheel, sample_conn)
  = ((w', set_k_acks_pending 0x8009 (set_k_tcpflags 0 sample_conn)), Ok tt) /\ wheel_holds base_ptr 1000 w' {[500; 501]} {[500 := 450]}.
Proof.
  assert (Hback : forall p, base_ptr p - 4096 = p) by (intros p; unfold base_ptr; lia). pose proof (add_to_wheel_ok base_ptr (fun a => a - 4096) 1000 Hback) as HS.
  pose proof (wheel_timers base_ptr (fun a => a - 4096) 1000 (add_to_wheel base_ptr (fun a => a - 4096) 1000) Hback) as HW.
  assert (conn_ok {[500; 501]} sample_conn) as Hk by (constructor; [cbn; set_solver|cbn; lia]).
  pose proof (tcp_timers_refine (wheel_ops base_ptr (fun a => a - 4096) 1000 (add_to_wheel base_ptr (fun a => a - 4096) 1000)) 40 8 sample_wheel {[500; 501]} ∅ sample_conn
    [RtoCheckAndSet; DelackCheckAndSet; DelackSoon; RtoRestart; DelackClear] sample_holds Hk) as H.
  assert (tcp_timer_specs 40 8 250 ∅ sample_conn [RtoCheckAndSet; DelackCheckAndSet; DelackSoon; RtoRestart; DelackClear] =
    Some ({[500 := 450]}, set_k_acks_pending 0x8009 (set_k_tcpflags 0 sample_conn))) as E by (vm_compute; reflexivity).
  change (op_now (wheel_ops base_ptr (fun a => a - 4096) 1000 (add_to_wheel base_ptr (fun a => a - 4096) 1000)) sample_wheel) with 250 in H. rewrite E in H.
  destruct H as (w' & R & Hh & _). exists w'. split; [exact R|exact Hh].
Defined.
