(* ===== verification/PktPool.v ===== *)
(** * PktPool: packet buffers and their references ([ci/internal/ip.h])

    The packet buffers of a stack come in sets; each set links its free buffers and counts
    them, and the stack counts all free buffers.  A buffer in use has a count of references.  The
    theorem shows that buffers are neither lost nor handed out twice: what the counters
    say is what the lists hold, and every buffer is either free, or referred to, or in the
    hands of the library function that frees buffers.  Nothing is assumed about what
    the library functions return: a call that enters one is followed up to that point. *)

From Stdlib Require Import ZArith Lia Bool.
From stdpp Require Import base gmap sets list.
From S2P Require Import Prelude PktQueue Chain Tcp.

Definition CI_CFG_PKTS_PER_SET_S : Z := 10.
Definition PKTS_PER_SET : Z := Z.shiftl 1 CI_CFG_PKTS_PER_SET_S.
Definition CI_CFG_PKT_SET_LOW_WATER : Z := PKTS_PER_SET / 2.
Definition PKT_ID2SET (id : Z) : Z := Z.shiftr id CI_CFG_PKTS_PER_SET_S.
Definition PKT_SET_ID (pkt : Z) : Z := PKT_ID2SET pkt.

Definition CI_PKT_FLAG_NONB_POOL : Z := 0x0100.
Definition CI_PKT_RX_FLAG_KEEP : Z := 0x02.
Definition PKT_START_OFF_BAD : Z := swrap 16 0xffff.
Definition CI_Q_ID_NORMAL : Z := 0.
Definition CI_PKT_ALLOC_FOR_TCP_TX : Z := 1.
Definition CI_PKT_ALLOC_USE_NONB : Z := 2.

(** A [ci_ip_pkt_fmt], with the fields that debug builds check; a pointer to it is its identifier. *)
Record buf := Buf {
  b_next : Z; b_refcount : Z; b_flags : Z; b_rx_flags : Z; b_n_buffers : Z; b_frag_next : Z; b_q_id : Z;
  b_start_off : Z; b_eth_payload_off : Z; b_hw_stamp : Z * Z; b_intf_i : Z }.

Definition set_b_next v b := Buf v (b_refcount b) (b_flags b) (b_rx_flags b) (b_n_buffers b) (b_frag_next b) (b_q_id b) (b_start_off b) (b_eth_payload_off b) (b_hw_stamp b) (b_intf_i b).
Definition set_b_refcount v b := Buf (b_next b) v (b_flags b) (b_rx_flags b) (b_n_buffers b) (b_frag_next b) (b_q_id b) (b_start_off b) (b_eth_payload_off b) (b_hw_stamp b) (b_intf_i b).
Definition set_b_rx_flags v b := Buf (b_next b) (b_refcount b) (b_flags b) v (b_n_buffers b) (b_frag_next b) (b_q_id b) (b_start_off b) (b_eth_payload_off b) (b_hw_stamp b) (b_intf_i b).
Definition set_b_intf_i v b := Buf (b_next b) (b_refcount b) (b_flags b) (b_rx_flags b) (b_n_buffers b) (b_frag_next b) (b_q_id b) (b_start_off b) (b_eth_payload_off b) (b_hw_stamp b) v.

Record oo_pktbuf_set := BufSet { set_free : Z; set_n_free : Z }.

(** Counters and options that are only read here; [nonb_not_empty] is
    [ci_netif_pkt_nonb_pool_not_empty], of [NonbPool]. *)
Record pool_env := PoolEnv {
  sets_n : Z; sets_max : Z; n_pkts_allocated : Z; is_locked : bool; n_rx_pkts : Z; pe_reserved_pktbufs : Z; mem_pressure : Z; nonb_not_empty : bool;
  opt_max_packets : Z; opt_max_rx_packets : Z; opt_max_tx_packets : Z; opt_tcp_sndbuf_mode : Z }.

(** [oo_pktbuf_manager] with the buffers; [need_pkt_set] is the flag of the stack lock. *)
Record buf_pool := BufPool { bufs : gmap Z buf; pm_set : list oo_pktbuf_set; pm_n_free : Z; pm_id : Z; need_pkt_set : bool; penv : pool_env }.

Definition set_bufs v s := BufPool v (pm_set s) (pm_n_free s) (pm_id s) (need_pkt_set s) (penv s).
Definition set_sets v s := BufPool (bufs s) v (pm_n_free s) (pm_id s) (need_pkt_set s) (penv s).
Definition set_pm_n_free v s := BufPool (bufs s) (pm_set s) v (pm_id s) (need_pkt_set s) (penv s).
Definition set_pm_id v s := BufPool (bufs s) (pm_set s) (pm_n_free s) v (need_pkt_set s) (penv s).
Definition set_need_pkt_set v s := BufPool (bufs s) (pm_set s) (pm_n_free s) (pm_id s) v (penv s).

(** A buffer and a set of the stack; others do not exist. *)
Definition buf_at (id : Z) : cm buf_pool buf := let! s := get in access (bufs s !! id).
Definition update_buf (id : Z) (f : buf -> buf) : cm buf_pool unit := let! b := buf_at id in modify (fun s => set_bufs (<[id := f b]> (bufs s)) s).
Definition set_at (i : Z) : cm buf_pool oo_pktbuf_set := let! s := get in access (if 0 <=? i then pm_set s !! Z.to_nat i else None).
Definition update_set (i : Z) (f : oo_pktbuf_set -> oo_pktbuf_set) : cm buf_pool unit :=
  let! b := set_at i in modify (fun s => set_sets (<[Z.to_nat i := f b]> (pm_set s)) s).

Definition NI_PKT_SET (s : buf_pool) : Z := pm_id s.

Definition __ci_netif_pkt_clean (pkt : Z) : cm buf_pool unit :=
  update_buf pkt (fun b => Buf (b_next b) (b_refcount b) (Z.land (b_flags b) CI_PKT_FLAG_NONB_POOL) 0 1 OO_PP_NULL CI_Q_ID_NORMAL PKT_START_OFF_BAD PKT_START_OFF_BAD (0, 0) (b_intf_i b)).

Definition ci_netif_pkt_get (bufset_id : Z) : cm buf_pool Z :=
  let! s := get in ci_assert (0 <? pm_n_free s) ;;;
  let! b := set_at bufset_id in
  ci_assert (0 <? set_n_free b) ;;;
  ci_assert (OO_PP_NOT_NULL (set_free b)) ;;;
  let pkt := set_free b in
  let! p := buf_at pkt in
  update_set bufset_id (fun b => BufSet (b_next p) (set_n_free b)) ;;;
  update_set bufset_id (fun b => BufSet (set_free b) (i32 (set_n_free b - 1))) ;;;
  modify (fun s => set_pm_n_free (i32 (pm_n_free s - 1)) s) ;;;
  update_buf pkt (set_b_refcount 1) ;;;
  update_buf pkt (set_b_intf_i (-1)) ;;;
  ret pkt.

Definition ci_netif_pkt_put (pkt : Z) : cm buf_pool unit :=
  let bufset_id := PKT_SET_ID pkt in
  let! s := get in
  ci_assert (u32 bufset_id <=? sets_n (penv s)) ;;;
  let! b := set_at bufset_id in
  update_buf pkt (set_b_next (set_free b)) ;;;
  update_set bufset_id (fun b => BufSet pkt (set_n_free b)) ;;;
  update_set bufset_id (fun b => BufSet (set_free b) (i32 (set_n_free b + 1))) ;;;
  modify (fun s => set_pm_n_free (i32 (pm_n_free s + 1)) s).

Definition ci_netif_pkt_set_is_underfilled (bufset_id : Z) : cm buf_pool bool := let! b := set_at bufset_id in ret (u32 (set_n_free b) <? CI_CFG_PKT_SET_LOW_WATER).

Definition ci_netif_pkt_set_change (bufset_id : Z) (is_underfilled : bool) : cm buf_pool unit :=
  modify (set_pm_id bufset_id) ;;;
  let! s := get in
  ci_assert (bufset_id =? NI_PKT_SET s) ;;;
  (if (sets_n (penv s) <? sets_max (penv s)) && is_underfilled then modify (set_need_pkt_set true) else ret tt) ;;;
  let! b := set_at bufset_id in
  if set_n_free b =? 0 then ret tt else ci_assert (OO_PP_NOT_NULL (set_free b)).

(** Counters. *)
Definition ci_netif_pkt_rx_n (s : buf_pool) : Z := i32 (n_rx_pkts (penv s) + pe_reserved_pktbufs (penv s)).
Definition ci_netif_pkt_free_n (s : buf_pool) : Z := i32 (u32 (Z.shiftl (u32 (sets_max (penv s) - sets_n (penv s))) CI_CFG_PKTS_PER_SET_S) + pm_n_free s).
Definition ci_netif_pkt_tx_n (s : buf_pool) : Z := i32 (n_pkts_allocated (penv s) - n_rx_pkts (penv s) - pm_n_free s).

Definition ci_netif_pkt_tx_may_alloc (s : buf_pool) : bool :=
  let n_tx_pkts := ci_netif_pkt_tx_n s in
  (u32 n_tx_pkts <? u32 (opt_max_packets (penv s) - opt_max_rx_packets (penv s))) || ((mem_pressure (penv s) =? 0) && (n_tx_pkts <? opt_max_tx_packets (penv s))).

Definition ci_netif_pkt_tx_can_alloc_now (s : buf_pool) : bool :=
  (ci_netif_pkt_tx_may_alloc s && (0 <? pm_n_free s)) || nonb_not_empty (penv s).

Section Library.
(** [ci_netif_pkt_alloc_slow] with its flags ([None] is [NULL]), [ci_netif_pkt_free] and
    [ci_tcp_moderate_sndbuf] of the library. *)
Variables (ci_netif_pkt_alloc_slow : Z -> cm buf_pool (option Z)) (ci_netif_pkt_free : Z -> cm buf_pool unit) (ci_tcp_moderate_sndbuf : Z -> cm buf_pool unit).

Definition ci_netif_pkt_alloc (flags : Z) : cm buf_pool (option Z) :=
  let! s := get in
  ci_assert (is_locked (penv s)) ;;;
  let bufset_id := NI_PKT_SET s in
  let! b := set_at bufset_id in
  if 0 <? set_n_free b then let! p := ci_netif_pkt_get bufset_id in ret (Some p) else ci_netif_pkt_alloc_slow flags.

(** [ts] is [None] for [NULL]. *)
Definition ci_netif_pkt_tx_tcp_alloc (ts : option Z) : cm buf_pool (option Z) :=
  let! s := get in
  ci_assert (is_locked (penv s)) ;;;
  let bufset_id := NI_PKT_SET s in
  let! b := set_at bufset_id in
  if ci_netif_pkt_tx_may_alloc s && (0 <? set_n_free b) then let! p := ci_netif_pkt_get bufset_id in ret (Some p)
  else
    match ts with
    | Some ts => if negb (ci_netif_pkt_tx_may_alloc s) && (opt_tcp_sndbuf_mode (penv s) =? 2) then ci_tcp_moderate_sndbuf ts else ret tt
    | None => ret tt
    end ;;;
    ci_netif_pkt_alloc_slow (Z.lor CI_PKT_ALLOC_FOR_TCP_TX CI_PKT_ALLOC_USE_NONB).

Definition ci_netif_pkt_hold (pkt : Z) : cm buf_pool unit :=
  let! b := buf_at pkt in
  ci_assert (0 <? b_refcount b) ;;;
  update_buf pkt (fun b => set_b_refcount (i32 (b_refcount b + 1)) b).

Definition ci_netif_pkt_release (pkt : Z) : cm buf_pool unit :=
  let! b := buf_at pkt in
  ci_assert (0 <? b_refcount b) ;;;
  let! s := get in
  ci_assert (is_locked (penv s)) ;;;
  update_buf pkt (fun b => set_b_refcount (i32 (b_refcount b - 1)) b) ;;;
  let! b := buf_at pkt in
  if b_refcount b =? 0 then ci_netif_pkt_free pkt else ret tt.

Definition ci_netif_pkt_release_1ref (pkt : Z) : cm buf_pool unit := ci_netif_pkt_release pkt.
Definition ci_netif_pkt_release_rx_1ref (pkt : Z) : cm buf_pool unit := ci_netif_pkt_release_1ref pkt.
Definition ci_netif_pkt_release_rx (pkt : Z) : cm buf_pool unit := ci_netif_pkt_release pkt.

Definition ci_netif_pkt_release_check_keep (pkt : Z) : cm buf_pool bool :=
  let! b := buf_at pkt in
  if bits_of (b_rx_flags b) CI_PKT_RX_FLAG_KEEP then
    update_buf pkt (fun b => set_b_rx_flags (Z.ldiff (b_rx_flags b) CI_PKT_RX_FLAG_KEEP) b) ;;;
    ret false
  else ci_netif_pkt_release pkt ;;; ret true.
End Library.

(** ** What the pool holds *)

Definition next_of (s : buf_pool) (p : Z) : Z := default OO_PP_NULL (b_next <$> bufs s !! p).

(** The sets of [s] have the free buffers [L]; [R] are the references that callers have, and
    the buffers of [D] were handed to [ci_netif_pkt_free]. *)
Record pool_ok (s : buf_pool) (L : list (list Z)) (R : gmap Z Z) (D : gset Z) : Prop := {
  po_len : length (pm_set s) = length L /\ sets_n (penv s) = Z.of_nat (length L);
  po_sets : forall i b l, pm_set s !! i = Some b -> L !! i = Some l -> follows (next_of s) (set_free b) l /\ set_n_free b = Z.of_nat (length l);
  po_ids : forall i l p, L !! i = Some l -> p ∈ l -> PKT_SET_ID p = Z.of_nat i /\ exists b, bufs s !! p = Some b /\ b_refcount b = 0;
  po_nodup : forall i l, L !! i = Some l -> NoDup l;
  po_refs : forall p n, R !! p = Some n -> exists b, bufs s !! p = Some b /\ b_refcount b = n /\ 1 <= n < 2 ^ 31;
  po_handed : forall p, p ∈ D -> p ∉ concat L /\ exists b, bufs s !! p = Some b /\ b_refcount b = 0;
  po_all : forall p, is_Some (bufs s !! p) -> p ∈ concat L \/ is_Some (R !! p) \/ p ∈ D;
  po_range : forall p b, bufs s !! p = Some b -> 0 <= p < 1024 * sets_n (penv s);
  po_total : pm_n_free s = Z.of_nat (length (concat L));
  po_bound : 1024 * sets_n (penv s) < 2 ^ 31;
  po_cur : 0 <= pm_id s < Z.of_nat (length L);
  po_locked : is_locked (penv s) = true }.

Lemma set_id_range p n : 0 <= p < 1024 * Z.of_nat n -> (Z.to_nat (PKT_SET_ID p) < n)%nat /\ 0 <= PKT_SET_ID p.
Proof.
  intros H. unfold PKT_SET_ID, PKT_ID2SET, CI_CFG_PKTS_PER_SET_S. rewrite Z.shiftr_div_pow2 by lia. change (2 ^ 10) with 1024.
  pose proof (Z.div_pos p 1024 ltac:(lia) ltac:(lia)). assert (p / 1024 < Z.of_nat n) by (apply Z.div_lt_upper_bound; lia). lia.
Qed.

(** Replacing one of the lists. *)
Lemma concat_insert (L : list (list Z)) i l l' : L !! i = Some l -> concat (<[i := l']> L) = concat (take i L) ++ l' ++ concat (drop (S i) L) /\
  concat L = concat (take i L) ++ l ++ concat (drop (S i) L).
Proof.
  intros Hl. assert (i < length L)%nat by (by apply lookup_lt_Some in Hl). split.
  - rewrite insert_take_drop by done. by rewrite concat_app.
  - rewrite <- (take_drop_middle L i l Hl) at 1. by rewrite concat_app.
Qed.

Lemma in_concat (L : list (list Z)) p : p ∈ concat L <-> exists i l, L !! i = Some l /\ p ∈ l.
Proof.
  rewrite list_elem_of_In, in_concat. split.
  - intros (l & Hl & Hp). apply list_elem_of_In, list_elem_of_lookup in Hl as [i Hi]. exists i, l. split; [done|by apply list_elem_of_In].
  - intros (i & l & Hi & Hp). exists l. split; [apply list_elem_of_In; by eapply list_elem_of_lookup_2|by apply list_elem_of_In].
Qed.

Section Lists.
Variables (s : buf_pool) (L : list (list Z)) (R : gmap Z Z) (D : gset Z).
Hypothesis H : pool_ok s L R D.

Lemma free_not_held p : p ∈ concat L -> R !! p = None.
Proof.
  intros (i & l & Hi & Hp)%in_concat. destruct (R !! p) as [n|] eqn:E; [|done]. destruct (po_refs _ _ _ _ H p n E) as (b & Hb & Hn & Hr).
  destruct (po_ids _ _ _ _ H i l p Hi Hp) as (_ & b' & Hb' & Hz). rewrite Hb in Hb'. injection Hb' as <-. lia.
Qed.

Lemma handed_not_held p : p ∈ D -> R !! p = None.
Proof.
  intros Hp. destruct (R !! p) as [n|] eqn:E; [|done]. destruct (po_refs _ _ _ _ H p n E) as (b & Hb & Hn & Hr), (po_handed _ _ _ _ H p Hp) as (_ & b' & Hb' & Hz).
  rewrite Hb in Hb'. injection Hb' as <-. lia.
Qed.

(** The free buffers are all different, so they are fewer than the buffers that the sets have room for. *)
Lemma concat_nodup : NoDup (concat L).
Proof.
  pose proof (po_nodup _ _ _ _ H) as Hn. assert (forall i l p, L !! i = Some l -> p ∈ l -> PKT_SET_ID p = Z.of_nat i) as Hid by (intros i l p Hi Hp; by apply (po_ids _ _ _ _ H i l)).
  assert (forall k (L' : list (list Z)), (forall i l, L' !! i = Some l -> NoDup l) -> (forall i l p, L' !! i = Some l -> p ∈ l -> PKT_SET_ID p = Z.of_nat (k + i)) -> NoDup (concat L')) as Hgen.
  { intros k L'. revert k. induction L' as [|l L' IH]; intros k Hn' Hid'; cbn; [constructor|]. apply NoDup_app. split; [by apply (Hn' 0%nat)|]. split.
    - intros p Hp (i & l' & Hi & Hp')%in_concat. pose proof (Hid' 0%nat l p eq_refl Hp). pose proof (Hid' (S i) l' p Hi Hp'). lia.
    - apply (IH (S k)); [intros i; apply (Hn' (S i))|]. intros i l' p Hi Hp. rewrite (Hid' (S i) l' p Hi Hp). f_equal. lia. }
  apply (Hgen 0%nat); [exact Hn|]. intros i l p Hi Hp. by apply (Hid i l).
Qed.

Lemma free_bound : Z.of_nat (length (concat L)) <= 1024 * sets_n (penv s).
Proof.
  assert (concat L ⊆ Z.of_nat <$> seq 0 (Z.to_nat (1024 * sets_n (penv s)))) as Hsub.
  { intros p (i & l & Hi & Hp)%in_concat. destruct (po_ids _ _ _ _ H i l p Hi Hp) as (_ & b & Hb & _). pose proof (po_range _ _ _ _ H p b Hb).
    apply list_elem_of_fmap. exists (Z.to_nat p). split; [lia|]. apply elem_of_seq. lia. }
  pose proof (submseteq_length _ _ (NoDup_submseteq _ _ concat_nodup Hsub)) as Hlen. rewrite length_fmap, length_seq in Hlen. destruct (po_len _ _ _ _ H). lia.
Qed.

Lemma set_lookup i : 0 <= i < Z.of_nat (length L) -> exists b l, pm_set s !! Z.to_nat i = Some b /\ L !! Z.to_nat i = Some l /\
  follows (next_of s) (set_free b) l /\ set_n_free b = Z.of_nat (length l) /\ set_at i s = (s, Ok b).
Proof.
  intros Hi. destruct (po_len _ _ _ _ H) as [Hlen _]. destruct (lookup_lt_is_Some_2 (pm_set s) (Z.to_nat i)) as [b Hb]; [lia|]. destruct (lookup_lt_is_Some_2 L (Z.to_nat i)) as [l Hl]; [lia|].
  destruct (po_sets _ _ _ _ H _ b l Hb Hl) as [Hf Hn]. exists b, l. do 4 (split; [done|]). unfold set_at. rewrite bind_get, (proj2 (Z.leb_le 0 i)) by lia. unfold access. by rewrite Hb.
Qed.
End Lists.

(** ** Steps *)

Lemma buf_at_run {B} id b (k : buf -> cm buf_pool B) s : bufs s !! id = Some b -> bind (buf_at id) k s = k b s.
Proof. intros E. unfold buf_at. rewrite bind_assoc, bind_get. unfold bind, access. by rewrite E. Qed.

Lemma update_buf_run {B} id b f (k : unit -> cm buf_pool B) s : bufs s !! id = Some b -> bind (update_buf id f) k s = k tt (set_bufs (<[id := f b]> (bufs s)) s).
Proof. intros E. unfold update_buf. by rewrite bind_assoc, (buf_at_run id b) by done. Qed.

Lemma update_buf_ok id b f s : bufs s !! id = Some b -> update_buf id f s = (set_bufs (<[id := f b]> (bufs s)) s, Ok tt).
Proof. intros E. unfold update_buf. by rewrite (buf_at_run id b) by done. Qed.

Lemma set_at_run {B} i b (k : oo_pktbuf_set -> cm buf_pool B) s : 0 <= i -> pm_set s !! Z.to_nat i = Some b -> bind (set_at i) k s = k b s.
Proof. intros Hi E. unfold set_at. rewrite bind_assoc, bind_get. unfold bind, access. by rewrite (proj2 (Z.leb_le 0 i)), E by done. Qed.

Lemma update_set_run {B} i b f (k : unit -> cm buf_pool B) s : 0 <= i -> pm_set s !! Z.to_nat i = Some b ->
  bind (update_set i f) k s = k tt (set_sets (<[Z.to_nat i := f b]> (pm_set s)) s).
Proof. intros Hi E. unfold update_set. by rewrite bind_assoc, (set_at_run i b) by done. Qed.

Lemma assert_true {B} b (k : unit -> cm buf_pool B) s : b = true -> bind (ci_assert b) k s = k tt s.
Proof. by intros ->. Qed.

Lemma get_run i n p b s : 0 <= i -> pm_set s !! Z.to_nat i = Some (BufSet p n) -> bufs s !! p = Some b -> 0 < n -> 0 <= p -> 0 < pm_n_free s ->
  ci_netif_pkt_get i s = (BufPool (<[p := set_b_intf_i (-1) (set_b_refcount 1 b)]> (bufs s)) (<[Z.to_nat i := BufSet (b_next b) (i32 (n - 1))]> (pm_set s))
    (i32 (pm_n_free s - 1)) (pm_id s) (need_pkt_set s) (penv s), Ok p).
Proof.
  intros Hi Hs Hb Hn Hp Ht. assert (Z.to_nat i < length (pm_set s))%nat as Hlen by (by apply lookup_lt_Some in Hs).
  unfold ci_netif_pkt_get. rewrite bind_get, assert_true by (by apply Z.ltb_lt). rewrite (set_at_run i (BufSet p n)) by done. cbn [set_free set_n_free].
  rewrite !assert_true by (by first [apply Z.ltb_lt|apply Z.leb_le]). rewrite (buf_at_run p b), (update_set_run i (BufSet p n)) by done. cbn [set_free set_n_free].
  rewrite (update_set_run i (BufSet (b_next b) n)) by (cbn; rewrite ?list_lookup_insert_eq by done; done). cbn [set_free set_n_free]. rewrite bind_modify.
  rewrite (update_buf_run p b) by done. rewrite (update_buf_run p (set_b_refcount 1 b)) by (cbn; by rewrite lookup_insert_eq). cbn.
  by rewrite insert_insert_eq, list_insert_insert_eq.
Qed.

Lemma put_run i n h p b s : i = PKT_SET_ID p -> 0 <= i -> u32 i <= sets_n (penv s) -> pm_set s !! Z.to_nat i = Some (BufSet h n) -> bufs s !! p = Some b ->
  ci_netif_pkt_put p s = (BufPool (<[p := set_b_next h b]> (bufs s)) (<[Z.to_nat i := BufSet p (i32 (n + 1))]> (pm_set s))
    (i32 (pm_n_free s + 1)) (pm_id s) (need_pkt_set s) (penv s), Ok tt).
Proof.
  intros Ei Hi Hle Hs Hb. assert (Z.to_nat i < length (pm_set s))%nat as Hlen by (by apply lookup_lt_Some in Hs).
  unfold ci_netif_pkt_put. rewrite <- Ei, bind_get, assert_true by (by apply Z.leb_le). rewrite (set_at_run i (BufSet h n)) by done. cbn [set_free].
  rewrite (update_buf_run p b), (update_set_run i (BufSet h n)) by done. cbn [set_n_free].
  rewrite (update_set_run i (BufSet p n)) by (cbn; rewrite ?list_lookup_insert_eq by done; done). cbn. by rewrite list_insert_insert_eq.
Qed.

(** Changing a buffer that is not free keeps the lists. *)
Lemma ok_update s L R D p b R' D' : pool_ok s L R D -> p ∉ concat L -> is_Some (bufs s !! p) -> (forall q, q <> p -> R' !! q = R !! q /\ (q ∈ D' <-> q ∈ D)) ->
  match R' !! p with Some n => b_refcount b = n /\ 1 <= n < 2 ^ 31 /\ p ∉ D' | None => b_refcount b = 0 /\ p ∈ D' end ->
  pool_ok (set_bufs (<[p := b]> (bufs s)) s) L R' D'.
Proof.
  intros [Hlen Hsets Hids Hnd Hrefs Hhd Hall Hrng Htot Hbd Hcur Hlk] Hp [b0 Hb0] Hother Hself.
  assert (Hnot : forall i l q, L !! i = Some l -> q ∈ l -> q <> p) by (intros i l q Hi Hq ->; apply Hp, in_concat; by exists i, l).
  constructor; cbn [pm_set penv bufs set_bufs pm_n_free pm_id]; try done.
  - intros i bs l Hbs Hl. destruct (Hsets i bs l Hbs Hl) as [Hf Hn]. split; [|done]. apply (follows_ext (next_of s)); [|done]. intros q Hq. unfold next_of. cbn [bufs set_bufs].
    rewrite lookup_insert_ne; [done|]. intros ->. by apply (Hnot i l q).
  - intros i l q Hi Hq. rewrite lookup_insert_ne by (intros ->; by apply (Hnot i l q)). by apply (Hids i l).
  - intros q n Hq. rewrite lookup_insert. case_decide as E; [subst q; rewrite Hq in Hself; exists b; tauto|]. apply Hrefs. by rewrite <- (proj1 (Hother q (not_eq_sym E))).
  - intros q Hq. rewrite lookup_insert. case_decide as E; [subst q; destruct (R' !! p); [tauto|]; split; [done|]; exists b; tauto|]. by apply Hhd, (Hother q (not_eq_sym E)).
  - intros q. rewrite lookup_insert. case_decide as E; [subst q; intros _; destruct (R' !! p); [right; left; by eexists|tauto]|]. intros Hq.
    destruct (Hother q (not_eq_sym E)) as [-> ->]. by apply Hall.
  - intros q bq. rewrite lookup_insert. case_decide as E; [subst; intros [= <-]; by apply (Hrng q b0)|apply Hrng].
Qed.

(** The head of a free list taken off, and a buffer without references linked in. *)
Lemma ok_unlink s L R D i p l b : pool_ok s L R D -> L !! i = Some (p :: l) -> bufs s !! p = Some b ->
  pool_ok (BufPool (bufs s) (<[i := BufSet (b_next b) (Z.of_nat (length l))]> (pm_set s)) (pm_n_free s - 1) (pm_id s) (need_pkt_set s) (penv s)) (<[i := l]> L) R (D ∪ {[p]}).
Proof.
  intros H Hl Hb. pose proof (concat_nodup s L R D H) as Hcn. destruct (concat_insert L i (p :: l) l Hl) as [E1 E2]. assert (i < length L)%nat as Hi by (by apply lookup_lt_Some in Hl).
  pose proof H as [Hlen Hsets Hids Hnd Hrefs Hhd Hall Hrng Htot Hbd Hcur Hlk].
  assert (p ∉ concat (<[i := l]> L)) as Hnp by (rewrite E1; rewrite E2 in Hcn; apply NoDup_app in Hcn as (_ & Hx & Hy); apply NoDup_cons in Hy as [Hy _]; specialize (Hx p); set_solver).
  assert (Hsub : forall q, q ∈ concat L <-> q = p \/ q ∈ concat (<[i := l]> L)) by (intros q; rewrite E1, E2; set_solver).
  constructor; cbn [pm_set penv bufs pm_n_free pm_id]; rewrite ?length_insert; try done.
  - intros j bs lj Hbs Hlj. destruct (decide (i = j)) as [<-|Hne].
    + rewrite list_lookup_insert_eq in Hbs by lia. rewrite list_lookup_insert_eq in Hlj by done. injection Hbs as <-. injection Hlj as <-. split; [|done].
      destruct (lookup_lt_is_Some_2 (pm_set s) i) as [b0 Hb0]; [lia|]. destruct (Hsets i b0 _ Hb0 Hl) as [Hf _]. cbn in Hf. destruct Hf as (_ & _ & Hf). unfold next_of at 2 in Hf. by rewrite Hb in Hf.
    + rewrite list_lookup_insert_ne in Hbs by done. rewrite list_lookup_insert_ne in Hlj by done. by apply (Hsets j).
  - intros j lj q Hlj Hq. destruct (decide (i = j)) as [<-|Hne].
    + rewrite list_lookup_insert_eq in Hlj by done. injection Hlj as <-. apply (Hids i (p :: l)); [done|set_solver].
    + rewrite list_lookup_insert_ne in Hlj by done. by apply (Hids j lj).
  - intros j lj Hlj. destruct (decide (i = j)) as [<-|Hne].
    + rewrite list_lookup_insert_eq in Hlj by done. injection Hlj as <-. specialize (Hnd i _ Hl). by apply NoDup_cons in Hnd as [_ ?].
    + rewrite list_lookup_insert_ne in Hlj by done. by apply (Hnd j).
  - intros q [Hq|Hq]%elem_of_union; [destruct (Hhd q Hq) as [Hn Hx]; split; [rewrite Hsub in Hn; tauto|done]|].
    apply elem_of_singleton in Hq as ->. split; [done|]. destruct (Hids i (p :: l) p Hl) as [_ Hx]; [set_solver|done].
  - intros q Hq. destruct (Hall q Hq) as [Hin|[Hin|Hin]]; [apply Hsub in Hin as [->|Hin]; [set_solver|by left]|tauto|set_solver].
  - rewrite Htot, E1, E2, !length_app. simpl. lia.
Qed.

Lemma ok_link s L R D i p l h b : pool_ok s L R D -> p ∈ D -> L !! i = Some l -> PKT_SET_ID p = Z.of_nat i -> bufs s !! p = Some b -> pm_set s !! i = Some h -> b_next b = set_free h ->
  pool_ok (BufPool (bufs s) (<[i := BufSet p (Z.of_nat (S (length l)))]> (pm_set s)) (pm_n_free s + 1) (pm_id s) (need_pkt_set s) (penv s)) (<[i := p :: l]> L) R (D ∖ {[p]}).
Proof.
  intros [Hlen Hsets Hids Hnd Hrefs Hhd Hall Hrng Htot Hbd Hcur Hlk] HpD Hl Hid Hb Hh Hnx. destruct (concat_insert L i l (p :: l) Hl) as [E1 E2].
  assert (i < length L)%nat as Hi by (by apply lookup_lt_Some in Hl). destruct (Hhd p HpD) as [Hp Hz].
  assert (Hsub : forall q, q ∈ concat (<[i := p :: l]> L) <-> q = p \/ q ∈ concat L) by (intros q; rewrite E1, E2; set_solver).
  constructor; cbn [pm_set penv bufs pm_n_free pm_id]; rewrite ?length_insert; try done.
  - intros j bs lj Hbs Hlj. destruct (decide (i = j)) as [<-|Hne].
    + rewrite list_lookup_insert_eq in Hbs by lia. rewrite list_lookup_insert_eq in Hlj by done. injection Hbs as <-. injection Hlj as <-. split; [|done].
      destruct (Hsets i h l Hh Hl) as [Hf _]. cbn [set_free follows]. pose proof (Hrng p b Hb). do 2 (split; [done||lia|]). unfold next_of at 2. cbn [bufs]. rewrite Hb. cbn. by rewrite Hnx.
    + rewrite list_lookup_insert_ne in Hbs by done. rewrite list_lookup_insert_ne in Hlj by done. by apply (Hsets j).
  - intros j lj q Hlj Hq. destruct (decide (i = j)) as [<-|Hne].
    + rewrite list_lookup_insert_eq in Hlj by done. injection Hlj as <-. apply elem_of_cons in Hq as [->|Hq]; [by split|by apply (Hids i l)].
    + rewrite list_lookup_insert_ne in Hlj by done. by apply (Hids j lj).
  - intros j lj Hlj. destruct (decide (i = j)) as [<-|Hne].
    + rewrite list_lookup_insert_eq in Hlj by done. injection Hlj as <-. apply NoDup_cons. split; [|by apply (Hnd i)]. intros Hin. apply Hp, in_concat. by exists i, l.
    + rewrite list_lookup_insert_ne in Hlj by done. by apply (Hnd j).
  - intros q [Hq Hne]%elem_of_difference. destruct (Hhd q Hq) as [Hn Hx]. split; [rewrite Hsub; set_solver|done].
  - intros q Hq. rewrite Hsub. destruct (decide (q = p)); [tauto|]. destruct (Hall q Hq) as [Hin|[Hin|Hin]]; [tauto|tauto|set_solver].
  - rewrite Htot, E1, E2, !length_app. simpl. lia.
Qed.

(** Taking a buffer from a set, and giving one back. *)
Lemma pool_get_ok s L R D i p l : pool_ok s L R D -> 0 <= i -> L !! Z.to_nat i = Some (p :: l) ->
  exists s', ci_netif_pkt_get i s = (s', Ok p) /\ pool_ok s' (<[Z.to_nat i := l]> L) (<[p := 1]> R) D.
Proof.
  intros H Hi Hl. assert (Z.to_nat i < length L)%nat as Hlt by (by apply lookup_lt_Some in Hl). destruct (set_lookup s L R D H i) as ([h n] & l' & Hb & Hl' & Hf & Hn & _); [lia|].
  rewrite Hl in Hl'. injection Hl' as <-. cbn [set_free set_n_free follows length] in Hf, Hn. destruct Hf as (-> & Hp0 & _).
  destruct (po_ids _ _ _ _ H _ _ p Hl ltac:(set_solver)) as (_ & b & Hbuf & Hz). pose proof (free_bound s L R D H) as Hfb. pose proof (po_bound _ _ _ _ H). pose proof (po_total _ _ _ _ H) as Htot.
  destruct (concat_insert L _ (p :: l) l Hl) as [_ E2]. assert (length (concat L) = length (concat (take (Z.to_nat i) L)) + S (length l) + length (concat (drop (S (Z.to_nat i)) L)))%nat as El by (rewrite E2, !length_app; simpl; lia).
  rewrite (get_run i n p b) by (try done; lia). pose proof (ok_unlink s L R D _ p l b H Hl Hbuf) as H1. destruct (po_handed _ _ _ _ H1 p ltac:(set_solver)) as [Hnin _].
  assert (i32 (n - 1) = Z.of_nat (length l)) as -> by (rewrite swrap_small by lia; lia). assert (i32 (pm_n_free s - 1) = pm_n_free s - 1) as -> by (rewrite swrap_small by lia; lia).
  eexists. split; [reflexivity|]. apply (ok_update _ _ R _ p (set_b_intf_i (-1) (set_b_refcount 1 b)) (<[p := 1]> R) D H1); [done|by eexists| |].
  - intros q Hne. rewrite lookup_insert_ne by done. set_solver.
  - rewrite lookup_insert_eq. cbn. split; [done|]. split; [lia|]. intros HpD. destruct (po_handed _ _ _ _ H p HpD) as [Hc _]. apply Hc, in_concat. exists (Z.to_nat i), (p :: l). set_solver.
Qed.

Lemma pool_put_ok s L R D p : pool_ok s L R D -> p ∈ D ->
  exists s' L', ci_netif_pkt_put p s = (s', Ok tt) /\ pool_ok s' L' R (D ∖ {[p]}) /\ concat L' ≡ₚ p :: concat L.
Proof.
  intros H HpD. destruct (po_handed _ _ _ _ H p HpD) as (Hp & b & Hb & Hz). pose proof (handed_not_held s L R D H p HpD) as HR.
  pose proof (po_range _ _ _ _ H p b Hb) as Hr. destruct (po_len _ _ _ _ H) as [Hlen Hsn]. rewrite Hsn in Hr. destruct (set_id_range p _ Hr) as [Hi Hi0].
  destruct (set_lookup s L R D H (PKT_SET_ID p)) as ([h n] & l & Hs & Hl & Hf & Hn & _); [lia|]. pose proof (free_bound s L R D H) as Hfb. pose proof (po_bound _ _ _ _ H) as Hbd.
  pose proof (po_total _ _ _ _ H) as Htot. destruct (concat_insert L _ l (p :: l) Hl) as [E1 E2]. set (b1 := set_b_next h b).
  assert (length (concat L) = length (concat (take (Z.to_nat (PKT_SET_ID p)) L)) + length l + length (concat (drop (S (Z.to_nat (PKT_SET_ID p))) L)))%nat as El by (rewrite E2 at 1; rewrite !length_app; lia).
  assert (pool_ok (set_bufs (<[p := b1]> (bufs s)) s) L R D) as H1 by (apply (ok_update s L R D); [done|done|by eexists|done|by rewrite HR]).
  eexists _, (<[Z.to_nat (PKT_SET_ID p) := p :: l]> L). split; [|split].
  - cbn [set_n_free] in Hn. rewrite (put_run (PKT_SET_ID p) n h p b) by (try done; rewrite wrap_small by lia; lia). reflexivity.
  - cbn [set_n_free] in Hn. assert (i32 (n + 1) = Z.of_nat (S (length l))) as -> by (rewrite swrap_small by lia; lia). assert (i32 (pm_n_free s + 1) = pm_n_free s + 1) as -> by (rewrite swrap_small by lia; lia).
    refine (ok_link _ L R D _ p l (BufSet h n) b1 H1 HpD Hl _ _ Hs eq_refl); [lia|apply lookup_insert_eq].
  - rewrite E1, E2. simpl. symmetry. apply Permutation_middle.
Qed.

(** ** What callers may do *)

Inductive pool_call := PAlloc (flags : Z) | PTxTcpAlloc (ts : option Z) | PHold (p : Z) | PRelease (p : Z) | PCheckKeep (p : Z) | PSetChange (bufset_id : Z) (is_underfilled : bool).
Inductive pool_res := RDone | RPkt (p : option Z) | RKept (released : bool).

(** Callers hold and release buffers that they have references to. *)
Definition pool_may (n_sets : Z) (R : gmap Z Z) (c : pool_call) : Prop :=
  match c with
  | PAlloc _ | PTxTcpAlloc _ => True
  | PHold p => exists n, R !! p = Some n /\ n < 2 ^ 31 - 1
  | PRelease p | PCheckKeep p => is_Some (R !! p)
  | PSetChange i _ => 0 <= i < n_sets
  end.

Definition run_pool_call (alloc_slow : Z -> cm buf_pool (option Z)) (pkt_free moderate : Z -> cm buf_pool unit) (c : pool_call) : cm buf_pool pool_res :=
  match c with
  | PAlloc flags => let! p := ci_netif_pkt_alloc alloc_slow flags in ret (RPkt p)
  | PTxTcpAlloc ts => let! p := ci_netif_pkt_tx_tcp_alloc alloc_slow moderate ts in ret (RPkt p)
  | PHold p => ci_netif_pkt_hold p ;;; ret RDone
  | PRelease p => ci_netif_pkt_release pkt_free p ;;; ret RDone
  | PCheckKeep p => let! b := ci_netif_pkt_release_check_keep pkt_free p in ret (RKept b)
  | PSetChange i u => ci_netif_pkt_set_change i u ;;; ret RDone
  end.

(** How far a call comes by itself: to its end, or to a function of the library. *)
Inductive reach := Done (r : pool_res) | EntersSlow (flags : Z) | EntersModerate (ts : Z) | EntersFree (p : Z).

Definition tx_flags : Z := Z.lor CI_PKT_ALLOC_FOR_TCP_TX CI_PKT_ALLOC_USE_NONB.

(** What is left of the call from there. *)
Definition rest_of (alloc_slow : Z -> cm buf_pool (option Z)) (pkt_free moderate : Z -> cm buf_pool unit) (c : pool_call) (e : reach) : cm buf_pool pool_res :=
  match e with
  | Done r => ret r
  | EntersSlow flags => let! p := alloc_slow flags in ret (RPkt p)
  | EntersModerate ts => moderate ts ;;; let! p := alloc_slow tx_flags in ret (RPkt p)
  | EntersFree p => pkt_free p ;;; ret (match c with PCheckKeep _ => RKept true | _ => RDone end)
  end.

(** Whatever the library does, the call comes to [e] in the state [s']. *)
Definition comes_to (c : pool_call) (s : buf_pool) (e : reach) (s' : buf_pool) : Prop :=
  forall alloc_slow pkt_free moderate, run_pool_call alloc_slow pkt_free moderate c s = rest_of alloc_slow pkt_free moderate c e s'.

(** A library that tells which function was entered. *)
Lemma comes_to_unique c s e1 s1 e2 s2 : comes_to c s e1 s1 -> comes_to c s e2 s2 -> e1 = e2 /\ s1 = s2.
Proof.
  intros H1 H2. specialize (H1 (fun f => stop (Exit (3 * f))) (fun p => stop (Exit (3 * p + 1))) (fun t => stop (Exit (3 * t + 2)))). rewrite H2 in H1. clear H2.
  destruct e1, e2; cbn in H1; injection H1; intros; try lia; subst; split; try done; f_equal; (done || lia).
Qed.

Definition drop_ref (R : gmap Z Z) (p : Z) : gmap Z Z := match R !! p with Some n => if n =? 1 then delete p R else <[p := n - 1]> R | None => R end.

(** The references that callers have and the buffers handed over, when the call came to [e]. *)
Definition refs_after (R : gmap Z Z) (c : pool_call) (e : reach) : gmap Z Z :=
  match c, e with
  | (PAlloc _ | PTxTcpAlloc _), Done (RPkt (Some p)) => <[p := 1]> R
  | PHold p, _ => alter (fun n => n + 1) p R
  | PCheckKeep p, Done (RKept false) => R
  | PRelease p, _ | PCheckKeep p, _ => drop_ref R p
  | _, _ => R
  end.

Definition handed_after (D : gset Z) (e : reach) : gset Z := match e with EntersFree p => D ∪ {[p]} | _ => D end.

(** What each call comes to, from the free buffers and the references. *)
Definition answer (s : buf_pool) (L : list (list Z)) (R : gmap Z Z) (c : pool_call) : reach :=
  match c with
  | PAlloc flags => match L !! Z.to_nat (pm_id s) with Some (p :: _) => Done (RPkt (Some p)) | _ => EntersSlow flags end
  | PTxTcpAlloc ts =>
      match ci_netif_pkt_tx_may_alloc s, L !! Z.to_nat (pm_id s), ts with
      | true, Some (p :: _), _ => Done (RPkt (Some p))
      | false, _, Some ts => if opt_tcp_sndbuf_mode (penv s) =? 2 then EntersModerate ts else EntersSlow tx_flags
      | _, _, _ => EntersSlow tx_flags
      end
  | PHold _ | PSetChange _ _ => Done RDone
  | PRelease p => if decide (R !! p = Some 1) then EntersFree p else Done RDone
  | PCheckKeep p =>
      if bits_of (default 0 (b_rx_flags <$> bufs s !! p)) CI_PKT_RX_FLAG_KEEP then Done (RKept false)
      else if decide (R !! p = Some 1) then EntersFree p else Done (RKept true)
  end.

(** [answer] is what happens, and leaves a sound pool. *)
Definition call_ok (s : buf_pool) (L : list (list Z)) (R : gmap Z Z) (D : gset Z) (c : pool_call) : Prop :=
  exists s' L', comes_to c s (answer s L R c) s' /\ pool_ok s' L' (refs_after R c (answer s L R c)) (handed_after D (answer s L R c)).

Lemma cur_set s L R D : pool_ok s L R D -> exists b l, L !! Z.to_nat (pm_id s) = Some l /\ (0 <? set_n_free b) = (match l with [] => false | _ => true end) /\ set_at (pm_id s) s = (s, Ok b).
Proof.
  intros H. pose proof (po_cur _ _ _ _ H) as Hc. destruct (set_lookup s L R D H (pm_id s) Hc) as (b & l & _ & Hl & _ & Hn & E). exists b, l. split; [done|]. split; [|done].
  rewrite Hn. by destruct l.
Qed.

Lemma alloc_call_ok s L R D flags : pool_ok s L R D -> call_ok s L R D (PAlloc flags).
Proof.
  intros H. destruct (cur_set s L R D H) as (b & l & Hl & Hn & E). unfold call_ok, answer. rewrite Hl.
  assert (forall slow pfree moderate, run_pool_call slow pfree moderate (PAlloc flags) s =
    (let! p := (if 0 <? set_n_free b then let! p := ci_netif_pkt_get (pm_id s) in ret (Some p) else slow flags) in ret (RPkt p)) s) as Hrun.
  { intros slow pfree moderate. cbn [run_pool_call]. unfold ci_netif_pkt_alloc. rewrite bind_assoc, bind_get, bind_assoc, assert_true by apply (po_locked _ _ _ _ H).
    unfold NI_PKT_SET. by rewrite bind_assoc, (bind_Ok _ _ _ _ _ E). }
  destruct l as [|p l]; rewrite Hn in Hrun; [exists s, L; split; [exact Hrun|done]|]. pose proof (po_cur _ _ _ _ H) as Hc.
  destruct (pool_get_ok s L R D (pm_id s) p l H ltac:(lia) Hl) as (s' & E' & H'). exists s', (<[Z.to_nat (pm_id s) := l]> L). split; [|done].
  intros slow pfree moderate. by rewrite Hrun, bind_assoc, (bind_Ok _ _ _ _ _ E').
Qed.

Lemma tcp_alloc_call_ok s L R D ts : pool_ok s L R D -> call_ok s L R D (PTxTcpAlloc ts).
Proof.
  intros H. destruct (cur_set s L R D H) as (b & l & Hl & Hn & E). unfold call_ok, answer. rewrite Hl.
  assert (forall slow pfree moderate, run_pool_call slow pfree moderate (PTxTcpAlloc ts) s =
    (let! p := (if ci_netif_pkt_tx_may_alloc s && (0 <? set_n_free b) then let! p := ci_netif_pkt_get (pm_id s) in ret (Some p)
                else match ts with Some ts => if negb (ci_netif_pkt_tx_may_alloc s) && (opt_tcp_sndbuf_mode (penv s) =? 2) then moderate ts else ret tt | None => ret tt end ;;; slow tx_flags) in
     ret (RPkt p)) s) as Hrun.
  { intros slow pfree moderate. cbn [run_pool_call]. unfold ci_netif_pkt_tx_tcp_alloc. rewrite bind_assoc, bind_get, bind_assoc, assert_true by apply (po_locked _ _ _ _ H).
    unfold NI_PKT_SET. by rewrite bind_assoc, (bind_Ok _ _ _ _ _ E). }
  rewrite Hn in Hrun. destruct (ci_netif_pkt_tx_may_alloc s); cbn [andb negb] in Hrun; [destruct l as [|p l]|].
  - exists s, L. split; [|done]. intros slow pfree moderate. rewrite Hrun, bind_assoc. by destruct ts.
  - pose proof (po_cur _ _ _ _ H) as Hc. destruct (pool_get_ok s L R D (pm_id s) p l H ltac:(lia) Hl) as (s' & E' & H'). exists s', (<[Z.to_nat (pm_id s) := l]> L). split; [|done].
    intros slow pfree moderate. by rewrite Hrun, bind_assoc, (bind_Ok _ _ _ _ _ E').
  - exists s, L. split; [|destruct l, ts; try destruct (_ =? 2); done]. intros slow pfree moderate. rewrite Hrun, bind_assoc. destruct l, ts; try destruct (_ =? 2); done.
Qed.

Lemma held_not_free s L R D p n : pool_ok s L R D -> R !! p = Some n -> p ∉ concat L /\ p ∉ D.
Proof. intros H Hn. split; intros Hin; [pose proof (free_not_held s L R D H p Hin)|pose proof (handed_not_held s L R D H p Hin)]; congruence. Qed.

Lemma hold_call_ok s L R D p n : pool_ok s L R D -> R !! p = Some n -> n < 2 ^ 31 - 1 -> call_ok s L R D (PHold p).
Proof.
  intros H Hn Hb. destruct (po_refs _ _ _ _ H p n Hn) as (b & Hbuf & Hr & Hrg), (held_not_free s L R D p n H Hn) as [Hnf Hnd].
  eexists _, L. split.
  - intros slow pfree moderate. cbn [run_pool_call]. unfold ci_netif_pkt_hold. rewrite bind_assoc, (buf_at_run p b), bind_assoc, assert_true, (update_buf_run p b) by (done || (apply Z.ltb_lt; lia)). reflexivity.
  - apply (ok_update s L R D); [done|done|by eexists| |].
    + intros q Hne. cbn [refs_after answer]. by rewrite lookup_alter_ne.
    + cbn [refs_after answer]. rewrite lookup_alter_eq, Hn. cbn. rewrite swrap_small by lia. split; [lia|]. split; [lia|done].
Qed.

(** A release comes to the end, or enters [ci_netif_pkt_free] with a buffer that nobody refers to. *)
Lemma release_ok s L R D p n : pool_ok s L R D -> R !! p = Some n ->
  exists s', (forall pkt_free, ci_netif_pkt_release pkt_free p s = (if decide (R !! p = Some 1) then pkt_free p else ret tt) s') /\
    pool_ok s' L (drop_ref R p) (if decide (R !! p = Some 1) then D ∪ {[p]} else D).
Proof.
  intros H Hn. destruct (po_refs _ _ _ _ H p n Hn) as (b & Hb & Hr & Hrg), (held_not_free s L R D p n H Hn) as [Hnf Hnd].
  set (b' := set_b_refcount (i32 (b_refcount b - 1)) b). assert (b_refcount b' = n - 1) as Hb' by (cbn; rewrite swrap_small by lia; lia).
  exists (set_bufs (<[p := b']> (bufs s)) s). split.
  - intros pkt_free. unfold ci_netif_pkt_release. rewrite (buf_at_run p b), assert_true by (done || (apply Z.ltb_lt; lia)). rewrite bind_get, assert_true by apply (po_locked _ _ _ _ H).
    rewrite (update_buf_run p b), (buf_at_run p b') by (done || (cbn; by rewrite lookup_insert_eq)). rewrite Hb', Hn.
    destruct (decide (Some n = Some 1)) as [[= ->]|Hne]; [done|]. rewrite (proj2 (Z.eqb_neq _ _)); [done|]. intros E. apply Hne. f_equal. lia.
  - unfold drop_ref. rewrite Hn. destruct (decide (Some n = Some 1)) as [[= ->]|Hne].
    + cbn [Z.eqb Pos.eqb]. apply (ok_update s L R D); [done|done|by eexists| |]; [intros q Hq; rewrite lookup_delete_ne by done; set_solver|]. rewrite lookup_delete_eq. split; [lia|set_solver].
    + rewrite (proj2 (Z.eqb_neq _ _)) by congruence. apply (ok_update s L R D); [done|done|by eexists|intros q Hq; by rewrite lookup_insert_ne|]. rewrite lookup_insert_eq.
      split; [done|]. split; [|done]. assert (n <> 1) by congruence. lia.
Qed.

Lemma release_call_ok s L R D p n : pool_ok s L R D -> R !! p = Some n -> call_ok s L R D (PRelease p).
Proof.
  intros H Hn. destruct (release_ok s L R D p n H Hn) as (s' & E & H'). exists s', L. unfold answer. split.
  - intros slow pfree moderate. cbn [run_pool_call]. unfold bind. rewrite E. by destruct (decide _).
  - by destruct (decide _).
Qed.

Lemma keep_call_ok s L R D p n : pool_ok s L R D -> R !! p = Some n -> call_ok s L R D (PCheckKeep p).
Proof.
  intros H Hn. destruct (po_refs _ _ _ _ H p n Hn) as (b & Hb & Hr & Hrg), (held_not_free s L R D p n H Hn) as [Hnf Hnd].
  unfold call_ok, answer. rewrite Hb. change (default 0 (b_rx_flags <$> Some b)) with (b_rx_flags b). destruct (bits_of (b_rx_flags b) CI_PKT_RX_FLAG_KEEP) eqn:Ek.
  - eexists _, L. split.
    + intros slow pfree moderate. cbn [run_pool_call]. unfold ci_netif_pkt_release_check_keep. rewrite bind_assoc, (buf_at_run p b), Ek, bind_assoc, (update_buf_run p b) by done. cbn [rest_of]. unfold bind, ret. reflexivity.
    + apply (ok_update s L R D); [done|done|by eexists|done|]. cbn [refs_after]. by rewrite Hn.
  - destruct (release_ok s L R D p n H Hn) as (s' & E & H'). exists s', L. split.
    + intros slow pfree moderate. cbn [run_pool_call]. unfold ci_netif_pkt_release_check_keep. rewrite bind_assoc, (buf_at_run p b), Ek, bind_assoc by done. unfold bind at 1. rewrite E.
      destruct (decide _); [|done]. cbn [rest_of]. unfold bind. destruct (pfree p s') as [s2 []]; done.
    + destruct (decide _); exact H'.
Qed.

Lemma set_change_call_ok s L R D i u : pool_ok s L R D -> 0 <= i < sets_n (penv s) -> call_ok s L R D (PSetChange i u).
Proof.
  intros H Hc. destruct (po_len _ _ _ _ H) as [Hlen Hsn]. rewrite Hsn in Hc.
  assert (forall v, pool_ok (BufPool (bufs s) (pm_set s) (pm_n_free s) i v (penv s)) L R D) as H1 by (intros v; destruct H; by constructor).
  set (s1 := BufPool (bufs s) (pm_set s) (pm_n_free s) i (if (sets_n (penv s) <? sets_max (penv s)) && u then true else need_pkt_set s) (penv s)). exists s1, L.
  split; [|apply H1]. intros slow pfree moderate. cbn [run_pool_call]. unfold ci_netif_pkt_set_change. rewrite bind_assoc, bind_modify, bind_assoc, bind_get, bind_assoc, assert_true by (apply Z.eqb_refl).
  assert (Hrun : forall (k : unit -> cm buf_pool pool_res), bind (if (sets_n (penv (set_pm_id i s)) <? sets_max (penv (set_pm_id i s))) && u then modify (set_need_pkt_set true) else ret tt) k (set_pm_id i s) = k tt s1).
  { intros k. unfold s1. cbn [penv set_pm_id]. by destruct ((sets_n (penv s) <? sets_max (penv s)) && u). }
  rewrite bind_assoc, Hrun. destruct (set_lookup s1 L R D (H1 _) i Hc) as (b & l & _ & _ & Hf & Hn & E). rewrite bind_assoc, (bind_Ok _ _ _ _ _ E), Hn.
  destruct l as [|p l]; [done|]. cbn [follows] in Hf. destruct Hf as (Hf & Hp0 & _). rewrite (proj2 (Z.eqb_neq _ 0)) by (simpl; lia). rewrite assert_true; [done|]. unfold OO_PP_NOT_NULL. rewrite Hf. by apply Z.leb_le.
Qed.

Lemma pool_call_ok s L R D c : pool_ok s L R D -> pool_may (sets_n (penv s)) R c -> call_ok s L R D c.
Proof.
  intros H Hc. destruct c as [flags|ts|p|p|p|i u]; cbn [pool_may] in Hc.
  - by apply alloc_call_ok.
  - by apply tcp_alloc_call_ok.
  - destruct Hc as (n & Hn & Hb). by apply (hold_call_ok s L R D p n).
  - destruct Hc as [n Hn]. by apply (release_call_ok s L R D p n).
  - destruct Hc as [n Hn]. by apply (keep_call_ok s L R D p n).
  - by apply set_change_call_ok.
Qed.

(** Runs of a stack: calls, each allowed by the references that callers have when it is made and
    followed until it ends or enters the library; and what the library does with the pool, which is
    to clean a buffer that it was handed and give it back with [ci_netif_pkt_put], and to
    take a buffer from a set that has one with [ci_netif_pkt_get]. *)
Inductive pool_run (s0 : buf_pool) (R0 : gmap Z Z) (D0 : gset Z) : buf_pool -> gmap Z Z -> gset Z -> Prop :=
  | PoolStart : pool_run s0 R0 D0 s0 R0 D0
  | PoolCall s R D c e s' : pool_run s0 R0 D0 s R D -> pool_may (sets_n (penv s)) R c -> comes_to c s e s' -> pool_run s0 R0 D0 s' (refs_after R c e) (handed_after D e)
  | PoolClean s R D p s' : pool_run s0 R0 D0 s R D -> p ∈ D -> __ci_netif_pkt_clean p s = (s', Ok tt) -> pool_run s0 R0 D0 s' R D
  | PoolPut s R D p s' : pool_run s0 R0 D0 s R D -> p ∈ D -> ci_netif_pkt_put p s = (s', Ok tt) -> pool_run s0 R0 D0 s' R (D ∖ {[p]})
  | PoolGet s R D i b p s' : pool_run s0 R0 D0 s R D -> 0 <= i -> pm_set s !! Z.to_nat i = Some b -> 0 < set_n_free b -> ci_netif_pkt_get i s = (s', Ok p) ->
      pool_run s0 R0 D0 s' (<[p := 1]> R) D.

Lemma clean_ok s L R D p : pool_ok s L R D -> p ∈ D -> exists s', __ci_netif_pkt_clean p s = (s', Ok tt) /\ pool_ok s' L R D.
Proof.
  intros H HpD. destruct (po_handed _ _ _ _ H p HpD) as (Hp & b & Hb & Hz). unfold __ci_netif_pkt_clean. rewrite (update_buf_ok p b) by done. eexists. split; [reflexivity|].
  apply (ok_update s L R D); [done|done|by eexists|done|]. by rewrite (handed_not_held s L R D H p HpD).
Qed.

Lemma get_free s L R D i b : pool_ok s L R D -> 0 <= i -> pm_set s !! Z.to_nat i = Some b -> 0 < set_n_free b -> exists p l, L !! Z.to_nat i = Some (p :: l).
Proof.
  intros H Hi Hb Hn. destruct (po_len _ _ _ _ H) as [Hlen _]. assert (Z.to_nat i < length (pm_set s))%nat by (by apply lookup_lt_Some in Hb).
  destruct (lookup_lt_is_Some_2 L (Z.to_nat i)) as [l Hl]; [lia|]. destruct (po_sets _ _ _ _ H _ b l Hb Hl) as [_ E]. destruct l as [|p l]; [simpl in E; lia|]. by exists p, l.
Qed.

Lemma pool_run_ok s0 L0 R0 D0 s R D : pool_ok s0 L0 R0 D0 -> pool_run s0 R0 D0 s R D -> exists L, pool_ok s L R D.
Proof.
  intros H0 Hrun. induction Hrun as [|s R D c e s' _ [L H] Hmay E|s R D p s' _ [L H] Hp E|s R D p s' _ [L H] Hp E|s R D i b p s' _ [L H] Hi Hb Hn E]; [by exists L0|..].
  - destruct (pool_call_ok s L R D c H Hmay) as (s2 & L2 & E2 & H2). destruct (comes_to_unique _ _ _ _ _ _ E E2) as [-> ->]. by exists L2.
  - destruct (clean_ok s L R D p H Hp) as (s2 & E2 & H2). rewrite E in E2. injection E2 as ->. by exists L.
  - destruct (pool_put_ok s L R D p H Hp) as (s2 & L2 & E2 & H2 & _). rewrite E in E2. injection E2 as ->. by exists L2.
  - destruct (get_free s L R D i b H Hi Hb Hn) as (q & l & Hl). destruct (pool_get_ok s L R D i q l H Hi Hl) as (s2 & E2 & H2). rewrite E in E2. injection E2 as -> ->. by eexists.
Qed.

(** C38: packet buffers.  Take a sound pool, in which every buffer is free, referred to or in
    the hands of [ci_netif_pkt_free], and any run of calls that hold and release only buffers
    the callers refer to, mixed with what the library does through [__ci_netif_pkt_clean] and [ci_netif_pkt_put] on
    buffers it was handed and through [ci_netif_pkt_get] on sets that have buffers.  Then every buffer is
    still exactly one of the three: no buffer is lost or in two hands.  The free ones are linked without repetition, each
    in the set of its identifier, the counters of the sets and of the stack are their
    numbers, a buffer that is referred to has the callers' number of references, and the buffers of the transmit path are
    those not free and not receiving.  Any further call passes its assertions and comes,
    whatever the library functions are, exactly to what [answer] says: an allocation gives the first free
    buffer of the current set (for TCP when the limits of transmission allow) and otherwise enters
    [ci_netif_pkt_alloc_slow], for TCP after [ci_tcp_moderate_sndbuf] in the mode
    that asks for it; a release enters [ci_netif_pkt_free] for the last reference only.  Giving
    back a buffer that was handed over makes it free. *)
Theorem pool_never_shares s0 L0 R0 D0 s R D : pool_ok s0 L0 R0 D0 -> pool_run s0 R0 D0 s R D ->
  exists L, pool_ok s L R D /\ NoDup (concat L) /\ pm_n_free s = Z.of_nat (length (concat L)) /\
    (forall p, is_Some (bufs s !! p) <-> p ∈ concat L \/ is_Some (R !! p) \/ p ∈ D) /\
    (forall p, p ∈ concat L -> R !! p = None /\ p ∉ D) /\ (forall p, p ∈ D -> R !! p = None) /\
    (0 <= n_rx_pkts (penv s) -> n_rx_pkts (penv s) + pm_n_free s <= n_pkts_allocated (penv s) < 2 ^ 31 ->
       ci_netif_pkt_tx_n s = n_pkts_allocated (penv s) - n_rx_pkts (penv s) - Z.of_nat (length (concat L))) /\
    (forall c, pool_may (sets_n (penv s)) R c -> exists s', comes_to c s (answer s L R c) s') /\
    (forall p, p ∈ D -> exists s' L', ci_netif_pkt_put p s = (s', Ok tt) /\ pool_ok s' L' R (D ∖ {[p]}) /\ concat L' ≡ₚ p :: concat L).
Proof.
  intros H0 Hrun. destruct (pool_run_ok s0 L0 R0 D0 s R D H0 Hrun) as [L H]. exists L. split; [done|]. split; [by eapply concat_nodup|]. split; [apply (po_total _ _ _ _ H)|]. split; [|split; [|split; [|split; [|split]]]].
  - intros p. split; [apply (po_all _ _ _ _ H)|]. intros [(i & l & Hi & Hp)%in_concat|[[n Hn]|Hp]].
    + destruct (po_ids _ _ _ _ H i l p Hi Hp) as (_ & b & Hb & _). by exists b.
    + destruct (po_refs _ _ _ _ H p n Hn) as (b & Hb & _). by exists b.
    + destruct (po_handed _ _ _ _ H p Hp) as (_ & b & Hb & _). by exists b.
  - intros p Hp. split; [by apply (free_not_held s L R D H)|]. intros HD. by destruct (po_handed _ _ _ _ H p HD).
  - intros p Hp. by apply (handed_not_held s L R D H).
  - intros Hrx Hall. unfold ci_netif_pkt_tx_n. rewrite (po_total _ _ _ _ H) in *. by rewrite swrap_small by lia.
  - intros c Hc. destruct (pool_call_ok s L R D c H Hc) as (s' & L' & E & _). by exists s'.
  - intros p Hp. by apply pool_put_ok.
Qed.

(** ** A small pool *)

Definition sample_buf (next : Z) : buf := Buf next 0 0 0 1 OO_PP_NULL 0 (-1) (-1) (0, 0) (-1).
Definition sample_pool : buf_pool :=
  BufPool (<[0 := sample_buf 1]> (<[1 := sample_buf (-1)]> {[2 := set_b_refcount 2 (sample_buf (-1))]})) [BufSet 0 2] 2 0 false (PoolEnv 1 4 3 true 1 0 0 false 100 50 60 0).

Lemma sample_pool_ok : pool_ok sample_pool [[0; 1]] {[2 := 2]} ∅.
Proof.
  assert (Hl : forall i l, [[0; 1]] !! i = Some l -> i = 0%nat /\ l = [0; 1]) by (intros [|i] l; [by intros [= <-]|done]).
  assert (Hb : forall p b, bufs sample_pool !! p = Some b -> p = 0 \/ p = 1 \/ p = 2).
  { cbn. intros p b [[<- _]|[_ [[<- _]|[_ [<- _]%lookup_singleton_Some]]%lookup_insert_Some]]%lookup_insert_Some; auto. }
  constructor; try done.
  - intros [|i] b l; [|done]. intros [= <-] [= <-]. done.
  - intros i l p [-> ->]%Hl Hp. assert (p = 0 \/ p = 1) as [-> | ->] by set_solver; (split; [done|]); by eexists.
  - intros i l [-> ->]%Hl. by apply (bool_decide_unpack _).
  - intros p n [<- <-]%lookup_singleton_Some. by eexists.
  - intros p [b [->|[->| ->]]%Hb]; [left; set_solver|left; set_solver|right; left; by eexists].
  - intros p b Hp. destruct (Hb p b Hp) as [->|[->| ->]]; cbn; lia.
Qed.

(** Two buffers are allocated and the one that was in use is released twice; with the last reference it comes to the
    library, which gives it back. *)
Lemma pool_never_shares_witness : exists s R D, pool_run sample_pool {[2 := 2]} ∅ s R D /\ R !! 0 = Some 2 /\ R !! 2 = None /\
  exists s', comes_to (PAlloc 0) s (Done (RPkt (Some 2))) s'.
Proof.
  set (keep := fun _ : Z => ret (S := buf_pool) tt). set (none := fun _ : Z => ret (S := buf_pool) (@None Z)).
  set (after c s := fst (run_pool_call none keep keep c s)).
  set (s2 := after (PHold 0) (after (PAlloc 0) sample_pool)). set (R2 := refs_after (refs_after {[2 := 2]} (PAlloc 0) (Done (RPkt (Some 0)))) (PHold 0) (Done RDone)).
  set (s4 := after (PRelease 2) (after (PRelease 2) s2)). set (R4 := refs_after (refs_after R2 (PRelease 2) (Done RDone)) (PRelease 2) (EntersFree 2)).
  set (s5 := fst (ci_netif_pkt_put 2 s4)). exists s5, R4, ((∅ ∪ {[2]}) ∖ {[2]}).
  assert (pool_run sample_pool {[2 := 2]} ∅ s5 R4 ((∅ ∪ {[2]}) ∖ {[2]})) as Hrun.
  { apply (PoolPut _ _ _ s4 R4 _ 2 s5); [|set_solver|vm_compute; reflexivity].
    apply (PoolCall _ _ _ (after (PRelease 2) s2) (refs_after R2 (PRelease 2) (Done RDone)) ∅ (PRelease 2) (EntersFree 2) s4); [|by exists 1|intros ???; reflexivity].
    apply (PoolCall _ _ _ s2 R2 ∅ (PRelease 2) (Done RDone)); [|by exists 2|intros ???; vm_compute; reflexivity].
    apply (PoolCall _ _ _ (after (PAlloc 0) sample_pool) _ ∅ (PHold 0) (Done RDone)); [|exists 1; split; [reflexivity|lia]|intros ???; vm_compute; reflexivity].
    apply (PoolCall _ _ _ sample_pool _ ∅ (PAlloc 0) (Done (RPkt (Some 0)))); [apply PoolStart|exact I|intros ???; vm_compute; reflexivity]. }
  split; [exact Hrun|]. split; [reflexivity|]. split; [reflexivity|].
  destruct (pool_never_shares _ _ _ _ _ _ _ sample_pool_ok Hrun) as (L & HL & _ & _ & _ & _ & _ & _ & Hcalls & _).
  destruct (Hcalls (PAlloc 0) I) as (s' & E). exists s'. enough (answer s5 L R4 (PAlloc 0) = Done (RPkt (Some 2))) as Ea by (rewrite Ea in E; exact E).
  destruct (set_lookup _ L _ _ HL 0) as (b & l & Hs & Hl & Hf & _); [pose proof (po_cur _ _ _ _ HL) as Hc; cbn in Hc; lia|]. change (Z.to_nat 0) with 0%nat in *.
  assert (pm_id s5 = 0) as Ei by (vm_compute; reflexivity). unfold answer. rewrite Ei. change (Z.to_nat 0) with 0%nat. rewrite Hl.
  assert (pm_set s5 !! 0%nat = Some (BufSet 2 2)) as Es by (vm_compute; reflexivity). rewrite Es in Hs. injection Hs as <-. cbn in Hf. destruct l as [|p l]; [discriminate|]. destruct Hf as [<- _]. reflexivity.
Defined.
