(* ===== verification/SockAddr.v ===== *)
(** * SockAddr: socket addresses of both families ([ci/internal/ip.h])

    Addresses and ports to and from [struct sockaddr_in] and [struct sockaddr_in6], and the copy to a
    caller's buffer of any length ([getsockname] and the like).  The structures are the
    bytes of their memory; the build supports IPv6. *)

From Stdlib Require Import ZArith Lia Bool.
From Stdlib.Strings Require Import Byte.
From stdpp Require Import base list.
From S2P Require Import Prelude Bytes BitField Utils IpAddr PktQueue Tcp.

(** ** Layouts *)

Definition sin_family := Field 0 2.
Definition sin_port := Field 2 2.
Definition sin_addr := Field 4 4.
Definition sin6_family := Field 0 2.
Definition sin6_port := Field 2 2.
Definition sin6_addr := Field 8 16.
Definition sin6_scope_id := Field 24 4.
Definition sizeof_sockaddr_in : Z := 16.
Definition sizeof_sockaddr_in6 : Z := 28.
Definition sizeof_sockaddr_storage : Z := 128.

Abbreviation sop := (cm (list byte)).
Definition rdm (f : field) : sop Z := let! b := get in access (rd f b).
Definition wrm (f : field) (v : Z) : sop unit := let! b := get in let! b' := access (wr f v b) in modify (fun _ => b').

(** ** Reading *)

Definition ci_tcp_ipv6_is_ipv4 : sop bool := let! a := rdm sin6_addr in ret (CI_IP6_IS_V4MAPPED a || CI_IP6_IS_ADDR_ANY a).

Definition ci_get_ip4_addr (family : Z) : sop Z :=
  ci_assert ((family =? Utils.AF_INET) || (family =? Utils.AF_INET6)) ;;;
  if family =? Utils.AF_INET then rdm sin_addr
  else
    let! e := ci_tcp_ipv6_is_ipv4 in
    ci_assert e ;;;
    let! a := rdm sin6_addr in ret (u32_of a 3).

Definition ci_tcp_ipv6_is_addr_any : sop bool := let! a := rdm sin6_addr in ret (CI_IP6_IS_ADDR_ANY a).

(** [domain] is the socket's; [PF_INET6] is [AF_INET6]. *)
Definition ci_sock_maybe_ipv6 (domain : Z) : sop bool :=
  if domain =? Utils.AF_INET6 then
    let! v4 := ci_tcp_ipv6_is_ipv4 in
    if negb v4 then ret true else ci_tcp_ipv6_is_addr_any
  else ret false.

Definition ci_get_addr : sop ci_addr_t :=
  let! f := rdm sin_family in
  ci_assert ((f =? Utils.AF_INET) || (f =? Utils.AF_INET6)) ;;;
  if f =? Utils.AF_INET6 then rdm sin6_addr
  else let! a := rdm sin_addr in ret (CI_ADDR_FROM_IP4 a).

Definition ci_get_port : sop Z :=
  let! f := rdm sin_family in
  if f =? Utils.AF_INET6 then rdm sin6_port else rdm sin_port.

(** ** Writing *)

Definition ci_make_sockaddr_from_ip4 (port_be16 addr_be32 : Z) : sop unit :=
  wrm sin_family Utils.AF_INET ;;; wrm sin_port port_be16 ;;; wrm sin_addr addr_be32.

Definition ci_make_sockaddr_in6_from_ip4 (port_be16 addr_be32 : Z) : sop unit :=
  wrm sin6_family Utils.AF_INET6 ;;; wrm sin6_port port_be16 ;;; wrm sin6_addr (CI_IP_TO_IP6_MAPPED addr_be32).

(** The address is copied from memory. *)
Definition ci_make_sockaddr_in6_from_ip6 (port_be16 : Z) (addr_be32_p : list byte) : sop unit :=
  wrm sin6_family Utils.AF_INET6 ;;; wrm sin6_port port_be16 ;;;
  let! a := access (load_le 0 16 addr_be32_p) in wrm sin6_addr a.

Definition ci_make_sockaddr_storage_from_addr (port_be16 : Z) (addr : ci_addr_t) : option (list byte) :=
  let u := zeros (Z.to_nat sizeof_sockaddr_storage) in
  if CI_IS_ADDR_IP6 addr then
    u ← wr sin6_family Utils.AF_INET6 u; u ← wr sin6_port port_be16 u; wr sin6_addr addr u
  else
    u ← wr sin_family Utils.AF_INET u; u ← wr sin_port port_be16 u; wr sin_addr (ip4_of addr) u.

(** ** To the caller

    The caller's buffer and the length it gave. *)
Record user := User { u_sa : list byte; u_len : Z }.
Definition set_sa v u := User v (u_len u).
Definition set_len v u := User (u_sa u) v.
Definition on_sa {A} (c : sop A) : cm user A := fun u => let '(b, r) := c (u_sa u) in (set_sa b u, r).

(** [memset] and [memcpy] to the start of the buffer. *)
Definition copy_to (bs : list byte) : sop unit := let! b := get in let! b' := access (store 0 bs b) in modify (fun _ => b').

(** The structure on the stack of the function. *)
Definition on_stack (size : Z) (c : sop unit) : cm user (list byte) := fun u => let '(b, r) := c (zeros (Z.to_nat size)) in
  (u, match r with Ok _ => Ok b | Exit z => Exit z | Abort => Abort | Undef => Undef end).

Definition ci_addr_to_user (domain_in domain_out port_be16 : Z) (addr_be32_p : list byte) (scope_id : Z) : cm user unit :=
  ci_assert ((domain_in =? Utils.AF_INET) || (domain_in =? Utils.AF_INET6)) ;;;
  ci_assert ((domain_out =? Utils.AF_INET) || (domain_out =? Utils.AF_INET6)) ;;;
  let! len :=
    (if domain_out =? Utils.AF_INET6 then ret sizeof_sockaddr_in6
     else ci_assert (domain_in =? Utils.AF_INET) ;;; ret sizeof_sockaddr_in) in
  let! u := get in
  if len <=? u_len u then
    modify (set_len (CI_MIN (u_len u) len)) ;;;
    on_sa (copy_to (zeros (Z.to_nat (CI_MIN (u_len u) len)))) ;;;
    if domain_out =? Utils.AF_INET then
      let! ip := access (load_le 0 4 addr_be32_p) in on_sa (ci_make_sockaddr_from_ip4 port_be16 ip)
    else if domain_in =? Utils.AF_INET then
      let! ip := access (load_le 0 4 addr_be32_p) in on_sa (ci_make_sockaddr_in6_from_ip4 port_be16 ip)
    else
      on_sa (ci_make_sockaddr_in6_from_ip6 port_be16 addr_be32_p) ;;;
      let! a := on_sa (rdm sin6_addr) in
      if CI_IP6_IS_LINKLOCAL a then on_sa (wrm sin6_scope_id scope_id) else ret tt
  else if u_len u =? 0 then modify (set_len len)
  else
    let! ss :=
      (if domain_out =? Utils.AF_INET then
         let! ip := access (load_le 0 4 addr_be32_p) in on_stack len (ci_make_sockaddr_from_ip4 port_be16 ip)
       else if domain_in =? Utils.AF_INET then
         let! ip := access (load_le 0 4 addr_be32_p) in on_stack len (ci_make_sockaddr_in6_from_ip4 port_be16 ip)
       else on_stack len (ci_make_sockaddr_in6_from_ip6 port_be16 addr_be32_p)) in
    on_sa (copy_to (take (Z.to_nat (u_len u)) ss)) ;;;
    modify (set_len len).

(** ** The interface of link-local addresses

    [oo_cp_find_llap] of the control plane gives its result and the ports of the interface. *)
Definition ci_sock_set_ip6_scope_id (oo_cp_find_llap : Z -> Z * Z) (addrlen : Z) (at_connect : bool) (so_bindtodevice : Z) (sa : list byte) : option (Z * Z) :=
  let last dev := if dev =? 0 then Some (-1, dev) else Some (0, dev) in
  if sizeof_sockaddr_in6 <=? addrlen then
    scope ← rd sin6_scope_id sa;
    if negb (scope =? 0) then
      let ifindex := u16 scope in
      if at_connect && negb (so_bindtodevice =? 0) && negb (so_bindtodevice =? ifindex) then Some (-1, so_bindtodevice)
      else
        let '(rc, hwports) := oo_cp_find_llap ifindex in
        if negb (rc =? 0) || (hwports =? 0) then Some (-1, so_bindtodevice) else last ifindex
    else last so_bindtodevice
  else last so_bindtodevice.

(** ** The encoding *)

(** The structure that stands for an address: the family, the port, and for IPv6 the flow and the
    scope. *)
Definition sockaddr_in (port ip : Z) : list byte := le_encode 2 Utils.AF_INET ++ le_encode 2 port ++ le_encode 4 ip ++ zeros 8.
Definition sockaddr_in6 (port a scope : Z) : list byte := le_encode 2 Utils.AF_INET6 ++ le_encode 2 port ++ zeros 4 ++ le_encode 16 a ++ le_encode 4 scope.

Lemma store_at pre mid post bs : length mid = length bs -> store (length pre) bs (pre ++ mid ++ post) = Some (pre ++ bs ++ post).
Proof.
  intros E. unfold store. rewrite decide_True by (rewrite !length_app; lia). rewrite take_app_length. do 3 f_equal.
  rewrite drop_app_ge by lia. rewrite drop_app_ge by lia. replace (length pre + length bs - length pre - length mid)%nat with 0%nat by lia. done.
Qed.

Lemma load_at pre mid post : load (length pre) (length mid) (pre ++ mid ++ post) = Some mid.
Proof. unfold load. rewrite decide_True by (rewrite !length_app; lia). by rewrite drop_app_length, take_app_length. Qed.

Lemma wrm_at f v pre mid post : f_off f = length pre -> length mid = f_len f -> wrm f v (pre ++ mid ++ post) = (pre ++ le_encode (f_len f) v ++ post, Ok tt).
Proof. intros Ho Hm. unfold wrm, wr. rewrite bind_get, Ho, store_at by (rewrite le_encode_length; lia). done. Qed.

Lemma rd_at f pre mid post : f_off f = length pre -> f_len f = length mid -> rd f (pre ++ mid ++ post) = Some (le_decode mid).
Proof. intros Ho Hm. unfold rd, load_le. by rewrite Ho, Hm, load_at. Qed.

Lemma make_in_ok port ip rest : ci_make_sockaddr_from_ip4 port ip (zeros 16 ++ rest) = (sockaddr_in port ip ++ rest, Ok tt).
Proof.
  unfold ci_make_sockaddr_from_ip4. rewrite (bind_Ok _ _ _ _ _ (wrm_at sin_family _ [] (zeros 2) (zeros 14 ++ rest) eq_refl eq_refl)).
  rewrite (bind_Ok _ _ _ _ _ (wrm_at sin_port port (le_encode 2 Utils.AF_INET) (zeros 2) (zeros 12 ++ rest) eq_refl eq_refl)).
  change (le_encode 2 Utils.AF_INET ++ le_encode (f_len sin_port) port ++ zeros 12 ++ rest) with ((le_encode 2 Utils.AF_INET ++ le_encode 2 port) ++ zeros 4 ++ zeros 8 ++ rest).
  rewrite (wrm_at sin_addr ip (le_encode 2 Utils.AF_INET ++ le_encode 2 port) (zeros 4) (zeros 8 ++ rest) eq_refl eq_refl). unfold sockaddr_in. by rewrite <- !app_assoc.
Qed.

Lemma make_in6_ok port a rest : (wrm sin6_family Utils.AF_INET6 ;;; wrm sin6_port port ;;; wrm sin6_addr a) (zeros 28 ++ rest) = (sockaddr_in6 port a 0 ++ rest, Ok tt).
Proof.
  rewrite (bind_Ok _ _ _ _ _ (wrm_at sin6_family _ [] (zeros 2) (zeros 26 ++ rest) eq_refl eq_refl)).
  rewrite (bind_Ok _ _ _ _ _ (wrm_at sin6_port port (le_encode 2 Utils.AF_INET6) (zeros 2) (zeros 24 ++ rest) eq_refl eq_refl)).
  change (le_encode 2 Utils.AF_INET6 ++ le_encode (f_len sin6_port) port ++ zeros 24 ++ rest) with ((le_encode 2 Utils.AF_INET6 ++ le_encode 2 port ++ zeros 4) ++ zeros 16 ++ zeros 4 ++ rest).
  rewrite (wrm_at sin6_addr a (le_encode 2 Utils.AF_INET6 ++ le_encode 2 port ++ zeros 4) (zeros 16) (zeros 4 ++ rest) eq_refl eq_refl). unfold sockaddr_in6. by rewrite <- !app_assoc.
Qed.

(** The fields of the encodings. *)
Lemma in_fields port ip rest : rd sin_family (sockaddr_in port ip ++ rest) = Some Utils.AF_INET /\ rd sin_port (sockaddr_in port ip ++ rest) = Some (u16 port) /\
  rd sin_addr (sockaddr_in port ip ++ rest) = Some (u32 ip).
Proof.
  unfold sockaddr_in. rewrite <- !app_assoc. split; [exact (rd_at sin_family [] (le_encode 2 Utils.AF_INET) _ eq_refl eq_refl)|]. split.
  - rewrite (rd_at sin_port (le_encode 2 Utils.AF_INET) (le_encode 2 port) _ eq_refl eq_refl). by rewrite le_decode_encode.
  - rewrite (app_assoc (le_encode 2 Utils.AF_INET)). rewrite (rd_at sin_addr (le_encode 2 Utils.AF_INET ++ le_encode 2 port) (le_encode 4 ip) _ eq_refl eq_refl). by rewrite le_decode_encode.
Qed.

Lemma in6_fields port a scope rest : rd sin_family (sockaddr_in6 port a scope ++ rest) = Some Utils.AF_INET6 /\ rd sin6_port (sockaddr_in6 port a scope ++ rest) = Some (u16 port) /\
  rd sin6_addr (sockaddr_in6 port a scope ++ rest) = Some (wrap 128 a) /\ rd sin6_scope_id (sockaddr_in6 port a scope ++ rest) = Some (u32 scope).
Proof.
  unfold sockaddr_in6. rewrite <- !app_assoc. split; [exact (rd_at sin_family [] (le_encode 2 Utils.AF_INET6) _ eq_refl eq_refl)|]. split; [|split].
  - rewrite (rd_at sin6_port (le_encode 2 Utils.AF_INET6) (le_encode 2 port) _ eq_refl eq_refl). by rewrite le_decode_encode.
  - rewrite (app_assoc (le_encode 2 port)), (app_assoc (le_encode 2 Utils.AF_INET6)).
    rewrite (rd_at sin6_addr (le_encode 2 Utils.AF_INET6 ++ le_encode 2 port ++ zeros 4) (le_encode 16 a) _ eq_refl eq_refl). by rewrite le_decode_encode.
  - rewrite (app_assoc (zeros 4)), (app_assoc (le_encode 2 port)), (app_assoc (le_encode 2 Utils.AF_INET6)).
    rewrite (rd_at sin6_scope_id (le_encode 2 Utils.AF_INET6 ++ le_encode 2 port ++ zeros 4 ++ le_encode 16 a) (le_encode 4 scope) rest); [by rewrite le_decode_encode|by rewrite !length_app, !le_encode_length|by rewrite le_encode_length].
Qed.

Lemma rdm_ok f v b : rd f b = Some v -> rdm f b = (b, Ok v).
Proof. intros E. unfold rdm. rewrite bind_get. unfold access. by rewrite E. Qed.

Lemma read_in port ip rest : 0 <= port < 2 ^ 16 -> 0 <= ip < 2 ^ 32 ->
  ci_get_addr (sockaddr_in port ip ++ rest) = (sockaddr_in port ip ++ rest, Ok (CI_ADDR_FROM_IP4 ip)) /\ ci_get_port (sockaddr_in port ip ++ rest) = (sockaddr_in port ip ++ rest, Ok port).
Proof.
  intros Hp Hi. destruct (in_fields port ip rest) as (E1 & E2 & E3). rewrite wrap_small in E2, E3 by done. unfold ci_get_addr, ci_get_port. rewrite !(bind_Ok _ _ _ _ _ (rdm_ok _ _ _ E1)). split.
  - exact (bind_Ok _ (fun a => ret (CI_ADDR_FROM_IP4 a)) _ _ _ (rdm_ok _ _ _ E3)).
  - exact (rdm_ok _ _ _ E2).
Qed.

Lemma read_in6 port a scope rest : 0 <= port < 2 ^ 16 -> 0 <= a < 2 ^ 128 ->
  ci_get_addr (sockaddr_in6 port a scope ++ rest) = (sockaddr_in6 port a scope ++ rest, Ok a) /\ ci_get_port (sockaddr_in6 port a scope ++ rest) = (sockaddr_in6 port a scope ++ rest, Ok port).
Proof.
  intros Hp Hi. destruct (in6_fields port a scope rest) as (E1 & E2 & E3 & _). rewrite wrap_small in E2, E3 by done. unfold ci_get_addr, ci_get_port. rewrite !(bind_Ok _ _ _ _ _ (rdm_ok _ _ _ E1)). split.
  - exact (rdm_ok _ _ _ E3).
  - exact (rdm_ok _ _ _ E2).
Qed.

(** Stores one after the other, as computations and as values. *)
Lemma wr_of_wrm f v b b' : wrm f v b = (b', Ok tt) -> wr f v b = Some b'.
Proof. unfold wrm. rewrite bind_get. unfold bind, access, modify. destruct (wr f v b); [by intros [= ->]|done]. Qed.

Lemma wr3 f1 v1 f2 v2 f3 v3 b b' : (wrm f1 v1 ;;; wrm f2 v2 ;;; wrm f3 v3) b = (b', Ok tt) -> (u ← wr f1 v1 b; u ← wr f2 v2 u; wr f3 v3 u) = Some b'.
Proof.
  unfold wrm, bind, get, access, modify. destruct (wr f1 v1 b) as [b1|]; cbn; [|done]. destruct (wr f2 v2 b1) as [b2|]; cbn; [|done]. destruct (wr f3 v3 b2); cbn; [by intros [= ->]|done].
Qed.

Lemma storage_ok port addr : ci_make_sockaddr_storage_from_addr port addr =
  Some (if CI_IS_ADDR_IP6 addr then sockaddr_in6 port addr 0 ++ zeros 100 else sockaddr_in port (ip4_of addr) ++ zeros 112).
Proof.
  unfold ci_make_sockaddr_storage_from_addr. destruct (CI_IS_ADDR_IP6 addr); apply wr3.
  - exact (make_in6_ok port addr (zeros 100)).
  - exact (make_in_ok port (ip4_of addr) (zeros 112)).
Qed.

(** ** The copy to the caller *)

Definition addr_len (domain_out : Z) : Z := if domain_out =? Utils.AF_INET6 then sizeof_sockaddr_in6 else sizeof_sockaddr_in.
Definition addr_bytes (domain_in : Z) : nat := if domain_in =? Utils.AF_INET6 then 16 else 4.

(** What stands for the address in the caller's family. *)
Definition encoded (domain_in domain_out port : Z) (addr : list byte) (scope : Z) : list byte :=
  if domain_out =? Utils.AF_INET then sockaddr_in port (le_decode addr)
  else if domain_in =? Utils.AF_INET then sockaddr_in6 port (CI_IP_TO_IP6_MAPPED (le_decode addr)) 0
  else sockaddr_in6 port (le_decode addr) (if CI_IP6_IS_LINKLOCAL (le_decode addr) then scope else 0).

Lemma on_sa_run {A B} (c : sop A) (k : A -> cm user B) u b r : c (u_sa u) = (b, Ok r) -> bind (on_sa c) k u = k r (set_sa b u).
Proof. intros E. unfold bind, on_sa. by rewrite E. Qed.

Lemma copy_ok bs b : (length bs <= length b)%nat -> copy_to bs b = (bs ++ drop (length bs) b, Ok tt).
Proof. intros H. unfold copy_to. rewrite bind_get. unfold store. by rewrite decide_True by lia. Qed.

Lemma load_all n addr : length addr = n -> load_le 0 n addr = Some (le_decode addr).
Proof. intros H. unfold load_le, load. rewrite decide_True by lia. cbn. rewrite drop_0. by rewrite take_ge by lia. Qed.

Lemma access_run {S A B} (o : option A) a (k : A -> cm S B) s : o = Some a -> bind (access o) k s = k a s.
Proof. by intros ->. Qed.

Lemma bind_ext {S A B} (c : cm S A) (k1 k2 : A -> cm S B) s : (forall a s', k1 a s' = k2 a s') -> bind c k1 s = bind c k2 s.
Proof. intros H. unfold bind. destruct (c s) as [s' [a| | |]]; [apply H|done..]. Qed.

Lemma make_ip6_ok port addr rest : length addr = 16%nat -> ci_make_sockaddr_in6_from_ip6 port addr (zeros 28 ++ rest) = (sockaddr_in6 port (le_decode addr) 0 ++ rest, Ok tt).
Proof.
  intros H. pose proof (make_in6_ok port (le_decode addr) rest) as E. unfold ci_make_sockaddr_in6_from_ip6. rewrite (load_all 16 addr H). exact E.
Qed.

Lemma scope_ok port a scope rest : wrm sin6_scope_id scope (sockaddr_in6 port a 0 ++ rest) = (sockaddr_in6 port a scope ++ rest, Ok tt).
Proof.
  unfold sockaddr_in6. rewrite <- !app_assoc. rewrite (app_assoc (zeros 4)), (app_assoc (le_encode 2 port)), (app_assoc (le_encode 2 Utils.AF_INET6)).
  rewrite (wrm_at sin6_scope_id scope (le_encode 2 Utils.AF_INET6 ++ le_encode 2 port ++ zeros 4 ++ le_encode 16 a) (le_encode 4 0) rest); [|by rewrite !length_app, !le_encode_length|by rewrite le_encode_length].
  by rewrite <- !app_assoc.
Qed.

Section ToUser.
Variables (domain_in domain_out port scope : Z) (addr : list byte) (u : user).
Hypothesis Hin : domain_in = Utils.AF_INET \/ domain_in = Utils.AF_INET6.
Hypothesis Hout : domain_out = Utils.AF_INET6 \/ domain_out = Utils.AF_INET /\ domain_in = Utils.AF_INET.
Hypothesis Haddr : length addr = addr_bytes domain_in.
Hypothesis Hlen : 0 <= u_len u <= Z.of_nat (length (u_sa u)).

(** Filling the structure, in the caller's buffer and on the stack. *)
Definition fill : sop unit :=
  if domain_out =? Utils.AF_INET then let! ip := access (load_le 0 4 addr) in ci_make_sockaddr_from_ip4 port ip
  else if domain_in =? Utils.AF_INET then let! ip := access (load_le 0 4 addr) in ci_make_sockaddr_in6_from_ip4 port ip
  else ci_make_sockaddr_in6_from_ip6 port addr.

Lemma fill_ok rest : fill (zeros (Z.to_nat (addr_len domain_out)) ++ rest) = (encoded domain_in domain_out port addr 0 ++ rest, Ok tt).
Proof.
  unfold fill, encoded. destruct Hout as [->|[-> ->]]; [destruct Hin as [->| ->]|]; cbn -[ci_make_sockaddr_from_ip4 ci_make_sockaddr_in6_from_ip4 ci_make_sockaddr_in6_from_ip6 zeros load_le] in *.
  - rewrite (access_run _ _ _ _ (load_all 4 addr Haddr)). exact (make_in6_ok port (CI_IP_TO_IP6_MAPPED (le_decode addr)) rest).
  - change (Z.to_nat (addr_len Utils.AF_INET6)) with 28%nat. rewrite make_ip6_ok by done. by destruct (CI_IP6_IS_LINKLOCAL _).
  - rewrite (access_run _ _ _ _ (load_all 4 addr Haddr)). exact (make_in_ok port (le_decode addr) rest).
Qed.

Lemma to_user_cases : ci_addr_to_user domain_in domain_out port addr scope u =
  (let len := addr_len domain_out in
   if len <=? u_len u then
     modify (set_len (CI_MIN (u_len u) len)) ;;; on_sa (copy_to (zeros (Z.to_nat (CI_MIN (u_len u) len)))) ;;; on_sa fill ;;;
     if negb (domain_out =? Utils.AF_INET) && negb (domain_in =? Utils.AF_INET) then let! a := on_sa (rdm sin6_addr) in if CI_IP6_IS_LINKLOCAL a then on_sa (wrm sin6_scope_id scope) else ret tt else ret tt
   else if u_len u =? 0 then modify (set_len len)
   else let! ss := on_stack len fill in on_sa (copy_to (take (Z.to_nat (u_len u)) ss)) ;;; modify (set_len len)) u.
Proof.
  assert (Hret : forall (c : sop unit) (w : user), on_sa c w = (on_sa c ;;; ret tt) w).
  { intros c w. unfold bind, on_sa, ret. destruct (c (u_sa w)) as [b [[]| | |]]; done. }
  unfold fill. destruct Hout as [->|[-> ->]]; [destruct Hin as [->| ->]|]; cbn in Haddr.
  - rewrite (load_all 4 addr Haddr). cbn zeta. change (addr_len Utils.AF_INET6) with 28. unfold ci_addr_to_user. rewrite (load_all 4 addr Haddr).
    transitivity ((if 28 <=? u_len u then modify (set_len (CI_MIN (u_len u) 28)) ;;; on_sa (copy_to (zeros (Z.to_nat (CI_MIN (u_len u) 28)))) ;;; on_sa (ci_make_sockaddr_in6_from_ip4 port (le_decode addr))
      else if u_len u =? 0 then modify (set_len 28) else let! ss := on_stack 28 (ci_make_sockaddr_in6_from_ip4 port (le_decode addr)) in on_sa (copy_to (take (Z.to_nat (u_len u)) ss)) ;;; modify (set_len 28)) u); [reflexivity|].
    destruct (28 <=? u_len u); [|reflexivity]. rewrite !bind_modify. apply bind_ext. intros []. apply Hret.
  - reflexivity.
  - rewrite (load_all 4 addr Haddr). cbn zeta. change (addr_len Utils.AF_INET) with 16. unfold ci_addr_to_user. rewrite (load_all 4 addr Haddr).
    transitivity ((if 16 <=? u_len u then modify (set_len (CI_MIN (u_len u) 16)) ;;; on_sa (copy_to (zeros (Z.to_nat (CI_MIN (u_len u) 16)))) ;;; on_sa (ci_make_sockaddr_from_ip4 port (le_decode addr))
      else if u_len u =? 0 then modify (set_len 16) else let! ss := on_stack 16 (ci_make_sockaddr_from_ip4 port (le_decode addr)) in on_sa (copy_to (take (Z.to_nat (u_len u)) ss)) ;;; modify (set_len 16)) u); [reflexivity|].
    destruct (16 <=? u_len u); [|reflexivity]. rewrite !bind_modify. apply bind_ext. intros []. apply Hret.
Qed.

Lemma addr_len_cases : addr_len domain_out = 28 \/ addr_len domain_out = 16.
Proof. destruct Hout as [->|[-> _]]; [by left|by right]. Qed.

Lemma encoded_length s : length (encoded domain_in domain_out port addr s) = Z.to_nat (addr_len domain_out).
Proof. unfold encoded. destruct Hout as [->|[-> ->]]; [destruct Hin as [->| ->]|]; reflexivity. Qed.

Lemma to_user_full : addr_len domain_out <= u_len u ->
  ci_addr_to_user domain_in domain_out port addr scope u = (User (encoded domain_in domain_out port addr scope ++ drop (Z.to_nat (addr_len domain_out)) (u_sa u)) (addr_len domain_out), Ok tt).
Proof.
  intros Hfull. rewrite to_user_cases. cbn zeta. rewrite (proj2 (Z.leb_le _ _) Hfull). rewrite min_ok, Z.min_r by done. rewrite bind_modify.
  pose proof addr_len_cases as Hc. rewrite (on_sa_run _ _ (set_len (addr_len domain_out) u) _ tt (copy_ok (zeros (Z.to_nat (addr_len domain_out))) (u_sa u) ltac:(unfold zeros; rewrite length_replicate; lia))).
  unfold zeros at 2. rewrite length_replicate. rewrite (on_sa_run _ _ (set_sa _ _) _ tt (fill_ok (drop (Z.to_nat (addr_len domain_out)) (u_sa u)))).
  cbn [set_sa set_len u_len]. unfold encoded. destruct Hout as [->|[-> ->]]; [destruct Hin as [->| ->]|]; cbn [negb andb Z.eqb Utils.AF_INET Utils.AF_INET6]; [done| |done].
  set (rest := drop _ _). set (a := le_decode addr). assert (0 <= a < 2 ^ 128) as Ha. { pose proof (le_decode_range addr) as Hr. by rewrite Haddr in Hr. }
  assert ((if CI_IP6_IS_LINKLOCAL a then 0 else 0) = 0) as -> by (by destruct (CI_IP6_IS_LINKLOCAL a)).
  destruct (in6_fields port a 0 rest) as (_ & _ & E & _). rewrite wrap_small in E by done.
  change (Pos.eqb 10 2) with false. cbn [negb andb]. rewrite (on_sa_run (rdm sin6_addr) _ (set_sa (sockaddr_in6 port a 0 ++ rest) _) _ a (rdm_ok _ _ _ E)).
  destruct (CI_IP6_IS_LINKLOCAL a); [|done]. unfold on_sa. cbn [u_sa set_sa]. by rewrite scope_ok.
Qed.

Lemma to_user_cut : u_len u < addr_len domain_out ->
  ci_addr_to_user domain_in domain_out port addr scope u = (User (take (Z.to_nat (u_len u)) (encoded domain_in domain_out port addr 0) ++ drop (Z.to_nat (u_len u)) (u_sa u)) (addr_len domain_out), Ok tt).
Proof.
  intros Hcut. rewrite to_user_cases. cbn zeta. rewrite (proj2 (Z.leb_gt _ _) Hcut). destruct (Z.eqb_spec (u_len u) 0) as [E0|E0].
  - rewrite E0. unfold modify. cbn. by destruct u.
  - pose proof (fill_ok []) as Hf. rewrite !app_nil_r in Hf. unfold bind at 1. unfold on_stack. rewrite Hf. pose proof addr_len_cases as Hc.
    rewrite (on_sa_run _ _ u _ tt (copy_ok (take (Z.to_nat (u_len u)) (encoded domain_in domain_out port addr 0)) (u_sa u) ltac:(rewrite length_take, encoded_length; lia))).
    rewrite length_take, encoded_length. rewrite Nat.min_l by lia. done.
Qed.
End ToUser.

Lemma mapped_range ip : 0 <= ip < 2 ^ 32 -> 0 <= CI_IP_TO_IP6_MAPPED ip < 2 ^ 128.
Proof.
  intros H. unfold CI_IP_TO_IP6_MAPPED, from_u32. destruct (negb (ip =? 0)); [|done]. change (CI_BSWAP_BE32 0xffff) with 0xffff0000.
  rewrite Z.lor_comm. rewrite lor_shiftl_add; [|lia|vm_compute; split; congruence]. change (Z.shiftl 4294901760 64) with (0xffff0000 * 2 ^ 64). lia.
Qed.

(** The scope is in the last four bytes. *)
Lemma sockaddr_in6_prefix port a sc sc' n : (n <= 24)%nat -> take n (sockaddr_in6 port a sc) = take n (sockaddr_in6 port a sc').
Proof.
  intros Hn. assert (take 24 (sockaddr_in6 port a sc) = take 24 (sockaddr_in6 port a sc')) as E by reflexivity.
  rewrite <- (Nat.min_l n 24), <- !take_take by done. by rewrite E.
Qed.

Lemma encoded_prefix din dout port addr scope len : din = Utils.AF_INET \/ CI_IP6_IS_LINKLOCAL (le_decode addr) = false \/ len <= 24 ->
  take (Z.to_nat len) (encoded din dout port addr 0) = take (Z.to_nat len) (encoded din dout port addr scope).
Proof.
  intros H. unfold encoded. destruct (dout =? Utils.AF_INET); [done|]. destruct (Z.eqb_spec din Utils.AF_INET); [done|]. destruct H as [?|[->|H]]; [done|done|]. apply sockaddr_in6_prefix. lia.
Qed.

Lemma encoded_scope din port addr : drop 24 (encoded din Utils.AF_INET6 port addr 0) = zeros 4.
Proof. unfold encoded. change (Utils.AF_INET6 =? Utils.AF_INET) with false. cbv iota. destruct (din =? Utils.AF_INET); [reflexivity|]. by destruct (CI_IP6_IS_LINKLOCAL (le_decode addr)). Qed.

(** C39: socket addresses.  An address and a port put in a [sockaddr_storage] are what
    [ci_get_addr] and [ci_get_port] read from it, for both families.  [ci_addr_to_user] writes to
    the caller's buffer the address in the family asked for, never past the length given nor past the structure;
    a short buffer gets the first bytes of the structure with scope 0, an empty one nothing, and the length becomes that of
    the whole structure.  These are the first bytes of the structure for a long buffer, except that of a link-local
    address 25 to 27 bytes have zeros where the scope is: the interface is not stored for short buffers.  When the buffer is long enough, reading it back gives the
    port and the address: the same one, or for an IPv4 address as IPv6 the mapped one (the unspecified address
    for 0.0.0.0), with the interface in the scope of a link-local address. *)
Theorem sockaddr_roundtrip domain_in domain_out port scope addr u :
  (domain_in = Utils.AF_INET \/ domain_in = Utils.AF_INET6) -> (domain_out = Utils.AF_INET6 \/ domain_out = Utils.AF_INET /\ domain_in = Utils.AF_INET) ->
  length addr = addr_bytes domain_in -> 0 <= u_len u <= Z.of_nat (length (u_sa u)) -> 0 <= port < 2 ^ 16 -> 0 <= scope < 2 ^ 16 ->
  (forall a, addr_ok a -> exists b, ci_make_sockaddr_storage_from_addr port a = Some b /\ length b = 128%nat /\ ci_get_addr b = (b, Ok a) /\ ci_get_port b = (b, Ok port)) /\
  exists u', ci_addr_to_user domain_in domain_out port addr scope u = (u', Ok tt) /\ u_len u' = addr_len domain_out /\ length (u_sa u') = length (u_sa u) /\
    drop (Z.to_nat (u_len u)) (u_sa u') = drop (Z.to_nat (u_len u)) (u_sa u) /\ drop (Z.to_nat (addr_len domain_out)) (u_sa u') = drop (Z.to_nat (addr_len domain_out)) (u_sa u) /\
    (u_len u < addr_len domain_out -> take (Z.to_nat (u_len u)) (u_sa u') = take (Z.to_nat (u_len u)) (encoded domain_in domain_out port addr 0) /\
       (domain_in = Utils.AF_INET \/ CI_IP6_IS_LINKLOCAL (le_decode addr) = false \/ u_len u <= 24 ->
          take (Z.to_nat (u_len u)) (u_sa u') = take (Z.to_nat (u_len u)) (encoded domain_in domain_out port addr scope)) /\
       (domain_out = Utils.AF_INET6 -> 24 < u_len u -> take (Z.to_nat (u_len u) - 24) (drop 24 (u_sa u')) = zeros (Z.to_nat (u_len u) - 24))) /\
    (addr_len domain_out <= u_len u -> ci_get_port (u_sa u') = (u_sa u', Ok port) /\
       ci_get_addr (u_sa u') = (u_sa u', Ok (if domain_out =? Utils.AF_INET then CI_ADDR_FROM_IP4 (le_decode addr)
         else if domain_in =? Utils.AF_INET then CI_IP_TO_IP6_MAPPED (le_decode addr) else le_decode addr)) /\
       (domain_in = Utils.AF_INET6 -> CI_IP6_IS_LINKLOCAL (le_decode addr) = true -> rd sin6_scope_id (u_sa u') = Some scope)).
Proof.
  intros Hin Hout Haddr Hlen Hp Hs. split.
  { intros a Ha. rewrite storage_ok. eexists. split; [reflexivity|]. destruct (CI_IS_ADDR_IP6 a) eqn:E6.
    - split; [reflexivity|]. by apply read_in6.
    - split; [reflexivity|]. unfold CI_IS_ADDR_IP6 in E6. apply negb_false_iff, Z.eqb_eq in E6. apply is_addr_ip6_zero in E6; [|done].
      assert (0 <= ip4_of a < 2 ^ 32) as Hip by (unfold ip4_of, u32_of; apply getbits_range; lia). rewrite E6 at 3. by apply read_in. }
  pose proof (encoded_length domain_in domain_out port addr Hin Hout Haddr) as Henc. pose proof (addr_len_cases domain_in domain_out Hout) as Hc.
  destruct (Z_lt_le_dec (u_len u) (addr_len domain_out)) as [Hcut|Hfull].
  - rewrite to_user_cut by done. eexists. split; [reflexivity|]. cbn [u_len u_sa]. set (n := Z.to_nat (u_len u)). set (e := take n (encoded domain_in domain_out port addr 0)).
    assert (length e = n) as He by (unfold e; rewrite length_take, Henc; lia). split; [done|]. split; [rewrite length_app, length_drop; lia|].
    split; [by rewrite drop_app_ge, He, Nat.sub_diag by lia|]. split; [rewrite drop_app_ge, drop_drop by lia; f_equal; lia|]. split; [|lia].
    intros _. assert (take n (e ++ drop n (u_sa u)) = e) as -> by (rewrite <- He at 1; apply take_app_length). split; [done|]. split; [intros Hs'; by apply encoded_prefix|].
    intros Ho Hn. rewrite take_drop_commute. replace (24 + (n - 24))%nat with n by lia. rewrite <- He at 1. rewrite take_app_length.
    unfold e. rewrite <- (Nat.sub_add 24 n) at 1 by lia. rewrite Nat.add_comm, <- take_drop_commute, Ho, encoded_scope. unfold zeros. rewrite take_replicate. f_equal. rewrite Ho in Hcut. change (addr_len Utils.AF_INET6) with 28 in Hcut. unfold n. lia.
  - rewrite to_user_full by done. eexists. split; [reflexivity|]. cbn [u_len u_sa]. set (n := Z.to_nat (addr_len domain_out)). set (e := encoded domain_in domain_out port addr scope).
    assert (length e = n) as He by apply Henc. split; [done|]. split; [rewrite length_app, length_drop; lia|].
    split; [rewrite drop_app_ge, drop_drop by lia; f_equal; lia|]. split; [by rewrite drop_app_ge, He, Nat.sub_diag by lia|]. split; [lia|]. intros _.
    pose proof (le_decode_range addr) as Hr. rewrite Haddr in Hr. unfold e, encoded, addr_bytes in *. destruct Hout as [->|[-> ->]]; [destruct Hin as [->| ->]|]; cbn in Hr.
    + destruct (read_in6 port (CI_IP_TO_IP6_MAPPED (le_decode addr)) 0 (drop n (u_sa u)) Hp (mapped_range _ Hr)) as [E1 E2]. done.
    + destruct (read_in6 port (le_decode addr) (if CI_IP6_IS_LINKLOCAL (le_decode addr) then scope else 0) (drop n (u_sa u)) Hp Hr) as [E1 E2]. split; [done|]. split; [done|]. intros _ ->.
      destruct (in6_fields port (le_decode addr) scope (drop n (u_sa u))) as (_ & _ & _ & E). by rewrite wrap_small in E by lia.
    + destruct (read_in port (le_decode addr) (drop n (u_sa u)) Hp Hr) as [E1 E2]. done.
Qed.

(** A link-local address in a buffer that is long enough, and one cut after the port. *)
Lemma sockaddr_roundtrip_witness :
  (exists u', ci_addr_to_user Utils.AF_INET6 Utils.AF_INET6 0x5000 (xfe :: x80 :: zeros 14) 3 (User (zeros 32) 32) = (u', Ok tt) /\ u_len u' = 28 /\
     ci_get_port (u_sa u') = (u_sa u', Ok 0x5000) /\ rd sin6_scope_id (u_sa u') = Some 3) /\
  (exists u', ci_addr_to_user Utils.AF_INET Utils.AF_INET 0x5000 [x0a; x00; x00; x01] 0 (User (zeros 32) 4) = (u', Ok tt) /\ u_len u' = 16 /\ drop 4 (u_sa u') = zeros 28).
Proof.
  split.
  - destruct (sockaddr_roundtrip Utils.AF_INET6 Utils.AF_INET6 0x5000 3 (xfe :: x80 :: zeros 14) (User (zeros 32) 32)) as (_ & u' & E & El & _ & _ & _ & _ & Hf);
      [by right|by left|reflexivity|vm_compute; split; congruence|lia|lia|]. destruct Hf as (H1 & _ & H2); [vm_compute; congruence|].
    exists u'. split; [exact E|]. split; [exact El|]. split; [exact H1|]. apply H2; reflexivity.
  - destruct (sockaddr_roundtrip Utils.AF_INET Utils.AF_INET 0x5000 0 [x0a; x00; x00; x01] (User (zeros 32) 4)) as (_ & u' & E & El & _ & Hd & _);
      [by left|by right|reflexivity|vm_compute; split; congruence|lia|lia|]. exists u'. split; [exact E|]. split; [exact El|exact Hd].
Defined.

(** The scope of an address is 32 bits wide and the index of an interface 16: scope 65537 is taken for interface 1. *)
Lemma scope_cut find sa : rd sin6_scope_id sa = Some 65537 -> find 1 = (0, 1) -> ci_sock_set_ip6_scope_id find 28 false 0 sa = Some (0, 1).
Proof. intros E1 E2. unfold ci_sock_set_ip6_scope_id. rewrite E1. simpl. change (u16 65537) with 1. by rewrite E2. Qed.

(** The scope that a caller's buffer of 25 to 27 bytes gets is 0, whatever the interface. *)
Lemma cut_scope_lost u' : ci_addr_to_user Utils.AF_INET6 Utils.AF_INET6 0 (xfe :: x80 :: zeros 14) 3 (User (zeros 27) 27) = (u', Ok tt) ->
  drop 24 (u_sa u') = [x00; x00; x00] /\ take 3 (drop 24 (encoded Utils.AF_INET6 Utils.AF_INET6 0 (xfe :: x80 :: zeros 14) 3)) = [x03; x00; x00].
Proof. intros E. vm_compute in E. injection E as <-. by vm_compute. Qed.
