(* ===== verification/ThrRef.v ===== *)
(** * ThrRef: the reference counts of a stack ([onload/tcp_helper_ref.h])

    A stack has three counts: internal references, references of processes and references
    of applications.  A reference of one level is counted there and in all levels below;
    it is taken from the lowest level up and dropped from its level down, one
    compare-and-swap or decrement at a time, while other threads do the same.  A count
    that has reached 0 stays 0, and whoever drops the last reference of a level calls the
    level's release handler.  The handlers are functions of the library: the model
    records that one is called. *)

From Stdlib Require Import ZArith Lia Bool.
From stdpp Require Import gmap gmultiset relations.
From S2P Require Import Prelude Atomic Rely TcpSeq.

Definition OO_THR_REF_NONE : Z := -1.
Definition OO_THR_REF_BASE : Z := 0.
Definition OO_THR_REF_FILE : Z := 1.
Definition OO_THR_REF_APP : Z := 2.
Definition OO_THR_REF_INFTY : Z := 3.

Definition EBUSY : Z := 16.
Definition ETOOMANYREFS : Z := 109.

(** The calls; [passes] is one less than the number of times that a compare-and-swap loop
    of the call may go round. *)
Inductive refop :=
  | OGetOne (type : Z) (passes : nat) | ODropOne (type : Z)
  | OGet (type : Z) (passes : nat) | ODrop (type : Z) | OIsZero (type : Z).

Abbreviation refevent := (nat * refop * Z)%type.

(** The array [oo_thr_ref_t] and the calls of handlers.  The other fields are auxiliary and
    not read by the code: for each level the threads that have references of it, the
    thread that is about to call its handler, and what the calls have returned. *)
Record thr := Thr {
  ref : Z -> Z; released : list Z;
  holders : Z -> gmultiset nat; due : Z -> option nat; results : list refevent }.

Definition at_level {A} (f : Z -> A) (l : Z) (a : A) : Z -> A := fun l' => if l' =? l then a else f l'.

(** The effects of a successful swap, of a decrement, of a call of a handler. *)
Definition gain_ref (t : nat) (type v : Z) (s : thr) : thr :=
  Thr (at_level (ref s) type v) (released s) (at_level (holders s) type ({[+ t +]} ⊎ holders s type)) (due s) (results s).
Definition lose_ref (t : nat) (type v : Z) (s : thr) : thr :=
  Thr (at_level (ref s) type v) (released s) (at_level (holders s) type (holders s type ∖ {[+ t +]}))
    (if v =? 0 then at_level (due s) type (Some t) else due s) (results s).
Definition call_release (type : Z) (s : thr) : thr :=
  Thr (ref s) (released s ++ [type]) (holders s) (at_level (due s) type None) (results s).
Definition record (e : refevent) (s : thr) : thr := Thr (ref s) (released s) (holders s) (due s) (results s ++ [e]).

(** An access to [ref[type]] is inside the array or has undefined behaviour. *)
Definition in_array {A} (type : Z) (p : act thr A) : act thr A :=
  if (0 <=? type) && (type <? OO_THR_REF_INFTY) then p else Fail.

(** [ci_atomic32_dec_and_test]. *)
Definition dec_and_test (t : nat) (type : Z) : act thr Z :=
  Do (fun s => let v := u32 (ref s type - 1) in (lose_ref t type v s, if v =? 0 then 1 else 0)) Ret.

Section Code.
(** Whether the library is built without assertions. *)
Context (ndebug : bool).

Definition ci_assert {A} (b : bool) (p : act thr A) : act thr A := aassert (ndebug || b) p.

(** [None] when the loop has used up its passes. *)
Fixpoint oo_thr_ref_get_one (t : nat) (passes : nat) (type : Z) : act thr (option Z) :=
  match passes with
  | O => Ret None
  | S passes' => in_array type
      (alet val := aread (fun s => ref s type) in
       if val =? 0 then Ret (Some (- EBUSY))
       else if (type =? OO_THR_REF_BASE) && negb (Z.land (u32 (val + 1)) (2 ^ 31) =? 0) then
         ci_assert false (Ret (Some (- ETOOMANYREFS)))
       else
         ci_assert (Z.land (u32 (val + 1)) (2 ^ 31) =? 0)
           (alet ok := acas (fun s => ref s type) (gain_ref t type) val (u32 (val + 1)) in
            if ok =? 1 then Ret (Some 0) else oo_thr_ref_get_one t passes' type))%C
  end.

Definition oo_thr_ref_drop_one (t : nat) (type : Z) : act thr Z :=
  in_array type
    (alet last := dec_and_test t type in
     if last =? 1 then awrite (call_release type) else Ret 0)%C.

(** The loop [for( t--; t > OO_THR_REF_NONE; t-- )] and that of [oo_thr_ref_drop]. *)
Fixpoint drop_levels (t : nat) (fuel : nat) (type : Z) : act thr Z :=
  match fuel with
  | O => Ret 0
  | S fuel' =>
      if OO_THR_REF_NONE <? type then
        (alet _ := oo_thr_ref_drop_one t type in drop_levels t fuel' (type - 1))%C
      else Ret 0
  end.

(** The first loop of [oo_thr_ref_get]: [rc] and [t] after it. *)
Fixpoint get_levels (t : nat) (passes : nat) (type : Z) (fuel : nat) (l : Z) : act thr (option (Z * Z)) :=
  match fuel with
  | O => Ret (Some (0, l))
  | S fuel' =>
      if l <=? type then
        (alet r := oo_thr_ref_get_one t passes l in
         match r with
         | None => Ret None
         | Some rc => if negb (rc =? 0) then Ret (Some (rc, l)) else get_levels t passes type fuel' (l + 1)
         end)%C
      else Ret (Some (0, l))
  end.

Definition oo_thr_ref_get (t : nat) (passes : nat) (type : Z) : act thr (option Z) :=
  ci_assert (OO_THR_REF_NONE <? type)
    (alet r := get_levels t passes type (Z.to_nat (type + 1)) (OO_THR_REF_NONE + 1) in
     match r with
     | None => Ret None
     | Some (rc, l) =>
         if rc =? 0 then Ret (Some 0)
         else alet _ := drop_levels t (Z.to_nat l) (l - 1) in Ret (Some rc)
     end)%C.

Definition oo_thr_ref_drop (t : nat) (type : Z) : act thr Z :=
  ci_assert (OO_THR_REF_NONE <? type) (drop_levels t (Z.to_nat (type + 1)) type).

Definition oo_thr_ref_is_zero (type : Z) : act thr Z :=
  ci_assert (OO_THR_REF_NONE <=? type) (ci_assert (type <=? OO_THR_REF_INFTY)
    (if type =? OO_THR_REF_NONE then Ret 0
     else if type =? OO_THR_REF_INFTY then Ret 1
     else in_array type (aread (fun s => if ref s type =? 0 then 1 else 0)))).

Definition returns (r : act thr Z) : act thr (option Z) := abind r (fun v => Ret (Some v)).

Definition ref_body (t : nat) (o : refop) : act thr (option Z) :=
  match o with
  | OGetOne type n => oo_thr_ref_get_one t (S n) type
  | ODropOne type => returns (oo_thr_ref_drop_one t type)
  | OGet type n => oo_thr_ref_get t (S n) type
  | ODrop type => returns (oo_thr_ref_drop t type)
  | OIsZero type => returns (oo_thr_ref_is_zero type)
  end.

(** A call writes its result in the auxiliary history before it returns. *)
Definition ref_code (t : nat) (o : refop) : act thr (option Z) :=
  abind (ref_body t o) (fun r => match r with None => Ret None | Some b => abind (awrite (record (t, o, b))) (fun _ => Ret (Some b)) end).
End Code.

(** A loop that has used up its passes goes on without end. *)
Definition spin (t : nat) (o : refop) : act thr (option Z) := Do (fun s => (s, 0)) (fun _ => Ret None).

(** ** The contract *)

Definition level (l : Z) : Prop := 0 <= l <= 2.

(** The references of a level that a thread has. *)
Definition cnt (s : thr) (t : nat) (l : Z) : Z := Z.of_nat (multiplicity t (holders s l)).

(** What callers owe, where [m] are the references of the thread: a level is taken on top of the one below, and a reference that is
    dropped is one the thread has, up to this level and not beyond. *)
Definition fits (m : Z -> Z) (o : refop) : Prop :=
  match o with
  | OGetOne type _ => level type /\ (type = 0 \/ m type < m (type - 1))
  | ODropOne type | ODrop type => level type /\ m (type + 1) < m type
  | OGet type _ => level type
  | OIsZero type => -1 <= type <= 3
  end.

(** What the result of a call makes of the references of its thread. *)
Definition change (l : Z) (e : refevent) : Z :=
  match e with
  | (_, OGetOne type _, b) => if (b =? 0) && (l =? type) then 1 else 0
  | (_, OGet type _, b) => if (b =? 0) && (0 <=? l) && (l <=? type) then 1 else 0
  | (_, ODropOne type, _) => if l =? type then -1 else 0
  | (_, ODrop type, _) => if (0 <=? l) && (l <=? type) then -1 else 0
  | (_, OIsZero _, _) => 0
  end.
Definition balance (l : Z) (h : list refevent) : Z := foldr (fun e n => change l e + n) 0 h.

(** What a result says about the counts, then and ever after. *)
Definition told (ndebug : bool) (s : thr) (e : refevent) : Prop :=
  match e with
  | (_, OGetOne type _, b) | (_, OGet type _, b) =>
      b = 0 \/ (b = - EBUSY /\ level type /\ ref s type = 0) \/ (ndebug = true /\ b = - ETOOMANYREFS)
  | (_, OIsZero type, b) => (b = 0 /\ type < 3) \/ (b = 1 /\ (type = 3 \/ (level type /\ ref s type = 0)))
  | _ => True
  end.

Definition calls (l : Z) (s : thr) : Z := Z.of_nat (length (filter (fun x => x = l) (released s))).

(** A build with assertions is considered as long as fewer than [2^31 - 1] base references
    exist; it stops when the last one of these is asked for. *)
Definition few_refs (ndebug : bool) (s : thr) : Prop := ndebug = true \/ ref s 0 < 2 ^ 31 - 1.

Section Proof.
Context (ndebug : bool) (s0 : thr).

(** The counts are those of the holders, every level is held within the one below, and a
    handler has been called or is about to be, once, when a count has come down to 0. *)
Record counts_ok (s : thr) : Prop := {
  c_size : forall l, level l -> ref s l = Z.of_nat (size (holders s l));
  c_chain : forall l, 0 <= l -> holders s (l + 1) ⊆ holders s l;
  c_top : holders s 3 = ∅;
  c_bound : ref s 0 < 2 ^ 31;
  c_release : forall l, level l ->
    calls l s + (if due s l then 1 else 0) + (if ref s0 l =? 0 then 1 else 0) = if ref s l =? 0 then 1 else 0;
  c_told : forall e, e ∈ results s -> told ndebug s e }.

Definition ref_guar (t : nat) (s s' : thr) : Prop :=
  (forall t', t' <> t -> (forall l, cnt s' t' l = cnt s t' l) /\ (forall l, due s' l = Some t' <-> due s l = Some t') /\
     of_thread t' (results s') = of_thread t' (results s)) /\
  (forall l, level l -> ref s l = 0 -> ref s' l = 0).

Definition settled (t : nat) (s : thr) : Prop :=
  forall l, cnt s t l = cnt s0 t l + balance l (of_thread t (results s)) /\ due s l <> Some t.

Definition ref_pre (t : nat) (o : refop) (s : thr) : Prop := settled t s /\ fits (cnt s t) o.
Definition stuck (t : nat) (o : refop) (h : list refevent) (s : thr) : Prop := of_thread t (results s) = h.

(** What thread [t] has, the handler it is about to call, and its results. *)
Definition owns (t : nat) (m : Z -> Z) (w : option Z) (h : list refevent) (s : thr) : Prop :=
  (forall l, cnt s t l = m l) /\ (forall l, due s l = Some t <-> w = Some l) /\ of_thread t (results s) = h.

Abbreviation tri t := (triple (few_refs ndebug) counts_ok ref_guar t).
Abbreviation keeps t := (stable counts_ok ref_guar t).

Lemma ref_guar_refl t s : ref_guar t s s.
Proof. done. Qed.

Lemma owns_keeps t m w h : keeps t (owns t m w h).
Proof.
  intros t' s s' Hne _ _ [Hg _] (H1 & H2 & H3). destruct (Hg t ltac:(done)) as (G1 & G2 & G3). split; [|split].
  - intros l. by rewrite G1.
  - intros l. by rewrite G2.
  - by rewrite G3.
Qed.

Lemma and_keeps t (P Q : thr -> Prop) : keeps t P -> keeps t Q -> keeps t (fun s => P s /\ Q s).
Proof. intros HP HQ t' s s' H1 H2 H3 H4 [A B]. split; [by apply (HP t' s s')|by apply (HQ t' s s')]. Qed.

Lemma zero_keeps t l : level l -> keeps t (fun s => ref s l = 0).
Proof. intros Hl t' s s' _ _ _ [_ Hz] E. by apply Hz. Qed.

Lemma told_keeps s s' e : (forall l, level l -> ref s l = 0 -> ref s' l = 0) -> told ndebug s e -> told ndebug s' e.
Proof. intros Hz. destruct e as [[t [ty n|ty|ty n|ty|ty]] b]; simpl; intuition auto 6. Qed.

Lemma counts_le s l : counts_ok s -> 0 <= l <= 1 -> ref s (l + 1) <= ref s l.
Proof.
  intros H Hl. rewrite !(c_size _ H) by (unfold level; lia). assert (holders s (l + 1) ⊆ holders s l) as Hs by (apply (c_chain _ H); lia).
  apply gmultiset_subseteq_size in Hs. lia.
Qed.

Lemma counts_order s : counts_ok s -> ref s 2 <= ref s 1 <= ref s 0.
Proof. intros H. split; [apply (counts_le s 1 H)|apply (counts_le s 0 H)]; lia. Qed.

(** A level that has more holders of the one below is smaller. *)
Lemma counts_lt s t l : counts_ok s -> 1 <= l <= 2 -> cnt s t l < cnt s t (l - 1) -> ref s l < ref s (l - 1).
Proof.
  intros H Hl Hc. rewrite !(c_size _ H) by (unfold level; lia). assert (holders s (l - 1 + 1) ⊆ holders s (l - 1)) as Hs by (apply (c_chain _ H); lia).
  replace (l - 1 + 1) with l in Hs by lia. assert (holders s l ⊂ holders s (l - 1)) as Hlt.
  { split; [done|]. intros Hge. specialize (Hge t). unfold cnt in Hc. lia. }
  apply gmultiset_subset_size in Hlt. lia.
Qed.

Lemma at_level_eq {A} (f : Z -> A) l a : at_level f l a l = a.
Proof. unfold at_level. by rewrite Z.eqb_refl. Qed.

Lemma at_level_ne {A} (f : Z -> A) l a l' : l' <> l -> at_level f l a l' = f l'.
Proof. intros. unfold at_level. by rewrite (proj2 (Z.eqb_neq l' l)). Qed.

Lemma at_level_cases {A} (f : Z -> A) l a l' : (l' = l /\ at_level f l a l' = a) \/ (l' <> l /\ at_level f l a l' = f l').
Proof. destruct (decide (l' = l)) as [->|H]; [left|right]; (split; [done|]); [apply at_level_eq|by apply at_level_ne]. Qed.

Lemma cnt_gain s t l v t' l' : cnt (gain_ref t l v s) t' l' = cnt s t' l' + (if decide (t' = t /\ l' = l) then 1 else 0).
Proof.
  unfold cnt. simpl. destruct (at_level_cases (holders s) l ({[+ t +]} ⊎ holders s l) l') as [[-> ->]|[Hl ->]].
  - rewrite multiplicity_disj_union. destruct (decide (t' = t)) as [->|Ht].
    + rewrite multiplicity_singleton_eq, decide_True by done. lia.
    + rewrite multiplicity_singleton_ne by done. rewrite decide_False by naive_solver. lia.
  - rewrite decide_False by naive_solver. lia.
Qed.

Lemma cnt_lose s t l v t' l' : 0 < cnt s t l -> cnt (lose_ref t l v s) t' l' = cnt s t' l' - (if decide (t' = t /\ l' = l) then 1 else 0).
Proof.
  unfold cnt. simpl. intros Hp. destruct (at_level_cases (holders s) l (holders s l ∖ {[+ t +]}) l') as [[-> ->]|[Hl ->]].
  - rewrite multiplicity_difference. destruct (decide (t' = t)) as [->|Ht].
    + rewrite multiplicity_singleton_eq, decide_True by done. lia.
    + rewrite multiplicity_singleton_ne by done. rewrite decide_False by naive_solver. lia.
  - rewrite decide_False by naive_solver. lia.
Qed.

(** One more reference. *)
Lemma gain_ok s t l : counts_ok s -> level l -> ref s l <> 0 -> (l = 0 -> ref s 0 + 1 < 2 ^ 31) -> (l = 0 \/ cnt s t l < cnt s t (l - 1)) ->
  counts_ok (gain_ref t l (ref s l + 1) s) /\ ref_guar t s (gain_ref t l (ref s l + 1) s).
Proof.
  intros H Hl Hnz Hb Hc. assert (forall l', level l' -> 0 <= ref s l') as Hpos by (intros l' Hl'; rewrite (c_size _ H) by done; lia).
  assert (forall l', level l' -> ref s l' = 0 -> ref (gain_ref t l (ref s l + 1) s) l' = 0) as Hz.
  { intros l' Hl' E. simpl. rewrite at_level_ne; [done|]. intros ->. done. }
  split; [split|split].
  - intros l' Hl'. simpl. destruct (decide (l' = l)) as [->|Hne].
    + rewrite !at_level_eq, gmultiset_size_disj_union, gmultiset_size_singleton, (c_size _ H) by done. lia.
    + rewrite !at_level_ne by done. by apply (c_size _ H).
  - intros l' Hl' x. pose proof (c_chain _ H l' Hl' x) as Hx. pose proof (cnt_gain s t l (ref s l + 1) x (l' + 1)) as E1.
    pose proof (cnt_gain s t l (ref s l + 1) x l') as E2. unfold cnt in E1, E2, Hc.
    destruct (decide (x = t /\ l' + 1 = l)) as [[? ?]|], (decide (x = t /\ l' = l)) as [[? ?]|]; subst; try lia.
    destruct Hc as [Hc|Hc]; [lia|]. replace (l' + 1 - 1) with l' in Hc by lia. lia.
  - simpl. rewrite at_level_ne by (unfold level in Hl; lia). by apply (c_top _ H).
  - simpl. destruct (decide (l = 0)) as [->|Hne]; [rewrite at_level_eq; lia|]. rewrite at_level_ne by lia. apply (c_bound _ H).
  - intros l' Hl'. pose proof (c_release _ H l' Hl') as E. unfold calls in *. simpl. rewrite E. destruct (decide (l' = l)) as [->|Hne].
    + rewrite at_level_eq. specialize (Hpos l Hl). rewrite (proj2 (Z.eqb_neq (ref s l) 0)) by done. rewrite (proj2 (Z.eqb_neq (ref s l + 1) 0)) by lia. done.
    + by rewrite at_level_ne.
  - intros e He. eapply told_keeps; [exact Hz|]. by apply (c_told _ H).
  - intros t' Ht. split; [|done]. intros l'. rewrite cnt_gain, decide_False by naive_solver. lia.
  - exact Hz.
Qed.

(** One less. *)
Lemma lose_ok s t l : counts_ok s -> level l -> cnt s t (l + 1) < cnt s t l ->
  counts_ok (lose_ref t l (ref s l - 1) s) /\ ref_guar t s (lose_ref t l (ref s l - 1) s) /\ 0 < ref s l /\ due s l = None.
Proof.
  intros H Hl Hc. assert (0 < cnt s t l) as Hp by (unfold cnt in *; lia).
  assert (t ∈ holders s l) as Hin by (apply elem_of_multiplicity; unfold cnt in Hp; lia).
  assert (size (holders s l ∖ {[+ t +]}) = size (holders s l) - 1)%nat as Hsz.
  { rewrite gmultiset_size_difference, gmultiset_size_singleton; [done|]. by apply gmultiset_singleton_subseteq_l. }
  assert (0 < size (holders s l))%nat as Hs0.
  { apply gmultiset_singleton_subseteq_l in Hin. apply gmultiset_subseteq_size in Hin. rewrite gmultiset_size_singleton in Hin. lia. }
  assert (0 < ref s l) as Hr by (rewrite (c_size _ H) by done; lia).
  assert (forall l', level l' -> ref s l' = 0 -> ref (lose_ref t l (ref s l - 1) s) l' = 0) as Hz.
  { intros l' Hl' E. simpl. rewrite at_level_ne; [done|]. intros ->. lia. }
  pose proof (c_release _ H l Hl) as Erel. rewrite (proj2 (Z.eqb_neq (ref s l) 0)) in Erel by lia.
  assert (due s l = None) as Hdue by (destruct (due s l), (ref s0 l =? 0); unfold calls in Erel; [lia|lia|done|done]).
  split; [split|split; [split|done]].
  - intros l' Hl'. simpl. destruct (decide (l' = l)) as [->|Hne].
    + rewrite !at_level_eq, Hsz, (c_size _ H) by done. lia.
    + rewrite !at_level_ne by done. by apply (c_size _ H).
  - intros l' Hl' x. pose proof (c_chain _ H l' Hl' x) as Hx. pose proof (cnt_lose s t l (ref s l - 1) x (l' + 1) Hp) as E1.
    pose proof (cnt_lose s t l (ref s l - 1) x l' Hp) as E2. unfold cnt in E1, E2, Hc.
    destruct (decide (x = t /\ l' + 1 = l)) as [[? ?]|], (decide (x = t /\ l' = l)) as [[? ?]|]; subst; lia.
  - simpl. rewrite at_level_ne by (unfold level in Hl; lia). by apply (c_top _ H).
  - simpl. pose proof (c_bound _ H). destruct (at_level_cases (ref s) l (ref s l - 1) 0) as [[<- ->]|[_ ->]]; lia.
  - intros l' Hl'. pose proof (c_release _ H l' Hl') as E. unfold calls in *. simpl. destruct (decide (l' = l)) as [->|Hne].
    + rewrite at_level_eq. rewrite Hdue in E. rewrite (proj2 (Z.eqb_neq (ref s l) 0)) in E by lia. destruct (ref s l - 1 =? 0); [rewrite at_level_eq; lia|rewrite Hdue; lia].
    + rewrite at_level_ne by done. rewrite <- E. destruct (ref s l - 1 =? 0); [by rewrite at_level_ne|done].
  - intros e He. eapply told_keeps; [exact Hz|]. by apply (c_told _ H).
  - intros t' Ht. split; [intros l'; rewrite cnt_lose, decide_False by naive_solver; lia|]. split; [|done]. intros l'. simpl.
    destruct (ref s l - 1 =? 0); [|done]. destruct (at_level_cases (due s) l (Some t) l') as [[-> ->]|[_ ->]]; [|done]. rewrite Hdue. split; congruence.
  - exact Hz.
Qed.

(** The handler of a level is called. *)
Lemma release_called s t l : counts_ok s -> due s l = Some t -> counts_ok (call_release l s) /\ ref_guar t s (call_release l s).
Proof.
  intros H Hd. split; [split; try apply H|split; [|done]].
  - intros l' Hl'. pose proof (c_release _ H l' Hl') as E. unfold calls in *. simpl. rewrite filter_app, length_app. destruct (decide (l' = l)) as [->|Hne].
    + rewrite at_level_eq, filter_cons_True by done. rewrite Hd in E. simpl. lia.
    + rewrite at_level_ne, filter_cons_False by done. simpl. lia.
  - intros t' Ht. split; [done|]. split; [|done]. intros l'. simpl. destruct (at_level_cases (due s) l None l') as [[-> ->]|[_ ->]]; [|done]. rewrite Hd. split; congruence.
Qed.

(** A result is written down. *)
Lemma record_ok s t o b : counts_ok s -> told ndebug s (t, o, b) -> counts_ok (record (t, o, b) s) /\ ref_guar t s (record (t, o, b) s).
Proof.
  intros H Ht. split; [split; try apply H|split; [|done]].
  - intros e. simpl. rewrite elem_of_app, list_elem_of_singleton. intros [He| ->]; [by apply (c_told _ H)|done].
  - intros t' Hne. do 2 (split; [done|]). simpl. by rewrite of_thread_app, of_thread_other, app_nil_r.
Qed.

Lemma or_keeps t (P Q : thr -> Prop) : keeps t P -> keeps t Q -> keeps t (fun s => P s \/ Q s).
Proof. intros HP HQ t' s s' H1 H2 H3 H4 [A|B]; [left; by apply (HP t' s s')|right; by apply (HQ t' s s')]. Qed.

Lemma const_keeps t (phi : Prop) : keeps t (fun _ => phi).
Proof. by intros t' s s' _ _ _ _ H. Qed.

Lemma stuck_keeps t o h : keeps t (stuck t o h).
Proof. intros t' s s' Hne _ _ [Hg _] H. destruct (Hg t ltac:(done)) as (_ & _ & G). unfold stuck. by rewrite G. Qed.

Hint Resolve owns_keeps and_keeps or_keeps const_keeps stuck_keeps zero_keeps : refs.

Lemma owns_ext t m m' w h s : (forall l, m l = m' l) -> owns t m w h s -> owns t m' w h s.
Proof. intros E (H1 & H2). split; [|done]. intros l. by rewrite H1. Qed.

(** [m] with [d] more at level [l], and at the levels below [l]. *)
Definition plus_at (m : Z -> Z) (l d : Z) : Z -> Z := fun l' => if l' =? l then m l' + d else m l'.
Definition plus_upto (m : Z -> Z) (l d : Z) : Z -> Z := fun l' => if (0 <=? l') && (l' <? l) then m l' + d else m l'.

(** The levels of a thread are nested. *)
Definition nested (m : Z -> Z) : Prop := m 3 = 0 /\ 0 <= m 2 /\ m 2 <= m 1 /\ m 1 <= m 0.

Lemma owns_nested t m w h s : counts_ok s -> owns t m w h s -> nested m.
Proof.
  intros H (Hm & _). unfold nested. rewrite <- !Hm. unfold cnt. pose proof (c_chain _ H 0 ltac:(lia) t). pose proof (c_chain _ H 1 ltac:(lia) t).
  rewrite (c_top _ H), multiplicity_empty. change (0 + 1) with 1 in *. change (1 + 1) with 2 in *. lia.
Qed.

Lemma owns_gain t m h s l v : owns t m None h s -> owns t (plus_at m l 1) None h (gain_ref t l v s).
Proof.
  intros (Hm & Hd & Hh). split; [|done]. intros l'. rewrite cnt_gain, Hm. unfold plus_at. destruct (Z.eqb_spec l' l); [rewrite decide_True by done|rewrite decide_False by naive_solver]; lia.
Qed.

Lemma owns_lose t m h s l v : owns t m None h s -> 0 < m l ->
  owns t (plus_at m l (-1)) (if v =? 0 then Some l else None) h (lose_ref t l v s).
Proof.
  intros (Hm & Hd & Hh) Hp. split; [|split; [|done]].
  - intros l'. rewrite cnt_lose, Hm by (by rewrite Hm). unfold plus_at. destruct (Z.eqb_spec l' l); [rewrite decide_True by done|rewrite decide_False by naive_solver]; lia.
  - intros l'. simpl. destruct (v =? 0); [|apply Hd]. destruct (at_level_cases (due s) l (Some t) l') as [[-> ->]|[Hne ->]]; [done|]. rewrite Hd. split; congruence.
Qed.

(** Why a level was not taken. *)
Definition failed (l rc : Z) (s : thr) : Prop := (rc = - EBUSY /\ ref s l = 0) \/ (ndebug = true /\ rc = - ETOOMANYREFS).
Definition got (t : nat) (l : Z) (m : Z -> Z) (o : refop) (h : list refevent) (r : option Z) (s : thr) : Prop :=
  match r with
  | None => stuck t o h s
  | Some rc => (rc = 0 /\ owns t (plus_at m l 1) None h s) \/ (rc <> 0 /\ owns t m None h s /\ failed l rc s)
  end.

Lemma failed_keeps t l rc : level l -> keeps t (failed l rc).
Proof. intros Hl. unfold failed. auto with refs. Qed.
Hint Resolve failed_keeps : refs.

Lemma bit31 v : 0 <= v < 2 ^ 32 -> (Z.land v (2 ^ 31) =? 0) = (v <? 2 ^ 31).
Proof.
  intros Hv. pose proof (land_bit_value v 31 ltac:(lia)) as E. rewrite Z.testbit_eqb in E by lia. change (Z.shiftl 1 31) with (2 ^ 31) in E.
  rewrite <- (negb_involutive (_ =? 0)), E. pose proof (Z.div_mod v (2 ^ 31) ltac:(lia)). pose proof (Z.mod_pos_bound v (2 ^ 31) ltac:(lia)).
  assert (v / 2 ^ 31 = 0 \/ v / 2 ^ 31 = 1) as [E'|E'] by nia; rewrite E' in *; simpl; symmetry; [apply Z.ltb_lt|apply Z.ltb_ge]; lia.
Qed.

Lemma get_one_triple t o n l m h : level l -> (l = 0 \/ m l < m (l - 1)) ->
  tri t (oo_thr_ref_get_one ndebug t n l) (owns t m None h) (got t l m o h).
Proof.
  intros Hl Hm. induction n as [|n IH]; cbn [oo_thr_ref_get_one].
  - apply triple_ret; [auto with refs|]. by intros s _ (_ & _ & H).
  - unfold in_array. rewrite (proj2 (andb_true_iff _ _)) by (unfold level, OO_THR_REF_INFTY in *; lia).
    apply triple_read; [apply ref_guar_refl|auto with refs|]. intros s HI HP Hw. pose proof (c_bound _ HI) as Hb.
    assert (0 <= ref s l) as Hpos by (rewrite (c_size _ HI) by done; lia).
    assert (ref s l <= ref s 0) as Hle.
    { pose proof (counts_order s HI). assert (l = 0 \/ l = 1 \/ l = 2) as [->|[->| ->]] by (unfold level in Hl; lia); lia. }
    destruct (Z.eqb_spec (ref s l) 0) as [E0|E0].
    { exists (fun s => owns t m None h s /\ ref s l = 0). split; [done|]. apply triple_ret; [auto with refs|]. intros s' _ [H1 H2]. right. split; [done|]. split; [done|by left]. }
    rewrite (wrap_small 32) by (simpl; lia). rewrite bit31 by lia. exists (owns t m None h). split; [done|].
    destruct ((l =? OO_THR_REF_BASE) && negb (ref s l + 1 <? 2 ^ 31)) eqn:E1.
    + unfold ci_assert. apply triple_assert; [|apply triple_ret; [auto with refs|]; intros s' _ H1; right; split; [done|]; split; [done|]; right; split; [|done]].
      all: apply andb_true_iff in E1 as [El Elt]; unfold OO_THR_REF_BASE in El; apply Z.eqb_eq in El; apply negb_true_iff, Z.ltb_ge in Elt; subst l;
        destruct Hw as [->|Hw]; [done|lia].
    + assert (ref s l + 1 < 2 ^ 31) as Hlt.
      { destruct (decide (l = 0)) as [->|Hne]; [simpl in E1; lia|]. destruct Hm as [?|Hm]; [done|]. destruct HP as (HP & _). rewrite <- !HP in Hm.
        pose proof (counts_lt s t l HI ltac:(unfold level in Hl; lia) Hm). pose proof (counts_order s HI).
        assert (l = 1 \/ l = 2) as [->| ->] by (unfold level in Hl; lia); [change (1 - 1) with 0 in *|change (2 - 1) with 1 in *]; lia. }
      unfold ci_assert. rewrite (proj2 (Z.ltb_lt _ _) Hlt), orb_true_r. cbn [aassert abind acas].
      apply triple_do; [auto with refs|]. intros s' HI' HP' _. destruct (Z.eqb_spec (ref s' l) (ref s l)) as [E|E]; cbn [fst snd Z.eqb].
      * destruct (gain_ok s' t l HI' Hl) as [G1 G2]; [lia|intros ->; lia|by rewrite !(proj1 HP')|]. rewrite E in G1, G2.
        split; [done|]. split; [done|]. exists (owns t (plus_at m l 1) None h). split; [by apply owns_gain|]. apply triple_ret; [auto with refs|]. intros s2 _ H2. by left.
      * split; [done|]. split; [apply ref_guar_refl|]. exists (owns t m None h). split; [done|exact IH].
Qed.

Lemma drop_one_triple t l m h : level l -> m (l + 1) < m l ->
  tri t (oo_thr_ref_drop_one t l) (owns t m None h) (fun _ => owns t (plus_at m l (-1)) None h).
Proof.
  intros Hl Hm. unfold oo_thr_ref_drop_one, in_array. rewrite (proj2 (andb_true_iff _ _)) by (unfold level, OO_THR_REF_INFTY in *; lia).
  cbn [dec_and_test abind]. apply triple_do; [auto with refs|]. intros s HI HP _.
  destruct (lose_ok s t l HI Hl) as (G1 & G2 & Hpos & Hd); [by rewrite !(proj1 HP)|].
  assert (0 < m l) as Hml by (rewrite <- (proj1 HP), <- (proj1 HP) in Hm; rewrite <- (proj1 HP); unfold cnt in *; lia).
  assert (ref s l < 2 ^ 31) as Hb.
  { pose proof (counts_order s HI). pose proof (c_bound _ HI). assert (l = 0 \/ l = 1 \/ l = 2) as [->|[->| ->]] by (unfold level in Hl; lia); lia. }
  cbv zeta. rewrite (wrap_small 32) by (simpl; lia). cbn [fst snd]. split; [done|]. split; [done|].
  pose proof (owns_lose t m h s l (ref s l - 1) HP Hml) as Ho. destruct (ref s l - 1 =? 0); cbn [Z.eqb].
  - exists (owns t (plus_at m l (-1)) (Some l) h). split; [done|]. apply triple_do; [auto with refs|]. intros s' HI' HP' _. cbn [fst snd].
    destruct (release_called s' t l HI') as [R1 R2]; [by apply HP'|]. split; [done|]. split; [done|].
    exists (owns t (plus_at m l (-1)) None h). split; [|by apply triple_ret; auto with refs]. destruct HP' as (H1 & H2 & H3). split; [done|]. split; [|done].
    intros l'. simpl. destruct (at_level_cases (due s') l None l') as [[-> ->]|[Hne ->]]; [done|]. rewrite H2. split; congruence.
  - exists (owns t (plus_at m l (-1)) None h). split; [done|]. by apply triple_ret; auto with refs.
Qed.

Lemma plus_upto_down m l x : 0 <= l -> plus_upto (plus_at m l (-1)) l (-1) x = plus_upto m (l + 1) (-1) x.
Proof. intros. unfold plus_upto, plus_at. destruct (Z.leb_spec 0 x), (Z.ltb_spec x l), (Z.ltb_spec x (l + 1)), (Z.eqb_spec x l); simpl; lia. Qed.

Lemma plus_upto_up m l x : 0 <= l -> plus_at (plus_upto m l 1) l 1 x = plus_upto m (l + 1) 1 x.
Proof. intros. unfold plus_upto, plus_at. destruct (Z.leb_spec 0 x), (Z.ltb_spec x l), (Z.ltb_spec x (l + 1)), (Z.eqb_spec x l); simpl; lia. Qed.

Lemma plus_upto_back m l x : plus_upto (plus_upto m l 1) l (-1) x = m x.
Proof. unfold plus_upto. destruct ((0 <=? x) && (x <? l)); lia. Qed.

Lemma plus_upto_0 m d x : plus_upto m 0 d x = m x.
Proof. unfold plus_upto. destruct (Z.leb_spec 0 x), (Z.ltb_spec x 0); simpl; lia. Qed.

Lemma drop_levels_triple t h fuel : forall l m, -1 <= l <= 2 -> Z.of_nat fuel = l + 1 -> (0 <= l -> m (l + 1) < m l) -> (forall k, 0 <= k < l -> m (k + 1) <= m k) ->
  tri t (drop_levels t fuel l) (owns t m None h) (fun _ => owns t (plus_upto m (l + 1) (-1)) None h).
Proof.
  induction fuel as [|fuel IH]; intros l m Hl Hf Htop Hmono; cbn [drop_levels].
  - apply triple_ret; [auto with refs|]. intros s _. apply owns_ext. intros x. replace (l + 1) with 0 by lia. by rewrite plus_upto_0.
  - unfold OO_THR_REF_NONE. rewrite (proj2 (Z.ltb_lt _ _)) by lia. eapply triple_bind; [apply drop_one_triple; [unfold level; lia|apply Htop; lia]|]. intros r. cbv beta.
    apply triple_weaken with (P' := owns t (plus_at m l (-1)) None h) (Q' := fun _ => owns t (plus_upto (plus_at m l (-1)) (l - 1 + 1) (-1)) None h);
      [auto with refs|done| |].
    + intros _ s _. apply owns_ext. intros x. replace (l - 1 + 1) with l by lia. apply plus_upto_down. lia.
    + apply IH; [lia|lia| |].
      * intros H. replace (l - 1 + 1) with l by lia. specialize (Hmono (l - 1) ltac:(lia)). replace (l - 1 + 1) with l in Hmono by lia.
        unfold plus_at. rewrite Z.eqb_refl, (proj2 (Z.eqb_neq (l - 1) l)) by lia. lia.
      * intros k Hk. unfold plus_at. rewrite !(proj2 (Z.eqb_neq _ l)) by lia. apply Hmono. lia.
Qed.

Definition got_levels (t : nat) (type : Z) (m : Z -> Z) (o : refop) (h : list refevent) (r : option (Z * Z)) (s : thr) : Prop :=
  match r with
  | None => stuck t o h s
  | Some (rc, l) => (rc = 0 /\ owns t (plus_upto m (type + 1) 1) None h s) \/
      (rc <> 0 /\ (0 <= l <= type /\ (owns t (plus_upto m l 1) None h s /\ failed l rc s)))
  end.

Lemma got_keeps t l m o h r : level l -> keeps t (got t l m o h r).
Proof. intros Hl. destruct r as [rc|]; unfold got; [apply or_keeps; apply and_keeps|]; auto with refs. Qed.

Lemma nested_step m l : nested m -> 0 <= l <= 1 -> m (l + 1) <= m l.
Proof. intros H Hl. assert (l = 0 \/ l = 1) as [->| ->] by lia; unfold nested in H; [change (0 + 1) with 1|change (1 + 1) with 2]; lia. Qed.

Lemma get_levels_triple t o n type m h fuel : nested m -> level type -> forall l, 0 <= l -> Z.of_nat fuel = type + 1 - l ->
  tri t (get_levels ndebug t n type fuel l) (owns t (plus_upto m l 1) None h) (got_levels t type m o h).
Proof.
  intros Hn Ht. induction fuel as [|fuel IH]; intros l Hl Hf; cbn [get_levels].
  - apply triple_ret; [auto with refs|]. intros s _ H. left. split; [done|]. by replace (type + 1) with l by lia.
  - rewrite (proj2 (Z.leb_le _ _)) by lia. assert (level l) as Hlv by (unfold level in *; lia). eapply triple_bind; [apply (get_one_triple t o)|].
    + done.
    + destruct (decide (l = 0)) as [|Hne]; [by left|right]. pose proof (nested_step m (l - 1) Hn ltac:(unfold level in *; lia)) as Hs. replace (l - 1 + 1) with l in Hs by lia.
      unfold plus_upto. rewrite Z.ltb_irrefl, andb_false_r. rewrite (proj2 (andb_true_iff _ _)) by lia. lia.
    + intros [rc|]; [|apply triple_ret; [by apply got_keeps|done]].
      pose proof (got_keeps t l (plus_upto m l 1) o h (Some rc) Hlv) as Hst. destruct (Z.eqb_spec rc 0) as [->|Hrc]; cbn [negb].
      * apply triple_weaken with (P' := owns t (plus_upto m (l + 1) 1) None h) (Q' := got_levels t type m o h); [done| |done|apply IH; lia].
        intros s _ [[_ H]|[H _]]; [|done]. revert H. apply owns_ext. intros x. by apply plus_upto_up.
      * apply triple_ret; [done|]. intros s _ [[H _]|(_ & H)]; [done|]. right. split; [done|]. split; [unfold level in Ht; lia|done].
Qed.

(** What a call has taken below a level that failed is given back. *)
Lemma rollback_triple t l rc m h : nested m -> level l ->
  tri t (drop_levels t (Z.to_nat l) (l - 1)) (fun s => owns t (plus_upto m l 1) None h s /\ failed l rc s) (fun _ s => owns t m None h s /\ failed l rc s).
Proof.
  intros Hn Hl. assert (forall t' s s', ref_guar t' s s' -> failed l rc s -> failed l rc s') as HF.
  { intros t' s s' [_ Hz] [[E H]|H]; [left|by right]. split; [done|by apply Hz]. }
  apply triple_weaken with (P' := fun s => owns t (plus_upto m l 1) None h s /\ failed l rc s)
    (Q' := fun _ s => owns t (plus_upto (plus_upto m l 1) (l - 1 + 1) (-1)) None h s /\ failed l rc s);
    [auto with refs|done| |apply triple_frame; [done|]; apply drop_levels_triple].
  - intros _ s _ [H Hf]. split; [|done]. revert H. apply owns_ext. intros x. replace (l - 1 + 1) with l by lia. apply plus_upto_back.
  - unfold level in *; lia.
  - unfold level in *; lia.
  - intros H0. replace (l - 1 + 1) with l by lia. pose proof (nested_step m (l - 1) Hn ltac:(unfold level in *; lia)) as Hs. replace (l - 1 + 1) with l in Hs by lia.
    unfold plus_upto. rewrite Z.ltb_irrefl, andb_false_r. rewrite (proj2 (andb_true_iff _ _)) by lia. lia.
  - intros k Hk. pose proof (nested_step m k Hn ltac:(unfold level in *; lia)) as Hs. unfold plus_upto. rewrite !(proj2 (andb_true_iff _ _)) by lia. lia.
Qed.

Lemma zero_above s l type : counts_ok s -> 0 <= l <= type -> level type -> ref s l = 0 -> ref s type = 0.
Proof.
  intros HI Hl Ht Hz. pose proof (counts_order s HI) as Ho. pose proof (c_size _ HI type Ht).
  assert (l = 0 \/ l = 1 \/ l = 2) as [->|[->| ->]] by (unfold level in *; lia); assert (type = 0 \/ type = 1 \/ type = 2) as [->|[->| ->]] by (unfold level in *; lia); lia.
Qed.

(** What a call leaves when it has a result. *)
Definition finished (t : nat) (o : refop) (m : Z -> Z) (h : list refevent) (r : option Z) (s : thr) : Prop :=
  match r with
  | None => stuck t o h s
  | Some b => owns t (fun l => m l + change l (t, o, b)) None h s /\ told ndebug s (t, o, b)
  end.

Lemma get_triple t n type m h : nested m -> level type ->
  tri t (oo_thr_ref_get ndebug t n type) (owns t m None h) (finished t (OGet type (Nat.pred n)) m h).
Proof.
  intros Hn Ht. unfold oo_thr_ref_get, ci_assert. apply triple_assert; [unfold level, OO_THR_REF_NONE in *; by rewrite (proj2 (Z.ltb_lt _ _)), orb_true_r by lia|].
  eapply triple_bind.
  - apply triple_weaken with (P' := owns t (plus_upto m 0 1) None h) (Q' := got_levels t type m (OGet type (Nat.pred n)) h);
      [auto with refs| |intros a s _ H; exact H|apply get_levels_triple; [done|done|done|unfold level in Ht; change (OO_THR_REF_NONE + 1) with 0; lia]].
    intros s _. apply owns_ext. intros x. by rewrite plus_upto_0.
  - intros [[rc l]|]; [|apply triple_ret; [apply (stuck_keeps t (OGet type (Nat.pred n)) h)|done]].
    assert (keeps t (got_levels t type m (OGet type (Nat.pred n)) h (Some (rc, l)))) as Hst.
    { unfold got_levels. apply or_keeps; [auto with refs|]. apply and_keeps; [auto with refs|]. intros t' s s' G1 G2 G3 G4 [Hl H]. split; [done|]. revert H.
      assert (level l) by (unfold level in *; lia). apply (and_keeps t _ _ (owns_keeps t _ None h) (failed_keeps t l rc ltac:(done)) t' s s' G1 G2 G3 G4). }
    destruct (Z.eqb_spec rc 0) as [->|Hrc].
    + apply triple_ret; [done|]. intros s _ [[_ H]|[H _]]; [|done]. split; [|by left]. revert H. apply owns_ext. intros x. unfold plus_upto. simpl.
      destruct (Z.leb_spec 0 x), (Z.ltb_spec x (type + 1)), (Z.leb_spec x type); simpl; lia.
    + apply triple_pure with (phi := 0 <= l <= type); [apply _|done|by intros s _ [[H _]|(_ & H & _)]|]. intros Hl. assert (level l) as Hlv by (unfold level in *; lia).
      eapply triple_bind with (Q := fun _ s => owns t m None h s /\ failed l rc s).
      * apply triple_weaken with (P' := fun s => owns t (plus_upto m l 1) None h s /\ failed l rc s) (Q' := fun _ s => owns t m None h s /\ failed l rc s);
          [done|by intros s _ [[H _]|(_ & _ & H)]|done|by apply rollback_triple].
      * intros v. cbv beta. apply triple_ret; [auto with refs|]. intros s HI [H Hf]. split.
        -- revert H. apply owns_ext. intros x. simpl. rewrite (proj2 (Z.eqb_neq rc 0)) by done. simpl. lia.
        -- simpl. right. destruct Hf as [[-> Hz]|Hf]; [left|by right]. split; [done|]. split; [done|]. by apply (zero_above s l).
Qed.

Lemma finished_none t o m h : keeps t (finished t o m h None).
Proof. apply stuck_keeps. Qed.

Lemma returns_triple t o m h p (Q : Z -> thr -> Prop) : tri t p (owns t m None h) Q -> (forall b, keeps t (Q b)) ->
  (forall b s, counts_ok s -> Q b s -> finished t o m h (Some b) s) -> tri t (returns p) (owns t m None h) (finished t o m h).
Proof. intros Hp Hst HQ. eapply triple_bind; [exact Hp|]. intros b. apply triple_ret; [apply Hst|apply HQ]. Qed.

Lemma is_zero_triple t type m h : -1 <= type <= 3 ->
  tri t (returns (oo_thr_ref_is_zero ndebug type)) (owns t m None h) (finished t (OIsZero type) m h).
Proof.
  intros Ht. assert (forall s, owns t m None h s -> owns t (fun l => m l + change l (t, OIsZero type, 0)) None h s) as Hext.
  { intros s. apply owns_ext. intros x. simpl. lia. }
  unfold oo_thr_ref_is_zero, ci_assert, OO_THR_REF_NONE, OO_THR_REF_INFTY. rewrite !(proj2 (Z.leb_le _ _)), !orb_true_r by lia. cbn [aassert].
  destruct (Z.eqb_spec type (-1)) as [->|H1]; [|destruct (Z.eqb_spec type 3) as [->|H3]].
  - apply triple_ret; [auto with refs|]. intros s _ H. split; [by apply Hext|]. left. by split.
  - apply triple_ret; [auto with refs|]. intros s _ H. split; [by apply Hext|]. right. split; [done|by left].
  - unfold in_array, OO_THR_REF_INFTY. rewrite (proj2 (andb_true_iff _ _)) by lia. apply triple_do; [auto with refs|]. intros s HI HP _. cbn [fst snd].
    split; [done|]. split; [done|]. assert (level type) as Hl by (unfold level; lia). destruct (Z.eqb_spec (ref s type) 0) as [E|E].
    + exists (fun s => owns t m None h s /\ ref s type = 0). split; [done|]. apply triple_ret; [auto with refs|]. intros s' _ [H Hz]. split; [by apply Hext|].
      right. split; [done|by right].
    + exists (owns t m None h). split; [done|]. apply triple_ret; [auto with refs|]. intros s' _ H. split; [by apply Hext|]. left. split; [done|lia].
Qed.

Lemma body_triple t o m h : nested m -> fits m o -> tri t (ref_body ndebug t o) (owns t m None h) (finished t o m h).
Proof.
  intros Hn Hf. destruct o as [type n|type|type n|type|type]; unfold ref_body.
  - destruct Hf as [Hl Hm]. apply triple_weaken with (P' := owns t m None h) (Q' := got t type m (OGetOne type n) h); [auto with refs|done| |by apply get_one_triple].
    intros [rc|] s _; [|done]. intros [[-> H]|(Hrc & H & Hfl)]; split.
    + revert H. apply owns_ext. intros x. unfold plus_at. simpl. destruct (x =? type); lia.
    + by left.
    + revert H. apply owns_ext. intros x. simpl. rewrite (proj2 (Z.eqb_neq rc 0)) by done. simpl. lia.
    + right. destruct Hfl as [[-> Hz]|Hfl]; [by left|by right].
  - destruct Hf as [Hl Hm]. eapply returns_triple; [by apply drop_one_triple|intros; apply owns_keeps|]. intros b s _ H. split; [|done].
    revert H. apply owns_ext. intros x. unfold plus_at. simpl. destruct (x =? type); lia.
  - by apply (get_triple t (S n)).
  - destruct Hf as [Hl Hm]. eapply returns_triple with (Q := fun _ => owns t (plus_upto m (type + 1) (-1)) None h); [|intros; apply owns_keeps|].
    + unfold oo_thr_ref_drop, ci_assert. apply triple_assert; [unfold level, OO_THR_REF_NONE in *; by rewrite (proj2 (Z.ltb_lt _ _)), orb_true_r by lia|].
      unfold level in Hl. apply drop_levels_triple; [lia|lia|done|]. intros k Hk. apply nested_step; [done|lia].
    + intros b s _ H. split; [|done]. revert H. apply owns_ext. intros x. unfold plus_upto. simpl.
      destruct (Z.leb_spec 0 x), (Z.ltb_spec x (type + 1)), (Z.leb_spec x type); simpl; lia.
  - by apply is_zero_triple.
Qed.

Lemma balance_snoc l h e : balance l (h ++ [e]) = balance l h + change l e.
Proof. induction h as [|e' h IH]; simpl; [lia|]. rewrite IH. lia. Qed.

(** What a thread that is at rest has, by its results [h]. *)
Definition has_by (t : nat) (h : list refevent) (l : Z) : Z := cnt s0 t l + balance l h.

Lemma start_owns t o h s : start results ref_pre t o h s -> owns t (has_by t h) None h s /\ fits (has_by t h) o.
Proof.
  intros (<- & Hset & Hf). assert (forall l, cnt s t l = has_by t (of_thread t (results s)) l) as E by (intros l; apply Hset). split.
  - split; [done|]. split; [|done]. intros l. split; [|done]. intros Hd. by destruct (proj2 (Hset l)).
  - destruct o; simpl in *; rewrite <- ?E; done.
Qed.

Lemma settled_keeps t : keeps t (settled t).
Proof.
  intros t' s s' Hne _ _ [Hg _] H l. destruct (Hg t ltac:(done)) as (G1 & G2 & G3). destruct (H l) as [H1 H2]. rewrite G1, G3. split; [done|]. by rewrite G2.
Qed.

Lemma pre_keeps t o : keeps t (ref_pre t o).
Proof.
  intros t' s s' Hne HI HI' Hg [H1 H2]. split; [by apply (settled_keeps t t' s s')|]. destruct Hg as [Hg _]. destruct (Hg t ltac:(done)) as (G1 & _).
  destruct o; simpl in *; rewrite ?G1; done.
Qed.

Lemma start_keeps t o h : keeps t (start results ref_pre t o h).
Proof.
  intros t' s s' Hne HI HI' Hg [H1 H2]. split; [|by apply (pre_keeps t o t' s s')]. destruct Hg as [Hg _]. destruct (Hg t ltac:(done)) as (_ & _ & G3). by rewrite G3.
Qed.

#[local] Instance fits_dec m o : Decision (nested m /\ fits m o).
Proof. destruct o; unfold nested, fits, level; apply _. Defined.

Lemma ref_outline t o h :
  outline results (few_refs ndebug) counts_ok ref_guar stuck settled t o h (ref_code ndebug t o) (start results ref_pre t o h).
Proof.
  unfold ref_code. apply outline_bind with (Q := finished t o (has_by t h) h).
  - apply triple_pure with (phi := nested (has_by t h) /\ fits (has_by t h) o); [apply _|apply start_keeps| |].
    + intros s HI Hs. apply start_owns in Hs as [Ho Hf]. split; [by eapply owns_nested|done].
    + intros [Hn Hf]. apply triple_weaken with (P' := owns t (has_by t h) None h) (Q' := finished t o (has_by t h) h);
        [apply start_keeps|intros s _ Hs; by apply start_owns in Hs as [? _]|done|by apply body_triple].
  - intros [b|]; [|by apply outline_again; [apply stuck_keeps|]].
    assert (keeps t (finished t o (has_by t h) h (Some b))) as Hst.
    { intros t' s s' Hne HI HI' Hg [H1 H2]. split; [by apply (owns_keeps t _ None h t' s s')|]. eapply told_keeps; [apply Hg|done]. }
    apply outline_do; [done|]. intros s HI [Ho Ht] _. cbn [fst snd]. destruct (record_ok s t o b HI Ht) as [R1 R2]. split; [done|]. split; [done|].
    exists (owns t (fun l => has_by t h l + change l (t, o, b)) None (h ++ [(t, o, b)])). destruct Ho as (O1 & O2 & O3). split.
    + split; [done|]. split; [done|]. simpl. by rewrite of_thread_app, of_thread_mine, O3.
    + apply outline_ret; [apply owns_keeps|]. intros s' _ (P1 & P2 & P3). split; [done|]. intros l. rewrite P1, P3, balance_snoc. unfold has_by. split; [lia|]. rewrite P2. congruence.
Qed.

Lemma spin_outline t o h : outline results (few_refs ndebug) counts_ok ref_guar stuck settled t o h (spin t o) (stuck t o h).
Proof.
  apply outline_do; [apply stuck_keeps|]. intros s HI HP _. cbn [fst snd]. split; [done|]. split; [done|]. exists (stuck t o h). split; [done|].
  by apply outline_again; [apply stuck_keeps|].
Qed.

(** No call is out of passes when it starts. *)
Definition moving {A} (p : act thr A) : Prop := match p with Ret _ => False | _ => True end.

Lemma moving_bind {A B} (p : act thr A) (k : A -> act thr B) : moving p -> moving (abind p k).
Proof. by destruct p. Qed.

Lemma get_one_moving t n l : moving (oo_thr_ref_get_one ndebug t (S n) l).
Proof. simpl. unfold in_array. by destruct (_ && _). Qed.

Lemma body_goes t o : ref_body ndebug t o <> Ret None.
Proof.
  destruct o as [l n|l|l n|l|l]; unfold ref_body, returns; [|by destruct (oo_thr_ref_drop_one t l)| |by destruct (oo_thr_ref_drop ndebug t l)|by destruct (oo_thr_ref_is_zero ndebug l)].
  - intros E. pose proof (get_one_moving t n l) as H. by rewrite E in H.
  - unfold oo_thr_ref_get, ci_assert. destruct (ndebug || _); [|done]. cbn [aassert]. intros E. destruct (Z.to_nat (l + 1)) as [|k]; [done|]. cbn [get_levels] in E.
    destruct (OO_THR_REF_NONE + 1 <=? l); [|done]. match type of E with ?p = _ => assert (moving p) as H by apply moving_bind, moving_bind, get_one_moving end. by rewrite E in H.
Qed.

Lemma code_goes t o : ref_code ndebug t o <> Ret None.
Proof. unfold ref_code. pose proof (body_goes t o) as H. by destruct (ref_body ndebug t o) as [[b|]| |]. Qed.

Definition ref_step : rconf -> rconf -> Prop := rstep (ref_code ndebug) spin (fun s t o => fits (cnt s t) o) (few_refs ndebug).

Lemma refs_good c : counts_ok s0 -> results s0 = [] -> (forall l, due s0 l = None) -> rtc ref_step (RConf s0 ∅ []) c ->
  good results (few_refs ndebug) counts_ok ref_guar stuck settled c.
Proof.
  intros H0 Hr Hd Hs. apply (outlines_sound (ref_code ndebug) spin results (fun s t o => fits (cnt s t) o) (few_refs ndebug)) with (s0 := s0) (pre := ref_pre);
    [apply ref_outline|apply spin_outline|done|apply settled_keeps| |apply code_goes|done|done|done| |exact Hs].
  - intros t s s' [Hg _] t' Ht. by apply Hg.
  - intros t l. rewrite Hr, Hd. simpl. split; [lia|done].
Qed.
End Proof.

(** C40: the reference counts of a stack are exact.  In every interleaving of the loads,
    swaps and decrements of any number of threads that take references and drop those they
    have: no assertion fails and the array is never left; each count is the number of its
    holders, an application's reference is also one of a process and that an internal
    one, and the counts stay below [2^31], with the overflow test on the lowest level
    alone; a thread between two calls has exactly the references that the results of its
    calls say, so that an attempt that failed half-way has given back what it took; the
    handler of a level is called at most once and only for a count that is 0 for good,
    and when nobody is in a call it has been called for just those levels whose count
    went down to 0; a call that was told that a level is gone was told the truth, also
    later.  In a build with assertions a run is followed as long as there are fewer than
    [2^31 - 1] base references ([few_refs]): asking for the last of these fails the assertion on
    overflow. *)
Theorem thr_refs_exact ndebug s0 c : counts_ok ndebug s0 s0 -> results s0 = [] -> (forall l, due s0 l = None) ->
  rtc (ref_step ndebug) (RConf s0 ∅ []) c ->
  (forall t o, threads c !! t <> Some (o, Fail)) /\
  (forall l, level l -> ref (shared c) l = Z.of_nat (size (holders (shared c) l))) /\
  ref (shared c) OO_THR_REF_APP <= ref (shared c) OO_THR_REF_FILE <= ref (shared c) OO_THR_REF_BASE /\ ref (shared c) OO_THR_REF_BASE < 2 ^ 31 /\
  (forall t l, threads c !! t = None -> cnt (shared c) t l = cnt s0 t l + balance l (of_thread t (outs c))) /\
  (forall l, level l -> 0 <= calls l (shared c) <= 1 /\ (calls l (shared c) = 1 -> ref (shared c) l = 0)) /\
  (threads c = ∅ -> forall l, level l -> calls l (shared c) = 1 <-> ref (shared c) l = 0 /\ ref s0 l <> 0) /\
  (forall t o b, threads c !! t = None -> (t, o, b) ∈ outs c -> told ndebug (shared c) (t, o, b)).
Proof.
  intros H0 Hr Hd Hs. pose proof (refs_good ndebug s0 c H0 Hr Hd Hs) as Hg. destruct (good_facts _ _ _ _ _ _ _ Hg) as (HI & Hnf & Hres & _).
  destruct Hg as (_ & Hidle & _). split; [done|]. split; [apply (c_size _ _ _ HI)|]. split; [apply (counts_order _ _ _ HI)|]. split; [apply (c_bound _ _ _ HI)|].
  split; [intros t l Ht; destruct (Hidle t Ht) as [<- Hi]; apply Hi|]. split; [|split].
  - intros l Hl. pose proof (c_release _ _ _ HI l Hl) as E. assert (0 <= calls l (shared c)) by (unfold calls; lia).
    destruct (due (shared c) l), (ref s0 l =? 0), (Z.eqb_spec (ref (shared c) l) 0); lia.
  - intros Hemp l Hl. pose proof (c_release _ _ _ HI l Hl) as E. assert (due (shared c) l = None) as Hn.
    { destruct (due (shared c) l) as [t|] eqn:Ed; [|done]. destruct (Hidle t) as [_ Hi]; [by rewrite Hemp|]. by destruct (Hi l). }
    rewrite Hn in E. destruct (Z.eqb_spec (ref s0 l) 0), (Z.eqb_spec (ref (shared c) l) 0); lia.
  - intros t o b Ht Hin. apply (c_told _ _ _ HI). assert ((t, o, b) ∈ of_thread t (outs c)) as Hin' by (apply list_elem_of_filter; by split).
    rewrite <- (Hres t Ht) in Hin'. by apply list_elem_of_filter in Hin' as [_ ?].
Qed.

(** ** A run: while thread 1 takes an application reference, the last one goes *)

Definition thr1 : thr := Thr (fun _ => 1) [] (fun l => if (0 <=? l) && (l <=? 2) then {[+ 0%nat +]} else ∅) (fun _ => None) [].

Definition ref_schedule : list (@cmd refop) :=
  [Call 1 (OGet 2 1); Act 1; Act 1; Act 1; Call 0 (ODrop 2); Act 0; Act 1; Act 1; Act 1; Act 0; Act 0; Act 1; Act 1; Return 1;
   Act 0; Act 0; Act 0; Act 0; Return 0]%nat.

#[local] Instance fits_alone_dec m o : Decision (fits m o).
Proof. destruct o; unfold fits, level; apply _. Defined.

Definition ref_run : option rconf :=
  rexec (ref_code false) spin (fun s t o => bool_decide (fits (cnt s t) o)) (fun s => ref s 0 <? 2 ^ 31 - 1) (RConf thr1 ∅ []) ref_schedule.

Lemma counts_thr1 : counts_ok false thr1 thr1.
Proof.
  split; simpl; try done; [| |by intros e ?%elem_of_nil].
  - intros l Hl. rewrite (proj2 (andb_true_iff _ _)) by (unfold level in Hl; lia). by rewrite gmultiset_size_singleton.
  - intros l Hl. destruct (Z.leb_spec 0 (l + 1)), (Z.leb_spec (l + 1) 2), (Z.leb_spec 0 l), (Z.leb_spec l 2); simpl; try lia; done || apply gmultiset_empty_subseteq.
Qed.

Lemma thr_refs_exact_witness : exists c, ref_run = Some c /\ outs c = [(1%nat, OGet 2 1, -16); (0%nat, ODrop 2, 0)] /\ released (shared c) = [2; 1; 0] /\
  (forall l, level l -> calls l (shared c) = 1 <-> ref (shared c) l = 0 /\ ref thr1 l <> 0) /\
  (forall l, cnt (shared c) 1 l = cnt thr1 1 l + balance l [(1%nat, OGet 2 1, -16)]).
Proof.
  assert (option_map outs ref_run = Some [(1%nat, OGet 2 1, -16); (0%nat, ODrop 2, 0)]) as E1 by (vm_compute; reflexivity).
  assert (option_map (fun c => released (shared c)) ref_run = Some [2; 1; 0]) as E2 by (vm_compute; reflexivity).
  assert (option_map (fun c => (bool_decide (threads c = ∅))) ref_run = Some true) as E3 by (vm_compute; reflexivity).
  destruct ref_run as [c|] eqn:E; [|discriminate E1]. cbn [option_map] in E1, E2, E3. injection E1 as E1. injection E2 as E2. injection E3 as E3.
  apply bool_decide_eq_true in E3. exists c.
  destruct (thr_refs_exact false thr1 c) as (_ & _ & _ & _ & Hb & _ & Hc & _); [exact counts_thr1|reflexivity|reflexivity| |].
  - eapply rexec_steps; [| |exact E].
    + intros s t o H. by apply bool_decide_eq_true in H.
    + intros s H. right. by apply Z.ltb_lt.
  - split; [reflexivity|]. split; [exact E1|]. split; [exact E2|]. split; [exact (Hc E3)|]. intros l. rewrite (Hb 1%nat l) by (rewrite E3; reflexivity). by rewrite E1.
Defined.
