(* ===== verification/RwLock.v ===== *)
(** * RwLock: the reader-writer lock of a process ([onload/ul/rwlock.h])

    A thread that reads registers with the lock once and from then on marks with a flag
    of its own that it is reading; a writer takes the registrations back, waits until
    nobody reads and then competes for a mutex with other writers.  The steps that change
    the set of registered readers are functions of the library and parameters here.  The
    inline operations that do not wait are modelled as one thread runs them, the effects
    of others being those of the parameters. *)

From Stdlib Require Import ZArith Lia Bool.
From stdpp Require Import base list.
From S2P Require Import Prelude.

(** [flags] are those of the thread, [None] when it has no data of its own for this lock
    yet. *)
Record rwlock := RwLock {
  val : Z; writers : Z; mutex : bool; write_lock : bool; flags : option Z }.

Definition OO_RWLOCK_KEY_IS_READER : Z := 1.
Definition OO_RWLOCK_KEY_READING_NOW : Z := 2.
Definition OO_RWLOCK_VAL_WRITER : Z := 0x8000000000000000.

Definition set_val v l := RwLock v (writers l) (mutex l) (write_lock l) (flags l).
Definition set_writers v l := RwLock (val l) v (mutex l) (write_lock l) (flags l).
Definition set_mutex v l := RwLock (val l) (writers l) v (write_lock l) (flags l).
Definition set_write_lock v l := RwLock (val l) (writers l) (mutex l) v (flags l).
Definition set_flags v l := RwLock (val l) (writers l) (mutex l) (write_lock l) (Some v).

Abbreviation RM := (cm rwlock).

(** A mutex that the thread already holds, or that it releases without holding it, makes
    [CI_TRY] stop the process. *)
Definition pthread_mutex_lock : RM unit := let! l := get in if mutex l then stop Abort else modify (set_mutex true).
Definition pthread_mutex_unlock : RM unit := let! l := get in if mutex l then modify (set_mutex false) else stop Abort.

Section Code.
(** Whether assertions are compiled in, and the functions of the library:
    [rwlock_try_start_read], [rwlock_stop_read], [rwlock_writers_dec],
    [rwlock_clear_readers]. *)
Context (debug : bool).
Context (rwlock_try_start_read : RM bool) (rwlock_stop_read : RM unit) (rwlock_writers_dec : bool -> RM unit).
Context (rwlock_clear_readers : RM unit).

Definition rw_assert (b : bool) : RM unit := if debug && negb b then stop Abort else ret tt.

Definition oo_rwlock_ctor : RM Z :=
  modify (fun l => RwLock 0 0 false false None) ;;; ret 0.

(** [calloc] clears the flags of a thread that comes for the first time. *)
Definition oo_rwlock_perthread_get : RM Z :=
  let! l := get in
  match flags l with
  | Some f => ret f
  | None => modify (set_flags 0) ;;; ret 0
  end.

(** The swap of the flags succeeds when nobody took the registration back meanwhile. *)
Definition oo_rwlock_try_read : RM bool :=
  let! f := oo_rwlock_perthread_get in
  if Z.land f OO_RWLOCK_KEY_IS_READER =? 0 then
    pthread_mutex_lock ;;;
    let! rc := rwlock_try_start_read in
    pthread_mutex_unlock ;;; ret rc
  else modify (set_flags (Z.lor f OO_RWLOCK_KEY_READING_NOW)) ;;; ret true.

Definition oo_rwlock_unlock_read : RM unit :=
  let! f := oo_rwlock_perthread_get in
  rw_assert (Z.land f (Z.lor OO_RWLOCK_KEY_IS_READER OO_RWLOCK_KEY_READING_NOW) =? Z.lor OO_RWLOCK_KEY_IS_READER OO_RWLOCK_KEY_READING_NOW) ;;;
  modify (set_flags (Z.land f (Z.lnot OO_RWLOCK_KEY_READING_NOW))) ;;;
  let! l := get in
  if negb (Z.land (val l) OO_RWLOCK_VAL_WRITER =? 0) then rwlock_stop_read else ret tt.

(** The rest of [oo_rwlock_try_write] once the writer flag is alone in [val]. *)
Definition take_write_lock : RM bool :=
  (let! l := get in rw_assert (val l =? 0)) ;;;
  pthread_mutex_unlock ;;;
  let! l := get in
  if write_lock l then rwlock_writers_dec false ;;; ret false
  else modify (set_write_lock true) ;;; ret true.

Definition oo_rwlock_try_write : RM bool :=
  (if debug then let! f := oo_rwlock_perthread_get in rw_assert (Z.land f OO_RWLOCK_KEY_READING_NOW =? 0) else ret tt) ;;;
  let! l := get in
  if negb (writers l =? 0) then ret false else
  modify (set_writers 1) ;;;
  pthread_mutex_lock ;;;
  modify (fun l => set_val (Z.lor (val l) OO_RWLOCK_VAL_WRITER) l) ;;;
  let! l := get in
  let! busy := (if val l =? OO_RWLOCK_VAL_WRITER then ret false else
    rwlock_clear_readers ;;; let! l := get in ret (negb (val l =? OO_RWLOCK_VAL_WRITER))) in
  if (busy : bool) then rwlock_writers_dec true ;;; ret false else take_write_lock.

Definition oo_rwlock_unlock_write : RM unit :=
  let! l := get in
  if write_lock l then modify (set_write_lock false) ;;; rwlock_writers_dec false else stop Abort.
End Code.

(** ** What the assertion in [oo_rwlock_try_write] does *)

Lemma bind_inv {S A B} (c : cm S A) (k : A -> cm S B) s s' b : bind c k s = (s', Ok b) -> exists s1 a, c s = (s1, Ok a) /\ k a s1 = (s', Ok b).
Proof. unfold bind. destruct (c s) as [s1 [a|st| |]]; intros H; [by exists s1, a|discriminate H..]. Qed.

Ltac step_inv H := let s := fresh "s" in let a := fresh "a" in let E := fresh "E" in apply bind_inv in H as (s & a & E & H).

(** With assertions compiled in no writer gets the lock by trying: the flag that was just
    set makes the assertion that [val] is 0 fail, whatever the library does. *)
Lemma try_write_debug stop_dec clear l l' b : oo_rwlock_try_write true stop_dec clear l = (l', Ok b) -> b = false.
Proof.
  unfold oo_rwlock_try_write. intros H. step_inv H. clear E. step_inv H. clear E. destruct (negb _); [by injection H|].
  do 4 step_inv H. step_inv H. destruct a5; [step_inv H; by injection H|]. destruct (val s5 =? 0) eqn:Ev.
  - exfalso. injection E2 as <- <-. apply Z.eqb_eq in Ev. destruct (Z.eqb_spec (val s3) OO_RWLOCK_VAL_WRITER) as [Ew|Ew].
    + injection E3 as <-. rewrite Ev in Ew. discriminate Ew.
    + step_inv E3. step_inv E3. injection E4 as <- <-. injection E3 as <- Eb. apply negb_false_iff, Z.eqb_eq in Eb. rewrite Ev in Eb. discriminate Eb.
  - unfold take_write_lock in H. step_inv H. unfold rw_assert in E4. rewrite bind_get, Ev in E4. discriminate E4.
Qed.

(** Without assertions a free lock is taken, and released again by its holder; a thread
    that is registered reads without a call into the library. *)
Lemma try_write_ndebug stop_dec clear l : val l = 0 -> writers l = 0 -> mutex l = false -> write_lock l = false ->
  oo_rwlock_try_write false stop_dec clear l = (RwLock OO_RWLOCK_VAL_WRITER 1 false true (flags l), Ok true) /\
  oo_rwlock_try_write true stop_dec clear (set_flags 0 l) = (RwLock OO_RWLOCK_VAL_WRITER 1 true false (Some 0), Abort).
Proof. destruct l as [v w mx wl f]. simpl. intros -> -> -> ->. by split. Qed.

Lemma registered_read debug start stopr l : flags l = Some OO_RWLOCK_KEY_IS_READER -> Z.land (val l) OO_RWLOCK_VAL_WRITER = 0 ->
  exists l1, oo_rwlock_try_read start l = (l1, Ok true) /\ val l1 = val l /\ flags l1 = Some 3 /\ oo_rwlock_unlock_read debug stopr l1 = (l, Ok tt).
Proof.
  destruct l as [v w mx wl f]. simpl. intros -> Hw. exists (RwLock v w mx wl (Some 3)). split; [done|]. split; [done|]. split; [done|].
  transitivity ((if negb (Z.land v OO_RWLOCK_VAL_WRITER =? 0) then stopr else ret tt) (RwLock v w mx wl (Some 1))); [by destruct debug|by rewrite Hw].
Qed.
